(* ===== verification/_CoqProject ===== *)
-Q . S2P
Prelude.v
GoSort.v
GoBytes.v
GoFloat.v
GoRegexp.v
GoFmt.v
Model.v
Scheduler.v
SchedulerFacts.v
SchedulerProps.v
Db.v
Effects.v
GoStrings.v
GoUrl.v
Shards.v
StateMachine.v
Lifecycle.v
Predictor.v
RunManager.v
RunManagerSafe.v
RunManagerProps.v
RunManagerOps.v
Redact.v
Worker.v
Pytest.v
Gotest.v
Jest.v
Astsig.v
RunSvc.v
RunSvcProps.v
Cluster.v
Otlp.v
Auth.v
ApiKeys.v
GrpcSvc.v
ServicesSafe.v
Flake.v
Quarantine.v
Backfill.v
Graphql.v
CheckObserver.v
LlmHints.v
GraphqlProps.v
Reschedule.v
Witnesses.v
WorkerProps.v
Rest.v
GraphqlWs.v
Oidc.v
Digest.v
Export.v
Webhook.v
JobsSafe.v
OidcProps.v
ExportProps.v
AdapterProps.v
FlakeExact.v
QuarantineProps.v
BackfillProps.v
Hub.v
HubProps.v
HubSpec.v
Codeowners.v
Migrate.v
Spot.v
TeoReplay.v
Github.v
ResultPipeline.v
System.v
Typed.v
CheckProps.v
Claims.v
Insights.v
GraphqlSchema.v
Gateway.v
ApiMain.v
AuditLog.v
Doctor.v
TeoCli.v
Processes.v
