(* ===== verification/Prelude.v ===== *)
(** * TEO: a verification library for the test execution orchestrator

    TEO plans, dispatches and runs the tests of a repository on a fleet of
    workers.  A run is created over REST or gRPC ([internal/runsvc]), planned
    and dispatched by the run manager ([internal/runmanager], with
    [internal/scheduler] and [internal/predictor]), claimed shard by shard by
    worker agents ([internal/worker], with the adapters of [pkg/adapter]) or
    over gRPC ([internal/grpcsvc]), and its results feed failure clustering
    ([internal/resultpipeline]), flake detection ([internal/flake]), hints
    ([internal/llmhints]), quarantine ([internal/quarantine]), the weekly digest
    ([internal/digest]) and the checks and the dashboard ([internal/github],
    [internal/api]).  All of them share one Postgres database and no other state.

    ** How the model is built

    - Go's standard library, as far as the program uses it: [GoSort] (stable
      sort), [GoBytes] (bytes, SHA-256, hex, base64), [GoFloat] (float64 and
      float32 as executable IEEE 754 functions, JSON trees), [GoRegexp]
      (leftmost-first matching and its language), [GoStrings] (strings, and the
      scanners of bufio), [GoUrl] (query escaping and its parser), [GoFmt]
      (formatting and times).  A Go int is a Z, wrapped to 64 bits ([wrap64]) where the
      program adds or multiplies; columns refuse
      what does not fit their type.
    - The database: [Db] holds the tables of migrations/postgres as finite maps of
      row records and the shapes of statements; time is in microseconds.
    - Effects: [Effects] is an error-and-state monad over a [World]: the database,
      the open transaction, the advisory locks others hold, a source of fresh
      ids, the outputs (NATS messages, observers, uploads, issues, mails) and an
      environment that may, before any database call, let other sessions commit
      or make the call fail or lose its reply.  A transaction reads committed
      rows and locks the rows it changed.  [FOR UPDATE] locks on rows not
      changed yet are not modelled.
    - What is not in the repository is a parameter: the test runners' processes
      and the parsers of their languages, the ML service, Argon2, the JWT and
      OIDC libraries, ClickHouse, GitHub, the language model, SMTP, Slack.

    ** Components, file by file

    - [Model]: internal/model.  [Scheduler]: internal/scheduler/scheduler.go
      ([PlanFunc], [Replay]); [SchedulerFacts] its loop invariants,
      [SchedulerProps] the theorems: partition of the tests, exclusive tags,
      exact loads, shape, independence of the input order, replay, Graham's
      bound.
    - [StateMachine]: statemachine.go.  [RunManager]: manager.go, operation by
      operation; [RunManagerProps] what planning does on success and failure,
      [RunManagerOps] dispatching and budgets, [Shards] and [Reschedule] the
      round robin and the replay of preempted shards, relative to what their
      workers had loaded, [Witnesses] concrete runs and the findings that a
      reschedule can lose a test of another shard, and a second one tests of its
      own.  [TeoReplay]: the
      command that replays a stored plan.
    - [Predictor]: the heuristic, the ML client and the fallback behind one
      interface ([PredictorLaws]); the fallback always answers.
    - [Worker], [WorkerProps]: worker.go and nats.go: a claim takes the oldest
      shard, runs its tests and records their first outcomes.  The spot
      interruption handler runs at the points where a claim and the handler can
      interleave; how the two loops and the handler interleave is in [Processes].  [Spot]: the metadata poll that feeds it.
    - [Pytest], [Gotest], [Jest], [AdapterProps]: the three adapters of
      pkg/adapter, and the template for new ones ([AdapterProps.Template]); [Astsig] the signatures of test bodies, with the programs the
      Jest and pytest adapters embed.
    - [RunSvc], [RunSvcProps]: validation, idempotent creation with its race,
      cancellation.  [GrpcSvc]: the two gRPC services and the interceptor.  [Auth]:
      API keys, credentials, roles.  [ApiKeys]: the key cache; a revoked key is
      refused once its entry has expired.  [Oidc], [OidcProps]: sign-in, the
      state cookie, sessions and their revocation; a request of
      [OidcProps.wstep] is atomic.  [AuditLog]: the audit log, the acts that write
      one entry and those that write none, and why nothing a signed-in user does
      is in it.
    - [Github]: the REST exchange and the issues client.  [Webhook]: the signed
      GitHub webhook.  [Rest]: the run endpoints, the restore link and the log URLs.  [CheckObserver], [CheckProps]: check runs that follow a run.
    - [Redact]: the redaction rules and the streaming writer.
    - [Cluster]: stack fingerprints and cluster upserts.  [Backfill],
      [BackfillProps]: the re-clustering job and its paged scan.  [Otlp],
      [Export], [ExportProps]: the OTLP receiver, the export of its spans, which
      gives back what was received, and the JUnit export.  [ResultPipeline]: the command with its subcommands, and the
      query that gives the backfill the failure the live path saw.
    - [Flake], [FlakeExact]: the Wilson classifier over a class of number types,
      with its meaning over the real numbers, and the nightly job.
    - [Quarantine], [QuarantineProps]: the daemon, the issue text, the SLA sweep,
      un-quarantine proposals and restore tokens.
    - [LlmHints]: the hint job: what it sends to the model is redacted.
    - [Digest]: the weekly digest, its text and its recipients.
    - [Graphql], [GraphqlProps]: internal/api/graphql.go and graphql_resolvers.go:
      the three mutations with their role gate, the run, shard, sparkline and
      calibration resolvers; what a rerun and a manual quarantine do.
      [Insights]: internal/cost, the weekly cost summary and the cluster map.
      [GraphqlSchema]: the schema with its resolvers, the document that is served,
      and which column each field reads.
    - [Gateway]: the HTTP server of internal/api: its options, its routes, the
      metrics and authentication middleware, and what every handler answers to
      whom.  [ApiMain]: cmd/api, from the settings to the two servers, HTTP and
      gRPC, each with its own query for API keys.
    - [Doctor]: internal/doctor and teo doctor.  [TeoCli]: cmd/teo with its flags:
      migrate, digest, discover, replay.  [Processes]: the streams, uploaders,
      pools and collectors the processes open (internal/nats, logstore, db,
      metrics), cmd/worker, cmd/run-manager and cmd/predictor, and the
      goroutines of one worker agent as a step relation, with the statements that
      can fail.
    - [GraphqlWs]: the subscription sessions over WebSocket; taking an operation
      from the table and cancelling it are two steps.
      [Hub], [HubProps]: the subscription hub: the state behind its mutex, its
      goroutines as a step relation, the invariant of the reachable states and
      the send that can panic.  [HubSpec]: what the hub promises a client, as
      mailboxes; every step of the hub has its event there.
    - [Codeowners]: internal/codeowners; the owners of a path
      are those of the last rule that covers it, [covers] being declarative.
    - [Migrate]: the SQL statement splitter and the forward-only
      migrations; a COMMIT is done, rolled back, or done with its reply lost.
    - The whole system: [Lifecycle] gives, for any relation on rows, the class
      [Guaranteed] of operations that keep the database within it under any
      interleaving, and two such relations.  [RunManagerSafe], [ServicesSafe] and
      [JobsSafe] (the periodic jobs and the mutations) show every operation
      guaranteed, [System] concludes: runs follow the state machine, records are
      kept, a run changes its status at most five times, no run ever succeeds
      (nothing writes the status finalizing), no calibration is ever available
      (nothing writes a shard's actual duration), no run costs anything ([costs_stay_zero]: nothing writes
      the minutes); [Typed]: every row of seven tables stays within the constraints
      of its columns; [Claims]: no shard is handed out twice by the three paths
      that claim.

    ** How to read the theorems

    The theorems about the whole system hold in every world: any interleaving,
    any fault.  Theorems that say exactly what an operation does are stated in a quiet world
    ([QW]: no other session acts during the call), except where interference is
    the point ([Create_race], [locked_run_left_alone], [retry_after_lost_reply]).
    Loops over lists are structural; the pagination of [Backfill] has fuel, one
    unit per page, and its theorem asks for more pages than candidates; the walk
    of a syntax tree has fuel above its nesting ([visit_spec]).  The float64
    classifier is checked against the exact one up to 30 attempts, by
    computation.

    ** What is not modelled

    The middleware of chi other than authentication and metrics, and panics of
    handlers; the layout of printed JSON and tables; the values of gauges and
    histograms; what goes on inside a connection to Postgres, ClickHouse, NATS or
    S3, and the third-party clients behind them; generated code; the tickers of
    the quarantine and digest jobs; cmd/scheduler, a stub that prints its
    version; the helpers of the tests and of the load test; the end of a process
    by a signal.  The tickers that call the run manager's operations are the steps
    of [System.sysStep].  Text is a list of bytes: Unicode classes of the strings
    and regexp packages are those of ASCII.
*)

From stdpp Require Export prelude strings gmap sorting.
From Stdlib Require Export ZArith Lia.

#[global] Open Scope Z_scope.

(** ** Scope, hint database, tactics *)

Declare Scope teo_scope.
Delimit Scope teo_scope with teo.
Create HintDb teo.
Create Rewrite HintDb teo.

(** A decidable fact about concrete lists. *)
Ltac known := apply (bool_decide_unpack _); reflexivity.

(** Case analysis on every [if]/[match] scrutinee of the goal, closing what
    computes. *)
Ltac dcase :=
  repeat (case_match; simplify_eq/=; try done).

(** Turn boolean comparisons on [Z], [bool] and strings into propositions. *)
Ltac zbool :=
  repeat match goal with
  | H : (_ <? _) = true |- _ => apply Z.ltb_lt in H
  | H : (_ <? _) = false |- _ => apply Z.ltb_ge in H
  | H : (_ <=? _) = true |- _ => apply Z.leb_le in H
  | H : (_ <=? _) = false |- _ => apply Z.leb_gt in H
  | H : (_ >? _) = true |- _ => rewrite Z.gtb_ltb in H
  | H : (_ >? _) = false |- _ => rewrite Z.gtb_ltb in H
  | H : (_ =? _) = true |- _ => apply Z.eqb_eq in H
  | H : (_ =? _) = false |- _ => apply Z.eqb_neq in H
  | H : _ && _ = true |- _ => apply andb_true_iff in H; destruct H
  | H : _ || _ = false |- _ => apply orb_false_iff in H; destruct H
  | H : negb _ = true |- _ => apply negb_true_iff in H
  | H : negb _ = false |- _ => apply negb_false_iff in H
  | H : String.eqb _ _ = true |- _ => apply String.eqb_eq in H
  | H : String.eqb _ _ = false |- _ => apply String.eqb_neq in H
  end.

(** ** Machine integers

    A Go [int] is a 64-bit two's complement integer on every platform the
    program is built for; the wire and the database use 32-bit ones. *)

Definition wrap64 (z : Z) : Z := (z + 2 ^ 63) mod 2 ^ 64 - 2 ^ 63.

Definition in_int64 (z : Z) : Prop := - 2 ^ 63 <= z < 2 ^ 63.

Definition max_int64 : Z := 2 ^ 63 - 1.
Definition max_int32 : Z := 2 ^ 31 - 1.
Definition min_int32 : Z := - 2 ^ 31.

Definition add64 (a b : Z) : Z := wrap64 (a + b).
Definition sub64 (a b : Z) : Z := wrap64 (a - b).
Definition mul64 (a b : Z) : Z := wrap64 (a * b).
(** Go's [/] truncates towards zero; the one overflowing quotient wraps. *)
Definition quot64 (a b : Z) : Z := wrap64 (Z.quot a b).

Lemma wrap64_small z : in_int64 z -> wrap64 z = z.
Proof. unfold wrap64, in_int64. intros H. rewrite Z.mod_small; lia. Qed.

Lemma wrap64_range z : in_int64 (wrap64 z).
Proof.
  unfold wrap64, in_int64.
  pose proof (Z.mod_pos_bound (z + 2 ^ 63) (2 ^ 64) ltac:(lia)). lia.
Qed.

Lemma wrap64_add_l a b : wrap64 (wrap64 a + b) = wrap64 (a + b).
Proof.
  unfold wrap64. f_equal.
  replace ((a + 2 ^ 63) `mod` 2 ^ 64 - 2 ^ 63 + b + 2 ^ 63)
    with ((a + 2 ^ 63) `mod` 2 ^ 64 + b) by lia.
  rewrite Zplus_mod_idemp_l. f_equal. lia.
Qed.

#[export] Hint Resolve wrap64_range : teo.

(** ** Sums of integer lists *)

Definition sumZ (l : list Z) : Z := foldr Z.add 0 l.

Lemma sumZ_app l k : sumZ (l ++ k) = sumZ l + sumZ k.
Proof. induction l as [|x l IH]; simpl; [done|]. unfold sumZ in *. lia. Qed.

Lemma sumZ_perm l k : l ≡ₚ k -> sumZ l = sumZ k.
Proof. induction 1; unfold sumZ in *; simpl; lia. Qed.

#[export] Instance sumZ_Proper : Proper ((≡ₚ) ==> (=)) sumZ.
Proof. intros l k H. by apply sumZ_perm. Qed.

Lemma sumZ_nonneg l : Forall (fun x => 0 <= x) l -> 0 <= sumZ l.
Proof. induction 1; unfold sumZ in *; simpl; lia. Qed.

Lemma sumZ_elem_le x l : Forall (fun x => 0 <= x) l -> x ∈ l -> x <= sumZ l.
Proof.
  induction 1 as [|y l Hy Hl IH]; intros Hx; [by apply elem_of_nil in Hx|].
  apply elem_of_cons in Hx as [->|Hx]; unfold sumZ in *; simpl;
    pose proof (sumZ_nonneg l Hl); unfold sumZ in *; [lia|].
  specialize (IH Hx). lia.
Qed.

Lemma sumZ_scale_le n (l : list Z) b :
  Forall (fun x => x <= b) l -> n = Z.of_nat (length l) -> sumZ l <= n * b.
Proof.
  intros Hl ->. induction Hl; unfold sumZ in *; simpl length; simpl; lia.
Qed.

Lemma sumZ_scale_ge n (l : list Z) b :
  Forall (fun x => b <= x) l -> n = Z.of_nat (length l) -> n * b <= sumZ l.
Proof.
  intros Hl ->. induction Hl; unfold sumZ in *; simpl length; simpl; lia.
Qed.

Lemma sumZ_concat (ll : list (list Z)) : sumZ (concat ll) = sumZ (sumZ <$> ll).
Proof. induction ll as [|l ll IH]; simpl; [done|]. rewrite sumZ_app, IH. done. Qed.

(** Maximum of a list of non-negative numbers, the way a Go loop with an
    accumulator starting at 0 computes it. *)
Definition maxZ (l : list Z) : Z := foldl (fun m x => if x >? m then x else m) 0 l.

Lemma maxZ_acc l m :
  m <= foldl (fun m x => if x >? m then x else m) m l
  ∧ (forall x, x ∈ l -> x <= foldl (fun m x => if x >? m then x else m) m l)
  ∧ (foldl (fun m x => if x >? m then x else m) m l = m
     ∨ foldl (fun m x => if x >? m then x else m) m l ∈ l).
Proof.
  revert m. induction l as [|y l IH]; intros m; simpl.
  { split_and!; [lia| |by left]. intros x Hx. by apply elem_of_nil in Hx. }
  destruct (IH (if y >? m then y else m)) as (Hm & Hx & Hor).
  set (r := foldl _ _ _) in *.
  destruct (y >? m) eqn:E; zbool.
  - split_and!; [lia| |right].
    + intros x [->|?]%elem_of_cons; [lia|auto].
    + destruct Hor as [->|?]; [left|right]; done.
  - split_and!; [lia| |].
    + intros x [->|?]%elem_of_cons; [lia|auto].
    + destruct Hor as [->|?]; [by left|right; by right].
Qed.

Lemma maxZ_ge x l : x ∈ l -> x <= maxZ l.
Proof. intros. by apply (proj1 (proj2 (maxZ_acc l 0))). Qed.

Lemma maxZ_nonneg l : 0 <= maxZ l.
Proof. exact (proj1 (maxZ_acc l 0)). Qed.

Lemma maxZ_in l : maxZ l = 0 ∨ maxZ l ∈ l.
Proof. exact (proj2 (proj2 (maxZ_acc l 0))). Qed.

Lemma maxZ_le_iff l b : 0 <= b -> (maxZ l <= b <-> Forall (fun x => x <= b) l).
Proof.
  intros Hb. split.
  - intros H. apply Forall_forall. intros x Hx. pose proof (maxZ_ge x l Hx). lia.
  - intros H. destruct (maxZ_in l) as [->|Hin]; [done|].
    rewrite Forall_forall in H. by apply H.
Qed.

Lemma sumZ_cons x l : sumZ (x :: l) = x + sumZ l.
Proof. done. Qed.

Lemma sumZ_nil : sumZ [] = 0.
Proof. done. Qed.

#[export] Hint Rewrite sumZ_cons sumZ_nil sumZ_app : teo.
