(* ===== verification/GoSort.v ===== *)
(** * Go's stable sort

    [sort.SliceStable(xs, less)] leaves [xs] sorted by [less] with equal
    elements in their original order.  [SliceStable] is an insertion sort with
    exactly that input/output behaviour; the lemmas give the permutation, the
    order of the result, and that a strict order on distinct keys has exactly
    one sorted arrangement (so the input order does not matter). *)

From S2P Require Import Prelude.

Section stable_sort.
Context {A : Type} (less : A -> A -> bool).

(** Put [x], which came before every element of [l], in front of the first
    element that is not smaller than it. *)
Fixpoint sortInsert (x : A) (l : list A) : list A :=
  match l with
  | [] => [x]
  | y :: l' => if less y x then y :: sortInsert x l' else x :: y :: l'
  end.

Definition SliceStable (l : list A) : list A := foldr sortInsert [] l.

Lemma sortInsert_perm x l : sortInsert x l ≡ₚ x :: l.
Proof.
  induction l as [|y l IH]; simpl; [done|].
  destruct (less y x); [|done]. rewrite IH. apply perm_swap.
Qed.

Lemma SliceStable_perm l : SliceStable l ≡ₚ l.
Proof.
  induction l as [|x l IH]; simpl; [done|]. by rewrite sortInsert_perm, IH.
Qed.

(** The order the result has: no later element is [less] than an earlier one. *)
Definition notAfter (x y : A) : Prop := less y x = false.

Section order.
Context (less_asym : forall x y, less x y = true -> less y x = false).
Context (notAfter_trans : forall x y z,
  notAfter x y -> notAfter y z -> notAfter x z).

Lemma sortInsert_sorted x l :
  StronglySorted notAfter l -> StronglySorted notAfter (sortInsert x l).
Proof using less_asym notAfter_trans.
  induction 1 as [|y l Hl IH Hy]; simpl.
  { repeat constructor. }
  destruct (less y x) eqn:E.
  - constructor; [done|].
    rewrite (sortInsert_perm x l). constructor; [|done].
    unfold notAfter. by apply less_asym.
  - constructor; [by constructor|]. constructor; [done|].
    eapply Forall_impl; [exact Hy|]. intros z Hz. by eapply notAfter_trans.
Qed.

Lemma SliceStable_sorted l : StronglySorted notAfter (SliceStable l).
Proof using less_asym notAfter_trans.
  induction l; simpl; [constructor|]. by apply sortInsert_sorted.
Qed.

(** Two arrangements of the same elements, both sorted, are equal when [less]
    separates the elements. *)
Lemma SliceStable_unique l k :
  (forall x y, x ∈ l -> y ∈ l -> less x y = false -> less y x = false -> x = y) ->
  l ≡ₚ k -> SliceStable l = SliceStable k.
Proof using less_asym notAfter_trans.
  intros Htot Hp.
  apply (StronglySorted_unique_strong notAfter).
  - intros x y Hx Hy Hxy Hyx.
    rewrite SliceStable_perm in Hx, Hy. rewrite <-Hp in Hy. by apply Htot.
  - apply SliceStable_sorted.
  - apply SliceStable_sorted.
  - by rewrite !SliceStable_perm.
Qed.

(** A list already in order is left as it is. *)
Lemma SliceStable_id l : StronglySorted notAfter l -> SliceStable l = l.
Proof using.
  induction 1 as [|x l Hl IH Hx]; simpl; [done|]. rewrite IH.
  destruct l as [|y l]; [done|]. simpl.
  apply Forall_cons in Hx as [Hx _]. unfold notAfter in Hx. by rewrite Hx.
Qed.
End order.
End stable_sort.

#[export] Hint Resolve SliceStable_perm : teo.

(** ** Comparisons by several keys *)

(** What [SliceStable_sorted] asks of a comparison. *)
Record WeakOrder {A} (less : A -> A -> bool) : Prop := {
  wo_asym x y : less x y = true -> less y x = false;
  wo_trans x y z : notAfter less x y -> notAfter less y z -> notAfter less x z
}.

Lemma weakOrder_sorted {A} (less : A -> A -> bool) l : WeakOrder less -> StronglySorted (notAfter less) (SliceStable less l).
Proof. intros []. by apply SliceStable_sorted. Qed.

(** First by the key [f], then by [less]. *)
Lemma weakOrder_lex {A K} (f : A -> K) (lt eq : K -> K -> bool) (less : A -> A -> bool) :
  WeakOrder lt -> (forall a b, eq a b = true <-> a = b) -> (forall a b, lt a b = false -> lt b a = false -> a = b) ->
  WeakOrder less -> WeakOrder (fun x y => lt (f x) (f y) || (eq (f x) (f y) && less x y)).
Proof.
  intros [La Lt] He Htot [Wa Wt]. assert (forall a, lt a a = false) as Hirr.
  { intros a. destruct (lt a a) eqn:E; [|done]. by rewrite (La _ _ E) in E. }
  split.
  - intros x y [H|[H1%He H2]%andb_true_iff]%orb_true_iff; apply orb_false_iff.
    + split; [by apply La|]. apply andb_false_iff. left. destruct (eq (f y) (f x)) eqn:E; [|done].
      apply He in E. rewrite E, Hirr in H. done.
    + rewrite H1. split; [apply Hirr|]. apply andb_false_iff. right. by apply Wa.
  - unfold notAfter in *. intros x y z [H1 H2]%orb_false_iff [H3 H4]%orb_false_iff. apply orb_false_iff.
    pose proof (Lt _ _ _ H1 H3) as H5. split; [exact H5|]. destruct (eq (f z) (f x)) eqn:E; [|done]. cbn. apply He in E.
    assert (f y = f x) as Eyx by (apply Htot; [done|by rewrite <-E]).
    rewrite (proj2 (He _ _) Eyx) in H2. rewrite (proj2 (He _ _)) in H4 by congruence. by apply (Wt x y z).
Qed.

Lemma weakOrder_Z : WeakOrder Z.ltb.
Proof. split; unfold notAfter; intros *; rewrite ?Z.ltb_lt, ?Z.ltb_ge; lia. Qed.

Lemma weakOrder_key {A K} (f : A -> K) (lt : K -> K -> bool) : WeakOrder lt -> WeakOrder (fun x y => lt (f x) (f y)).
Proof. intros [La Lt]. split; [intros x y; apply La|]. intros x y z. apply Lt. Qed.
