(* ===== verification/GoBytes.v ===== *)
(** * Bytes, hexadecimal, SHA-256

    A Go [string] is a sequence of bytes; it is a [string] of [ascii] here.
    The hash functions of [crypto/sha256] and [encoding/hex] that the program
    uses are written out over lists of byte values, so that every definition
    that hashes stays executable. *)

From S2P Require Import Prelude GoSort.
From Stdlib Require Import Ascii.

(** ** Strings as byte lists *)

Definition byteOf (a : ascii) : Z := Z.of_N (N_of_ascii a).
Definition asciiOf (b : Z) : ascii := ascii_of_N (Z.to_N b).

Fixpoint bytesOf (s : string) : list Z :=
  match s with
  | EmptyString => []
  | String a s' => byteOf a :: bytesOf s'
  end.

Fixpoint stringOf (l : list Z) : string :=
  match l with
  | [] => EmptyString
  | b :: l' => String (asciiOf b) (stringOf l')
  end.

Definition isByte (b : Z) : Prop := 0 <= b < 256.

Lemma byteOf_range a : isByte (byteOf a).
Proof. unfold isByte, byteOf. pose proof (N_ascii_bounded a). lia. Qed.

Lemma asciiOf_byteOf a : asciiOf (byteOf a) = a.
Proof. unfold asciiOf, byteOf. rewrite N2Z.id. apply ascii_N_embedding. Qed.

Lemma byteOf_asciiOf b : isByte b -> byteOf (asciiOf b) = b.
Proof.
  unfold isByte, asciiOf, byteOf. intros H. rewrite N_ascii_embedding; lia.
Qed.

Lemma stringOf_bytesOf s : stringOf (bytesOf s) = s.
Proof. induction s as [|a s IH]; simpl; [done|]. by rewrite asciiOf_byteOf, IH. Qed.

Lemma bytesOf_stringOf l : Forall isByte l -> bytesOf (stringOf l) = l.
Proof. induction 1; simpl; [done|]. rewrite byteOf_asciiOf; by f_equal. Qed.

Lemma bytesOf_isByte s : Forall isByte (bytesOf s).
Proof. induction s; simpl; constructor; [apply byteOf_range|done]. Qed.

Lemma bytesOf_app s t : bytesOf (s +:+ t) = bytesOf s ++ bytesOf t.
Proof. induction s as [|a s IH]; simpl; [done|]. by rewrite IH. Qed.

Lemma stringOf_app k l : stringOf (k ++ l) = stringOf k +:+ stringOf l.
Proof. induction k as [|b k IH]; simpl; [done|]. by rewrite IH. Qed.

#[export] Instance bytesOf_inj : Inj (=) (=) bytesOf.
Proof.
  intros s t H. rewrite <-(stringOf_bytesOf s), <-(stringOf_bytesOf t).
  by rewrite H.
Qed.

Lemma bytesOf_length s : length (bytesOf s) = String.length s.
Proof. induction s as [|a s IH]; simpl; [done|]. by rewrite IH. Qed.

(** The order of strings: byte by byte. *)
Fixpoint bytesLt (a b : list Z) : bool :=
  match a, b with
  | [], [] => false
  | [], _ :: _ => true
  | _ :: _, [] => false
  | x :: a', y :: b' => (x <? y) || ((x =? y) && bytesLt a' b')
  end.

(** ** SHA-256 *)

Definition mask32 : Z := 4294967295.
Definition add32 (a b : Z) : Z := Z.land (a + b) mask32.
Definition rotr32 (x n : Z) : Z :=
  Z.lor (Z.shiftr x n) (Z.land (Z.shiftl x (32 - n)) mask32).

Definition sha256_k : list Z :=
  [1116352408; 1899447441; 3049323471; 3921009573; 961987163; 1508970993; 2453635748; 2870763221;
   3624381080; 310598401; 607225278; 1426881987; 1925078388; 2162078206; 2614888103; 3248222580;
   3835390401; 4022224774; 264347078; 604807628; 770255983; 1249150122; 1555081692; 1996064986;
   2554220882; 2821834349; 2952996808; 3210313671; 3336571891; 3584528711; 113926993; 338241895;
   666307205; 773529912; 1294757372; 1396182291; 1695183700; 1986661051; 2177026350; 2456956037;
   2730485921; 2820302411; 3259730800; 3345764771; 3516065817; 3600352804; 4094571909; 275423344;
   430227734; 506948616; 659060556; 883997877; 958139571; 1322822218; 1537002063; 1747873779;
   1955562222; 2024104815; 2227730452; 2361852424; 2428436474; 2756734187; 3204031479; 3329325298].

Definition sha256_h0 : list Z :=
  [1779033703; 3144134277; 1013904242; 2773480762; 1359893119; 2600822924; 528734635; 1541459225].

(** Big-endian 32-bit words of a byte list. *)
Fixpoint wordsBE (l : list Z) : list Z :=
  match l with
  | a :: b :: c :: d :: l' =>
      (Z.shiftl a 24 + Z.shiftl b 16 + Z.shiftl c 8 + d) :: wordsBE l'
  | _ => []
  end.

Definition byteAt (w sh : Z) : Z := Z.land (Z.shiftr w sh) 255.
Definition bytesBE32 (w : Z) : list Z :=
  [byteAt w 24; byteAt w 16; byteAt w 8; byteAt w 0].

Definition sha256_pad (m : list Z) : list Z :=
  let n := Z.of_nat (length m) in
  m ++ [128] ++ replicate (Z.to_nat ((55 - n) mod 64)) 0
    ++ bytesBE32 (Z.shiftr (8 * n) 32) ++ bytesBE32 (Z.land (8 * n) mask32).

(** The message schedule, newest word first. *)
Fixpoint sha256_schedule (fuel : nat) (rw : list Z) : list Z :=
  match fuel with
  | O => rw
  | S fuel' =>
      let w i := nth i rw 0 in
      let s1 := Z.lxor (Z.lxor (rotr32 (w 1%nat) 17) (rotr32 (w 1%nat) 19)) (Z.shiftr (w 1%nat) 10) in
      let s0 := Z.lxor (Z.lxor (rotr32 (w 14%nat) 7) (rotr32 (w 14%nat) 18)) (Z.shiftr (w 14%nat) 3) in
      sha256_schedule fuel' (Z.land (s1 + w 6%nat + s0 + w 15%nat) mask32 :: rw)
  end.

Definition sha256_round (st : list Z) (kw : Z * Z) : list Z :=
  match st with
  | [a; b; c; d; e; f; g; h] =>
      let s1 := Z.lxor (Z.lxor (rotr32 e 6) (rotr32 e 11)) (rotr32 e 25) in
      let ch := Z.lxor (Z.land e f) (Z.land (Z.lxor e mask32) g) in
      let t1 := Z.land (h + s1 + ch + fst kw + snd kw) mask32 in
      let s0 := Z.lxor (Z.lxor (rotr32 a 2) (rotr32 a 13)) (rotr32 a 22) in
      let mj := Z.lxor (Z.lxor (Z.land a b) (Z.land a c)) (Z.land b c) in
      let t2 := add32 s0 mj in
      [add32 t1 t2; a; b; c; add32 d t1; e; f; g]
  | _ => st
  end.

Definition sha256_block (h : list Z) (block : list Z) : list Z :=
  let ws := reverse (sha256_schedule 48 (reverse block)) in
  zip_with add32 h (foldl sha256_round h (zip sha256_k ws)).

Fixpoint sha256_blocks (fuel : nat) (h : list Z) (ws : list Z) : list Z :=
  match fuel with
  | O => h
  | S fuel' => sha256_blocks fuel' (sha256_block h (take 16 ws)) (drop 16 ws)
  end.

(** [sha256.Sum256] *)
Definition sha256 (m : list Z) : list Z :=
  let ws := wordsBE (sha256_pad m) in
  concat (bytesBE32 <$> sha256_blocks (length ws / 16)%nat sha256_h0 ws).

(** ** Hexadecimal *)

Definition hexDigit (n : Z) : Z := if n <? 10 then 48 + n else 87 + n.

(** [hex.EncodeToString] *)
Definition hexEncode (l : list Z) : list Z :=
  concat ((fun b => [hexDigit (Z.shiftr b 4); hexDigit (Z.land b 15)]) <$> l).

Definition hexString (l : list Z) : string := stringOf (hexEncode l).

(** The value of a hexadecimal digit of either case. *)
Definition hexValue (c : Z) : option Z :=
  if (48 <=? c) && (c <=? 57) then Some (c - 48)
  else if (97 <=? c) && (c <=? 102) then Some (c - 87)
  else if (65 <=? c) && (c <=? 70) then Some (c - 55)
  else None.

(** [hex.DecodeString]; [None] is an error. *)
Fixpoint hexDecode (l : list Z) : option (list Z) :=
  match l with
  | [] => Some []
  | a :: b :: l' =>
      match hexValue a, hexValue b with
      | Some x, Some y => (fun r => 16 * x + y :: r) <$> hexDecode l'
      | _, _ => None
      end
  | [_] => None
  end.

(** [crypto/hmac] over SHA-256 (RFC 2104); a block is 64 bytes. *)
Definition hmacKey (key : list Z) : list Z :=
  let k := if (64 <? length key)%nat then sha256 key else key in k ++ repeat 0 (64 - length k).

Definition hmacSHA256 (key m : list Z) : list Z :=
  let k := hmacKey key in
  sha256 ((Z.lxor 92 <$> k) ++ sha256 ((Z.lxor 54 <$> k) ++ m)).

Example hmac_fox :
  hexString (hmacSHA256 (bytesOf "key") (bytesOf "The quick brown fox jumps over the lazy dog"))
  = "f7bc83f430538424b13298e6aa6fb143ef4d59a14946175997479dbc2d1a3cd8"%string.
Proof. vm_compute. reflexivity. Qed.

Example sha256_abc :
  hexString (sha256 (bytesOf "abc"))
  = "ba7816bf8f01cfea414140de5dae2223b00361a396177a9cb410ff61f20015ad"%string.
Proof. vm_compute. reflexivity. Qed.

Example sha256_empty :
  hexString (sha256 [])
  = "e3b0c44298fc1c149afbf4c8996fb92427ae41e4649b934ca495991b7852b855"%string.
Proof. vm_compute. reflexivity. Qed.

Lemma sha256_round_length st kw :
  length st = 8%nat -> length (sha256_round st kw) = 8%nat.
Proof. intros H. do 9 (destruct st as [|? st]; try done). Qed.

Lemma sha256_rounds_length kws st :
  length st = 8%nat -> length (foldl sha256_round st kws) = 8%nat.
Proof.
  revert st. induction kws as [|kw kws IH]; intros st H; simpl; [done|].
  apply IH. by apply sha256_round_length.
Qed.

Lemma sha256_blocks_length fuel h ws :
  length h = 8%nat -> length (sha256_blocks fuel h ws) = 8%nat.
Proof.
  revert h ws. induction fuel as [|fuel IH]; intros h ws H; simpl; [done|].
  apply IH. unfold sha256_block. rewrite length_zip_with.
  rewrite sha256_rounds_length by done. lia.
Qed.

(** A digest is 32 bytes. *)
Lemma sha256_length m : length (sha256 m) = 32%nat.
Proof.
  unfold sha256.
  pose proof (sha256_blocks_length (length (wordsBE (sha256_pad m)) / 16)
    sha256_h0 (wordsBE (sha256_pad m)) eq_refl) as H.
  set (l := sha256_blocks _ _ _) in *. clearbody l.
  do 9 (destruct l as [|? l]; try done).
Qed.

Lemma byteAt_isByte w sh : isByte (byteAt w sh).
Proof.
  unfold isByte, byteAt. change 255 with (Z.ones 8).
  rewrite Z.land_ones by lia. apply Z.mod_pos_bound. lia.
Qed.

Lemma sha256_isByte m : Forall isByte (sha256 m).
Proof.
  unfold sha256. apply Forall_concat, Forall_fmap, Forall_forall.
  intros w _. unfold compose, bytesBE32. repeat constructor; apply byteAt_isByte.
Qed.

Lemma hexEncode_length l : length (hexEncode l) = (2 * length l)%nat.
Proof.
  unfold hexEncode. induction l as [|b l IH]; [done|].
  rewrite fmap_cons. simpl. simpl in IH. lia.
Qed.

Lemma hexDigit_inj n m : 0 <= n < 16 -> 0 <= m < 16 -> hexDigit n = hexDigit m -> n = m.
Proof. unfold hexDigit. intros Hn Hm. destruct (Z.ltb_spec n 10), (Z.ltb_spec m 10); lia. Qed.

(** The two halves of a byte. *)
Lemma nibbles b : isByte b -> 0 <= Z.shiftr b 4 < 16 /\ 0 <= Z.land b 15 < 16 /\ b = 16 * Z.shiftr b 4 + Z.land b 15.
Proof.
  intros [H1 H2]. change 15 with (Z.ones 4). rewrite Z.land_ones, Z.shiftr_div_pow2 by lia. change (2 ^ 4) with 16.
  split; [split; [apply Z.div_pos; lia|apply Z.div_lt_upper_bound; lia]|]. split; [apply Z.mod_pos_bound; lia|].
  apply Z.div_mod. lia.
Qed.

Lemma hexEncode_inj k l : Forall isByte k -> Forall isByte l -> hexEncode k = hexEncode l -> k = l.
Proof.
  unfold hexEncode. intros Hk. revert l. induction Hk as [|b k Hb Hk IH]; intros [|c l] Hl E; [done|done|done|].
  apply Forall_cons in Hl as [Hc Hl]. cbn [fmap list_fmap concat app] in E. injection E as E1 E2 E.
  destruct (nibbles b Hb) as (B1 & B2 & B3), (nibbles c Hc) as (C1 & C2 & C3).
  apply hexDigit_inj in E1; [|done|done]. apply hexDigit_inj in E2; [|done|done]. f_equal; [congruence|by apply IH].
Qed.

Lemma hexEncode_isByte l : Forall isByte l -> Forall isByte (hexEncode l).
Proof.
  intros Hl. unfold hexEncode. induction Hl as [|b x Hb Hx IH]; [constructor|]. cbn [fmap list_fmap concat app].
  destruct (nibbles b Hb) as (B1 & B2 & _). unfold isByte, hexDigit in *.
  constructor; [destruct (Z.ltb_spec (Z.shiftr b 4) 10); lia|]. constructor; [destruct (Z.ltb_spec (Z.land b 15) 10); lia|exact IH].
Qed.

Lemma hexString_inj k l : Forall isByte k -> Forall isByte l -> hexString k = hexString l -> k = l.
Proof.
  intros Hk Hl E. apply hexEncode_inj; [done|done|]. unfold hexString in E.
  by rewrite <-(bytesOf_stringOf (hexEncode k)), E, bytesOf_stringOf by auto using hexEncode_isByte.
Qed.

(** The digits are those of the hexadecimal alphabet. *)
Lemma hexString_digits l : Forall isByte l ->
  Forall (fun b => 48 <= b < 58 \/ 97 <= b < 103) (bytesOf (hexString l)).
Proof.
  intros Hl. unfold hexString. assert (Forall (fun b => 48 <= b < 58 \/ 97 <= b < 103) (hexEncode l)) as H.
  { unfold hexEncode. induction Hl as [|b x Hb Hx IH]; [constructor|]. cbn [fmap list_fmap concat app].
    destruct (nibbles b Hb) as (B1 & B2 & _). unfold hexDigit.
    constructor; [destruct (Z.ltb_spec (Z.shiftr b 4) 10); lia|]. constructor; [destruct (Z.ltb_spec (Z.land b 15) 10); lia|exact IH]. }
  rewrite bytesOf_stringOf; [done|]. eapply Forall_impl; [exact H|]. unfold isByte. lia.
Qed.

Lemma hexValue_digit n : 0 <= n < 16 -> hexValue (hexDigit n) = Some n.
Proof.
  intros Hn. unfold hexDigit, hexValue. destruct (Z.ltb_spec n 10).
  - rewrite (proj2 (Z.leb_le 48 (48 + n))), (proj2 (Z.leb_le (48 + n) 57)) by lia. simpl. f_equal. lia.
  - rewrite (proj2 (Z.leb_gt (87 + n) 57)), andb_false_r by lia.
    rewrite (proj2 (Z.leb_le 97 (87 + n))), (proj2 (Z.leb_le (87 + n) 102)) by lia. simpl. f_equal. lia.
Qed.

(** Decoding undoes encoding. *)
Lemma hexDecode_encode l : Forall isByte l -> hexDecode (hexEncode l) = Some l.
Proof.
  unfold hexEncode. induction 1 as [|b l Hb Hl IH]; [done|]. cbn [fmap list_fmap concat app hexDecode].
  destruct (nibbles b Hb) as (B1 & B2 & B3). rewrite !hexValue_digit by done.
  change (concat _) with (concat ((fun b => [hexDigit (Z.shiftr b 4); hexDigit (Z.land b 15)]) <$> l)).
  rewrite IH. simpl. by rewrite <-B3.
Qed.

Lemma hmacSHA256_isByte k m : Forall isByte (hmacSHA256 k m).
Proof. apply sha256_isByte. Qed.

(** ** The order of strings *)

Lemma bytesLt_irrefl a : bytesLt a a = false.
Proof. induction a as [|x a IH]; [done|]. cbn. by rewrite Z.ltb_irrefl, Z.eqb_refl, IH. Qed.

Lemma bytesLt_trans a b c : bytesLt a b = true -> bytesLt b c = true -> bytesLt a c = true.
Proof.
  revert b c. induction a as [|x a IH]; intros [|y b] [|z c]; try done. cbn.
  rewrite !orb_true_iff, !andb_true_iff, !Z.ltb_lt, !Z.eqb_eq. intros [H1|[-> H1]] [H2|[-> H2]]; try lia; auto.
  right. split; [done|]. by apply (IH b).
Qed.

Lemma bytesLt_total a b : bytesLt a b = false -> bytesLt b a = false -> a = b.
Proof.
  revert b. induction a as [|x a IH]; intros [|y b]; try done. cbn.
  rewrite !orb_false_iff, !andb_false_iff, !Z.ltb_ge, !Z.eqb_neq. intros [H1 H2] [H3 H4].
  assert (x = y) as -> by lia. f_equal. apply IH; [destruct H2|destruct H4]; congruence || done.
Qed.


Lemma weakOrder_bytes : WeakOrder bytesLt.
Proof.
  assert (forall a b, bytesLt a b = true -> bytesLt b a = false) as Hasym.
  { intros a b H. destruct (bytesLt b a) eqn:E; [|done]. pose proof (bytesLt_trans _ _ _ H E) as K. by rewrite bytesLt_irrefl in K. }
  split; [exact Hasym|]. unfold notAfter. intros x y z H1 H2. destruct (bytesLt z x) eqn:E; [|done].
  destruct (bytesLt x y) eqn:Exy.
  - by rewrite (bytesLt_trans _ _ _ E Exy) in H2.
  - rewrite (bytesLt_total x y Exy H1) in E. congruence.
Qed.

(** * encoding/base64, without padding

    [RawStdEncoding] and [RawURLEncoding]: the encoder, the decoder (which skips
    line breaks and ignores the spare bits of a short last group), and their
    round trip. *)


Inductive alphabet := Std | URL.

(** The character of a 6-bit value. *)
Definition b64char (a : alphabet) (v : Z) : Z :=
  if v <? 26 then 65 + v
  else if v <? 52 then 97 + (v - 26)
  else if v <? 62 then 48 + (v - 52)
  else if v =? 62 then (match a with Std => 43 | URL => 45 end)
  else (match a with Std => 47 | URL => 95 end).

Definition b64value (a : alphabet) (c : Z) : option Z :=
  if (65 <=? c) && (c <=? 90) then Some (c - 65)
  else if (97 <=? c) && (c <=? 122) then Some (c - 97 + 26)
  else if (48 <=? c) && (c <=? 57) then Some (c - 48 + 52)
  else if c =? (match a with Std => 43 | URL => 45 end) then Some 62
  else if c =? (match a with Std => 47 | URL => 95 end) then Some 63
  else None.

Fixpoint encode6 (l : list Z) : list Z :=
  match l with
  | b0 :: b1 :: b2 :: l' =>
      b0 / 4 :: (b0 mod 4) * 16 + b1 / 16 :: (b1 mod 16) * 4 + b2 / 64 :: b2 mod 64 :: encode6 l'
  | [b0; b1] => [b0 / 4; (b0 mod 4) * 16 + b1 / 16; (b1 mod 16) * 4]
  | [b0] => [b0 / 4; (b0 mod 4) * 16]
  | [] => []
  end.

Fixpoint decode6 (l : list Z) : option (list Z) :=
  match l with
  | v0 :: v1 :: v2 :: v3 :: l' =>
      (fun r => v0 * 4 + v1 / 16 :: (v1 mod 16) * 16 + v2 / 4 :: (v2 mod 4) * 64 + v3 :: r)
        <$> decode6 l'
  | [v0; v1; v2] => Some [v0 * 4 + v1 / 16; (v1 mod 16) * 16 + v2 / 4]
  | [v0; v1] => Some [v0 * 4 + v1 / 16]
  | [_] => None
  | [] => Some []
  end.

Definition EncodeToString (a : alphabet) (l : list Z) : string :=
  stringOf (b64char a <$> encode6 l).

Definition isLineBreak (c : Z) : bool := (c =? 10) || (c =? 13).

Definition DecodeString (a : alphabet) (s : string) : option (list Z) :=
  match mapM (b64value a) (List.filter (fun c => negb (isLineBreak c)) (bytesOf s)) with
  | Some vs => decode6 vs
  | None => None
  end.

(** ** Round trip *)

Definition is6 (v : Z) : Prop := 0 <= v < 64.

Lemma b64value_char a v : is6 v -> b64value a (b64char a v) = Some v.
Proof.
  unfold is6, b64value, b64char. intros H.
  destruct (v <? 26) eqn:E1; zbool.
  { rewrite (proj2 (Z.leb_le 65 (65 + v))), (proj2 (Z.leb_le (65 + v) 90)) by lia. simpl. f_equal. lia. }
  destruct (v <? 52) eqn:E2; zbool.
  { rewrite (proj2 (Z.leb_gt (97 + (v - 26)) 90)) by lia. rewrite andb_false_r.
    rewrite (proj2 (Z.leb_le 97 (97 + (v - 26)))), (proj2 (Z.leb_le (97 + (v - 26)) 122)) by lia.
    simpl. f_equal. lia. }
  destruct (v <? 62) eqn:E3; zbool.
  { rewrite (proj2 (Z.leb_gt 65 (48 + (v - 52)))), (proj2 (Z.leb_gt 97 (48 + (v - 52)))) by lia. simpl.
    rewrite (proj2 (Z.leb_le 48 (48 + (v - 52)))), (proj2 (Z.leb_le (48 + (v - 52)) 57)) by lia.
    simpl. f_equal. lia. }
  destruct (v =? 62) eqn:E4; zbool; [subst; by destruct a|].
  assert (v = 63) by lia. subst. by destruct a.
Qed.

Lemma b64char_range a v : is6 v -> 43 <= b64char a v <= 122 /\ b64char a v <> 46.
Proof. unfold is6, b64char. intros. repeat case_match; zbool; lia. Qed.

Lemma list_ind3 {A} (P : list A -> Prop) :
  P [] -> (forall a, P [a]) -> (forall a b, P [a; b]) ->
  (forall a b c l, P l -> P (a :: b :: c :: l)) -> forall l, P l.
Proof.
  intros H0 H1 H2 H3. fix IH 1. intros [|a [|b [|c l]]]; [done|apply H1|apply H2|].
  apply H3, IH.
Qed.

Lemma encode6_range l : Forall isByte l -> Forall is6 (encode6 l).
Proof.
  unfold isByte, is6.
  induction l as [|a|a b|a b c l IH] using list_ind3; simpl; intros H; decompose_Forall;
    repeat (apply Forall_cons; split); auto; try (Z.to_euclidean_division_equations; lia).
Qed.

Lemma decode_encode6 l : Forall isByte l -> decode6 (encode6 l) = Some l.
Proof.
  unfold isByte.
  induction l as [|a|a b|a b c l IH] using list_ind3; simpl; intros H; decompose_Forall.
  - done.
  - do 2 f_equal; Z.to_euclidean_division_equations; lia.
  - f_equal. f_equal; [|f_equal]; Z.to_euclidean_division_equations; lia.
  - rewrite IH by done. simpl. f_equal.
    f_equal; [|f_equal; [|f_equal]]; Z.to_euclidean_division_equations; lia.
Qed.

Lemma encoded_bytes a l : Forall isByte l ->
  bytesOf (EncodeToString a l) = b64char a <$> encode6 l.
Proof.
  intros H. unfold EncodeToString. apply bytesOf_stringOf. apply Forall_fmap.
  eapply Forall_impl; [by apply encode6_range|]. intros v Hv. simpl.
  pose proof (b64char_range a v Hv). unfold isByte. lia.
Qed.

Lemma Decode_Encode a l : Forall isByte l -> DecodeString a (EncodeToString a l) = Some l.
Proof.
  intros H. unfold DecodeString. rewrite encoded_bytes by done.
  pose proof (encode6_range l H) as Hr.
  assert (List.filter (fun c => negb (isLineBreak c)) (b64char a <$> encode6 l) = b64char a <$> encode6 l) as ->.
  { induction Hr as [|v vs Hv Hvs IH]; simpl; [done|].
    pose proof (b64char_range a v Hv). unfold isLineBreak.
    rewrite (proj2 (Z.eqb_neq _ 10)), (proj2 (Z.eqb_neq _ 13)) by lia. simpl. by f_equal. }
  assert (mapM (b64value a) (b64char a <$> encode6 l) = Some (encode6 l)) as ->.
  { apply mapM_Some. induction Hr; simpl; constructor; auto. by apply b64value_char. }
  by apply decode_encode6.
Qed.

(** No encoded text holds a byte outside the two alphabets: in particular no dot
    and no dollar sign. *)
Lemma encoded_no c a l : Forall isByte l -> c < 43 \/ c = 46 -> c ∉ bytesOf (EncodeToString a l).
Proof.
  intros H Hc. rewrite encoded_bytes by done. intros (v & -> & Hv)%list_elem_of_fmap.
  pose proof (encode6_range l H) as Hr. rewrite Forall_forall in Hr.
  pose proof (b64char_range a v (Hr v Hv)). lia.
Qed.
