(* ===== verification/GoFloat.v ===== *)
(** * Floating point and JSON values

    float64 and float32 arithmetic as the executable IEEE 754 functions of the
    Standard Library's [SpecFloat] (53 and 24 bits of precision), the bit pattern
    of a float32, and decimal constants correctly rounded. *)

From Stdlib Require Import SpecFloat.
From S2P Require Import Prelude.

(** * JSON values

    What [encoding/json] produces, as a tree: objects keep the order the
    encoder writes their fields in.  A float32 is its bit pattern; the encoder
    refuses the infinities and the NaNs. *)


Abbreviation float32 := Z (only parsing).

#[warnings="-register-all"]
Inductive Json : Type :=
  | JNull
  | JBool (b : bool)
  | JInt (z : Z)
  | JFloat32 (bits : float32)
  | JStr (s : string)
  | JArr (l : list Json)
  | JObj (fields : list (string * Json)).

(** Exponent bits not all ones. *)
Definition f32_finite (bits : float32) : bool :=
  negb (Z.land (Z.shiftr bits 23) 255 =? 255).

Definition Json_eq_dec : forall x y : Json, {x = y} + {x <> y}.
Proof.
  fix IH 1.
  assert (forall l k : list Json, {l = k} + {l <> k}) as IHl.
  { fix IHl 1. intros [|x l] [|y k]; try (by left); try (by right).
    destruct (IH x y) as [->|]; [|right; congruence].
    destruct (IHl l k) as [->|]; [by left|right; congruence]. }
  assert (forall l k : list (string * Json), {l = k} + {l <> k}) as IHf.
  { fix IHf 1. intros [|[s x] l] [|[s' y] k]; try (by left); try (by right).
    destruct (String.string_dec s s') as [->|]; [|right; congruence].
    destruct (IH x y) as [->|]; [|right; congruence].
    destruct (IHf l k) as [->|]; [by left|right; congruence]. }
  intros [] []; try (by left); try (by right).
  - destruct (Bool.bool_dec b b0) as [->|]; [by left|right; congruence].
  - destruct (Z.eq_dec z z0) as [->|]; [by left|right; congruence].
  - destruct (Z.eq_dec bits bits0) as [->|]; [by left|right; congruence].
  - destruct (String.string_dec s s0) as [->|]; [by left|right; congruence].
  - destruct (IHl l l0) as [->|]; [by left|right; congruence].
  - destruct (IHf fields fields0) as [->|]; [by left|right; congruence].
Defined.
#[export] Instance Json_EqDecision : EqDecision Json := Json_eq_dec.

(** ** float64 *)

Abbreviation float64 := spec_float (only parsing).

Definition f64_add : float64 -> float64 -> float64 := SFadd 53 1024.
Definition f64_sub : float64 -> float64 -> float64 := SFsub 53 1024.
Definition f64_mul : float64 -> float64 -> float64 := SFmul 53 1024.
Definition f64_div : float64 -> float64 -> float64 := SFdiv 53 1024.
Definition f64_sqrt : float64 -> float64 := SFsqrt 53 1024.

(** [float64(n)] for an int [n]. *)
Definition f64_ofZ (n : Z) : float64 := binary_normalize 53 1024 n 0 false.

(** The constant [n / d] for a power of ten [d], correctly rounded: the quotient
    to 64 extra bits with a sticky bit, then one rounding. *)
Definition f64_const (n d : Z) : float64 :=
  let q := (n * 2 ^ 128) / d in
  let sticky := if (n * 2 ^ 128) mod d =? 0 then 0 else 1 in
  binary_normalize 53 1024 (2 * q + sticky) (-129) false.

Definition f64_ltb : float64 -> float64 -> bool := SFltb.

(** [float32(x)] as its bit pattern. *)
Definition f32_bits (x : spec_float) : float32 :=
  match x with
  | S754_zero s => if s then 2 ^ 31 else 0
  | S754_infinity s => (if s then 2 ^ 31 else 0) + 255 * 2 ^ 23
  | S754_nan => 511 * 2 ^ 22
  | S754_finite s m e =>
      (if s then 2 ^ 31 else 0)
      + (if Zpos m <? 2 ^ 23 then Zpos m else (e + 150) * 2 ^ 23 + (Zpos m - 2 ^ 23))
  end.

Definition f32_of64 (x : float64) : float32 :=
  match x with
  | S754_finite s m e =>
      f32_bits (binary_normalize 24 128 (if s then Zneg m else Zpos m) e s)
  | _ => f32_bits x
  end.

Example f32_one : f32_of64 (f64_ofZ 1) = 1065353216.
Proof. reflexivity. Qed.
Example f32_third : f32_of64 (f64_div (f64_ofZ 1) (f64_ofZ 3)) = 1051372203.
Proof. reflexivity. Qed.
Example f64_const_tenth : f64_const 1 10 = f64_div (f64_ofZ 1) (f64_ofZ 10).
Proof. reflexivity. Qed.
