(* ===== verification/GoRegexp.v ===== *)
(** * Go regular expressions

    The part of package regexp the program uses: leftmost-first matching by
    backtracking, with single-character classes, greedy repetition of a class,
    greedy optional groups, alternation, word boundaries and capture groups, and
    [ReplaceAll] with a constant replacement.  Text is a list of bytes, each
    taken as one character: the model is exact on ASCII text. *)

From Stdlib Require Export Ascii.
From S2P Require Import Prelude.

Abbreviation text := (list ascii) (only parsing).

Definition toText (s : string) : text := String.list_ascii_of_string s.
Definition ofText (t : text) : string := String.string_of_list_ascii t.

(** ** Classes *)

Definition class := ascii -> bool.

Definition inRange (lo hi : ascii) : class := fun c =>
  (N_of_ascii lo <=? N_of_ascii c)%N && (N_of_ascii c <=? N_of_ascii hi)%N.
Definition lit (a : ascii) : class := fun c => Ascii.eqb a c.
Definition oneOf (s : string) : class := fun c => existsb (Ascii.eqb c) (toText s).
Definition orc (f g : class) : class := fun c => f c || g c.
Definition notc (f : class) : class := fun c => negb (f c).

Definition dquote : ascii := ascii_of_nat 34.

Definition digit : class := inRange "0" "9".
Definition lower : class := inRange "a" "z".
Definition upper : class := inRange "A" "Z".
Definition alnum : class := orc digit (orc lower upper).
(** [\w] and [\s] *)
Definition word : class := orc alnum (lit "_").
Definition space : class := oneOf (ofText ["009"; "010"; "012"; "013"; " "]%char).

(** [(?i)] on a letter. *)
Definition lowerOf (c : ascii) : ascii :=
  if upper c then ascii_of_N (N_of_ascii c + 32) else c.
Definition litFold (a : ascii) : class := fun c => Ascii.eqb (lowerOf a) (lowerOf c).

(** ** Expressions *)

Inductive regex :=
  | REps
  | RRep (f : class) (least : nat) (most : option nat)
  | RCat (r1 r2 : regex)
  | RAlt (r1 r2 : regex)
  | ROpt (r : regex)
  | RWordB
  | RGroup (r : regex).

Definition RCls (f : class) : regex := RRep f 1 (Some 1%nat).

Fixpoint RLit (l : text) : regex :=
  match l with [] => REps | a :: l' => RCat (RCls (lit a)) (RLit l') end.
Definition RStr (s : string) : regex := RLit (toText s).
Fixpoint RLitFold (l : text) : regex :=
  match l with [] => REps | a :: l' => RCat (RCls (litFold a)) (RLitFold l') end.

Definition RSeq (l : list regex) : regex := foldr RCat REps l.

(** ** Matching *)

(** The state of the matcher: the character before the position, the text from
    it, the number of characters consumed, and the captures so far, last
    first. *)
Record mstate := mkMState {
  ms_prev : option ascii;
  ms_rest : text;
  ms_pos : nat;
  ms_caps : list text
}.

Definition mcont := mstate -> option mstate.

Definition isWord (o : option ascii) : bool := match o with Some c => word c | None => false end.

(** The greedy repetition: one more character first when that leads to a match,
    else stop here when enough were seen. *)
Fixpoint matchRep (f : class) (least : nat) (most : option nat) (prev : option ascii) (rest : text)
    (pos : nat) (caps : list text) (k : mcont) : option mstate :=
  let stop := if Nat.eqb least 0 then k (mkMState prev rest pos caps) else None in
  match rest with
  | c :: rest' =>
      if f c && negb (bool_decide (most = Some 0%nat)) then
        match matchRep f (Nat.pred least) (Nat.pred <$> most) (Some c) rest' (S pos) caps k with
        | Some m => Some m
        | None => stop
        end
      else stop
  | [] => stop
  end.

Fixpoint matchAt (r : regex) (m : mstate) (k : mcont) : option mstate :=
  match r with
  | REps => k m
  | RRep f least most => matchRep f least most (ms_prev m) (ms_rest m) (ms_pos m) (ms_caps m) k
  | RCat r1 r2 => matchAt r1 m (fun m' => matchAt r2 m' k)
  | RAlt r1 r2 => match matchAt r1 m k with Some x => Some x | None => matchAt r2 m k end
  | ROpt r => match matchAt r m k with Some x => Some x | None => k m end
  | RWordB =>
      if xorb (isWord (ms_prev m)) (isWord (head (ms_rest m))) then k m else None
  | RGroup r =>
      matchAt r m (fun m' =>
        k (mkMState (ms_prev m') (ms_rest m') (ms_pos m')
             (take (ms_pos m' - ms_pos m) (ms_rest m) :: ms_caps m')))
  end.

(** The match starting right here: its length and captures. *)
Definition matchHere (r : regex) (prev : option ascii) (t : text) : option (nat * list text) :=
  (fun m => (ms_pos m, rev (ms_caps m))) <$> matchAt r (mkMState prev t 0 []) Some.

(** The leftmost match: what precedes it, its length and captures, what is there. *)
Fixpoint findFrom (r : regex) (prev : option ascii) (t : text) : option (list text) :=
  match matchHere r prev t with
  | Some (_, caps) => Some caps
  | None => match t with [] => None | c :: t' => findFrom r (Some c) t' end
  end.

(** [FindStringSubmatch], without the whole match, and [MatchString]. *)
Definition findSubmatch (r : regex) (t : text) : option (list text) := findFrom r None t.
Definition matchString (r : regex) (t : text) : bool :=
  match findSubmatch r t with Some _ => true | None => false end.

(** [ReplaceAll] for an expression that matches no empty text: [skip] counts the
    characters of a match still to be dropped. *)
Fixpoint replaceFrom (r : regex) (repl : text) (prev : option ascii) (skip : nat) (t : text) : text :=
  match t with
  | [] => []
  | c :: t' =>
      match skip with
      | S n => replaceFrom r repl (Some c) n t'
      | O =>
          match matchHere r prev t with
          | Some (S n, _) => repl ++ replaceFrom r repl (Some c) n t'
          | _ => c :: replaceFrom r repl (Some c) 0 t'
          end
      end
  end.

Definition replaceAll (r : regex) (repl t : text) : text := replaceFrom r repl None 0 t.

Example replace_number :
  replaceAll (RSeq [RWordB; RRep digit 1 None; ROpt (RSeq [RStr "."; RRep digit 1 None]); RWordB])
    (toText "<N>") (toText "took 3.4 seconds, x1 and 12") = toText "took <N> seconds, x1 and <N>".
Proof. reflexivity. Qed.

Example find_groups :
  findSubmatch (RSeq [RStr (ofText (toText "File " ++ [dquote])); RGroup (RRep (notc (lit dquote)) 1 None); RStr (ofText (dquote :: toText ", line "));
                      RGroup (RRep digit 1 None); RStr ", in "; RGroup (RRep (notc space) 1 None)])
    (toText "  File " ++ dquote :: toText "a.py" ++ dquote :: toText ", line 42, in f x")
  = Some [toText "a.py"; toText "42"; toText "f"].
Proof. reflexivity. Qed.

(** * The matcher against the language of an expression

    For expressions without word boundaries: the backtracking matcher finds a
    match at a position exactly when some prefix of the text there is a word of
    the expression, and what [ReplaceAll] leaves between its replacements holds
    no word of the expression. *)


(** ** Words *)

Fixpoint lang (r : regex) (s : text) : Prop :=
  match r with
  | REps => s = []
  | RRep f least most =>
      Forall (fun c => f c = true) s /\ (least <= length s)%nat
      /\ (forall n, most = Some n -> (length s <= n)%nat)
  | RCat r1 r2 => exists s1 s2, s = s1 ++ s2 /\ lang r1 s1 /\ lang r2 s2
  | RAlt r1 r2 => lang r1 s \/ lang r2 s
  | ROpt r => lang r s \/ s = []
  | RWordB => False
  | RGroup r => lang r s
  end.

Fixpoint plain (r : regex) : bool :=
  match r with
  | RWordB => false
  | RCat r1 r2 | RAlt r1 r2 => plain r1 && plain r2
  | ROpt r | RGroup r => plain r
  | _ => true
  end.

(** Every class of the expression rejects [b]. *)
Fixpoint rejects (b : ascii) (r : regex) : bool :=
  match r with
  | RRep f _ _ => negb (f b)
  | RCat r1 r2 | RAlt r1 r2 => rejects b r1 && rejects b r2
  | ROpt r | RGroup r => rejects b r
  | _ => true
  end.

Fixpoint minLen (r : regex) : nat :=
  match r with
  | RRep _ least _ => least
  | RCat r1 r2 => minLen r1 + minLen r2
  | RAlt r1 r2 => Nat.min (minLen r1) (minLen r2)
  | RGroup r => minLen r
  | _ => 0
  end%nat.

Lemma lang_rejects b r s : rejects b r = true -> lang r s -> b ∉ s.
Proof.
  revert s. induction r as [|f least most|r1 IH1 r2 IH2|r1 IH1 r2 IH2|r IH| |r IH]; simpl; intros s Hr Hs.
  - subst. apply not_elem_of_nil.
  - destruct Hs as [Hs _]. intros Hin. rewrite Forall_forall in Hs. by rewrite (Hs b Hin) in Hr.
  - apply andb_true_iff in Hr as [Hr1 Hr2]. destruct Hs as (s1 & s2 & -> & H1 & H2).
    apply not_elem_of_app. eauto.
  - apply andb_true_iff in Hr as [Hr1 Hr2]. destruct Hs; eauto.
  - destruct Hs as [Hs| ->]; [eauto|apply not_elem_of_nil].
  - done.
  - eauto.
Qed.

Lemma lang_minLen r s : lang r s -> (minLen r <= length s)%nat.
Proof.
  revert s. induction r as [|f least most|r1 IH1 r2 IH2|r1 IH1 r2 IH2|r IH| |r IH]; simpl; intros s Hs; try lia.
  - destruct Hs as (s1 & s2 & -> & H1 & H2). rewrite length_app. specialize (IH1 _ H1). specialize (IH2 _ H2). lia.
  - destruct Hs as [H|H]; [specialize (IH1 _ H)|specialize (IH2 _ H)]; lia.
  - eauto.
Qed.

Lemma lang_rep_nil f most : lang (RRep f 0 most) [].
Proof. split; [apply Forall_nil_2|]. split; [done|]. intros n _. simpl. lia. Qed.

(** ** Soundness *)

Lemma matchRep_sound f least most prev rest pos caps k x :
  matchRep f least most prev rest pos caps k = Some x ->
  exists s rest' prev', rest = s ++ rest' /\ lang (RRep f least most) s
    /\ k (mkMState prev' rest' (pos + length s) caps) = Some x.
Proof.
  revert least most prev pos. induction rest as [|c rest IH]; intros least most prev pos; simpl.
  - destruct (Nat.eqb_spec least 0) as [->|]; [|done]. intros H. exists [], [], prev.
    replace (pos + length (@nil ascii))%nat with pos by (simpl; lia). split; [done|split; [apply lang_rep_nil|done]].
  - set (stop := if Nat.eqb least 0 then _ else None).
    assert (Hstop : stop = Some x -> exists s rest' prev', c :: rest = s ++ rest'
      /\ lang (RRep f least most) s /\ k (mkMState prev' rest' (pos + length s) caps) = Some x).
    { unfold stop. destruct (Nat.eqb_spec least 0) as [->|]; [|done]. intros H. exists [], (c :: rest), prev.
      replace (pos + length (@nil ascii))%nat with pos by (simpl; lia). split; [done|split; [apply lang_rep_nil|done]]. }
    destruct (f c) eqn:Hf; simpl; [|exact Hstop].
    destruct (bool_decide (most = Some 0%nat)) eqn:Hm; simpl; [exact Hstop|].
    destruct (matchRep f (Nat.pred least) (Nat.pred <$> most) (Some c) rest (S pos) caps k) as [y|] eqn:E;
      [|exact Hstop].
    intros [= ->]. apply IH in E as (s & rest' & prev' & -> & (H1 & H2 & H3) & Hk).
    exists (c :: s), rest', prev'. split_and!; [done|by constructor|simpl; lia| |].
    + intros n ->. simpl in *. specialize (H3 _ eq_refl). apply bool_decide_eq_false in Hm.
      destruct n; [done|]. simpl in H3. lia.
    + simpl. by replace (pos + S (length s))%nat with (S pos + length s)%nat by lia.
Qed.

Lemma matchAt_sound r m k x : plain r = true -> matchAt r m k = Some x ->
  exists s rest' prev' caps', ms_rest m = s ++ rest' /\ lang r s
    /\ k (mkMState prev' rest' (ms_pos m + length s) caps') = Some x.
Proof.
  revert m k. induction r as [|f least most|r1 IH1 r2 IH2|r1 IH1 r2 IH2|r IH| |r IH]; simpl; intros m k Hp H.
  - exists [], (ms_rest m), (ms_prev m), (ms_caps m). replace (ms_pos m + length (@nil ascii))%nat with (ms_pos m) by (simpl; lia).
    split_and!; [done|done|by destruct m].
  - apply matchRep_sound in H as (s & rest' & prev' & H1 & H2 & H3). by exists s, rest', prev', (ms_caps m).
  - apply andb_true_iff in Hp as [Hp1 Hp2].
    apply (IH1 _ _ Hp1) in H as (s1 & rest1 & prev1 & caps1 & Hr & Hs1 & H).
    apply (IH2 _ _ Hp2) in H as (s2 & rest2 & prev2 & caps2 & Hr2 & Hs2 & H). simpl in *.
    exists (s1 ++ s2), rest2, prev2, caps2. rewrite Hr, Hr2, length_app, <-app_assoc, Nat.add_assoc. eauto 8.
  - apply andb_true_iff in Hp as [Hp1 Hp2].
    destruct (matchAt r1 m k) as [y|] eqn:E.
    + injection H as ->. apply IH1 in E as (s & rest' & prev' & caps' & H1 & H2 & H3); [|done].
      exists s, rest', prev', caps'. auto.
    + apply IH2 in H as (s & rest' & prev' & caps' & H1 & H2 & H3); [|done].
      exists s, rest', prev', caps'. auto.
  - destruct (matchAt r m k) as [y|] eqn:E.
    { injection H as ->. apply IH in E as (s & rest' & prev' & caps' & H1 & H2 & H3); [|done].
      exists s, rest', prev', caps'. auto. }
    exists [], (ms_rest m), (ms_prev m), (ms_caps m). replace (ms_pos m + length (@nil ascii))%nat with (ms_pos m) by (simpl; lia).
    split_and!; [done|by right|by destruct m].
  - done.
  - apply (IH _ _ Hp) in H as (s & rest' & prev' & caps' & H1 & H2 & H3). simpl in H3. eauto 8.
Qed.

(** ** Completeness *)

(** [k] succeeds with [rest] left, whatever came before. *)
Definition accepts (k : mcont) (rest : text) : Prop :=
  forall prev pos caps, is_Some (k (mkMState prev rest pos caps)).

Lemma matchRep_complete f s least most prev rest pos caps k :
  lang (RRep f least most) s -> accepts k rest ->
  is_Some (matchRep f least most prev (s ++ rest) pos caps k).
Proof.
  intros (Hf & Hl & Hm) Hk. revert least most prev pos Hl Hm.
  induction Hf as [|c s Hc Hf IH]; intros least most prev pos Hl Hm.
  - destruct least; [|simpl in Hl; lia].
    destruct rest as [|c rest]; simpl; [apply Hk|].
    destruct (f c && negb (bool_decide (most = Some 0%nat))); [|apply Hk].
    destruct (matchRep _ _ _ _ _ _ _ _); [done|apply Hk].
  - simpl. rewrite Hc. simpl.
    rewrite bool_decide_false by (intros ->; specialize (Hm _ eq_refl); simpl in Hm; lia). simpl.
    destruct (IH (Nat.pred least) (Nat.pred <$> most) (Some c) (S pos)) as [x ->]; [simpl in Hl; lia| |done].
    intros n Hn. destruct most as [m|]; [|done]. injection Hn as <-. specialize (Hm _ eq_refl). simpl in Hm. lia.
Qed.

Lemma matchAt_complete r s m rest k : lang r s -> ms_rest m = s ++ rest -> accepts k rest ->
  is_Some (matchAt r m k).
Proof.
  revert s m rest k. induction r as [|f least most|r1 IH1 r2 IH2|r1 IH1 r2 IH2|r IH| |r IH];
    intros s m rest k Hs Hr Hk.
  - simpl in *. subst. destruct m; simpl in *; subst. apply Hk.
  - simpl. rewrite Hr. by apply matchRep_complete.
  - destruct Hs as (s1 & s2 & -> & H1 & H2). simpl. apply (IH1 s1 m (s2 ++ rest)); [done|by rewrite Hr, app_assoc|].
    intros prev pos caps. by apply (IH2 s2 _ rest).
  - simpl. destruct Hs as [Hs|Hs].
    + destruct (IH1 s m rest k Hs Hr Hk) as [x ->]. done.
    + destruct (matchAt r1 m k); [done|]. by apply (IH2 s m rest).
  - simpl. destruct Hs as [Hs| ->].
    + destruct (IH s m rest k Hs Hr Hk) as [x ->]. done.
    + destruct (matchAt r m k); [done|]. destruct m; simpl in *; subst. apply Hk.
  - done.
  - simpl. apply (IH s m rest); [done|done|]. intros prev pos caps. apply Hk.
Qed.

(** ** Matches in a text *)

Lemma matchHere_complete r s rest prev : lang r s -> is_Some (matchHere r prev (s ++ rest)).
Proof.
  intros Hs. unfold matchHere. rewrite fmap_is_Some.
  apply (matchAt_complete r s _ rest); [done|done|]. intros prev' pos caps. by eexists.
Qed.

Lemma matchHere_sound r prev t n caps : plain r = true -> matchHere r prev t = Some (n, caps) ->
  exists s rest, t = s ++ rest /\ lang r s /\ n = length s.
Proof.
  intros Hp. unfold matchHere. rewrite fmap_Some. intros (x & H & [= -> ->]).
  apply (matchAt_sound _ _ _ _ Hp) in H as (s & rest' & prev' & caps' & H1 & H2 & [= <-]). simpl in *. eauto.
Qed.

(** No word of [r] occurs in [t]. *)
Definition Free (r : regex) (t : text) : Prop := forall a s b, t = a ++ s ++ b -> ~ lang r s.

Lemma findFrom_free r prev t : findFrom r prev t = None -> Free r t.
Proof.
  revert prev. induction t as [|c t IH]; intros prev Hf a s b E Hs; simpl in Hf.
  - symmetry in E. apply app_eq_nil in E as [-> [-> ->]%app_eq_nil].
    destruct (matchHere_complete r [] [] prev Hs) as [[n caps] H]. simpl in H. by rewrite H in Hf.
  - destruct (matchHere r prev (c :: t)) as [[n caps]|] eqn:Hm; [done|].
    destruct a as [|c' a]; simpl in E.
    + rewrite E in Hm. destruct (matchHere_complete r s b prev Hs) as [x Hx]. congruence.
    + injection E as <- ->. by eapply (IH (Some c)).
Qed.

Lemma matchString_free r t : matchString r t = false -> Free r t.
Proof.
  unfold matchString, findSubmatch. destruct (findFrom r None t) eqn:E; [done|]. intros _.
  by eapply findFrom_free.
Qed.

Lemma findFrom_none r prev t : plain r = true -> Free r t -> findFrom r prev t = None.
Proof.
  intros Hp. revert prev. induction t as [|c t IH]; intros prev Hf; simpl;
    (destruct (matchHere r prev _) as [[n caps]|] eqn:Hm;
     [apply matchHere_sound in Hm as (s & rest & E & Hs & _); [|done]; by destruct (Hf [] s rest E)|]).
  - done.
  - apply IH. intros a s b ->. apply (Hf (c :: a) s b). done.
Qed.

Lemma free_matchString r t : plain r = true -> Free r t -> matchString r t = false.
Proof. intros Hp Hf. unfold matchString, findSubmatch. by rewrite findFrom_none. Qed.

(** ** ReplaceAll *)

(** A bracket cuts every bracket-free word. *)
Lemma cut_at {A} (y : A) l1 l2 a s b : l1 ++ y :: l2 = a ++ s ++ b -> y ∉ s -> s <> [] ->
  (exists b', l1 = a ++ s ++ b') \/ (exists a', l2 = a' ++ s ++ b).
Proof.
  intros E Hy Hs. revert a E. induction l1 as [|x l1 IH]; intros a E; simpl in E.
  - destruct a as [|z a]; simpl in E.
    + destruct s as [|z s]; [done|]. injection E as -> E. destruct Hy. by left.
    + injection E as <- ->. right. eauto.
  - destruct a as [|z a]; simpl in E.
    + left. clear IH. revert s Hy Hs E. intros s Hy Hs E. simpl.
      assert (Hpre : forall (l : list A) s b, y ∉ s -> l ++ y :: l2 = s ++ b -> exists b', l = s ++ b').
      { clear. induction l as [|x l IH]; intros s b Hy E; destruct s as [|z s]; simpl in E.
        - by exists [].
        - injection E as -> _. destruct Hy. by left.
        - by exists (x :: l).
        - injection E as -> E. apply not_elem_of_cons in Hy as [_ Hy].
          destruct (IH s b Hy E) as [b' ->]. by exists b'. }
      by apply (Hpre (x :: l1) s b).
    + injection E as <- E. destruct (IH a E) as [[b' ->]|Ha]; [left; by exists b'|by right].
Qed.

Section replace.
Context (r : regex) (mid : text) (l rb : ascii).

Let repl : text := l :: mid ++ [rb].

(** No match begins here. *)
Definition quietAt (prev : option ascii) (t : text) : Prop :=
  forall n caps, matchHere r prev t <> Some (S n, caps).

Lemma replaceFrom_prefix prev t s b : replaceFrom r repl prev 0 t = s ++ b -> l ∉ s -> s <> [] ->
  exists b', t = s ++ b' /\ quietAt prev t.
Proof.
  revert prev s. induction t as [|c t IH]; intros prev s E Hl Hs; simpl in E.
  - symmetry in E. by apply app_eq_nil in E as [-> _].
  - destruct s as [|z s]; [done|].
    destruct (matchHere r prev (c :: t)) as [[[|n] caps]|] eqn:Hm; simpl in E.
    2: { injection E as -> _. destruct Hl. by left. }
    all: injection E as -> E; apply not_elem_of_cons in Hl as [_ Hl];
      destruct s as [|y s]; [exists t; split; [done|intros ? ?; congruence]|];
      destruct (IH (Some z) (y :: s) E Hl) as (b' & -> & _); [done|];
      exists b'; (split; [done|intros ? ?; congruence]).
Qed.

(** An occurrence in the result is in the replacement's text or is one of the
    input where no match begins. *)
Lemma replaceFrom_occurrence prev skip t a s b :
  replaceFrom r repl prev skip t = a ++ s ++ b -> l ∉ s -> rb ∉ s -> s <> [] ->
  (exists a' b', mid = a' ++ s ++ b') \/ (exists a' b' prev', t = a' ++ s ++ b' /\ quietAt prev' (s ++ b')).
Proof.
  revert prev skip a. induction t as [|c t IH]; intros prev skip a E Hl Hr Hs; simpl in E.
  - symmetry in E. apply app_eq_nil in E as [_ [-> _]%app_eq_nil]. done.
  - assert (Hcons : (exists a' b', mid = a' ++ s ++ b') \/ (exists a' b' prev', t = a' ++ s ++ b' /\ quietAt prev' (s ++ b')) ->
      (exists a' b', mid = a' ++ s ++ b') \/ (exists a' b' prev', c :: t = a' ++ s ++ b' /\ quietAt prev' (s ++ b'))).
    { intros [?|(a' & b' & p & -> & Hq)]; [by left|right]. by exists (c :: a'), b', p. }
    destruct skip as [|n]; [|by apply Hcons, (IH (Some c) n a)].
    destruct (matchHere r prev (c :: t)) as [[[|n] caps]|] eqn:Hm.
    2: { unfold repl in E. simpl in E. rewrite <-app_assoc in E.
         apply (cut_at l []) in E as [[b' E]|[a' E]]; [|  |done|done].
         { symmetry in E. by apply app_eq_nil in E as [_ [-> _]%app_eq_nil]. }
         apply (cut_at rb mid) in E as [[b' E]|[a'' E]]; [left; eauto| |done|done].
         by apply Hcons, (IH (Some c) n a''). }
    all: destruct a as [|z a]; simpl in E; [|injection E as <- E; by apply Hcons, (IH (Some c) 0%nat a)].
    all: assert (E' : replaceFrom r repl prev 0 (c :: t) = s ++ b) by (simpl; by rewrite Hm);
      apply replaceFrom_prefix in E' as (b' & E' & Hq); [|done|done];
      right; exists [], b', prev; split; [done|by rewrite <-E'].
Qed.

Lemma replaceAll_keeps r' t : rejects l r' = true -> rejects rb r' = true -> (0 < minLen r')%nat ->
  Free r' mid -> Free r' t -> Free r' (replaceAll r repl t).
Proof.
  intros Hl Hr Hn Hmid Ht a s b E Hs.
  assert (s <> []) by (intros ->; apply lang_minLen in Hs; simpl in Hs; lia).
  apply replaceFrom_occurrence in E as [(a' & b' & E)|(a' & b' & p & E & _)];
    [by eapply Hmid|by eapply Ht|by eapply lang_rejects|by eapply lang_rejects|done].
Qed.

Lemma replaceAll_removes t : plain r = true -> rejects l r = true -> rejects rb r = true -> (0 < minLen r)%nat ->
  Free r mid -> Free r (replaceAll r repl t).
Proof.
  intros Hp Hl Hr Hn Hmid a s b E Hs.
  assert (s <> []) by (intros ->; apply lang_minLen in Hs; simpl in Hs; lia).
  apply replaceFrom_occurrence in E as [(a' & b' & E)|(a' & b' & p & E & Hq)];
    [by eapply Hmid| |by eapply lang_rejects|by eapply lang_rejects|done].
  destruct (matchHere_complete r s b' p Hs) as [[n caps] Hm].
  pose proof (matchHere_sound _ _ _ _ _ Hp Hm) as (s' & rest' & _ & Hs' & ->).
  apply lang_minLen in Hs'. destruct (length s') as [|k] eqn:E'; [lia|]. by eapply Hq.
Qed.
End replace.

Lemma replaceAll_free r repl t : plain r = true -> Free r t -> replaceAll r repl t = t.
Proof.
  intros Hp. unfold replaceAll. generalize (@None ascii). induction t as [|c t IH]; intros prev Hf; simpl; [done|].
  destruct (matchHere r prev (c :: t)) as [[n caps]|] eqn:Hm.
  - apply matchHere_sound in Hm as (s & rest & E & Hs & _); [|done]. by destruct (Hf [] s rest E).
  - f_equal. apply IH. intros a s b ->. by apply (Hf (c :: a) s b).
Qed.
