(* ===== verification/GoFmt.v ===== *)
(** * Formatting

    What the program uses of strconv and fmt: decimal integers and [%.1f], and
    the conversions between durations and float64. *)

From Stdlib Require Import SpecFloat.
From stdpp Require Import pretty.
From S2P Require Import Prelude GoFloat GoRegexp.

Definition dq : string := String (Ascii.ascii_of_nat 34) "".
Definition nl : string := String (Ascii.ascii_of_nat 10) "".
Definition bq : string := String (Ascii.ascii_of_nat 96) "".

(** [%d], [strconv.Itoa] *)
Definition itoa (z : Z) : string := pretty z.

(** Round [n / 2^k] to the nearest integer, ties to even. *)
Definition roundEven (n k : Z) : Z :=
  let q := Z.shiftr n k in
  let r := n - Z.shiftl q k in
  let half := Z.shiftl 1 (k - 1) in
  if r <? half then q else if half <? r then q + 1 else if Z.even q then q else q + 1.

(** [%.1f] of a finite float64: the exact value rounded to tenths. *)
Definition fixed1 (x : float64) : string :=
  match x with
  | S754_finite s m e =>
      let t := if 0 <=? e then Z.shiftl (10 * Zpos m) e else roundEven (10 * Zpos m) (- e) in
      (if s then "-" else "") +:+ itoa (t / 10) +:+ "." +:+ itoa (t mod 10)
  | S754_zero s => (if s then "-" else "") +:+ "0.0"
  | S754_infinity s => if s then "-Inf" else "+Inf"
  | S754_nan => "NaN"
  end.

(** [%.3f]. *)
Definition fixed3 (x : float64) : string :=
  match x with
  | S754_finite s m e =>
      let t := if 0 <=? e then Z.shiftl (1000 * Zpos m) e else roundEven (1000 * Zpos m) (- e) in
      let ms := itoa (t mod 1000) in
      (if s then "-" else "") +:+ itoa (t / 1000) +:+ "."
      +:+ String.concat "" (replicate (3 - String.length ms) "0") +:+ ms
  | S754_zero s => (if s then "-" else "") +:+ "0.000"
  | S754_infinity s => if s then "-Inf" else "+Inf"
  | S754_nan => "NaN"
  end.

(** [int(x)] of a float64 in range. *)
Definition f64_trunc (x : float64) : Z :=
  match x with
  | S754_finite s m e =>
      let v := if 0 <=? e then Z.shiftl (Zpos m) e else Z.shiftr (Zpos m) (- e) in
      if s then - v else v
  | _ => 0
  end.

(** [Duration.Hours] and [Duration.Seconds] of nanoseconds. *)
Definition durationIn (unit d : Z) : float64 :=
  f64_add (f64_ofZ (Z.quot d unit)) (f64_div (f64_ofZ (Z.rem d unit)) (f64_ofZ unit)).
Definition second : Z := 1000000000.
Definition hour : Z := 3600 * second.
Definition Hours : Z -> float64 := durationIn hour.
Definition Seconds : Z -> float64 := durationIn second.

Example fixed1_demo : fixed1 (f64_mul (f64_const 1234 10000) (f64_ofZ 100)) = "12.3".
Proof. vm_compute. reflexivity. Qed.
Example fixed1_tie : fixed1 (f64_const 25 100) = "0.2" /\ fixed1 (f64_ofZ 7) = "7.0".
Proof. vm_compute. auto. Qed.
Example itoa_demo : itoa (-42) = "-42".
Proof. vm_compute. reflexivity. Qed.

(** [int(math.Ceil(x))] of a float64 in range, and [int(math.Round(x))], half away
    from zero. *)
Definition f64_ceil (x : float64) : Z :=
  match x with
  | S754_finite s m e =>
      let n := if s then Zneg m else Zpos m in
      if 0 <=? e then Z.shiftl n e else - (- n / 2 ^ (- e))
  | _ => 0
  end.
Definition f64_round (x : float64) : Z :=
  match x with
  | S754_finite s m e =>
      let v := if 0 <=? e then Z.shiftl (Zpos m) e else (Zpos m + 2 ^ (- e - 1)) / 2 ^ (- e) in
      if s then - v else v
  | _ => 0
  end.

Example f64_ceil_demo : (f64_ceil (f64_const 21 10), f64_ceil (f64_ofZ 3), f64_ceil (f64_const (-21) 10)) = (3, 3, -2).
Proof. vm_compute. reflexivity. Qed.
Example f64_round_demo : (f64_round (f64_const 25 10), f64_round (f64_const (-25) 10), f64_round (f64_const 24 10)) = (3, -3, 2).
Proof. vm_compute. reflexivity. Qed.

(** ** [%g] with the shortest digits *)

(** The float64 nearest to [num / den]. *)
Definition f64_ofRatio (num den : Z) : float64 :=
  let sh := 66 + Z.log2 den - Z.log2 num in
  let '(n, d) := if 0 <=? sh then (Z.shiftl num sh, den) else (num, Z.shiftl den (- sh)) in
  binary_normalize 53 1024 (2 * (n / d) + (if n mod d =? 0 then 0 else 1)) (- sh - 1) false.

(** [q * 10^p] as a ratio. *)
Definition scale10 (q p : Z) : Z * Z := if 0 <=? p then (q * 10 ^ p, 1) else (q, 10 ^ (- p)).

(** The [n]-digit decimals around [num / den], whose first digit has weight
    [10^k], that read back as [x]; the nearer one first. *)
Definition decimalAt (x : float64) (num den k : Z) (n : nat) : option Z :=
  let p := k - Z.of_nat n + 1 in
  let '(a, b) := if 0 <=? p then (num, den * 10 ^ p) else (num * 10 ^ (- p), den) in
  let q := a / b in
  let back := fun q => let '(s, t) := scale10 q p in SFeqb (f64_ofRatio s t) x in
  let near := if 2 * (a - q * b) <? b then [q; q + 1] else if b <? 2 * (a - q * b) then [q + 1; q]
              else if Z.even q then [q; q + 1] else [q + 1; q] in
  List.find back near.

(** The first length from [n] on that has one. *)
Fixpoint shortestFrom (x : float64) (num den k : Z) (n fuel : nat) : Z * nat :=
  match decimalAt x num den k n, fuel with
  | Some q, _ => (q, n)
  | None, S fuel' => shortestFrom x num den k (S n) fuel'
  | None, O => (0, n)
  end.

(** The decimal exponent of [num / den]. *)
Definition exponent10 (num den : Z) : Z :=
  let k := (Z.log2 num - Z.log2 den) * 30103 / 100000 - 2 in
  let fits := fun k => let '(a, b) := scale10 1 k in a * den <=? num * b in
  foldl (fun k' d => if fits (k + d) then k + d else k') k [0; 1; 2; 3; 4].

(** Trailing zeros of the digits are dropped. *)
Fixpoint dropZeros (fuel : nat) (q : Z) : Z :=
  match fuel with
  | S fuel' => if (q mod 10 =? 0) && negb (q =? 0) then dropZeros fuel' (q / 10) else q
  | O => q
  end.

Definition exponentText (k : Z) : string :=
  (if k <? 0 then "e-" else "e+") +:+ (if Z.abs k <? 10 then "0" else "") +:+ itoa (Z.abs k).

Definition zeros (n : Z) : string := String.concat "" (replicate (Z.to_nat n) "0").

(** [fmt.Sprintf("%g", x)] *)
Definition formatG (x : float64) : string :=
  match x with
  | S754_zero s => if s then "-0" else "0"
  | S754_infinity s => if s then "-Inf" else "+Inf"
  | S754_nan => "NaN"
  | S754_finite s m e =>
      let '(num, den) := if 0 <=? e then (Z.shiftl (Zpos m) e, 1) else (Zpos m, Z.shiftl 1 (- e)) in
      let k := exponent10 num den in
      let '(q, n) := shortestFrom (S754_finite false m e) num den k 1 16 in
      let k := if 10 ^ Z.of_nat n <=? q then k + 1 else k in
      let ds := itoa (dropZeros 20 q) in
      let nd := Z.of_nat (String.length ds) in
      (if s then "-" else "") +:+
      if (k <? -4) || (6 <=? k) then
        String.substring 0 1 ds +:+ (if 1 <? nd then "." +:+ String.substring 1 20 ds else "") +:+ exponentText k
      else if k <? 0 then "0." +:+ zeros (- k - 1) +:+ ds
      else if nd <=? k + 1 then ds +:+ zeros (k + 1 - nd)
      else String.substring 0 (Z.to_nat (k + 1)) ds +:+ "." +:+ String.substring (Z.to_nat (k + 1)) 20 ds
  end.

Example formatG_demo : formatG <$> [f64_const 1 10; f64_ofZ 100000; f64_ofZ 1000000; f64_const 35 10; f64_const (-12345678) 1000;
    f64_div (f64_ofZ 1) (f64_ofZ 3); f64_const 3 100000; f64_const 25 100000; f64_ofZ 0; f64_ofZ (10 ^ 22)]
  = ["0.1"; "100000"; "1e+06"; "3.5"; "-12345.678"; "0.3333333333333333"; "3e-05"; "0.00025"; "0"; "1e+22"].
Proof. vm_compute. reflexivity. Qed.
Example formatG_edges : formatG <$> [S754_finite false 1 (-1074); S754_finite false 9007199254740991 971; S754_finite false 4503599627370496 (-96)]
  = ["5e-324"; "1.7976931348623157e+308"; "5.684341886080802e-14"].
Proof. vm_compute. reflexivity. Qed.

(** * Package time

    The civil calendar in UTC, for instants in microseconds since 1970, and the
    two layouts the program prints. *)


(** Year, month and day of a day number, day 0 being 1970-01-01 (proleptic
    Gregorian calendar, years counted from March). *)
Definition civil (day : Z) : Z * Z * Z :=
  let z := day + 719468 in
  let era := z / 146097 in
  let doe := z mod 146097 in
  let yoe := (doe - doe / 1460 + doe / 36524 - doe / 146096) / 365 in
  let doy := doe - (365 * yoe + yoe / 4 - yoe / 100) in
  let mp := (5 * doy + 2) / 153 in
  let d := doy - (153 * mp + 2) / 5 + 1 in
  let m := if mp <? 10 then mp + 3 else mp - 9 in
  (yoe + 400 * era + (if m <=? 2 then 1 else 0), m, d).

(** The day number of a date. *)
Definition dayOf (y m d : Z) : Z :=
  let y := if m <=? 2 then y - 1 else y in
  let era := y / 400 in
  let yoe := y mod 400 in
  let doy := (153 * (m + (if 2 <? m then -3 else 9)) + 2) / 5 + d - 1 in
  146097 * era + (365 * yoe + yoe / 4 - yoe / 100 + doy) - 719468.

(** A number padded with zeros to [n] digits. *)
Definition padded (n : nat) (z : Z) : string :=
  let s := itoa z in
  String.concat "" (replicate (n - String.length s) "0") +:+ s.

Definition secondsOf (us : Z) : Z := us / 1000000.

(** [t.UTC().Format(DateOnly)], for years 0 to 9999. *)
Definition formatDate (us : Z) : string :=
  let '(y, m, d) := civil (secondsOf us / 86400) in
  padded 4 y +:+ "-" +:+ padded 2 m +:+ "-" +:+ padded 2 d.

(** [t.UTC().Format(time.RFC3339)] *)
Definition RFC3339 (us : Z) : string :=
  let s := secondsOf us mod 86400 in
  formatDate us +:+ "T" +:+ padded 2 (s / 3600) +:+ ":" +:+ padded 2 (s / 60 mod 60)
  +:+ ":" +:+ padded 2 (s mod 60) +:+ "Z".

Example rfc3339_epoch : RFC3339 0 = "1970-01-01T00:00:00Z".
Proof. vm_compute. reflexivity. Qed.
Example rfc3339_leap : RFC3339 1709209845000000 = "2024-02-29T12:30:45Z".
Proof. vm_compute. reflexivity. Qed.
Example civil_back : forallb (fun d => let '(y, m, dd) := civil d in dayOf y m dd =? d)
  ((fun k => Z.of_nat k * 97 - 30000) <$> seq 0 1000) = true.
Proof. vm_compute. reflexivity. Qed.

(** ** The characters of a number *)

Definition numeral (c : ascii) : bool := inRange "0" "9" c || Ascii.eqb c "-" || Ascii.eqb c ".".
Definition numeric (s : string) : Prop := Forall (fun c => numeral c = true) (toText s).

Lemma numeric_app s t : numeric s -> numeric t -> numeric (s +:+ t).
Proof. unfold numeric. intros Hs Ht. induction s as [|c s IH]; [done|]. apply Forall_cons in Hs as [Hc Hs]. constructor; [done|by apply IH]. Qed.

Lemma pretty_numeric x s : numeric s -> numeric (pretty_N_go x s).
Proof.
  revert s. induction (N.lt_wf_0 x) as [x _ IH]; intros s Hs.
  destruct (decide (x = 0)%N) as [->|Hx]; [by rewrite pretty_N_go_0|]. rewrite pretty_N_go_step by lia.
  apply IH; [apply N.div_lt; lia|]. constructor; [|done].
  pose proof (N.mod_lt x 10 ltac:(done)) as Hm. generalize dependent (x mod 10)%N. intros d Hd.
  unfold pretty_N_char. by repeat case_match.
Qed.

Lemma itoa_numeric z : numeric (itoa z).
Proof.
  assert (forall x : N, numeric (pretty x)) as HN.
  { intros x. unfold pretty, pretty_N. case_decide; [by repeat constructor|]. apply pretty_numeric. constructor. }
  unfold itoa. destruct z; [by repeat constructor|apply HN|]. unfold pretty, pretty_Z. constructor; [done|apply HN].
Qed.

Lemma padded_numeric n z : numeric (padded n z).
Proof.
  unfold padded. apply numeric_app; [|apply itoa_numeric]. generalize (n - String.length (itoa z))%nat. intros k.
  induction k as [|[|k] IH]; [constructor|by repeat constructor|]. by constructor.
Qed.

Lemma formatDate_numeric us : numeric (formatDate us).
Proof.
  unfold formatDate. destruct (civil _) as [[y m] d].
  do 2 (apply numeric_app; [apply padded_numeric|apply numeric_app; [by repeat constructor|]]). apply padded_numeric.
Qed.
