(* ===== verification/Model.v ===== *)
(** * internal/model: the domain types the services share

    Go's [RunStatus] and [TestOutcome] are strings with named constants, and a
    value read from the database can be any string: they stay strings here.
    A pointer field is an [option]; times are microseconds since the epoch, the
    resolution the database keeps. *)

From S2P Require Import Prelude.

Abbreviation RunStatus := string (only parsing).

Definition RunPending : RunStatus := "pending".
Definition RunPlanning : RunStatus := "planning".
Definition RunDispatching : RunStatus := "dispatching".
Definition RunRunning : RunStatus := "running".
Definition RunFinalizing : RunStatus := "finalizing".
Definition RunSucceeded : RunStatus := "succeeded".
Definition RunFailed : RunStatus := "failed".
Definition RunCancelled : RunStatus := "canceled".

(** The eight constants of the block. *)
Definition runStatuses : list RunStatus :=
  [RunPending; RunPlanning; RunDispatching; RunRunning; RunFinalizing;
   RunSucceeded; RunFailed; RunCancelled].

Abbreviation TestOutcome := string (only parsing).

Definition OutcomePassed : TestOutcome := "passed".
Definition OutcomeFailed : TestOutcome := "failed".
Definition OutcomeSkipped : TestOutcome := "skipped".
Definition OutcomeErrored : TestOutcome := "errored".
Definition OutcomeTimedOut : TestOutcome := "timed_out".
Definition OutcomeInterrupted : TestOutcome := "interrupted".

Record TestEntry := mkTestEntry {
  te_Path : string;
  te_Name : string;
  te_ParamsHash : string;
  te_ASTSignature : string;
  te_Tags : list string
}.

Record TestManifest := mkTestManifest {
  tm_Runner : string;
  tm_Tests : list TestEntry
}.

Record RunBudget := mkRunBudget {
  rb_MaxSeconds : Z;
  rb_MaxWorkers : Z
}.

Record CreateRunRequest := mkCreateRunRequest {
  cr_RepoFullName : string;
  cr_CommitSHA : string;
  cr_Branch : string;
  cr_Manifest : TestManifest;
  cr_Budget : option RunBudget;
  cr_TriggerActor : string;
  cr_TriggerPRNumber : Z;
  cr_IdempotencyKey : string
}.

Record Run := mkRun {
  run_ID : string;
  run_RepoID : string;
  run_RepoFullName : string;
  run_CommitSHA : string;
  run_Branch : string;
  run_Status : RunStatus;
  run_StartedAt : option Z;
  run_FinishedAt : option Z;
  run_TotalDurationMS : Z;
  run_BudgetSeconds : Z;
  run_PreemptionCount : Z;
  run_CreatedAt : Z;
  run_UpdatedAt : Z
}.

Record FieldError := mkFieldError {
  fe_Field : string;
  fe_Message : string
}.

#[export] Instance TestEntry_eq_dec : EqDecision TestEntry.
Proof. solve_decision. Defined.
#[export] Instance TestManifest_eq_dec : EqDecision TestManifest.
Proof. solve_decision. Defined.
#[export] Instance RunBudget_eq_dec : EqDecision RunBudget.
Proof. solve_decision. Defined.
#[export] Instance Run_eq_dec : EqDecision Run.
Proof. solve_decision. Defined.
#[export] Instance FieldError_eq_dec : EqDecision FieldError.
Proof. solve_decision. Defined.
