(* ===== verification/Scheduler.v ===== *)
(** * internal/scheduler: LPT bin packing

    [PlanFunc] step by step as scheduler.go has it: partition by quarantine,
    the 50 ms floor, the shard count, the longest-first stable sort with the
    SHA-256 tie-break, the assignment loop with sticky exclusive tags, the
    per-bin sort, the makespan and the trimming of empty bins; [Replay] and the
    comparison of plans by their JSON encoding.  Integer sums wrap at 64 bits.

    A float32 is kept as its bit pattern: the scheduler only copies it, and
    encoding/json only needs to know whether it is finite. *)

From S2P Require Import Prelude GoSort GoBytes GoFloat Model.

(** ** Data *)

Record Test := mkTest {
  t_Entry : TestEntry;
  t_PredictedMS : Z;
  t_IsColdStart : bool;
  t_FlakeProb : float32;
  t_IsQuarantined : bool
}.

Record FleetSnapshot := mkFleetSnapshot {
  fs_MaxShards : Z;
  fs_WorkerTags : list string
}.

Record Constraints := mkConstraints {
  c_TargetShardSeconds : Z;
  c_MinShards : Z;
  c_MaxShards : Z
}.

Record Assignment := mkAssignment {
  a_ShardIndex : Z;
  a_PredictedDurationMS : Z;
  a_Tests : list Test
}.

Record Plan := mkPlan {
  p_Assignments : list Assignment;
  p_QuarantineLane : list Test;
  p_TotalPredictedMS : Z;
  p_MakespanPredictedMS : Z;
  p_Version : string
}.

#[export] Instance Test_eq_dec : EqDecision Test.
Proof. solve_decision. Defined.
#[export] Instance Assignment_eq_dec : EqDecision Assignment.
Proof. solve_decision. Defined.
#[export] Instance Plan_eq_dec : EqDecision Plan.
Proof. solve_decision. Defined.

Definition planVersion : string := "lpt-v1".

Definition DefaultConstraints : Constraints := mkConstraints 300 1 50.

(** ** Helpers *)

(** [len(t) >= 10 && t[:10] == "exclusive-"] *)
Definition isExclusive (t : string) : bool :=
  (10 <=? String.length t)%nat && String.eqb (String.substring 0 10 t) "exclusive-".

Fixpoint pickExclusiveTag (tags : list string) : string :=
  match tags with
  | [] => ""
  | t :: tags' => if isExclusive t then t else pickExclusiveTag tags'
  end.

(** Big-endian value of a byte list. *)
Definition uint64BE (l : list Z) : Z := foldl (fun acc b => 256 * acc + b) 0 l.

Definition stableHash (e : TestEntry) : Z :=
  let sum := sha256 (bytesOf (te_Path e) ++ [0] ++ bytesOf (te_Name e) ++ [0]
                       ++ bytesOf (te_ParamsHash e)) in
  uint64BE (take 8 sum).

Definition with_PredictedMS (t : Test) (ms : Z) : Test :=
  mkTest (t_Entry t) ms (t_IsColdStart t) (t_FlakeProb t) (t_IsQuarantined t).

Definition with_IsQuarantined (t : Test) (q : bool) : Test :=
  mkTest (t_Entry t) (t_PredictedMS t) (t_IsColdStart t) (t_FlakeProb t) q.

(** ** PlanFunc *)

(** The knobs after their defaults were applied. *)
Definition normalizeConstraints (c : Constraints) : Constraints :=
  let target := if c_TargetShardSeconds c <=? 0 then 300 else c_TargetShardSeconds c in
  let mn := if c_MinShards c <? 1 then 1 else c_MinShards c in
  let mx := if c_MaxShards c <? mn then Z.max mn 50 else c_MaxShards c in
  mkConstraints target mn mx.

(** Step 1. *)
Definition partitionTests (tests : list Test) : list Test * list Test :=
  (List.filter (fun t => negb (t_IsQuarantined t)) tests,
   List.filter t_IsQuarantined tests).

(** Step 2: the floor and the total. *)
Definition floorTest (t : Test) : Test :=
  if t_PredictedMS t <? 50 then with_PredictedMS t 50 else t.

Definition totalOf (active : list Test) : Z :=
  foldl (fun acc t => add64 acc (t_PredictedMS t)) 0 active.

(** Step 2: how many shards.  [c] is already normalized. *)
Definition chooseShardCount (c : Constraints) (totalMS : Z) (nActive : Z) : Z :=
  let target := mul64 (c_TargetShardSeconds c) 1000 in
  let desired :=
    if (0 <? totalMS) && (0 <? target)
    then quot64 (sub64 (add64 totalMS target) 1) target else 1 in
  let shardCount := Z.max desired (c_MinShards c) in
  let shardCount := Z.min shardCount (c_MaxShards c) in
  let shardCount :=
    if (nActive <? shardCount) && (0 <? nActive) then nActive else shardCount in
  if shardCount =? 0 then 1 else shardCount.

(** Step 3: longest first, ties by hash. *)
Definition lptLess (x y : Test) : bool :=
  if negb (t_PredictedMS x =? t_PredictedMS y)
  then t_PredictedMS x >? t_PredictedMS y
  else stableHash (t_Entry x) <? stableHash (t_Entry y).

Definition initBins (shardCount : Z) : list Assignment :=
  (fun i => mkAssignment i 0 []) <$> seqZ 0 shardCount.

(** Step 4: the inner loop over the bins; [best] is -1 while none was taken. *)
Fixpoint pickBin (exclusiveBin : gmap string Z) (exclusiveTag : string)
    (i : Z) (bins : list Assignment) (best bestDur : Z) : Z :=
  match bins with
  | [] => best
  | b :: bins' =>
      let conflict :=
        negb (String.eqb exclusiveTag "") &&
        match exclusiveBin !! exclusiveTag with
        | Some owner => negb (owner =? i)
        | None => false
        end in
      if conflict then pickBin exclusiveBin exclusiveTag (i + 1) bins' best bestDur
      else
        let d := a_PredictedDurationMS b in
        if (best =? -1) || (d <? bestDur)
        then pickBin exclusiveBin exclusiveTag (i + 1) bins' i d
        else pickBin exclusiveBin exclusiveTag (i + 1) bins' best bestDur
  end.

Definition addToBin (t : Test) (b : Assignment) : Assignment :=
  mkAssignment (a_ShardIndex b)
    (add64 (a_PredictedDurationMS b) (t_PredictedMS t)) (a_Tests b ++ [t]).

(** One iteration of step 4 on (bins, exclusiveBin). *)
Definition assignTest (st : list Assignment * gmap string Z) (t : Test) :
    list Assignment * gmap string Z :=
  let '(bins, exclusiveBin) := st in
  let exclusiveTag := pickExclusiveTag (te_Tags (t_Entry t)) in
  let best := pickBin exclusiveBin exclusiveTag 0 bins (-1) (-1) in
  let best := if best =? -1 then 0 else best in
  let bins := alter (addToBin t) (Z.to_nat best) bins in
  let exclusiveBin :=
    if negb (String.eqb exclusiveTag "")
    then <[exclusiveTag := best]> exclusiveBin else exclusiveBin in
  (bins, exclusiveBin).

Definition assignAll (shardCount : Z) (active : list Test) : list Assignment :=
  (foldl assignTest (initBins shardCount, ∅) active).1.

(** Step 5. *)
Definition sortBin (b : Assignment) : Assignment :=
  mkAssignment (a_ShardIndex b) (a_PredictedDurationMS b)
    (SliceStable (fun x y => t_PredictedMS x >? t_PredictedMS y) (a_Tests b)).

(** Step 6. *)
Definition makespanOf (bins : list Assignment) : Z :=
  maxZ (a_PredictedDurationMS <$> bins).

(** [for len(bins) > 1 && len(bins[len(bins)-1].Tests) == 0], on the reversed
    list. *)
Fixpoint dropEmptyHead (rbins : list Assignment) : list Assignment :=
  match rbins with
  | b :: ((_ :: _) as rest) =>
      match a_Tests b with [] => dropEmptyHead rest | _ => rbins end
  | _ => rbins
  end.

Definition trimBins (bins : list Assignment) : list Assignment :=
  reverse (dropEmptyHead (reverse bins)).

Definition PlanFunc (tests : list Test) (_ : FleetSnapshot) (c : Constraints) : Plan :=
  let c := normalizeConstraints c in
  let '(active, quar) := partitionTests tests in
  let active := floorTest <$> active in
  let totalMS := totalOf active in
  let shardCount := chooseShardCount c totalMS (Z.of_nat (length active)) in
  let active := SliceStable lptLess active in
  let bins := assignAll shardCount active in
  let bins := sortBin <$> bins in
  mkPlan (trimBins bins) quar totalMS (makespanOf bins) planVersion.

(** ** The JSON of a plan

    [plansEqual] compares [json.Marshal] outputs.  The encoding is kept as a
    tree; [json.Marshal] fails on a float that is an infinity or a NaN. *)

Definition jsonEntry (e : TestEntry) : Json :=
  JObj ([("path", JStr (te_Path e)); ("name", JStr (te_Name e))]
    ++ (if String.eqb (te_ParamsHash e) "" then [] else [("params_hash", JStr (te_ParamsHash e))])
    ++ (if String.eqb (te_ASTSignature e) "" then [] else [("ast_signature", JStr (te_ASTSignature e))])
    ++ match te_Tags e with [] => [] | tags => [("tags", JArr (JStr <$> tags))] end).

Definition jsonTest (t : Test) : option Json :=
  if f32_finite (t_FlakeProb t) then
    Some (JObj [("Entry", jsonEntry (t_Entry t)); ("PredictedMS", JInt (t_PredictedMS t));
      ("IsColdStart", JBool (t_IsColdStart t)); ("FlakeProb", JFloat32 (t_FlakeProb t));
      ("IsQuarantined", JBool (t_IsQuarantined t))])
  else None.

Definition jsonAssignment (a : Assignment) : option Json :=
  ts ← mapM jsonTest (a_Tests a);
  Some (JObj [("ShardIndex", JInt (a_ShardIndex a));
    ("PredictedDurationMS", JInt (a_PredictedDurationMS a)); ("Tests", JArr ts)]).

Definition jsonPlan (p : Plan) : option Json :=
  asg ← mapM jsonAssignment (p_Assignments p);
  ql ← mapM jsonTest (p_QuarantineLane p);
  Some (JObj [("Assignments", JArr asg); ("QuarantineLane", JArr ql);
    ("TotalPredictedMS", JInt (p_TotalPredictedMS p));
    ("MakespanPredictedMS", JInt (p_MakespanPredictedMS p));
    ("Version", JStr (p_Version p))]).

Definition plansEqual (a b : Plan) : bool :=
  match jsonPlan a, jsonPlan b with
  | Some aj, Some bj => bool_decide (aj = bj)
  | _, _ => false
  end.

(** ** Replay *)

Definition replayTests (stored : Plan) : list Test :=
  ((fun t => with_IsQuarantined t false) <$> (concat (a_Tests <$> p_Assignments stored)))
  ++ ((fun t => with_IsQuarantined t true) <$> p_QuarantineLane stored).

Definition Replay (stored : Plan) (c : Constraints) : Plan * bool :=
  let recomputed := PlanFunc (replayTests stored) (mkFleetSnapshot 0 []) c in
  (recomputed, plansEqual stored recomputed).
