(* ===== verification/SchedulerFacts.v ===== *)
(** * Facts about the assignment loop of the scheduler

    The choice of a bin, the invariant of the loop, and what it says of the
    finished bins.  SchedulerProps.v states the properties of [PlanFunc] from
    these. *)

From S2P Require Import Prelude GoSort GoBytes GoFloat Model Scheduler.

(** ** Choosing a bin *)

Definition eligible (ex : gmap string Z) (tag : string) (i : Z) : bool :=
  negb (negb (String.eqb tag "") &&
        match ex !! tag with Some o => negb (o =? i) | None => false end).

Definition durMS (b : Assignment) : Z := a_PredictedDurationMS b.

(** [j] is the first of the eligible bins of smallest duration. *)
Definition chosen (ex : gmap string Z) (tag : string) (i : Z)
    (bins : list Assignment) (j : nat) (b : Assignment) : Prop :=
  bins !! j = Some b ∧ eligible ex tag (i + Z.of_nat j) = true
  ∧ (forall j' b', bins !! j' = Some b' -> eligible ex tag (i + Z.of_nat j') = true ->
       durMS b <= durMS b' ∧ ((j' < j)%nat -> durMS b < durMS b')).

Definition pick_keeps (ex : gmap string Z) (tag : string) (i : Z)
    (bins : list Assignment) (best bestDur : Z) : Prop :=
  forall j b, bins !! j = Some b -> eligible ex tag (i + Z.of_nat j) = true ->
    best <> -1 ∧ bestDur <= durMS b.

Lemma pick_keeps_cons ex tag i b bins best bestDur :
  (eligible ex tag i = true -> best <> -1 ∧ bestDur <= durMS b) ->
  pick_keeps ex tag (i + 1) bins best bestDur ->
  pick_keeps ex tag i (b :: bins) best bestDur.
Proof.
  intros H0 H [|j] b' Hj He; simpl in Hj; simplify_eq.
  - apply H0. by replace (i + Z.of_nat 0) with i in He by lia.
  - apply (H j b' Hj). by replace (i + 1 + Z.of_nat j) with (i + Z.of_nat (S j)) by lia.
Qed.

Lemma chosen_cons ex tag i b bins j c :
  chosen ex tag (i + 1) bins j c ->
  (eligible ex tag i = true -> durMS c < durMS b) ->
  chosen ex tag i (b :: bins) (S j) c.
Proof.
  intros (Hj & He & Hmin) H0. split_and!; [done| |].
  - by replace (i + Z.of_nat (S j)) with (i + 1 + Z.of_nat j) by lia.
  - intros [|j'] b' Hj' He'; simpl in Hj'; simplify_eq.
    + replace (i + Z.of_nat 0) with i in He' by lia. specialize (H0 He'). lia.
    + replace (i + Z.of_nat (S j')) with (i + 1 + Z.of_nat j') in He' by lia.
      destruct (Hmin j' b' Hj' He'). split; [done|]. intros. apply H1. lia.
Qed.

(** The inner loop returns either the candidate it started from, when that one
    beats every eligible bin, or the first smallest eligible bin. *)
Lemma pickBin_spec ex tag bins : forall i best bestDur,
  0 <= i ->
  (pickBin ex tag i bins best bestDur = best ∧ pick_keeps ex tag i bins best bestDur)
  ∨ (exists j b, pickBin ex tag i bins best bestDur = i + Z.of_nat j
       ∧ chosen ex tag i bins j b ∧ (best = -1 ∨ durMS b < bestDur)).
Proof.
  induction bins as [|b bins IH]; intros i best bestDur Hi; simpl.
  { left. split; [done|]. intros j b' Hj. done. }
  fold (durMS b).
  destruct (negb (String.eqb tag "") && _) eqn:Ec.
  - (* in conflict: skipped *)
    assert (eligible ex tag i = false) as Hne by (unfold eligible; by rewrite Ec).
    destruct (IH (i + 1) best bestDur ltac:(lia)) as [[-> Hk]|(j & c & -> & Hc & Hb)].
    + left. split; [done|]. apply pick_keeps_cons; [congruence|done].
    + right. exists (S j), c. split_and!; [lia| |done]. apply chosen_cons; [done|congruence].
  - assert (eligible ex tag i = true) as Hel by (unfold eligible; by rewrite Ec).
    destruct ((best =? -1) || (durMS b <? bestDur)) eqn:Eb.
    + right. destruct (IH (i + 1) i (durMS b) ltac:(lia)) as [[-> Hk]|(j & c & -> & Hc & Hb)].
      * exists 0%nat, b. split_and!; [lia| |apply orb_true_iff in Eb; lia].
        split_and!; [done|by replace (i + Z.of_nat 0) with i by lia|].
        intros [|j'] b' Hj' He'; simpl in Hj'; simplify_eq; [lia|].
        destruct (Hk j' b' Hj') as [_ ?]; [|lia].
        by replace (i + 1 + Z.of_nat j') with (i + Z.of_nat (S j')) by lia.
      * exists (S j), c. destruct Hb as [?|Hb]; [lia|].
        split_and!; [lia| |apply orb_true_iff in Eb; lia].
        apply chosen_cons; [done|lia].
    + zbool. destruct (IH (i + 1) best bestDur ltac:(lia)) as [[-> Hk]|(j & c & -> & Hc & Hb)].
      * left. split; [done|]. apply pick_keeps_cons; [done|done].
      * right. exists (S j), c. split_and!; [lia| |done].
        apply chosen_cons; [done|lia].
Qed.

(** ** The invariant of the loop *)

Definition exTag (t : Test) : string := pickExclusiveTag (te_Tags (t_Entry t)).
Definition msOf (ts : list Test) : list Z := t_PredictedMS <$> ts.

Record loopInv (n : nat) (done : list Test)
    (st : list Assignment * gmap string Z) : Prop := {
  li_len : length st.1 = n;
  li_index : forall i b, st.1 !! i = Some b -> a_ShardIndex b = Z.of_nat i;
  li_dur : forall i b, st.1 !! i = Some b -> durMS b = wrap64 (sumZ (msOf (a_Tests b)));
  li_perm : concat (a_Tests <$> st.1) ≡ₚ done;
  li_owner : forall tag o, st.2 !! tag = Some o -> 0 <= o < Z.of_nat n;
  li_excl : forall i b t, st.1 !! i = Some b -> t ∈ a_Tests b -> exTag t <> "" ->
    st.2 !! exTag t = Some (Z.of_nat i)
}.

Lemma initBins_lookup n i b :
  initBins n !! i = Some b -> b = mkAssignment (Z.of_nat i) 0 [].
Proof.
  unfold initBins. rewrite list_lookup_fmap. intros H.
  destruct (seqZ 0 n !! i) as [z|] eqn:E; simplify_eq/=.
  apply lookup_seqZ in E as [-> _]. done.
Qed.

Lemma initBins_concat n : concat (a_Tests <$> initBins n) = [].
Proof.
  unfold initBins. rewrite <-list_fmap_compose.
  induction (seqZ 0 n) as [|z l IH]; [done|]. rewrite fmap_cons. exact IH.
Qed.

Lemma loopInv_init n : loopInv n [] (initBins (Z.of_nat n), ∅).
Proof.
  split; simpl.
  - unfold initBins. rewrite length_fmap, length_seqZ. lia.
  - intros i b H. by apply initBins_lookup in H as ->.
  - intros i b H. apply initBins_lookup in H as ->. done.
  - by rewrite initBins_concat.
  - intros tag o H. by rewrite lookup_empty in H.
  - intros i b t H Ht. apply initBins_lookup in H as ->. by apply elem_of_nil in Ht.
Qed.

(** Some bin is eligible, so the loop takes one. *)
Lemma loopInv_pick n dn st tag : (1 <= n)%nat -> loopInv n dn st ->
  exists j b, pickBin st.2 tag 0 st.1 (-1) (-1) = Z.of_nat j ∧ chosen st.2 tag 0 st.1 j b.
Proof.
  intros Hn Hinv.
  destruct (pickBin_spec st.2 tag st.1 0 (-1) (-1) ltac:(lia))
    as [[_ Hk]|(j & b & -> & Hc & _)]; [|exists j, b; split; [lia|done]].
  exfalso.
  assert (exists j b, st.1 !! j = Some b ∧ eligible st.2 tag (Z.of_nat j) = true)
    as (j & b & Hj & He).
  { destruct (decide (tag = "")) as [->|Htag].
    - destruct (lookup_lt_is_Some_2 st.1 0) as [b Hb]; [rewrite (li_len _ _ _ Hinv); lia|].
      by exists 0%nat, b.
    - destruct (st.2 !! tag) as [o|] eqn:Eo.
      + pose proof (li_owner _ _ _ Hinv tag o Eo).
        destruct (lookup_lt_is_Some_2 st.1 (Z.to_nat o)) as [b Hb];
          [rewrite (li_len _ _ _ Hinv); lia|].
        exists (Z.to_nat o), b. split; [done|].
        unfold eligible. rewrite Eo, Z2Nat.id by lia.
        by rewrite Z.eqb_refl, andb_false_r.
      + destruct (lookup_lt_is_Some_2 st.1 0) as [b Hb]; [rewrite (li_len _ _ _ Hinv); lia|].
        exists 0%nat, b. split; [done|]. unfold eligible. by rewrite Eo, andb_false_r. }
  by destruct (Hk j b Hj He).
Qed.

(** What one iteration does, with the bin it picks. *)
Lemma assignTest_step n dn st t : (1 <= n)%nat -> loopInv n dn st ->
  exists j b, chosen st.2 (exTag t) 0 st.1 j b
    ∧ assignTest st t = (<[j := addToBin t b]> st.1,
        if negb (String.eqb (exTag t) "") then <[exTag t := Z.of_nat j]> st.2 else st.2).
Proof.
  intros Hn Hinv. destruct (loopInv_pick n dn st (exTag t) Hn Hinv) as (j & b & Hp & Hc).
  exists j, b. split; [done|]. destruct st as [bins ex]; simpl in *.
  unfold assignTest. fold (exTag t). rewrite Hp.
  replace (Z.of_nat j =? -1) with false by (symmetry; apply Z.eqb_neq; lia).
  rewrite Nat2Z.id. f_equal.
  destruct Hc as (Hj & _ & _). apply list_eq. intros i.
  destruct (decide (i = j)) as [->|Hne].
  - rewrite list_lookup_alter_eq, Hj. simpl.
    rewrite list_lookup_insert_eq; [done|]. by eapply lookup_lt_Some.
  - by rewrite list_lookup_alter_ne, list_lookup_insert_ne.
Qed.

Lemma concat_insert_perm {A B} (f : A -> list B) (l : list A) j x y extra :
  l !! j = Some x -> f y ≡ₚ f x ++ extra ->
  concat (f <$> <[j := y]> l) ≡ₚ concat (f <$> l) ++ extra.
Proof.
  revert j. induction l as [|z l IH]; intros [|j] Hj Hf; simplify_eq/=.
  - rewrite Hf, <-!app_assoc. f_equiv. apply Permutation_app_comm.
  - rewrite (IH j Hj Hf). by rewrite app_assoc.
Qed.

Lemma chosen_owner st t j b :
  chosen st.2 (exTag t) 0 st.1 j b -> exTag t <> "" ->
  st.2 !! exTag t = None ∨ st.2 !! exTag t = Some (Z.of_nat j).
Proof.
  intros (_ & He & _) Ht. unfold eligible in He. zbool.
  apply andb_false_iff in He as [He|He].
  - zbool. done.
  - destruct (st.2 !! exTag t) as [o|]; [right|by left]. zbool. f_equal. lia.
Qed.

Lemma loopInv_step n dn st t : (1 <= n)%nat -> loopInv n dn st ->
  loopInv n (dn ++ [t]) (assignTest st t).
Proof.
  intros Hn Hinv. destruct (assignTest_step n dn st t Hn Hinv) as (j & b & Hc & ->).
  pose proof Hc as (Hj & _ & _). pose proof (lookup_lt_Some _ _ _ Hj) as Hlt.
  split; simpl.
  - rewrite length_insert. apply Hinv.
  - intros i b' Hi. apply list_lookup_insert_Some in Hi as [(-> & <- & _)|[_ Hi]].
    + simpl. by apply (li_index _ _ _ Hinv).
    + by apply (li_index _ _ _ Hinv).
  - intros i b' Hi. apply list_lookup_insert_Some in Hi as [(-> & <- & _)|[_ Hi]].
    + unfold durMS, addToBin, msOf; simpl. rewrite fmap_app, sumZ_app. unfold add64.
      fold (durMS b). rewrite (li_dur _ _ _ Hinv _ _ Hj), wrap64_add_l.
      f_equal. unfold msOf, sumZ; simpl. lia.
    + by apply (li_dur _ _ _ Hinv i).
  - rewrite (concat_insert_perm a_Tests st.1 j b (addToBin t b) [t] Hj); [|done].
    f_equiv. apply Hinv.
  - intros tag o Ho. destruct (negb _); [|by apply (li_owner _ _ _ Hinv tag)].
    apply lookup_insert_Some in Ho as [[_ <-]|[_ Ho]]; [|by apply (li_owner _ _ _ Hinv tag)].
    rewrite (li_len _ _ _ Hinv) in Hlt. lia.
  - intros i b' u Hi Hu Hne.
    assert (forall i' b0, st.1 !! i' = Some b0 -> u ∈ a_Tests b0 ->
      (if negb (String.eqb (exTag t) "") then <[exTag t := Z.of_nat j]> st.2 else st.2)
        !! exTag u = Some (Z.of_nat i')) as Hold.
    { intros i' b0 Hi' Hu'. pose proof (li_excl _ _ _ Hinv i' b0 u Hi' Hu' Hne) as Hex.
      destruct (negb _) eqn:En; [|done]. zbool.
      destruct (decide (exTag t = exTag u)) as [Heq|Hneq];
        [|by rewrite lookup_insert_ne].
      rewrite Heq, lookup_insert_eq. rewrite <-Heq in Hex.
      destruct (chosen_owner st t j b Hc) as [Ho|Ho]; congruence. }
    apply list_lookup_insert_Some in Hi as [(-> & <- & _)|[_ Hi]]; [|by eapply Hold].
    simpl in Hu. apply elem_of_app in Hu as [Hu|Hu]; [by eapply Hold|].
    apply list_elem_of_singleton in Hu as ->.
    destruct (negb _) eqn:En; zbool; [by rewrite lookup_insert_eq|done].
Qed.

Lemma loopInv_fold n l : forall dn st, (1 <= n)%nat -> loopInv n dn st ->
  loopInv n (dn ++ l) (foldl assignTest st l).
Proof.
  induction l as [|t l IH]; intros dn st Hn Hinv; simpl.
  { by rewrite app_nil_r. }
  rewrite cons_middle, app_assoc. apply IH; [done|]. by apply loopInv_step.
Qed.

(** The bins the whole loop leaves. *)
Lemma assignAll_inv n active : (1 <= n)%nat ->
  exists ex, loopInv n active (assignAll (Z.of_nat n) active, ex).
Proof.
  intros Hn. exists (foldl assignTest (initBins (Z.of_nat n), ∅) active).2.
  pose proof (loopInv_fold n active [] _ Hn (loopInv_init n)) as H.
  unfold assignAll. by destruct (foldl _ _ _).
Qed.

(** ** Exact durations

    Under the 50 ms floor, and while the total fits 64 bits, no sum of the
    loop wraps. *)

Definition fits (ts : list Test) : Prop :=
  Forall (fun t => 50 <= t_PredictedMS t) ts ∧ sumZ (msOf ts) < 2 ^ 63.

Lemma msOf_perm k l : k ≡ₚ l -> msOf k ≡ₚ msOf l.
Proof. apply fmap_Permutation. Qed.

#[export] Instance msOf_Proper : Proper ((≡ₚ) ==> (≡ₚ)) msOf.
Proof. intros k l. apply msOf_perm. Qed.

Lemma msOf_concat (bs : list (list Test)) :
  msOf (concat bs) = concat (msOf <$> bs).
Proof. unfold msOf. induction bs as [|b bs IH]; [done|]. simpl. by rewrite fmap_app, IH. Qed.

Lemma msOf_nonneg ts :
  Forall (fun t => 50 <= t_PredictedMS t) ts -> Forall (fun x => 0 <= x) (msOf ts).
Proof. intros H. unfold msOf. apply Forall_fmap. eapply Forall_impl; [exact H|]. simpl. lia. Qed.

Lemma fits_perm k l : k ≡ₚ l -> fits k -> fits l.
Proof.
  intros Hp [Hf Hs]. split; [by rewrite <-Hp|].
  unfold msOf in *. by rewrite <-(sumZ_perm _ _ (fmap_Permutation t_PredictedMS _ _ Hp)).
Qed.

Lemma fits_app_l k l : fits (k ++ l) -> fits k.
Proof.
  intros [Hf Hs]. apply Forall_app in Hf as [Hk Hl]. split; [done|].
  unfold msOf in *. rewrite fmap_app, sumZ_app in Hs.
  pose proof (sumZ_nonneg _ (msOf_nonneg l Hl)). unfold msOf in *. lia.
Qed.

Lemma bin_sum_bounds (bins : list Assignment) b :
  fits (concat (a_Tests <$> bins)) -> b ∈ bins ->
  0 <= sumZ (msOf (a_Tests b)) < 2 ^ 63 ∧ Forall (fun t => 50 <= t_PredictedMS t) (a_Tests b).
Proof.
  intros [Hf Hs] (l1 & l2 & ->)%list_elem_of_split.
  rewrite fmap_app, fmap_cons, concat_app in Hf, Hs. simpl in Hf, Hs.
  rewrite !Forall_app in Hf. destruct Hf as (H1 & Hb & H2).
  unfold msOf in *. rewrite !fmap_app, !sumZ_app in Hs.
  pose proof (sumZ_nonneg _ (msOf_nonneg _ H1)).
  pose proof (sumZ_nonneg _ (msOf_nonneg _ H2)).
  pose proof (sumZ_nonneg _ (msOf_nonneg _ Hb)).
  unfold msOf in *. split; [lia|done].
Qed.

Lemma li_dur_exact n dn st i b : loopInv n dn st -> fits dn -> st.1 !! i = Some b ->
  durMS b = sumZ (msOf (a_Tests b)) ∧ Forall (fun t => 50 <= t_PredictedMS t) (a_Tests b).
Proof.
  intros Hinv Hf Hi.
  destruct (bin_sum_bounds st.1 b) as [Hs Hb].
  { eapply fits_perm; [|exact Hf]. symmetry. apply Hinv. }
  { by eapply list_elem_of_lookup_2. }
  split; [|done]. rewrite (li_dur _ _ _ Hinv i b Hi).
  apply wrap64_small. unfold in_int64. lia.
Qed.

Lemma empty_bin_dur n dn st i b : loopInv n dn st -> fits dn -> st.1 !! i = Some b ->
  0 <= durMS b ∧ (a_Tests b = [] <-> durMS b = 0).
Proof.
  intros Hinv Hf Hi. destruct (li_dur_exact _ _ _ _ _ Hinv Hf Hi) as [-> Hb].
  split; [apply sumZ_nonneg, msOf_nonneg, Hb|].
  destruct (a_Tests b) as [|t ts]; [done|]. split; [done|]. intros H.
  apply Forall_cons in Hb as [Ht Hts].
  pose proof (sumZ_nonneg _ (msOf_nonneg _ Hts)).
  unfold msOf in *. rewrite fmap_cons in H. unfold sumZ in *. simpl in H. lia.
Qed.

(** ** Empty bins form a suffix *)

Record prefixInv (st : list Assignment * gmap string Z) : Prop := {
  pi_prefix : forall i j b c, (i < j)%nat -> st.1 !! i = Some b -> a_Tests b = [] ->
    st.1 !! j = Some c -> a_Tests c = [];
  pi_owner : forall tag o, st.2 !! tag = Some o ->
    exists b, st.1 !! Z.to_nat o = Some b ∧ a_Tests b <> []
}.

Lemma prefixInv_step n dn st t : (1 <= n)%nat -> loopInv n dn st -> fits dn ->
  prefixInv st -> prefixInv (assignTest st t).
Proof.
  intros Hn Hinv Hf Hp. destruct (assignTest_step n dn st t Hn Hinv) as (j & b & Hc & ->).
  pose proof Hc as (Hj & _ & Hmin). pose proof (lookup_lt_Some _ _ _ Hj) as Hlt.
  split; simpl.
  - intros i k b0 c Hik Hi Hb0 Hk.
    apply list_lookup_insert_Some in Hi as [(_ & <- & _)|[Hij Hi]].
    { simpl in Hb0. by destruct (a_Tests b). }
    apply list_lookup_insert_Some in Hk as [(<- & _ & _)|[_ Hk]];
      [|by eapply (pi_prefix _ Hp i k)].
    exfalso. destruct (empty_bin_dur _ _ _ _ _ Hinv Hf Hi) as [_ [He _]].
    destruct (empty_bin_dur _ _ _ _ _ Hinv Hf Hj) as [Hnn _].
    destruct (eligible st.2 (exTag t) (0 + Z.of_nat i)) eqn:Eel.
    + destruct (Hmin i b0 Hi Eel) as [_ Hlt']. specialize (Hlt' Hik).
      rewrite (He Hb0) in Hlt'. lia.
    + unfold eligible in Eel. zbool.
      destruct (chosen_owner st t j b Hc) as [Ho|Ho]; [done|by rewrite Ho in *|].
      destruct (pi_owner _ Hp _ _ Ho) as (b1 & Hb1 & Hne).
      rewrite Nat2Z.id in Hb1. apply Hne. by eapply (pi_prefix _ Hp i j).
  - intros tag o Ho.
    assert (forall o', st.2 !! tag = Some o' ->
      exists b', <[j := addToBin t b]> st.1 !! Z.to_nat o' = Some b' ∧ a_Tests b' <> []) as Hold.
    { intros o' Ho'. destruct (pi_owner _ Hp _ _ Ho') as (b1 & Hb1 & Hne).
      destruct (decide (j = Z.to_nat o')) as [->|Hne'].
      - eexists. rewrite list_lookup_insert_eq by done. split; [done|].
        simpl. by destruct (a_Tests b).
      - exists b1. by rewrite list_lookup_insert_ne. }
    destruct (negb _); [|by apply Hold].
    apply lookup_insert_Some in Ho as [[_ <-]|[_ Ho]]; [|by apply Hold].
    rewrite Nat2Z.id. eexists. rewrite list_lookup_insert_eq by done. split; [done|].
    simpl. by destruct (a_Tests b).
Qed.

Lemma prefixInv_fold n l : forall dn st, (1 <= n)%nat -> loopInv n dn st ->
  fits (dn ++ l) -> prefixInv st -> prefixInv (foldl assignTest st l).
Proof.
  induction l as [|t l IH]; intros dn st Hn Hinv Hf Hp; simpl; [done|].
  rewrite cons_middle, app_assoc in Hf.
  apply (IH (dn ++ [t])); [done|by apply loopInv_step|done|].
  apply (prefixInv_step n dn); [done..| |done].
  do 2 apply fits_app_l in Hf. done.
Qed.

Lemma prefixInv_init n : prefixInv (initBins (Z.of_nat n), ∅).
Proof.
  split; simpl.
  - intros i j b c _ _ _ Hj. by apply initBins_lookup in Hj as ->.
  - intros tag o Ho. by rewrite lookup_empty in Ho.
Qed.

(** * Graham's bound for the assignment loop

    Without exclusive tags the loop of step 4 is LPT list scheduling: against
    any packing of the same durations into the same number of bins with loads at
    most [B], every bin of the loop has [3 * n * load <= (4 * n - 1) * B].

    The proof adds the tests one by one.  A test of at most [B / 3] is paid for
    by averaging.  A longer one, [p], fits on top of the smallest bin within [B]:
    otherwise a weighted count of the tests of at least [p] exceeds what any
    packing with loads at most [B] can hold. *)


(** ** The count *)

(** One point for a job of at least [p], one more when it cannot share a bin
    with another such job. *)
Definition weight (p B x : Z) : Z :=
  if p <=? x then if B <? x + p then 2 else 1 else 0.

Definition weights (p B : Z) (l : list Z) : Z := sumZ (weight p B <$> l).

Lemma weight_nonneg p B x : 0 <= weight p B x.
Proof. unfold weight. repeat case_match; lia. Qed.

Lemma weight_le_2 p B x : weight p B x <= 2.
Proof. unfold weight. repeat case_match; lia. Qed.

Lemma weights_nil p B : weights p B [] = 0.
Proof. done. Qed.

Lemma weights_cons p B x l : weights p B (x :: l) = weight p B x + weights p B l.
Proof. done. Qed.

Lemma weights_app p B k l : weights p B (k ++ l) = weights p B k + weights p B l.
Proof. unfold weights. by rewrite fmap_app, sumZ_app. Qed.

Lemma weights_perm p B k l : k ≡ₚ l -> weights p B k = weights p B l.
Proof. intros H. apply sumZ_perm. by apply fmap_Permutation. Qed.

Lemma weights_nonneg p B l : 0 <= weights p B l.
Proof.
  apply sumZ_nonneg, Forall_fmap, Forall_forall. intros x _. apply weight_nonneg.
Qed.

Lemma weights_concat p B ls : weights p B (concat ls) = sumZ (weights p B <$> ls).
Proof.
  induction ls as [|l ls IH]; [done|]. simpl. rewrite weights_app, IH. done.
Qed.

(** The jobs below [p] weigh nothing. *)
Lemma weights_filter p B l :
  Forall (fun x => 0 <= x) l ->
  weights p B l = weights p B (List.filter (Z.leb p) l)
  ∧ sumZ (List.filter (Z.leb p) l) <= sumZ l
  ∧ Forall (fun x => p <= x) (List.filter (Z.leb p) l).
Proof.
  induction 1 as [|x l Hx Hl (IH1 & IH2 & IH3)]; [done|]. rewrite weights_cons, IH1. simpl.
  destruct (p <=? x) eqn:E; rewrite ?weights_cons; unfold sumZ in *; simpl.
  - zbool. split_and!; [done|lia|by constructor].
  - unfold weight. rewrite E. split_and!; [done|lia|done].
Qed.

(** A bin of load at most [B < 3 p] weighs at most 2. *)
Lemma weights_bin p B l :
  0 < p -> B < 3 * p -> Forall (fun x => 0 <= x) l -> sumZ l <= B ->
  weights p B l <= 2.
Proof.
  intros Hp HB Hl Hs. destruct (weights_filter p B l Hl) as (-> & Hle & Hge).
  set (k := List.filter _ l) in *. clearbody k.
  destruct k as [|x [|y [|z k]]]; rewrite ?weights_cons.
  - rewrite weights_nil. lia.
  - rewrite weights_nil. pose proof (weight_le_2 p B x). lia.
  - apply Forall_cons in Hge as [Hx Hge]. apply Forall_cons in Hge as [Hy _].
    autorewrite with teo in Hle. rewrite weights_nil. unfold weight.
    repeat case_match; zbool; lia.
  - exfalso. apply Forall_cons in Hge as [Hx Hge]. apply Forall_cons in Hge as [Hy Hge].
    apply Forall_cons in Hge as [Hz Hge].
    assert (0 <= sumZ k).
    { apply sumZ_nonneg. eapply Forall_impl; [exact Hge|]. simpl. lia. }
    autorewrite with teo in Hle. lia.
Qed.

(** A packing: [n] bins of non-negative jobs, each of load at most [B]. *)
Definition packing (n : nat) (B : Z) (opt : list (list Z)) : Prop :=
  length opt = n ∧ Forall (fun l => Forall (fun x => 0 <= x) l ∧ sumZ l <= B) opt.

Lemma packing_weights n B opt p :
  packing n B opt -> 0 < p -> B < 3 * p -> weights p B (concat opt) <= 2 * Z.of_nat n.
Proof.
  intros [Hlen Ho] Hp HB. rewrite weights_concat, Z.mul_comm.
  apply sumZ_scale_le; [|by rewrite length_fmap, Hlen].
  apply Forall_fmap. eapply Forall_impl; [exact Ho|]. intros l [H1 H2].
  by apply weights_bin.
Qed.

Lemma packing_total n B opt : packing n B opt -> sumZ (concat opt) <= Z.of_nat n * B.
Proof.
  intros [Hlen Ho]. rewrite sumZ_concat.
  apply sumZ_scale_le; [|by rewrite length_fmap, Hlen].
  apply Forall_fmap. eapply Forall_impl; [exact Ho|]. by intros l [_ H2].
Qed.

Lemma packing_elem n B opt x : packing n B opt -> x ∈ concat opt -> x <= B.
Proof.
  intros [Hlen Ho] (l & Hl & Hx)%list_elem_of_In%in_concat.
  rewrite Forall_forall in Ho. destruct (Ho l) as [Hnn Hs]; [by apply list_elem_of_In|].
  pose proof (sumZ_elem_le x l Hnn ltac:(by apply list_elem_of_In)). lia.
Qed.

(** ** The loop *)

Definition untagged (ts : list Test) : Prop := Forall (fun t => exTag t = "") ts.

(** Without a tag the chosen bin is the smallest of all. *)
Lemma untagged_smallest st t j b :
  exTag t = "" -> chosen st.2 (exTag t) 0 st.1 j b ->
  forall i c, st.1 !! i = Some c -> durMS b <= durMS c.
Proof.
  intros Ht (_ & _ & Hmin) i c Hi. destruct (Hmin i c Hi); [|done].
  unfold eligible. by rewrite Ht.
Qed.

Lemma weights_bins p B (bins : list Assignment) :
  (forall b, b ∈ bins -> 2 <= weights p B (msOf (a_Tests b))) ->
  2 * Z.of_nat (length bins) <= weights p B (msOf (concat (a_Tests <$> bins))).
Proof.
  intros H. rewrite msOf_concat, weights_concat, Z.mul_comm.
  apply sumZ_scale_ge; [|by rewrite !length_fmap].
  apply Forall_fmap, Forall_fmap, Forall_fmap, Forall_forall. intros b Hb. by apply H.
Qed.

(** A bin that a job [p] would lift above [B] weighs 2. *)
Lemma full_bin_weight p B (ts : list Test) :
  0 < p -> p <= B -> Forall (fun x => p <= x) (msOf ts) -> B < sumZ (msOf ts) + p ->
  2 <= weights p B (msOf ts).
Proof.
  intros Hp HpB Hge Hs. destruct (msOf ts) as [|x [|y l]].
  - autorewrite with teo in Hs. lia.
  - apply Forall_cons in Hge as [Hx _]. autorewrite with teo in Hs.
    rewrite weights_cons, weights_nil. unfold weight. repeat case_match; zbool; lia.
  - rewrite !weights_cons. pose proof (weights_nonneg p B l).
    apply Forall_cons in Hge as [Hx Hge]. apply Forall_cons in Hge as [Hy _].
    unfold weight. repeat case_match; zbool; lia.
Qed.

Section graham.
Context (n : nat) (B : Z) (opt : list (list Z)).
Context (Hn : (1 <= n)%nat) (Hopt : packing n B opt).

Definition within (st : list Assignment * gmap string Z) : Prop :=
  forall i b, st.1 !! i = Some b ->
    3 * Z.of_nat n * durMS b <= (4 * Z.of_nat n - 1) * B.

(** A job longer than [B / 3] on top of the smallest bin stays within [B]. *)
Lemma long_job_fits dn st t rest j b :
  loopInv n dn st -> fits dn -> chosen st.2 (exTag t) 0 st.1 j b -> exTag t = "" ->
  msOf (dn ++ t :: rest) ≡ₚ concat opt ->
  Forall (fun u => t_PredictedMS t <= t_PredictedMS u) dn ->
  0 < t_PredictedMS t -> B < 3 * t_PredictedMS t ->
  durMS b + t_PredictedMS t <= B.
Proof using Hn Hopt.
  intros Hinv Hf Hc Ht Hall Hge Hp HB. set (p := t_PredictedMS t) in *.
  assert (p <= B) as HpB.
  { apply (packing_elem n B opt); [done|]. rewrite <-Hall.
    unfold msOf. apply list_elem_of_fmap_2, elem_of_app. right. by left. }
  apply Z.nlt_ge. intros Hover.
  pose proof (packing_weights n B opt p Hopt Hp HB) as Hup.
  assert (2 * Z.of_nat n <= weights p B (msOf dn)) as Hlow.
  { rewrite <-(weights_perm p B _ _ (msOf_perm _ _ (li_perm _ _ _ Hinv))).
    rewrite <-(li_len _ _ _ Hinv). apply weights_bins. intros c [i Hi]%list_elem_of_lookup_1.
    pose proof (untagged_smallest st t j b Ht Hc i c Hi) as Hmin.
    destruct (li_dur_exact _ _ _ _ _ Hinv Hf Hi) as [Hd _].
    apply full_bin_weight; [done|done| |lia].
    unfold msOf. apply Forall_fmap, Forall_forall. intros u Hu. simpl.
    rewrite Forall_forall in Hge. apply Hge. rewrite <-(li_perm _ _ _ Hinv).
    apply list_elem_of_In, in_concat. exists (a_Tests c).
    split; [|by apply list_elem_of_In]. apply list_elem_of_In.
    apply list_elem_of_fmap_2. by eapply list_elem_of_lookup_2. }
  assert (weights p B (msOf dn) + weight p B p <= weights p B (concat opt)) as Hsum.
  { rewrite <-(weights_perm p B _ _ Hall). unfold msOf at 2.
    rewrite fmap_app, fmap_cons, weights_app, weights_cons.
    pose proof (weights_nonneg p B (t_PredictedMS <$> rest)). unfold msOf, p in *. lia. }
  unfold weight in Hsum. rewrite Z.leb_refl in Hsum. destruct (B <? p + p); lia.
Qed.

(** A job of at most [B / 3] on top of the smallest bin, by averaging. *)
Lemma short_job_within dn st t rest j b :
  loopInv n dn st -> fits dn -> chosen st.2 (exTag t) 0 st.1 j b -> exTag t = "" ->
  msOf (dn ++ t :: rest) ≡ₚ concat opt -> Forall (fun x => 0 <= x) (concat opt) ->
  3 * t_PredictedMS t <= B ->
  3 * Z.of_nat n * (durMS b + t_PredictedMS t) <= (4 * Z.of_nat n - 1) * B.
Proof using Hn Hopt.
  intros Hinv Hf Hc Ht Hall Hnn HB. set (p := t_PredictedMS t) in *.
  pose proof (packing_total n B opt Hopt) as Htot.
  assert (Z.of_nat n * durMS b <= sumZ (msOf dn)) as Havg.
  { rewrite <-(sumZ_perm _ _ (msOf_perm _ _ (li_perm _ _ _ Hinv))).
    rewrite msOf_concat, sumZ_concat.
    apply sumZ_scale_ge; [|by rewrite !length_fmap, (li_len _ _ _ Hinv)].
    apply Forall_fmap, Forall_fmap, Forall_fmap, Forall_forall.
    intros c [i Hi]%list_elem_of_lookup_1. unfold compose.
    destruct (li_dur_exact _ _ _ _ _ Hinv Hf Hi) as [<- _].
    by apply (untagged_smallest st t j b Ht Hc i). }
  assert (sumZ (msOf dn) + p <= sumZ (concat opt)) as Hsum.
  { rewrite <-(sumZ_perm _ _ Hall) in *. rewrite <-Hall in Hnn.
    unfold msOf in *. rewrite fmap_app, fmap_cons, sumZ_app in *.
    rewrite Forall_app, Forall_cons in Hnn. destruct Hnn as (_ & _ & Hrest).
    pose proof (sumZ_nonneg _ Hrest). unfold sumZ, p in *. simpl. lia. }
  nia.
Qed.

Lemma within_step dn st t rest :
  loopInv n dn st -> fits (dn ++ t :: rest) -> exTag t = "" ->
  msOf (dn ++ t :: rest) ≡ₚ concat opt ->
  Forall (fun u => t_PredictedMS t <= t_PredictedMS u) dn ->
  within st -> within (assignTest st t).
Proof using Hn Hopt.
  intros Hinv Hfits Ht Hall Hge Hw.
  pose proof (fits_app_l _ _ Hfits) as Hf.
  destruct (assignTest_step n dn st t Hn Hinv) as (j & b & Hc & Heq).
  pose proof (loopInv_step n dn st t Hn Hinv) as Hinv'. rewrite Heq in *.
  assert (50 <= t_PredictedMS t) as Hp.
  { destruct Hfits as [H50 _]. rewrite Forall_app, Forall_cons in H50. tauto. }
  assert (Forall (fun x => 0 <= x) (concat opt)) as Hnn.
  { rewrite <-Hall. apply msOf_nonneg, Hfits. }
  assert (3 * Z.of_nat n * (durMS b + t_PredictedMS t) <= (4 * Z.of_nat n - 1) * B) as Hnew.
  { destruct (decide (3 * t_PredictedMS t <= B)) as [HB|HB].
    - by apply (short_job_within dn st t rest j).
    - assert (durMS b + t_PredictedMS t <= B)
        by (apply (long_job_fits dn st t rest j); (done || lia)).
      destruct (empty_bin_dur _ _ _ _ _ Hinv Hf (proj1 Hc)) as [? _]. nia. }
  intros i c Hi. simpl in Hi. pose proof Hi as Hi'.
  apply list_lookup_insert_Some in Hi as [(-> & <- & Hlt)|[_ Hi]]; [|by apply (Hw i)].
  assert (durMS (addToBin t b) = durMS b + t_PredictedMS t) as ->; [|done].
  assert (fits (dn ++ [t])) as Hf1.
  { rewrite cons_middle, app_assoc in Hfits. by apply fits_app_l in Hfits. }
  destruct (li_dur_exact _ _ _ i _ Hinv' Hf1 Hi') as [-> _].
  destruct (li_dur_exact _ _ _ i b Hinv Hf (proj1 Hc)) as [-> _].
  unfold addToBin, msOf. simpl. rewrite fmap_app, sumZ_app. unfold sumZ. simpl. lia.
Qed.

Lemma within_fold l : forall dn st,
  loopInv n dn st -> fits (dn ++ l) -> untagged l ->
  msOf (dn ++ l) ≡ₚ concat opt ->
  StronglySorted (fun x y => t_PredictedMS y <= t_PredictedMS x) (dn ++ l) ->
  within st -> within (foldl assignTest st l).
Proof using Hn Hopt.
  induction l as [|t l IH]; intros dn st Hinv Hf Hu Hall Hs Hw; simpl; [done|].
  apply Forall_cons in Hu as [Ht Hu].
  apply (IH (dn ++ [t])); [by apply loopInv_step| | | |
    |apply (within_step dn st t l); [done..| |done]].
  1,3,4: by rewrite <-app_assoc.
  - done.
  - apply Forall_forall. intros u Hu'.
    exact (StronglySorted_app_1_elem_of _ dn (t :: l) u t Hs Hu' ltac:(by left)).
Qed.
End graham.
