(* ===== verification/SchedulerProps.v ===== *)
(** * Properties of [PlanFunc] and [Replay] *)

From S2P Require Import Prelude GoSort GoBytes GoFloat Model Scheduler.
From S2P Require Import SchedulerFacts.

(** ** PlanFunc, opened *)

(** The tests step 1 and the floor leave to schedule. *)
Definition planActive (tests : list Test) : list Test :=
  floorTest <$> (partitionTests tests).1.

Definition planShardCount (tests : list Test) (c : Constraints) : Z :=
  chooseShardCount (normalizeConstraints c) (totalOf (planActive tests))
    (Z.of_nat (length (planActive tests))).

Definition planBins (tests : list Test) (c : Constraints) : list Assignment :=
  assignAll (planShardCount tests c) (SliceStable lptLess (planActive tests)).

Lemma PlanFunc_unfold tests f c :
  PlanFunc tests f c =
  mkPlan (trimBins (sortBin <$> planBins tests c)) (partitionTests tests).2
    (totalOf (planActive tests)) (makespanOf (sortBin <$> planBins tests c)) planVersion.
Proof. done. Qed.

Lemma floorTest_50 t : 50 <= t_PredictedMS (floorTest t).
Proof. unfold floorTest. destruct (_ <? _) eqn:E; simpl; zbool; lia. Qed.

Lemma floorTest_idemp t : floorTest (floorTest t) = floorTest t.
Proof.
  pose proof (floorTest_50 t). unfold floorTest at 1.
  destruct (_ <? _) eqn:E; zbool; [lia|done].
Qed.

Lemma planActive_50 tests : Forall (fun t => 50 <= t_PredictedMS t) (planActive tests).
Proof. apply Forall_fmap, Forall_forall. intros t _. apply floorTest_50. Qed.

(** ** Shard count *)

Lemma normalizeConstraints_min c :
  1 <= c_MinShards (normalizeConstraints c) <= c_MaxShards (normalizeConstraints c).
Proof.
  unfold normalizeConstraints; simpl. repeat case_match; zbool; simpl; lia.
Qed.

Lemma chooseShardCount_bounds c total k :
  1 <= c_MinShards c <= c_MaxShards c -> 0 <= k ->
  1 <= chooseShardCount c total k <= c_MaxShards c
  ∧ (0 < k -> chooseShardCount c total k <= k).
Proof.
  intros Hc Hk. unfold chooseShardCount.
  set (d := if _ && _ then quot64 _ _ else 1). clearbody d.
  destruct ((k <? _) && (0 <? k)) eqn:E;
    match goal with |- context [?x =? 0] => destruct (x =? 0) eqn:E0 end;
    rewrite ?andb_false_iff, ?andb_true_iff in E; zbool; lia.
Qed.

Lemma planShardCount_bounds tests c :
  1 <= planShardCount tests c <= c_MaxShards (normalizeConstraints c)
  ∧ (planActive tests <> [] -> planShardCount tests c <= Z.of_nat (length (planActive tests))).
Proof.
  destruct (chooseShardCount_bounds (normalizeConstraints c) (totalOf (planActive tests))
    (Z.of_nat (length (planActive tests))) (normalizeConstraints_min c) ltac:(lia)) as [H1 H2].
  split; [done|]. intros Hne. apply H2. destruct (planActive tests); simpl in *; [done|lia].
Qed.

(** ** The bins before trimming *)

Lemma planBins_inv tests c :
  exists ex, loopInv (Z.to_nat (planShardCount tests c))
    (SliceStable lptLess (planActive tests)) (planBins tests c, ex).
Proof.
  destruct (planShardCount_bounds tests c) as [[H1 _] _].
  destruct (assignAll_inv (Z.to_nat (planShardCount tests c))
    (SliceStable lptLess (planActive tests)) ltac:(lia)) as [ex H].
  exists ex. rewrite Z2Nat.id in H by lia. done.
Qed.

Lemma sortBin_perm b : a_Tests (sortBin b) ≡ₚ a_Tests b.
Proof. apply SliceStable_perm. Qed.

Lemma sortBin_dur b : durMS (sortBin b) = durMS b.
Proof. done. Qed.

Lemma sortBins_concat (bins : list Assignment) :
  concat (a_Tests <$> (sortBin <$> bins)) ≡ₚ concat (a_Tests <$> bins).
Proof.
  induction bins as [|b bins IH]; [done|].
  rewrite !fmap_cons. simpl. by rewrite SliceStable_perm, IH.
Qed.

Lemma durMS_sortBins (bins : list Assignment) : (durMS <$> (sortBin <$> bins)) = (durMS <$> bins).
Proof. rewrite <-list_fmap_compose. by apply list_fmap_ext. Qed.

(** ** Trimming *)

Lemma dropEmptyHead_split l :
  exists k, l = k ++ dropEmptyHead l ∧ Forall (fun b => a_Tests b = []) k
    ∧ (l <> [] -> dropEmptyHead l <> [])
    ∧ (forall b b' l', dropEmptyHead l = b :: b' :: l' -> a_Tests b <> []).
Proof.
  induction l as [|b l IH]; [by exists []|].
  destruct l as [|b' l].
  { exists []. split_and!; [done|constructor|done|]. intros ??? [=]. }
  simpl in IH |- *. destruct (a_Tests b) as [|t ts] eqn:E.
  - destruct IH as (k & Hk & He & Hn & Hl). exists (b :: k).
    split_and!; [by rewrite Hk at 1|by constructor| |done]. intros _. by apply Hn.
  - exists []. split_and!; [done|constructor|done|]. intros ??? [= <- <- <-]. by rewrite E.
Qed.

Lemma trimBins_split bins :
  exists k, bins = trimBins bins ++ k ∧ Forall (fun b => a_Tests b = []) k
    ∧ (bins <> [] -> trimBins bins <> []).
Proof.
  destruct (dropEmptyHead_split (reverse bins)) as (k & Hk & He & Hn & _).
  exists (reverse k). unfold trimBins. split_and!.
  - by rewrite <-reverse_app, <-Hk, reverse_involutive.
  - by apply Forall_reverse.
  - intros Hb Hr. apply Hn.
    + intros Hr'. apply Hb. by rewrite <-(reverse_involutive bins), Hr'.
    + by rewrite <-(reverse_involutive (dropEmptyHead _)), Hr.
Qed.

(** When the empty bins are a suffix, trimming keeps only bins with tests
    (or a single bin). *)
Lemma trimBins_nonempty bins :
  (forall i j b c, (i < j)%nat -> bins !! i = Some b -> a_Tests b = [] ->
     bins !! j = Some c -> a_Tests c = []) ->
  concat (a_Tests <$> bins) <> [] ->
  Forall (fun b => a_Tests b <> []) (trimBins bins).
Proof.
  intros Hpre Hne.
  destruct (dropEmptyHead_split (reverse bins)) as (k & Hk & He & Hn & Hl).
  assert (bins = trimBins bins ++ reverse k) as Hsp.
  { unfold trimBins. by rewrite <-reverse_app, <-Hk, reverse_involutive. }
  unfold trimBins in *. set (r := dropEmptyHead (reverse bins)) in *. clearbody r.
  apply Forall_lookup. intros i b Hi Hb.
  assert (Forall (fun c => a_Tests c = []) (b :: drop (S i) (reverse r))) as Htail.
  { constructor; [done|]. apply Forall_lookup. intros j c Hj. rewrite lookup_drop in Hj.
    apply (Hpre i (S i + j)%nat b c); [lia| |done|]; rewrite Hsp;
      by apply lookup_app_l_Some. }
  destruct r as [|b0 [|b1 r]].
  - by rewrite reverse_nil in Hi.
  - apply Hne. rewrite Hsp, fmap_app, concat_app.
    change (reverse [b0]) with [b0] in *. destruct i; simplify_eq/=. rewrite Hb. simpl.
    clear -He. apply Forall_reverse in He. induction He as [|x l Hx Hl IH]; [done|].
    rewrite fmap_cons. simpl. by rewrite Hx, IH.
  - apply (Hl b0 b1 r eq_refl). rewrite reverse_cons in Hi, Htail.
    pose proof (lookup_lt_Some _ _ _ Hi) as Hlt. rewrite length_app in Hlt. simpl in Hlt.
    destruct (decide (i = length (reverse (b1 :: r)))) as [->|Hni].
    + rewrite lookup_app_r, Nat.sub_diag in Hi by lia. simpl in Hi. by simplify_eq.
    + apply Forall_cons in Htail as [_ Htail]. rewrite drop_app_le in Htail by lia.
      apply Forall_app in Htail as [_ Htail]. by apply Forall_cons in Htail as [? _].
Qed.

(** ** The order of step 3 *)

Lemma lptLess_spec x y : lptLess x y = true <->
  t_PredictedMS y < t_PredictedMS x ∨
  (t_PredictedMS x = t_PredictedMS y ∧ stableHash (t_Entry x) < stableHash (t_Entry y)).
Proof.
  unfold lptLess. set (hx := stableHash _). set (hy := stableHash _).
  clearbody hx hy. destruct (_ =? _) eqn:E; simpl; zbool; split; intros; lia.
Qed.

Lemma lptLess_false x y : lptLess x y = false <->
  ~ (t_PredictedMS y < t_PredictedMS x ∨
  (t_PredictedMS x = t_PredictedMS y ∧ stableHash (t_Entry x) < stableHash (t_Entry y))).
Proof. rewrite <-lptLess_spec. by destruct (lptLess x y). Qed.

Lemma lptLess_asym x y : lptLess x y = true -> lptLess y x = false.
Proof.
  rewrite lptLess_false, lptLess_spec. set (hx := stableHash _). set (hy := stableHash _).
  clearbody hx hy. lia.
Qed.

Lemma lptLess_trans x y z :
  notAfter lptLess x y -> notAfter lptLess y z -> notAfter lptLess x z.
Proof.
  unfold notAfter. rewrite !lptLess_false. set (hx := stableHash (t_Entry x)).
  set (hy := stableHash (t_Entry y)). set (hz := stableHash (t_Entry z)).
  clearbody hx hy hz. lia.
Qed.

Lemma lpt_sorted_ms l :
  StronglySorted (fun x y => t_PredictedMS y <= t_PredictedMS x) (SliceStable lptLess l).
Proof.
  pose proof (SliceStable_sorted lptLess lptLess_asym lptLess_trans l) as H.
  induction H as [|x k Hk IH Hx]; constructor; [done|].
  eapply Forall_impl; [exact Hx|]. intros y Hy.
  unfold notAfter in Hy. rewrite lptLess_false in Hy. lia.
Qed.

(** The key step 3 sorts by. *)
Definition lptKey (t : Test) : Z * Z := (t_PredictedMS t, stableHash (t_Entry t)).

Lemma NoDup_fmap_inj {A B} (f : A -> B) (l : list A) x y :
  NoDup (f <$> l) -> x ∈ l -> y ∈ l -> f x = f y -> x = y.
Proof.
  intros Hnd (i & Hi)%list_elem_of_lookup (j & Hj)%list_elem_of_lookup Hf.
  assert (i = j) as ->; [|congruence].
  apply (NoDup_lookup _ i j (f x) Hnd); rewrite list_lookup_fmap.
  - by rewrite Hi.
  - by rewrite Hj, Hf.
Qed.

Lemma lpt_sort_unique k l :
  NoDup (lptKey <$> k) -> k ≡ₚ l -> SliceStable lptLess k = SliceStable lptLess l.
Proof.
  intros Hnd Hp.
  apply (SliceStable_unique lptLess lptLess_asym lptLess_trans); [|done].
  intros x y Hx Hy Hxy Hyx. apply (NoDup_fmap_inj lptKey k); [done..|].
  rewrite lptLess_false in Hxy, Hyx. unfold lptKey. f_equal; lia.
Qed.

(** ** Totals *)

Lemma totalOf_sum l : totalOf l = wrap64 (sumZ (msOf l)).
Proof.
  assert (forall acc, in_int64 acc ->
    foldl (fun acc t => add64 acc (t_PredictedMS t)) acc l = wrap64 (acc + sumZ (msOf l))) as H.
  { induction l as [|t l IH]; intros acc Hacc; cbn [foldl].
    - rewrite wrap64_small; unfold msOf, sumZ; simpl; [lia|].
      by rewrite Z.add_0_r.
    - rewrite IH by apply wrap64_range. unfold add64. rewrite wrap64_add_l.
      f_equal. unfold msOf. rewrite fmap_cons. autorewrite with teo. lia. }
  unfold totalOf. by rewrite H by (unfold in_int64; lia).
Qed.

Lemma totalOf_perm k l : k ≡ₚ l -> totalOf k = totalOf l.
Proof. intros H. by rewrite !totalOf_sum, (sumZ_perm _ _ (msOf_perm _ _ H)). Qed.

(** ** Partition *)

Lemma trimBins_concat bins :
  concat (a_Tests <$> trimBins bins) = concat (a_Tests <$> bins).
Proof.
  destruct (trimBins_split bins) as (k & Hk & He & _). rewrite Hk at 2.
  rewrite fmap_app, concat_app. replace (concat (a_Tests <$> k)) with (@nil Test).
  { by rewrite app_nil_r. }
  clear -He. induction He as [|b k Hb Hk IH]; [done|]. rewrite fmap_cons. simpl.
  by rewrite Hb, <-IH.
Qed.

Lemma planBins_concat tests c : concat (a_Tests <$> planBins tests c) ≡ₚ planActive tests.
Proof.
  destruct (planBins_inv tests c) as [ex H].
  rewrite (li_perm _ _ _ H). apply SliceStable_perm.
Qed.

(** C1: Scheduling loses no test and invents none: the tests of the assignments
    are, up to order, exactly the tests that are not quarantined (with the 50 ms
    floor applied), and the quarantine lane is exactly the quarantined ones in
    their input order. *)
Theorem PlanFunc_partition tests f c :
  concat (a_Tests <$> p_Assignments (PlanFunc tests f c))
    ≡ₚ floorTest <$> List.filter (fun t => negb (t_IsQuarantined t)) tests
  ∧ p_QuarantineLane (PlanFunc tests f c) = List.filter t_IsQuarantined tests.
Proof.
  rewrite PlanFunc_unfold. simpl. split; [|done].
  rewrite trimBins_concat, sortBins_concat. apply planBins_concat.
Qed.

(** A test of an assignment sits in the bin of the same index before sorting
    and trimming. *)
Lemma assignment_bin tests f c i a :
  p_Assignments (PlanFunc tests f c) !! i = Some a ->
  exists b, planBins tests c !! i = Some b ∧ a = sortBin b.
Proof.
  rewrite PlanFunc_unfold. simpl. intros Hi.
  destruct (trimBins_split (sortBin <$> planBins tests c)) as (k & Hk & _).
  assert ((sortBin <$> planBins tests c) !! i = Some a) as H.
  { rewrite Hk. by apply lookup_app_l_Some. }
  rewrite list_lookup_fmap in H. destruct (planBins tests c !! i) as [b|]; simplify_eq/=.
  by exists b.
Qed.

(** C22: Tests that carry the same exclusive tag run on one shard: two tests of
    a plan whose exclusive tags agree are in the same assignment. *)
Theorem PlanFunc_exclusive tests f c i j a b t u :
  p_Assignments (PlanFunc tests f c) !! i = Some a -> t ∈ a_Tests a ->
  p_Assignments (PlanFunc tests f c) !! j = Some b -> u ∈ a_Tests b ->
  pickExclusiveTag (te_Tags (t_Entry t)) = pickExclusiveTag (te_Tags (t_Entry u)) ->
  pickExclusiveTag (te_Tags (t_Entry t)) <> "" ->
  i = j.
Proof.
  intros Hi Ht Hj Hu Heq Hne.
  apply assignment_bin in Hi as (a' & Hi & ->). apply assignment_bin in Hj as (b' & Hj & ->).
  rewrite sortBin_perm in Ht, Hu.
  destruct (planBins_inv tests c) as [ex Hinv].
  pose proof (li_excl _ _ _ Hinv i a' t Hi Ht Hne) as H1.
  pose proof (li_excl _ _ _ Hinv j b' u Hj Hu) as H2.
  unfold exTag in *. rewrite <-Heq in H2. specialize (H2 Hne). simplify_eq. lia.
Qed.

Lemma planActive_fits tests : sumZ (msOf (planActive tests)) < 2 ^ 63 ->
  fits (SliceStable lptLess (planActive tests)).
Proof.
  intros H. apply (fits_perm (planActive tests)).
  - by rewrite SliceStable_perm.
  - split; [apply planActive_50|done].
Qed.

Lemma planBins_dur tests c b : sumZ (msOf (planActive tests)) < 2 ^ 63 ->
  b ∈ planBins tests c ->
  durMS b = sumZ (msOf (a_Tests b)) ∧ Forall (fun t => 50 <= t_PredictedMS t) (a_Tests b).
Proof.
  intros Hs [i Hi]%list_elem_of_lookup. destruct (planBins_inv tests c) as [ex Hinv].
  apply (li_dur_exact _ _ _ i b Hinv (planActive_fits tests Hs) Hi).
Qed.

Lemma trimBins_dur_sum bins :
  (forall b, b ∈ bins -> durMS b = sumZ (msOf (a_Tests b))) ->
  sumZ (durMS <$> trimBins bins) = sumZ (durMS <$> bins).
Proof.
  intros Hd. destruct (trimBins_split bins) as (k & Hk & He & _).
  rewrite Hk at 2. rewrite fmap_app, sumZ_app.
  assert (sumZ (durMS <$> k) = 0) as ->; [|lia].
  assert (forall b, b ∈ k -> durMS b = sumZ (msOf (a_Tests b))) as Hd'.
  { intros b Hb. apply Hd. rewrite Hk. apply elem_of_app. by right. }
  clear -He Hd'. induction He as [|b k Hb Hk IH]; [done|].
  rewrite fmap_cons, sumZ_cons, IH by (intros; apply Hd'; by right).
  rewrite (Hd' b) by by left. by rewrite Hb.
Qed.

(** While the total predicted time fits 64 bits, the durations of a plan are
    exact: each assignment's duration is the sum of its tests', the total is the
    sum over the assignments, and the makespan is the largest of the
    durations. *)
Theorem PlanFunc_loads tests f c :
  sumZ (msOf (planActive tests)) < 2 ^ 63 ->
  let p := PlanFunc tests f c in
  Forall (fun a => durMS a = sumZ (msOf (a_Tests a))
                   ∧ durMS a <= p_MakespanPredictedMS p) (p_Assignments p)
  ∧ p_TotalPredictedMS p = sumZ (durMS <$> p_Assignments p)
  ∧ exists a, a ∈ p_Assignments p ∧ p_MakespanPredictedMS p = durMS a.
Proof.
  intros Hs p. pose proof (planBins_dur tests c) as Hd.
  assert (forall b, b ∈ sortBin <$> planBins tests c ->
    durMS b = sumZ (msOf (a_Tests b)) ∧ Forall (fun t => 50 <= t_PredictedMS t) (a_Tests b)) as Hds.
  { intros b (b' & -> & Hb')%list_elem_of_fmap. destruct (Hd b' Hs Hb') as [H1 H2].
    rewrite sortBin_perm. by split. }
  destruct (trimBins_split (sortBin <$> planBins tests c)) as (k & Hk & He & Hn).
  set (bins := sortBin <$> planBins tests c) in *.
  assert (p_Assignments p = trimBins bins) as Hpa by done.
  assert (p_MakespanPredictedMS p = maxZ (durMS <$> bins)) as Hpm by done.
  assert (forall b, b ∈ trimBins bins -> b ∈ bins) as Hin.
  { intros b Hb. rewrite Hk. apply elem_of_app. by left. }
  rewrite Hpa, Hpm. split_and!.
  - apply Forall_forall. intros b Hb. split; [by apply Hds, Hin|].
    apply maxZ_ge, list_elem_of_fmap_2. by apply Hin.
  - rewrite trimBins_dur_sum by (intros; by apply Hds).
    unfold bins. rewrite durMS_sortBins.
    change (p_TotalPredictedMS p) with (totalOf (planActive tests)).
    rewrite <-(totalOf_perm _ _ (planBins_concat tests c)), totalOf_sum.
    rewrite planBins_concat, wrap64_small.
    + rewrite <-(planBins_concat tests c), msOf_concat, sumZ_concat, <-!list_fmap_compose. f_equal.
      apply list_fmap_ext. intros i b Hi. unfold compose. symmetry. apply Hd; [done|].
      by eapply list_elem_of_lookup_2.
    + pose proof (sumZ_nonneg _ (msOf_nonneg _ (planActive_50 tests))).
      unfold in_int64. lia.
  - assert (bins <> []) as Hbn.
    { intros H0. destruct (planBins_inv tests c) as [ex Hinv].
      pose proof (li_len _ _ _ Hinv) as Hlen. simpl in Hlen.
      apply fmap_nil_inv in H0. rewrite H0 in Hlen. simpl in Hlen.
      destruct (planShardCount_bounds tests c) as [? _]. lia. }
    destruct (trimBins bins) as [|a rest] eqn:Et; [by apply Hn in Hbn|].
    assert (forall b, b ∈ bins -> 0 <= durMS b) as Hnn.
    { intros b Hb. destruct (Hds b Hb) as [-> H50]. by apply sumZ_nonneg, msOf_nonneg. }
    assert (forall b, b ∈ bins -> b ∈ a :: rest ∨ durMS b = 0) as Hor.
    { intros b Hb. destruct (Hds b Hb) as [Hdb _]. rewrite Hk in Hb.
      apply elem_of_app in Hb as [Hb|Hb]; [by left|right].
      rewrite Forall_forall in He. by rewrite Hdb, (He b Hb). }
    pose proof (maxZ_ge (durMS a) (durMS <$> bins)) as Hge.
    assert (a ∈ bins) as Ha by (apply Hin; by left).
    specialize (Hge ltac:(by apply list_elem_of_fmap_2)). specialize (Hnn a Ha) as Ha0.
    destruct (maxZ_in (durMS <$> bins)) as [H0|(b & Hb & Hbin)%list_elem_of_fmap].
    + exists a. split; [by left|lia].
    + destruct (Hor b Hbin) as [Hb'|H0]; [by exists b|].
      exists a. split; [by left|lia].
Qed.

Lemma sortBin_sorted b :
  StronglySorted (fun x y => t_PredictedMS y <= t_PredictedMS x) (a_Tests (sortBin b)).
Proof.
  assert (StronglySorted (notAfter (fun x y => t_PredictedMS x >? t_PredictedMS y))
    (a_Tests (sortBin b))) as H.
  { apply SliceStable_sorted; unfold notAfter; intros *; rewrite ?Z.gtb_ltb;
      rewrite ?Z.ltb_lt, ?Z.ltb_ge; lia. }
  induction H as [|x k Hk IH Hx]; constructor; [done|].
  eapply Forall_impl; [exact Hx|]. unfold notAfter. intros y. rewrite Z.gtb_ltb, Z.ltb_ge. lia.
Qed.

Lemma PlanFunc_index tests f c i a :
  p_Assignments (PlanFunc tests f c) !! i = Some a -> a_ShardIndex a = Z.of_nat i.
Proof.
  intros Hi. destruct (planBins_inv tests c) as [ex Hinv].
  apply assignment_bin in Hi as (b & Hi & ->). exact (li_index _ _ _ Hinv i b Hi).
Qed.

(** The shape of a plan: between one assignment and the configured maximum,
    assignment [i] carries shard index [i], each lists its tests longest first,
    and, when there is something to schedule, no assignment is empty. *)
Theorem PlanFunc_shape tests f c :
  sumZ (msOf (planActive tests)) < 2 ^ 63 ->
  let p := PlanFunc tests f c in
  1 <= Z.of_nat (length (p_Assignments p)) <= c_MaxShards (normalizeConstraints c)
  ∧ (forall i a, p_Assignments p !! i = Some a ->
       a_ShardIndex a = Z.of_nat i
       ∧ StronglySorted (fun x y => t_PredictedMS y <= t_PredictedMS x) (a_Tests a))
  ∧ (planActive tests <> [] ->
       Z.of_nat (length (p_Assignments p)) <= Z.of_nat (length (planActive tests))
       ∧ Forall (fun a => a_Tests a <> []) (p_Assignments p)).
Proof.
  intros Hs p. destruct (planShardCount_bounds tests c) as [Hb1 Hb2].
  destruct (planBins_inv tests c) as [ex Hinv].
  pose proof (li_len _ _ _ Hinv) as Hlen. simpl in Hlen.
  set (bins := sortBin <$> planBins tests c).
  assert (p_Assignments p = trimBins bins) as Hpa by done.
  destruct (trimBins_split bins) as (k & Hk & _ & Hn).
  assert (length bins = Z.to_nat (planShardCount tests c)) as Hlb
    by (unfold bins; by rewrite length_fmap).
  assert (bins <> []) as Hbn by (intros H0; rewrite H0 in Hlb; simpl in Hlb; lia).
  assert (length (trimBins bins) <= length bins)%nat as Hle
    by (rewrite Hk at 2; rewrite length_app; lia).
  split_and!.
  - specialize (Hn Hbn). rewrite Hpa. destruct (trimBins bins); simpl in *; [done|lia].
  - rewrite Hpa. lia.
  - intros i a Hi. split; [by apply PlanFunc_index in Hi|].
    apply assignment_bin in Hi as (b & _ & ->). apply sortBin_sorted.
  - intros Hne. rewrite Hpa. split; [specialize (Hb2 Hne); lia|].
    apply trimBins_nonempty.
    + pose proof (prefixInv_fold (Z.to_nat (planShardCount tests c)) (SliceStable lptLess (planActive tests)) []
        (initBins (Z.of_nat (Z.to_nat (planShardCount tests c))), ∅) ltac:(lia)
        (loopInv_init _) (planActive_fits tests Hs) (prefixInv_init _)) as [Hpre _].
      rewrite Z2Nat.id in Hpre by lia. fold (assignAll (planShardCount tests c)
        (SliceStable lptLess (planActive tests))) in Hpre.
      fold (planBins tests c) in Hpre. unfold bins.
      intros i j b d Hij Hi Hb Hj. rewrite list_lookup_fmap in Hi, Hj.
      destruct (planBins tests c !! i) as [b'|] eqn:Eb; [|done].
      destruct (planBins tests c !! j) as [d'|] eqn:Ed; [|done].
      simpl in Hi, Hj. injection Hi as <-. injection Hj as <-.
      assert (a_Tests b' = []) as Hb'.
      { apply Permutation_nil_r. rewrite <-(sortBin_perm b'). by rewrite Hb. }
      simpl. by rewrite (Hpre i j b' d' Hij Eb Hb' Ed).
    + intros H0. apply Hne. apply Permutation_nil_r.
      rewrite <-(planBins_concat tests c), <-sortBins_concat. fold bins. by rewrite H0.
Qed.

(** ** Determinism *)

Lemma filterb_perm {A} (f : A -> bool) k l :
  k ≡ₚ l -> List.filter f k ≡ₚ List.filter f l.
Proof.
  induction 1 as [|x k l _ IH|x y l|k1 k2 k3 _ IH1 _ IH2]; simpl;
    repeat case_match; rewrite ?IH; eauto using perm_swap, perm_trans.
Qed.

Lemma planActive_perm k l : k ≡ₚ l -> planActive k ≡ₚ planActive l.
Proof. intros H. by apply fmap_Permutation, filterb_perm. Qed.

(** Distinct keys: no two active tests agree on duration and hash. *)
Definition distinctKeys (tests : list Test) : Prop :=
  NoDup (lptKey <$> planActive tests).

Lemma planBins_perm k l c :
  distinctKeys k -> planActive k ≡ₚ planActive l ->
  planShardCount k c = planShardCount l c ∧ planBins k c = planBins l c
  ∧ totalOf (planActive k) = totalOf (planActive l).
Proof.
  intros Hnd Hp. assert (planShardCount k c = planShardCount l c) as Hc.
  { unfold planShardCount. by rewrite (totalOf_perm _ _ Hp), (Permutation_length Hp). }
  split_and!; [done| |by apply totalOf_perm].
  unfold planBins. by rewrite Hc, (lpt_sort_unique _ _ Hnd Hp).
Qed.

(** The plan does not depend on the order the tests are submitted in: when
    no two active tests have both the same duration and the same hash, a
    permutation of the input gives the same assignments, total and makespan,
    and the same quarantine lane up to order. *)
Theorem PlanFunc_order_independent k l f g c :
  k ≡ₚ l -> distinctKeys k ->
  p_Assignments (PlanFunc k f c) = p_Assignments (PlanFunc l g c)
  ∧ p_TotalPredictedMS (PlanFunc k f c) = p_TotalPredictedMS (PlanFunc l g c)
  ∧ p_MakespanPredictedMS (PlanFunc k f c) = p_MakespanPredictedMS (PlanFunc l g c)
  ∧ p_QuarantineLane (PlanFunc k f c) ≡ₚ p_QuarantineLane (PlanFunc l g c).
Proof.
  intros Hp Hnd. rewrite !PlanFunc_unfold. simpl.
  destruct (planBins_perm k l c Hnd (planActive_perm k l Hp)) as (_ & -> & ->).
  split_and!; [done..|]. by apply filterb_perm.
Qed.

(** ** Replay *)

Lemma jsonTest_finite t : f32_finite (t_FlakeProb t) = true -> is_Some (jsonTest t).
Proof. intros Ht. unfold jsonTest. rewrite Ht. by eexists. Qed.

Lemma jsonPlan_finite p :
  Forall (fun t => f32_finite (t_FlakeProb t) = true)
    (concat (a_Tests <$> p_Assignments p) ++ p_QuarantineLane p) ->
  is_Some (jsonPlan p).
Proof.
  assert (forall ts, Forall (fun t => f32_finite (t_FlakeProb t) = true) ts ->
    is_Some (mapM jsonTest ts)) as Hts.
  { intros ts H. apply mapM_is_Some. eapply Forall_impl; [exact H|]. apply jsonTest_finite. }
  intros [Ha Hq]%Forall_app. unfold jsonPlan.
  destruct (Hts _ Hq) as [ql ->].
  assert (is_Some (mapM jsonAssignment (p_Assignments p))) as [asg ->]; [|by eexists].
  apply mapM_is_Some. rewrite Forall_concat, Forall_fmap in Ha.
  eapply Forall_impl; [exact Ha|]. intros a Hat.
  destruct (Hts _ Hat) as [ts Hm]. exists (JObj [("ShardIndex", JInt (a_ShardIndex a));
    ("PredictedDurationMS", JInt (a_PredictedDurationMS a)); ("Tests", JArr ts)]).
  unfold jsonAssignment. by rewrite Hm.
Qed.

Lemma plansEqual_refl p : is_Some (jsonPlan p) -> plansEqual p p = true.
Proof. intros [j Hj]. unfold plansEqual. rewrite Hj. by rewrite bool_decide_eq_true_2. Qed.

Lemma with_IsQuarantined_id t : with_IsQuarantined t (t_IsQuarantined t) = t.
Proof. by destruct t. Qed.

Lemma floorTest_fields t : t_IsQuarantined (floorTest t) = t_IsQuarantined t
  ∧ t_FlakeProb (floorTest t) = t_FlakeProb t.
Proof. unfold floorTest. by case_match. Qed.

(** The tests Replay rebuilds are the scheduled ones, floors included, followed
    by the quarantine lane. *)
Lemma replayTests_PlanFunc tests f c :
  replayTests (PlanFunc tests f c)
    ≡ₚ planActive tests ++ (partitionTests tests).2.
Proof.
  rewrite PlanFunc_unfold. unfold replayTests. simpl.
  rewrite trimBins_concat, sortBins_concat, planBins_concat. f_equiv.
  - apply reflexive_eq. etransitivity; [|apply list_fmap_id].
    apply list_fmap_ext. intros i t Hi. simpl.
    apply list_elem_of_lookup_2 in Hi.
    unfold planActive, partitionTests in Hi. simpl in Hi.
    apply list_elem_of_fmap in Hi as (u & -> & Hu%list_elem_of_In).
    apply filter_In in Hu as [_ Hu]. apply negb_true_iff in Hu.
    rewrite <-(with_IsQuarantined_id (floorTest u)) at 2.
    by rewrite (proj1 (floorTest_fields u)), Hu.
  - apply reflexive_eq. etransitivity; [|apply list_fmap_id].
    apply list_fmap_ext. intros i t Hi. simpl.
    apply list_elem_of_lookup_2, list_elem_of_In, filter_In in Hi as [_ Hu].
    rewrite <-(with_IsQuarantined_id t) at 2. by rewrite Hu.
Qed.

Lemma filterb_all {A} (f : A -> bool) l : (forall x, x ∈ l -> f x = true) -> List.filter f l = l.
Proof.
  induction l as [|x l IH]; intros H; [done|]. simpl. rewrite H by by left.
  f_equal. apply IH. intros y Hy. apply H. by right.
Qed.

Lemma filterb_none {A} (f : A -> bool) l : (forall x, x ∈ l -> f x = false) -> List.filter f l = [].
Proof.
  induction l as [|x l IH]; intros H; [done|]. simpl. rewrite H by by left.
  apply IH. intros y Hy. apply H. by right.
Qed.

Lemma active_not_quarantined tests t :
  t ∈ planActive tests -> t_IsQuarantined t = false.
Proof.
  intros (u & -> & Hu%list_elem_of_In)%list_elem_of_fmap.
  apply filter_In in Hu as [_ Hu]. rewrite (proj1 (floorTest_fields u)).
  by apply negb_true_iff.
Qed.

Lemma lane_quarantined tests t : t ∈ (partitionTests tests).2 -> t_IsQuarantined t = true.
Proof. by intros [_ ?]%list_elem_of_In%filter_In. Qed.

Lemma planActive_replay tests f c :
  planActive (replayTests (PlanFunc tests f c)) ≡ₚ planActive tests.
Proof.
  rewrite (planActive_perm _ _ (replayTests_PlanFunc tests f c)).
  unfold planActive at 1, partitionTests at 1. simpl. rewrite List.filter_app.
  rewrite filterb_all, filterb_none, app_nil_r.
  - apply reflexive_eq. unfold planActive. rewrite <-list_fmap_compose.
    apply list_fmap_ext. intros i t _. apply floorTest_idemp.
  - intros t Ht%lane_quarantined. by rewrite Ht.
  - intros t Ht%active_not_quarantined. by rewrite Ht.
Qed.

Lemma lane_replay tests f c :
  (partitionTests (replayTests (PlanFunc tests f c))).2 = (partitionTests tests).2.
Proof.
  unfold replayTests, partitionTests at 1. rewrite PlanFunc_unfold. simpl.
  rewrite List.filter_app, filterb_none, filterb_all; simpl.
  - etransitivity; [|apply list_fmap_id]. apply list_fmap_ext. intros i t Hi. simpl.
    apply list_elem_of_lookup_2, list_elem_of_In, filter_In in Hi as [_ Hu].
    rewrite <-(with_IsQuarantined_id t) at 2. by rewrite Hu.
  - by intros x (y & -> & _)%list_elem_of_fmap.
  - by intros x (y & -> & _)%list_elem_of_fmap.
Qed.

(** Replaying a freshly computed plan under the same constraints reproduces
    it and reports it as deterministic, provided no two active tests tie on
    duration and hash and every flake probability is a finite number. *)
Theorem Replay_deterministic tests f c :
  distinctKeys tests ->
  Forall (fun t => f32_finite (t_FlakeProb t) = true) tests ->
  Replay (PlanFunc tests f c) c = (PlanFunc tests f c, true).
Proof.
  intros Hnd Hfin. set (p := PlanFunc tests f c).
  assert (PlanFunc (replayTests p) (mkFleetSnapshot 0 []) c = p) as Hre.
  { destruct (planBins_perm tests (replayTests p) c Hnd) as (_ & Hb & Ht).
    { symmetry. apply planActive_replay. }
    rewrite PlanFunc_unfold. unfold p. rewrite lane_replay. fold p.
    rewrite <-Hb, <-Ht. done. }
  unfold Replay. rewrite Hre, plansEqual_refl; [done|].
  apply jsonPlan_finite. change (p_QuarantineLane p) with (partitionTests tests).2.
  assert (concat (a_Tests <$> p_Assignments p) ≡ₚ planActive tests) as ->.
  { unfold p. rewrite PlanFunc_unfold. simpl.
    rewrite trimBins_concat, sortBins_concat. apply planBins_concat. }
  rewrite Forall_forall in Hfin.
  apply Forall_app. split; apply Forall_forall.
  - intros t (u & -> & Hu%list_elem_of_In)%list_elem_of_fmap. apply filter_In in Hu as [Hu _].
    rewrite (proj2 (floorTest_fields u)). by apply Hfin, list_elem_of_In.
  - intros t [Hu _]%list_elem_of_In%filter_In. by apply Hfin, list_elem_of_In.
Qed.

(** ** Quality *)

Lemma untagged_perm k l : k ≡ₚ l -> untagged k -> untagged l.
Proof. unfold untagged. by intros ->. Qed.

(** C21: Graham's bound.  Without exclusive tags, the makespan of the plan is
    within [4/3 - 1/(3n)] of the optimum for its number of bins [n]: for any way
    to pack the same durations into [n] bins of load at most [B],
    [3 * n * makespan <= (4 * n - 1) * B]. *)
Theorem PlanFunc_lpt_bound tests f c opt B :
  sumZ (msOf (planActive tests)) < 2 ^ 63 ->
  untagged (planActive tests) ->
  packing (Z.to_nat (planShardCount tests c)) B opt ->
  concat opt ≡ₚ msOf (planActive tests) ->
  3 * planShardCount tests c * p_MakespanPredictedMS (PlanFunc tests f c)
    <= (4 * planShardCount tests c - 1) * B.
Proof.
  intros Hs Hu Hopt Hall. set (n := Z.to_nat (planShardCount tests c)).
  destruct (planShardCount_bounds tests c) as [[Hn1 _] _].
  assert (Z.of_nat n = planShardCount tests c) as Hn by (unfold n; lia).
  set (sorted := SliceStable lptLess (planActive tests)).
  assert (0 <= B) as HB.
  { pose proof (packing_total _ _ _ Hopt) as Ht. rewrite Hall in Ht.
    pose proof (sumZ_nonneg _ (msOf_nonneg _ (planActive_50 tests))). nia. }
  assert (within n B (foldl assignTest (initBins (Z.of_nat n), ∅) sorted)) as Hw.
  { apply (within_fold n B opt ltac:(lia) Hopt sorted []).
    - apply loopInv_init.
    - by apply planActive_fits.
    - apply (untagged_perm (planActive tests)); [|done]. symmetry. apply SliceStable_perm.
    - simpl. rewrite Hall. apply msOf_perm, SliceStable_perm.
    - apply lpt_sorted_ms.
    - intros i b Hi. apply initBins_lookup in Hi as ->. unfold durMS. simpl. nia. }
  rewrite Hn in Hw. change (makespanOf (sortBin <$> planBins tests c))
    with (p_MakespanPredictedMS (PlanFunc tests f c)).
  rewrite PlanFunc_unfold. simpl. unfold makespanOf.
  change (a_PredictedDurationMS <$> (sortBin <$> planBins tests c))
    with (durMS <$> (sortBin <$> planBins tests c)).
  rewrite durMS_sortBins.
  destruct (maxZ_in (durMS <$> planBins tests c)) as [->|(b & -> & [i Hb]%list_elem_of_lookup)%list_elem_of_fmap].
  - nia.
  - pose proof (Hw i b Hb) as H. by rewrite Hn in H.
Qed.

(** ** Witnesses *)

Definition exEntry (name : string) (tags : list string) : TestEntry :=
  mkTestEntry "tests/test_a.py" name "" "" tags.

Definition exTest (name : string) (tags : list string) (ms : Z) (q : bool) : Test :=
  mkTest (exEntry name tags) ms false 0 q.

(** Six tests: two share an exclusive tag, one is quarantined, one is below the
    floor. *)
Definition exTests : list Test :=
  [exTest "t1" [] 100 false; exTest "t2" ["slow"; "exclusive-db"] 200000 false;
   exTest "t3" ["exclusive-db"] 150000 false; exTest "t4" [] 150000 false;
   exTest "t5" [] 0 true; exTest "t6" [] (-3) false].

(** The tie of the classical tight instance for two bins: 3, 3, 2, 2, 2. *)
Definition exTight : list Test :=
  [exTest "u1" [] 300000 false; exTest "u2" [] 300000 false; exTest "u3" [] 200000 false;
   exTest "u4" [] 200000 false; exTest "u5" [] 200000 false].

Definition exTwoShards : Constraints := mkConstraints 600 2 2.

Lemma PlanFunc_exclusive_witness :
  exists a t u, p_Assignments (PlanFunc exTests (mkFleetSnapshot 0 []) DefaultConstraints) !! 0%nat = Some a
    ∧ t ∈ a_Tests a ∧ u ∈ a_Tests a ∧ t <> u ∧ 0%nat = 0%nat.
Proof.
  set (p := PlanFunc _ _ _). vm_compute in p.
  destruct (p_Assignments p !! 0%nat) as [a|] eqn:E; [|done]. exists a.
  exists (exTest "t2" ["slow"; "exclusive-db"] 200000 false), (exTest "t3" ["exclusive-db"] 150000 false).
  assert (exTest "t2" ["slow"; "exclusive-db"] 200000 false ∈ a_Tests a) as H1.
  { vm_compute in E. injection E as <-. vm_compute. by left. }
  assert (exTest "t3" ["exclusive-db"] 150000 false ∈ a_Tests a) as H2.
  { vm_compute in E. injection E as <-. vm_compute. by right; left. }
  split_and!; [done|exact H1|exact H2|done|].
  apply (PlanFunc_exclusive exTests (mkFleetSnapshot 0 []) DefaultConstraints 0 0 a a _ _ E H1 E H2).
  - reflexivity.
  - by vm_compute.
Defined.

Lemma PlanFunc_loads_witness :
  p_TotalPredictedMS (PlanFunc exTests (mkFleetSnapshot 0 []) DefaultConstraints) = 500150
  ∧ exists a, a ∈ p_Assignments (PlanFunc exTests (mkFleetSnapshot 0 []) DefaultConstraints)
     ∧ p_MakespanPredictedMS (PlanFunc exTests (mkFleetSnapshot 0 []) DefaultConstraints) = durMS a.
Proof.
  split; [reflexivity|].
  exact (proj2 (proj2 (PlanFunc_loads exTests (mkFleetSnapshot 0 []) DefaultConstraints
    ltac:(vm_compute; reflexivity)))).
Defined.

Lemma PlanFunc_shape_witness :
  planActive exTests <> []
  ∧ Forall (fun a => a_Tests a <> [])
      (p_Assignments (PlanFunc exTests (mkFleetSnapshot 0 []) DefaultConstraints)).
Proof.
  split; [by vm_compute|].
  apply (PlanFunc_shape exTests (mkFleetSnapshot 0 []) DefaultConstraints).
  - vm_compute. reflexivity.
  - by vm_compute.
Defined.

Lemma PlanFunc_order_independent_witness :
  p_Assignments (PlanFunc exTests (mkFleetSnapshot 0 []) DefaultConstraints)
  = p_Assignments (PlanFunc (reverse exTests) (mkFleetSnapshot 0 []) DefaultConstraints).
Proof.
  apply (PlanFunc_order_independent exTests (reverse exTests)).
  - symmetry. apply reverse_Permutation.
  - unfold distinctKeys. apply (bool_decide_unpack _). vm_compute. exact I.
Defined.

Lemma Replay_deterministic_witness :
  Replay (PlanFunc exTests (mkFleetSnapshot 0 []) DefaultConstraints) DefaultConstraints
  = (PlanFunc exTests (mkFleetSnapshot 0 []) DefaultConstraints, true).
Proof.
  apply Replay_deterministic.
  - unfold distinctKeys. apply (bool_decide_unpack _). vm_compute. exact I.
  - repeat constructor.
Defined.

(** On the tight instance the plan takes 700 s where 600 s are possible: the
    bound [7 * B / 6] is met exactly. *)
Lemma PlanFunc_lpt_bound_witness :
  p_MakespanPredictedMS (PlanFunc exTight (mkFleetSnapshot 0 []) exTwoShards) = 700000
  ∧ 3 * 2 * p_MakespanPredictedMS (PlanFunc exTight (mkFleetSnapshot 0 []) exTwoShards)
    <= (4 * 2 - 1) * 600000.
Proof.
  split; [reflexivity|].
  apply (PlanFunc_lpt_bound exTight (mkFleetSnapshot 0 []) exTwoShards
    [[300000; 300000]; [200000; 200000; 200000]] 600000).
  - vm_compute. reflexivity.
  - repeat constructor.
  - split; [reflexivity|]. repeat constructor; done.
  - reflexivity.
Defined.
