(* ===== verification/Db.v ===== *)
(** * The Postgres tables

    The tables of migrations/postgres that the modelled services read and
    write, as finite maps from primary keys to rows, and the few shapes the SQL
    statements of the Go code have: update of one row under a guard, insert of a
    fresh row, update of every row that satisfies a predicate.

    JSON columns are records with one field per key the code reads or writes;
    [meta || jsonb_build_object(k, v)] sets the field [k].  Times are
    microseconds. *)

From S2P Require Import Prelude GoSort Model Scheduler.

(** ** Rows *)

Record repo_row := mkRepoRow {
  rp_vcs : string;
  rp_full_name : string;
  rp_enabled : bool;
  rp_auto_quarantine_enabled : bool
}.

(** [runs.meta].  [computed_plan] is [Some None] when the JSON value is null. *)
Record run_meta := mkRunMeta {
  rm_idempotency_key : option string;
  rm_test_count : option Z;
  rm_runner : option string;
  rm_computed_plan : option (option Plan);
  rm_reshards : gmap string TestManifest;
  rm_failure_reason : option string;
  rm_predictor_model : option string
}.

Record run_row := mkRunRow {
  r_repo_id : string;
  r_commit_sha : string;
  r_branch : string;
  r_triggered_by : string;
  r_trigger_actor : option string;
  r_trigger_pr_number : option Z;
  r_status : string;
  r_budget_seconds : option Z;
  r_started_at : option Z;
  r_finished_at : option Z;
  r_total_duration_ms : option Z;
  r_preemption_count : Z;
  r_meta : run_meta;
  r_created_at : Z;
  r_updated_at : Z;
  r_github_check_run_id : option Z;
  r_github_installation_id : option Z;
  r_parent_run_id : option string;
  r_spot_minutes : Z; (* in hundredths *)
  r_on_demand_minutes : Z
}.

Record shard_row := mkShardRow {
  s_run_id : string;
  s_index : Z;
  s_worker_id : option string;
  s_predicted_duration_ms : Z;
  s_status : string;
  s_test_count : Z;
  s_started_at : option Z;
  s_finished_at : option Z;
  s_created_at : Z;
  s_rescheduled_at : option Z;
  s_actual_duration_ms : option Z
}.

(** What a [run_plans.plan] document can hold: the submitted manifest, the plan
    older versions stored there, or JSON of another shape. *)
Inductive plan_doc :=
  | PDManifest (m : TestManifest)
  | PDPlan (p : Plan)
  | PDOther.

Record test_row := mkTestRow {
  ts_repo_id : string;
  ts_fingerprint : string;
  ts_path : string;
  ts_name : string;
  ts_params_hash : string;
  ts_ast_signature : string;
  ts_runner : string;
  ts_status : string;
  ts_quarantined_at : option Z;
  ts_quarantine_reason : option string;
  ts_last_seen : Z;
  ts_owner_team : option string
}.

Record exec_row := mkExecRow {
  ex_id : string;
  ex_outcome : string;
  ex_duration_ms : Z;
  ex_otel_trace_id : option string;
  ex_started_at : Z;
  ex_finished_at : Z;
  ex_log_object_key : option string;
  ex_failure_cluster_id : option string
}.

(** The REAL column is the bit pattern of the float32. *)
Record cluster_row := mkClusterRow {
  fc_repo_id : string;
  fc_stack_fingerprint : string;
  fc_representative_message : string;
  fc_representative_stack : string;
  fc_last_seen : Z;
  fc_occurrences : Z;
  fc_root_cause_hint : option string;
  fc_hint_category : option string;
  fc_hint_confidence : option Z;
  fc_hint_generated_at : option Z;
  fc_first_seen : Z
}.

(** The NUMERIC(5,4) columns in ten-thousandths. *)
Record flake_row := mkFlakeRow {
  fr_flake_rate : Z;
  fr_wilson_lower : Z;
  fr_wilson_upper : Z;
  fr_sample_size : Z;
  fr_category : option string;
  fr_quarantined_at : option Z;
  fr_unquarantined_at : option Z;
  fr_github_issue_number : option Z;
  fr_github_issue_url : option string;
  fr_last_recomputed_at : Z;
  fr_last_nudged_at : option Z;
  fr_unquarantine_proposed_at : option Z
}.

Record token_row := mkTokenRow {
  ut_test_id : string;
  ut_expires_at : Z;
  ut_consumed_at : option Z
}.

Record install_row := mkInstallRow {
  gi_account_login : string;
  gi_account_type : string;
  gi_suspended : bool;
  gi_created_at : Z;
  gi_updated_at : Z
}.

(** Identifiers are taken to be uuids: the cast error of a malformed parameter is
    not modelled.  Keys: uuid, except [test_executions], keyed by its UNIQUE constraint
    (shard_id, test_id, attempt), [flake_records], keyed by test id, and
    [unquarantine_tokens], keyed by the token, and [github_installations], keyed
    by GitHub's number. *)
Record DB := mkDB {
  repos : gmap string repo_row;
  runs : gmap string run_row;
  run_plans : gmap string plan_doc;
  shards : gmap string shard_row;
  tests : gmap string test_row;
  test_executions : gmap (string * string * Z) exec_row;
  failure_clusters : gmap string cluster_row;
  flake_records : gmap string flake_row;
  unquarantine_tokens : gmap string token_row;
  github_installations : gmap Z install_row
}.

Definition emptyDB : DB := mkDB ∅ ∅ ∅ ∅ ∅ ∅ ∅ ∅ ∅ ∅.

Definition set_repos (m : gmap string repo_row) (db : DB) : DB :=
  mkDB m (runs db) (run_plans db) (shards db) (tests db)
    (test_executions db) (failure_clusters db) (flake_records db) (unquarantine_tokens db)
    (github_installations db).
Definition set_runs (m : gmap string run_row) (db : DB) : DB :=
  mkDB (repos db) m (run_plans db) (shards db) (tests db)
    (test_executions db) (failure_clusters db) (flake_records db) (unquarantine_tokens db)
    (github_installations db).
Definition set_run_plans (m : gmap string plan_doc) (db : DB) : DB :=
  mkDB (repos db) (runs db) m (shards db) (tests db)
    (test_executions db) (failure_clusters db) (flake_records db) (unquarantine_tokens db)
    (github_installations db).
Definition set_shards (m : gmap string shard_row) (db : DB) : DB :=
  mkDB (repos db) (runs db) (run_plans db) m (tests db)
    (test_executions db) (failure_clusters db) (flake_records db) (unquarantine_tokens db)
    (github_installations db).
Definition set_tests (m : gmap string test_row) (db : DB) : DB :=
  mkDB (repos db) (runs db) (run_plans db) (shards db) m
    (test_executions db) (failure_clusters db) (flake_records db) (unquarantine_tokens db)
    (github_installations db).
Definition set_test_executions (m : gmap (string * string * Z) exec_row) (db : DB) : DB :=
  mkDB (repos db) (runs db) (run_plans db) (shards db) (tests db)
    m (failure_clusters db) (flake_records db) (unquarantine_tokens db)
    (github_installations db).
Definition set_failure_clusters (m : gmap string cluster_row) (db : DB) : DB :=
  mkDB (repos db) (runs db) (run_plans db) (shards db) (tests db)
    (test_executions db) m (flake_records db) (unquarantine_tokens db)
    (github_installations db).
Definition set_flake_records (m : gmap string flake_row) (db : DB) : DB :=
  mkDB (repos db) (runs db) (run_plans db) (shards db) (tests db)
    (test_executions db) (failure_clusters db) m (unquarantine_tokens db)
    (github_installations db).
Definition set_unquarantine_tokens (m : gmap string token_row) (db : DB) : DB :=
  mkDB (repos db) (runs db) (run_plans db) (shards db) (tests db)
    (test_executions db) (failure_clusters db) (flake_records db) m (github_installations db).
Definition set_github_installations (m : gmap Z install_row) (db : DB) : DB :=
  mkDB (repos db) (runs db) (run_plans db) (shards db) (tests db)
    (test_executions db) (failure_clusters db) (flake_records db) (unquarantine_tokens db) m.

#[export] Instance repo_row_eq_dec : EqDecision repo_row.
Proof. solve_decision. Defined.
#[export] Instance run_meta_eq_dec : EqDecision run_meta.
Proof. solve_decision. Defined.
#[export] Instance run_row_eq_dec : EqDecision run_row.
Proof. solve_decision. Defined.
#[export] Instance shard_row_eq_dec : EqDecision shard_row.
Proof. solve_decision. Defined.
#[export] Instance plan_doc_eq_dec : EqDecision plan_doc.
Proof. solve_decision. Defined.
#[export] Instance test_row_eq_dec : EqDecision test_row.
Proof. solve_decision. Defined.
#[export] Instance exec_row_eq_dec : EqDecision exec_row.
Proof. solve_decision. Defined.
#[export] Instance cluster_row_eq_dec : EqDecision cluster_row.
Proof. solve_decision. Defined.
#[export] Instance install_row_eq_dec : EqDecision install_row.
Proof. solve_decision. Defined.
#[export] Instance flake_row_eq_dec : EqDecision flake_row.
Proof. solve_decision. Defined.
#[export] Instance token_row_eq_dec : EqDecision token_row.
Proof. solve_decision. Defined.

(** ** Column updates *)

Definition r_set_status (v : string) (r : run_row) : run_row :=
  mkRunRow (r_repo_id r) (r_commit_sha r) (r_branch r) (r_triggered_by r) (r_trigger_actor r)
    (r_trigger_pr_number r) v (r_budget_seconds r) (r_started_at r) (r_finished_at r)
    (r_total_duration_ms r) (r_preemption_count r) (r_meta r) (r_created_at r) (r_updated_at r)
    (r_github_check_run_id r) (r_github_installation_id r) (r_parent_run_id r)
    (r_spot_minutes r) (r_on_demand_minutes r).
Definition r_set_started_at (v : option Z) (r : run_row) : run_row :=
  mkRunRow (r_repo_id r) (r_commit_sha r) (r_branch r) (r_triggered_by r) (r_trigger_actor r)
    (r_trigger_pr_number r) (r_status r) (r_budget_seconds r) v (r_finished_at r)
    (r_total_duration_ms r) (r_preemption_count r) (r_meta r) (r_created_at r) (r_updated_at r)
    (r_github_check_run_id r) (r_github_installation_id r) (r_parent_run_id r)
    (r_spot_minutes r) (r_on_demand_minutes r).
Definition r_set_finished_at (v : option Z) (r : run_row) : run_row :=
  mkRunRow (r_repo_id r) (r_commit_sha r) (r_branch r) (r_triggered_by r) (r_trigger_actor r)
    (r_trigger_pr_number r) (r_status r) (r_budget_seconds r) (r_started_at r) v
    (r_total_duration_ms r) (r_preemption_count r) (r_meta r) (r_created_at r) (r_updated_at r)
    (r_github_check_run_id r) (r_github_installation_id r) (r_parent_run_id r)
    (r_spot_minutes r) (r_on_demand_minutes r).
Definition r_set_total_duration_ms (v : option Z) (r : run_row) : run_row :=
  mkRunRow (r_repo_id r) (r_commit_sha r) (r_branch r) (r_triggered_by r) (r_trigger_actor r)
    (r_trigger_pr_number r) (r_status r) (r_budget_seconds r) (r_started_at r) (r_finished_at r)
    v (r_preemption_count r) (r_meta r) (r_created_at r) (r_updated_at r)
    (r_github_check_run_id r) (r_github_installation_id r) (r_parent_run_id r)
    (r_spot_minutes r) (r_on_demand_minutes r).
Definition r_set_preemption_count (v : Z) (r : run_row) : run_row :=
  mkRunRow (r_repo_id r) (r_commit_sha r) (r_branch r) (r_triggered_by r) (r_trigger_actor r)
    (r_trigger_pr_number r) (r_status r) (r_budget_seconds r) (r_started_at r) (r_finished_at r)
    (r_total_duration_ms r) v (r_meta r) (r_created_at r) (r_updated_at r)
    (r_github_check_run_id r) (r_github_installation_id r) (r_parent_run_id r)
    (r_spot_minutes r) (r_on_demand_minutes r).
Definition r_set_meta (v : run_meta) (r : run_row) : run_row :=
  mkRunRow (r_repo_id r) (r_commit_sha r) (r_branch r) (r_triggered_by r) (r_trigger_actor r)
    (r_trigger_pr_number r) (r_status r) (r_budget_seconds r) (r_started_at r) (r_finished_at r)
    (r_total_duration_ms r) (r_preemption_count r) v (r_created_at r) (r_updated_at r)
    (r_github_check_run_id r) (r_github_installation_id r) (r_parent_run_id r)
    (r_spot_minutes r) (r_on_demand_minutes r).
Definition r_set_updated_at (v : Z) (r : run_row) : run_row :=
  mkRunRow (r_repo_id r) (r_commit_sha r) (r_branch r) (r_triggered_by r) (r_trigger_actor r)
    (r_trigger_pr_number r) (r_status r) (r_budget_seconds r) (r_started_at r) (r_finished_at r)
    (r_total_duration_ms r) (r_preemption_count r) (r_meta r) (r_created_at r) v
    (r_github_check_run_id r) (r_github_installation_id r) (r_parent_run_id r)
    (r_spot_minutes r) (r_on_demand_minutes r).
Definition r_set_github_check_run_id (v : option Z) (r : run_row) : run_row :=
  mkRunRow (r_repo_id r) (r_commit_sha r) (r_branch r) (r_triggered_by r) (r_trigger_actor r)
    (r_trigger_pr_number r) (r_status r) (r_budget_seconds r) (r_started_at r) (r_finished_at r)
    (r_total_duration_ms r) (r_preemption_count r) (r_meta r) (r_created_at r) (r_updated_at r)
    v (r_github_installation_id r) (r_parent_run_id r)
    (r_spot_minutes r) (r_on_demand_minutes r).

Definition rm_set_computed_plan (p : option Plan) (m : run_meta) : run_meta :=
  mkRunMeta (rm_idempotency_key m) (rm_test_count m) (rm_runner m) (Some p)
    (rm_reshards m) (rm_failure_reason m) (rm_predictor_model m).
Definition rm_add_reshard (id : string) (mf : TestManifest) (m : run_meta) : run_meta :=
  mkRunMeta (rm_idempotency_key m) (rm_test_count m) (rm_runner m) (rm_computed_plan m)
    (<[id := mf]> (rm_reshards m)) (rm_failure_reason m) (rm_predictor_model m).
Definition rm_set_failure_reason (s : string) (m : run_meta) : run_meta :=
  mkRunMeta (rm_idempotency_key m) (rm_test_count m) (rm_runner m) (rm_computed_plan m)
    (rm_reshards m) (Some s) (rm_predictor_model m).

Definition s_set_status (v : string) (s : shard_row) : shard_row :=
  mkShardRow (s_run_id s) (s_index s) (s_worker_id s) (s_predicted_duration_ms s) v
    (s_test_count s) (s_started_at s) (s_finished_at s) (s_created_at s) (s_rescheduled_at s) (s_actual_duration_ms s).
Definition s_set_worker_id (v : option string) (s : shard_row) : shard_row :=
  mkShardRow (s_run_id s) (s_index s) v (s_predicted_duration_ms s) (s_status s)
    (s_test_count s) (s_started_at s) (s_finished_at s) (s_created_at s) (s_rescheduled_at s) (s_actual_duration_ms s).
Definition s_set_started_at (v : option Z) (s : shard_row) : shard_row :=
  mkShardRow (s_run_id s) (s_index s) (s_worker_id s) (s_predicted_duration_ms s) (s_status s)
    (s_test_count s) v (s_finished_at s) (s_created_at s) (s_rescheduled_at s) (s_actual_duration_ms s).
Definition s_set_finished_at (v : option Z) (s : shard_row) : shard_row :=
  mkShardRow (s_run_id s) (s_index s) (s_worker_id s) (s_predicted_duration_ms s) (s_status s)
    (s_test_count s) (s_started_at s) v (s_created_at s) (s_rescheduled_at s) (s_actual_duration_ms s).
Definition s_set_rescheduled_at (v : option Z) (s : shard_row) : shard_row :=
  mkShardRow (s_run_id s) (s_index s) (s_worker_id s) (s_predicted_duration_ms s) (s_status s)
    (s_test_count s) (s_started_at s) (s_finished_at s) (s_created_at s) v (s_actual_duration_ms s).

(** [COALESCE(col, now())] *)
Definition coalesce {A} (o : option A) (d : A) : A := default d o.

(** ** Statement shapes *)

Section shapes.
Context {V : Type}.

(** [UPDATE t SET .. WHERE id = $1 AND guard]: the table and the number of rows
    affected. *)
Definition updateRow (id : string) (guard : V -> bool) (f : V -> V) (t : gmap string V) :
    gmap string V * Z :=
  match t !! id with
  | Some r => if guard r then (<[id := f r]> t, 1) else (t, 0)
  | None => (t, 0)
  end.

(** [UPDATE t SET .. WHERE guard] *)
Definition updateAll (guard : string -> V -> bool) (f : V -> V) (t : gmap string V) :
    gmap string V :=
  map_imap (fun k r => Some (if guard k r then f r else r)) t.

(** [SELECT id, row FROM t WHERE p ORDER BY key ASC], ties in any fixed order. *)
Definition selectOrdered (p : string -> V -> bool) (key : V -> Z) (t : gmap string V) :
    list (string * V) :=
  SliceStable (fun a b => key a.2 <? key b.2)
    (List.filter (fun kv => p kv.1 kv.2) (map_to_list t)).

Lemma updateRow_lookup id guard f t k :
  (updateRow id guard f t).1 !! k =
  (if decide (k = id) then (fun r => if guard r then f r else r) <$> t !! k else t !! k).
Proof.
  unfold updateRow. case_decide as Hk; [subst k|].
  - destruct (t !! id) as [r|] eqn:E; simpl; [|by rewrite E].
    destruct (guard r); simpl; [by rewrite lookup_insert_eq|by rewrite E].
  - destruct (t !! id) as [r|]; simpl; [|done].
    destruct (guard r); simpl; [by rewrite lookup_insert_ne|done].
Qed.

Lemma updateRow_hit id guard f t r : t !! id = Some r -> guard r = true -> (updateRow id guard f t).1 = <[id := f r]> t.
Proof. intros H1 H2. unfold updateRow. by rewrite H1, H2. Qed.

Lemma updateRow_affected id guard f t :
  (updateRow id guard f t).2 = 1 ∧ (exists r, t !! id = Some r ∧ guard r = true)
  ∨ (updateRow id guard f t).2 = 0 ∧ (updateRow id guard f t).1 = t.
Proof.
  unfold updateRow. destruct (t !! id) as [r|]; [|by right].
  destruct (guard r) eqn:E; [left|by right]. split; [done|by exists r].
Qed.

Lemma updateAll_lookup guard f t k :
  updateAll guard f t !! k = (fun r => if guard k r then f r else r) <$> t !! k.
Proof. unfold updateAll. rewrite map_lookup_imap. by destruct (t !! k). Qed.

Lemma selectOrdered_elem p key t k r :
  (k, r) ∈ selectOrdered p key t <-> t !! k = Some r ∧ p k r = true.
Proof.
  unfold selectOrdered. rewrite SliceStable_perm, list_elem_of_In, filter_In,
    <-list_elem_of_In, elem_of_map_to_list. done.
Qed.
End shapes.

#[export] Hint Rewrite @updateRow_lookup @updateAll_lookup : teo.
