(* ===== verification/Effects.v ===== *)
(** * The effect monad of the services

    A service function runs against a [World]: the committed database, the
    transaction it has open, the clock of the statement timestamps, the uuid
    supply, what the environment does around each database call, and the log of
    the calls it makes to other systems.

    Every database call takes the next event of [w_env]: what other sessions
    committed just before it, and whether the call fails.  A failure either left
    no trace ([FFail]) or took effect with the answer lost ([FLost]).  When the
    list is used up nothing happens around the calls any more.

    Transactions are READ COMMITTED with row locks, as the program runs them: a
    statement of an open transaction sees what others have committed plus its own
    writes; the rows the transaction has changed are locked, so that what another
    session commits meanwhile does not touch them ([lockMerge]).  An SQL error
    aborts the transaction, after which every statement and the commit fail. *)

From S2P Require Import Prelude Model Scheduler Db.

(** ** Errors *)

(** Go errors: a sentinel variable, a plain text, a wrapped error ([%w]), a
    Postgres error with its SQLSTATE, a validation error. *)
Inductive error :=
  | Sentinel (name : string)
  | ErrText (msg : string)
  | ErrWrap (msg : string) (inner : error)
  | PgError (code : string)
  | ValidationError (fields : list FieldError).

Definition ErrNoRows : error := Sentinel "pgx.ErrNoRows".
Definition ErrTransport : error := ErrText "connection failed".
Definition ErrTxAborted : error := PgError "25P02".
Definition ErrTxCommitRollback : error := Sentinel "pgx.ErrTxCommitRollback".
Definition uniqueViolation : error := PgError "23505".

Inductive result (A : Type) :=
  | Ok (a : A)
  | Err (e : error).
Arguments Ok {A} a.
Arguments Err {A} e.

(** ** The world *)

Inductive Fault := FNone | FFail | FLost.

Record EnvEvent := mkEnvEvent {
  ev_other : DB -> DB;
  ev_fault : Fault
}.

Definition quietEvent : EnvEvent := mkEnvEvent id FNone.

Record TxState := mkTx {
  tx_db : DB;
  tx_aborted : bool
}.

(** The data passed to observers, and the NATS dispatch message. *)
Record RunSnapshot := mkRunSnapshot {
  sn_ID : string;
  sn_RepoFullName : string;
  sn_CommitSHA : string;
  sn_Branch : string;
  sn_Status : RunStatus;
  sn_StartedAt : option Z;
  sn_FinishedAt : option Z;
  sn_TotalDurationMS : Z;
  sn_PreemptionCount : Z;
  sn_GitHubCheckRunID : option Z;
  sn_GitHubInstallationID : option Z
}.

Record ShardDispatch := mkShardDispatch {
  sd_RunID : string;
  sd_ShardID : string;
  sd_RepoFullName : string;
  sd_Runner : string;
  sd_Tests : list TestEntry;
  sd_PredictedMS : Z;
  sd_DispatchedAt : Z
}.

(** The payload of a GitHub Check Run; its output as title, summary and text. *)
Record CheckOutput := mkCheckOutput {
  co_Title : string;
  co_Summary : string;
  co_Text : string
}.

Record CheckRun := mkCheckRun {
  ck_Name : string;
  ck_HeadSHA : string;
  ck_Status : string;
  ck_Conclusion : string;
  ck_StartedAt : option Z;
  ck_CompletedAt : option Z;
  ck_DetailsURL : string;
  ck_Output : CheckOutput
}.

(** A request to the language model. *)
Record anthropicMessage := mkAnthropicMessage {
  am_Role : string;
  am_Content : string
}.

Record anthropicRequest := mkAnthropicRequest {
  aq_Model : string;
  aq_MaxTokens : Z;
  aq_System : string;
  aq_Messages : list anthropicMessage
}.

(** A row of ClickHouse's teo.span_events; times are in nanoseconds. *)
Record spanRow := mkSpanRow {
  sr_TraceID : string;
  sr_SpanID : string;
  sr_ParentSpanID : string;
  sr_TestID : string;
  sr_RunID : string;
  sr_Name : string;
  sr_Kind : Z;
  sr_StartTime : Z;
  sr_EndTime : Z;
  sr_StatusCode : Z;
  sr_StatusMessage : string;
  sr_Attributes : gmap string string
}.

(** Calls to other systems, in order. *)
Inductive Output :=
  | OObserve (observer : nat) (snap : RunSnapshot) (prev : RunStatus)
  | OPublish (d : ShardDispatch)
  | OUploadPlan (key : string) (p : option Plan)
  | OUploadLog (key body : string)
  | OAudit (action target_id : string)
  | ORunTransition (to : string)
  | ORunsActive (status : string) (n : Z)
  | ORunsStuck (n : Z)
  | OExecute (tests : list TestEntry)
  | OAck
  | ONak (seconds : Z)
  | OOpenIssue (repo title body : string)
  | OComment (repo : string) (number : Z) (body : string)
  | OCheckCreate (repo : string) (run : CheckRun)
  | OCheckUpdate (repo : string) (id : Z) (run : CheckRun)
  | OLlmRequest (url key : string) (req : anthropicRequest)
  | OSpanBatch (rows : list spanRow)
  | OMail (addr from to body : string)
  | OSlack (url text : string)
  | OCounter (name : string).

(** The worker agent's two atomics, and when its other goroutine runs: at each
    point where the goroutines can interleave the next bit says whether the
    interruption handler runs there. *)
Record AgentState := mkAgentState {
  ag_draining : bool;
  ag_currentShardID : string;
  ag_schedule : list bool
}.

Definition idleAgent : AgentState := mkAgentState false "" [].

Record World := mkWorld {
  w_db : DB;
  w_tx : option TxState;
  w_now : Z;
  w_uuid : nat -> string;
  w_next : nat;
  w_held : gset Z;
  w_env : list EnvEvent;
  w_out : list Output;
  w_agent : AgentState
}.

Definition w_set_db (v : DB) (w : World) : World :=
  mkWorld v (w_tx w) (w_now w) (w_uuid w) (w_next w) (w_held w) (w_env w) (w_out w) (w_agent w).
Definition w_set_tx (v : option TxState) (w : World) : World :=
  mkWorld (w_db w) v (w_now w) (w_uuid w) (w_next w) (w_held w) (w_env w) (w_out w) (w_agent w).
Definition w_set_next (v : nat) (w : World) : World :=
  mkWorld (w_db w) (w_tx w) (w_now w) (w_uuid w) v (w_held w) (w_env w) (w_out w) (w_agent w).
Definition w_set_env (v : list EnvEvent) (w : World) : World :=
  mkWorld (w_db w) (w_tx w) (w_now w) (w_uuid w) (w_next w) (w_held w) v (w_out w) (w_agent w).
Definition w_set_out (v : list Output) (w : World) : World :=
  mkWorld (w_db w) (w_tx w) (w_now w) (w_uuid w) (w_next w) (w_held w) (w_env w) v (w_agent w).
Definition w_set_agent (v : AgentState) (w : World) : World :=
  mkWorld (w_db w) (w_tx w) (w_now w) (w_uuid w) (w_next w) (w_held w) (w_env w) (w_out w) v.

(** ** The monad *)

Definition M (A : Type) : Type := World -> result A * World.

Definition retM {A} (a : A) : M A := fun w => (Ok a, w).
Definition throwM {A} (e : error) : M A := fun w => (Err e, w).

(** [if err != nil { return err }] *)
Definition bindM {A B} (m : M A) (k : A -> M B) : M B := fun w =>
  match m w with
  | (Ok a, w') => k a w'
  | (Err e, w') => (Err e, w')
  end.

(** A call whose error the caller inspects. *)
Definition tryM {A} (m : M A) : M (result A) := fun w =>
  let '(r, w') := m w in (Ok r, w').

Notation "x ←! m ; k" := (bindM m (fun x => k))
  (at level 100, m at next level, right associativity) : teo_scope.
Notation "m ;! k" := (bindM m (fun _ => k))
  (at level 100, right associativity) : teo_scope.
#[global] Open Scope teo_scope.

(** [fmt.Errorf] with [%w] around a call that failed. *)
Definition wrapM {A} (msg : string) (m : M A) : M A := fun w =>
  match m w with
  | (Err e, w') => (Err (ErrWrap msg e), w')
  | rw => rw
  end.

Definition ofResult {A} (r : result A) : M A := match r with Ok a => retM a | Err e => throwM e end.

(** [uuid.Nil] *)
Definition zeroUUID : string := "00000000-0000-0000-0000-000000000000".

(** [_, _ = f()] *)
Definition ignoreM {A} (m : M A) : M unit := _ ←! tryM m ; retM tt.

(** [if b { .. }] *)
Definition whenM (b : bool) (m : M unit) : M unit := if b then m else retM tt.

(** [for _, x := range l { .. }] with an error that ends the loop. *)
Fixpoint forM_ {A} (l : list A) (f : A -> M unit) : M unit :=
  match l with
  | [] => retM tt
  | x :: l' => f x ;! forM_ l' f
  end.

(** ** Database calls *)

(** A statement: what it does to the tables at time [now]; [Err] is an SQL
    error. *)
Definition Stmt (A : Type) : Type := Z -> DB -> result A * DB.

(** [lockMerge tx w fw]: of two tables, what a table [w] becomes when another
    session takes it to [fw] and the rows on which [tx] differs from [w] are
    locked; and what the transaction sees then. *)
Section merge_rows.
Context `{Countable K} {V : Type} `{EqDecision V}.

Definition diffRow (a b : option V) : option (option V * option V) := Some (a, b).

Definition keepLocked (ab : option (option V * option V)) (c : option V) : option V :=
  match ab with
  | Some (a, b) => if decide (a = b) then c else b
  | None => c
  end.

Definition seeLocked (ab : option (option V * option V)) (c : option V) : option V :=
  match ab with
  | Some (a, b) => if decide (a = b) then c else a
  | None => c
  end.

Definition lockMerge (tx w fw : gmap K V) : gmap K V :=
  merge keepLocked (merge diffRow tx w) fw.
Definition lockView (tx w fw : gmap K V) : gmap K V :=
  merge seeLocked (merge diffRow tx w) fw.

Lemma lookup_diff tx w (k : K) :
  (merge diffRow tx w : gmap K _) !! k = None ∧ tx !! k = None ∧ w !! k = None
  ∨ (merge diffRow tx w : gmap K _) !! k = Some (tx !! k, w !! k).
Proof.
  rewrite lookup_merge. destruct (tx !! k), (w !! k); simpl; auto.
Qed.

Lemma lookup_lockMerge tx w fw (k : K) :
  lockMerge tx w fw !! k = if decide (tx !! k = w !! k) then fw !! k else w !! k.
Proof.
  unfold lockMerge. rewrite lookup_merge.
  destruct (lookup_diff tx w k) as [(-> & -> & ->)| ->].
  - rewrite decide_True by done. by destruct (fw !! k).
  - simpl. destruct (fw !! k); simpl; by case_decide.
Qed.

Lemma lookup_lockView tx w fw (k : K) :
  lockView tx w fw !! k = if decide (tx !! k = w !! k) then fw !! k else tx !! k.
Proof.
  unfold lockView. rewrite lookup_merge.
  destruct (lookup_diff tx w k) as [(-> & -> & ->)| ->].
  - rewrite decide_True by done. by destruct (fw !! k).
  - simpl. destruct (fw !! k); simpl; by case_decide.
Qed.

(** Nothing of the table is locked: the two views agree with the commit. *)
Lemma lockMerge_same w fw : lockMerge w w fw = fw.
Proof. apply map_eq. intros k. rewrite lookup_lockMerge. by rewrite decide_True. Qed.
Lemma lockMerge_id tx w : lockMerge tx w w = w.
Proof. apply map_eq. intros k. rewrite lookup_lockMerge. by case_decide. Qed.
Lemma lockView_id tx w : lockView tx w w = tx.
Proof. apply map_eq. intros k. rewrite lookup_lockView. by case_decide. Qed.
End merge_rows.

Definition mapDB2 (g : forall K (ED : EqDecision K) (C : Countable K) V (E : EqDecision V),
    gmap K V -> gmap K V -> gmap K V -> gmap K V) (tx w fw : DB) : DB :=
  mkDB (g _ _ _ _ _ (repos tx) (repos w) (repos fw))
    (g _ _ _ _ _ (runs tx) (runs w) (runs fw))
    (g _ _ _ _ _ (run_plans tx) (run_plans w) (run_plans fw))
    (g _ _ _ _ _ (shards tx) (shards w) (shards fw))
    (g _ _ _ _ _ (tests tx) (tests w) (tests fw))
    (g _ _ _ _ _ (test_executions tx) (test_executions w) (test_executions fw))
    (g _ _ _ _ _ (failure_clusters tx) (failure_clusters w) (failure_clusters fw))
    (g _ _ _ _ _ (flake_records tx) (flake_records w) (flake_records fw))
    (g _ _ _ _ _ (unquarantine_tokens tx) (unquarantine_tokens w) (unquarantine_tokens fw))
    (g _ _ _ _ _ (github_installations tx) (github_installations w) (github_installations fw)).

Definition lockMergeDB : DB -> DB -> DB -> DB := mapDB2 (@lockMerge).
Definition lockViewDB : DB -> DB -> DB -> DB := mapDB2 (@lockView).

Lemma lockMergeDB_id tx w : lockMergeDB tx w w = w.
Proof. destruct w. unfold lockMergeDB, mapDB2. simpl. by rewrite !lockMerge_id. Qed.
Lemma lockViewDB_id tx w : lockViewDB tx w w = tx.
Proof. destruct tx, w. unfold lockViewDB, mapDB2. simpl. by rewrite !lockView_id. Qed.

(** Another session commits [f]. *)
Definition commitOther (f : DB -> DB) (w : World) : World :=
  let fw := f (w_db w) in
  match w_tx w with
  | None => w_set_db fw w
  | Some t =>
      w_set_tx (Some (mkTx (lockViewDB (tx_db t) (w_db w) fw) (tx_aborted t)))
        (w_set_db (lockMergeDB (tx_db t) (w_db w) fw) w)
  end.

(** The next event: what the others do happens, and the fault of this call. *)
Definition nextEvent (w : World) : Fault * World :=
  match w_env w with
  | [] => (FNone, w)
  | e :: env => (ev_fault e, commitOther (ev_other e) (w_set_env env w))
  end.

(** One statement on the pool, committed on its own; beside an open transaction
    it is another session. *)
Definition poolExec {A} (s : Stmt A) : M A := fun w =>
  let '(fault, w) := nextEvent w in
  match fault with
  | FFail => (Err ErrTransport, w)
  | FLost => (Err ErrTransport,
      match s (w_now w) (w_db w) with
      | (Ok _, db') => commitOther (fun _ => db') w
      | (Err _, _) => w
      end)
  | FNone =>
      match s (w_now w) (w_db w) with
      | (Ok a, db') => (Ok a, commitOther (fun _ => db') w)
      | (Err er, _) => (Err er, w)
      end
  end.

(** [Pool.Begin] *)
Definition txBegin : M unit := fun w =>
  let '(fault, w) := nextEvent w in
  match fault with
  | FNone => (Ok tt, w_set_tx (Some (mkTx (w_db w) false)) w)
  | _ => (Err ErrTransport, w)
  end.

Definition abortTx (t : TxState) : TxState := mkTx (tx_db t) true.

(** Errors the server reports abort the transaction; a parameter the client
    cannot encode never reaches the server. *)
Definition isServerError (er : error) : bool :=
  match er with PgError _ => true | _ => false end.

(** One statement of the open transaction. *)
Definition txExec {A} (s : Stmt A) : M A := fun w =>
  let '(fault, w) := nextEvent w in
  match w_tx w with
  | None => (Err (Sentinel "pgx.ErrTxClosed"), w)
  | Some t =>
      if tx_aborted t then (Err ErrTxAborted, w)
      else match fault with
      | FNone =>
          match s (w_now w) (tx_db t) with
          | (Ok a, db') => (Ok a, w_set_tx (Some (mkTx db' false)) w)
          | (Err er, _) =>
              (Err er, w_set_tx (Some (if isServerError er then abortTx t else t)) w)
          end
      | _ => (Err ErrTransport, w_set_tx (Some (abortTx t)) w)
      end
  end.

(** [tx.Commit]; on an aborted transaction Postgres rolls back and pgx reports
    it. *)
Definition txCommit : M unit := fun w =>
  let '(fault, w) := nextEvent w in
  match w_tx w with
  | None => (Err (Sentinel "pgx.ErrTxClosed"), w)
  | Some t =>
      let w' := w_set_tx None w in
      if tx_aborted t then (Err ErrTxCommitRollback, w')
      else match fault with
      | FNone => (Ok tt, w_set_db (tx_db t) w')
      | FLost => (Err ErrTransport, w_set_db (tx_db t) w')
      | FFail => (Err ErrTransport, w')
      end
  end.

(** [defer tx.Rollback(ctx)] around the body of a function that began a
    transaction. *)
Definition withTx {A} (body : M A) : M A :=
  txBegin ;! (fun w => let '(r, w') := body w in (r, w_set_tx None w')).

(** Read an atomic of the agent, or write one. *)
Definition getAgent : M AgentState := fun w => (Ok (w_agent w), w).
Definition setAgent (a : AgentState) : M unit := fun w => (Ok tt, w_set_agent a w).

(** [QueryRow(..).Scan(..)]: no row is [ErrNoRows], which does not abort a
    transaction. *)
Definition scanRow {A} (m : M (option A)) : M A :=
  o ←! m ; match o with Some a => retM a | None => throwM ErrNoRows end.

(** A statement that only reads. *)
Definition query {A} (f : DB -> A) : Stmt A := fun _ db => (Ok (f db), db).

(** ** Other effects *)

Definition newUUID : M string := fun w =>
  (Ok (w_uuid w (w_next w)), w_set_next (S (w_next w)) w).

Definition getNow : M Z := fun w => (Ok (w_now w), w).

Definition emit (o : Output) : M unit := fun w => (Ok tt, w_set_out (w_out w ++ [o]) w).

(** [pg_try_advisory_xact_lock(key)]: free unless another session holds it. *)
Definition tryLock (key : Z) : M bool := fun w =>
  match txExec (query (fun _ => tt)) w with
  | (Ok _, w') => (Ok (negb (bool_decide (key ∈ w_held w'))), w')
  | (Err e, w') => (Err e, w')
  end.

(** [errors.Is] *)
Fixpoint errorsIs (err target : error) : bool :=
  match err, target with
  | Sentinel a, Sentinel b => String.eqb a b
  | ErrWrap _ inner, _ => errorsIs inner target
  | ValidationError _, Sentinel b => String.eqb b "runsvc.ErrValidation"
  | _, _ => false
  end.

(** * What a computation sends

    The outputs of a computation, whatever the other sessions and the faults do:
    a class that goes through the monad. *)


(** Whatever happens around its calls, everything [m] sends satisfies [P]. *)
Class Sends (P : Output -> Prop) {A} (m : M A) : Prop :=
  sends : forall w, exists l, w_out (m w).2 = w_out w ++ l /\ Forall P l.

Section sends.
Context (P : Output -> Prop).

Lemma sends_nothing {A} (m : M A) : (forall w, w_out (m w).2 = w_out w) -> Sends P m.
Proof. intros H w. exists []. rewrite app_nil_r. split; [apply H|constructor]. Qed.

#[export] Instance sends_ret {A} (a : A) : Sends P (retM a).
Proof. by apply sends_nothing. Qed.
#[export] Instance sends_throw {A} e : Sends P (@throwM A e).
Proof. by apply sends_nothing. Qed.
#[export] Instance sends_bind {A B} (m : M A) (k : A -> M B) : Sends P m -> (forall a, Sends P (k a)) -> Sends P (bindM m k).
Proof.
  intros Hm Hk w. unfold bindM. destruct (Hm w) as (l & E & Hl). destruct (m w) as [[a|e] w1]; [|by exists l]. cbn in E.
  destruct (Hk a w1) as (l' & E' & Hl'). exists (l ++ l'). split; [by rewrite E', E, app_assoc|by apply Forall_app].
Qed.
#[export] Instance sends_try {A} (m : M A) : Sends P m -> Sends P (tryM m).
Proof. intros Hm w. unfold tryM. destruct (Hm w) as (l & E & Hl). destruct (m w). by exists l. Qed.
#[export] Instance sends_wrap {A} msg (m : M A) : Sends P m -> Sends P (wrapM msg m).
Proof. intros Hm w. unfold wrapM. destruct (Hm w) as (l & E & Hl). destruct (m w) as [[]]; by exists l. Qed.
#[export] Instance sends_pool {A} (s : Stmt A) : Sends P (poolExec s).
Proof.
  apply sends_nothing. intros w. unfold poolExec, nextEvent.
  assert (forall f w, w_out (commitOther f w) = w_out w) as Hc by (intros f w0; unfold commitOther; by destruct (w_tx w0)).
  destruct (w_env w) as [|e env]; [|destruct (ev_fault e)]; cbn [fst snd];
    repeat match goal with |- context [match s ?a ?b with _ => _ end] => destruct (s a b) as [[?|?] ?] end;
    cbn [fst snd]; by rewrite ?Hc.
Qed.
(** Steps of a transaction change the database, not the outputs. *)
Lemma nextEvent_out w : w_out (nextEvent w).2 = w_out w.
Proof. unfold nextEvent. destruct (w_env w) as [|e env]; [done|]. cbn. unfold commitOther. by destruct (w_tx _). Qed.
#[export] Instance sends_begin : Sends P txBegin.
Proof.
  apply sends_nothing. intros w. unfold txBegin. pose proof (nextEvent_out w) as E.
  destruct (nextEvent w) as [[] w']; exact E.
Qed.
#[export] Instance sends_exec {A} (s : Stmt A) : Sends P (txExec s).
Proof.
  apply sends_nothing. intros w. unfold txExec. pose proof (nextEvent_out w) as E. destruct (nextEvent w) as [fault w']. cbn in E.
  destruct (w_tx w') as [t|]; [|exact E]. destruct (tx_aborted t); [exact E|]. destruct fault; try exact E.
  destruct (s (w_now w') (tx_db t)) as [[a|er] db']; exact E.
Qed.
#[export] Instance sends_commit : Sends P txCommit.
Proof.
  apply sends_nothing. intros w. unfold txCommit. pose proof (nextEvent_out w) as E. destruct (nextEvent w) as [fault w']. cbn in E.
  destruct (w_tx w') as [t|]; [|exact E]. destruct (tx_aborted t); [exact E|]. by destruct fault.
Qed.
#[export] Instance sends_withTx {A} (m : M A) : Sends P m -> Sends P (withTx m).
Proof.
  intros Hm. unfold withTx. apply sends_bind; [apply _|]. intros _ w. destruct (Hm w) as (l & E & Hl).
  destruct (m w) as [r w']. by exists l.
Qed.
#[export] Instance sends_scan {A} (m : M (option A)) : Sends P m -> Sends P (scanRow m).
Proof. intros Hm. unfold scanRow. apply sends_bind; [done|]. intros []; apply _. Qed.
Lemma sends_emit o : P o -> Sends P (emit o).
Proof. intros H w. exists [o]. split; [done|by constructor]. Qed.
#[export] Instance sends_uuid : Sends P newUUID.
Proof. by apply sends_nothing. Qed.
#[export] Instance sends_ignore {A} (m : M A) : Sends P m -> Sends P (ignoreM m).
Proof. intros Hm. unfold ignoreM. apply _. Qed.
Lemma sends_forM {A} (l : list A) f : (forall x, Sends P (f x)) -> Sends P (forM_ l f).
Proof. intros Hf. induction l as [|x l IH]; cbn [forM_]; apply _. Qed.
#[export] Instance sends_result {A} (r : result A) : Sends P (ofResult r).
Proof. destruct r; apply _. Qed.
End sends.
#[export] Existing Instances sends_ret sends_throw sends_bind sends_try sends_wrap sends_pool sends_uuid sends_ignore sends_result
  sends_begin sends_exec sends_commit sends_withTx sends_scan.
