(* ===== verification/GoUrl.v ===== *)
(** * Package net/url

    Query escaping, [url.Values] with its encoder, and the parser of query
    strings: what was encoded is what is parsed. *)

From S2P Require Import Prelude GoSort GoBytes GoRegexp GoStrings.

(** ** The definitions *)

(** Letters, digits and [-_.~]. *)
Definition unreserved (b : Z) : bool :=
  ((48 <=? b) && (b <=? 57)) || ((65 <=? b) && (b <=? 90)) || ((97 <=? b) && (b <=? 122))
  || (b =? 45) || (b =? 46) || (b =? 95) || (b =? 126).

Definition upperHex (n : Z) : Z := if n <? 10 then 48 + n else 55 + n.

Definition escapeByte (b : Z) : list Z :=
  if b =? 32 then [43]
  else if unreserved b then [b]
  else [37; upperHex (Z.shiftr b 4); upperHex (Z.land b 15)].

(** [url.QueryEscape] *)
Definition QueryEscape (l : list Z) : list Z := concat (escapeByte <$> l).

(** [url.QueryUnescape]; [None] is an error. *)
Fixpoint QueryUnescape (l : list Z) : option (list Z) :=
  match l with
  | [] => Some []
  | c :: l' =>
      if c =? 37 then
        match l' with
        | a :: b :: l'' =>
            match hexValue a, hexValue b with
            | Some x, Some y => cons (16 * x + y) <$> QueryUnescape l''
            | _, _ => None
            end
        | _ => None
        end
      else cons (if c =? 43 then 32 else c) <$> QueryUnescape l'
  end.

Definition ampersand : Z := 38.
Definition equalsSign : Z := 61.
Definition semicolon : Z := 59.

(** [url.Values] *)
Abbreviation Values := (gmap string (list string)) (only parsing).

Definition keyLess (x y : string * list string) : bool := bytesLt (bytesOf x.1) (bytesOf y.1).

Definition pairsOf (kv : string * list string) : list (string * string) := (fun x => (kv.1, x)) <$> kv.2.

(** The pairs in the order of [Encode]. *)
Definition valuePairs (v : Values) : list (string * string) :=
  concat (pairsOf <$> SliceStable keyLess (map_to_list v)).

Definition encodePair (kv : string * string) : list Z :=
  QueryEscape (bytesOf kv.1) ++ equalsSign :: QueryEscape (bytesOf kv.2).

Fixpoint joinBytes (sep : Z) (ls : list (list Z)) : list Z :=
  match ls with
  | [] => []
  | [l] => l
  | l :: ls' => l ++ sep :: joinBytes sep ls'
  end.

(** [Values.Encode] *)
Definition Encode (v : Values) : string := stringOf (joinBytes ampersand (encodePair <$> valuePairs v)).

Fixpoint splitBytes (sep : Z) (l : list Z) : list (list Z) :=
  match l with
  | [] => [[]]
  | c :: l' =>
      if c =? sep then [] :: splitBytes sep l'
      else match splitBytes sep l' with
           | w :: ws => (c :: w) :: ws
           | [] => [[c]]
           end
  end.

(** [strings.Cut]: without the separator the second part is empty. *)
Fixpoint cutBytes (sep : Z) (l : list Z) : list Z * list Z :=
  match l with
  | [] => ([], [])
  | c :: l' => if c =? sep then ([], l') else let '(a, b) := cutBytes sep l' in (c :: a, b)
  end.

Definition addValue (k x : string) (v : Values) : Values := <[k := default [] (v !! k) ++ [x]]> v.

(** One step of the loop of [url.ParseQuery]. *)
Definition parsePair (v : option Values) (seg : list Z) : option Values :=
  match v with
  | None => None
  | Some v =>
      if existsb (Z.eqb semicolon) seg then None
      else match seg with
      | [] => Some v
      | _ =>
          let '(k, x) := cutBytes equalsSign seg in
          match QueryUnescape k, QueryUnescape x with
          | Some k, Some x => Some (addValue (stringOf k) (stringOf x) v)
          | _, _ => None
          end
      end
  end.

(** [url.ParseQuery] of a query without errors. *)
Definition ParseQuery (q : string) : option Values :=
  foldl parsePair (Some ∅) (splitBytes ampersand (bytesOf q)).

(** ** Escaping *)

Lemma hexValue_upper n : 0 <= n < 16 -> hexValue (upperHex n) = Some n.
Proof.
  intros H. unfold upperHex, hexValue. destruct (Z.ltb_spec n 10).
  - rewrite (proj2 (Z.leb_le 48 (48 + n))), (proj2 (Z.leb_le (48 + n) 57)) by lia. cbn. f_equal. lia.
  - rewrite (proj2 (Z.leb_le 48 (55 + n))), (proj2 (Z.leb_gt (55 + n) 57)) by lia. cbn.
    rewrite (proj2 (Z.leb_gt 97 (55 + n))) by lia. cbn.
    rewrite (proj2 (Z.leb_le 65 (55 + n))), (proj2 (Z.leb_le (55 + n) 70)) by lia. cbn. f_equal. lia.
Qed.

Lemma unescape_escapeByte b l : isByte b -> QueryUnescape (escapeByte b ++ l) = cons b <$> QueryUnescape l.
Proof.
  intros Hb. unfold escapeByte. destruct (Z.eqb_spec b 32) as [->|]; [done|].
  destruct (unreserved b) eqn:E.
  - cbn [app QueryUnescape]. destruct (Z.eqb_spec b 37) as [->|]; [done|]. destruct (Z.eqb_spec b 43) as [->|]; [done|]. done.
  - cbn [app QueryUnescape]. destruct (nibbles b Hb) as (H1 & H2 & H3). cbn [Z.eqb Pos.eqb].
    rewrite !hexValue_upper by done. by rewrite <-H3.
Qed.

Lemma unescape_escape l : Forall isByte l -> QueryUnescape (QueryEscape l) = Some l.
Proof.
  unfold QueryEscape. induction 1 as [|b l Hb Hl IH]; [done|]. cbn [fmap list_fmap concat].
  rewrite unescape_escapeByte by done. change (concat _) with (concat (escapeByte <$> l)). by rewrite IH.
Qed.

(** The output has none of the separators. *)
Lemma escapeByte_safe b c : isByte b -> c ∈ escapeByte b -> c = 37 \/ c = 43 \/ unreserved c = true.
Proof.
  intros Hb. unfold escapeByte. destruct (b =? 32); [|destruct (unreserved b) eqn:E].
  - intros ->%list_elem_of_singleton. auto.
  - intros ->%list_elem_of_singleton. auto.
  - destruct (nibbles b Hb) as (H1 & H2 & _).
    assert (forall n, 0 <= n < 16 -> unreserved (upperHex n) = true) as Hu.
    { intros n Hn. unfold upperHex, unreserved. destruct (Z.ltb_spec n 10).
      - rewrite (proj2 (Z.leb_le 48 (48 + n))), (proj2 (Z.leb_le (48 + n) 57)) by lia. done.
      - rewrite (proj2 (Z.leb_le 65 (55 + n))), (proj2 (Z.leb_le (55 + n) 90)) by lia. by rewrite !orb_true_r. }
    intros [-> |[-> |[-> |?%elem_of_nil]%elem_of_cons]%elem_of_cons]%elem_of_cons; [by left| | |done]; right; right; auto.
Qed.

Lemma QueryEscape_safe l c : Forall isByte l -> c ∈ QueryEscape l -> c = 37 \/ c = 43 \/ unreserved c = true.
Proof.
  unfold QueryEscape. induction 1 as [|b l Hb Hl IH]; cbn [fmap list_fmap concat]; [by intros ?%elem_of_nil|].
  intros [H|H]%elem_of_app; [by eapply escapeByte_safe|by apply IH].
Qed.

Definition isSeparator (c : Z) : Prop := c = ampersand \/ c = equalsSign \/ c = semicolon.

Lemma QueryEscape_no_separator l c : Forall isByte l -> isSeparator c -> c ∉ QueryEscape l.
Proof. intros Hl Hc Hin. by destruct Hc as [-> |[-> | ->]]; destruct (QueryEscape_safe l _ Hl Hin) as [H|[H|H]]. Qed.

Lemma QueryEscape_isByte l : Forall isByte l -> Forall isByte (QueryEscape l).
Proof.
  intros Hl. apply Forall_forall. intros c Hc. destruct (QueryEscape_safe l c Hl Hc) as [-> |[-> |H]]; unfold isByte; [lia|lia|].
  unfold unreserved in H. repeat (apply orb_true_iff in H as [H|H]); zbool; lia.
Qed.

(** ** Splitting what was joined *)

Lemma splitBytes_none sep l : sep ∉ l -> splitBytes sep l = [l].
Proof.
  induction l as [|c l IH]; [done|]. rewrite not_elem_of_cons. intros [Hc Hl]. cbn.
  destruct (Z.eqb_spec c sep); [congruence|]. by rewrite IH.
Qed.

Lemma splitBytes_app sep l k : sep ∉ l -> splitBytes sep (l ++ sep :: k) = l :: splitBytes sep k.
Proof.
  induction l as [|c l IH]; cbn; [by rewrite Z.eqb_refl|]. rewrite not_elem_of_cons. intros [Hc Hl].
  destruct (Z.eqb_spec c sep); [congruence|]. by rewrite IH.
Qed.

Lemma split_joinBytes sep l ls : Forall (fun l => sep ∉ l) (l :: ls) -> splitBytes sep (joinBytes sep (l :: ls)) = l :: ls.
Proof.
  revert l. induction ls as [|k ls IH]; intros l [Hl Hls]%Forall_cons; [by apply splitBytes_none|].
  change (joinBytes sep (l :: k :: ls)) with (l ++ sep :: joinBytes sep (k :: ls)). rewrite splitBytes_app by done. by rewrite IH.
Qed.

Lemma cutBytes_app sep l k : sep ∉ l -> cutBytes sep (l ++ sep :: k) = (l, k).
Proof.
  induction l as [|c l IH]; cbn; [by rewrite Z.eqb_refl|]. rewrite not_elem_of_cons. intros [Hc Hl].
  destruct (Z.eqb_spec c sep); [congruence|]. by rewrite IH.
Qed.

Lemma parsePair_encoded v kv : parsePair (Some v) (encodePair kv) = Some (addValue kv.1 kv.2 v).
Proof.
  destruct kv as [k x]. unfold encodePair, parsePair. cbn [fst snd].
  set (seg := _ ++ _ :: _).
  assert (existsb (Z.eqb semicolon) seg = false) as ->.
  { apply not_true_is_false. intros (c & Hc & <-%Z.eqb_eq)%existsb_exists. apply list_elem_of_In in Hc.
    apply elem_of_app in Hc as [Hc|[?|Hc]%elem_of_cons]; [|done|]; revert Hc; apply QueryEscape_no_separator; (apply bytesOf_isByte || by right; right). }
  destruct seg as [|c0 seg0] eqn:E; [by destruct (QueryEscape (bytesOf k))|]. rewrite <-E. subst seg.
  rewrite cutBytes_app by (apply QueryEscape_no_separator; [apply bytesOf_isByte|by right; left]).
  rewrite !unescape_escape by apply bytesOf_isByte. by rewrite !stringOf_bytesOf.
Qed.

(** ** The round trip *)

Lemma addValues_lookup l v k : foldl (fun v kx => addValue kx.1 kx.2 v) v l !! k =
  match snd <$> List.filter (fun kx => String.eqb kx.1 k) l with
  | [] => v !! k
  | xs => Some (default [] (v !! k) ++ xs)
  end.
Proof.
  revert v. induction l as [|[j x] l IH]; intros v; [done|]. cbn [foldl List.filter fst snd]. rewrite IH. unfold addValue.
  destruct (String.eqb_spec j k) as [-> |Hn]; cbn [fmap list_fmap snd].
  - rewrite lookup_insert_eq. cbn [default]. destruct (snd <$> _) as [|y ys]; [done|]. cbn. by rewrite <-app_assoc.
  - by rewrite lookup_insert_ne by done.
Qed.

Lemma filter_pairs k (l : list (string * list string)) : NoDup l.*1 ->
  snd <$> List.filter (fun kx : string * string => String.eqb kx.1 k) (concat (pairsOf <$> l))
  = default [] ((list_to_map l : gmap string (list string)) !! k).
Proof.
  induction l as [|[j xs] l IH]; [done|]. cbn [fmap list_fmap concat fst snd list_to_map foldr uncurry]. intros [Hj Hl]%NoDup_cons.
  rewrite List.filter_app, fmap_app. change (concat _) with (concat (pairsOf <$> l)) in IH |- *.
  rewrite IH by done. destruct (decide (j = k)) as [-> |Hn].
  - rewrite lookup_insert_eq. cbn [default]. rewrite (not_elem_of_list_to_map_1 l k) by done. cbn [default]. rewrite app_nil_r.
    unfold pairsOf. cbn. induction xs as [|x xs IHx]; [done|]. cbn. rewrite String.eqb_refl. cbn. by f_equal.
  - rewrite lookup_insert_ne by done. unfold pairsOf. cbn [fst snd].
    assert (List.filter (fun kx => String.eqb kx.1 k) ((fun x => (j, x)) <$> xs) = []) as ->; [|done].
    induction xs as [|x xs IHx]; [done|]. cbn. destruct (String.eqb_spec j k); [done|]. exact IHx.
Qed.

Lemma ParseQuery_Encode v : (forall k, v !! k <> Some []) -> ParseQuery (Encode v) = Some v.
Proof.
  intros Hv. unfold ParseQuery, Encode. set (ps := valuePairs v).
  assert (foldl parsePair (Some ∅) (encodePair <$> ps) = Some (foldl (fun v kx => addValue kx.1 kx.2 v) ∅ ps)) as Hp.
  { generalize (∅ : gmap string (list string)). induction ps as [|kx ps IH]; intros m; [done|].
    change (encodePair <$> kx :: ps) with (encodePair kx :: (encodePair <$> ps)). cbn [foldl]. by rewrite parsePair_encoded. }
  assert (foldl (fun v kx => addValue kx.1 kx.2 v) ∅ ps = v) as Hm.
  { apply map_eq. intros k. rewrite addValues_lookup, lookup_empty. subst ps. unfold valuePairs. cbn [default].
    assert ((SliceStable keyLess (map_to_list v)) ≡ₚ map_to_list v) as Hperm by apply SliceStable_perm.
    assert (NoDup (SliceStable keyLess (map_to_list v)).*1) as Hnd by (rewrite Hperm; apply NoDup_fst_map_to_list).
    rewrite filter_pairs by done. rewrite (list_to_map_proper _ _ Hnd Hperm), list_to_map_to_list.
    destruct (v !! k) as [[|x xs]|] eqn:E; [by destruct (Hv k)|done|done]. }
  clearbody ps. destruct ps as [|kx ps]; [cbn; by f_equal|].
  rewrite bytesOf_stringOf.
  - change (encodePair <$> kx :: ps) with (encodePair kx :: (encodePair <$> ps)).
    rewrite split_joinBytes; [by rewrite <-Hm, <-Hp|]. apply (Forall_fmap _ _ (kx :: ps)), Forall_true. intros [k x]. cbn.
    apply not_elem_of_app. split; [|apply not_elem_of_cons; split; [done|]]; (apply QueryEscape_no_separator; [apply bytesOf_isByte|by left]).
  - generalize (kx :: ps). clear. intros l. induction l as [|[k x] l IH]; [constructor|].
    assert (Forall isByte (encodePair (k, x))) as Hb.
    { apply Forall_app. split; [|constructor; [unfold isByte, equalsSign; lia|]]; apply QueryEscape_isByte, bytesOf_isByte. }
    change (encodePair <$> (k, x) :: l) with (encodePair (k, x) :: (encodePair <$> l)). cbn [joinBytes].
    destruct (encodePair <$> l); [done|]. apply Forall_app. split; [done|]. constructor; [unfold isByte, ampersand; lia|done].
Qed.
