(* ===== verification/Shards.v ===== *)
(** * Round-robin sharding

    The loop [for i, t := range tests { if i % total == index .. }] that the run
    manager, the worker and the gRPC service each have, with its counting facts:
    for a fixed [total] the shards 0 .. total-1 split the list. *)

From S2P Require Import Prelude.

Section roundRobin.
Context {A : Type}.

(** The elements whose position [i] has [i % total == index]; [i] is the
    position of the head. *)
Fixpoint roundRobinFrom (i total index : Z) (l : list A) : list A :=
  match l with
  | [] => []
  | t :: l' =>
      if Z.rem i total =? index then t :: roundRobinFrom (i + 1) total index l'
      else roundRobinFrom (i + 1) total index l'
  end.

Definition roundRobin (total index : Z) (l : list A) : list A :=
  roundRobinFrom 0 total index l.

Lemma roundRobinFrom_elem i total index l x :
  x ∈ roundRobinFrom i total index l <->
  exists k : nat, l !! k = Some x ∧ Z.rem (i + Z.of_nat k) total = index.
Proof.
  revert i. induction l as [|t l IH]; intros i; simpl.
  { split; [by intros ?%elem_of_nil|by intros (k & Hk & _)]. }
  assert (Htl : forall y, (exists k : nat, l !! k = Some y ∧ Z.rem (i + 1 + Z.of_nat k) total = index)
    -> exists k : nat, (t :: l) !! k = Some y ∧ Z.rem (i + Z.of_nat k) total = index).
  { intros y (k & Hk & He). exists (S k). split; [done|].
    by replace (i + Z.of_nat (S k)) with (i + 1 + Z.of_nat k) by lia. }
  split.
  - intros Hx. destruct (Z.rem i total =? index) eqn:E; zbool.
    + apply elem_of_cons in Hx as [->|Hx].
      * exists 0%nat. by rewrite Z.add_0_r.
      * apply Htl, IH, Hx.
    + apply Htl, IH, Hx.
  - intros ([|k] & Hk & He).
    + simpl in Hk. injection Hk as ->. rewrite Z.add_0_r in He.
      apply Z.eqb_eq in He as ->. by apply elem_of_cons; left.
    + assert (x ∈ roundRobinFrom (i + 1) total index l) as Hin.
      { apply IH. exists k. split; [done|].
        by replace (i + 1 + Z.of_nat k) with (i + Z.of_nat (S k)) by lia. }
      destruct (Z.rem i total =? index); [by apply elem_of_cons; right|done].
Qed.

Lemma roundRobin_elem total index l x :
  x ∈ roundRobin total index l <->
  exists k : nat, l !! k = Some x ∧ Z.rem (Z.of_nat k) total = index.
Proof. apply (roundRobinFrom_elem 0). Qed.

(** The shards of one modulus are a permutation of the list. *)
Lemma roundRobinFrom_partition i n l : 0 <= i -> (0 < n)%nat ->
  concat ((fun j : nat => roundRobinFrom i (Z.of_nat n) (Z.of_nat j) l) <$> seq 0 n) ≡ₚ l.
Proof.
  intros Hi Hn. revert i Hi. induction l as [|t l IH]; intros i Hi; simpl.
  { clear. induction (seq 0 n); done. }
  set (q := Z.to_nat (Z.rem i (Z.of_nat n))).
  assert (Hq : (q < n)%nat /\ Z.of_nat q = Z.rem i (Z.of_nat n)).
  { unfold q. pose proof (Z.rem_bound_pos i (Z.of_nat n) Hi ltac:(lia)). split; lia. }
  specialize (IH (i + 1) ltac:(lia)).
  assert (Hs : seq 0 n = seq 0 q ++ q :: seq (S q) (n - S q)).
  { replace n with (q + S (n - S q))%nat at 1 by lia. rewrite seq_app. done. }
  assert (Hne : forall ks, Forall (fun j => j <> q) ks ->
    (fun j : nat => if Z.rem i (Z.of_nat n) =? Z.of_nat j
       then t :: roundRobinFrom (i + 1) (Z.of_nat n) (Z.of_nat j) l
       else roundRobinFrom (i + 1) (Z.of_nat n) (Z.of_nat j) l) <$> ks
    = (fun j : nat => roundRobinFrom (i + 1) (Z.of_nat n) (Z.of_nat j) l) <$> ks).
  { intros ks Hks. apply list_fmap_ext. intros k j Hj.
    assert (Hjq : j <> q).
    { rewrite Forall_forall in Hks. apply Hks. by eapply list_elem_of_lookup_2. }
    replace (Z.rem i (Z.of_nat n) =? Z.of_nat j) with false; [done|].
    symmetry. apply Z.eqb_neq. lia. }
  rewrite Hs in IH |- *. rewrite !fmap_app, !fmap_cons, !concat_app, !concat_cons in *.
  rewrite (Hne (seq 0 q)), (Hne (seq (S q) (n - S q))).
  - rewrite <-(proj2 Hq), Z.eqb_refl. rewrite <-app_comm_cons, <-Permutation_middle.
    by rewrite IH.
  - apply Forall_forall. intros j [??]%elem_of_seq. lia.
  - apply Forall_forall. intros j [??]%elem_of_seq. lia.
Qed.

Lemma roundRobin_partition n l : (0 < n)%nat ->
  concat ((fun j : nat => roundRobin (Z.of_nat n) (Z.of_nat j) l) <$> seq 0 n) ≡ₚ l.
Proof. intros. by apply roundRobinFrom_partition. Qed.
End roundRobin.
