(* ===== verification/StateMachine.v ===== *)
(** * internal/runmanager/statemachine.go

    The table of legal run-state moves, the terminal test, and what follows from
    the table alone.  The database spells the cancelled status "cancelled", the
    model constant of the table spells it "canceled": [dbStatus] relates the two. *)

From S2P Require Import Prelude Model Effects.

Definition allowed (s : RunStatus) : list RunStatus :=
  if String.eqb s RunPending then [RunPlanning; RunCancelled; RunFailed]
  else if String.eqb s RunPlanning then [RunDispatching; RunCancelled; RunFailed]
  else if String.eqb s RunDispatching then [RunRunning; RunCancelled; RunFailed]
  else if String.eqb s RunRunning then [RunFinalizing; RunCancelled; RunFailed]
  else if String.eqb s RunFinalizing then [RunSucceeded; RunFailed]
  else [].

Definition IsTerminal (s : RunStatus) : bool :=
  String.eqb s RunSucceeded || String.eqb s RunFailed || String.eqb s RunCancelled.

Definition CanTransition (from to : RunStatus) : bool :=
  existsb (fun s => String.eqb s to) (allowed from).

Definition ErrInvalidTransition : error := ErrText "invalid run-state transition".

(** The model status a database status stands for. *)
Definition dbStatus (s : string) : RunStatus :=
  if String.eqb s "cancelled" then RunCancelled else s.

(** The CHECK constraint on [runs.status]. *)
Definition dbStatuses : list string :=
  ["pending"; "planning"; "dispatching"; "running"; "finalizing"; "succeeded"; "failed"; "cancelled"].

Definition dbTerminal (s : string) : Prop := s = "succeeded" \/ s = "failed" \/ s = "cancelled".

Lemma dbTerminal_known s : dbTerminal s -> s ∈ dbStatuses.
Proof. by intros [-> |[-> | ->]]; apply (bool_decide_unpack _). Qed.

Lemma dbTerminal_IsTerminal s : s ∈ dbStatuses -> dbTerminal s <-> IsTerminal (dbStatus s) = true.
Proof.
  intros H. unfold dbTerminal.
  repeat (apply elem_of_cons in H as [->|H]); try (by apply elem_of_nil in H);
    (split; [by intros [?|[?|?]]|by vm_compute; intros; auto]).
Qed.

(** Progress along the life of a run; every legal move increases it. *)
Definition rank (s : RunStatus) : Z :=
  if String.eqb s RunPending then 0
  else if String.eqb s RunPlanning then 1
  else if String.eqb s RunDispatching then 2
  else if String.eqb s RunRunning then 3
  else if String.eqb s RunFinalizing then 4
  else 5.

Lemma allowed_terminal s : IsTerminal s = true -> allowed s = [].
Proof.
  unfold IsTerminal. rewrite !orb_true_iff, !String.eqb_eq. by intros [[-> | ->]| ->].
Qed.

Lemma CanTransition_elem from to : CanTransition from to = true <-> to ∈ allowed from.
Proof.
  unfold CanTransition. rewrite existsb_exists, list_elem_of_In. split.
  - intros (x & Hx & He%String.eqb_eq). by subst x.
  - intros Hx. exists to. split; [done|]. apply String.eqb_refl.
Qed.

Lemma CanTransition_rank from to : CanTransition from to = true -> rank from < rank to.
Proof.
  rewrite CanTransition_elem. unfold allowed. intros H.
  repeat (case_match; zbool; subst); repeat (apply elem_of_cons in H as [->|H]);
    try (by apply elem_of_nil in H); done.
Qed.

(** One move of a database status, and a run of them. *)
Definition statusStep (s t : string) : Prop := CanTransition (dbStatus s) (dbStatus t) = true.
Definition statusPath : string -> string -> Prop := rtc statusStep.

#[export] Instance statusPath_preorder : PreOrder statusPath := _.

Lemma statusPath_terminal s t :
  IsTerminal (dbStatus s) = true -> statusPath s t -> t = s.
Proof.
  intros Hs [->|(u & Hu & _)]%rtc_inv; [done|].
  unfold statusStep in Hu. rewrite CanTransition_elem, allowed_terminal in Hu by done.
  by apply elem_of_nil in Hu.
Qed.

Lemma statusPath_rank s t : statusPath s t -> s = t \/ rank (dbStatus s) < rank (dbStatus t).
Proof.
  induction 1 as [|s u t Hu _ IH]; [by left|]. right.
  apply CanTransition_rank in Hu. destruct IH as [->|]; lia.
Qed.

Lemma statusPath_once s t : statusStep s t -> statusPath s t.
Proof. apply rtc_once. Qed.

#[export] Hint Resolve statusPath_once : teo.
