(* ===== verification/Lifecycle.v ===== *)
(** * Rows under interference

    What a service promises to the other sessions, and what it may rely on: a
    preorder on databases given row by row ([RowRel]).  [Guaranteed R m] says
    that as long as every other session's commits stay within [R], the commits
    of [m] stay within [R], whatever faults happen and wherever the others
    interleave.  The promise composes over the monad by instance resolution, so
    that an operation's theorem only has to look at its statements.

    [Evolves] is the relation the services share: a run keeps its identity and
    moves only along the state machine, a claimed shard never becomes pending
    again, a recorded plan or execution is never overwritten. *)

From S2P Require Import Prelude Model Scheduler Db Effects StateMachine.

(** ** Row relations *)

Record RowRel := mkRowRel {
  rel_runs : option run_row -> option run_row -> Prop;
  rel_plans : option plan_doc -> option plan_doc -> Prop;
  rel_shards : option shard_row -> option shard_row -> Prop;
  rel_tests : option test_row -> option test_row -> Prop;
  rel_execs : string * string * Z -> option exec_row -> option exec_row -> Prop;
  rel_tokens : option token_row -> option token_row -> Prop;
  rel_repos : option repo_row -> option repo_row -> Prop;
  rel_clusters : option cluster_row -> option cluster_row -> Prop;
  rel_flakes : option flake_row -> option flake_row -> Prop
}.

Class RowPreOrder (R : RowRel) := {
  rpo_runs :: PreOrder (rel_runs R);
  rpo_plans :: PreOrder (rel_plans R);
  rpo_shards :: PreOrder (rel_shards R);
  rpo_tests :: PreOrder (rel_tests R);
  rpo_execs k :: PreOrder (rel_execs R k);
  rpo_tokens :: PreOrder (rel_tokens R);
  rpo_repos :: PreOrder (rel_repos R);
  rpo_clusters :: PreOrder (rel_clusters R);
  rpo_flakes :: PreOrder (rel_flakes R)
}.

Record DBRel (R : RowRel) (d d' : DB) : Prop := mkDBRel {
  dr_runs k : rel_runs R (runs d !! k) (runs d' !! k);
  dr_plans k : rel_plans R (run_plans d !! k) (run_plans d' !! k);
  dr_shards k : rel_shards R (shards d !! k) (shards d' !! k);
  dr_tests k : rel_tests R (tests d !! k) (tests d' !! k);
  dr_execs k : rel_execs R k (test_executions d !! k) (test_executions d' !! k);
  dr_tokens k : rel_tokens R (unquarantine_tokens d !! k) (unquarantine_tokens d' !! k);
  dr_repos k : rel_repos R (repos d !! k) (repos d' !! k);
  dr_clusters k : rel_clusters R (failure_clusters d !! k) (failure_clusters d' !! k);
  dr_flakes k : rel_flakes R (flake_records d !! k) (flake_records d' !! k)
}.

#[export] Instance DBRel_preorder R `{!RowPreOrder R} : PreOrder (DBRel R).
Proof.
  split; [intros d; split; intros k; reflexivity|].
  intros a b c [] []; split; intros k; etransitivity; eauto.
Qed.

Section merge.
Context (R : RowRel) `{!RowPreOrder R}.

(** What others commit beside the locked rows is within the relation, and the
    transaction's view stays within it. *)
Lemma DBRel_lockMerge tx w fw : DBRel R w fw -> DBRel R w (lockMergeDB tx w fw).
Proof.
  intros []. split; intros k; simpl; rewrite lookup_lockMerge; case_decide; by first [done|reflexivity].
Qed.

Lemma DBRel_lockView tx w fw :
  DBRel R w tx -> DBRel R (lockMergeDB tx w fw) (lockViewDB tx w fw).
Proof.
  intros []. split; intros k; simpl; rewrite lookup_lockMerge, lookup_lockView;
    case_decide; by first [done|reflexivity].
Qed.
End merge.

(** ** The promise *)

Section guarantee.
Context (R : RowRel) `{!RowPreOrder R}.

(** The others stay within [R], and so does the transaction so far. *)
Record GoodWorld (w : World) : Prop := mkGoodWorld {
  gw_env : Forall (fun e => forall db, DBRel R db (ev_other e db)) (w_env w);
  gw_tx : forall t, w_tx w = Some t -> DBRel R (w_db w) (tx_db t)
}.

Definition Kept (w w' : World) : Prop := GoodWorld w' /\ DBRel R (w_db w) (w_db w').

Lemma Kept_refl w : GoodWorld w -> Kept w w.
Proof. intros. split; [done|reflexivity]. Qed.

Lemma Kept_trans w1 w2 w3 : Kept w1 w2 -> (GoodWorld w2 -> Kept w2 w3) -> Kept w1 w3.
Proof. intros [Hg H1] H. destruct (H Hg) as [Hg3 H2]. split; [done|by etransitivity]. Qed.

Class Guaranteed {A} (m : M A) : Prop :=
  guaranteed : forall w, GoodWorld w -> Kept w (m w).2.

Class StmtKeeps {A} (s : Stmt A) : Prop :=
  stmt_keeps : forall now db a db', s now db = (Ok a, db') -> DBRel R db db'.

#[export] Instance retM_guaranteed {A} (a : A) : Guaranteed (retM a).
Proof. intros w Hw. by apply Kept_refl. Qed.
#[export] Instance throwM_guaranteed {A} e : Guaranteed (@throwM A e).
Proof. intros w Hw. by apply Kept_refl. Qed.

#[export] Instance bindM_guaranteed {A B} (m : M A) (k : A -> M B) :
  Guaranteed m -> (forall a, Guaranteed (k a)) -> Guaranteed (bindM m k).
Proof.
  intros Hm Hk w Hw. unfold bindM. specialize (Hm w Hw).
  destruct (m w) as [[a|e] w'] eqn:E; simpl in *; [|done].
  eapply Kept_trans; [done|]. intros Hw'. by apply Hk.
Qed.

#[export] Instance tryM_guaranteed {A} (m : M A) : Guaranteed m -> Guaranteed (tryM m).
Proof. intros Hm w Hw. specialize (Hm w Hw). unfold tryM. by destruct (m w). Qed.
#[export] Instance wrapM_guaranteed {A} s (m : M A) : Guaranteed m -> Guaranteed (wrapM s m).
Proof. intros Hm w Hw. specialize (Hm w Hw). unfold wrapM. by destruct (m w) as [[]]. Qed.
#[export] Instance ignoreM_guaranteed {A} (m : M A) : Guaranteed m -> Guaranteed (ignoreM m).
Proof. intros Hm. unfold ignoreM. apply _. Qed.
#[export] Instance whenM_guaranteed b m : Guaranteed m -> Guaranteed (whenM b m).
Proof. intros Hm. destruct b; apply _. Qed.

#[export] Instance forM_guaranteed {A} (l : list A) (f : A -> M unit) :
  (forall x, Guaranteed (f x)) -> Guaranteed (forM_ l f).
Proof. intros Hf. induction l as [|x l IH]; simpl; apply _. Qed.

Lemma commitOther_kept (f : DB -> DB) w :
  GoodWorld w -> DBRel R (w_db w) (f (w_db w)) -> Kept w (commitOther f w).
Proof.
  intros [He Ht] Hf. unfold commitOther. destruct (w_tx w) as [t|] eqn:E.
  - split; [split; simpl; [done|]|apply (DBRel_lockMerge R); auto].
    intros t' [= <-]. simpl. apply DBRel_lockView; auto.
  - split; [|done]. split; simpl; [done|]. intros t. by rewrite E.
Qed.

Lemma nextEvent_kept w : GoodWorld w -> Kept w (nextEvent w).2.
Proof.
  intros Hw. unfold nextEvent. destruct (w_env w) as [|e env] eqn:E; simpl.
  { by apply Kept_refl. }
  destruct Hw as [He Ht]. rewrite E in He. apply Forall_cons in He as [He1 He2].
  apply (commitOther_kept (ev_other e) (w_set_env env w)); simpl; [|done].
  by split.
Qed.

#[export] Instance poolExec_guaranteed {A} (s : Stmt A) : StmtKeeps s -> Guaranteed (poolExec s).
Proof.
  intros Hs w Hw. unfold poolExec. pose proof (nextEvent_kept w Hw) as Hk.
  destruct (nextEvent w) as [fault w1]. simpl in Hk.
  destruct fault; simpl; [| done|];
    destruct (s (w_now w1) (w_db w1)) as [[a|er] db'] eqn:E; simpl; try done;
    (eapply Kept_trans; [exact Hk|]); intros Hw1; apply commitOther_kept; eauto.
Qed.

#[export] Instance txBegin_guaranteed : Guaranteed txBegin.
Proof.
  intros w Hw. unfold txBegin. pose proof (nextEvent_kept w Hw) as Hk.
  destruct (nextEvent w) as [fault w1]. simpl in Hk.
  destruct fault; simpl; try done.
  eapply Kept_trans; [done|]. intros [He Ht]. split; [|reflexivity].
  split; simpl; [done|]. intros t [= <-]. simpl. reflexivity.
Qed.

#[export] Instance txExec_guaranteed {A} (s : Stmt A) : StmtKeeps s -> Guaranteed (txExec s).
Proof.
  intros Hs w Hw. unfold txExec. pose proof (nextEvent_kept w Hw) as Hk.
  destruct (nextEvent w) as [fault w1]. simpl in Hk.
  destruct (w_tx w1) as [t|] eqn:Et; simpl; [|done].
  destruct (tx_aborted t) eqn:Ea; [done|].
  assert (Hset : forall t', DBRel R (tx_db t) (tx_db t') -> Kept w (w_set_tx (Some t') w1)).
  { intros t' Ht'. eapply Kept_trans; [done|]. intros [He Ht]. split; [|reflexivity].
    split; simpl; [done|]. intros ? [= <-]. etransitivity; [by apply Ht|done]. }
  destruct fault; simpl.
  - destruct (s (w_now w1) (tx_db t)) as [[a|er] db'] eqn:E; simpl; apply Hset; simpl.
    + eauto.
    + destruct (isServerError er); reflexivity.
  - apply Hset. reflexivity.
  - apply Hset. reflexivity.
Qed.

Lemma dropTx_kept w : GoodWorld w -> Kept w (w_set_tx None w).
Proof. intros [He Ht]. split; [by split|reflexivity]. Qed.

#[export] Instance txCommit_guaranteed : Guaranteed txCommit.
Proof.
  intros w Hw. unfold txCommit. pose proof (nextEvent_kept w Hw) as Hk.
  destruct (nextEvent w) as [fault w1]. simpl in Hk.
  destruct (w_tx w1) as [t|] eqn:Et; simpl; [|done].
  assert (Hd : Kept w (w_set_tx None w1)).
  { eapply Kept_trans; [done|]. apply dropTx_kept. }
  assert (Hc : Kept w (w_set_db (tx_db t) (w_set_tx None w1))).
  { eapply Kept_trans; [exact Hk|]. intros [He Ht]. split; [by split|]. simpl. by apply Ht. }
  destruct (tx_aborted t); [done|]. destruct fault; done.
Qed.

#[export] Instance withTx_guaranteed {A} (m : M A) : Guaranteed m -> Guaranteed (withTx m).
Proof.
  intros Hm. unfold withTx. apply bindM_guaranteed; [apply _|]. intros _ w Hw.
  specialize (Hm w Hw). destruct (m w) as [r w']. simpl in *.
  eapply Kept_trans; [done|]. apply dropTx_kept.
Qed.

#[export] Instance scanRow_guaranteed {A} (m : M (option A)) : Guaranteed m -> Guaranteed (scanRow m).
Proof. intros Hm. unfold scanRow. apply bindM_guaranteed; [done|]. intros []; apply _. Qed.

#[export] Instance query_keeps {A} (f : DB -> A) : StmtKeeps (query f).
Proof. intros now db a db' [= _ <-]. reflexivity. Qed.

(** Effects that leave the database and the transaction alone. *)
Lemma same_db_guaranteed {A} (m : M A) :
  (forall w, w_db (m w).2 = w_db w /\ w_tx (m w).2 = w_tx w /\ w_env (m w).2 = w_env w) ->
  Guaranteed m.
Proof.
  intros H w [He Ht]. destruct (H w) as (H1 & H2 & H3). split; [split|].
  - by rewrite H3.
  - rewrite H1, H2. done.
  - rewrite H1. reflexivity.
Qed.

#[export] Instance newUUID_guaranteed : Guaranteed newUUID.
Proof. by apply same_db_guaranteed. Qed.
#[export] Instance getNow_guaranteed : Guaranteed getNow.
Proof. by apply same_db_guaranteed. Qed.
#[export] Instance emit_guaranteed o : Guaranteed (emit o).
Proof. by apply same_db_guaranteed. Qed.
#[export] Instance getAgent_guaranteed : Guaranteed getAgent.
Proof. by apply same_db_guaranteed. Qed.
#[export] Instance setAgent_guaranteed a : Guaranteed (setAgent a).
Proof. by apply same_db_guaranteed. Qed.

#[export] Instance tryLock_guaranteed key : Guaranteed (tryLock key).
Proof.
  intros w Hw. unfold tryLock.
  pose proof (txExec_guaranteed (query (fun _ => tt)) (query_keeps _) w Hw) as Hk.
  by destruct (txExec (query (fun _ : DB => tt)) w) as [[] ?].
Qed.
End guarantee.

#[global] Typeclasses Opaque bindM withTx tryM wrapM ignoreM whenM scanRow poolExec txExec tryLock.

(** One step through the monad, down to the statements and to the calls whose
    promise is known. *)
Ltac guarantee_step :=
  match goal with
  | |- Guaranteed _ (bindM _ _) => apply bindM_guaranteed
  | |- Guaranteed _ (withTx _) => apply withTx_guaranteed
  | |- Guaranteed _ (forM_ _ _) => apply forM_guaranteed
  | |- Guaranteed _ (tryM _) => apply tryM_guaranteed
  | |- Guaranteed _ (ignoreM _) => apply ignoreM_guaranteed
  | |- Guaranteed _ (wrapM _ _) => apply wrapM_guaranteed
  | |- Guaranteed _ (whenM _ _) => apply whenM_guaranteed
  | |- Guaranteed _ (scanRow _) => apply scanRow_guaranteed
  | |- forall _, _ => intros
  | |- _ => solve [apply _]
  | |- Guaranteed _ (match _ with _ => _ end) => case_match
  end.
Ltac guarantee := repeat guarantee_step.

(** * How rows may change

    [Evolves]: what every service keeps and relies on.  A run keeps its
    identity, moves only along the table of statemachine.go and keeps its finish
    time once terminal; a shard keeps its place in the run and never becomes
    pending again; a stored manifest and a recorded execution stay as they are, a
    consumed token stays consumed; nothing is deleted.

    [NoFinalize]: no run that is not yet finalizing or succeeded becomes so, no
    shard gets an actual duration and no run gets worker minutes. *)


(** A relation on rows extended to insertion: a new row satisfies [P]; rows are
    not deleted. *)
Definition optRel {V} (P : V -> Prop) (R : V -> V -> Prop) (o o' : option V) : Prop :=
  match o, o' with
  | None, None => True
  | None, Some v => P v
  | Some v, Some v' => R v v'
  | Some _, None => False
  end.

Lemma optRel_preorder {V} (P : V -> Prop) R :
  PreOrder R -> (forall v v', P v -> R v v' -> P v') -> PreOrder (optRel P R).
Proof.
  intros [Hr Ht] HP. split.
  - intros [v|]; simpl; [apply Hr|done].
  - intros [a|] [b|] [c|]; simpl; try done; eauto.
Qed.

Definition always {V} (_ : V) : Prop := True.

Record runEvolves (r r' : run_row) : Prop := mkRunEvolves {
  re_status : r_status r ∈ dbStatuses ->
    statusPath (r_status r) (r_status r') /\ r_status r' ∈ dbStatuses;
  re_repo : r_repo_id r' = r_repo_id r;
  re_commit : r_commit_sha r' = r_commit_sha r;
  re_branch : r_branch r' = r_branch r;
  re_created : r_created_at r' = r_created_at r;
  re_key : rm_idempotency_key (r_meta r') = rm_idempotency_key (r_meta r);
  re_started : forall t, r_started_at r = Some t -> r_started_at r' = Some t;
  re_finished : dbTerminal (r_status r) ->
    r_status r' = r_status r /\ r_finished_at r' = r_finished_at r
}.

Record shardEvolves (s s' : shard_row) : Prop := mkShardEvolves {
  se_run : s_run_id s' = s_run_id s;
  se_index : s_index s' = s_index s;
  se_count : s_test_count s' = s_test_count s;
  se_created : s_created_at s' = s_created_at s;
  se_claimed : s_status s' = "pending" -> s_status s = "pending";
  se_replayed : is_Some (s_rescheduled_at s) -> is_Some (s_rescheduled_at s')
}.

Record testEvolves (t t' : test_row) : Prop := mkTestEvolves {
  te_repo : ts_repo_id t' = ts_repo_id t;
  te_fingerprint : ts_fingerprint t' = ts_fingerprint t;
  te_path : ts_path t' = ts_path t;
  te_name : ts_name t' = ts_name t;
  te_params : ts_params_hash t' = ts_params_hash t
}.

Record execEvolves (e e' : exec_row) : Prop := mkExecEvolves {
  xe_outcome : ex_outcome e' = ex_outcome e;
  xe_duration : ex_duration_ms e' = ex_duration_ms e;
  xe_started : ex_started_at e' = ex_started_at e;
  xe_cluster : forall c, ex_failure_cluster_id e = Some c -> ex_failure_cluster_id e' = Some c
}.

Record repoEvolves (r r' : repo_row) : Prop := mkRepoEvolves {
  oe_vcs : rp_vcs r' = rp_vcs r;
  oe_name : rp_full_name r' = rp_full_name r
}.

Record clusterEvolves (c c' : cluster_row) : Prop := mkClusterEvolves {
  ce_repo : fc_repo_id c' = fc_repo_id c;
  ce_fingerprint : fc_stack_fingerprint c' = fc_stack_fingerprint c;
  ce_first : fc_first_seen c' = fc_first_seen c
}.

Record tokenEvolves (t t' : token_row) : Prop := mkTokenEvolves {
  ke_test : ut_test_id t' = ut_test_id t;
  ke_expires : ut_expires_at t' = ut_expires_at t;
  ke_consumed : is_Some (ut_consumed_at t) -> is_Some (ut_consumed_at t')
}.

#[export] Instance runEvolves_preorder : PreOrder runEvolves.
Proof.
  split.
  { intros r. split; done. }
  intros a b c [] []. split; try (etransitivity; eauto; done).
  - intros H. destruct re_status0 as [? H']; [done|]. destruct re_status1; [done|].
    split; [by etransitivity|done].
  - intros H. destruct re_finished0 as [He ?]; [done|]. rewrite <-He in H.
    destruct re_finished1; [done|]. split; congruence.
Qed.
#[export] Instance shardEvolves_preorder : PreOrder shardEvolves.
Proof. split; [by split|]. intros a b c [] []. split; try (etransitivity; eauto; done); auto. Qed.
#[export] Instance testEvolves_preorder : PreOrder testEvolves.
Proof. split; [by split|]. intros a b c [] []. split; etransitivity; eauto. Qed.
#[export] Instance execEvolves_preorder : PreOrder execEvolves.
Proof. split; [by split|]. intros a b c [] []. split; try (etransitivity; eauto; done). Qed.
#[export] Instance tokenEvolves_preorder : PreOrder tokenEvolves.
Proof. split; [by split|]. intros a b c [] []. split; try (etransitivity; eauto; done); auto. Qed.

#[export] Instance repoEvolves_preorder : PreOrder repoEvolves.
Proof. split; [by split|]. intros a b c [] []. split; etransitivity; eauto. Qed.
#[export] Instance clusterEvolves_preorder : PreOrder clusterEvolves.
Proof. split; [by split|]. intros a b c [] []. split; etransitivity; eauto. Qed.

(** Rows of which only the existence is kept. *)
Definition kept {V} (_ _ : V) : Prop := True.
#[export] Instance kept_preorder {V} : PreOrder (@kept V).
Proof. by split. Qed.

(** A run is born pending. *)
Definition newRun (r : run_row) : Prop :=
  statusPath "pending" (r_status r) /\ r_status r ∈ dbStatuses.

Definition Evolves : RowRel :=
  mkRowRel (optRel newRun runEvolves) (optRel always eq) (optRel always shardEvolves)
    (optRel always testEvolves) (fun _ => optRel always execEvolves) (optRel always tokenEvolves)
    (optRel always repoEvolves) (optRel always clusterEvolves) (optRel always kept).

#[export] Instance Evolves_preorder : RowPreOrder Evolves.
Proof.
  split; simpl; try intros _; apply optRel_preorder; try apply _; try done.
  intros r r' [Hp Hk] []. destruct re_status0; [done|]. split; [by etransitivity|done].
Qed.

(** ** Never finalizing, never measuring *)

Definition unfinalized (r : run_row) : Prop :=
  r_status r <> "finalizing" /\ r_status r <> "succeeded".

Definition unfinalizedOpt (o : option run_row) : Prop :=
  match o with Some r => unfinalized r | None => True end.

Definition unmeasuredOpt (o : option shard_row) : Prop :=
  match o with Some s => s_actual_duration_ms s = None | None => True end.

Definition unpricedOpt (o : option run_row) : Prop :=
  match o with Some r => r_spot_minutes r = 0 /\ r_on_demand_minutes r = 0 | None => True end.

Definition anyRel {V} (_ _ : option V) : Prop := True.

Definition NoFinalize : RowRel :=
  mkRowRel (fun o o' => (unfinalizedOpt o -> unfinalizedOpt o') /\ (unpricedOpt o -> unpricedOpt o')) anyRel (fun o o' => unmeasuredOpt o -> unmeasuredOpt o')
    anyRel (fun _ => anyRel) anyRel anyRel anyRel anyRel.

#[export] Instance NoFinalize_preorder : RowPreOrder NoFinalize.
Proof. split; split; simpl; unfold anyRel; repeat intros ?; naive_solver. Qed.

(** ** Statements that touch one table *)

Section keeps.
Context (R : RowRel) `{!RowPreOrder R}.

Lemma DBRel_runs db t :
  (forall k, rel_runs R (runs db !! k) (t !! k)) -> DBRel R db (set_runs t db).
Proof. intros H. split; intros k; simpl; [apply H|reflexivity..]. Qed.
Lemma DBRel_plans db t :
  (forall k, rel_plans R (run_plans db !! k) (t !! k)) -> DBRel R db (set_run_plans t db).
Proof. intros H. split; intros k; simpl; first [apply H|reflexivity]. Qed.
Lemma DBRel_shards db t :
  (forall k, rel_shards R (shards db !! k) (t !! k)) -> DBRel R db (set_shards t db).
Proof. intros H. split; intros k; simpl; first [apply H|reflexivity]. Qed.
Lemma DBRel_tests db t :
  (forall k, rel_tests R (tests db !! k) (t !! k)) -> DBRel R db (set_tests t db).
Proof. intros H. split; intros k; simpl; first [apply H|reflexivity]. Qed.
Lemma DBRel_execs db t :
  (forall k, rel_execs R k (test_executions db !! k) (t !! k)) -> DBRel R db (set_test_executions t db).
Proof. intros H. split; intros k; simpl; first [apply H|reflexivity]. Qed.
Lemma DBRel_tokens db t :
  (forall k, rel_tokens R (unquarantine_tokens db !! k) (t !! k)) ->
  DBRel R db (set_unquarantine_tokens t db).
Proof. intros H. split; intros k; simpl; first [apply H|reflexivity]. Qed.
Lemma DBRel_clusters db t :
  (forall k, rel_clusters R (failure_clusters db !! k) (t !! k)) -> DBRel R db (set_failure_clusters t db).
Proof. intros H. split; intros k; simpl; first [apply H|reflexivity]. Qed.
Lemma DBRel_repos db t : (forall k, rel_repos R (repos db !! k) (t !! k)) -> DBRel R db (set_repos t db).
Proof. intros H. split; intros k; simpl; first [apply H|reflexivity]. Qed.
Lemma DBRel_installations db t : DBRel R db (set_github_installations t db).
Proof. split; intros k; simpl; reflexivity. Qed.
Lemma DBRel_flakes db t : (forall k, rel_flakes R (flake_records db !! k) (t !! k)) -> DBRel R db (set_flake_records t db).
Proof. intros H. split; intros k; simpl; first [apply H|reflexivity]. Qed.

(** One inserted row, one updated row. *)
Lemma insert_row {V} (S : option V -> option V -> Prop) `{!Reflexive S} {K} `{Countable K}
    (t : gmap K V) id v k :
  S (t !! id) (Some v) -> S (t !! k) (<[id := v]> t !! k).
Proof.
  intros H1. destruct (decide (k = id)) as [->|].
  - by rewrite lookup_insert_eq.
  - by rewrite lookup_insert_ne.
Qed.

Lemma insert_keyed {V} {K} `{Countable K} (S : K -> option V -> option V -> Prop) `{!forall k, Reflexive (S k)}
    (t : gmap K V) id v k :
  S id (t !! id) (Some v) -> S k (t !! k) (<[id := v]> t !! k).
Proof.
  intros H1. destruct (decide (k = id)) as [->|].
  - by rewrite lookup_insert_eq.
  - by rewrite lookup_insert_ne.
Qed.

Lemma updateRow_row {V} (S : option V -> option V -> Prop) `{!Reflexive S}
    (t : gmap string V) id g f k :
  (forall v, t !! id = Some v -> g v = true -> S (Some v) (Some (f v))) ->
  S (t !! k) ((updateRow id g f t).1 !! k).
Proof.
  intros H1. rewrite updateRow_lookup. case_decide; [subst k|reflexivity].
  destruct (t !! id) as [v|]; simpl; [|reflexivity].
  destruct (g v) eqn:E; [by apply H1|reflexivity].
Qed.
End keeps.
