(* ===== verification/Predictor.v ===== *)
(** * internal/predictor

    The [Predictor] interface the run manager plans with, and its three
    implementations: the rolling-statistics [Heuristic] over the execution
    tables, the client of the ML service (the service is a parameter), and the
    [Fallback] composite. *)

From S2P Require Import Prelude GoSort GoFloat Model Scheduler Db Effects StateMachine.
From S2P Require Import Lifecycle.

Record Prediction := mkPrediction {
  pr_Fingerprint : string;
  pr_P50DurationMS : Z;
  pr_P95DurationMS : Z;
  pr_FlakeProbability : float32;
  pr_IsColdStart : bool
}.

Definition zeroPrediction : Prediction := mkPrediction "" 0 0 0 false.

(** An interface value. *)
Record Predictor := mkPredictor {
  Predict : string -> list TestEntry -> M (list Prediction)
}.

(** What the run manager relies on: predicting commits nothing of its own. *)
Class PredictorLaws (p : Predictor) : Prop :=
  predict_guaranteed : forall R (_ : RowPreOrder R) repo ts, Guaranteed R (Predict p repo ts).

(** What an implementation promises besides: one prediction per test. *)
Definition answersAll (p : Predictor) : Prop :=
  forall repo ts w preds w', Predict p repo ts w = (Ok preds, w') -> length preds = length ts.

(** ** Heuristic *)

Module Heuristic.

Record t := mk {
  Pool : bool;
  WindowDays : Z;
  Defaults : gmap string Z
}.

Definition NewHeuristic : t :=
  mk true 30 (<["pytest" := 1200]> (<["go" := 500]> (<["jest" := 1500]> ∅))).

Record stat := mkStat {
  st_attempts : Z;
  st_p50 : Z;
  st_p95 : Z;
  st_flakeRate : float32
}.

Definition defaultFor (h : t) (runner : string) : Z :=
  match Defaults h !! runner with Some v => v | None => 1200 end.

Definition statKey (path name : string) : string := path +:+ "::" +:+ name.

Definition coldStart (h : t) (e : TestEntry) : Prediction :=
  mkPrediction (statKey (te_Path e) (te_Name e)) (defaultFor h "")
    (mul64 (defaultFor h "") 3) 0 true.

Definition coldOnly (h : t) (tests : list TestEntry) : list Prediction :=
  coldStart h <$> tests.

(** [SELECT id FROM teo.repos WHERE full_name = $1 AND vcs = 'github'] *)
Definition selectRepoID (full_name : string) (db : DB) : option string :=
  (fun kv => kv.1) <$> head (List.filter
    (fun kv : string * repo_row => String.eqb (rp_full_name kv.2) full_name && String.eqb (rp_vcs kv.2) "github")
    (map_to_list (repos db))).

Definition thirtyDays : Z := 30 * 24 * 3600 * 1000000.

Definition failedOutcome (o : string) : bool :=
  String.eqb o "failed" || String.eqb o "errored" || String.eqb o "timed_out".

(** The CTE [recent], of one test: the executions of the repo's runs in the last
    30 days. *)
Definition recentOf (now : Z) (repoID testID : string) (db : DB) : list exec_row :=
  (fun kv => kv.2) <$> List.filter
    (fun kv : (string * string * Z) * exec_row =>
       String.eqb kv.1.1.2 testID
       && match shards db !! kv.1.1.1 with
          | Some s => match runs db !! s_run_id s with
                      | Some r => String.eqb (r_repo_id r) repoID
                      | None => false
                      end
          | None => false
          end
       && (now - thirtyDays <? ex_started_at kv.2))
    (map_to_list (test_executions db)).

(** [percentile_disc(num/den) WITHIN GROUP (ORDER BY d)]; NULL of no rows. *)
Definition percentile_disc (num den : Z) (ds : list Z) : option Z :=
  let sorted := SliceStable Z.ltb ds in
  let n := Z.of_nat (length ds) in
  sorted !! Z.to_nat (Z.max 1 ((num * n + den - 1) / den) - 1).

(** One row of the result; an integer column can be NULL. *)
Record statRow := mkStatRow {
  sr_path : string;
  sr_name : string;
  sr_attempts : Z;
  sr_p50 : option Z;
  sr_p95 : option Z;
  sr_flake_rate : float64
}.

Definition liveTests (repoID : string) (db : DB) : list (string * test_row) :=
  List.filter (fun kv => String.eqb (ts_repo_id kv.2) repoID && negb (String.eqb (ts_status kv.2) "deleted"))
    (map_to_list (tests db)).

Definition statRowOf (now : Z) (repoID path name : string) (db : DB) : statRow :=
  let members := List.filter
    (fun kv : string * test_row => String.eqb (ts_path kv.2) path && String.eqb (ts_name kv.2) name)
    (liveTests repoID db) in
  let per := (fun kv : string * test_row => recentOf now repoID kv.1 db) <$> members in
  let recent := concat per in
  let ds := ex_duration_ms <$> recent in
  let fails := Z.of_nat (length (List.filter (fun e => failedOutcome (ex_outcome e)) recent)) in
  let rowsOf := sumZ ((fun l => Z.max 1 (Z.of_nat (length l))) <$> per) in
  mkStatRow path name (Z.of_nat (length ds)) (percentile_disc 1 2 ds) (percentile_disc 19 20 ds)
    (f64_div (f64_ofZ fails) (f64_ofZ (Z.max rowsOf 1))).

Definition selectStats (repoID : string) : Stmt (list statRow) := fun now db =>
  (Ok ((fun pn => statRowOf now repoID pn.1 pn.2 db)
       <$> remove_dups ((fun kv : string * test_row => (ts_path kv.2, ts_name kv.2)) <$> liveTests repoID db)),
   db).

(** [rows.Scan]: a NULL does not scan into an int. *)
Definition scanStat (r : statRow) : result stat :=
  match sr_p50 r, sr_p95 r with
  | Some p50, Some p95 => Ok (mkStat (sr_attempts r) p50 p95 (f32_of64 (sr_flake_rate r)))
  | _, _ => Err (ErrText "cannot scan NULL into *int")
  end.

Fixpoint collectStats (rows : list statRow) (out : gmap string stat) : result (gmap string stat) :=
  match rows with
  | [] => Ok out
  | r :: rows' =>
      match scanStat r with
      | Ok s => collectStats rows' (<[statKey (sr_path r) (sr_name r) := s]> out)
      | Err e => Err e
      end
  end.

Definition loadStats (repoID : string) : M (gmap string stat) :=
  rows ←! poolExec (selectStats repoID) ;
  match collectStats rows ∅ with Ok m => retM m | Err e => throwM e end.

Definition predictOne (h : t) (stats : gmap string stat) (e : TestEntry) : Prediction :=
  let key := statKey (te_Path e) (te_Name e) in
  match stats !! key with
  | Some s =>
      if 3 <=? st_attempts s
      then mkPrediction key (st_p50 s) (st_p95 s) (st_flakeRate s) false
      else coldStart h e
  | None => coldStart h e
  end.

Definition predict (h : t) (repoFullName : string) (ts : list TestEntry) : M (list Prediction) :=
  if negb (Pool h) then throwM (ErrText "heuristic not configured")
  else match ts with
  | [] => retM []
  | _ =>
      r ←! tryM (scanRow (poolExec (query (selectRepoID repoFullName)))) ;
      match r with
      | Err _ => retM (coldOnly h ts)
      | Ok repoID =>
          st ←! tryM (loadStats repoID) ;
          match st with
          | Err _ => retM (coldOnly h ts)
          | Ok stats => retM (predictOne h stats <$> ts)
          end
      end
  end.

Definition impl (h : t) : Predictor := mkPredictor (predict h).

#[export] Instance impl_laws h : PredictorLaws (impl h).
Proof.
  intros R HR repo ts. simpl. unfold predict.
  assert (forall id, StmtKeeps R (selectStats id)) as Hs.
  { intros id now db a db' [= _ <-]. reflexivity. }
  assert (forall id, Guaranteed R (loadStats id)) as Hl.
  { intros id. unfold loadStats. guarantee. }
  guarantee.
Qed.

(** Once the heuristic is configured it always answers, one prediction per test
    in order, whatever the database does: an error anywhere becomes cold-start
    predictions. *)
Lemma heuristic_answers h repo ts w : Pool h = true ->
  exists preds w', predict h repo ts w = (Ok preds, w') /\ length preds = length ts /\
    forall i e, ts !! i = Some e ->
      exists p, preds !! i = Some p /\ pr_Fingerprint p = statKey (te_Path e) (te_Name e).
Proof.
  intros Hp. unfold predict. rewrite Hp. simpl.
  assert (Hcold : forall w1, exists preds w', retM (coldOnly h ts) w1 = (Ok preds, w')
    /\ length preds = length ts /\ forall i e, ts !! i = Some e ->
      exists p, preds !! i = Some p /\ pr_Fingerprint p = statKey (te_Path e) (te_Name e)).
  { intros w1. exists (coldOnly h ts), w1. unfold coldOnly. rewrite length_fmap.
    split_and!; [done|done|]. intros i e He. rewrite list_lookup_fmap, He. by eexists. }
  destruct ts as [|e0 ts0]; [by exists [], w|]. set (ts := e0 :: ts0) in *.
  unfold bindM at 1. unfold tryM at 1.
  destruct (scanRow _ w) as [[repoID|e] w1]; [|apply Hcold].
  unfold bindM, tryM.
  destruct (loadStats repoID w1) as [[stats|e] w2]; [|apply Hcold].
  eexists _, w2. split; [reflexivity|]. rewrite length_fmap. split; [done|].
  intros i e He. rewrite list_lookup_fmap, He. eexists; split; [reflexivity|].
  unfold predictOne. repeat case_match; done.
Qed.

End Heuristic.

(** ** MLClient *)

Module MLClient.

Record mlTestEntry := mkMlTestEntry {
  mte_Path : string;
  mte_Name : string;
  mte_ParamsHash : string;
  mte_Tags : list string
}.

Record mlPredictRequest := mkMlPredictRequest {
  mpq_RepoFullName : string;
  mpq_Tests : list mlTestEntry
}.

Record mlPrediction := mkMlPrediction {
  mp_Fingerprint : string;
  mp_P50DurationMS : Z;
  mp_P95DurationMS : Z;
  mp_FlakeProbability : float32;
  mp_IsColdStart : bool
}.

Record mlPredictResponse := mkMlPredictResponse {
  mpr_Predictions : list mlPrediction;
  mpr_UsedFallback : bool
}.

(** What the POST comes back with: no answer in time, or a status code and the
    body if it decodes. *)
Inductive reply :=
  | Transport
  | Response (code : Z) (body : option mlPredictResponse).

Record t := mk {
  BaseURL : string;
  Timeout : Z;
  OnServerColdStart : bool
}.

(** A time.Duration. *)
Definition NewMLClient (baseURL : string) (timeout : Z) : t :=
  mk baseURL (if timeout <=? 0 then 3 * 1000000000 else timeout) false.

Definition toMlEntry (e : TestEntry) : mlTestEntry :=
  mkMlTestEntry (te_Path e) (te_Name e) (te_ParamsHash e) (te_Tags e).

Definition ofMlPrediction (p : mlPrediction) : Prediction :=
  mkPrediction (mp_Fingerprint p) (mp_P50DurationMS p) (mp_P95DurationMS p)
    (mp_FlakeProbability p) (mp_IsColdStart p).

Section client.
(** The service: an answer to each request, given the URL and the deadline. *)
Context (post : string -> Z -> mlPredictRequest -> reply).

Definition predict (c : t) (repoFullName : string) (ts : list TestEntry) : M (list Prediction) :=
  if String.eqb (BaseURL c) "" then throwM (ErrText "ml client not configured")
  else match ts with
  | [] => retM []
  | _ =>
      match post (BaseURL c +:+ "/v1/predict") (Timeout c)
              (mkMlPredictRequest repoFullName (toMlEntry <$> ts)) with
      | Transport => throwM (ErrWrap "ml predict: transport" (ErrText "no response"))
      | Response code body =>
          if negb (code =? 200) then throwM (ErrText "ml predict: unexpected status")
          else match body with
          | None => throwM (ErrWrap "ml predict: decode response" (ErrText "json"))
          | Some out =>
              if negb (Nat.eqb (length (mpr_Predictions out)) (length ts))
              then throwM (ErrText "ml predict: length mismatch")
              else
                whenM (mpr_UsedFallback out && OnServerColdStart c)
                  (emit (OCounter "teo_predictor_server_coldstart_total")) ;!
                retM (ofMlPrediction <$> mpr_Predictions out)
          end
      end
  end.

Definition impl (c : t) : Predictor := mkPredictor (predict c).

#[export] Instance impl_laws c : PredictorLaws (impl c).
Proof. intros R HR repo ts. simpl. unfold predict. guarantee. Qed.

Lemma impl_answersAll c : answersAll (impl c).
Proof.
  intros repo ts w preds w'. simpl. unfold predict, throwM, retM, bindM, whenM, emit.
  repeat case_match; intros; simplify_eq/=; try done;
    rewrite length_fmap;
    by match goal with H : negb (Nat.eqb _ _) = false |- _ =>
         apply negb_false_iff, Nat.eqb_eq in H end.
Qed.
End client.

End MLClient.

(** ** Fallback *)

Module Fallback.

Record t := mk {
  Primary : option Predictor;
  Secondary : Predictor;
  OnFallback : bool
}.

Definition NewFallback (primary : option Predictor) (secondary : Predictor) : t :=
  mk primary secondary false.

Definition predict (f : t) (repoFullName : string) (ts : list TestEntry) : M (list Prediction) :=
  match Primary f with
  | None => Predict (Secondary f) repoFullName ts
  | Some primary =>
      r ←! tryM (Predict primary repoFullName ts) ;
      match r with
      | Ok preds =>
          if Nat.eqb (length preds) (length ts) then retM preds
          else
            whenM (OnFallback f) (emit (OCounter "teo_predictor_fallback_total")) ;!
            Predict (Secondary f) repoFullName ts
      | Err _ =>
          whenM (OnFallback f) (emit (OCounter "teo_predictor_fallback_total")) ;!
          Predict (Secondary f) repoFullName ts
      end
  end.

Definition impl (f : t) : Predictor := mkPredictor (predict f).

#[export] Instance impl_laws f :
  (forall p, Primary f = Some p -> PredictorLaws p) -> PredictorLaws (Secondary f) ->
  PredictorLaws (impl f).
Proof.
  intros Hp Hs R HR repo ts. simpl. unfold predict.
  pose proof (fun repo ts => Hs R HR repo ts) as Hs'.
  destruct (Primary f) as [p|] eqn:E; [|by apply Hs'].
  pose proof (Hp p eq_refl R HR repo ts).
  pose proof (Hs' repo ts). guarantee.
Qed.

(** Planning never fails for want of predictions: a fallback onto a
    configured heuristic answers with one prediction per test, whatever its
    primary does - errors, answers of the wrong length, no primary at all - and
    whatever the database does. *)
Theorem predict_total primary h onFallback repo ts w : Heuristic.Pool h = true ->
  exists preds w',
    predict (mk primary (Heuristic.impl h) onFallback) repo ts w = (Ok preds, w')
    /\ length preds = length ts.
Proof.
  intros Hh. unfold predict. simpl.
  assert (Hsec : forall w1, exists preds w', Heuristic.predict h repo ts w1 = (Ok preds, w')
    /\ length preds = length ts).
  { intros w1. destruct (Heuristic.heuristic_answers h repo ts w1 Hh) as (p & w' & ? & ? & _); eauto. }
  destruct primary as [p|]; [|apply Hsec].
  unfold bindM at 1. unfold tryM. destruct (Predict p repo ts w) as [[preds|e] w1].
  - destruct (Nat.eqb (length preds) (length ts)) eqn:El.
    + apply Nat.eqb_eq in El. by exists preds, w1.
    + destruct onFallback; simpl; unfold bindM, emit, retM; apply Hsec.
  - destruct onFallback; simpl; unfold bindM, emit, retM; apply Hsec.
Qed.

Definition demoWorld : World :=
  mkWorld emptyDB None 0 (fun _ => "") 0 ∅ [] [] idleAgent.

Lemma predict_total_witness :
  Heuristic.Pool Heuristic.NewHeuristic = true /\
  exists preds w',
    predict (mk (Some (MLClient.impl (fun _ _ _ => MLClient.Transport) (MLClient.NewMLClient "http://ml" 0)))
               (Heuristic.impl Heuristic.NewHeuristic) true)
      "acme/app" [mkTestEntry "a.py" "t1" "" "" []; mkTestEntry "a.py" "t2" "" "" []] demoWorld
    = (Ok preds, w') /\ length preds = 2%nat.
Proof. split; [reflexivity|]. apply predict_total. reflexivity. Defined.

End Fallback.
