(* ===== verification/RunManager.v ===== *)
(** * internal/runmanager/manager.go

    The reconciliation loop: every SQL statement as a [Stmt], every method of
    [Manager] over them.  The calls to NATS, S3, the observers and the metrics
    are outputs of the world; log lines are left out. *)

From S2P Require Import Prelude GoSort GoBytes Model Scheduler Db Effects Shards StateMachine.
From S2P Require Import Lifecycle Predictor.

Record Manager := mkManager {
  m_Predictor : Predictor;
  m_JS : bool;
  m_Metrics : bool;
  m_Observers : nat;
  m_PlanStore : bool
}.

(** ** SQL conventions *)

Definition int4 (z : Z) : bool := (min_int32 <=? z) && (z <=? max_int32).

(** A Go int the driver cannot encode as int4. *)
Definition errEncode : error := ErrText "unable to encode: greater than maximum value for int4".

(** [UPDATE teo.runs SET .. WHERE id = $1 AND guard], with the trigger that sets
    updated_at; the number of rows affected. *)
Definition updateRun (id : string) (guard : run_row -> bool) (f : run_row -> run_row) : Stmt Z :=
  fun now db =>
    let '(t, n) := updateRow id guard (fun r => r_set_updated_at now (f r)) (runs db) in
    (Ok n, set_runs t db).

Definition updateShard (id : string) (guard : shard_row -> bool) (f : shard_row -> shard_row) : Stmt Z :=
  fun _ db =>
    let '(t, n) := updateRow id guard f (shards db) in (Ok n, set_shards t db).

Definition statusIs (s : string) (r : run_row) : bool := String.eqb (r_status r) s.
Definition statusIn (l : list string) (r : run_row) : bool := existsb (String.eqb (r_status r)) l.

#[global] Arguments statusIn : simpl never.
#[global] Arguments statusIs : simpl never.

Definition countShards (runID : string) (db : DB) : Z :=
  Z.of_nat (length (List.filter (fun kv : string * shard_row => String.eqb (s_run_id kv.2) runID)
    (map_to_list (shards db)))).

(** [INSERT INTO teo.shards (id, run_id, index, predicted_duration_ms, status,
    test_count) VALUES ($1, $2, $3, $4, 'pending', $5)]: the column types, the
    primary key, the reference to the run, UNIQUE (run_id, index). *)
Definition insertShard (id runID : string) (index predicted test_count : Z) : Stmt unit := fun now db =>
  if negb (int4 index && int4 predicted && int4 test_count) then (Err errEncode, db)
  else if bool_decide (is_Some (shards db !! id)) then (Err uniqueViolation, db)
  else if negb (bool_decide (is_Some (runs db !! runID))) then (Err (PgError "23503"), db)
  else if existsb (fun kv : string * shard_row => String.eqb (s_run_id kv.2) runID && (s_index kv.2 =? index))
            (map_to_list (shards db)) then (Err uniqueViolation, db)
  else (Ok tt, set_shards (<[id := mkShardRow runID index None predicted "pending" test_count
                                     None None now None None]> (shards db)) db).

(** ** Observers *)

Definition selectSnapshot (runID : string) (db : DB) : option RunSnapshot :=
  match runs db !! runID with
  | None => None
  | Some r =>
      match repos db !! r_repo_id r with
      | None => None
      | Some rp => Some (mkRunSnapshot runID (rp_full_name rp) (r_commit_sha r) (r_branch r)
          (r_status r) (r_started_at r) (r_finished_at r) (coalesce (r_total_duration_ms r) 0)
          (r_preemption_count r) (r_github_check_run_id r) (r_github_installation_id r))
      end
  end.

Definition snapshot (runID : string) : M RunSnapshot :=
  scanRow (poolExec (query (selectSnapshot runID))).

(** An observer's error is logged, the next one is called all the same. *)
Definition notifyObservers (m : Manager) (runID : string) (prev : RunStatus) : M unit :=
  if Nat.eqb (m_Observers m) 0 then retM tt
  else
    r ←! tryM (snapshot runID) ;
    match r with
    | Err _ => retM tt
    | Ok snap => forM_ (seq 0 (m_Observers m)) (fun i => emit (OObserve i snap prev))
    end.

(** ** plan *)

Definition stmtToPlanning (runID : string) : Stmt Z :=
  updateRun runID (statusIs "pending") (r_set_status "planning").

Definition selectRepoOfRun (runID : string) (db : DB) : option (string * string) :=
  match runs db !! runID with
  | None => None
  | Some r => (fun rp => (r_repo_id r, rp_full_name rp)) <$> repos db !! r_repo_id r
  end.

(** [json.Unmarshal] into a [TestManifest]: a plan document has none of its keys,
    so all fields stay zero. *)
Definition unmarshalManifest (d : plan_doc) : result TestManifest :=
  match d with
  | PDManifest mf => Ok mf
  | PDPlan _ => Ok (mkTestManifest "" [])
  | PDOther => Err (ErrText "json: cannot unmarshal")
  end.

(** The tests handed to the scheduler: prediction [i] if there is one. *)
Definition schedulerTests (tests : list TestEntry) (preds : list Prediction) : list Test :=
  imap (fun i e =>
    let p := default zeroPrediction (preds !! i) in
    mkTest e (pr_P50DurationMS p) (pr_IsColdStart p) (pr_FlakeProbability p) false) tests.

(** [planJSON, _ := json.Marshal(plan)]: nothing, hence SQL NULL, when a float is
    not finite. *)
Definition marshalPlan (p : Plan) : option Plan :=
  match jsonPlan p with Some _ => Some p | None => None end.

Definition stmtComputedPlan (runID : string) (p : option Plan) : Stmt Z :=
  updateRun runID (fun _ => true) (fun r => r_set_meta (rm_set_computed_plan p (r_meta r)) r).

Definition stmtToDispatching (runID : string) : Stmt Z := fun now =>
  updateRun runID (statusIs "planning")
    (fun r => r_set_started_at (Some (coalesce (r_started_at r) now)) (r_set_status "dispatching" r)) now.

Definition PlanObjectKey (runID : string) : string := "runs/" +:+ runID +:+ "/plan.json".

Definition archivePlan (m : Manager) (runID : string) (p : option Plan) : M unit :=
  whenM (m_PlanStore m) (emit (OUploadPlan (PlanObjectKey runID) p)).

Definition insertAssignment (runID : string) (a : Assignment) : M unit :=
  shardID ←! newUUID ;
  txExec (insertShard shardID runID (a_ShardIndex a) (a_PredictedDurationMS a)
            (Z.of_nat (length (a_Tests a)))).

Definition plan (m : Manager) (runID : string) : M unit :=
  txExec (stmtToPlanning runID) ;!
  repo ←! scanRow (txExec (query (selectRepoOfRun runID))) ;
  raw ←! wrapM "load manifest" (scanRow (txExec (query (fun db => run_plans db !! runID)))) ;
  match unmarshalManifest raw with
  | Err e => throwM e
  | Ok manifest =>
      preds ←! wrapM "predict" (Predict (m_Predictor m) repo.2 (tm_Tests manifest)) ;
      let tests := schedulerTests (tm_Tests manifest) preds in
      let p := PlanFunc tests (mkFleetSnapshot 0 []) DefaultConstraints in
      whenM (m_Metrics m) (emit (OCounter "teo_scheduler_plan_total")) ;!
      let planJSON := marshalPlan p in
      txExec (stmtComputedPlan runID planJSON) ;!
      archivePlan m runID planJSON ;!
      forM_ (p_Assignments p) (insertAssignment runID) ;!
      txExec (stmtToDispatching runID) ;!
      retM tt
  end.

(** ** dispatch *)

Definition selectComputedPlan (runID : string) (db : DB) : option (option (option Plan)) :=
  (fun r => rm_computed_plan (r_meta r)) <$> runs db !! runID.

(** What [json.Unmarshal] makes of the column: JSON null leaves a zero plan. *)
Definition decodePlan (o : option Plan) : Plan := default (mkPlan [] [] 0 0 "") o.

Record dispatchShard := mkDispatchShard {
  dsh_id : string;
  dsh_index : Z;
  dsh_ms : Z;
  dsh_repoFull : string
}.

Definition selectPendingShards (runID : string) (db : DB) : list dispatchShard :=
  omap (fun kv : string * shard_row =>
    if String.eqb (s_run_id kv.2) runID && String.eqb (s_status kv.2) "pending" then
      match selectRepoOfRun runID db with
      | Some (_, full) => Some (mkDispatchShard kv.1 (s_index kv.2) (s_predicted_duration_ms kv.2) full)
      | None => None
      end
    else None) (map_to_list (shards db)).

(** [plan.Assignments[i]] behind the test [i >= len]; an index is never negative. *)
Definition assignmentAt (p : Plan) (i : Z) : option Assignment :=
  if i <? 0 then None else p_Assignments p !! Z.to_nat i.

Definition publishShards (runID : string) (p : Plan) : M unit :=
  r ←! tryM (txExec (query (selectPendingShards runID))) ;
  match r with
  | Err _ => retM tt
  | Ok sms =>
      forM_ sms (fun sm =>
        match assignmentAt p (dsh_index sm) with
        | None => retM tt
        | Some a =>
            now ←! getNow ;
            emit (OPublish (mkShardDispatch runID (dsh_id sm) (dsh_repoFull sm) "pytest"
                    (t_Entry <$> a_Tests a) (a_PredictedDurationMS a) now))
        end)
  end.

Definition stmtToRunning (runID : string) : Stmt Z :=
  updateRun runID (statusIs "dispatching") (r_set_status "running").

Definition dispatch (m : Manager) (runID : string) : M unit :=
  whenM (m_JS m)
    (r ←! tryM (scanRow (txExec (query (selectComputedPlan runID)))) ;
     match r with
     | Ok (Some raw) => publishShards runID (decodePlan raw)
     | _ => retM tt
     end) ;!
  txExec (stmtToRunning runID) ;!
  retM tt.

(** ** finalize *)

Definition anyFailedShard (runID : string) (db : DB) : bool :=
  existsb (fun kv : string * shard_row => String.eqb (s_run_id kv.2) runID
      && (String.eqb (s_status kv.2) "failed" || String.eqb (s_status kv.2) "lost"))
    (map_to_list (shards db)).

(** [EXTRACT(EPOCH FROM d)::int * 1000] for a duration in microseconds: rounded
    to seconds, half away from zero. *)
Definition epochMS (d : Z) : Z := Z.sgn d * ((Z.abs d + 500000) / 1000000) * 1000.

Definition stmtFinalize (runID final : string) : Stmt Z := fun now db =>
  match runs db !! runID with
  | Some r =>
      if statusIs "finalizing" r then
        let ms := match r_started_at r with Some st => epochMS (now - st) | None => 0 end in
        if int4 ms then
          updateRun runID (statusIs "finalizing")
            (fun r => r_set_total_duration_ms (Some ms)
               (r_set_finished_at (Some now) (r_set_status final r))) now db
        else (Err (PgError "22003"), db)
      else (Ok 0, db)
  | None => (Ok 0, db)
  end.

Definition finalize (runID : string) : M unit :=
  anyFailed ←! txExec (query (anyFailedShard runID)) ;
  let final := if anyFailed : bool then RunFailed else RunSucceeded in
  txExec (stmtFinalize runID final) ;!
  retM tt.

(** ** tryHandle *)

(** FNV-1a, 64 bits, as a signed key. *)
Definition fnv64a (bs : list Z) : Z :=
  foldl (fun h b => (Z.lxor h b * 1099511628211) mod 2 ^ 64) 14695981039346656037 bs.

Definition runIDLockKey (runID : string) : Z := wrap64 (fnv64a (bytesOf runID)).

Definition stmtPlanFailed (runID : string) : Stmt Z := fun now =>
  updateRun runID (fun r => negb (statusIn ["cancelled"; "succeeded"; "failed"] r))
    (fun r => r_set_finished_at (Some now) (r_set_status "failed" r)) now.

(** The switch on the status read by the reconcile scan. *)
Definition handleStatus (m : Manager) (runID : string) (status : RunStatus) : M unit :=
  if String.eqb status RunPending then
    r ←! tryM (plan m runID) ;
    match r with
    | Err _ => ignoreM (txExec (stmtPlanFailed runID))
    | Ok _ => retM tt
    end
  else if String.eqb status RunDispatching then ignoreM (dispatch m runID)
  else if String.eqb status RunFinalizing then ignoreM (finalize runID)
  else retM tt.

(** The transaction of one step; [true] when it committed. *)
Definition tryHandleTx (m : Manager) (runID : string) (status : RunStatus) : M bool :=
  withTx
    (got ←! tryLock (runIDLockKey runID) ;
     if negb got then retM false
     else
       handleStatus m runID status ;!
       txCommit ;!
       retM true).

Definition tryHandle (m : Manager) (runID : string) (status : RunStatus) : M unit :=
  r ←! tryM (tryHandleTx m runID status) ;
  match r with
  | Ok true =>
      notifyObservers m runID status ;!
      whenM (m_Metrics m)
        (to ←! tryM (scanRow (poolExec (query (fun db => r_status <$> runs db !! runID)))) ;
         match to with
         | Ok s => emit (ORunTransition s)
         | Err _ => retM tt
         end)
  | _ => retM tt
  end.

(** ** reconcileOnce *)

Definition selectWork (db : DB) : list (string * RunStatus) :=
  take 50 ((fun kv : string * run_row => (kv.1, r_status kv.2)) <$>
    selectOrdered (fun _ r => statusIn ["pending"; "dispatching"; "finalizing"] r) r_created_at (runs db)).

Definition statusCount (s : string) (db : DB) : Z :=
  Z.of_nat (length (List.filter (fun kv : string * run_row => statusIs s kv.2) (map_to_list (runs db)))).

(** [SELECT status, count( * ) .. GROUP BY status] *)
Definition selectStatusCounts (db : DB) : list (string * Z) :=
  (fun s => (s, statusCount s db)) <$>
    remove_dups ((fun kv : string * run_row => r_status kv.2) <$> map_to_list (runs db)).

Definition gaugeStatuses : list string :=
  ["pending"; "planning"; "dispatching"; "running"; "finalizing"; "succeeded"; "failed"; "canceled"].

Definition refreshRunsActive : M unit :=
  r ←! tryM (poolExec (query selectStatusCounts)) ;
  match r with
  | Err _ => retM tt
  | Ok rows =>
      forM_ gaugeStatuses (fun st => emit (ORunsActive st 0)) ;!
      forM_ rows (fun row => emit (ORunsActive row.1 row.2))
  end.

Definition reconcileOnce (m : Manager) : M unit :=
  r ←! tryM (poolExec (query selectWork)) ;
  match r with
  | Err _ => retM tt
  | Ok work =>
      forM_ work (fun t => tryHandle m t.1 t.2) ;!
      whenM (m_Metrics m) refreshRunsActive
  end.

(** ** reschedulePreempted *)

Record planTest := mkPlanTest {
  pt_Path : string;
  pt_Name : string;
  pt_ParamsHash : string
}.

(** The sweep's own struct has three fields: the others are not decoded. *)
Definition toPlanTest (e : TestEntry) : planTest :=
  mkPlanTest (te_Path e) (te_Name e) (te_ParamsHash e).

(** What its JSON decodes to as a [TestManifest] later. *)
Definition ofPlanTest (t : planTest) : TestEntry :=
  mkTestEntry (pt_Path t) (pt_Name t) (pt_ParamsHash t) "" [].

Definition unmarshalPlanTests (d : plan_doc) : result (string * list planTest) :=
  match unmarshalManifest d with
  | Ok mf => Ok (tm_Runner mf, toPlanTest <$> tm_Tests mf)
  | Err e => Err e
  end.

Definition doneKey (p n h : string) : string := p +:+ "|" +:+ n +:+ "|" +:+ h.

(** The tests with an execution row of the shard. *)
Definition selectDone (shardID : string) (db : DB) : list string :=
  omap (fun kv : (string * string * Z) * exec_row =>
    if String.eqb kv.1.1.1 shardID then
      (fun t => doneKey (ts_path t) (ts_name t) (ts_params_hash t)) <$> tests db !! kv.1.1.2
    else None) (map_to_list (test_executions db)).

Definition remainingTests (done : list string) (intended : list planTest) : list planTest :=
  List.filter (fun t => negb (existsb (String.eqb (doneKey (pt_Path t) (pt_Name t) (pt_ParamsHash t))) done))
    intended.

Definition stmtShardReplayed (shardID : string) : Stmt Z := fun now =>
  updateShard shardID (fun _ => true)
    (fun s => s_set_rescheduled_at (Some now) (s_set_status "succeeded" s)) now.

Definition stmtShardRescheduled (shardID : string) : Stmt Z := fun now =>
  updateShard shardID (fun _ => true) (s_set_rescheduled_at (Some now)) now.

Definition stmtAddReshard (runID newShardID : string) (mf : TestManifest) : Stmt Z :=
  updateRun runID (fun _ => true) (fun r => r_set_meta (rm_add_reshard newShardID mf (r_meta r)) r).

Definition rescheduleOne (shardID runID : string) (index : Z) (planRaw : plan_doc) : M unit :=
  withTx
    (got ←! tryLock (runIDLockKey runID) ;
     if negb got then retM tt
     else match unmarshalPlanTests planRaw with
     | Err e => throwM (ErrWrap "decode manifest" e)
     | Ok (runner, mfTests) =>
         match mfTests with
         | [] => retM tt
         | _ =>
             totalShards ←! txExec (query (countShards runID)) ;
             if totalShards =? 0 then retM tt
             else
               let intended := roundRobin totalShards index mfTests in
               done ←! txExec (query (selectDone shardID)) ;
               let remaining := remainingTests done intended in
               match remaining with
               | [] =>
                   txExec (stmtShardReplayed shardID) ;!
                   txCommit
               | _ =>
                   newShardID ←! newUUID ;
                   txExec (insertShard newShardID runID totalShards 0 (Z.of_nat (length remaining))) ;!
                   txExec (stmtAddReshard runID newShardID
                             (mkTestManifest runner (ofPlanTest <$> remaining))) ;!
                   txExec (stmtShardRescheduled shardID) ;!
                   txCommit
               end
         end
     end).

Record preempted := mkPreempted {
  pe_shardID : string;
  pe_runID : string;
  pe_index : Z;
  pe_planRaw : plan_doc
}.

Definition selectPreempted (db : DB) : list preempted :=
  take 25 (omap (fun kv : string * shard_row =>
    let s := kv.2 in
    if (String.eqb (s_status s) "preempted" || String.eqb (s_status s) "lost")
       && negb (bool_decide (is_Some (s_rescheduled_at s))) then
      match run_plans db !! s_run_id s, runs db !! s_run_id s with
      | Some raw, Some r =>
          if statusIn ["dispatching"; "running"] r
          then Some (mkPreempted kv.1 (s_run_id s) (s_index s) raw) else None
      | _, _ => None
      end
    else None) (map_to_list (shards db))).

Definition reschedulePreempted : M unit :=
  r ←! tryM (poolExec (query selectPreempted)) ;
  match r with
  | Err _ => retM tt
  | Ok work => forM_ work (fun t =>
      ignoreM (rescheduleOne (pe_shardID t) (pe_runID t) (pe_index t) (pe_planRaw t)))
  end.

(** ** checkBudgets *)

(** [now() - started_at > make_interval(secs => k * budget_seconds)] *)
Definition overBudget (k now : Z) (r : run_row) : bool :=
  match r_budget_seconds r, r_started_at r with
  | Some b, Some st => k * b * 1000000 <? now - st
  | _, _ => false
  end.

Definition stmtFailOverBudget : Stmt unit := fun now db =>
  (Ok tt, set_runs (updateAll
    (fun _ r => statusIn ["planning"; "dispatching"; "running"] r && overBudget 1 now r)
    (fun r => r_set_updated_at now (r_set_meta (rm_set_failure_reason "budget_exceeded" (r_meta r))
       (r_set_finished_at (Some (coalesce (r_finished_at r) now)) (r_set_status "failed" r))))
    (runs db)) db).

(** [budget_seconds * 2] is an int4 product. *)
Definition selectStuck : Stmt Z := fun now db =>
  let late := List.filter (fun kv : string * run_row =>
    statusIn ["planning"; "dispatching"; "running"; "finalizing"] kv.2
    && bool_decide (is_Some (r_started_at kv.2)) && bool_decide (is_Some (r_budget_seconds kv.2)))
    (map_to_list (runs db)) in
  if forallb (fun kv : string * run_row => int4 (2 * default 0 (r_budget_seconds kv.2))) late
  then (Ok (Z.of_nat (length (List.filter (fun kv : string * run_row => overBudget 2 now kv.2) late))), db)
  else (Err (PgError "22003"), db).

Definition checkBudgets (m : Manager) : M unit :=
  ignoreM (poolExec stmtFailOverBudget) ;!
  whenM (m_Metrics m)
    (n ←! tryM (poolExec selectStuck) ;
     match n with Ok n => emit (ORunsStuck n) | Err _ => retM tt end).
