(* ===== verification/RunManagerSafe.v ===== *)
(** * The run manager under interference

    Every method of the manager keeps any row relation its statements keep; the
    statements keep [Evolves] and [NoFinalize]. *)

From S2P Require Import Prelude Model Scheduler Db Effects Shards StateMachine Lifecycle.
From S2P Require Import Predictor RunManager.

(** The writing statements of the manager. *)
Class ManagerStmts (R : RowRel) : Prop := {
  ms_planning :: forall id, StmtKeeps R (stmtToPlanning id);
  ms_computed :: forall id p, StmtKeeps R (stmtComputedPlan id p);
  ms_dispatching :: forall id, StmtKeeps R (stmtToDispatching id);
  ms_running :: forall id, StmtKeeps R (stmtToRunning id);
  ms_finalize :: forall id f, (f = RunFailed \/ f = RunSucceeded) -> StmtKeeps R (stmtFinalize id f);
  ms_failed :: forall id, StmtKeeps R (stmtPlanFailed id);
  ms_insert :: forall id run i p n, StmtKeeps R (insertShard id run i p n);
  ms_replayed :: forall id, StmtKeeps R (stmtShardReplayed id);
  ms_rescheduled :: forall id, StmtKeeps R (stmtShardRescheduled id);
  ms_reshard :: forall id s mf, StmtKeeps R (stmtAddReshard id s mf);
  ms_budget :: StmtKeeps R stmtFailOverBudget
}.

Section manager.
Context (R : RowRel) `{!RowPreOrder R} `{!ManagerStmts R}.
Context (m : Manager) `{!PredictorLaws (m_Predictor m)}.

#[local] Instance predict_g repo ts : Guaranteed R (Predict (m_Predictor m) repo ts).
Proof. apply predict_guaranteed. apply _. Qed.

#[export] Instance plan_guaranteed id : Guaranteed R (plan m id).
Proof. unfold plan, insertAssignment, archivePlan. guarantee. Qed.

#[export] Instance dispatch_guaranteed id : Guaranteed R (dispatch m id).
Proof. unfold dispatch, publishShards. guarantee. Qed.

#[export] Instance finalize_guaranteed id : Guaranteed R (finalize id).
Proof.
  unfold finalize. apply bindM_guaranteed; [apply _|apply _|]. intros b.
  assert (StmtKeeps R (stmtFinalize id (if b then RunFailed else RunSucceeded))).
  { apply ms_finalize. destruct b; auto. }
  guarantee.
Qed.

#[export] Instance tryHandle_guaranteed id s : Guaranteed R (tryHandle m id s).
Proof. unfold tryHandle, tryHandleTx, handleStatus, notifyObservers, snapshot. guarantee. Qed.

#[export] Instance reconcileOnce_guaranteed : Guaranteed R (reconcileOnce m).
Proof. unfold reconcileOnce, refreshRunsActive. guarantee. Qed.

#[export] Instance rescheduleOne_guaranteed s r i p : Guaranteed R (rescheduleOne s r i p).
Proof. unfold rescheduleOne. guarantee. Qed.

#[export] Instance reschedulePreempted_guaranteed : Guaranteed R reschedulePreempted.
Proof. unfold reschedulePreempted. guarantee. Qed.

#[export] Instance checkBudgets_guaranteed : Guaranteed R (checkBudgets m).
Proof.
  unfold checkBudgets.
  assert (StmtKeeps R selectStuck).
  { intros now db a db'. unfold selectStuck. cbv zeta. destruct (forallb _ _); [intros [= _ <-]; reflexivity|done]. }
  guarantee.
Qed.
End manager.

(** ** The statements *)

Section stmts.
Context (R : RowRel) `{!RowPreOrder R}.

Lemma updateRun_rel id g f now db :
  (forall r, g r = true -> rel_runs R (Some r) (Some (r_set_updated_at now (f r)))) ->
  DBRel R db (updateRun id g f now db).2.
Proof.
  intros Hf. unfold updateRun.
  destruct (updateRow id g _ (runs db)) as [t n] eqn:E. simpl.
  apply DBRel_runs; [done|]. intros k.
  replace t with (updateRow id g (fun r => r_set_updated_at now (f r)) (runs db)).1 by (by rewrite E).
  apply (updateRow_row (rel_runs R)); auto.
Qed.

Lemma updateRun_keeps (s : Stmt Z) id g (f : Z -> run_row -> run_row) :
  (forall now db, s now db = updateRun id g (f now) now db) ->
  (forall now r, g r = true ->
     rel_runs R (Some r) (Some (r_set_updated_at now (f now r)))) ->
  StmtKeeps R s.
Proof.
  intros Hs Hf now db a db'. rewrite Hs. intros E.
  pose proof (updateRun_rel id g (f now) now db ltac:(auto)) as H. by rewrite E in H.
Qed.

Lemma finalize_keeps id final :
  (forall ms now r, int4 ms = true -> statusIs "finalizing" r = true ->
     rel_runs R (Some r) (Some (r_set_updated_at now
       (r_set_total_duration_ms (Some ms) (r_set_finished_at (Some now) (r_set_status final r)))))) ->
  StmtKeeps R (stmtFinalize id final).
Proof.
  intros Hf now db a db'. unfold stmtFinalize.
  destruct (runs db !! id) as [r|]; [|by intros [= _ <-]].
  destruct (statusIs "finalizing" r); [|by intros [= _ <-]].
  destruct (int4 _) eqn:Ei; [|done]. intros E.
  match type of E with updateRun ?i ?g ?f _ _ = _ =>
    pose proof (updateRun_rel i g f now db (fun r0 => Hf _ now r0 Ei)) as H end.
  by rewrite E in H.
Qed.

Lemma updateShard_keeps (s : Stmt Z) id g (f : Z -> shard_row -> shard_row) :
  (forall now db, s now db = updateShard id g (f now) now db) ->
  (forall now r, g r = true -> rel_shards R (Some r) (Some (f now r))) ->
  StmtKeeps R s.
Proof.
  intros Hs Hf now db a db'. rewrite Hs. unfold updateShard.
  destruct (updateRow id g _ (shards db)) as [t n] eqn:E. intros [= _ <-].
  apply DBRel_shards; [done|]. intros k.
  replace t with (updateRow id g (f now) (shards db)).1 by (by rewrite E).
  apply (updateRow_row (rel_shards R)); auto.
Qed.

Lemma insertShard_keeps id run i p n :
  (forall now, int4 i && int4 p && int4 n = true -> rel_shards R None (Some (mkShardRow run i None p "pending" n None None now None None))) ->
  StmtKeeps R (insertShard id run i p n).
Proof.
  intros H now db a db'. unfold insertShard.
  destruct (int4 i && int4 p && int4 n) eqn:Ei; [|done]. cbn [negb]. destruct (shards db !! id) as [s|] eqn:Es.
  { rewrite bool_decide_true by done. done. }
  rewrite bool_decide_false by (by intros [? ?]). destruct (negb _); [done|].
  destruct (existsb _ _); [done|]. intros [= _ <-].
  apply DBRel_shards; [done|]. intros k. apply (insert_row (rel_shards R)).
  rewrite Es. by apply H.
Qed.
End stmts.

Lemma statusIn_elem l r : statusIn l r = true <-> r_status r ∈ l.
Proof.
  unfold statusIn. rewrite existsb_exists, list_elem_of_In. split.
  - intros (x & Hx & ->%String.eqb_eq). done.
  - intros Hx. eexists; split; [done|]. apply String.eqb_refl.
Qed.

Lemma statusIs_eq s r : statusIs s r = true <-> r_status r = s.
Proof. unfold statusIs. apply String.eqb_eq. Qed.

(** Rows that keep their status, and rows that move from one known status to
    the next. *)
Ltac status_cases H :=
  repeat (apply elem_of_cons in H as [H|H]); try (by apply elem_of_nil in H).

Lemma step_known s t : t ∈ dbStatuses -> CanTransition (dbStatus s) (dbStatus t) = true ->
  statusPath s t /\ t ∈ dbStatuses.
Proof. intros. split; [by apply statusPath_once|done]. Qed.

(** Every live status may fail. *)
Lemma live_fails s : s ∈ dbStatuses -> ~ dbTerminal s -> CanTransition (dbStatus s) "failed" = true.
Proof.
  intros H Hn. unfold dbTerminal in Hn. status_cases H; subst s; try reflexivity; exfalso; auto.
Qed.

Lemma runEvolves_move now r t r' : r_status r' = t -> ~ dbTerminal (r_status r) ->
  (r_status r ∈ dbStatuses -> t ∈ dbStatuses /\ CanTransition (dbStatus (r_status r)) (dbStatus t) = true) ->
  r_repo_id r' = r_repo_id r -> r_commit_sha r' = r_commit_sha r ->
  r_branch r' = r_branch r -> r_created_at r' = r_created_at r ->
  rm_idempotency_key (r_meta r') = rm_idempotency_key (r_meta r) ->
  (forall t, r_started_at r = Some t -> r_started_at r' = Some t) ->
  runEvolves r (r_set_updated_at now r').
Proof.
  intros Ht Hl Hs. intros. split; simpl; try done.
  intros Hk. rewrite Ht. destruct (Hs Hk). by apply step_known.
Qed.

Lemma runEvolves_same now r r' : r_status r' = r_status r ->
  r_repo_id r' = r_repo_id r -> r_commit_sha r' = r_commit_sha r ->
  r_branch r' = r_branch r -> r_created_at r' = r_created_at r ->
  rm_idempotency_key (r_meta r') = rm_idempotency_key (r_meta r) ->
  r_started_at r' = r_started_at r -> r_finished_at r' = r_finished_at r ->
  runEvolves r (r_set_updated_at now r').
Proof.
  intros Ht **. split; simpl; try done; [|congruence].
  intros Hk. rewrite Ht. by split.
Qed.

(** A guarded move: the guard names the status it starts from. *)
Ltac run_move :=
  intros now r; rewrite ?statusIs_eq; intros Hg; simpl;
  eapply runEvolves_move; [reflexivity| | |reflexivity..|simpl];
  [ unfold dbTerminal; rewrite Hg; intros [?|[?|?]]; discriminate
  | intros _; rewrite Hg; simpl; split; [known|reflexivity]
  | first [by intros t ->|by intros] ].

#[export] Instance Evolves_manager : ManagerStmts Evolves.
Proof.
  split.
  - intros id. eapply updateRun_keeps; [apply _|reflexivity|]. run_move.
  - intros id p. eapply updateRun_keeps; [apply _|reflexivity|]. intros now r _. by apply runEvolves_same.
  - intros id. eapply updateRun_keeps; [apply _|reflexivity|]. run_move.
  - intros id. eapply updateRun_keeps; [apply _|reflexivity|]. run_move.
  - intros id f Hf. apply finalize_keeps; [apply _|]. intros ms now r _. revert now r. destruct Hf as [-> | ->]; run_move.
  - intros id. eapply updateRun_keeps; [apply _|reflexivity|].
    intros now r Hg. apply negb_true_iff in Hg.
    assert (Hl : ~ dbTerminal (r_status r)).
    { intros Ht. apply not_true_iff_false in Hg. apply Hg. apply statusIn_elem.
      destruct Ht as [-> |[-> | ->]]; known. }
    eapply runEvolves_move; try reflexivity; [done| |by intros].
    intros Hk. split; [known|]. by apply live_fails.
  - intros. by apply insertShard_keeps; [apply _|].
  - intros id. eapply updateShard_keeps; [apply _|reflexivity|]. intros now s _. by split.
  - intros id. eapply updateShard_keeps; [apply _|reflexivity|]. intros now s _. split; try done.
  - intros id s mf. eapply updateRun_keeps; [apply _|reflexivity|]. intros now r _. by apply runEvolves_same.
  - intros now db a db' [= _ <-]. apply DBRel_runs; [apply _|]. intros k.
    rewrite updateAll_lookup. destruct (runs db !! k) as [r|]; simpl; [|done].
    destruct (_ && _) eqn:E; [|reflexivity]. zbool.
    apply statusIn_elem in H.
    assert (~ dbTerminal (r_status r)).
    { unfold dbTerminal. status_cases H; rewrite H; intros [?|[?|?]]; discriminate. }
    eapply runEvolves_move; try reflexivity; [done| |by intros].
    intros Hk. split; [known|]. by apply live_fails.
Qed.

Definition minutes (r : run_row) : Z * Z := (r_spot_minutes r, r_on_demand_minutes r).

(** Only [finalize] writes "succeeded", from "finalizing", which nothing
    writes. *)
Lemma unfinalized_move now r r' t : r_status r' = t -> t <> "finalizing" -> t <> "succeeded" -> minutes r' = minutes r ->
  rel_runs NoFinalize (Some r) (Some (r_set_updated_at now r')).
Proof. unfold minutes. intros <- ? ? [= H1 H2]. split; simpl; [done|by rewrite H1, H2]. Qed.

Lemma unfinalized_same now r r' : r_status r' = r_status r -> minutes r' = minutes r ->
  rel_runs NoFinalize (Some r) (Some (r_set_updated_at now r')).
Proof. unfold minutes. intros He [= H1 H2]. split; simpl; [intros [H3 H4]; split; simpl; by rewrite He|by rewrite H1, H2]. Qed.

#[export] Instance NoFinalize_manager : ManagerStmts NoFinalize.
Proof.
  split.
  - intros id. eapply updateRun_keeps; [apply _|reflexivity|]. intros. by eapply unfinalized_move.
  - intros id p. eapply updateRun_keeps; [apply _|reflexivity|]. intros. by apply unfinalized_same.
  - intros id. eapply updateRun_keeps; [apply _|reflexivity|]. intros. by eapply unfinalized_move.
  - intros id. eapply updateRun_keeps; [apply _|reflexivity|]. intros. by eapply unfinalized_move.
  - intros id f Hf. apply finalize_keeps; [apply _|]. intros ms now r _ Hg%statusIs_eq. split; [by intros [? _]|done].
  - intros id. eapply updateRun_keeps; [apply _|reflexivity|]. intros. by eapply unfinalized_move.
  - intros. by apply insertShard_keeps; [apply _|].
  - intros id. eapply updateShard_keeps; [apply _|reflexivity|]. by intros now s _ Hs.
  - intros id. eapply updateShard_keeps; [apply _|reflexivity|]. by intros now s _ Hs.
  - intros id s mf. eapply updateRun_keeps; [apply _|reflexivity|]. intros. by apply unfinalized_same.
  - intros now db a db' [= _ <-]. apply DBRel_runs; [apply _|]. intros k.
    rewrite updateAll_lookup. destruct (runs db !! k) as [r|]; simpl; [|done].
    destruct (_ && _) eqn:E; done.
Qed.
