(* ===== verification/RunManagerProps.v ===== *)
(** * What the run manager does

    The functional behaviour of the manager's steps when nothing interferes: a
    pending run is planned into one pending shard per assignment, a run whose
    manifest is missing fails, a run locked by another replica is left alone, a
    dispatched run has every pending shard published, a preempted shard is
    replayed once with exactly the tests that have no result yet, and the budget
    sweep fails exactly the runs over budget. *)

From S2P Require Import Prelude GoBytes Model Scheduler SchedulerProps Db Effects Shards.
From S2P Require Import StateMachine Lifecycle Predictor RunManager.

(** ** Running without interference *)

(** A world in which nothing else happens. *)
Definition QW (db : DB) (tx : option DB) (now : Z) (u : nat -> string) (n : nat) (held : gset Z)
    (out : list Output) (ag : AgentState) : World :=
  mkWorld db ((fun d => mkTx d false) <$> tx) now u n held [] out ag.

Lemma bindM_ok {A B} (m : M A) (k : A -> M B) w a w' : m w = (Ok a, w') -> bindM m k w = k a w'.
Proof. intros H. unfold bindM. by rewrite H. Qed.
Lemma bindM_err {A B} (m : M A) (k : A -> M B) w e w' : m w = (Err e, w') -> bindM m k w = (Err e, w').
Proof. intros H. unfold bindM. by rewrite H. Qed.
Lemma tryM_eq {A} (m : M A) w r w' : m w = (r, w') -> tryM m w = (Ok r, w').
Proof. intros H. unfold tryM. by rewrite H. Qed.
Lemma wrapM_ok {A} s (m : M A) w a w' : m w = (Ok a, w') -> wrapM s m w = (Ok a, w').
Proof. intros H. unfold wrapM. by rewrite H. Qed.
Lemma ignoreM_eq {A} (m : M A) w r w' : m w = (r, w') -> ignoreM m w = (Ok tt, w').
Proof. intros H. unfold ignoreM. by rewrite (bindM_ok _ _ _ _ _ (tryM_eq _ _ _ _ H)). Qed.

(** Run the head of a sequence by the equation given for it. *)
Ltac run_with lem := rewrite (bindM_ok _ _ _ _ _ lem).

Section quiet.
Context (db : DB) (now : Z) (u : nat -> string) (held : gset Z) (ag : AgentState).

Lemma txExec_quiet {A} (s : Stmt A) d n out a d' : s now d = (Ok a, d') ->
  txExec s (QW db (Some d) now u n held out ag) = (Ok a, QW db (Some d') now u n held out ag).
Proof. intros H. unfold txExec. simpl. by rewrite H. Qed.

Lemma newUUID_quiet tx n out :
  newUUID (QW db tx now u n held out ag) = (Ok (u n), QW db tx now u (S n) held out ag).
Proof. done. Qed.

Lemma emit_quiet o tx n out :
  emit o (QW db tx now u n held out ag) = (Ok tt, QW db tx now u n held (out ++ [o]) ag).
Proof. done. Qed.

Lemma whenM_emit_quiet b o tx n out :
  whenM b (emit o) (QW db tx now u n held out ag)
  = (Ok tt, QW db tx now u n held (out ++ if b then [o] else []) ag).
Proof. destruct b; simpl; [done|by rewrite app_nil_r]. Qed.

Lemma txQuery_quiet {A} (f : DB -> A) d n out :
  txExec (query f) (QW db (Some d) now u n held out ag) = (Ok (f d), QW db (Some d) now u n held out ag).
Proof. done. Qed.

Lemma scan_quiet {A} (f : DB -> option A) d n out a : f d = Some a ->
  scanRow (txExec (query f)) (QW db (Some d) now u n held out ag)
  = (Ok a, QW db (Some d) now u n held out ag).
Proof. intros H. unfold scanRow, bindM. rewrite txQuery_quiet. by rewrite H. Qed.

Lemma withTx_quiet {A} (m : M A) n out r d n' out' ag' :
  m (QW db (Some db) now u n held out ag) = (r, QW d None now u n' held out' ag') ->
  withTx m (QW db None now u n held out ag) = (r, QW d None now u n' held out' ag').
Proof.
  intros H.
  transitivity (let '(r, w') := m (QW db (Some db) now u n held out ag) in (r, w_set_tx None w'));
    [reflexivity|by rewrite H].
Qed.

Lemma withTx_rollback {A} (m : M A) n out r d n' out' ag' :
  m (QW db (Some db) now u n held out ag) = (r, QW db (Some d) now u n' held out' ag') ->
  withTx m (QW db None now u n held out ag) = (r, QW db None now u n' held out' ag').
Proof.
  intros H.
  transitivity (let '(r, w') := m (QW db (Some db) now u n held out ag) in (r, w_set_tx None w'));
    [reflexivity|by rewrite H].
Qed.

Lemma txCommit_quiet d n out :
  txCommit (QW db (Some d) now u n held out ag) = (Ok tt, QW d None now u n held out ag).
Proof. done. Qed.

Lemma tryLock_quiet key d n out : key ∉ held ->
  tryLock key (QW db (Some d) now u n held out ag) = (Ok true, QW db (Some d) now u n held out ag).
Proof. intros H. unfold tryLock. simpl. by rewrite bool_decide_false. Qed.

Lemma updateRun_some id g f d r : runs d !! id = Some r -> g r = true ->
  updateRun id g f now d = (Ok 1, set_runs (<[id := r_set_updated_at now (f r)]> (runs d)) d).
Proof. intros Hr Hg. unfold updateRun, updateRow. by rewrite Hr, Hg. Qed.

Lemma updateShard_some id g f d s : shards d !! id = Some s -> g s = true ->
  updateShard id g f now d = (Ok 1, set_shards (<[id := f s]> (shards d)) d).
Proof. intros Hr Hg. unfold updateShard, updateRow. by rewrite Hr, Hg. Qed.
End quiet.

(** A lookup-based reading of the uniqueness test. *)
Lemma existsb_rows_false {V} (p : string * V -> bool) (t : gmap string V) :
  (forall k v, t !! k = Some v -> p (k, v) = false) -> existsb p (map_to_list t) = false.
Proof.
  intros H. apply not_true_iff_false. intros ([k v] & Hin & Hp)%existsb_exists.
  apply list_elem_of_In, elem_of_map_to_list in Hin. rewrite H in Hp; done.
Qed.

(** ** Inserting the shards of a plan *)

Definition plannedShard (runID : string) (now : Z) (a : Assignment) : shard_row :=
  mkShardRow runID (a_ShardIndex a) None (a_PredictedDurationMS a) "pending"
    (Z.of_nat (length (a_Tests a))) None None now None None.

Fixpoint addShards (u : nat -> string) (n : nat) (runID : string) (now : Z) (l : list Assignment)
    (t : gmap string shard_row) : gmap string shard_row :=
  match l with
  | [] => t
  | a :: l' => addShards u (S n) runID now l' (<[u n := plannedShard runID now a]> t)
  end.

Lemma addShards_other u n runID now l t k :
  (forall i, (n <= i < n + length l)%nat -> u i <> k) -> addShards u n runID now l t !! k = t !! k.
Proof.
  revert n t. induction l as [|a l IH]; intros n t H; simpl; [done|]. simpl in H.
  rewrite IH by (intros i Hi; apply H; lia). apply lookup_insert_ne. apply H. lia.
Qed.

Lemma addShards_at u n runID now l t i a : Inj (=) (=) u -> l !! i = Some a ->
  addShards u n runID now l t !! u (n + i)%nat = Some (plannedShard runID now a).
Proof.
  intros Hu. revert n t i. induction l as [|b l IH]; intros n t i; simpl; [done|].
  destruct i as [|i]; simpl.
  - intros [= ->]. rewrite addShards_other.
    + replace (n + 0)%nat with n by lia. by rewrite lookup_insert_eq.
    + intros j Hj He%Hu. lia.
  - intros Hi. replace (n + S i)%nat with (S n + i)%nat by lia. by apply IH.
Qed.

Definition fitsInt4 (a : Assignment) : Prop :=
  int4 (a_ShardIndex a) && int4 (a_PredictedDurationMS a) && int4 (Z.of_nat (length (a_Tests a))) = true.

Section inserts.
Context (db : DB) (now : Z) (u : nat -> string) (held : gset Z) (ag : AgentState) (out : list Output).
Context `{!Inj (=) (=) u} (runID : string).

Lemma insertAssignments_quiet l d n :
  Forall fitsInt4 l -> NoDup (a_ShardIndex <$> l) -> is_Some (runs d !! runID) ->
  (forall i, (n <= i)%nat -> shards d !! u i = None) ->
  (forall k s, shards d !! k = Some s -> s_run_id s = runID -> s_index s ∉ (a_ShardIndex <$> l)) ->
  forM_ l (insertAssignment runID) (QW db (Some d) now u n held out ag)
  = (Ok tt, QW db (Some (set_shards (addShards u n runID now l (shards d)) d)) now u (n + length l)
       held out ag).
Proof.
  revert d n. induction l as [|a l IH]; intros d n Hf Hnd Hrun Hfr Hix; simpl.
  { replace (n + 0)%nat with n by lia. by destruct d. }
  apply Forall_cons in Hf as [Hf1 Hf]. apply NoDup_cons in Hnd as [Hn1 Hnd].
  assert (Hins : insertShard (u n) runID (a_ShardIndex a) (a_PredictedDurationMS a)
      (Z.of_nat (length (a_Tests a))) now d
    = (Ok tt, set_shards (<[u n := plannedShard runID now a]> (shards d)) d)).
  { unfold insertShard. rewrite Hf1. simpl.
    rewrite (bool_decide_false (is_Some (shards d !! u n))) by (rewrite Hfr by lia; by intros [? ?]).
    rewrite (bool_decide_true (is_Some (runs d !! runID))) by done. simpl.
    rewrite existsb_rows_false; [done|]. intros k s Hk. simpl.
    destruct (String.eqb_spec (s_run_id s) runID) as [He|]; [simpl|done].
    apply Z.eqb_neq. intros Hi. apply (Hix k s Hk He). rewrite Hi. by left. }
  erewrite bindM_ok; [|unfold insertAssignment; rewrite (bindM_ok _ _ _ _ _ (newUUID_quiet _ _ _ _ _ _ _ _));
    by apply txExec_quiet].
  rewrite IH; simpl; [by replace (n + S (length l))%nat with (S (n + length l)) by lia|done|done|done| |].
  - intros i Hi. rewrite lookup_insert_ne; [apply Hfr; lia|]. intros He%(inj u). lia.
  - intros k s. rewrite lookup_insert_Some. intros [[<- <-]|[_ Hk]] Hr; [done|].
    intros Hin. apply (Hix k s Hk Hr). by right.
Qed.
End inserts.

(** ** plan *)

Section plan.
Context (m : Manager) (db : DB) (now : Z) (u : nat -> string) (held : gset Z) (ag : AgentState).
Context `{!Inj (=) (=) u} (runID : string).

Definition planOf (preds : list Prediction) (mf : TestManifest) : Plan :=
  PlanFunc (schedulerTests (tm_Tests mf) preds) (mkFleetSnapshot 0 []) DefaultConstraints.

(** The run row and the database a successful plan leaves. *)
Definition plannedRun (p : Plan) (r : run_row) : run_row :=
  r_set_updated_at now (r_set_started_at (Some (coalesce (r_started_at r) now)) (r_set_status "dispatching"
    (r_set_meta (rm_set_computed_plan (marshalPlan p) (r_meta r)) r))).

Definition plannedDB (n : nat) (p : Plan) (r : run_row) : DB :=
  set_shards (addShards u n runID now (p_Assignments p) (shards db))
    (set_runs (<[runID := plannedRun p r]> (runs db)) db).

Definition planOutputs (p : Plan) : list Output :=
  (if m_Metrics m then [OCounter "teo_scheduler_plan_total"] else [])
  ++ (if m_PlanStore m then [OUploadPlan (PlanObjectKey runID) (marshalPlan p)] else []).

(** What planning needs: a pending run of a known repo with a stored manifest,
    an answering predictor, fresh ids, and a plan that fits the columns. *)
Record Plannable (r : run_row) (rp : repo_row) (mf : TestManifest) (preds : list Prediction) (n : nat) : Prop := {
  pl_run : runs db !! runID = Some r;
  pl_pending : r_status r = "pending";
  pl_repo : repos db !! r_repo_id r = Some rp;
  pl_manifest : run_plans db !! runID = Some (PDManifest mf);
  pl_predict : forall d n out,
    Predict (m_Predictor m) (rp_full_name rp) (tm_Tests mf) (QW db (Some d) now u n held out ag)
    = (Ok preds, QW db (Some d) now u n held out ag);
  pl_fits : Forall fitsInt4 (p_Assignments (planOf preds mf));
  pl_fresh : forall i, (n <= i)%nat -> shards db !! u i = None;
  pl_new : forall k s, shards db !! k = Some s -> s_run_id s <> runID
}.

Lemma planOf_index preds mf i a : p_Assignments (planOf preds mf) !! i = Some a -> a_ShardIndex a = Z.of_nat i.
Proof. unfold planOf. intros Hi. exact (PlanFunc_index _ _ _ _ _ Hi). Qed.

Lemma plan_index_NoDup preds mf : NoDup (a_ShardIndex <$> p_Assignments (planOf preds mf)).
Proof.
  apply NoDup_fmap_2_strong.
  - intros a b Ha Hb He. apply list_elem_of_lookup in Ha as [i Hi], Hb as [j Hj].
    pose proof (planOf_index _ _ _ _ Hi). pose proof (planOf_index _ _ _ _ Hj).
    assert (i = j) by lia. subst j. congruence.
  - apply NoDup_alt. intros i j a Hi Hj.
    pose proof (planOf_index _ _ _ _ Hi). pose proof (planOf_index _ _ _ _ Hj). lia.
Qed.

Lemma plan_quiet r rp mf preds n out : Plannable r rp mf preds n ->
  plan m runID (QW db (Some db) now u n held out ag)
  = (Ok tt, QW db (Some (plannedDB n (planOf preds mf) r)) now u
       (n + length (p_Assignments (planOf preds mf))) held (out ++ planOutputs (planOf preds mf)) ag).
Proof.
  intros []. unfold plan.
  assert (E1 : stmtToPlanning runID now db
    = (Ok 1, set_runs (<[runID := r_set_updated_at now (r_set_status "planning" r)]> (runs db)) db)).
  { apply updateRun_some; [done|]. unfold statusIs. by rewrite pl_pending0. }
  run_with (txExec_quiet db now u held ag _ _ n out _ _ E1).
  set (d1 := set_runs _ db). set (r1 := r_set_updated_at now (r_set_status "planning" r)).
  assert (Hr1 : runs d1 !! runID = Some r1) by apply lookup_insert_eq.
  erewrite bindM_ok; [|apply (scan_quiet db now u held ag _ d1 n out (r_repo_id r, rp_full_name rp));
    unfold selectRepoOfRun; rewrite Hr1; simpl; by rewrite pl_repo0].
  erewrite bindM_ok; [|apply wrapM_ok, (scan_quiet db now u held ag _ d1 n out (PDManifest mf)); done].
  cbn [unmarshalManifest snd].
  erewrite bindM_ok; [|apply wrapM_ok, pl_predict0]. cbv zeta. fold (planOf preds mf).
  set (p := planOf preds mf) in *.
  rewrite (bindM_ok _ _ _ _ _ (whenM_emit_quiet db now u held ag _ _ (Some d1) n out)).
  assert (E2 : stmtComputedPlan runID (marshalPlan p) now d1
    = (Ok 1, set_runs (<[runID := r_set_updated_at now (r_set_meta (rm_set_computed_plan (marshalPlan p) (r_meta r1)) r1)]>
        (runs d1)) d1)).
  { unfold stmtComputedPlan. by rewrite (updateRun_some now runID _ _ d1 r1). }
  run_with (txExec_quiet db now u held ag _ _ n (out ++ if m_Metrics m then [OCounter "teo_scheduler_plan_total"] else []) _ _ E2).
  set (d2 := set_runs _ d1).
  unfold archivePlan. rewrite (bindM_ok _ _ _ _ _ (whenM_emit_quiet db now u held ag _ _ (Some d2) n _)).
  erewrite bindM_ok; [|apply insertAssignments_quiet].
  - set (d3 := set_shards _ d2).
    assert (Hr2 : runs d3 !! runID = Some (r_set_updated_at now
      (r_set_meta (rm_set_computed_plan (marshalPlan p) (r_meta r1)) r1))) by apply lookup_insert_eq.
    erewrite bindM_ok; [|apply txExec_quiet; unfold stmtToDispatching;
      by rewrite (updateRun_some now runID _ _ _ _ Hr2)].
    unfold retM. f_equal. unfold planOutputs. rewrite <-app_assoc. f_equal.
    unfold plannedDB, d2, d1. simpl. rewrite !insert_insert_eq. by destruct db.
  - done.
  - done.
  - apply plan_index_NoDup.
  - unfold d2. simpl. rewrite lookup_insert_eq. by eexists.
  - done.
  - intros k s Hk He. by apply pl_new0 in Hk.
Qed.
End plan.

(** ** After the commit *)

Section after.
Context (m : Manager) (d : DB) (now : Z) (u : nat -> string) (held : gset Z) (ag : AgentState).

Lemma poolQuery_quiet {A} (f : DB -> A) n out :
  poolExec (query f) (QW d None now u n held out ag) = (Ok (f d), QW d None now u n held out ag).
Proof. done. Qed.

Lemma poolScan_quiet {A} (f : DB -> option A) n out :
  scanRow (poolExec (query f)) (QW d None now u n held out ag)
  = (match f d with Some a => Ok a | None => Err ErrNoRows end, QW d None now u n held out ag).
Proof. unfold scanRow, bindM. rewrite poolQuery_quiet. by destruct (f d). Qed.

Lemma emits_quiet {A} (g : A -> Output) (l : list A) tx n out :
  forM_ l (fun x => emit (g x)) (QW d tx now u n held out ag)
  = (Ok tt, QW d tx now u n held (out ++ (g <$> l)) ag).
Proof.
  revert out. induction l as [|x l IH]; intros out; simpl; [by rewrite app_nil_r|].
  run_with (emit_quiet d now u held ag (g x) tx n out). rewrite IH. by rewrite <-app_assoc.
Qed.

(** What the observers are told: the committed state of the run. *)
Definition observed (runID prev : string) : list Output :=
  match selectSnapshot runID d with
  | Some snap => (fun i => OObserve i snap prev) <$> seq 0 (m_Observers m)
  | None => []
  end.

Lemma notify_quiet runID prev n out :
  notifyObservers m runID prev (QW d None now u n held out ag)
  = (Ok tt, QW d None now u n held (out ++ observed runID prev) ag).
Proof.
  unfold notifyObservers, observed. destruct (m_Observers m) as [|k] eqn:E; cbn [Nat.eqb].
  { destruct (selectSnapshot runID d); simpl; by rewrite app_nil_r. }
  erewrite bindM_ok; [|apply tryM_eq, poolScan_quiet].
  destruct (selectSnapshot runID d) as [snap|]; [apply emits_quiet|by rewrite app_nil_r].
Qed.

Definition transitionMetric (runID : string) : list Output :=
  match r_status <$> runs d !! runID with
  | Some s => if m_Metrics m then [ORunTransition s] else []
  | None => []
  end.
End after.

Lemma tryHandle_quiet m db d now u held ag runID status n out n' out' :
  tryHandleTx m runID status (QW db None now u n held out ag) = (Ok true, QW d None now u n' held out' ag) ->
  tryHandle m runID status (QW db None now u n held out ag)
  = (Ok tt, QW d None now u n' held
       (out' ++ observed m d runID status ++ transitionMetric m d runID) ag).
Proof.
  intros H. unfold tryHandle. erewrite bindM_ok; [|by apply tryM_eq]. cbv beta iota.
  rewrite (bindM_ok _ _ _ _ _ (notify_quiet m d now u held ag runID status n' out')).
  unfold transitionMetric. destruct (m_Metrics m); simpl whenM.
  - erewrite bindM_ok; [|apply tryM_eq, poolScan_quiet].
    destruct (r_status <$> runs d !! runID); [rewrite emit_quiet; by rewrite <-app_assoc|].
    unfold retM. by rewrite !app_nil_r.
  - unfold retM. destruct (r_status <$> runs d !! runID); by rewrite !app_nil_r.
Qed.

Lemma handlePending_eq m runID : handleStatus m runID "pending" =
  (r ←! tryM (plan m runID) ;
   match r with
   | Err _ => ignoreM (txExec (stmtPlanFailed runID))
   | Ok _ => retM tt
   end).
Proof. reflexivity. Qed.

(** C4: Handling a pending run plans it: in one commit the run becomes
    dispatching with its start time and the computed plan recorded, one pending
    shard per assignment of the plan is created under a fresh id with the
    assignment's index, predicted duration and test count, and nothing else
    changes; the plan is archived, and the observers are told the committed
    state. *)
Theorem tryHandle_plans m db now u held ag runID r rp mf preds n out :
  Inj (=) (=) u -> runIDLockKey runID ∉ held ->
  Plannable m db now u held ag runID r rp mf preds n ->
  let p := planOf preds mf in
  exists d,
    tryHandle m runID "pending" (QW db None now u n held out ag)
    = (Ok tt, QW d None now u (n + length (p_Assignments p)) held
         (out ++ planOutputs m runID p ++ observed m d runID "pending"
            ++ (if m_Metrics m then [ORunTransition "dispatching"] else [])) ag)
    /\ runs d = <[runID := plannedRun now p r]> (runs db)
    /\ (forall i a, p_Assignments p !! i = Some a ->
          shards d !! u (n + i)%nat = Some (mkShardRow runID (Z.of_nat i) None (a_PredictedDurationMS a)
            "pending" (Z.of_nat (length (a_Tests a))) None None now None None))
    /\ (forall k, (forall i, (n <= i < n + length (p_Assignments p))%nat -> u i <> k) ->
          shards d !! k = shards db !! k)
    /\ repos d = repos db /\ run_plans d = run_plans db /\ tests d = tests db
    /\ test_executions d = test_executions db.
Proof.
  intros Hu Hl Hp p. exists (plannedDB db now u runID n p r). split_and!; try done.
  - erewrite tryHandle_quiet.
    2: { unfold tryHandleTx. apply withTx_quiet.
         erewrite bindM_ok; [|by apply tryLock_quiet]. cbn [negb].
         erewrite bindM_ok; [|rewrite handlePending_eq; erewrite bindM_ok; [|apply tryM_eq, (plan_quiet m db now u held ag runID r rp mf preds n out Hp)];
           reflexivity].
         erewrite bindM_ok; [|apply txCommit_quiet]. reflexivity. }
    rewrite <-app_assoc. do 3 f_equal. f_equal. f_equal.
    unfold transitionMetric, plannedDB. simpl. by rewrite lookup_insert_eq.
  - intros i a Hi. unfold plannedDB. simpl. rewrite (addShards_at u n runID now _ _ i a Hu Hi).
    unfold plannedShard. by rewrite (planOf_index _ _ _ _ Hi).
  - intros k Hk. unfold plannedDB. simpl. by apply addShards_other.
Qed.

(** ** Failing and standing back *)

Section failing.
Context (m : Manager) (db : DB) (now : Z) (u : nat -> string) (held : gset Z) (ag : AgentState).
Context (runID : string).

(** What makes planning fail without the database reporting an error. *)
Inductive PlanFails (rp : repo_row) : Prop :=
  | NoManifest : run_plans db !! runID = None -> PlanFails rp
  | BadManifest : run_plans db !! runID = Some PDOther -> PlanFails rp
  | NoPrediction mf e : run_plans db !! runID = Some (PDManifest mf) ->
      (forall d n out,
        Predict (m_Predictor m) (rp_full_name rp) (tm_Tests mf) (QW db (Some d) now u n held out ag)
        = (Err e, QW db (Some d) now u n held out ag)) -> PlanFails rp.

Definition planningRun (r : run_row) : run_row := r_set_updated_at now (r_set_status "planning" r).
Definition planningDB (r : run_row) : DB := set_runs (<[runID := planningRun r]> (runs db)) db.

Lemma plan_fails_quiet r rp n out :
  runs db !! runID = Some r -> r_status r = "pending" -> repos db !! r_repo_id r = Some rp ->
  PlanFails rp ->
  exists e, plan m runID (QW db (Some db) now u n held out ag)
    = (Err e, QW db (Some (planningDB r)) now u n held out ag).
Proof.
  intros Hr Hs Hrp Hf. unfold plan.
  assert (E1 : stmtToPlanning runID now db = (Ok 1, planningDB r)).
  { unfold stmtToPlanning. rewrite (updateRun_some now runID _ _ db r Hr); [done|].
    unfold statusIs. by rewrite Hs. }
  run_with (txExec_quiet db now u held ag _ _ n out _ _ E1).
  assert (Hr1 : runs (planningDB r) !! runID = Some (planningRun r)) by apply lookup_insert_eq.
  erewrite bindM_ok; [|apply (scan_quiet db now u held ag _ (planningDB r) n out (r_repo_id r, rp_full_name rp));
    unfold selectRepoOfRun; rewrite Hr1; simpl; by rewrite Hrp].
  destruct Hf as [H|H|mf e H Hp].
  - eexists. apply bindM_err. unfold wrapM, scanRow, bindM. rewrite txQuery_quiet. simpl. by rewrite H.
  - eexists. erewrite bindM_ok; [|by apply wrapM_ok, (scan_quiet db now u held ag _ (planningDB r) n out PDOther)].
    reflexivity.
  - eexists. erewrite bindM_ok; [|by apply wrapM_ok, (scan_quiet db now u held ag _ (planningDB r) n out (PDManifest mf))].
    cbn [unmarshalManifest snd]. apply bindM_err. unfold wrapM. by rewrite Hp.
Qed.

(** The row of a run whose planning failed. *)
Definition failedRun (r : run_row) : run_row :=
  r_set_updated_at now (r_set_finished_at (Some now) (r_set_status "failed" (planningRun r))).

(** A pending run that cannot be planned - no stored manifest, a manifest
    that does not decode, a predictor that gives up - is marked failed with its
    finish time, and creates no shard: everything else in the database stays as
    it was. *)
Theorem tryHandle_fails r rp n out : runIDLockKey runID ∉ held ->
  runs db !! runID = Some r -> r_status r = "pending" -> repos db !! r_repo_id r = Some rp ->
  PlanFails rp ->
  exists w, tryHandle m runID "pending" (QW db None now u n held out ag) = (Ok tt, w)
    /\ w_db w = set_runs (<[runID := failedRun r]> (runs db)) db
    /\ r_status (failedRun r) = "failed" /\ r_finished_at (failedRun r) = Some now.
Proof.
  intros Hl Hr Hs Hrp Hf. destruct (plan_fails_quiet r rp n out Hr Hs Hrp Hf) as [e He].
  assert (E2 : stmtPlanFailed runID now (planningDB r)
    = (Ok 1, set_runs (<[runID := failedRun r]> (runs db)) db)).
  { unfold stmtPlanFailed. rewrite (updateRun_some now runID _ _ (planningDB r) (planningRun r)).
    - unfold planningDB. simpl. by rewrite insert_insert_eq.
    - apply lookup_insert_eq.
    - reflexivity. }
  eexists. split; [|split; [|done]].
  - eapply tryHandle_quiet. unfold tryHandleTx. apply withTx_quiet.
    erewrite bindM_ok; [|by apply tryLock_quiet]. cbn [negb].
    erewrite bindM_ok; [|rewrite handlePending_eq; erewrite bindM_ok; [|by apply tryM_eq];
      by eapply ignoreM_eq, txExec_quiet].
    erewrite bindM_ok; [|apply txCommit_quiet]. reflexivity.
  - reflexivity.
Qed.

(** Only the holder of a run's advisory lock works on it: while another
    session holds the lock, a reconcile step or a reschedule of that run changes
    nothing, publishes nothing and uses no id. *)
Theorem locked_run_left_alone status shardID index doc n out : runIDLockKey runID ∈ held ->
  tryHandle m runID status (QW db None now u n held out ag) = (Ok tt, QW db None now u n held out ag)
  /\ rescheduleOne shardID runID index doc (QW db None now u n held out ag)
     = (Ok tt, QW db None now u n held out ag).
Proof.
  intros Hl.
  assert (Hno : tryLock (runIDLockKey runID) (QW db (Some db) now u n held out ag)
    = (Ok false, QW db (Some db) now u n held out ag)).
  { unfold tryLock. simpl. by rewrite bool_decide_true. }
  split.
  - unfold tryHandle. erewrite bindM_ok;
      [|eapply tryM_eq, withTx_rollback; rewrite (bindM_ok _ _ _ _ _ Hno); reflexivity].
    reflexivity.
  - eapply withTx_rollback. rewrite (bindM_ok _ _ _ _ _ Hno). reflexivity.
Qed.
End failing.
