(* ===== verification/RunManagerOps.v ===== *)
(** * Dispatching and budgets

    What handling a dispatching run publishes, and what the budget sweep does. *)

From S2P Require Import Prelude GoBytes Model Scheduler SchedulerProps Db Effects.
From S2P Require Import Shards StateMachine Lifecycle Predictor.
From S2P Require Import RunManager RunManagerProps.

Lemma forallb_all {A} (p : A -> bool) l : (forall x, x ∈ l -> p x = true) -> forallb p l = true.
Proof. intros H. apply forallb_forall. intros x Hx. by apply H, list_elem_of_In. Qed.

(** ** Dispatch *)

Section dispatching.
Context (m : Manager) (db : DB) (now : Z) (u : nat -> string) (held : gset Z) (ag : AgentState).
Context (runID : string).

(** The message of one pending shard, if the plan has an assignment for it. *)
Definition messageOf (p : Plan) (sm : dispatchShard) : option ShardDispatch :=
  (fun a => mkShardDispatch runID (dsh_id sm) (dsh_repoFull sm) "pytest" (t_Entry <$> a_Tests a)
     (a_PredictedDurationMS a) now) <$> assignmentAt p (dsh_index sm).

Definition messages (p : Plan) : list ShardDispatch := omap (messageOf p) (selectPendingShards runID db).

Lemma publishLoop_quiet p sms tx n out :
  forM_ sms (fun sm =>
    match assignmentAt p (dsh_index sm) with
    | None => retM tt
    | Some a =>
        now ←! getNow ;
        emit (OPublish (mkShardDispatch runID (dsh_id sm) (dsh_repoFull sm) "pytest"
                (t_Entry <$> a_Tests a) (a_PredictedDurationMS a) now))
    end) (QW db tx now u n held out ag)
  = (Ok tt, QW db tx now u n held (out ++ (OPublish <$> omap (messageOf p) sms)) ag).
Proof.
  revert out. induction sms as [|sm sms IH]; intros out; simpl; [by rewrite app_nil_r|].
  unfold messageOf at 1. destruct (assignmentAt p (dsh_index sm)) as [a|]; simpl.
  - erewrite bindM_ok.
    2: { erewrite bindM_ok; [|reflexivity]. apply emit_quiet. }
    rewrite IH. by rewrite <-app_assoc.
  - erewrite bindM_ok; [|reflexivity]. apply IH.
Qed.

Lemma publishShards_quiet p n out :
  publishShards runID p (QW db (Some db) now u n held out ag)
  = (Ok tt, QW db (Some db) now u n held (out ++ (OPublish <$> messages p)) ag).
Proof.
  unfold publishShards. erewrite bindM_ok; [|apply tryM_eq, txQuery_quiet]. apply publishLoop_quiet.
Qed.

Definition runningRun (r : run_row) : run_row := r_set_updated_at now (r_set_status "running" r).

Lemma dispatch_quiet r p n out : runs db !! runID = Some r -> r_status r = "dispatching" ->
  rm_computed_plan (r_meta r) = Some p ->
  dispatch m runID (QW db (Some db) now u n held out ag)
  = (Ok tt, QW db (Some (set_runs (<[runID := runningRun r]> (runs db)) db)) now u n held
       (out ++ if m_JS m then OPublish <$> messages (decodePlan p) else []) ag).
Proof.
  intros Hr Hs Hp. unfold dispatch. erewrite bindM_ok.
  2: { instantiate (1 := QW db (Some db) now u n held
         (out ++ if m_JS m then OPublish <$> messages (decodePlan p) else []) ag).
       instantiate (1 := tt). destruct (m_JS m); simpl whenM; [|by rewrite app_nil_r].
       erewrite bindM_ok; [|eapply tryM_eq, scan_quiet; unfold selectComputedPlan; rewrite Hr; reflexivity].
       rewrite Hp. apply publishShards_quiet. }
  erewrite bindM_ok; [reflexivity|]. apply txExec_quiet.
  apply updateRun_some; [done|]. unfold statusIs. by rewrite Hs.
Qed.

Lemma selectPendingShards_elem sm : sm ∈ selectPendingShards runID db <->
  exists s full repoID, shards db !! dsh_id sm = Some s /\ s_run_id s = runID /\ s_status s = "pending"
    /\ selectRepoOfRun runID db = Some (repoID, full)
    /\ sm = mkDispatchShard (dsh_id sm) (s_index s) (s_predicted_duration_ms s) full.
Proof.
  unfold selectPendingShards. rewrite list_elem_of_omap. split.
  - intros ([k s] & Hin%elem_of_map_to_list & H). simpl in H.
    destruct (String.eqb_spec (s_run_id s) runID); [|done].
    destruct (String.eqb_spec (s_status s) "pending"); [|done]. simpl in H.
    destruct (selectRepoOfRun runID db) as [[repoID full]|]; [|done]. injection H as <-.
    by exists s, full, repoID.
  - intros (s & full & repoID & Hs & Hrun & Hst & Hrepo & ->). exists (dsh_id sm, s).
    split; [by apply elem_of_map_to_list|]. simpl. by rewrite Hrun, Hst, !String.eqb_refl, Hrepo.
Qed.

(** Handling a dispatching run makes it running in one commit and, with
    NATS, publishes one message for each of its pending shards that the stored
    plan has an assignment for, carrying that assignment's tests and predicted
    duration, and no other message; the observers are told after the commit. *)
Theorem tryHandle_dispatches r p n out :
  runIDLockKey runID ∉ held -> runs db !! runID = Some r -> r_status r = "dispatching" ->
  rm_computed_plan (r_meta r) = Some (Some p) ->
  exists d sent,
    tryHandle m runID "dispatching" (QW db None now u n held out ag)
    = (Ok tt, QW d None now u n held (out ++ (OPublish <$> sent) ++ observed m d runID "dispatching"
         ++ (if m_Metrics m then [ORunTransition "running"] else [])) ag)
    /\ d = set_runs (<[runID := runningRun r]> (runs db)) db
    /\ (m_JS m = false -> sent = [])
    /\ (m_JS m = true -> forall msg, msg ∈ sent <->
          exists id s full repoID a, shards db !! id = Some s /\ s_run_id s = runID
            /\ s_status s = "pending" /\ selectRepoOfRun runID db = Some (repoID, full)
            /\ 0 <= s_index s /\ p_Assignments p !! Z.to_nat (s_index s) = Some a
            /\ msg = mkShardDispatch runID id full "pytest" (t_Entry <$> a_Tests a)
                 (a_PredictedDurationMS a) now).
Proof.
  intros Hl Hr Hs Hp. exists (set_runs (<[runID := runningRun r]> (runs db)) db).
  exists (if m_JS m then messages p else []). split_and!.
  - erewrite tryHandle_quiet.
    2: { unfold tryHandleTx. apply withTx_quiet.
         erewrite bindM_ok; [|by apply tryLock_quiet]. cbn [negb].
         erewrite bindM_ok; [|unfold handleStatus; eapply ignoreM_eq, (dispatch_quiet r _ n out Hr Hs Hp)].
         erewrite bindM_ok; [|apply txCommit_quiet]. reflexivity. }
    cbn [decodePlan default]. rewrite <-app_assoc. do 3 f_equal. f_equal; [by destruct (m_JS m)|].
    f_equal. unfold transitionMetric. cbn [set_runs runs]. by rewrite lookup_insert_eq.
  - done.
  - by intros ->.
  - intros -> msg. unfold messages. rewrite list_elem_of_omap. split.
    + intros (sm & (s & full & repoID & Hk & Hrun & Hst & Hrepo & Hsm)%selectPendingShards_elem & Hm).
      unfold messageOf in Hm. apply fmap_Some in Hm as (a & Ha & ->). rewrite Hsm in Ha. cbn in Ha.
      unfold assignmentAt in Ha. destruct (Z.ltb_spec (s_index s) 0); [done|].
      exists (dsh_id sm), s, full, repoID, a. rewrite Hsm. by split_and!.
    + intros (id & s & full & repoID & a & Hk & Hrun & Hst & Hrepo & Hi & Ha & ->).
      exists (mkDispatchShard id (s_index s) (s_predicted_duration_ms s) full). split.
      * apply selectPendingShards_elem. by exists s, full, repoID.
      * unfold messageOf, assignmentAt. cbn [dsh_index dsh_id dsh_repoFull].
        destruct (Z.ltb_spec (s_index s) 0); [lia|]. by rewrite Ha.
Qed.

(** ** Budgets *)

Definition timedOut (r : run_row) : run_row :=
  r_set_updated_at now (r_set_meta (rm_set_failure_reason "budget_exceeded" (r_meta r))
    (r_set_finished_at (Some (coalesce (r_finished_at r) now)) (r_set_status "failed" r))).

Definition liveStatus (s : string) : bool := existsb (String.eqb s) ["planning"; "dispatching"; "running"].

Lemma overBudget_spec k r : overBudget k now r = true <->
  exists b st, r_budget_seconds r = Some b /\ r_started_at r = Some st /\ st + k * b * 1000000 < now.
Proof.
  unfold overBudget. destruct (r_budget_seconds r) as [b|], (r_started_at r) as [st|]; split; try done.
  - intros H%Z.ltb_lt. exists b, st. split_and!; [done|done|lia].
  - intros (b' & st' & [= <-] & [= <-] & H). apply Z.ltb_lt. lia.
  - by intros (? & ? & ? & ? & ?).
  - by intros (? & ? & ? & ? & ?).
  - by intros (? & ? & ? & ? & ?).
Qed.

Lemma live_late d k r :
  liveStatus (r_status r) && overBudget 1 now r = false -> 0 <= default 0 (r_budget_seconds r) ->
  runs d !! k = Some r ->
  statusIn ["planning"; "dispatching"; "running"; "finalizing"] r = true -> overBudget 2 now r = true ->
  r_status r = "finalizing".
Proof.
  intros Hd Hb Hk Hst (b & st & Hb' & Hst' & Ho)%overBudget_spec. rewrite Hb' in Hb. simpl in Hb.
  assert (Ho1 : overBudget 1 now r = true) by (apply overBudget_spec; exists b, st; split_and!; [done|done|lia]).
  rewrite Ho1, andb_true_r in Hd. unfold statusIn in Hst. unfold liveStatus in Hd. simpl in Hst, Hd.
  destruct (String.eqb (r_status r) "planning"), (String.eqb (r_status r) "dispatching"),
    (String.eqb (r_status r) "running"); try done.
  destruct (String.eqb_spec (r_status r) "finalizing"); done.
Qed.

Definition sweptDB : DB :=
  set_runs (updateAll (fun _ r => liveStatus (r_status r) && overBudget 1 now r) timedOut (runs db)) db.

Lemma swept_lookup k : runs sweptDB !! k =
  (fun r => if liveStatus (r_status r) && overBudget 1 now r then timedOut r else r) <$> runs db !! k.
Proof. unfold sweptDB. cbn [set_runs runs]. by rewrite updateAll_lookup. Qed.

(** No run is live and late after the sweep: a failed run is not live. *)
Lemma swept_none_late k r : runs sweptDB !! k = Some r -> liveStatus (r_status r) && overBudget 1 now r = false.
Proof.
  rewrite swept_lookup, fmap_Some. intros (r0 & _ & ->).
  destruct (liveStatus (r_status r0) && overBudget 1 now r0) eqn:E; [done|done].
Qed.

Lemma swept_budget k r : runs sweptDB !! k = Some r ->
  exists r0, runs db !! k = Some r0 /\ r_budget_seconds r = r_budget_seconds r0.
Proof.
  rewrite swept_lookup, fmap_Some. intros (r0 & Hk & ->). exists r0. split; [done|]. by destruct (_ && _).
Qed.

(** The budget sweep fails exactly the planning, dispatching and running
    runs whose budget has run out, with the reason recorded, finished_at
    stamped once and every other row untouched; the runs the stuck gauge
    counts afterwards are finalizing ones only. *)
Theorem checkBudgets_enforces n out :
  (forall k r, runs db !! k = Some r -> 0 <= default 0 (r_budget_seconds r) < 2 ^ 30) ->
  exists d stuck,
    checkBudgets m (QW db None now u n held out ag)
    = (Ok tt, QW d None now u n held (out ++ if m_Metrics m then [ORunsStuck (Z.of_nat (length stuck))] else []) ag)
    /\ shards d = shards db /\ run_plans d = run_plans db /\ repos d = repos db
    /\ (forall k, runs d !! k = (fun r => if liveStatus (r_status r) && overBudget 1 now r
                                        then timedOut r else r) <$> runs db !! k)
    /\ (forall k r, (k, r) ∈ stuck <-> runs d !! k = Some r /\ r_status r = "finalizing" /\ overBudget 2 now r = true).
Proof.
  intros Hb. exists sweptDB.
  exists (List.filter (fun kv : string * run_row => overBudget 2 now kv.2)
    (List.filter (fun kv : string * run_row =>
       statusIn ["planning"; "dispatching"; "running"; "finalizing"] kv.2
       && bool_decide (is_Some (r_started_at kv.2)) && bool_decide (is_Some (r_budget_seconds kv.2)))
       (map_to_list (runs sweptDB)))).
  split_and!; [|done..|apply swept_lookup|].
  - unfold checkBudgets. erewrite bindM_ok.
    2: { eapply ignoreM_eq. unfold poolExec. simpl. reflexivity. }
    change (commitOther _ _) with (QW sweptDB None now u n held out ag).
    destruct (m_Metrics m); simpl whenM; [|by rewrite app_nil_r].
    erewrite bindM_ok; [|apply tryM_eq; unfold poolExec; simpl; unfold selectStuck; cbv zeta; rewrite forallb_all; [reflexivity|]].
    + reflexivity.
    + intros [k r]. rewrite list_elem_of_In, filter_In, <-list_elem_of_In, elem_of_map_to_list.
      intros [(r0 & Hk & He)%swept_budget _]. cbn [snd]. rewrite He. specialize (Hb _ _ Hk).
      unfold int4, min_int32, max_int32. apply andb_true_iff. rewrite !Z.leb_le. lia.
  - intros k r. rewrite !list_elem_of_In, !filter_In, <-list_elem_of_In, elem_of_map_to_list. cbn [snd]. split.
    + intros [[Hk [[Hst _]%andb_true_iff _]%andb_true_iff] Ho]. split_and!; [done| |done].
      destruct (swept_budget _ _ Hk) as (r0 & Hk0 & He). apply (live_late sweptDB k r); try done.
      * by eapply swept_none_late.
      * rewrite He. by apply (Hb k).
    + intros (Hk & Hst & Ho). pose proof Ho as (b & st & Hb' & Hst' & _)%overBudget_spec.
      rewrite Ho, Hb', Hst'. unfold statusIn. rewrite Hst. by rewrite !bool_decide_true.
Qed.
End dispatching.
