(* ===== verification/Worker.v ===== *)
(** * internal/worker

    The worker agent: claiming a shard from Postgres or from a NATS message,
    loading its tests, running the adapter and recording each result, and the
    drain path of a spot interruption.  The adapter and the log store are
    parameters.

    The interruption handler is a second goroutine: [interleave] marks the points
    between the calls of the main goroutine where it may run, driven by the
    schedule in the agent's state. *)

From S2P Require Import Prelude GoSort GoRegexp Redact Model Scheduler Db Effects Shards.
From S2P Require Import StateMachine Lifecycle RunManager.

(** [adapter.Result]; times in microseconds. *)
Record Result := mkResult {
  rs_Test : TestEntry;
  rs_Outcome : TestOutcome;
  rs_Started : Z;
  rs_Finished : Z;
  rs_DurationMS : Z;
  rs_Stdout : string;
  rs_Stderr : string;
  rs_FailureMessage : string;
  rs_FailureStack : string
}.

(** The agent's configuration: [ag_Execute] is the adapter's run of the tests
    (its results in order, and whether it returned an error), [ag_Upload] whether
    the log store accepts a blob. *)
Record Agent := mkAgent {
  ag_WorkerID : string;
  ag_AdapterName : string;
  ag_Execute : list TestEntry -> list Result * bool;
  ag_Upload : string -> string -> bool
}.

(** ** Draining *)

Definition stmtPreempt (shardID : string) : Stmt Z := fun now =>
  updateShard shardID (fun s => String.eqb (s_status s) "running")
    (fun s => s_set_finished_at (Some now) (s_set_status "preempted" s)) now.

(** The column is int4: one more than fits is an error of the statement. *)
Definition stmtBumpPreemptions (shardID : string) : Stmt Z := fun now db =>
  match shards db !! shardID with
  | Some s =>
      match runs db !! s_run_id s with
      | Some r =>
          if int4 (r_preemption_count r + 1)
          then updateRun (s_run_id s) (fun _ => true) (r_set_preemption_count (r_preemption_count r + 1)) now db
          else (Err (PgError "22003"), db)
      | None => (Ok 0, db)
      end
  | None => (Ok 0, db)
  end.

Definition beginDrain : M unit :=
  ag ←! getAgent ;
  if ag_draining ag then retM tt
  else
    setAgent (mkAgentState true (ag_currentShardID ag) (ag_schedule ag)) ;!
    let cur := ag_currentShardID ag in
    if String.eqb cur "" then retM tt
    else
      r ←! tryM (poolExec (stmtPreempt cur)) ;
      match r with
      | Ok n => if n =? 0 then retM tt else ignoreM (poolExec (stmtBumpPreemptions cur))
      | Err _ => retM tt
      end.

(** [watchSpot]: what comes out of the watcher's channel, [None] when it is
    closed. *)
Definition watchSpot (notice : option string) : M unit :=
  match notice with
  | None => retM tt
  | Some action => if String.eqb action "" then retM tt else beginDrain
  end.

(** A point where the interruption handler may run. *)
Definition interleave : M unit :=
  ag ←! getAgent ;
  match ag_schedule ag with
  | [] => retM tt
  | b :: sched =>
      setAgent (mkAgentState (ag_draining ag) (ag_currentShardID ag) sched) ;!
      whenM b (watchSpot (Some "terminate"))
  end.

Definition isDraining : M bool := ag ←! getAgent ; retM (ag_draining ag).

Definition storeCurrent (shardID : string) : M unit :=
  ag ←! getAgent ; setAgent (mkAgentState (ag_draining ag) shardID (ag_schedule ag)).

(** ** Loading the tests of a shard *)

Definition decodeManifestTests (d : plan_doc) : result (list TestEntry) :=
  match unmarshalManifest d with Ok mf => Ok (tm_Tests mf) | Err e => Err e end.

(** [meta->'reshards'->id] of the shard's run: no row, or the column, maybe
    NULL. *)
Definition selectReshard (shardID : string) (db : DB) : option (option TestManifest) :=
  match shards db !! shardID with
  | Some s => (fun r => rm_reshards (r_meta r) !! shardID) <$> runs db !! s_run_id s
  | None => None
  end.

Definition selectPlanOfShard (shardID : string) (db : DB) : option (plan_doc * Z * Z) :=
  match shards db !! shardID with
  | Some s => (fun p => (p, s_index s, countShards (s_run_id s) db)) <$> run_plans db !! s_run_id s
  | None => None
  end.

Definition loadTestsForShard (shardID : string) : M (list TestEntry) :=
  r ←! tryM (scanRow (txExec (query (selectReshard shardID)))) ;
  let fallback :=
    row ←! scanRow (txExec (query (selectPlanOfShard shardID))) ;
    match row with
    | (manifestJSON, index, totalShards) =>
        match decodeManifestTests manifestJSON with
        | Err e => throwM e
        | Ok [] => retM []
        | Ok all => retM (roundRobin totalShards index all)
        end
    end in
  match r with
  | Err e => if errorsIs e ErrNoRows then fallback else throwM e
  | Ok None => fallback
  | Ok (Some mf) =>
      match tm_Tests mf with
      | [] => fallback
      | tests => retM tests
      end
  end.

(** ** Recording results *)

Definition newline : ascii := ascii_of_nat 10.
Definition nl : string := String newline EmptyString.

(** [s], and a newline if it does not end in one ([s] is not empty). *)
Definition withNewline (s : string) (out : string) : string :=
  if bool_decide (last (toText s) = Some newline) then out else out +:+ nl.

(** The blob of a test's log.  The newline test of stdout and stderr looks at
    the unredacted text. *)
Definition logBlob (r : Result) : string :=
  (if String.eqb (rs_Stdout r) "" then ""
   else "=== stdout ===" +:+ nl +:+ withNewline (rs_Stdout r) (redactString (rs_Stdout r)))
  +:+ (if String.eqb (rs_Stderr r) "" then ""
       else "=== stderr ===" +:+ nl +:+ withNewline (rs_Stderr r) (redactString (rs_Stderr r)))
  +:+ (if String.eqb (rs_FailureMessage r) "" && String.eqb (rs_FailureStack r) "" then ""
       else "=== failure ===" +:+ nl
            +:+ (let msg := redactString (rs_FailureMessage r) in
                 if String.eqb msg "" then "" else msg +:+ nl)
            +:+ (let stk := redactString (rs_FailureStack r) in
                 if String.eqb stk "" then "" else withNewline stk stk)).

Definition logKeyOf (runID shardID testID : string) : string :=
  "runs/" +:+ runID +:+ "/shards/" +:+ shardID +:+ "/tests/" +:+ testID +:+ "/1.log".

Definition uploadLog (a : Agent) (runID shardID testID : string) (r : Result) : M string :=
  if String.eqb (rs_Stdout r) "" && String.eqb (rs_Stderr r) "" then retM ""
  else
    let key := logKeyOf runID shardID testID in
    emit (OUploadLog key (logBlob r)) ;!
    retM (if ag_Upload a key (logBlob r) then key else "").

Definition fingerprintOf (e : TestEntry) : string :=
  te_Path e +:+ "::" +:+ te_Name e +:+ "::" +:+ te_ParamsHash e +:+ "::" +:+ te_ASTSignature e.

(** [INSERT INTO teo.tests .. ON CONFLICT (repo_id, fingerprint) DO UPDATE SET
    last_seen = now() RETURNING id]; [fresh] is the generated id. *)
Definition upsertTest (fresh repoID fingerprint path name params sig runner : string) : Stmt string :=
  fun now db =>
    match List.find (fun kv : string * test_row =>
        String.eqb (ts_repo_id kv.2) repoID && String.eqb (ts_fingerprint kv.2) fingerprint)
        (map_to_list (tests db)) with
    | Some (id, t) =>
        (Ok id, set_tests (<[id := mkTestRow (ts_repo_id t) (ts_fingerprint t) (ts_path t) (ts_name t)
           (ts_params_hash t) (ts_ast_signature t) (ts_runner t) (ts_status t) (ts_quarantined_at t)
           (ts_quarantine_reason t) now (ts_owner_team t)]> (tests db)) db)
    | None =>
        if negb (bool_decide (is_Some (repos db !! repoID))) then (Err (PgError "23503"), db)
        else if bool_decide (is_Some (tests db !! fresh)) then (Err uniqueViolation, db)
        else (Ok fresh, set_tests (<[fresh := mkTestRow repoID fingerprint path name params sig runner
                "active" None None now None]> (tests db)) db)
    end.

Definition outcomes : list string :=
  ["passed"; "failed"; "skipped"; "errored"; "timed_out"; "interrupted"].

(** [INSERT INTO teo.test_executions .. ON CONFLICT (shard_id, test_id, attempt)
    DO NOTHING], with the column types, the outcome check and the references. *)
Definition insertExecution (fresh shardID testID : string) (attempt : Z) (outcome : string)
    (duration_ms started finished : Z) (logKey cluster : option string) : Stmt unit := fun now db =>
  if negb (int4 attempt && int4 duration_ms) then (Err errEncode, db)
  else if negb (existsb (String.eqb outcome) outcomes) then (Err (PgError "23514"), db)
  else match test_executions db !! (shardID, testID, attempt) with
  | Some _ => (Ok tt, db)
  | None =>
      if negb (bool_decide (is_Some (shards db !! shardID)) && bool_decide (is_Some (tests db !! testID)))
      then (Err (PgError "23503"), db)
      else (Ok tt, set_test_executions (<[(shardID, testID, attempt) :=
              mkExecRow fresh outcome duration_ms None started finished logKey cluster]>
              (test_executions db)) db)
  end.

Definition nullIf (s : string) : option string := if String.eqb s "" then None else Some s.

Definition recordResult (a : Agent) (runID shardID : string) (r : Result) : M unit :=
  repo ←! tryM (scanRow (poolExec (query (fun db => r_repo_id <$> runs db !! runID)))) ;
  let repoID := match repo with Ok id => id | Err _ => "" end in
  let t := rs_Test r in
  fresh ←! newUUID ;
  up ←! tryM (poolExec (upsertTest fresh repoID (fingerprintOf t) (te_Path t) (te_Name t)
                 (te_ParamsHash t) (te_ASTSignature t) (ag_AdapterName a))) ;
  match up with
  | Err _ => retM tt
  | Ok testID =>
      logKey ←! uploadLog a runID shardID testID r ;
      fresh' ←! newUUID ;
      ignoreM (poolExec (insertExecution fresh' shardID testID 1 (rs_Outcome r) (rs_DurationMS r)
                 (rs_Started r) (rs_Finished r) (nullIf logKey) None))
  end.

(** ** Executing a shard *)

Definition stmtShardDone (shardID status : string) : Stmt Z := fun now =>
  updateShard shardID (fun _ => true)
    (fun s => s_set_finished_at (Some now) (s_set_status status s)) now.

Definition executeShard (a : Agent) (runID shardID : string) (ts : list TestEntry) : M unit :=
  match ts with
  | [] => ignoreM (poolExec (stmtShardDone shardID "succeeded"))
  | _ =>
      emit (OExecute ts) ;!
      forM_ (ag_Execute a ts).1 (fun r => recordResult a runID shardID r ;! interleave) ;!
      draining ←! isDraining ;
      if draining then retM tt
      else if (ag_Execute a ts).2 then ignoreM (poolExec (stmtShardDone shardID "failed"))
      else ignoreM (poolExec (stmtShardDone shardID "succeeded"))
  end.

(** ** Claiming *)

(** The shards a worker may claim, oldest first. *)
Definition claimable (db : DB) : list (string * shard_row) :=
  selectOrdered (fun _ s => String.eqb (s_status s) "pending"
      && match runs db !! s_run_id s with
         | Some r => statusIn ["dispatching"; "running"] r
         | None => false
         end) s_created_at (shards db).

(** [UPDATE .. WHERE id = (SELECT .. LIMIT 1 FOR UPDATE SKIP LOCKED) RETURNING
    id, run_id] with the new values given by [f]. *)
Definition claimOldest (f : Z -> shard_row -> shard_row) : Stmt (option (string * shard_row)) :=
  fun now db =>
    match claimable db with
    | [] => (Ok None, db)
    | (id, s) :: _ => (Ok (Some (id, f now s)), set_shards (<[id := f now s]> (shards db)) db)
    end.

Definition stmtClaim (workerID : string) : Stmt (option (string * shard_row)) :=
  claimOldest (fun now s => s_set_started_at (Some now)
    (s_set_worker_id (Some workerID) (s_set_status "running" s))).

(** What the claim's transaction came to. *)
Inductive claim :=
  | NoWork
  | Claimed (shardID runID : string) (tests : list TestEntry).

Definition claimTx (a : Agent) : M claim :=
  withTx
    (row ←! txExec (stmtClaim (ag_WorkerID a)) ;
     match row with
     | None => txCommit ;! retM NoWork
     | Some (shardID, s) =>
         ts ←! loadTestsForShard shardID ;
         txCommit ;!
         retM (Claimed shardID (s_run_id s) ts)
     end).

Definition tryClaimAndRun (a : Agent) : M unit :=
  draining ←! isDraining ;
  if draining then retM tt
  else
    interleave ;!
    c ←! claimTx a ;
    match c with
    | NoWork => retM tt
    | Claimed shardID runID ts =>
        interleave ;!
        storeCurrent shardID ;!
        interleave ;!
        executeShard a runID shardID ts ;!
        storeCurrent ""
    end.

(** One turn of [Run]'s loop: [true] when the worker exits. *)
Definition runOnce (a : Agent) : M bool :=
  ag ←! getAgent ;
  if ag_draining ag then retM (String.eqb (ag_currentShardID ag) "")
  else ignoreM (tryClaimAndRun a) ;! retM false.

(** ** NATS *)

Definition stmtClaimById (workerID shardID : string) : Stmt Z := fun now =>
  updateShard shardID (fun s => String.eqb (s_status s) "pending")
    (fun s => s_set_started_at (Some (coalesce (s_started_at s) now))
       (s_set_worker_id (Some workerID) (s_set_status "running" s))) now.

(** The claim of the shard a message names: nothing when it is no longer pending. *)
Definition claimMessage (a : Agent) (d : ShardDispatch) : M claim :=
  n ←! poolExec (stmtClaimById (ag_WorkerID a) (sd_ShardID d)) ;
  retM (if n =? 0 then NoWork else Claimed (sd_ShardID d) (sd_RunID d) (sd_Tests d)).

(** [msg] is the decoded message, [None] when it does not decode. *)
Definition handleMessage (a : Agent) (msg : option ShardDispatch) : M unit :=
  draining ←! isDraining ;
  if draining then emit (ONak 5)
  else match msg with
  | None => emit OAck
  | Some d =>
      interleave ;!
      r ←! tryM (claimMessage a d) ;
      match r with
      | Err _ => emit (ONak 15)
      | Ok NoWork => emit OAck
      | Ok (Claimed shardID runID ts) =>
          interleave ;!
          storeCurrent shardID ;!
          interleave ;!
          executeShard a runID shardID ts ;!
          emit OAck ;!
          storeCurrent ""
      end
  end.
