(* ===== verification/Pytest.v ===== *)
(** * pkg/adapter/pytest

    Discovery from the collect-only listing and execution from the JSON report.
    What the pytest process prints, and what the Python helper says about the
    bodies of the tests, are parameters; so is the decoding of the report. *)

From S2P Require Import Prelude GoBytes GoFloat GoFmt GoRegexp GoStrings Model Effects Worker.

(** ** Shared by the adapters *)

(** [mergeEnv]; the map in the order it is ranged over. *)
Definition mergeEnv (base : list string) (extra : list (string * string)) : list string :=
  match extra with [] => base | _ => base ++ ((fun kv => kv.1 +:+ "=" +:+ kv.2) <$> extra) end.

(** [distinctPaths]: each path at its first place. *)
Fixpoint distinctFrom (seen : list string) (ps : list string) : list string :=
  match ps with
  | [] => []
  | p :: ps' => if existsb (String.eqb p) seen then distinctFrom seen ps' else p :: distinctFrom (p :: seen) ps'
  end.
Definition distinctPaths (entries : list TestEntry) : list string := distinctFrom [] (te_Path <$> entries).

(** What the database keeps of a time in nanoseconds. *)
Definition micros (ns : Z) : Z := ns / 1000.

(** ** Discovery *)

Definition colons : text := toText "::".

(** [fmt.Sprintf("%x", []byte(params))] *)
Definition hashParams (params : text) : string :=
  match params with [] => "" | _ => hexString (bytesOf (ofText params)) end.

(** [strings.Index(s, "["); br > 0] *)
Definition bracketAt (s : text) : option nat :=
  match index s ["["%char] with Some (S b) => Some (S b) | _ => None end.

(** The name without its parameters, and these; [None] when the slice
    [name[br+1 : len(name)-1]] is out of range. *)
Definition splitParams (name : text) : option (text * text) :=
  match bracketAt name with
  | Some br =>
      if (S br <=? length name - 1)%nat
      then Some (take br name, take (length name - 1 - S br) (drop (S br) name)) else None
  | None => Some (name, [])
  end.

(** One line of the listing: [None] is a panic, [Some None] a line passed over. *)
Definition collectLine (raw : text) : option (option TestEntry) :=
  let line := trimSpace raw in
  if bool_decide (line = []) || hasPrefix line (toText "=") || hasPrefix line (toText "no tests ran") then Some None
  else if contains line (toText "test") && contains line (toText "collected") then Some None
  else match index line colons with
  | None => Some None
  | Some idx =>
      match splitParams (drop (idx + 2) line) with
      | None => None
      | Some (name, params) =>
          Some (Some (mkTestEntry (ofText (take idx line)) (ofText name) (hashParams params) "" []))
      end
  end.

Fixpoint collectLines (ls : list text) : option (list TestEntry) :=
  match ls with
  | [] => Some []
  | l :: ls' =>
      match collectLine l with
      | None => None
      | Some o => (fun out => match o with Some e => e :: out | None => out end) <$> collectLines ls'
      end
  end.

(** The error of the scanner is not looked at. *)
Definition parseCollect (b : text) : option (list TestEntry) :=
  collectLines (scanLines maxScanTokenSize (rawLines b)).1.

Definition stripParams (nodeID : string) : string :=
  match bracketAt (toText nodeID) with Some br => ofText (take br (toText nodeID)) | None => nodeID end.

Definition te_set_sig (sig : string) (e : TestEntry) : TestEntry :=
  mkTestEntry (te_Path e) (te_Name e) (te_ParamsHash e) sig (te_Tags e).

Definition attachSignatures (entries : list TestEntry) (sigs : gmap string (gmap string string)) : list TestEntry :=
  (fun e => match sigs !! te_Path e with
    | Some byName => te_set_sig (default "" (byName !! stripParams (te_Name e))) e
    | None => e
    end) <$> entries.

(** [collect] is the output of the collect-only process, [astSignatures] what the
    helper answers for some paths. *)
Definition Discover (collect : result text) (astSignatures : list string -> option (gmap string (gmap string string)))
    : option (result (list TestEntry)) :=
  match collect with
  | Err e => Some (Err (ErrWrap "pytest collect" e))
  | Ok out =>
      (fun entries => Ok match astSignatures (distinctPaths entries) with
        | Some sigs => attachSignatures entries sigs
        | None => entries
        end) <$> parseCollect out
  end.

(** ** Execution *)

Record jsonTest := mkJsonTest {
  jt_NodeID : string;
  jt_Outcome : string;
  jt_Duration : float64;
  jt_Longrepr : string;
  jt_CrashMessage : string
}.

(** The report file after the process ended: unreadable, not the JSON expected,
    or its tests. *)
Inductive reportFile :=
  | NoReport (err : string)
  | BadReport (err : error)
  | Report (tests : list jsonTest).

(** One run of the process: whether the temporary directory was made, the file,
    its stderr, the clock when it starts and when the k-th fallback result is
    made. *)
Record pytestRun := mkPytestRun {
  py_TempDir : bool;
  py_Report : reportFile;
  py_Stderr : string;
  py_Started : Z;
  py_Now : nat -> Z
}.

Definition translateOutcome (s : string) : TestOutcome :=
  if String.eqb s "passed" then OutcomePassed
  else if String.eqb s "failed" then OutcomeFailed
  else if String.eqb s "skipped" then OutcomeSkipped
  else OutcomeErrored.

Definition nodeID (t : TestEntry) : string := te_Path t +:+ "::" +:+ te_Name t.

Definition pytestArgs (reportPath : string) (tests : list TestEntry) : list string :=
  ["--json-report"; "--json-report-file=" +:+ reportPath; "--no-header"; "-q"] ++ (nodeID <$> tests).

(** [indexByID]: of two entries with one id the later counts. *)
Definition indexByID (tests : list TestEntry) : gmap string TestEntry :=
  foldl (fun m t => <[nodeID t := t]> m) ∅ tests.

Definition resultOf (tests : list TestEntry) (started : Z) (jt : jsonTest) : Result :=
  let entry := default (mkTestEntry "?" (jt_NodeID jt) "" "" []) (indexByID tests !! stripParams (jt_NodeID jt)) in
  mkResult entry (translateOutcome (jt_Outcome jt)) (micros started)
    (micros (started + f64_trunc (f64_mul (jt_Duration jt) (f64_ofZ second))))
    (f64_trunc (f64_mul (jt_Duration jt) (f64_ofZ 1000))) "" "" (jt_CrashMessage jt) (jt_Longrepr jt).

(** When there is no report every test is errored. *)
Definition erroredResult (p : pytestRun) (err : string) (k : nat) (t : TestEntry) : Result :=
  mkResult t OutcomeErrored (micros (py_Started p)) (micros (py_Now p k))
    (Z.quot (py_Now p k - py_Started p) 1000000) "" (py_Stderr p) ("pytest produced no JSON report: " +:+ err) "".

(** [Execute]: the results handed to the callback, in order, and whether an error
    is returned.  [run] is the process, given its arguments and environment. *)
Definition Execute (reportPath : string) (environ : list string) (run : list string -> list string -> pytestRun)
    (tests : list TestEntry) (env : list (string * string)) : list Result * bool :=
  match tests with
  | [] => ([], false)
  | _ =>
      let p := run (pytestArgs reportPath tests) (mergeEnv environ env) in
      if negb (py_TempDir p) then ([], true)
      else match py_Report p with
      | NoReport err => (imap (erroredResult p err) tests, false)
      | BadReport _ => ([], true)
      | Report l => (resultOf tests (py_Started p) <$> l, false)
      end
  end.

Example collect_demo : parseCollect (toText ("tests/t.py::A::test_b[1-2]" +:+ nl +:+ "t.py::test_items_collected" +:+ nl +:+ "3 tests collected"))
  = Some [mkTestEntry "tests/t.py" "A::test_b" "312d32" "" []].
Proof. vm_compute. reflexivity. Qed.
Example collect_panics : collectLine (toText "t.py::test_a[") = None.
Proof. vm_compute. reflexivity. Qed.
