(* ===== verification/Gotest.v ===== *)
(** * pkg/adapter/gotest

    Discovery from [go test -list] and execution from the [go test -json] event
    streams, one process per package.  The processes, the decoding of an event
    line, the signatures of the sources and the order in which Go ranges over the
    map of packages are parameters. *)

From S2P Require Import Prelude GoFloat GoFmt GoRegexp GoStrings Model Effects Worker Pytest.

(** ** Discovery *)

(** [strings.Split(strings.TrimSpace(string(out)), "\n")], trimmed. *)
Definition trimmedLines (out : text) : list text := trimSpace <$> splitOn lineFeed (trimSpace out).

Definition isTestName (t : text) : bool :=
  negb (bool_decide (t = []) || hasPrefix t (toText "ok") || hasPrefix t (toText "?") || hasPrefix t (toText "FAIL"))
  && (hasPrefix t (toText "Test") || hasPrefix t (toText "Benchmark") || hasPrefix t (toText "Example")).

Definition listedTests (sigs : gmap string string) (pkg : string) (out : text) : list TestEntry :=
  (fun t => mkTestEntry pkg (ofText t) "" (default "" (sigs !! (pkg +:+ "::" +:+ ofText t))) [])
    <$> List.filter isTestName (trimmedLines out).

(** [listed] is the output of [go list ./...], [listTests] that of [go test -list
    . pkg], if it succeeds. *)
Definition DiscoverGo (listed : result text) (sigs : gmap string string) (listTests : string -> option text)
    : result (list TestEntry) :=
  match listed with
  | Err e => Err (ErrWrap "go list" e)
  | Ok out =>
      let packages := ofText <$> List.filter (fun t => negb (bool_decide (t = []))) (trimmedLines out) in
      Ok (concat ((fun pkg => match listTests pkg with Some o => listedTests sigs pkg o | None => [] end) <$> packages))
  end.

(** ** Events *)

Record goEvent := mkGoEvent {
  ge_Action : string;
  ge_Package : string;
  ge_Test : string;
  ge_Output : string;
  ge_Elapsed : float64
}.

(** The outcome a terminal event stands for. *)
Definition terminalOutcome (action : string) : option TestOutcome :=
  if String.eqb action "pass" then Some OutcomePassed
  else if String.eqb action "fail" then Some OutcomeFailed
  else if String.eqb action "skip" then Some OutcomeSkipped
  else None.

Section events.
Context (unmarshal : text -> option goEvent) (pkg : string) (indexByKey : gmap string TestEntry) (startWall : Z).

Definition goResult (start : Z) (key test : string) (outcome : TestOutcome) (elapsed : float64) : Result :=
  let dur := f64_trunc (f64_mul elapsed (f64_ofZ second)) in
  mkResult (default (mkTestEntry pkg test "" "" []) (indexByKey !! key)) outcome
    (micros start) (micros (start + dur)) (Z.quot dur 1000000) "" "" "" "".

(** One line read at time [now]. *)
Definition processLine (now : Z) (line : text) (startedAt : gmap string Z) : gmap string Z * list Result :=
  match unmarshal line with
  | None => (startedAt, [])
  | Some ev =>
      if String.eqb (ge_Test ev) "" then (startedAt, [])
      else
        let key := pkg +:+ "::" +:+ ge_Test ev in
        if String.eqb (ge_Action ev) "run" then (<[key := now]> startedAt, [])
        else match terminalOutcome (ge_Action ev) with
        | Some outcome =>
            (startedAt, [goResult (default startWall (startedAt !! key)) key (ge_Test ev) outcome (ge_Elapsed ev)])
        | None => (startedAt, [])
        end
  end.

Fixpoint processLines (now : nat -> Z) (ls : list text) (startedAt : gmap string Z) : list Result :=
  match ls with
  | [] => []
  | l :: ls' =>
      let '(startedAt', rs) := processLine (now 0%nat) l startedAt in
      rs ++ processLines (fun k => now (S k)) ls' startedAt'
  end.

Definition maxEventLine : nat := Z.to_nat 1048576.

(** [now k] is the time the k-th line is handled. *)
Definition processEvents (now : nat -> Z) (stream : text) : list Result :=
  processLines now (scanLines maxEventLine (rawLines stream)).1 ∅.
End events.

(** ** Execution *)

(** The top-level test of a subtest. *)
Definition baseName (name : string) : string :=
  match index (toText name) ["/"%char] with Some (S i) => ofText (take (S i) (toText name)) | _ => name end.

Definition dedupe (names : list string) : list string := distinctFrom [] names.

Definition goArgs (pkg : string) (tests : list TestEntry) : list string :=
  let names := (fun t => baseName (te_Name t)) <$> List.filter (fun t => String.eqb (te_Path t) pkg) tests in
  ["test"; "-json"; "-run"; "^(" +:+ String.concat "|" (dedupe names) +:+ ")$"; pkg].

(** A process: whether it starts, what it prints and when each line is read. *)
Record goProcess := mkGoProcess {
  gp_Starts : bool;
  gp_Stream : text;
  gp_Now : nat -> Z
}.

Section execute.
Context (unmarshal : text -> option goEvent) (order : list string -> list string) (startWall : Z)
  (run : list string -> list string -> goProcess) (environ : list string).

(** The packages one after the other; a process that does not start ends the
    loop. *)
Fixpoint runPackages (indexByKey : gmap string TestEntry) (tests : list TestEntry) (env : list (string * string))
    (pkgs : list string) : list Result * bool :=
  match pkgs with
  | [] => ([], false)
  | pkg :: pkgs' =>
      let p := run (goArgs pkg tests) (mergeEnv environ env) in
      if negb (gp_Starts p) then ([], true)
      else
        let '(rs, err) := runPackages indexByKey tests env pkgs' in
        (processEvents unmarshal pkg indexByKey startWall (gp_Now p) (gp_Stream p) ++ rs, err)
  end.

(** [indexByKey] is built as pytest's index: of two entries with one key the
    later counts. *)
Definition ExecuteGo (tests : list TestEntry) (env : list (string * string)) : list Result * bool :=
  match tests with
  | [] => ([], false)
  | _ => runPackages (indexByID tests) tests env (order (distinctPaths tests))
  end.
End execute.
