(* ===== verification/Jest.v ===== *)
(** * pkg/adapter/jest

    Discovery of test files and execution from the JSON report.  The processes,
    the decoding of their JSON and [filepath.Rel] against the work directory are
    parameters. *)

From S2P Require Import Prelude GoFloat GoFmt GoRegexp GoStrings Model Effects Worker Pytest.

(** ** Discovery *)

(** [paths] is what the listing decodes to; the error of [filepath.Rel] is not
    looked at. *)
Definition parseListTests (rel : string -> string) (paths : result (list string)) : result (list TestEntry) :=
  match paths with
  | Err e => Err (ErrWrap "parse listTests" e)
  | Ok ps => Ok ((fun p => mkTestEntry (rel p) "<file>" "" "" []) <$> ps)
  end.

Definition DiscoverJest (rel : string -> string) (listed : result (result (list string))) : result (list TestEntry) :=
  match listed with
  | Err e => Err (ErrWrap "jest --listTests" e)
  | Ok paths => parseListTests rel paths
  end.

(** ** The report *)

Record assertionResult := mkAssertionResult {
  ar_AncestorTitles : list string;
  ar_Title : string;
  ar_FullName : string;
  ar_Status : string;
  ar_Duration : float64;
  ar_FailureMessages : list string
}.

Record jestFile := mkJestFile {
  jf_Name : string;
  jf_AssertionResults : list assertionResult
}.

Abbreviation jestReport := (list jestFile) (only parsing).

Definition translate (s : string) : TestOutcome :=
  if String.eqb s "passed" then OutcomePassed
  else if String.eqb s "failed" then OutcomeFailed
  else if String.eqb s "skipped" || String.eqb s "pending" || String.eqb s "todo" then OutcomeSkipped
  else OutcomeErrored.

Definition assertionName (r : assertionResult) : string := String.concat " > " (ar_AncestorTitles r ++ [ar_Title r]).

Definition sigOf (sigs : gmap string (gmap string string)) (path name : string) : string :=
  match sigs !! path with Some byName => default "" (byName !! name) | None => "" end.

Definition jestResult (sigs : gmap string (gmap string string)) (started : Z) (path : string) (r : assertionResult) : Result :=
  let name := assertionName r in
  mkResult (mkTestEntry path name "" (sigOf sigs path name) []) (translate (ar_Status r)) (micros started)
    (micros (started + f64_trunc (ar_Duration r) * 1000000)) (f64_trunc (ar_Duration r)) "" "" ""
    (String.concat nl (ar_FailureMessages r)).

(** The results for the callback, and whether an error is returned. *)
Definition parseReport (rel : string -> string) (rep : result jestReport) (started : Z)
    (sigs : gmap string (gmap string string)) : list Result * bool :=
  match rep with
  | Err _ => ([], true)
  | Ok files => (concat ((fun f => jestResult sigs started (rel (jf_Name f)) <$> jf_AssertionResults f) <$> files), false)
  end.

(** ** Execution *)

(** One run: whether the temporary directory was made, the report file ([None]
    unreadable, else its decoding), the clock. *)
Record jestRun := mkJestRun {
  js_TempDir : bool;
  js_Report : option (result jestReport);
  js_Started : Z;
  js_Now : nat -> Z
}.

Definition jestArgs (reportPath : string) (tests : list TestEntry) : list string :=
  ["--json"; "--outputFile=" +:+ reportPath; "--passWithNoTests"] ++ (te_Path <$> tests).

Definition erroredJest (p : jestRun) (k : nat) (t : TestEntry) : Result :=
  mkResult t OutcomeErrored (micros (js_Started p)) (micros (js_Now p k))
    (Z.quot (js_Now p k - js_Started p) 1000000) "" "" "" "".

Definition ExecuteJest (rel : string -> string) (reportPath : string) (environ : list string)
    (run : list string -> list string -> jestRun) (astSignatures : list string -> gmap string (gmap string string))
    (tests : list TestEntry) (env : list (string * string)) : list Result * bool :=
  match tests with
  | [] => ([], false)
  | _ =>
      let p := run (jestArgs reportPath tests) (mergeEnv environ env) in
      if negb (js_TempDir p) then ([], true)
      else match js_Report p with
      | None => (imap (erroredJest p) tests, false)
      | Some rep => parseReport rel rep (js_Started p) (astSignatures (distinctPaths tests))
      end
  end.
