(* ===== verification/Astsig.v ===== *)
(** * The signatures of test bodies

    astsig.go of the three adapters: the hash of a Go function's syntax tree, the
    Node program that hashes the callbacks of a Jest file and names them by their
    describe blocks, the Python program, and the calls of the two programs.  The
    parsers, ast.dump and the processes are parameters.  A signature looks at the
    shape of a body, its names and its literals: not at its operators. *)

From S2P Require Import Prelude GoBytes GoRegexp GoStrings GoFmt Model Effects Pytest Jest.

(** Sixteen hexadecimal digits of SHA-256. *)
Definition shortHash (s : string) : string := ofText (take 16 (toText (hexString (sha256 (bytesOf s))))).

(** ** Go *)

(** A node of go/ast: identifiers and basic literals, and for any other node its
    type, its tokens (operators, directions) and its children in the order of
    ast.Walk. *)
#[warnings="-register-all"]
Inductive goNode :=
  | GoIdent (name : string)
  | GoBasicLit (kind value : string)
  | GoOther (type : string) (tokens : list string) (children : list goNode).

(** What [ast.Inspect] writes to the hash. *)
Fixpoint goWrites (n : goNode) : string :=
  match n with
  | GoIdent name => "id:" +:+ name +:+ ";"
  | GoBasicLit kind value => "lit:" +:+ kind +:+ ":" +:+ value +:+ ";"
  | GoOther type _ children =>
      "*ast." +:+ type +:+ ";" +:+ (fix go (l : list goNode) : string := match l with [] => "" | c :: l' => goWrites c +:+ go l' end) children
  end.

(** [None]: no function or no body. *)
Definition goASTSignature (body : option goNode) : string :=
  match body with None => "" | Some b => shortHash (goWrites b) end.

(** A top-level declaration: a function with its receiver, name and body, or
    another. *)
Inductive goDecl :=
  | GoFuncDecl (recv : bool) (name : string) (body : option goNode)
  | GoOtherDecl.

Definition isTestFunc (name : string) : bool :=
  hasPrefix (toText name) (toText "Test") || hasPrefix (toText name) (toText "Benchmark") || hasPrefix (toText name) (toText "Example").

Definition addDecl (importPath : string) (sigs : gmap string string) (d : goDecl) : gmap string string :=
  match d with
  | GoFuncDecl false name body => if isTestFunc name then <[importPath +:+ "::" +:+ name := goASTSignature body]> sigs else sigs
  | _ => sigs
  end.

(** [parse] is [parser.ParseFile] of a file in a directory. *)
Definition parseGoTestFile (parse : string -> string -> option (list goDecl)) (importPath dir file : string)
    (sigs : gmap string string) : gmap string string :=
  match parse dir file with
  | None => sigs
  | Some decls => foldl (addDecl importPath) sigs decls
  end.

Definition tab : ascii := "009".
Definition comma : ascii := ",".

Definition splitList (s : text) : list text := match s with [] => [] | _ => splitOn comma s end.

(** One line of [go list]. *)
Definition addPackage (parse : string -> string -> option (list goDecl)) (sigs : gmap string string) (line : text) : gmap string string :=
  let line := rev (dropWhile (lit "013") (rev line)) in
  match line with
  | [] => sigs
  | _ =>
      match splitOn tab line with
      | [importPath; dir; files; xfiles] =>
          foldl (fun sigs f => parseGoTestFile parse (ofText importPath) (ofText dir) (ofText f) sigs) sigs (splitList files ++ splitList xfiles)
      | _ => sigs
      end
  end.

(** [astSignatures] of the Go adapter; [None]: the command failed. *)
Definition goAstSignatures (parse : string -> string -> option (list goDecl)) (out : option text) : gmap string string :=
  match out with
  | None => ∅
  | Some out => foldl (addPackage parse) ∅ (splitOn "010" out)
  end.

(** ** The Node program *)

(** A JavaScript value of the syntax tree: an object with its [type], if that is
    a string, and its other fields in order; an array; a string; any other value
    with what String() makes of it. *)
#[warnings="-register-all"]
Inductive jsval :=
  | JsObj (type : option string) (fields : list (string * jsval))
  | JsArr (l : list jsval)
  | JsStr (s : string)
  | JsScalar (s : string).

(** [n[k]]; a field that is not there is undefined. *)
Definition jsField (k : string) (v : jsval) : jsval :=
  match v with
  | JsObj _ fields => match List.find (fun f => String.eqb f.1 k) fields with Some f => f.2 | None => JsScalar "undefined" end
  | _ => JsScalar "undefined"
  end.

Definition jsType (v : jsval) : option string := match v with JsObj t _ => t | _ => None end.
Definition hasType (v : jsval) (t : string) : bool := bool_decide (jsType v = Some t).

(** [String(v)], for the values of names and literals. *)
Definition jsString (v : jsval) : string :=
  match v with JsStr s | JsScalar s => s | _ => "[object Object]" end.

Definition jsElements (v : jsval) : list jsval := match v with JsArr l => l | _ => [] end.

Definition SKIP_KEYS : list string :=
  ["loc"; "start"; "end"; "range"; "leadingComments"; "trailingComments"; "innerComments"; "comments"; "tokens"].
Definition skipped (k : string) : bool := existsb (String.eqb k) SKIP_KEYS.

Definition calleeName (node : jsval) : option string :=
  let c := jsField "callee" node in
  let c := if hasType c "MemberExpression" then jsField "object" c else c in
  if hasType c "Identifier" then Some (jsString (jsField "name" c)) else None.

Definition staticTitle (node : jsval) : option string :=
  match jsElements (jsField "arguments" node) with
  | [] => None
  | a :: _ =>
      if hasType a "StringLiteral" then Some (jsString (jsField "value" a))
      else if hasType a "TemplateLiteral" && Nat.eqb (length (jsElements (jsField "expressions" a))) 0 then
        Some (String.concat "" ((fun q => jsString (jsField "cooked" (jsField "value" q))) <$> jsElements (jsField "quasis" a)))
      else None
  end.

Definition callbackFn (node : jsval) : option jsval :=
  List.find (fun a => hasType a "FunctionExpression" || hasType a "ArrowFunctionExpression") (drop 1 (jsElements (jsField "arguments" node))).

(** The literal types whose value is hashed. *)
Definition hashedLiteral (t : string) : bool := existsb (String.eqb t) ["StringLiteral"; "NumericLiteral"; "BooleanLiteral"].

(** What is hashed of a node itself. *)
Definition nodeWrites (t : string) (n : jsval) : string :=
  t +:+ ";" +:+ (if String.eqb t "Identifier" then "id:" +:+ jsString (jsField "name" n) +:+ ";"
                 else if hashedLiteral t then "lit:" +:+ jsString (jsField "value" n) +:+ ";" else "").

(** [walk] of [bodySig]. *)
Fixpoint jsWrites (n : jsval) : string :=
  match n with
  | JsObj (Some t) fields =>
      nodeWrites t n +:+
      (fix go (fs : list (string * jsval)) : string :=
         match fs with
         | [] => ""
         | (k, v) :: fs' =>
             (if skipped k then ""
              else match v with
                   | JsArr l => (fix each (l : list jsval) : string := match l with [] => "" | x :: l' => jsWrites x +:+ each l' end) l
                   | _ => jsWrites v
                   end) +:+ go fs'
         end) fields
  | _ => ""
  end.

Definition bodySig (fn : jsval) : string := shortHash (jsWrites (jsField "body" fn)).

Definition TEST_FNS : list string := ["it"; "test"; "fit"; "xit"; "xtest"].
Definition DESCRIBE_FNS : list string := ["describe"; "xdescribe"; "fdescribe"].

Definition inSet (s : list string) (name : option string) : bool :=
  match name with Some n => existsb (String.eqb n) s | None => false end.

Definition joinTitles (titles : list string) : string := String.concat " > " titles.

(** The values [visit] goes down into. *)
Definition childValues (fields : list (string * jsval)) : list jsval :=
  concat ((fun kv : string * jsval => if skipped kv.1 then [] else match kv.2 with JsArr l => l | v => [v] end) <$> fields).

(** [visit]: the entries of [fns] in the order they are set. *)
Fixpoint visit (fuel : nat) (stack : list string) (node : jsval) : list (string * string) :=
  match fuel, node with
  | S fuel, JsObj (Some t) fields =>
      let below := concat (visit fuel stack <$> childValues fields) in
      if String.eqb t "CallExpression" then
        if inSet DESCRIBE_FNS (calleeName node) then
          match staticTitle node, callbackFn node with
          | Some title, Some fn => visit fuel (stack ++ [title]) (jsField "body" fn)
          | _, _ => below
          end
        else if inSet TEST_FNS (calleeName node) then
          match staticTitle node, callbackFn node with
          | Some title, Some fn => [(joinTitles (stack ++ [title]), bodySig fn)]
          | _, _ => []
          end
        else below
      else below
  | _, _ => []
  end.

(** The nesting of a value, which is fuel enough. *)
Fixpoint jsDepth (v : jsval) : nat :=
  match v with
  | JsObj _ fields => S ((fix go (fs : list (string * jsval)) : nat := match fs with [] => 0 | (_, x) :: fs' => jsDepth x `max` go fs' end) fields)%nat
  | JsArr l => S ((fix go (l : list jsval) : nat := match l with [] => 0 | x :: l' => jsDepth x `max` go l' end) l)%nat
  | _ => 0%nat
  end.

(** [program]: the tree of a file, [None] when it cannot be read or parsed. *)
Definition jsFns (program : option jsval) : gmap string string :=
  match program with
  | None => ∅
  | Some p => foldl (fun m kv => <[kv.1 := kv.2]> m) ∅ (visit (S (jsDepth p)) [] p)
  end.

(** What the program prints: for each file of its arguments its entries; nothing
    without the parser. *)
Definition nodeProgram (hasParser : bool) (parse : string -> option jsval) (files : list string) : gmap string (gmap string string) :=
  if hasParser then foldl (fun m f => <[f := jsFns (parse f)]> m) ∅ files else ∅.

(** ** The Python program *)

(** An item of a module or of a class: a function with the dumps of its
    statements, a class, or another statement. *)
#[warnings="-register-all"]
Inductive pyItem :=
  | PyFunc (name : string) (body : list string)
  | PyClass (name : string) (items : list pyItem)
  | PyOther.

Definition body_sig (body : list string) : string := shortHash (String.concat "" body).

Definition startsWith (s p : string) : bool := hasPrefix (toText s) (toText p).

Definition addPyItem (fns : gmap string string) (i : pyItem) : gmap string string :=
  match i with
  | PyFunc name body => if startsWith name "test" then <[name := body_sig body]> fns else fns
  | PyClass name items =>
      if startsWith name "Test" then
        foldl (fun fns sub => match sub with
          | PyFunc n body => if startsWith n "test" then <[name +:+ "::" +:+ n := body_sig body]> fns else fns
          | _ => fns
          end) fns items
      else fns
  | PyOther => fns
  end.

Definition pythonProgram (parse : string -> option (list pyItem)) (paths : list string) : gmap string (gmap string string) :=
  foldl (fun m p => <[p := match parse p with Some items => foldl addPyItem ∅ items | None => ∅ end]> m) ∅ paths.

(** ** Running a program *)

(** The first interpreter that succeeds decides. *)
Fixpoint firstOutput (run : string -> option text) (bins : list string) : option text :=
  match bins with
  | [] => None
  | b :: bins' => match run b with Some out => Some out | None => firstOutput run bins' end
  end.

(** [nodeBins] and [pyBins] *)
Definition binsOf (configured : string) (defaults : list string) : list string :=
  if negb (String.eqb configured "") then [configured] else defaults.
Definition nodeBins (configured : string) : list string := binsOf configured ["node"].
Definition pyBins (configured : string) : list string := binsOf configured ["python3"; "python"].

(** [astSignatures] of the Jest and pytest adapters; [script]: the temporary file
    was written. *)
Definition astSignatures (script : bool) (run : list string -> string -> option text) (bins : list string)
    (unmarshal : text -> option (gmap string (gmap string string))) (paths : list string) : option (gmap string (gmap string string)) :=
  match paths with
  | [] => None
  | _ => if script then firstOutput (run paths) bins ≫= unmarshal else None
  end.

(** ** What a signature does not look at *)

(** The tree without its tokens. *)
Fixpoint goErase (n : goNode) : goNode :=
  match n with
  | GoOther type _ children => GoOther type [] ((fix go (l : list goNode) : list goNode := match l with [] => [] | c :: l' => goErase c :: go l' end) children)
  | _ => n
  end.

(** The fields that are looked at: nodes and arrays, the name of an identifier,
    the value of a string, number or boolean. *)
Definition lookedAt (t k : string) (v : jsval) : bool :=
  (String.eqb t "Identifier" && String.eqb k "name") || (hashedLiteral t && String.eqb k "value")
  || match v with JsObj (Some _) _ | JsArr _ => true | _ => false end.

Fixpoint jsErase (v : jsval) : jsval :=
  match v with
  | JsObj (Some t) fields =>
      JsObj (Some t) ((fix go (fs : list (string * jsval)) : list (string * jsval) :=
        match fs with
        | [] => []
        | (k, x) :: fs' => if lookedAt t k x then (k, jsErase x) :: go fs' else go fs'
        end) fields)
  | JsArr l => JsArr ((fix each (l : list jsval) : list jsval := match l with [] => [] | x :: l' => jsErase x :: each l' end) l)
  | _ => v
  end.

Lemma goWrites_erase : forall n, goWrites (goErase n) = goWrites n.
Proof.
  fix IH 1. intros [name|kind value|type tokens children]; [reflexivity|reflexivity|]. cbn [goErase goWrites]. do 2 f_equal. f_equal.
  induction children as [|c l IHl]; [done|]. rewrite IH. f_equal. exact IHl.
Qed.

Lemma jsString_erase v : jsString (jsErase v) = jsString v.
Proof. by destruct v as [[t|] fields| | |]. Qed.

(** The array or the value below a field. *)
Definition fieldWrites (v : jsval) : string :=
  match v with
  | JsArr l => (fix each (l : list jsval) : string := match l with [] => "" | x :: l' => jsWrites x +:+ each l' end) l
  | _ => jsWrites v
  end.

Lemma jsField_erase t fields k : lookedAt t k (JsStr "") = true ->
  jsString (jsField k (jsErase (JsObj (Some t) fields))) = jsString (jsField k (JsObj (Some t) fields)).
Proof.
  intros Hk. unfold jsField. cbn [jsErase]. induction fields as [|[j v] fs IH]; [done|]. cbn [List.find fst snd].
  destruct (String.eqb_spec j k) as [->|Hn].
  - assert (lookedAt t k v = true) as ->.
    { unfold lookedAt in *. rewrite orb_false_r in Hk. by rewrite Hk. }
    cbn [List.find fst snd]. rewrite String.eqb_refl. cbn [snd]. apply jsString_erase.
  - destruct (lookedAt t j v); [|exact IH]. cbn [List.find fst snd]. destruct (String.eqb_spec j k); [done|]. exact IH.
Qed.

Lemma nodeWrites_erase t fields : nodeWrites t (jsErase (JsObj (Some t) fields)) = nodeWrites t (JsObj (Some t) fields).
Proof.
  unfold nodeWrites. destruct (String.eqb t "Identifier") eqn:E1; [|destruct (hashedLiteral t) eqn:E2; [|done]].
  - rewrite jsField_erase; [done|]. unfold lookedAt. by rewrite E1.
  - rewrite jsField_erase; [done|]. unfold lookedAt. by rewrite E1, E2.
Qed.

Lemma unseen_writes t k v : lookedAt t k v = false -> fieldWrites v = "".
Proof.
  unfold lookedAt. intros H. apply orb_false_iff in H as [_ H]. by destruct v as [[u|] fs|l|s|s].
Qed.

(** *** Induction on the nesting *)

Lemma field_depth t k v fields : (k, v) ∈ fields -> (jsDepth v < jsDepth (JsObj t fields))%nat.
Proof.
  cbn [jsDepth]. induction fields as [|[j x] fs IH]; [by intros ?%elem_of_nil|].
  intros [[= -> ->]|H]%elem_of_cons; [lia|]. specialize (IH H). lia.
Qed.

Lemma element_depth x l : x ∈ l -> (jsDepth x < jsDepth (JsArr l))%nat.
Proof.
  cbn [jsDepth]. induction l as [|y l IH]; [by intros ?%elem_of_nil|]. intros [->|H]%elem_of_cons; [lia|]. specialize (IH H). lia.
Qed.

Lemma js_ind (P : jsval -> Prop) : (forall n, (forall m, (jsDepth m < jsDepth n)%nat -> P m) -> P n) -> forall n, P n.
Proof.
  intros H n. remember (jsDepth n) as d eqn:E. revert n E. induction (lt_wf d) as [d _ IH]. intros n ->. apply H.
  intros m Hm. by eapply IH.
Qed.

Lemma jsWrites_erase n : jsWrites (jsErase n) = jsWrites n.
Proof.
  induction n as [n IH] using js_ind. destruct n as [[t|] fields|l|s|s]; try reflexivity.
  transitivity (nodeWrites t (jsErase (JsObj (Some t) fields)) +:+
    (fix go (fs : list (string * jsval)) : string :=
       match fs with [] => "" | (k, v) :: fs' => (if skipped k then "" else fieldWrites v) +:+ go fs' end) fields);
    [|by rewrite nodeWrites_erase].
  cbn [jsErase jsWrites]. f_equal.
  assert (forall k v, (k, v) ∈ fields -> fieldWrites (jsErase v) = fieldWrites v) as Hf.
  { intros k v Hin%(field_depth (Some t)). destruct v as [[u|] fs'|l|s|s]; try reflexivity; [by apply IH|].
    unfold fieldWrites. cbn [jsErase].
    assert (forall x, x ∈ l -> jsWrites (jsErase x) = jsWrites x) as Hx.
    { intros x Hx%element_depth. apply IH. lia. }
    clear -Hx. induction l as [|x l IHl]; [done|]. rewrite Hx by left. f_equal. apply IHl. intros y Hy. apply Hx. by right. }
  clear -Hf. induction fields as [|[k v] fs IHf]; [done|].
  assert (forall k v, (k, v) ∈ fs -> fieldWrites (jsErase v) = fieldWrites v) as Hf' by (intros; eapply Hf; by right).
  destruct (lookedAt t k v) eqn:El.
  - destruct (skipped k); [by apply IHf|]. f_equal; [|by apply IHf]. eapply Hf. by left.
  - rewrite (unseen_writes _ _ _ El). destruct (skipped k); by apply IHf.
Qed.

(** ** What the walk of a file finds *)

Definition isCall (fns : list string) (node : jsval) : Prop := jsType node = Some "CallExpression" /\ inSet fns (calleeName node) = true.

(** The block a describe call opens. *)
Definition opensBlock (node : jsval) : Prop := isCall DESCRIBE_FNS node /\ is_Some (staticTitle node) /\ is_Some (callbackFn node).

(** Under the titles [stack], the value declares a test by its titles with the
    callback [f]: a test call does, and a value below one that is neither a test
    call nor opens a block, and the body of a block, under its title. *)
Inductive Declares : list string -> jsval -> list string -> jsval -> Prop :=
  | D_test stack node title f :
      isCall TEST_FNS node -> staticTitle node = Some title -> callbackFn node = Some f -> Declares stack node (stack ++ [title]) f
  | D_block stack node title fn titles f :
      isCall DESCRIBE_FNS node -> staticTitle node = Some title -> callbackFn node = Some fn ->
      Declares (stack ++ [title]) (jsField "body" fn) titles f -> Declares stack node titles f
  | D_below stack t fields v titles f :
      ~ isCall TEST_FNS (JsObj (Some t) fields) -> ~ opensBlock (JsObj (Some t) fields) -> v ∈ childValues fields ->
      Declares stack v titles f -> Declares stack (JsObj (Some t) fields) titles f.

Lemma fns_disjoint name : inSet DESCRIBE_FNS name = true -> inSet TEST_FNS name = false.
Proof.
  destruct name as [n|]; [|done]. intros H. apply existsb_exists in H as (x & Hx & ->%String.eqb_eq).
  by destruct Hx as [<-|[<-|[<-|[]]]].
Qed.

Lemma elem_of_concat {A} (x : A) ls : x ∈ concat ls <-> exists l, x ∈ l /\ l ∈ ls.
Proof.
  rewrite list_elem_of_In, in_concat. setoid_rewrite list_elem_of_In. naive_solver.
Qed.

Lemma child_depth t fields v : v ∈ childValues fields -> (jsDepth v < jsDepth (JsObj t fields))%nat.
Proof.
  unfold childValues. intros (l & Hv & ([k x] & -> & Hf)%list_elem_of_fmap)%elem_of_concat. cbn [fst snd] in Hv.
  apply (field_depth t) in Hf. destruct (skipped k); [by apply elem_of_nil in Hv|].
  destruct x as [u fs|l|s|s]; try (by apply list_elem_of_singleton in Hv as ->). apply element_depth in Hv. lia.
Qed.

Lemma jsField_depth k v : (jsDepth (jsField k v) <= jsDepth v)%nat.
Proof.
  destruct v as [t fields|l|s|s]; try (cbn [jsField jsDepth]; lia). unfold jsField. destruct (List.find _ fields) as [[j x]|] eqn:E; [|cbn [jsDepth]; lia].
  apply List.find_some in E as [E%list_elem_of_In _]. apply (field_depth t) in E. cbn [snd]. lia.
Qed.

Lemma callback_depth node fn : callbackFn node = Some fn -> (jsDepth (jsField "body" fn) < jsDepth node)%nat.
Proof.
  unfold callbackFn. intros [H _]%List.find_some. pose proof (jsField_depth "body" fn). apply list_elem_of_In in H.
  destruct node as [t fields|l|s|s]; try (by apply elem_of_nil in H). pose proof (jsField_depth "arguments" (JsObj t fields)) as Ha.
  destruct (jsField "arguments" (JsObj t fields)) as [u fs|l|s|s]; try (by apply elem_of_nil in H).
  cbn [jsElements] in H. destruct l as [|x l]; [by apply elem_of_nil in H|]. cbn [drop] in H.
  assert (jsDepth fn < jsDepth (JsArr (x :: l)))%nat by (apply element_depth; by right). lia.
Qed.

Lemma declares_cases stack node titles f : Declares stack node titles f ->
  (isCall TEST_FNS node /\ exists title, staticTitle node = Some title /\ callbackFn node = Some f /\ titles = stack ++ [title])
  \/ (opensBlock node /\ exists title fn, staticTitle node = Some title /\ callbackFn node = Some fn
     /\ Declares (stack ++ [title]) (jsField "body" fn) titles f)
  \/ (~ isCall TEST_FNS node /\ ~ opensBlock node /\ exists t fields v, node = JsObj (Some t) fields /\ v ∈ childValues fields
     /\ Declares stack v titles f).
Proof.
  destruct 1 as [s n title g H1 H2 H3|s n title fn ts g H1 H2 H3 H4|s t fs v ts g H1 H2 H3 H4].
  - left. eauto.
  - right; left. split; [|eauto]. unfold opensBlock. rewrite H2, H3. eauto.
  - right; right. repeat split; eauto 6.
Qed.

Lemma visit_S fuel stack t fields (node := JsObj (Some t) fields) (below := concat (visit fuel stack <$> childValues fields)) :
  visit (S fuel) stack node =
    (if String.eqb t "CallExpression" then
       if inSet DESCRIBE_FNS (calleeName node) then
         match staticTitle node, callbackFn node with
         | Some title, Some fn => visit fuel (stack ++ [title]) (jsField "body" fn)
         | _, _ => below
         end
       else if inSet TEST_FNS (calleeName node) then
         match staticTitle node, callbackFn node with
         | Some title, Some fn => [(joinTitles (stack ++ [title]), bodySig fn)]
         | _, _ => []
         end
       else below
     else below).
Proof. reflexivity. Qed.

(** Fuel above the nesting finds the declared tests, neither less nor more. *)
Lemma visit_spec fuel : forall stack node key sig, (jsDepth node < fuel)%nat ->
  (key, sig) ∈ visit fuel stack node <-> exists titles f, Declares stack node titles f /\ key = joinTitles titles /\ sig = bodySig f.
Proof.
  induction fuel as [|fuel IH]; intros stack node key sig Hd; [lia|].
  destruct node as [[t|] fields|l|s|s]; try (split; [by intros ?%elem_of_nil|intros (? & ? & [[[? ?] _]|[[[[? ?] _] _]|(_ & _ & ? & ? & ? & ? & _)]]%declares_cases & _); done]).
  set (node := JsObj (Some t) fields) in *.
  assert (~ isCall TEST_FNS node -> ~ opensBlock node ->
    (key, sig) ∈ concat (visit fuel stack <$> childValues fields)
    <-> exists titles f, Declares stack node titles f /\ key = joinTitles titles /\ sig = bodySig f) as Hbelow.
  { intros Ht Hb. rewrite elem_of_concat. split.
    - intros (l & Hin & (v & -> & Hv)%list_elem_of_fmap). pose proof (child_depth (Some t) _ _ Hv).
      apply IH in Hin as (titles & f & HD & Hk & Hs); [|subst node; lia]. exists titles, f. split; [by eapply D_below|done].
    - intros (titles & f & HD & Hk & Hs). apply declares_cases in HD as [[? _]|[[? _]|(_ & _ & ? & ? & v & [= <- <-] & Hv & HD)]]; [done|done|].
      pose proof (child_depth (Some t) _ _ Hv). exists (visit fuel stack v). split; [apply IH; [subst node; lia|eauto]|by apply list_elem_of_fmap; exists v]. }
  unfold node at 1. rewrite visit_S. fold node.
  destruct (String.eqb_spec t "CallExpression") as [->|Hn]; [|apply Hbelow; unfold opensBlock, isCall; naive_solver].
  destruct (inSet DESCRIBE_FNS (calleeName node)) eqn:Ed.
  - pose proof (fns_disjoint _ Ed) as Et.
    destruct (staticTitle node) as [title|] eqn:Es, (callbackFn node) as [fn|] eqn:Ef;
      try (apply Hbelow; unfold opensBlock, isCall; rewrite ?Et, ?Es, ?Ef; intros H; destruct_and?; try done; by repeat match goal with H : is_Some None |- _ => destruct H end).
    pose proof (callback_depth _ _ Ef). rewrite IH by lia. split.
    + intros (titles & f & HD & ?). exists titles, f. split; [|done]. by eapply D_block.
    + intros (titles & f & HD & ?). exists titles, f. split; [|done].
      apply declares_cases in HD as [[[_ ?] _]|[(_ & title' & fn' & ? & ? & HD)|(_ & Hb & _)]]; [congruence|by simplify_eq|].
      destruct Hb. unfold opensBlock, isCall. rewrite Es, Ef. repeat split; eauto.
  - destruct (inSet TEST_FNS (calleeName node)) eqn:Et; [|apply Hbelow; unfold opensBlock, isCall; rewrite ?Et, ?Ed; naive_solver].
    destruct (staticTitle node) as [title|] eqn:Es, (callbackFn node) as [fn|] eqn:Ef;
      try (split; [by intros ?%elem_of_nil|intros (? & ? & [(_ & ? & ? & ? & _)|[[[[_ ?] _] _]|[Ht _]]]%declares_cases & _); [congruence|congruence|by destruct Ht]]).
    rewrite list_elem_of_singleton. split.
    + intros [= -> ->]. exists (stack ++ [title]), fn. split; [|done]. by apply D_test.
    + intros (titles & f & HD & -> & ->). apply declares_cases in HD as [(_ & title' & ? & ? & ->)|[[[[_ ?] _] _]|[Ht _]]]; [by simplify_eq|congruence|].
      by destruct Ht.
Qed.

(** The program names a test by the titles of its blocks and its own, and
    signs its callback: an entry is in the map of a file only for a test the
    file declares, and each declared test has an entry under the name the report
    of the run gives it. *)
Theorem jsFns_declared p :
  (forall key sig, jsFns (Some p) !! key = Some sig -> exists titles f, Declares [] p titles f /\ key = joinTitles titles /\ sig = bodySig f)
  /\ forall titles f, Declares [] p titles f -> is_Some (jsFns (Some p) !! joinTitles titles).
Proof.
  unfold jsFns. assert (forall l (m : gmap string string) key,
    (forall sig, foldl (fun m kv => <[kv.1 := kv.2]> m) m l !! key = Some sig -> (key, sig) ∈ l \/ m !! key = Some sig)
    /\ ((exists sig, (key, sig) ∈ l) \/ is_Some (m !! key) -> is_Some (foldl (fun m (kv : string * string) => <[kv.1 := kv.2]> m) m l !! key))) as Hf.
  { induction l as [|[k s] l IH]; intros m key; [split; [by right|intros [[? ?%elem_of_nil]|?]; done]|]. cbn [foldl fst snd].
    destruct (IH (<[k:=s]> m) key) as [H1 H2]. split.
    - intros sig Hs. destruct (H1 _ Hs) as [?|Hl]; [left; by right|]. apply lookup_insert_Some in Hl as [[-> ->]|[_ ?]]; [left; by left|by right].
    - intros H. apply H2. destruct (decide (k = key)) as [->|Hn]; [right; rewrite lookup_insert_eq; eauto|].
      rewrite lookup_insert_ne by done. destruct H as [[sig [[= -> ->]|H]%elem_of_cons]|H]; [done|left; eauto|by right]. }
  split.
  - intros key sig Hs. destruct (Hf (visit (S (jsDepth p)) [] p) ∅ key) as [H _]. destruct (H _ Hs) as [Hin|Hin]; [|by rewrite lookup_empty in Hin].
    apply visit_spec in Hin; [done|lia].
  - intros titles f HD. apply Hf. left. exists (bodySig f). apply visit_spec; [lia|eauto].
Qed.

(** The signature of a body does not depend on the operators in it: Go bodies
    whose trees differ only in the tokens of their nodes have one signature, and
    so have Jest callbacks that differ only in fields that are neither nodes nor
    arrays nor the name of an identifier or the value of a string, number or
    boolean. *)
Theorem signatures_ignore_operators :
  (forall b b', goErase b = goErase b' -> goASTSignature (Some b) = goASTSignature (Some b'))
  /\ forall f f', jsErase (jsField "body" f) = jsErase (jsField "body" f') -> bodySig f = bodySig f'.
Proof.
  split.
  - intros b b' E. cbn [goASTSignature]. rewrite <-(goWrites_erase b), <-(goWrites_erase b'). by rewrite E.
  - intros f f' E. unfold bodySig. rewrite <-(jsWrites_erase (jsField "body" f)), <-(jsWrites_erase (jsField "body" f')). by rewrite E.
Qed.

Module SigDemo.
(** if got OP want { t.Fatal() } *)
Definition goBody (op : string) : goNode :=
  GoOther "BlockStmt" [] [GoOther "IfStmt" [] [GoOther "BinaryExpr" [op] [GoIdent "got"; GoIdent "want"];
    GoOther "BlockStmt" [] [GoOther "ExprStmt" [] [GoOther "CallExpr" [] [GoOther "SelectorExpr" [] [GoIdent "t"; GoIdent "Fatal"]]]]]].
Definition ident (s : string) : jsval := JsObj (Some "Identifier") [("name", JsStr s)].
(** () => { ok(got OP want) } *)
Definition jsBody (op : string) : jsval :=
  JsObj (Some "ArrowFunctionExpression") [("body", JsObj (Some "BlockStatement") [("body", JsArr [
    JsObj (Some "ExpressionStatement") [("expression", JsObj (Some "CallExpression") [("callee", ident "ok"); ("arguments", JsArr [
      JsObj (Some "BinaryExpression") [("left", ident "got"); ("operator", JsStr op); ("right", ident "want")]])])]])])].
End SigDemo.

Lemma signatures_ignore_operators_witness :
  goASTSignature (Some (SigDemo.goBody "==")) = goASTSignature (Some (SigDemo.goBody "!="))
  /\ bodySig (SigDemo.jsBody "===") = bodySig (SigDemo.jsBody "!==").
Proof.
  destruct signatures_ignore_operators as [H1 H2]. split; [apply H1|apply H2]; reflexivity.
Defined.

(** describe('math', () => { it('adds', () => { ok(got === want) }) }) *)
Definition demoCall (fn title : string) (callback : jsval) : jsval :=
  JsObj (Some "CallExpression") [("callee", SigDemo.ident fn); ("arguments", JsArr [JsObj (Some "StringLiteral") [("value", JsStr title)]; callback])].
Definition demoArrow (body : jsval) : jsval := JsObj (Some "ArrowFunctionExpression") [("body", body)].
Definition demoFile : jsval := demoCall "describe" "math" (demoArrow (demoCall "it" "adds" (SigDemo.jsBody "==="))).

Lemma jsFns_declared_witness :
  is_Some (jsFns (Some demoFile) !! "math > adds")
  /\ exists titles f, Declares [] demoFile titles f /\ "math > adds" = joinTitles titles.
Proof.
  pose proof (jsFns_declared demoFile) as [H1 H2].
  assert (Declares [] demoFile ["math"; "adds"] (SigDemo.jsBody "===")) as HD.
  { eapply (D_block _ _ "math"); [by split| reflexivity | reflexivity |]. apply (D_test ["math"]); [by split|reflexivity|reflexivity]. }
  pose proof (H2 _ _ HD) as Hs. split; [exact Hs|]. destruct Hs as [sig Hs]. apply H1 in Hs as (titles & f & HD' & E & _). eauto.
Defined.
