(* ===== verification/RunSvc.v ===== *)
(** * internal/runsvc

    Run intake: [Create] with its idempotency contract, [Get], [Cancel].  The
    partial unique index of migration 005 on (repo_id, meta->>'idempotency_key')
    is part of the insert statement. *)

From S2P Require Import Prelude GoSort Model Scheduler Db Effects StateMachine Lifecycle.
From S2P Require Import RunManager.

Definition ErrValidation : error := Sentinel "runsvc.ErrValidation".
Definition ErrRepoNotFound : error := Sentinel "runsvc.ErrRepoNotFound".
Definition ErrRunNotFound : error := Sentinel "runsvc.ErrRunNotFound".
Definition ErrIdempotencyConflict : error := Sentinel "runsvc.ErrIdempotencyConflict".

Record Service := mkService {
  svc_Audit : bool
}.

(** ** Validation *)

Definition require (ok : bool) (field message : string) : list FieldError :=
  if ok then [] else [mkFieldError field message].

Definition validateCreateRun (req : CreateRunRequest) : list FieldError :=
  require (negb (String.eqb (cr_RepoFullName req) "")) "repo_full_name" "required"
  ++ require (negb (String.eqb (cr_CommitSHA req) "")) "commit_sha" "required"
  ++ require (negb (String.eqb (cr_Branch req) "")) "branch" "required"
  ++ require (negb (String.eqb (tm_Runner (cr_Manifest req)) "")) "manifest.runner" "required"
  ++ require (negb (Nat.eqb (length (tm_Tests (cr_Manifest req))) 0))
       "manifest.tests" "must contain at least one test".

(** [errors.As(err, &pgErr) && pgErr.Code == "23505"] *)
Fixpoint isUniqueViolation (err : error) : bool :=
  match err with
  | PgError code => String.eqb code "23505"
  | ErrWrap _ inner => isUniqueViolation inner
  | _ => false
  end.

Definition nullableString (s : string) : option string := if String.eqb s "" then None else Some s.

(** ** Queries *)

Definition selectEnabledRepo (full_name : string) (db : DB) : option string :=
  (fun kv => kv.1) <$> List.find (fun kv : string * repo_row =>
    String.eqb (rp_full_name kv.2) full_name && String.eqb (rp_vcs kv.2) "github" && rp_enabled kv.2)
    (map_to_list (repos db)).

Definition hasKey (repoID key : string) (r : run_row) : bool :=
  String.eqb (r_repo_id r) repoID && bool_decide (rm_idempotency_key (r_meta r) = Some key).

(** [.. ORDER BY created_at DESC LIMIT 1] *)
Definition selectIdempotent (repoID key : string) (db : DB) : option (string * string) :=
  (fun kv => (kv.1, r_commit_sha kv.2)) <$>
    head (selectOrdered (fun _ r => hasKey repoID key r) (fun r => - r_created_at r) (runs db)).

Definition selectRun (id : string) (db : DB) : option Run :=
  match runs db !! id with
  | None => None
  | Some r =>
      (fun rp => mkRun id (r_repo_id r) (rp_full_name rp) (r_commit_sha r) (r_branch r) (r_status r)
         (r_started_at r) (r_finished_at r) (coalesce (r_total_duration_ms r) 0)
         (coalesce (r_budget_seconds r) 0) (r_preemption_count r) (r_created_at r) (r_updated_at r))
      <$> repos db !! r_repo_id r
  end.

Definition loadRun (id : string) : M Run := scanRow (poolExec (query (selectRun id))).

(** The existing run when its commit matches, [None] for a conflict. *)
Definition lookupIdempotent (repoID key commitSHA : string) : M (option Run) :=
  row ←! scanRow (poolExec (query (selectIdempotent repoID key))) ;
  if negb (String.eqb row.2 commitSHA) then retM None
  else run ←! loadRun row.1 ; retM (Some run).

(** ** Create *)

Definition insertRun (id : string) (row : run_row) : Stmt unit := fun now db =>
  if negb (int4 (default 0 (r_trigger_pr_number row)) && int4 (default 0 (r_budget_seconds row)))
  then (Err errEncode, db)
  else if bool_decide (is_Some (runs db !! id)) then (Err uniqueViolation, db)
  else if negb (bool_decide (is_Some (repos db !! r_repo_id row))) then (Err (PgError "23503"), db)
  else match rm_idempotency_key (r_meta row) with
  | Some key =>
      if existsb (fun kv : string * run_row => hasKey (r_repo_id row) key kv.2) (map_to_list (runs db))
      then (Err uniqueViolation, db)
      else (Ok tt, set_runs (<[id := row]> (runs db)) db)
  | None => (Ok tt, set_runs (<[id := row]> (runs db)) db)
  end.

Definition newRunRow (repoID : string) (req : CreateRunRequest) (now : Z) : run_row :=
  mkRunRow repoID (cr_CommitSHA req) (cr_Branch req) "api" (nullableString (cr_TriggerActor req))
    (if cr_TriggerPRNumber req =? 0 then None else Some (cr_TriggerPRNumber req))
    "pending"
    (match cr_Budget req with
     | Some b => if 0 <? rb_MaxSeconds b then Some (rb_MaxSeconds b) else None
     | None => None
     end)
    None None None 0
    (mkRunMeta (nullableString (cr_IdempotencyKey req))
       (Some (Z.of_nat (length (tm_Tests (cr_Manifest req)))))
       (Some (tm_Runner (cr_Manifest req))) None ∅ None None)
    now now None None None 0 0.

Definition stmtInsertRun (id repoID : string) (req : CreateRunRequest) : Stmt unit := fun now =>
  insertRun id (newRunRow repoID req now) now.

Definition stmtInsertPlan (runID : string) (mf : TestManifest) : Stmt unit := fun now db =>
  if bool_decide (is_Some (run_plans db !! runID)) then (Err uniqueViolation, db)
  else if negb (bool_decide (is_Some (runs db !! runID))) then (Err (PgError "23503"), db)
  else (Ok tt, set_run_plans (<[runID := PDManifest mf]> (run_plans db)) db).

(** What the idempotency lookup comes to: the run to return, a conflict, or
    nothing usable. *)
Inductive idem := IdemHit (run : Run) | IdemConflict | IdemMiss.

Definition tryIdempotent (repoID : string) (req : CreateRunRequest) : M idem :=
  r ←! tryM (lookupIdempotent repoID (cr_IdempotencyKey req) (cr_CommitSHA req)) ;
  retM (match r with Ok (Some run) => IdemHit run | Ok None => IdemConflict | Err _ => IdemMiss end).

Definition Create (s : Service) (req : CreateRunRequest) : M (Run * bool) :=
  match validateCreateRun req with
  | (_ :: _) as verrs => throwM (ValidationError verrs)
  | [] =>
      repo ←! tryM (scanRow (poolExec (query (selectEnabledRepo (cr_RepoFullName req))))) ;
      match repo with
      | Err e =>
          if errorsIs e ErrNoRows then throwM (ErrWrap (cr_RepoFullName req) ErrRepoNotFound)
          else throwM (ErrWrap "repo lookup" e)
      | Ok repoID =>
          let keyed := negb (String.eqb (cr_IdempotencyKey req) "") in
          pre ←! (if keyed then tryIdempotent repoID req else retM IdemMiss) ;
          match pre with
          | IdemConflict => throwM ErrIdempotencyConflict
          | IdemHit run => retM (run, false)
          | IdemMiss =>
              runID ←! newUUID ;
              ins ←! tryM (poolExec (stmtInsertRun runID repoID req)) ;
              match ins with
              | Err e =>
                  again ←! (if isUniqueViolation e && keyed then tryIdempotent repoID req
                            else retM IdemMiss) ;
                  match again with
                  | IdemConflict => throwM ErrIdempotencyConflict
                  | IdemHit run => retM (run, false)
                  | IdemMiss => throwM (ErrWrap "insert run" e)
                  end
              | Ok _ =>
                  ignoreM (poolExec (stmtInsertPlan runID (cr_Manifest req))) ;!
                  whenM (svc_Audit s) (emit (OAudit "run.create" runID)) ;!
                  run ←! wrapM "reload run" (loadRun runID) ;
                  retM (run, true)
              end
          end
      end
  end.

(** ** Get and Cancel *)

Definition Get (id : string) : M Run :=
  r ←! tryM (loadRun id) ;
  match r with
  | Ok run => retM run
  | Err e => if errorsIs e ErrNoRows then throwM (ErrWrap id ErrRunNotFound)
             else throwM (ErrWrap "load run" e)
  end.

Definition stmtCancel (id : string) : Stmt Z := fun now =>
  updateRun id (statusIn ["pending"; "planning"; "dispatching"; "running"])
    (fun r => r_set_finished_at (Some (coalesce (r_finished_at r) now)) (r_set_status "cancelled" r)) now.

Definition Cancel (s : Service) (id : string) : M Run :=
  n ←! wrapM "cancel run" (poolExec (stmtCancel id)) ;
  if n =? 0 then
    r ←! tryM (loadRun id) ;
    match r with
    | Ok run => retM run
    | Err e => if errorsIs e ErrNoRows then throwM (ErrWrap id ErrRunNotFound)
               else throwM (ErrWrap "load run" e)
    end
  else
    whenM (svc_Audit s) (emit (OAudit "run.cancel" id)) ;!
    wrapM "reload run" (loadRun id).
