(* ===== verification/RunSvcProps.v ===== *)
(** * What run intake does

    Validation, creation, the idempotency contract with its race, cancellation,
    branch by branch. *)

From S2P Require Import Prelude GoSort Model Scheduler Db Effects StateMachine Lifecycle.
From S2P Require Import RunManager RunManagerProps RunSvc.

(** ** Validation *)

Lemma validateCreateRun_ok req : validateCreateRun req = [] <->
  cr_RepoFullName req <> "" /\ cr_CommitSHA req <> "" /\ cr_Branch req <> ""
  /\ tm_Runner (cr_Manifest req) <> "" /\ tm_Tests (cr_Manifest req) <> [].
Proof.
  unfold validateCreateRun, require.
  destruct (String.eqb_spec (cr_RepoFullName req) ""), (String.eqb_spec (cr_CommitSHA req) ""),
    (String.eqb_spec (cr_Branch req) ""), (String.eqb_spec (tm_Runner (cr_Manifest req)) ""),
    (tm_Tests (cr_Manifest req)); simpl; split; try done; intros ?; destruct_and?; congruence.
Qed.

Lemma validateCreateRun_fields req f : f ∈ fe_Field <$> validateCreateRun req <->
  (f = "repo_full_name" /\ cr_RepoFullName req = "") \/ (f = "commit_sha" /\ cr_CommitSHA req = "")
  \/ (f = "branch" /\ cr_Branch req = "") \/ (f = "manifest.runner" /\ tm_Runner (cr_Manifest req) = "")
  \/ (f = "manifest.tests" /\ tm_Tests (cr_Manifest req) = []).
Proof.
  unfold validateCreateRun, require.
  destruct (String.eqb_spec (cr_RepoFullName req) ""), (String.eqb_spec (cr_CommitSHA req) ""),
    (String.eqb_spec (cr_Branch req) ""), (String.eqb_spec (tm_Runner (cr_Manifest req)) ""),
    (tm_Tests (cr_Manifest req)); simpl;
    rewrite ?list_elem_of_In; simpl; intuition congruence.
Qed.

(** A request with a missing field is refused before anything happens: the
    error lists exactly the fields that are missing, and neither the database
    nor any other part of the world is touched. *)
Theorem Create_refuses_invalid s req w : validateCreateRun req <> [] ->
  Create s req w = (Err (ValidationError (validateCreateRun req)), w)
  /\ errorsIs (ValidationError (validateCreateRun req)) ErrValidation = true
  /\ forall f, f ∈ fe_Field <$> validateCreateRun req <->
       (f = "repo_full_name" /\ cr_RepoFullName req = "") \/ (f = "commit_sha" /\ cr_CommitSHA req = "")
       \/ (f = "branch" /\ cr_Branch req = "") \/ (f = "manifest.runner" /\ tm_Runner (cr_Manifest req) = "")
       \/ (f = "manifest.tests" /\ tm_Tests (cr_Manifest req) = []).
Proof.
  intros H. split; [|split; [reflexivity|exact (validateCreateRun_fields req)]].
  unfold Create. destruct (validateCreateRun req); [by destruct H|reflexivity].
Qed.

(** ** Selecting the one row of a key *)

Lemma singleton_list {A} (l : list A) x : NoDup l -> x ∈ l -> (forall y, y ∈ l -> y = x) -> l = [x].
Proof.
  intros Hn Hx Hall. destruct l as [|a l]; [by apply elem_of_nil in Hx|].
  assert (a = x) as -> by (apply Hall; by left). destruct l as [|b l]; [done|].
  assert (b = x) as -> by (apply Hall; right; by left).
  apply NoDup_cons in Hn as [Hn _]. exfalso. apply Hn. by left.
Qed.

Lemma filterb_NoDup {A} (p : A -> bool) l : NoDup l -> NoDup (List.filter p l).
Proof.
  induction 1 as [|x l Hx Hl IH]; simpl; [constructor|].
  destruct (p x); [|done]. constructor; [|done]. rewrite list_elem_of_In, filter_In, <-list_elem_of_In.
  tauto.
Qed.

Lemma selectOrdered_one {V} (p : string -> V -> bool) key (t : gmap string V) k v :
  t !! k = Some v -> p k v = true -> (forall k' v', t !! k' = Some v' -> p k' v' = true -> k' = k) ->
  selectOrdered p key t = [(k, v)].
Proof.
  intros Hk Hp Hu. apply singleton_list.
  - unfold selectOrdered. rewrite SliceStable_perm. apply filterb_NoDup, NoDup_map_to_list.
  - by apply selectOrdered_elem.
  - intros [k' v'] [Hk' Hp']%selectOrdered_elem. assert (k' = k) as -> by eauto. congruence.
Qed.

Lemma selectOrdered_none {V} (p : string -> V -> bool) key (t : gmap string V) :
  (forall k v, t !! k = Some v -> p k v = false) -> selectOrdered p key t = [].
Proof.
  intros H. destruct (selectOrdered p key t) as [|[k v] l] eqn:E; [done|].
  assert (Hin : (k, v) ∈ selectOrdered p key t) by (rewrite E; by left).
  apply selectOrdered_elem in Hin as [Hk Hp]. rewrite (H k v Hk) in Hp. done.
Qed.

Lemma existsb_rows_true {V} (p : string * V -> bool) (t : gmap string V) k v :
  t !! k = Some v -> p (k, v) = true -> existsb p (map_to_list t) = true.
Proof.
  intros Hk Hp. apply existsb_exists. exists (k, v). split; [|done].
  by apply list_elem_of_In, elem_of_map_to_list.
Qed.

(** ** Create *)

Section create.
Context (svc : Service) (now : Z) (u : nat -> string) (held : gset Z) (ag : AgentState).

(** The run a row shows as. *)
Definition viewOf (id : string) (rp : repo_row) (r : run_row) : Run :=
  mkRun id (r_repo_id r) (rp_full_name rp) (r_commit_sha r) (r_branch r) (r_status r)
    (r_started_at r) (r_finished_at r) (coalesce (r_total_duration_ms r) 0)
    (coalesce (r_budget_seconds r) 0) (r_preemption_count r) (r_created_at r) (r_updated_at r).

Definition requestFits (req : CreateRunRequest) : Prop :=
  forall repoID t, int4 (default 0 (r_trigger_pr_number (newRunRow repoID req t)))
    && int4 (default 0 (r_budget_seconds (newRunRow repoID req t))) = true.

(** A valid request for an enabled repo with a key no run of the repo has. *)
Record NewRequest (db : DB) (req : CreateRunRequest) (repoID : string) (rp : repo_row) (n : nat) : Prop := {
  nr_valid : validateCreateRun req = [];
  nr_repo : selectEnabledRepo (cr_RepoFullName req) db = Some repoID;
  nr_row : repos db !! repoID = Some rp;
  nr_key : cr_IdempotencyKey req <> "";
  nr_new : forall k r, runs db !! k = Some r -> hasKey repoID (cr_IdempotencyKey req) r = false;
  nr_fits : requestFits req;
  nr_fresh : runs db !! u n = None;
  nr_fresh_plan : run_plans db !! u n = None
}.

Definition createdDB (db : DB) (req : CreateRunRequest) (repoID : string) (n : nat) : DB :=
  set_run_plans (<[u n := PDManifest (cr_Manifest req)]> (run_plans db))
    (set_runs (<[u n := newRunRow repoID req now]> (runs db)) db).

Lemma nullableString_some s : s <> "" -> nullableString s = Some s.
Proof. intros H. unfold nullableString. by rewrite (proj2 (String.eqb_neq s "")). Qed.

Lemma insertRun_quiet db req repoID rp n : NewRequest db req repoID rp n ->
  stmtInsertRun (u n) repoID req now db
  = (Ok tt, set_runs (<[u n := newRunRow repoID req now]> (runs db)) db).
Proof.
  intros []. unfold stmtInsertRun, insertRun. rewrite nr_fits0. cbn [negb].
  rewrite nr_fresh0. rewrite bool_decide_false by (by intros [? ?]).
  change (r_repo_id (newRunRow repoID req now)) with repoID.
  rewrite nr_row0. rewrite bool_decide_true by done. cbn [negb].
  cbn [newRunRow r_meta rm_idempotency_key]. rewrite nullableString_some by done.
  rewrite existsb_rows_false; [done|]. intros k r Hk. by eapply nr_new0.
Qed.

Lemma poolExec_quiet {A} (st : Stmt A) db n out a d :
  st now db = (Ok a, d) ->
  poolExec st (QW db None now u n held out ag) = (Ok a, QW d None now u n held out ag).
Proof. intros H. unfold poolExec. simpl. by rewrite H. Qed.

Lemma poolExec_quiet_err {A} (st : Stmt A) db n out e d :
  st now db = (Err e, d) ->
  poolExec st (QW db None now u n held out ag) = (Err e, QW db None now u n held out ag).
Proof. intros H. unfold poolExec. simpl. by rewrite H. Qed.

(** The lookup of a key that one run has. *)
Lemma tryIdempotent_hit db repoID rp req id r n out :
  runs db !! id = Some r -> hasKey repoID (cr_IdempotencyKey req) r = true ->
  (forall k r', runs db !! k = Some r' -> hasKey repoID (cr_IdempotencyKey req) r' = true -> k = id) ->
  repos db !! r_repo_id r = Some rp ->
  tryIdempotent repoID req (QW db None now u n held out ag)
  = (Ok (if String.eqb (r_commit_sha r) (cr_CommitSHA req) then IdemHit (viewOf id rp r) else IdemConflict),
     QW db None now u n held out ag).
Proof.
  intros Hr Hk Hu Hrp. unfold tryIdempotent, lookupIdempotent.
  assert (Hsel : selectIdempotent repoID (cr_IdempotencyKey req) db = Some (id, r_commit_sha r)).
  { unfold selectIdempotent. by rewrite (selectOrdered_one _ _ _ id r). }
  assert (Hl : loadRun id (QW db None now u n held out ag) = (Ok (viewOf id rp r), QW db None now u n held out ag)).
  { unfold loadRun. rewrite poolScan_quiet. unfold selectRun. rewrite Hr, Hrp. done. }
  erewrite bindM_ok.
  2: { apply tryM_eq. erewrite bindM_ok; [|rewrite poolScan_quiet; by rewrite Hsel]. cbn [snd fst].
       destruct (String.eqb (r_commit_sha r) (cr_CommitSHA req)) eqn:E; cbn [negb].
       - erewrite bindM_ok; [|exact Hl].
         instantiate (2 := if String.eqb (r_commit_sha r) (cr_CommitSHA req)
           then Ok (Some (viewOf id rp r)) else Ok None). rewrite E. reflexivity.
       - rewrite E. reflexivity. }
  by destruct (String.eqb _ _).
Qed.

Lemma tryIdempotent_miss db repoID req n out :
  (forall k r, runs db !! k = Some r -> hasKey repoID (cr_IdempotencyKey req) r = false) ->
  tryIdempotent repoID req (QW db None now u n held out ag) = (Ok IdemMiss, QW db None now u n held out ag).
Proof.
  intros H. unfold tryIdempotent, lookupIdempotent. erewrite bindM_ok.
  2: { apply tryM_eq. apply bindM_err. rewrite poolScan_quiet. unfold selectIdempotent.
       rewrite selectOrdered_none by (intros k v; apply H). reflexivity. }
  reflexivity.
Qed.

Definition auditOf (action id : string) : list Output :=
  if svc_Audit svc then [OAudit action id] else [].

Lemma Create_fresh db req repoID rp n out : NewRequest db req repoID rp n ->
  Create svc req (QW db None now u n held out ag)
  = (Ok (viewOf (u n) rp (newRunRow repoID req now), true),
     QW (createdDB db req repoID n) None now u (S n) held (out ++ auditOf "run.create" (u n)) ag).
Proof.
  intros H. pose proof (insertRun_quiet _ _ _ _ _ H) as Hins. destruct H. unfold Create.
  rewrite nr_valid0. erewrite bindM_ok; [|apply tryM_eq, poolScan_quiet].
  rewrite nr_repo0. cbv beta iota zeta. rewrite (proj2 (String.eqb_neq _ "")) by done. cbn [negb].
  erewrite bindM_ok; [|by apply tryIdempotent_miss]. cbv beta iota.
  erewrite bindM_ok; [|apply newUUID_quiet]. cbv beta.
  erewrite bindM_ok; [|apply tryM_eq, (poolExec_quiet _ _ _ _ _ _ Hins)]. cbv beta iota.
  erewrite bindM_ok.
  2: { eapply ignoreM_eq, poolExec_quiet. unfold stmtInsertPlan. cbn [set_runs run_plans runs].
       rewrite nr_fresh_plan0, lookup_insert_eq. rewrite bool_decide_false by (by intros [? ?]).
       rewrite bool_decide_true by done. reflexivity. }
  erewrite bindM_ok; [|apply whenM_emit_quiet].
  erewrite bindM_ok; [reflexivity|]. apply wrapM_ok. unfold loadRun. rewrite poolScan_quiet.
  unfold selectRun. cbn [set_run_plans set_runs runs repos]. rewrite lookup_insert_eq.
  cbn [newRunRow r_repo_id]. rewrite nr_row0. reflexivity.
Qed.

(** The reply to a request whose key run [id] has. *)
Definition replay (req : CreateRunRequest) (id : string) (rp : repo_row) (r : run_row) : result (Run * bool) :=
  if String.eqb (r_commit_sha r) (cr_CommitSHA req) then Ok (viewOf id rp r, false)
  else Err ErrIdempotencyConflict.

(** Run [id] is the one run of the repo with the request's key. *)
Record HoldsKey (db : DB) (repoID : string) (req : CreateRunRequest) (id : string) (rp : repo_row) (r : run_row) : Prop := {
  hk_row : runs db !! id = Some r;
  hk_key : hasKey repoID (cr_IdempotencyKey req) r = true;
  hk_one : forall k r', runs db !! k = Some r' -> hasKey repoID (cr_IdempotencyKey req) r' = true -> k = id;
  hk_repo : repos db !! r_repo_id r = Some rp
}.

Lemma Create_known db req repoID rp id r n out :
  validateCreateRun req = [] -> selectEnabledRepo (cr_RepoFullName req) db = Some repoID ->
  cr_IdempotencyKey req <> "" -> HoldsKey db repoID req id rp r ->
  Create svc req (QW db None now u n held out ag) = (replay req id rp r, QW db None now u n held out ag).
Proof.
  intros Hv Hr Hk []. unfold Create. rewrite Hv. erewrite bindM_ok; [|apply tryM_eq, poolScan_quiet].
  rewrite Hr. cbv beta iota zeta. rewrite (proj2 (String.eqb_neq _ "")) by done. cbn [negb].
  erewrite bindM_ok; [|by eapply tryIdempotent_hit]. unfold replay.
  by destruct (String.eqb (r_commit_sha r) (cr_CommitSHA req)).
Qed.

Lemma created_holds db req req2 repoID rp n : NewRequest db req repoID rp n ->
  cr_IdempotencyKey req2 = cr_IdempotencyKey req ->
  HoldsKey (createdDB db req repoID n) repoID req2 (u n) rp (newRunRow repoID req now).
Proof.
  intros [] Hk. split; cbn [createdDB set_run_plans set_runs runs repos newRunRow r_repo_id].
  - by rewrite lookup_insert_eq.
  - unfold hasKey. cbn [newRunRow r_repo_id r_meta rm_idempotency_key]. rewrite String.eqb_refl, Hk.
    rewrite nullableString_some by done. by rewrite bool_decide_true.
  - intros k r' Hr' Hh. destruct (decide (k = u n)) as [|Hne]; [done|].
    rewrite lookup_insert_ne in Hr' by done. rewrite Hk, (nr_new0 _ _ Hr') in Hh. done.
  - done.
Qed.

(** C7: Creating a run: a valid request for an enabled repo with a new
    idempotency key inserts the run as pending with its manifest and returns
    it as created; every later request with that key returns that same run,
    not created again, when it is for the same commit, and is refused as an
    idempotency conflict when it is for another one, changing nothing. *)
Theorem Create_idempotent db req req2 repoID rp n out :
  NewRequest db req repoID rp n ->
  validateCreateRun req2 = [] -> cr_RepoFullName req2 = cr_RepoFullName req ->
  cr_IdempotencyKey req2 = cr_IdempotencyKey req ->
  exists run w, Create svc req (QW db None now u n held out ag) = (Ok (run, true), w)
    /\ w_db w = createdDB db req repoID n /\ run_Status run = "pending" /\ run_ID run = u n
    /\ Create svc req2 w
       = (if String.eqb (cr_CommitSHA req) (cr_CommitSHA req2) then Ok (run, false)
          else Err ErrIdempotencyConflict, w).
Proof.
  intros H Hv Hrepo Hkey. do 2 eexists. split; [by apply Create_fresh|]. split_and!; [done..|].
  rewrite (Create_known _ req2 repoID rp (u n) (newRunRow repoID req now));
    [reflexivity|done| | |by apply created_holds].
  - rewrite Hrepo. apply H.
  - rewrite Hkey. apply H.
Qed.

(** A call with nothing around it, and one before which another session
    commits [f]. *)
Definition quietCall : EnvEvent := mkEnvEvent (fun db => db) FNone.

Definition raceWorld (db : DB) (f : DB -> DB) (n : nat) (out : list Output) : World :=
  mkWorld db None now u n held [quietCall; quietCall; mkEnvEvent f FNone] out ag.

(** Two requests with one key that race past the lookup: the unique index
    refuses the second insert, and the loser returns the winner's run (or the
    conflict, for another commit) and leaves the winner's database as it is. *)
Theorem Create_race db f req repoID rp n out id r :
  NewRequest db req repoID rp n -> HoldsKey (f db) repoID req id rp r -> r_repo_id r = repoID ->
  runs (f db) !! u n = None ->
  Create svc req (raceWorld db f n out) = (replay req id rp r, QW (f db) None now u (S n) held out ag).
Proof.
  intros [] Hh Hrid Hfresh. pose proof Hh as []. unfold Create. rewrite nr_valid0.
  erewrite bindM_ok; [|apply tryM_eq; unfold scanRow, bindM; simpl; rewrite nr_repo0; reflexivity].
  cbv beta iota zeta. rewrite (proj2 (String.eqb_neq _ "")) by done. cbn [negb].
  erewrite bindM_ok.
  2: { unfold tryIdempotent. erewrite bindM_ok; [reflexivity|]. apply tryM_eq. unfold lookupIdempotent.
       apply bindM_err. unfold scanRow, bindM. simpl. unfold selectIdempotent.
       rewrite selectOrdered_none by (intros k v; apply nr_new0). reflexivity. }
  cbv beta iota. erewrite bindM_ok; [|reflexivity].
  erewrite bindM_ok.
  2: { apply tryM_eq. unfold poolExec. simpl. unfold stmtInsertRun, insertRun. rewrite nr_fits0. cbn [negb].
       rewrite Hfresh. rewrite bool_decide_false by (by intros [? ?]).
       change (r_repo_id (newRunRow repoID req now)) with repoID. rewrite <-Hrid, hk_repo0.
       rewrite bool_decide_true by done. cbn [negb newRunRow r_meta rm_idempotency_key].
       rewrite nullableString_some by done. rewrite (existsb_rows_true _ _ id r); [reflexivity|done|].
       by rewrite Hrid. }
  cbn [isUniqueViolation uniqueViolation]. change (String.eqb _ _ && true) with true. cbv beta iota.
  erewrite bindM_ok; [|by eapply tryIdempotent_hit]. unfold replay.
  by destruct (String.eqb (r_commit_sha r) (cr_CommitSHA req)).
Qed.
(** ** Cancel *)

Definition cancelable (status : string) : bool :=
  existsb (String.eqb status) ["pending"; "planning"; "dispatching"; "running"].

Definition cancelledRun (r : run_row) : run_row :=
  r_set_updated_at now (r_set_finished_at (Some (coalesce (r_finished_at r) now)) (r_set_status "cancelled" r)).

Lemma loadRun_quiet db id rp r n out :
  runs db !! id = Some r -> repos db !! r_repo_id r = Some rp ->
  loadRun id (QW db None now u n held out ag) = (Ok (viewOf id rp r), QW db None now u n held out ag).
Proof. intros Hr Hrp. unfold loadRun. rewrite poolScan_quiet. unfold selectRun. by rewrite Hr, Hrp. Qed.

Lemma stmtCancel_none db id : (forall r, runs db !! id = Some r -> cancelable (r_status r) = false) ->
  stmtCancel id now db = (Ok 0, set_runs (runs db) db).
Proof.
  intros H. unfold stmtCancel, updateRun, updateRow. destruct (runs db !! id) as [r|] eqn:E; [|done].
  specialize (H r eq_refl). change (statusIn _ r) with (cancelable (r_status r)). by rewrite H.
Qed.

Lemma set_runs_same db : set_runs (runs db) db = db.
Proof. by destruct db. Qed.

Lemma Cancel_live db id rp r n out :
  runs db !! id = Some r -> repos db !! r_repo_id r = Some rp -> cancelable (r_status r) = true ->
  Cancel svc id (QW db None now u n held out ag)
  = (Ok (viewOf id rp (cancelledRun r)),
     QW (set_runs (<[id := cancelledRun r]> (runs db)) db) None now u n held (out ++ auditOf "run.cancel" id) ag).
Proof.
  intros Hr Hrp Hc. unfold Cancel. erewrite bindM_ok.
  2: { apply wrapM_ok, poolExec_quiet. unfold stmtCancel. by rewrite (updateRun_some _ _ _ _ _ r). }
  cbn [Z.eqb]. erewrite bindM_ok; [|apply whenM_emit_quiet]. apply wrapM_ok.
  apply loadRun_quiet; [|done]. cbn [set_runs runs]. by rewrite lookup_insert_eq.
Qed.

Lemma Cancel_other db id n out : (forall r, runs db !! id = Some r -> cancelable (r_status r) = false) ->
  Cancel svc id (QW db None now u n held out ag)
  = (match selectRun id db with Some run => Ok run | None => Err (ErrWrap id ErrRunNotFound) end,
     QW db None now u n held out ag).
Proof.
  intros H. unfold Cancel. erewrite bindM_ok.
  2: { apply wrapM_ok, poolExec_quiet. by rewrite (stmtCancel_none _ _ H), set_runs_same. }
  cbn [Z.eqb]. erewrite bindM_ok; [|apply tryM_eq; apply poolScan_quiet].
  by destruct (selectRun id db).
Qed.

(** Cancelling a live run marks it cancelled, stamps finished_at once and
    audits it; a run in any other state is returned as it is and an unknown
    one is an error, both changing nothing; so cancelling twice is cancelling
    once. *)
Theorem Cancel_idempotent db id rp r n out :
  runs db !! id = Some r -> repos db !! r_repo_id r = Some rp ->
  (cancelable (r_status r) = false ->
     Cancel svc id (QW db None now u n held out ag) = (Ok (viewOf id rp r), QW db None now u n held out ag))
  /\ (cancelable (r_status r) = true ->
     exists w, Cancel svc id (QW db None now u n held out ag) = (Ok (viewOf id rp (cancelledRun r)), w)
       /\ runs (w_db w) = <[id := cancelledRun r]> (runs db) /\ shards (w_db w) = shards db
       /\ w_out w = out ++ auditOf "run.cancel" id
       /\ Cancel svc id w = (Ok (viewOf id rp (cancelledRun r)), w))
  /\ (forall other, runs db !! other = None ->
     Cancel svc other (QW db None now u n held out ag)
     = (Err (ErrWrap other ErrRunNotFound), QW db None now u n held out ag)).
Proof.
  intros Hr Hrp. split_and!.
  - intros Hc. rewrite Cancel_other by congruence. unfold selectRun. by rewrite Hr, Hrp.
  - intros Hc. eexists. split; [by apply Cancel_live|]. split_and!; [done..|].
    rewrite Cancel_other; unfold selectRun; cbn [set_runs runs]; rewrite lookup_insert_eq.
    + cbn [cancelledRun set_runs repos r_repo_id r_set_updated_at r_set_finished_at r_set_status].
      by rewrite Hrp.
    + by intros r' [= <-].
  - intros other Ho. rewrite Cancel_other by congruence. unfold selectRun. by rewrite Ho.
Qed.
End create.

(** ** A concrete service *)

Module RunSvcDemo.
Definition svc : Service := mkService true.
Definition repo : repo_row := mkRepoRow "github" "acme/app" true true.
Definition db : DB := mkDB {[ "repo" := repo ]} ∅ ∅ ∅ ∅ ∅ ∅ ∅ ∅ ∅.
Definition request (commit : string) : CreateRunRequest :=
  mkCreateRunRequest "acme/app" commit "main"
    (mkTestManifest "pytest" [mkTestEntry "a.py" "t" "" "" []]) None "dev" 7 "key-1".
Definition ids (n : nat) : string := match n with O => "r0" | _ => "r1" end.
(** Another session creates the run with the key. *)
Definition winner (db : DB) : DB :=
  set_runs (<["w" := newRunRow "repo" (request "c1") 5]> (runs db)) db.

Lemma new_request commit : commit <> "" -> NewRequest ids db (request commit) "repo" repo 0.
Proof.
  intros Hc. split; try done.
  - unfold validateCreateRun. cbn [request cr_CommitSHA]. by rewrite (proj2 (String.eqb_neq commit "")) by done.
Qed.

Lemma winner_holds : HoldsKey (winner db) "repo" (request "c1") "w" repo (newRunRow "repo" (request "c1") 5).
Proof.
  split; [done..| |done]. intros k r' Hk _. unfold winner in Hk. cbn in Hk.
  destruct (decide (k = "w")) as [|Hne]; [done|]. by rewrite lookup_insert_ne in Hk.
Qed.
End RunSvcDemo.

Lemma Create_refuses_invalid_witness : exists req w,
  Create RunSvcDemo.svc req w = (Err (ValidationError [mkFieldError "commit_sha" "required"]), w).
Proof.
  exists (RunSvcDemo.request ""), (QW RunSvcDemo.db None 9 RunSvcDemo.ids 0 ∅ [] idleAgent).
  apply (Create_refuses_invalid RunSvcDemo.svc (RunSvcDemo.request "")). discriminate.
Defined.

Lemma Create_idempotent_witness :
  exists run w, Create RunSvcDemo.svc (RunSvcDemo.request "c1")
      (QW RunSvcDemo.db None 9 RunSvcDemo.ids 0 ∅ [] idleAgent) = (Ok (run, true), w)
    /\ Create RunSvcDemo.svc (RunSvcDemo.request "c2") w = (Err ErrIdempotencyConflict, w).
Proof.
  destruct (Create_idempotent RunSvcDemo.svc 9 RunSvcDemo.ids ∅ idleAgent RunSvcDemo.db
    (RunSvcDemo.request "c1") (RunSvcDemo.request "c2") "repo" RunSvcDemo.repo 0 [])
    as (run & w & H1 & _ & _ & _ & H2); try reflexivity.
  - by apply RunSvcDemo.new_request.
  - exists run, w. split; [exact H1|exact H2].
Defined.

Lemma Create_race_witness : exists run w,
  Create RunSvcDemo.svc (RunSvcDemo.request "c1")
    (raceWorld 9 RunSvcDemo.ids ∅ idleAgent RunSvcDemo.db RunSvcDemo.winner 0 []) = (Ok (run, false), w)
  /\ run_ID run = "w".
Proof.
  do 2 eexists. split.
  - apply (Create_race RunSvcDemo.svc 9 RunSvcDemo.ids ∅ idleAgent RunSvcDemo.db RunSvcDemo.winner
      (RunSvcDemo.request "c1") "repo" RunSvcDemo.repo 0 [] "w" (newRunRow "repo" (RunSvcDemo.request "c1") 5));
      [by apply RunSvcDemo.new_request|apply RunSvcDemo.winner_holds|reflexivity|reflexivity].
  - reflexivity.
Defined.

Lemma Cancel_idempotent_witness : exists w,
  Cancel RunSvcDemo.svc "w" (QW (RunSvcDemo.winner RunSvcDemo.db) None 9 RunSvcDemo.ids 0 ∅ [] idleAgent)
    = (Ok (viewOf "w" RunSvcDemo.repo (cancelledRun 9 (newRunRow "repo" (RunSvcDemo.request "c1") 5))), w)
  /\ (Cancel RunSvcDemo.svc "w" w).2 = w.
Proof.
  destruct (Cancel_idempotent RunSvcDemo.svc 9 RunSvcDemo.ids ∅ idleAgent (RunSvcDemo.winner RunSvcDemo.db)
    "w" RunSvcDemo.repo (newRunRow "repo" (RunSvcDemo.request "c1") 5) 0 [])
    as (_ & (w & H1 & _ & _ & _ & H2) & _); [reflexivity|reflexivity|reflexivity|].
  exists w. split; [exact H1|by rewrite H2].
Defined.
