(* ===== verification/Cluster.v ===== *)
(** * internal/resultpipeline/cluster.go

    Stack fingerprints: the normalization of Python tracebacks and of other
    stacks, the SHA-256 fingerprint, and the two upserts of failure_clusters. *)

From S2P Require Import Prelude GoBytes GoRegexp GoStrings Model Scheduler Db Effects.
From S2P Require Import StateMachine Lifecycle.

Definition lf : ascii := ascii_of_nat 10.

(** A traceback frame: the quoted file, the line number and the function are its
    three groups. *)
Definition pythonFrame : regex :=
  RSeq [RStr "File "; RCls (lit dquote); RGroup (RRep (notc (lit dquote)) 1 None);
        RCls (lit dquote); RStr ", line "; RGroup (RRep digit 1 None); RStr ", in ";
        RGroup (RRep (notc space) 1 None)].

(** [\b\d+(?:\.\d+)?\b] *)
Definition numericLiteral : regex :=
  RSeq [RWordB; RRep digit 1 None; ROpt (RSeq [RStr "."; RRep digit 1 None]); RWordB].

Definition hexLower : class := orc digit (inRange "a" "f").

(** [0x[0-9a-fA-F]+|[0-9a-f]{16,}] *)
Definition hexLike : regex :=
  RAlt (RSeq [RStr "0x"; RRep (orc hexLower (inRange "A" "F")) 1 None]) (RRep hexLower 16 None).

Definition isPythonTraceback (s : text) : bool :=
  contains s (toText "Traceback (most recent call last)") || matchString pythonFrame s.

Definition isException (name : text) : bool :=
  match name with
  | [] => false
  | c :: _ =>
      upper c
      && (hasSuffix name (toText "Error") || hasSuffix name (toText "Exception")
          || hasSuffix name (toText "Failure") || hasSuffix name (toText "Warning"))
  end.

(** What one line of a traceback contributes. *)
Definition pythonLine (raw : text) : option text :=
  let line := trimSpace raw in
  match line with
  | [] => None
  | _ =>
      match findSubmatch pythonFrame line with
      | Some caps => Some (toText "File " ++ nth 0 caps [] ++ toText " in " ++ nth 2 caps [])
      | None =>
          match index line (toText ":") with
          | Some (S i) =>
              if negb (hasPrefix line (toText "  ")) && isException (take (S i) line)
              then Some (take (S i) line) else None
          | _ => None
          end
      end
  end.

Definition normalizePython (s : text) : text := joinWith [lf] (omap pythonLine (splitOn lf s)).

Definition genericLine (raw : text) : option text :=
  let t := trimSpace raw in
  match t with
  | [] => None
  | _ => Some (replaceAll numericLiteral (toText "<N>") (replaceAll hexLike (toText "<HEX>") t))
  end.

Definition normalizeGeneric (s : text) : text :=
  let lines := omap genericLine (splitOn lf s) in
  joinWith [lf] (drop (length lines - 5) lines).

(** The fingerprint and the normalized text. *)
Definition FingerprintStack (stack : string) : string * string :=
  if String.eqb stack "" then ("", "")
  else
    let t := toText stack in
    let normalized := ofText (if isPythonTraceback t then normalizePython t else normalizeGeneric t) in
    (hexString (sha256 (bytesOf normalized)), normalized).

(** ** The upserts *)

Definition touchCluster (bump now : Z) (c : cluster_row) : cluster_row :=
  mkClusterRow (fc_repo_id c) (fc_stack_fingerprint c) (fc_representative_message c)
    (fc_representative_stack c) now (fc_occurrences c + bump) (fc_root_cause_hint c) (fc_hint_category c)
    (fc_hint_confidence c) (fc_hint_generated_at c) (fc_first_seen c).

Definition findCluster (repoID fingerprint : string) (db : DB) : option (string * cluster_row) :=
  List.find (fun kv => String.eqb (fc_repo_id kv.2) repoID && String.eqb (fc_stack_fingerprint kv.2) fingerprint)
    (map_to_list (failure_clusters db)).

(** The range of a BIGINT column. *)
Definition bigint (z : Z) : bool := (- 2 ^ 63 <=? z) && (z <? 2 ^ 63).

(** [INSERT .. ON CONFLICT (repo_id, stack_fingerprint) DO UPDATE SET [occurrences
    = occurrences + bump,] last_seen = now() RETURNING id] *)
Definition upsertClusterStmt (bump : Z) (id repoID fingerprint message normalized : string) : Stmt string :=
  fun now db =>
    match findCluster repoID fingerprint db with
    | Some (cid, c) =>
        if negb ((bump =? 0) || bigint (fc_occurrences c + bump)) then (Err (PgError "22003"), db)
        else (Ok cid, set_failure_clusters (<[cid := touchCluster bump now c]> (failure_clusters db)) db)
    | None =>
        if negb (bool_decide (is_Some (repos db !! repoID))) then (Err (PgError "23503"), db)
        else if bool_decide (is_Some (failure_clusters db !! id)) then (Err uniqueViolation, db)
        else (Ok id, set_failure_clusters (<[id := mkClusterRow repoID fingerprint message normalized now 1 None None None None now]>
                (failure_clusters db)) db)
    end.

(** [pool] is false for a nil receiver or a nil pool. *)
Definition UpsertCluster (pool : bool) (repoID stack message : string) : M string :=
  if negb pool then retM ""
  else
    let '(fingerprint, normalized) := FingerprintStack stack in
    if String.eqb fingerprint "" then retM ""
    else
      id ←! newUUID ;
      poolExec (upsertClusterStmt 1 id repoID fingerprint message normalized).

Definition ClusterFor (pool : bool) (repoID stack message : string) : M string :=
  if negb pool then retM ""
  else
    let '(fingerprint, normalized) := FingerprintStack stack in
    if String.eqb fingerprint "" then retM ""
    else
      id ←! newUUID ;
      poolExec (upsertClusterStmt 0 id repoID fingerprint message normalized).

Class ClusterStmts (R : RowRel) : Prop :=
  cluster_upsert :: forall b i r f msg n, StmtKeeps R (upsertClusterStmt b i r f msg n).

Section guarantee.
Context (R : RowRel) `{!RowPreOrder R}.

(** What a relation has to allow for the upsert to keep it. *)
Lemma upsertCluster_keeps b i r f msg n :
  (forall now c, b = 0 \/ bigint (fc_occurrences c + b) = true -> rel_clusters R (Some c) (Some (touchCluster b now c))) ->
  (forall now, rel_clusters R None (Some (mkClusterRow r f msg n now 1 None None None None now))) ->
  StmtKeeps R (upsertClusterStmt b i r f msg n).
Proof.
  intros H1 H2 now db a db'. unfold upsertClusterStmt, findCluster.
  destruct (List.find _ _) as [[cid c]|] eqn:E.
  - destruct (_ || _) eqn:Eb; [|done]. apply List.find_some in E as [Hin _]. apply list_elem_of_In, elem_of_map_to_list in Hin.
    intros [= _ <-]. apply DBRel_clusters; [done|]. intros k. apply (insert_row (rel_clusters R)). rewrite Hin.
    apply H1. apply orb_true_iff in Eb as [?%Z.eqb_eq|?]; auto.
  - destruct (negb _); [done|]. destruct (failure_clusters db !! i) as [c|] eqn:Ei; [by rewrite bool_decide_true|].
    rewrite bool_decide_false by (by intros [? ?]).
    intros [= _ <-]. apply DBRel_clusters; [done|]. intros k. apply (insert_row (rel_clusters R)). by rewrite Ei.
Qed.

Context `{!ClusterStmts R}.

#[export] Instance UpsertCluster_guaranteed p r s msg : Guaranteed R (UpsertCluster p r s msg).
Proof. unfold UpsertCluster. destruct (FingerprintStack s). guarantee. Qed.
#[export] Instance ClusterFor_guaranteed p r s msg : Guaranteed R (ClusterFor p r s msg).
Proof. unfold ClusterFor. destruct (FingerprintStack s). guarantee. Qed.
End guarantee.

Example generic_demo :
  normalizeGeneric (toText "x" ++ [lf] ++ toText "  took 3.4 seconds at 0xdeadBEEF" ++ [lf] ++ [lf])
  = toText "x" ++ [lf] ++ toText "took <N> seconds at <HEX>".
Proof. reflexivity. Qed.
