(* ===== verification/Otlp.v ===== *)
(** * internal/resultpipeline/otlp.go

    The OTLP receiver: spans become rows of ClickHouse's teo.span_events and
    failures feed the clusters.  The ClickHouse driver, uuid.Parse and the order
    in which a map is ranged over are parameters. *)

From S2P Require Import Prelude GoBytes GoFloat GoFmt GoRegexp GoStrings Db Effects Cluster.

(** ** The protocol buffers, as far as they are read *)

Inductive AnyValue :=
  | StringValue (s : string)
  | IntValue (n : Z)
  | DoubleValue (x : float64)
  | BoolValue (b : bool)
  | OtherValue.

Record KeyValue := mkKeyValue {
  kv_Key : string;
  kv_Value : option AnyValue
}.

Record SpanStatus := mkSpanStatus {
  ss_Code : Z;
  ss_Message : string
}.

Record Span := mkSpan {
  sp_TraceId : list Z;
  sp_SpanId : list Z;
  sp_ParentSpanId : list Z;
  sp_Name : string;
  sp_Kind : Z;
  sp_Start : Z;
  sp_End : Z;
  sp_Attributes : list KeyValue;
  sp_Status : option SpanStatus
}.

(** The attributes of the resource, and the spans of each scope. *)
Record ResourceSpans := mkResourceSpans {
  rsp_Attributes : list KeyValue;
  rsp_Scopes : list (list Span)
}.

Abbreviation ExportTraceServiceRequest := (list ResourceSpans) (only parsing).

(** ** Helpers *)

Definition anyValueString (v : AnyValue) : string :=
  match v with
  | StringValue s => s
  | IntValue n => itoa n
  | DoubleValue x => formatG x
  | BoolValue b => if b then "true" else "false"
  | OtherValue => ""
  end.

Definition addAttr (m : gmap string string) (kv : KeyValue) : gmap string string :=
  match kv_Value kv with Some v => <[kv_Key kv := anyValueString v]> m | None => m end.

Definition attrsToMap (l : list KeyValue) : gmap string string := foldl addAttr ∅ l.

Definition maxInt64 : Z := 2 ^ 63 - 1.

(** [unixNanoToTime] of a uint64. *)
Definition unixNanoToTime (n : Z) : Z := if maxInt64 <? n then maxInt64 else n.

Definition statusToCode (s : option SpanStatus) : Z :=
  match s with
  | None => 0
  | Some s => if ss_Code s =? 1 then 1 else if ss_Code s =? 2 then 2 else 0
  end.

Definition hexBytes (b : list Z) : string := match b with [] => "" | _ => hexString b end.

Definition firstNonEmpty (vals : list string) : string :=
  default "" (List.find (fun v => negb (String.eqb v "")) vals).

Definition attr (k : string) (m : gmap string string) : string := default "" (m !! k).

Definition pickTestID (m : gmap string string) : string := attr "teo.test_id" m.

(** [int8(n)] *)
Definition int8 (n : Z) : Z := (n + 128) mod 256 - 128.

(** ** Flattening *)

(** [rowSpan] *)
Record rowSpan := mkRowSpan {
  traceID : string;
  spanID : string;
  parentSpanID : string;
  testID : string;
  runID : string;
  rowName : string;
  kind : Z;
  startTime : Z;
  endTime : Z;
  statusCode : Z;
  statusMessage : string;
  attrKeys : list string;
  attrVals : list string
}.

Record failure := mkFailure {
  fl_repoID : string;
  fl_stack : string;
  fl_message : string
}.

Definition buildMap (keys vals : list string) : gmap string string :=
  foldl (fun m kv => <[kv.1 := kv.2]> m) ∅ (zip keys vals).

Section receiver.
(** How Go ranges over a map, [uuid.Parse] with its canonical form. *)
Context (rangeOf : gmap string string -> list (string * string)) (uuidParse : string -> option string).

Definition flattenSpan (resAttrs : gmap string string) (sp : Span) : rowSpan :=
  let spanAttrs := attrsToMap (sp_Attributes sp) in
  mkRowSpan (hexBytes (sp_TraceId sp)) (hexBytes (sp_SpanId sp)) (hexBytes (sp_ParentSpanId sp))
    (firstNonEmpty [attr "teo.test_id" spanAttrs; pickTestID spanAttrs])
    (firstNonEmpty [attr "teo.run_id" spanAttrs; attr "teo.run_id" resAttrs])
    (sp_Name sp) (int8 (sp_Kind sp)) (unixNanoToTime (sp_Start sp)) (unixNanoToTime (sp_End sp))
    (statusToCode (sp_Status sp)) (match sp_Status sp with Some s => ss_Message s | None => "" end)
    ((rangeOf spanAttrs).*1) ((rangeOf spanAttrs).*2).

Definition failureOf (resAttrs : gmap string string) (sp : Span) : list failure :=
  let row := flattenSpan resAttrs sp in
  let spanAttrs := attrsToMap (sp_Attributes sp) in
  if statusCode row =? 2
  then [mkFailure (attr "teo.repo_id" resAttrs) (attr "exception.stacktrace" spanAttrs)
          (firstNonEmpty [attr "exception.message" spanAttrs; statusMessage row])]
  else [].

Definition flatten (req : ExportTraceServiceRequest) : list rowSpan * list failure :=
  let each {A} (f : gmap string string -> Span -> list A) :=
    concat ((fun rs => concat (f (attrsToMap (rsp_Attributes rs)) <$> concat (rsp_Scopes rs))) <$> req) in
  (each (fun res sp => [flattenSpan res sp]), each failureOf).

(** ** Writing *)

Definition parseUUIDOrZero (s : string) : string :=
  if String.eqb s "" then zeroUUID
  else default zeroUUID (uuidParse (ofText (trimSpace (toText s)))).

(** The values appended for a row. *)
Definition batchRow (s : rowSpan) : spanRow :=
  mkSpanRow (traceID s) (spanID s) (parentSpanID s) (parseUUIDOrZero (testID s)) (parseUUIDOrZero (runID s))
    (rowName s) (kind s) (startTime s) (endTime s) (statusCode s) (statusMessage s) (buildMap (attrKeys s) (attrVals s)).

(** The driver: a batch is prepared, filled row by row, and sent. *)
Record clickhouse := mkClickhouse {
  ch_PrepareBatch : result unit;
  ch_Append : spanRow -> result unit;
  ch_Send : list spanRow -> result unit
}.

Definition writeSpans (ch : clickhouse) (rows : list rowSpan) : M unit :=
  match rows with
  | [] => retM tt
  | _ =>
      wrapM "prepare batch" (ofResult (ch_PrepareBatch ch)) ;!
      forM_ rows (fun s => wrapM "append span" (ofResult (ch_Append ch (batchRow s)))) ;!
      emit (OSpanBatch (batchRow <$> rows)) ;!
      wrapM "send batch" (ofResult (ch_Send ch (batchRow <$> rows)))
  end.

(** [Export]: [ch] is none for a receiver without a connection, [cluster] says
    whether there is a pool to cluster with.  The counters of rows and times are
    left out. *)
Definition Export (ch : option clickhouse) (cluster metrics : bool) (req : ExportTraceServiceRequest) : M unit :=
  match ch with
  | None => throwM (ErrText "OTLP receiver not configured")
  | Some ch =>
      let '(rows, failures) := flatten req in
      match rows with
      | [] => retM tt
      | _ =>
          w ←! tryM (writeSpans ch rows) ;
          match w with
          | Err e => whenM metrics (emit (OCounter "teo_clickhouse_insert_failures_total")) ;! throwM e
          | Ok _ => forM_ failures (fun f => ignoreM (UpsertCluster cluster (fl_repoID f) (fl_stack f) (fl_message f)))
          end
      end
  end.
End receiver.

Example int8_demo : int8 <$> [0; 5; 127; 128; -1] = [0; 5; 127; -128; -1].
Proof. reflexivity. Qed.
