(* ===== verification/Auth.v ===== *)
(** * internal/auth

    Principals and roles, API keys (argon2 is a parameter, base64 and the hash
    format are written out), the credential handling of the HTTP middleware and
    the role gate.  JWT parsing and signing belong to the jwt library: a verifier
    is a parameter. *)

From S2P Require Import Prelude GoBytes GoRegexp GoStrings.

Abbreviation Role := string (only parsing).
Definition RoleAdmin : Role := "admin".
Definition RoleEngineer : Role := "engineer".
Definition RoleReadOnly : Role := "read_only".

Record Principal := mkPrincipal {
  p_UserID : string;
  p_Email : string;
  p_APIKeyID : string;
  p_Roles : list Role;
  p_Scopes : list string;
  p_IsAPIKey : bool
}.

Definition HasRole (p : Principal) (want : list Role) : bool :=
  existsb (fun r => existsb (String.eqb r) want) (p_Roles p).

Definition HasScope (p : Principal) (scope : string) : bool :=
  existsb (String.eqb scope) (p_Scopes p).

Definition asAPIKey (p : Principal) : Principal :=
  mkPrincipal (p_UserID p) (p_Email p) (p_APIKeyID p) (p_Roles p) (p_Scopes p) true.

(** ** API keys *)

Definition dollar : ascii := "$".
Definition dot : ascii := ".".

(** [strings.LastIndexByte(display, '.')] split there: prefix and secret, when
    the dot is not the first character. *)
Definition splitLastDot (display : string) : option (string * string) :=
  match lastIndexByte (toText display) dot with
  | Some (S i) =>
      Some (ofText (take (S i) (toText display)), ofText (drop (S (S i)) (toText display)))
  | _ => None
  end.

Definition encodeArgon (salt derived : list Z) : string :=
  "$argon2id$v=19$m=65536,t=3,p=1$" +:+ EncodeToString Std salt +:+ "$" +:+ EncodeToString Std derived.

Definition decodeArgon (s : string) : option (list Z * list Z) :=
  match splitOn dollar (toText s) with
  | [_; p1; _; _; p4; p5] =>
      if bool_decide (p1 = toText "argon2id") then
        match DecodeString Std (ofText p4), DecodeString Std (ofText p5) with
        | Some salt, Some derived => Some (salt, derived)
        | _, _ => None
        end
      else None
  | _ => None
  end.

Section keys.
(** [argon2.IDKey(secret, salt, ..)]: 32 bytes for any secret and salt. *)
Context (argon2 : list Z -> list Z -> list Z).

(** The random bytes drawn are the arguments. *)
Definition GenerateAPIKey (tag : string) (secretBytes pfxBytes salt : list Z) : string * string * string :=
  let tag := if String.eqb tag "" then "ci" else tag in
  let prefix := "teo_" +:+ tag +:+ "_" +:+ hexString pfxBytes in
  let secret := EncodeToString URL secretBytes in
  let display := prefix +:+ "." +:+ secret in
  let derived := argon2 (bytesOf secret) salt in
  (display, prefix, encodeArgon salt derived).

Definition VerifyAPIKey (display expectedHash : string) : option string :=
  match splitLastDot display with
  | None => None
  | Some (prefix, secret) =>
      match decodeArgon expectedHash with
      | None => None
      | Some (salt, derived) =>
          if bool_decide (argon2 (bytesOf secret) salt = derived) then Some prefix else None
      end
  end.
End keys.

(** ** Credentials of a request *)

Section credentials.
(** The API-key resolver (prefix, display) and the JWT verifier; [None] where
    none is configured. *)
Context (resolveAPIKey : option (string -> string -> option Principal))
        (verifyJWT : option (string -> option Principal)).

(** Shared shape of the HTTP middleware and the gRPC interceptor. *)
Definition principalOfToken (tok : text) : option Principal :=
  match tok with
  | [] => None
  | _ =>
      if hasPrefix tok (toText "teo_") then
        match lastIndexByte tok dot, resolveAPIKey with
        | Some (S i), Some resolve => asAPIKey <$> resolve (ofText (take (S i) tok)) (ofText tok)
        | _, _ => None
        end
      else match verifyJWT with
           | Some verify => verify (ofText tok)
           | None => None
           end
  end.

Definition trimPrefix (t p : text) : text := if hasPrefix t p then drop (length p) t else t.

(** The token of an HTTP request: the header first, the session cookie when
    there is no header. *)
Definition httpToken (authorization : string) (cookie : option string) : text :=
  if negb (String.eqb authorization "") then
    trimSpace (trimPrefix (trimPrefix (toText authorization) (toText "Bearer ")) (toText "bearer "))
  else match cookie with
       | Some v => trimSpace (toText v)
       | None => []
       end.

(** The principal the middleware binds before the next handler. *)
Definition Middleware (authorization : string) (cookie : option string) : option Principal :=
  principalOfToken (httpToken authorization cookie).
End credentials.

Inductive gate := Unauthorized | Forbidden | Serve.

Definition Require (roles : list Role) (p : option Principal) : gate :=
  match p with
  | None => Unauthorized
  | Some p =>
      if negb (Nat.eqb (length roles) 0) && negb (HasRole p roles) then Forbidden else Serve
  end.

(** ** Facts *)

Lemma HasRole_spec p want : HasRole p want = true <-> exists r, r ∈ p_Roles p /\ r ∈ want.
Proof.
  unfold HasRole. rewrite existsb_exists. split.
  - intros (r & Hr & (x & Hx & ->%String.eqb_eq)%existsb_exists).
    exists x. by rewrite !list_elem_of_In.
  - intros (r & Hr & Hw). exists r. rewrite list_elem_of_In in Hr. split; [done|].
    apply existsb_exists. exists r. rewrite list_elem_of_In in Hw. split; [done|apply String.eqb_refl].
Qed.

(** ** API keys round trip *)

Lemma encoded_text c a l : Forall isByte l -> byteOf c < 43 \/ byteOf c = 46 ->
  c ∉ toText (EncodeToString a l).
Proof.
  intros Hl Hc Hin. apply (encoded_no (byteOf c) a l Hl Hc).
  revert Hin. generalize (EncodeToString a l). intros s. induction s as [|x s IH]; simpl.
  - by intros ?%elem_of_nil.
  - intros [->|Hin]%elem_of_cons; apply elem_of_cons; auto.
Qed.

Lemma decode_encodeArgon salt derived : Forall isByte salt -> Forall isByte derived ->
  decodeArgon (encodeArgon salt derived) = Some (salt, derived).
Proof.
  intros Hs Hd. unfold decodeArgon.
  assert (toText (encodeArgon salt derived) =
    [] ++ dollar :: toText "argon2id" ++ dollar :: toText "v=19" ++ dollar :: toText "m=65536,t=3,p=1"
       ++ dollar :: toText (EncodeToString Std salt) ++ dollar :: toText (EncodeToString Std derived)) as ->.
  { unfold encodeArgon. rewrite !toText_app. reflexivity. }
  assert (Hd1 : forall l, Forall isByte l -> dollar ∉ toText (EncodeToString Std l)).
  { intros l Hl. apply encoded_text; [done|left; vm_compute; done]. }
  rewrite !splitOn_app by first [apply (bool_decide_unpack _); reflexivity | by apply Hd1].
  rewrite splitOn_none by (by apply Hd1).
  rewrite bool_decide_true by done. by rewrite !ofText_toText, !Decode_Encode.
Qed.

Lemma splitLastDot_app prefix secret : dot ∉ toText secret -> prefix <> "" ->
  splitLastDot (prefix +:+ "." +:+ secret) = Some (prefix, secret).
Proof.
  intros Hs Hp. unfold splitLastDot. rewrite !toText_app.
  change (toText "." ++ toText secret) with (dot :: toText secret).
  rewrite lastIndexByte_app by done.
  destruct (length (toText prefix)) as [|n] eqn:El.
  { destruct prefix; [done|]. simpl in El. discriminate. }
  rewrite <-El. rewrite take_app_length.
  replace (S (length (toText prefix))) with (length (toText prefix ++ [dot])) by (rewrite length_app; simpl; lia).
  change (dot :: toText secret) with ([dot] ++ toText secret). rewrite app_assoc, drop_app_length.
  by rewrite !ofText_toText.
Qed.

Section roundtrip.
Context (argon2 : list Z -> list Z -> list Z).
Hypothesis argon2_bytes : forall secret salt, Forall isByte (argon2 secret salt).

(** A freshly generated API key verifies against the stored hash and
    resolves to its own prefix, whatever tag and random bytes went in; and a
    presented key with that prefix's hash verifies exactly when its secret hashes
    to the stored value. *)
Theorem VerifyAPIKey_generated tag secretBytes pfxBytes salt display prefix hash :
  Forall isByte secretBytes -> Forall isByte salt ->
  GenerateAPIKey argon2 tag secretBytes pfxBytes salt = (display, prefix, hash) ->
  VerifyAPIKey argon2 display hash = Some prefix
  /\ forall p s, dot ∉ toText s -> p <> "" ->
       VerifyAPIKey argon2 (p +:+ "." +:+ s) hash =
       if bool_decide (argon2 (bytesOf s) salt = argon2 (bytesOf (EncodeToString URL secretBytes)) salt)
       then Some p else None.
Proof.
  intros Hsec Hsalt. unfold GenerateAPIKey. intros [= <- <- <-].
  assert (Hall : forall p s, dot ∉ toText s -> p <> "" ->
       VerifyAPIKey argon2 (p +:+ "." +:+ s) (encodeArgon salt (argon2 (bytesOf (EncodeToString URL secretBytes)) salt)) =
       if bool_decide (argon2 (bytesOf s) salt = argon2 (bytesOf (EncodeToString URL secretBytes)) salt)
       then Some p else None).
  { intros p s Hs Hp. unfold VerifyAPIKey. rewrite splitLastDot_app by done.
    by rewrite decode_encodeArgon by auto. }
  split; [|exact Hall].
  rewrite Hall; [by rewrite bool_decide_true| |done].
  apply encoded_text; [done|right; done].
Qed.
End roundtrip.

(** A stand-in for the hash: the salt followed by the length of the secret. *)
Definition demoHash (secret salt : list Z) : list Z :=
  (fun b => b mod 256) <$> (salt ++ [Z.of_nat (length secret)]).

Lemma VerifyAPIKey_generated_witness :
  exists display prefix hash,
    GenerateAPIKey demoHash "" [1; 2; 250] [171; 205] [7; 8; 9] = (display, prefix, hash)
    /\ prefix = "teo_ci_abcd"
    /\ VerifyAPIKey demoHash display hash = Some prefix.
Proof.
  eexists _, _, _. split; [reflexivity|]. split; [reflexivity|].
  eapply (VerifyAPIKey_generated demoHash); [|..|reflexivity].
  - intros secret salt. apply Forall_fmap. apply Forall_true. intros b.
    unfold isByte. simpl. apply Z.mod_pos_bound. lia.
  - repeat constructor; unfold isByte; lia.
  - repeat constructor; unfold isByte; lia.
Defined.
