(* ===== verification/ApiKeys.v ===== *)
(** * internal/api/server.go: API keys and their cache

    The resolver the HTTP middleware calls, with its cache, and the requests that
    share it as a step relation.  The key table is written by the operators: it is
    a function of the time.  Argon2 is the parameter of [Auth]. *)

From S2P Require Import Prelude GoBytes GoFmt Auth Effects GoRegexp GoStrings.

(** A row of teo.api_keys. *)
Record key_row := mkKeyRow {
  ak_prefix : string;
  ak_hash : string;
  ak_scopes : list string;
  ak_revoked_at : option Z;
  ak_expires_at : option Z
}.

Abbreviation keys := (gmap string key_row) (only parsing).

(** ** The cache *)

Record apiKeyEntry := mkKeyEntry {
  ke_principal : Principal;
  ke_expires : Z
}.

Abbreviation apiKeyCache := (gmap string apiKeyEntry) (only parsing).

Definition cacheTTL : Z := 30 * second.

Definition cacheKey (prefix display : string) : string :=
  prefix +:+ "|" +:+ hexString (sha256 (bytesOf display)).

(** [time.Now().After(e.expires)] is strict. *)
Definition cacheGet (now : Z) (key : string) (c : apiKeyCache) : option Principal :=
  match c !! key with
  | Some e => if ke_expires e <? now then None else Some (ke_principal e)
  | None => None
  end.

Definition cachePut (now : Z) (key : string) (p : Principal) (c : apiKeyCache) : apiKeyCache :=
  <[key := mkKeyEntry p (now + cacheTTL)]> c.

(** ** The lookup *)

Definition liveKey (now : Z) (prefix : string) (kv : string * key_row) : bool :=
  String.eqb (ak_prefix kv.2) prefix
  && bool_decide (ak_revoked_at kv.2 = None)
  && match ak_expires_at kv.2 with None => true | Some x => now <? x end.

(** [SELECT id, hash, scopes FROM teo.api_keys WHERE ..] *)
Definition selectKey (prefix : string) (now : Z) (ks : keys) : option (string * string * list string) :=
  (fun kv => (kv.1, ak_hash kv.2, ak_scopes kv.2)) <$> List.find (liveKey now prefix) (map_to_list ks).

Definition keyPrincipal (id : string) (scopes : list string) : Principal :=
  mkPrincipal "" "" id [RoleEngineer] scopes true.

Section resolver.
Context (argon2 : list Z -> list Z -> list Z).

(** The query and the verification of the secret. *)
Definition lookupKey (prefix display : string) (row : result (option (string * string * list string))) : result Principal :=
  match row with
  | Err e => Err e
  | Ok None => Err ErrNoRows
  | Ok (Some (id, hash, scopes)) =>
      match VerifyAPIKey argon2 display hash with
      | None => Err (Sentinel "http.ErrAbortHandler")
      | Some _ => Ok (keyPrincipal id scopes)
      end
  end.

(** [resolveAPIKey]: the clock at the cache lookup and at the insertion, the
    answer of the query; the answer and the cache afterwards.  The update of
    [last_used_at] by another goroutine is not looked at. *)
Definition resolveAPIKey (prefix display : string) (now now' : Z)
    (row : result (option (string * string * list string))) (c : apiKeyCache) : result Principal * apiKeyCache :=
  let ck := cacheKey prefix display in
  match cacheGet now ck c with
  | Some p => (Ok p, c)
  | None =>
      match lookupKey prefix display row with
      | Err e => (Err e, c)
      | Ok p => (Ok p, cachePut now' ck p c)
      end
  end.

(** ** Requests sharing the cache *)

(** Where a request is between its accesses to shared state; [t] is when it read
    the table. *)
Inductive resolvePhase :=
  | RMissed (prefix display : string)
  | RVerified (prefix display : string) (p : Principal) (t : Z).

(** What an outside observer sees: a principal read from the table at [t] and put
    into the cache at [t'], and a principal handed to the request's handler. *)
Inductive keyEvent :=
  | EStored (prefix display : string) (p : Principal) (t t' : Z)
  | EGranted (prefix display : string) (p : Principal) (t : Z).

Record KeySys := mkKeySys {
  ks_now : Z;
  ks_cache : apiKeyCache;
  ks_requests : gmap nat resolvePhase;
  ks_log : list keyEvent
}.

(** [table t] is what the key table holds at time [t]. *)
Context (table : Z -> keys).

Inductive kstep : KeySys -> KeySys -> Prop :=
  | KTick now now' c rq log : now <= now' ->
      kstep (mkKeySys now c rq log) (mkKeySys now' c rq log)
  | KHit now c rq log prefix display p :
      cacheGet now (cacheKey prefix display) c = Some p ->
      kstep (mkKeySys now c rq log) (mkKeySys now c rq (EGranted prefix display p now :: log))
  | KMiss now c rq log i prefix display : rq !! i = None ->
      cacheGet now (cacheKey prefix display) c = None ->
      kstep (mkKeySys now c rq log) (mkKeySys now c (<[i := RMissed prefix display]> rq) log)
  | KRefused now c rq log i prefix display : rq !! i = Some (RMissed prefix display) ->
      kstep (mkKeySys now c rq log) (mkKeySys now c (delete i rq) log)
  | KVerified now c rq log i prefix display p : rq !! i = Some (RMissed prefix display) ->
      lookupKey prefix display (Ok (selectKey prefix now (table now))) = Ok p ->
      kstep (mkKeySys now c rq log)
            (mkKeySys now c (<[i := RVerified prefix display p now]> rq) log)
  | KPut now c rq log i prefix display p t : rq !! i = Some (RVerified prefix display p t) ->
      kstep (mkKeySys now c rq log)
            (mkKeySys now (cachePut now (cacheKey prefix display) p c) (delete i rq)
               (EGranted prefix display p now :: EStored prefix display p t now :: log)).

Definition initKeys (now : Z) : KeySys := mkKeySys now ∅ ∅ [].
End resolver.

(** A request that is not interrupted does what [resolveAPIKey] says. *)
Lemma kstep_resolve argon2 table now c rq log i prefix display : rq !! i = None ->
  let row := Ok (selectKey prefix now (table now)) in
  let '(r, c') := resolveAPIKey argon2 prefix display now now row c in
  exists log', rtc (kstep argon2 table) (mkKeySys now c rq log) (mkKeySys now c' rq log')
    /\ match r with
       | Ok p => head log' = Some (EGranted prefix display p now)
       | Err _ => log' = log
       end.
Proof.
  intros Hi row. unfold resolveAPIKey. destruct (cacheGet now (cacheKey prefix display) c) as [p|] eqn:Eg.
  { eexists. split; [by apply rtc_once, KHit|done]. }
  assert (delete i (<[i:=RMissed prefix display]> rq) = rq) as Ed by by apply delete_insert_id.
  destruct (lookupKey argon2 prefix display row) as [p|e] eqn:El.
  - eexists. split; [|].
    + eapply rtc_l; [by apply (KMiss _ _ now c rq log i)|].
      eapply rtc_l; [eapply (KVerified _ _ now c _ log i); [apply lookup_insert_eq|exact El]|].
      apply rtc_once. rewrite insert_insert_eq. rewrite <-(delete_insert_id rq i (RVerified prefix display p now)) at 2 by done.
      apply KPut. apply lookup_insert_eq.
    + done.
  - exists log. split; [|done]. eapply rtc_l; [by apply (KMiss _ _ now c rq log i)|].
    apply rtc_once. rewrite <-Ed at 2. eapply KRefused, lookup_insert_eq.
Qed.

(** * How long a key is honoured

    Whatever the interleaving of the requests, a principal comes from a row that
    was live, with the presented secret, at most the life of a cache entry before
    the principal was put there. *)


Lemma cacheKey_inj prefix d prefix' d' : cacheKey prefix d = cacheKey prefix' d' ->
  prefix = prefix' /\ sha256 (bytesOf d) = sha256 (bytesOf d').
Proof.
  unfold cacheKey. intros E%(f_equal bytesOf). rewrite !bytesOf_app in E. rewrite !app_assoc in E.
  assert (forall x, length (bytesOf (hexString (sha256 (bytesOf x)))) = 64%nat) as Hl.
  { intros x. unfold hexString. rewrite bytesOf_stringOf by apply hexEncode_isByte, sha256_isByte.
    by rewrite hexEncode_length, sha256_length. }
  apply app_inj_2 in E as [E1 E2]; [|by rewrite !Hl]. apply app_inj_2 in E1 as [E1 _]; [|done].
  split; [by apply (inj bytesOf)|]. apply hexString_inj; [apply sha256_isByte..|by apply (inj bytesOf)].
Qed.

Section keys.
Context (argon2 : list Z -> list Z -> list Z) (table : Z -> gmap string key_row).

(** The table at [t] holds a live row of the prefix whose hash the secret of the
    credential matches; the principal is that row's. *)
Definition Vouched (t : Z) (prefix display : string) (p : Principal) : Prop :=
  exists id k, table t !! id = Some k /\ ak_prefix k = prefix /\ ak_revoked_at k = None
    /\ (forall x, ak_expires_at k = Some x -> t < x)
    /\ is_Some (VerifyAPIKey argon2 display (ak_hash k)) /\ p = keyPrincipal id (ak_scopes k).

Lemma lookupKey_vouched t prefix display p :
  lookupKey argon2 prefix display (Ok (selectKey prefix t (table t))) = Ok p -> Vouched t prefix display p.
Proof.
  unfold lookupKey, selectKey. destruct (List.find _ _) as [[id k]|] eqn:E; [|done]. cbn [fmap option_fmap option_map fst snd].
  apply find_some in E as [Hin Hk]. apply list_elem_of_In, elem_of_map_to_list in Hin.
  destruct (VerifyAPIKey argon2 display (ak_hash k)) as [x|] eqn:Ev; [|done]. intros [= <-]. exists id, k.
  unfold liveKey in Hk. cbn [snd] in Hk. apply andb_true_iff in Hk as [[H1%String.eqb_eq H2%bool_decide_eq_true]%andb_true_iff H3].
  split_and!; [done|done|done| |by eexists|done]. intros y Hy. rewrite Hy in H3. by apply Z.ltb_lt.
Qed.

(** Of a cache entry, of a request in flight, of a logged grant. *)
Definition Stored (s : KeySys) (prefix : string) (p : Principal) (t' : Z) (display : string) : Prop :=
  exists t, EStored prefix display p t t' ∈ ks_log s /\ Vouched t prefix display p /\ t <= t' <= ks_now s.

Definition Justified (s : KeySys) (prefix display : string) (p : Principal) (t : Z) : Prop :=
  exists t' d, Stored s prefix p t' d /\ sha256 (bytesOf d) = sha256 (bytesOf display) /\ t' <= t <= t' + cacheTTL.

Record wfKeys (s : KeySys) : Prop := {
  wk_cache key e : ks_cache s !! key = Some e -> exists prefix d t', key = cacheKey prefix d
    /\ Stored s prefix (ke_principal e) t' d /\ ke_expires e = t' + cacheTTL;
  wk_requests i prefix d p t : ks_requests s !! i = Some (RVerified prefix d p t) -> Vouched t prefix d p /\ t <= ks_now s;
  wk_log prefix d p t : EGranted prefix d p t ∈ ks_log s -> Justified s prefix d p t
}.

(** Facts that only grow with the clock and the log. *)
Lemma Stored_mono s s' prefix p t' d : ks_now s <= ks_now s' -> ks_log s ⊆ ks_log s' ->
  Stored s prefix p t' d -> Stored s' prefix p t' d.
Proof. intros H1 H2 (t & A & B & C). exists t. split; [by apply H2|]. split; [done|lia]. Qed.

Lemma wfKeys_grow s s' : wfKeys s -> ks_now s <= ks_now s' -> ks_log s ⊆ ks_log s' ->
  (forall key e, ks_cache s' !! key = Some e -> ks_cache s !! key = Some e \/ exists prefix d t', key = cacheKey prefix d
     /\ Stored s' prefix (ke_principal e) t' d /\ ke_expires e = t' + cacheTTL) ->
  (forall i prefix d p t, ks_requests s' !! i = Some (RVerified prefix d p t) ->
     ks_requests s !! i = Some (RVerified prefix d p t) \/ Vouched t prefix d p /\ t <= ks_now s') ->
  (forall prefix d p t, EGranted prefix d p t ∈ ks_log s' -> EGranted prefix d p t ∈ ks_log s \/ Justified s' prefix d p t) ->
  wfKeys s'.
Proof.
  intros [W1 W2 W3] Hn Hl Hc Hr Hg. split.
  - intros key e H. destruct (Hc _ _ H) as [H'|H']; [|done]. destruct (W1 _ _ H') as (prefix & d & t' & -> & Hs & He).
    exists prefix, d, t'. split_and!; [done|by eapply Stored_mono|done].
  - intros i prefix d p t H. destruct (Hr _ _ _ _ _ H) as [H'|H']; [|done]. destruct (W2 _ _ _ _ _ H'). split; [done|lia].
  - intros prefix d p t H. destruct (Hg _ _ _ _ H) as [H'|H']; [|done]. destruct (W3 _ _ _ _ H') as (t' & d' & Hs & He).
    exists t', d'. split; [by eapply Stored_mono|done].
Qed.

Lemma kstep_wf s s' : kstep argon2 table s s' -> wfKeys s -> wfKeys s'.
Proof.
  intros Hstep Hw. eapply wfKeys_grow; [exact Hw|..]; destruct Hstep; cbn in *; try done; try lia;
    try (by intros; left); try (intros ? ?; rewrite !elem_of_cons; by auto).
  - destruct (wk_requests _ Hw _ _ _ _ _ H) as [Hv Ht]. cbn in Ht.
    unfold cachePut. intros key e [[<- <-]|[_ Hk]]%lookup_insert_Some; [right|by left].
    exists prefix0, display, now. split_and!; [done| |done]. exists t. cbn. split; [by right; left|]. split; [done|lia].
  - intros j prefix1 d0 p0 t0 [[_ ?]|[_ Hj]]%lookup_insert_Some; [done|by left].
  - intros j prefix1 d0 p0 t0 [_ Hj]%lookup_delete_Some. by left.
  - intros j prefix1 d0 p0 t0 [[_ [= <- <- <- <-]]|[_ Hj]]%lookup_insert_Some; [right|by left].
    split; [by apply lookupKey_vouched|lia].
  - intros j prefix1 d0 p0 t1 [_ Hj]%lookup_delete_Some. by left.
  - intros prefix1 d0 p0 t0 [[= -> -> -> ->]|Hin]%elem_of_cons; [right|by left].
    unfold cacheGet in H. destruct (c !! cacheKey prefix0 display) as [e|] eqn:Ee; [|done].
    destruct (Z.ltb_spec (ke_expires e) now); [done|]. injection H as <-.
    destruct (wk_cache _ Hw _ _ Ee) as (prefix' & d & t' & [-> Hd]%cacheKey_inj & Hs & Hx).
    exists t', d. split; [eapply Stored_mono; [| |exact Hs]; cbn; [lia|by intros ? ?; right]|]. split; [done|].
    destruct Hs as (t & _ & _ & Ht). cbn in Ht. lia.
  - destruct (wk_requests _ Hw _ _ _ _ _ H) as [Hv Ht]. cbn in Ht.
    intros prefix1 d0 p0 t0 [[= -> -> -> ->]|[?|Hin]%elem_of_cons]%elem_of_cons; [right|done|by left].
    exists now, display. split; [|split; [done|unfold cacheTTL, second; lia]]. exists t. cbn. split; [by right; left|]. split; [done|lia].
Qed.

Lemma keys_wf now s : rtc (kstep argon2 table) (initKeys now) s -> wfKeys s.
Proof.
  apply (rtc_ind_r (fun s => wfKeys s)).
  - split; cbn; intros *; [intros H; by rewrite lookup_empty in H..|by intros ?%elem_of_nil].
  - intros y z _ Hs Hw. by eapply kstep_wf.
Qed.

(** C12: A principal handed to a request at time [t] was put into the cache at most
    30 seconds earlier by a request that had found, when it read the key table, a
    row of that prefix neither revoked nor expired whose hash the presented
    secret matches - the credential of that request being the same up to a
    collision of SHA-256.  So when a key is revoked for good at [T] and no
    request takes longer than [delta] between its query and its insertion, no
    principal of that key is handed out after [T] plus [delta] plus 30 seconds. *)
Theorem revoked_keys_expire now s : rtc (kstep argon2 table) (initKeys now) s ->
  (forall prefix display p t, EGranted prefix display p t ∈ ks_log s ->
     exists t1 t2 d, EStored prefix d p t1 t2 ∈ ks_log s /\ Vouched t1 prefix d p
       /\ sha256 (bytesOf d) = sha256 (bytesOf display) /\ t1 <= t2 <= t /\ t <= t2 + cacheTTL)
  /\ forall id T delta,
       (forall t k, T <= t -> table t !! id = Some k -> is_Some (ak_revoked_at k)) ->
       (forall prefix d p t1 t2, EStored prefix d p t1 t2 ∈ ks_log s -> t2 <= t1 + delta) ->
       forall prefix display p t, EGranted prefix display p t ∈ ks_log s -> p_APIKeyID p = id -> t < T + delta + cacheTTL.
Proof.
  intros Hw%keys_wf.
  assert (forall prefix display p t, EGranted prefix display p t ∈ ks_log s ->
     exists t1 t2 d, EStored prefix d p t1 t2 ∈ ks_log s /\ Vouched t1 prefix d p
       /\ sha256 (bytesOf d) = sha256 (bytesOf display) /\ t1 <= t2 <= t /\ t <= t2 + cacheTTL) as A.
  { intros prefix display p t (t2 & d & (t1 & H1 & H2 & H3) & H4 & H5)%(wk_log _ Hw). exists t1, t2, d. split_and!; try done; lia. }
  split; [exact A|]. intros id T delta Hr Hd prefix display p t Hg <-.
  destruct (A _ _ _ _ Hg) as (t1 & t2 & d & H1 & H2 & _ & H3 & H4). pose proof (Hd _ _ _ _ _ H1).
  destruct H2 as (id & k & K1 & _ & K2 & _ & _ & ->). cbn in Hr.
  destruct (Z.lt_ge_cases t1 T) as [?|Hge]; [lia|]. destruct (Hr _ _ Hge K1). congruence.
Qed.
End keys.

(** *** A key used after it was revoked *)

Module KeyDemo.
Definition key : string * string * string := GenerateAPIKey demoHash "" [1; 2; 250] [171; 205] [7; 8; 9].
Definition display : string := key.1.1.
Definition prefix : string := key.1.2.
(** Revoked at 100. *)
Definition table (t : Z) : gmap string key_row :=
  {[ "k1" := mkKeyRow prefix key.2 ["runs"] (if t <? 100 then None else Some 100) None ]}.
Definition principal : Principal := keyPrincipal "k1" ["runs"].
Definition final : KeySys :=
  mkKeySys 120 (cachePut 50 (cacheKey prefix display) principal ∅) ∅
    [EGranted prefix display principal 120; EGranted prefix display principal 50; EStored prefix display principal 50 50].
End KeyDemo.

Lemma demo_reachable : rtc (kstep demoHash KeyDemo.table) (initKeys 50) KeyDemo.final.
Proof.
  eapply rtc_l; [apply (KMiss _ _ 50 _ _ _ 0%nat KeyDemo.prefix KeyDemo.display); reflexivity|].
  eapply rtc_l; [eapply (KVerified _ _ 50 _ _ _ 0%nat KeyDemo.prefix KeyDemo.display KeyDemo.principal);
    [apply lookup_insert_eq|vm_compute; reflexivity]|].
  eapply rtc_l; [eapply (KPut _ _ 50 _ _ _ 0%nat KeyDemo.prefix KeyDemo.display KeyDemo.principal), lookup_insert_eq|].
  eapply rtc_l; [apply (KTick _ _ 50 120); lia|].
  eapply rtc_l; [apply (KHit _ _ 120 _ _ _ KeyDemo.prefix KeyDemo.display KeyDemo.principal); vm_compute; reflexivity|].
  rewrite insert_insert_eq, delete_insert_id by reflexivity. apply rtc_refl.
Qed.

Lemma demo_revoked t k : 100 <= t -> KeyDemo.table t !! "k1" = Some k -> is_Some (ak_revoked_at k).
Proof.
  intros Ht. unfold KeyDemo.table. intros [_ <-]%lookup_singleton_Some. cbn.
  destruct (Z.ltb_spec t 100); [lia|by eexists].
Qed.

Lemma revoked_keys_expire_witness :
  EGranted KeyDemo.prefix KeyDemo.display KeyDemo.principal 120 ∈ ks_log KeyDemo.final
  /\ (exists t1, Vouched demoHash KeyDemo.table t1 KeyDemo.prefix KeyDemo.display KeyDemo.principal /\ t1 < 100)
  /\ 120 < 100 + 0 + cacheTTL.
Proof.
  destruct (revoked_keys_expire demoHash KeyDemo.table 50 KeyDemo.final demo_reachable) as [A B].
  split; [left|]. split.
  - exists 50. split; [|lia]. destruct (A KeyDemo.prefix KeyDemo.display KeyDemo.principal 120) as (t1 & t2 & d & H1 & H2 & _); [left|].
    apply elem_of_cons in H1 as [?|H1]; [discriminate|]. apply elem_of_cons in H1 as [?|H1]; [discriminate|].
    apply elem_of_cons in H1 as [E|H1]; [|by apply elem_of_nil in H1]. injection E as -> -> ->. exact H2.
  - apply (B "k1" 100 0 demo_revoked) with (prefix := KeyDemo.prefix) (display := KeyDemo.display) (p := KeyDemo.principal); [|left|reflexivity].
    intros prefix d p t1 t2 H. apply elem_of_cons in H as [?|H]; [discriminate|]. apply elem_of_cons in H as [?|H]; [discriminate|].
    apply elem_of_cons in H as [E|H]; [|by apply elem_of_nil in H]. injection E as _ _ _ -> ->. lia.
Defined.
