(* ===== verification/GrpcSvc.v ===== *)
(** * internal/grpcsvc

    The worker RPCs (PullAssignment, ReportTestFinished), the run RPCs over
    runsvc with their error mapping and wire conversion, and the authentication
    interceptor. *)

From S2P Require Import Prelude GoRegexp GoStrings Model Scheduler Db Effects Shards StateMachine Lifecycle RunManager Worker RunSvc Cluster.
From S2P Require Import Auth.

(** ** Workers *)

Record TestEntryRef := mkTestEntryRef {
  ref_Path : string;
  ref_Name : string;
  ref_ParamsHash : string
}.

Record AssignmentMsg := mkAssignmentMsg {
  am_ShardId : string;
  am_RunId : string;
  am_RepoFullName : string;
  am_Tests : list TestEntryRef;
  am_PredictedDurationMs : Z
}.

Definition emptyAssignment : AssignmentMsg := mkAssignmentMsg "" "" "" [] 0.

Definition toRef (e : TestEntry) : TestEntryRef :=
  mkTestEntryRef (te_Path e) (te_Name e) (te_ParamsHash e).

(** The structured-plan struct of loadShardTests.  Its shard_index key does not
    occur in the JSON of a plan, whose key is ShardIndex, so the field decodes to
    zero; the other keys match up to case. *)
Record planAssignment := mkPlanAssignment {
  pa_ShardIndex : Z;
  pa_Tests : list TestEntryRef
}.

Definition unmarshalAssignments (d : plan_doc) : result (list planAssignment) :=
  match d with
  | PDManifest _ => Ok []
  | PDPlan p => Ok ((fun a => mkPlanAssignment 0 (toRef ∘ t_Entry <$> a_Tests a)) <$> p_Assignments p)
  | PDOther => Err (ErrText "json: cannot unmarshal")
  end.

Definition loadShardTests (shardID : string) : M (list TestEntryRef) :=
  row ←! scanRow (txExec (query (selectPlanOfShard shardID))) ;
  match row with
  | (planRaw, index, total) =>
      let structured :=
        match unmarshalAssignments planRaw with
        | Ok assignments => List.find (fun a => pa_ShardIndex a =? index) assignments
        | Err _ => None
        end in
      match structured with
      | Some a => retM (pa_Tests a)
      | None =>
          match decodeManifestTests planRaw with
          | Err e => throwM e
          | Ok ts => retM (roundRobin total index (toRef <$> ts))
          end
      end
  end.

Definition stmtPull (workerID : string) : Stmt (option (string * shard_row)) :=
  claimOldest (fun now s => s_set_started_at (Some (coalesce (s_started_at s) now))
    (s_set_worker_id (Some workerID) (s_set_status "running" s))).

Definition PullAssignment (workerID : string) : M AssignmentMsg :=
  withTx
    (row ←! txExec (stmtPull workerID) ;
     match row with
     | None => retM emptyAssignment
     | Some (shardID, s) =>
         repo ←! scanRow (txExec (query (selectRepoOfRun (s_run_id s)))) ;
         ts ←! loadShardTests shardID ;
         txCommit ;!
         retM (mkAssignmentMsg shardID (s_run_id s) repo.2 ts (s_predicted_duration_ms s))
     end).

Record TestFinished := mkTestFinished {
  tf_ShardId : string;
  tf_TestPath : string;
  tf_TestName : string;
  tf_ParamsHash : string;
  tf_Attempt : Z;
  tf_Outcome : string;
  tf_DurationMs : Z;
  tf_FailureStack : string;
  tf_FailureMessage : string
}.

Definition selectRepoOfShard (shardID : string) (db : DB) : option string :=
  match shards db !! shardID with
  | Some s => r_repo_id <$> runs db !! s_run_id s
  | None => None
  end.

Definition grpcFingerprint (t : TestFinished) : string :=
  tf_TestPath t +:+ "::" +:+ tf_TestName t +:+ "::" +:+ tf_ParamsHash t.

(** The insert of the execution takes its times from the server clock. *)
Definition stmtReport (fresh testID : string) (t : TestFinished) (cluster : option string) : Stmt unit :=
  fun now => insertExecution fresh (tf_ShardId t) testID (tf_Attempt t) (tf_Outcome t) (tf_DurationMs t)
    (now - tf_DurationMs t * 1000) now None cluster now.

Definition ReportTestFinished (cluster : bool) (msg : option TestFinished) : M bool :=
  match msg with
  | None => throwM (ErrText "invalid TestFinished")
  | Some t =>
      if String.eqb (tf_ShardId t) "" then throwM (ErrText "invalid TestFinished")
      else
        repoID ←! scanRow (poolExec (query (selectRepoOfShard (tf_ShardId t)))) ;
        fresh ←! newUUID ;
        testID ←! poolExec (upsertTest fresh repoID (grpcFingerprint t) (tf_TestPath t) (tf_TestName t)
                    (tf_ParamsHash t) "" "pytest") ;
        clusterID ←!
          (if (String.eqb (tf_Outcome t) "failed" || String.eqb (tf_Outcome t) "errored"
               || String.eqb (tf_Outcome t) "timed_out") && negb (String.eqb (tf_FailureStack t) "")
           then
             c ←! tryM (UpsertCluster cluster repoID (tf_FailureStack t) (tf_FailureMessage t)) ;
             retM (match c with Ok cid => nullIf cid | Err _ => None end)
           else retM None) ;
        fresh' ←! newUUID ;
        poolExec (stmtReport fresh' testID t clusterID) ;!
        retM true
  end.

(** ** Runs *)

Inductive Code := OK | InvalidArgument | NotFound | AlreadyExists | Internal | Unauthenticated.

Definition grpcErr (err : error) : Code :=
  if errorsIs err ErrValidation then InvalidArgument
  else if errorsIs err ErrRepoNotFound then NotFound
  else if errorsIs err ErrRunNotFound then NotFound
  else if errorsIs err ErrIdempotencyConflict then AlreadyExists
  else Internal.

Definition clampInt32 (v : Z) : Z :=
  if v >? max_int32 then max_int32
  else if v <? min_int32 then min_int32
  else v.

(** The wire request: [req_Manifest] and [req_Budget] are message fields and may
    be absent. *)
Record CreateRunMsg := mkCreateRunMsg {
  req_RepoFullName : string;
  req_CommitSha : string;
  req_Branch : string;
  req_Manifest : option (string * list (string * string * string * list string));
  req_Budget : option (Z * Z);
  req_TriggerActor : string;
  req_TriggerPrNumber : Z;
  req_IdempotencyKey : string
}.

Definition protoToCreateReq (req : CreateRunMsg) : CreateRunRequest :=
  mkCreateRunRequest (req_RepoFullName req) (req_CommitSha req) (req_Branch req)
    (match req_Manifest req with
     | Some (runner, ts) =>
         mkTestManifest runner ((fun t => match t with (p, n, h, tags) => mkTestEntry p n h "" tags end) <$> ts)
     | None => mkTestManifest "" []
     end)
    ((fun b => mkRunBudget b.1 b.2) <$> req_Budget req)
    (req_TriggerActor req) (req_TriggerPrNumber req) (req_IdempotencyKey req).

Record RunMsg := mkRunMsg {
  rmsg_Id : string;
  rmsg_RepoFullName : string;
  rmsg_CommitSha : string;
  rmsg_Branch : string;
  rmsg_Status : string;
  rmsg_TotalDurationMs : Z;
  rmsg_BudgetSeconds : Z;
  rmsg_PreemptionCount : Z;
  rmsg_StartedAt : option Z;
  rmsg_FinishedAt : option Z
}.

Definition runToProto (r : Run) : RunMsg :=
  mkRunMsg (run_ID r) (run_RepoFullName r) (run_CommitSHA r) (run_Branch r) (run_Status r)
    (clampInt32 (run_TotalDurationMS r)) (clampInt32 (run_BudgetSeconds r))
    (clampInt32 (run_PreemptionCount r)) (run_StartedAt r) (run_FinishedAt r).

(** An RPC returns a message or a status code. *)
Definition rpc {A B} (f : A -> B) (m : M A) : M (B + Code) :=
  r ←! tryM m ;
  retM (match r with Ok a => inl (f a) | Err e => inr (grpcErr e) end).

Definition CreateRun (s : Service) (req : CreateRunMsg) : M (RunMsg + Code) :=
  rpc (fun rc => runToProto rc.1) (Create s (protoToCreateReq req)).
Definition GetRun (id : string) : M (RunMsg + Code) := rpc runToProto (Get id).
Definition CancelRun (s : Service) (id : string) : M (RunMsg + Code) := rpc runToProto (Cancel s id).

(** ** The interceptor *)

Definition authedMethods (m : string) : bool :=
  String.eqb m "/teo.v1.Runs/CreateRun" || String.eqb m "/teo.v1.Runs/GetRun"
  || String.eqb m "/teo.v1.Runs/CancelRun".

(** The values of the authorization metadata key. *)
Definition bearerFromMetadata (vals : list string) : text :=
  match vals with
  | [] => []
  | v :: _ =>
      let tok := toText v in
      trimSpace (if (7 <=? length tok)%nat && equalFold (take 7 tok) (toText "bearer ")
                 then drop 7 tok else tok)
  end.

Section interceptor.
Context (verifyJWT : option (string -> option Principal))
        (resolveAPIKey : option (string -> string -> option Principal)).

(** [md] is [None] for a context without metadata. *)
Definition authenticate (md : option (list string)) : option Principal :=
  match md with
  | None => None
  | Some vals => principalOfToken resolveAPIKey verifyJWT (bearerFromMetadata vals)
  end.

(** The handler with the principal bound, or the rejection. *)
Definition AuthUnaryInterceptor {A} (md : option (list string)) (fullMethod : string)
    (handler : option Principal -> M (A + Code)) : M (A + Code) :=
  match authenticate md with
  | Some p => handler (Some p)
  | None => if authedMethods fullMethod then retM (inr Unauthenticated) else handler None
  end.

(** The calls of the Runs service, their names on the wire, and the methods that
    [RegisterRuns] puts behind them; [ctx] is the principal of the context. *)
Inductive runsCall :=
  | CallCreateRun (req : CreateRunMsg)
  | CallGetRun (id : string)
  | CallCancelRun (id : string).

Definition fullMethodOf (c : runsCall) : string :=
  match c with
  | CallCreateRun _ => "/teo.v1.Runs/CreateRun"
  | CallGetRun _ => "/teo.v1.Runs/GetRun"
  | CallCancelRun _ => "/teo.v1.Runs/CancelRun"
  end.

Definition runsMethod (s : Service) (c : runsCall) (ctx : option Principal) : M (RunMsg + Code) :=
  match c with
  | CallCreateRun req => CreateRun s req
  | CallGetRun id => GetRun id
  | CallCancelRun id => CancelRun s id
  end.

(** A call with its metadata, through the interceptor of the server. *)
Definition RunsServer (s : Service) (md : option (list string)) (c : runsCall) : M (RunMsg + Code) :=
  AuthUnaryInterceptor md (fullMethodOf c) (runsMethod s c).
End interceptor.

(** * What the gRPC surface guarantees

    The Runs service sits behind the interceptor, and its replies fit the
    32-bit fields of the wire. *)


Section gate.
Context (verifyJWT : option (string -> option Principal))
        (resolveAPIKey : option (string -> string -> option Principal)).

(** Where a principal comes from: the resolver asked about the part of a teo_
    token before its last dot, or the verifier asked about any other token. *)
Inductive vouched (tok : text) : Principal -> Prop :=
  | vouched_key resolve i q : hasPrefix tok (toText "teo_") = true -> lastIndexByte tok dot = Some i ->
      (0 < i)%nat -> resolveAPIKey = Some resolve -> resolve (ofText (take i tok)) (ofText tok) = Some q ->
      vouched tok (asAPIKey q)
  | vouched_jwt verify p : hasPrefix tok (toText "teo_") = false -> verifyJWT = Some verify ->
      verify (ofText tok) = Some p -> vouched tok p.

Lemma principalOfToken_vouched tok p :
  principalOfToken resolveAPIKey verifyJWT tok = Some p -> tok <> [] /\ vouched tok p.
Proof.
  unfold principalOfToken. destruct tok as [|c tok]; [done|]. set (t := c :: tok).
  intros H. split; [done|]. revert H. destruct (hasPrefix t (toText "teo_")) eqn:Hp.
  - destruct (lastIndexByte t dot) as [[|i]|] eqn:Hi; [done| |done].
    destruct resolveAPIKey as [resolve|] eqn:Hr; [|done].
    intros (q & Hq & ->)%fmap_Some. by eapply (vouched_key t resolve (S i)); [|done|lia| |].
  - destruct verifyJWT as [verify|] eqn:Hv; [|done]. intros H. by eapply vouched_jwt.
Qed.

(** A method answers with what the run service did, and does nothing else. *)
Lemma rpc_answer {A B} (f : A -> B) (m : M A) w out w' : m w = (out, w') ->
  rpc f m w = (Ok (match out with Ok a => inl (f a) | Err e => inr (grpcErr e) end), w').
Proof. intros E. unfold rpc, bindM, tryM. by rewrite E. Qed.

(** No call of the Runs service runs unauthenticated: without a valid
    credential the interceptor answers Unauthenticated and the handler is not
    run, so nothing happens; with one, the handler runs with a principal the
    API-key resolver or the JWT verifier vouched for, from the first
    authorization value of the request. *)
Theorem Runs_need_credential {A} md method (handler : option Principal -> M (A + Code)) w :
  authedMethods method = true ->
  (authenticate verifyJWT resolveAPIKey md = None ->
     AuthUnaryInterceptor verifyJWT resolveAPIKey md method handler w = (Ok (inr Unauthenticated), w))
  /\ (forall p, authenticate verifyJWT resolveAPIKey md = Some p ->
     AuthUnaryInterceptor verifyJWT resolveAPIKey md method handler w = handler (Some p) w
     /\ exists v vals, md = Some (v :: vals) /\ bearerFromMetadata (v :: vals) <> []
          /\ vouched (bearerFromMetadata (v :: vals)) p).
Proof.
  intros Hm. unfold AuthUnaryInterceptor. split.
  - intros ->. by rewrite Hm.
  - intros p Hp. rewrite Hp. split; [done|]. unfold authenticate in Hp.
    destruct md as [[|v vals]|]; [done| |done]. exists v, vals. split; [done|].
    by apply principalOfToken_vouched.
Qed.
End gate.

Lemma clampInt32_range v : min_int32 <= clampInt32 v <= max_int32.
Proof.
  unfold clampInt32, min_int32, max_int32. rewrite Z.gtb_ltb.
  destruct (Z.ltb_spec (2 ^ 31 - 1) v); [lia|]. destruct (Z.ltb_spec v (- 2 ^ 31)); lia.
Qed.

Lemma clampInt32_id v : min_int32 <= v <= max_int32 -> clampInt32 v = v.
Proof.
  unfold clampInt32, min_int32, max_int32. rewrite Z.gtb_ltb. intros H.
  destruct (Z.ltb_spec (2 ^ 31 - 1) v); [lia|]. destruct (Z.ltb_spec v (- 2 ^ 31)); lia.
Qed.

Lemma clampInt32_mono v w : v <= w -> clampInt32 v <= clampInt32 w.
Proof.
  unfold clampInt32, min_int32, max_int32. rewrite !Z.gtb_ltb. intros H.
  repeat match goal with |- context [?a <? ?b] => destruct (Z.ltb_spec a b) end; lia.
Qed.

(** Every number of a run on the wire is a 32-bit one and keeps the order of
    the numbers it was made from; a number that fits is sent exactly, and the
    text fields and times are the run's. *)
Theorem runToProto_bounds r r' :
  let p := runToProto r in
  Forall (fun v => min_int32 <= v <= max_int32) [rmsg_TotalDurationMs p; rmsg_BudgetSeconds p; rmsg_PreemptionCount p]
  /\ (run_TotalDurationMS r <= run_TotalDurationMS r' -> rmsg_TotalDurationMs p <= rmsg_TotalDurationMs (runToProto r'))
  /\ (Forall (fun v => min_int32 <= v <= max_int32) [run_TotalDurationMS r; run_BudgetSeconds r; run_PreemptionCount r] ->
        p = mkRunMsg (run_ID r) (run_RepoFullName r) (run_CommitSHA r) (run_Branch r) (run_Status r)
              (run_TotalDurationMS r) (run_BudgetSeconds r) (run_PreemptionCount r)
              (run_StartedAt r) (run_FinishedAt r)).
Proof.
  cbv zeta. split_and!.
  - repeat constructor; apply clampInt32_range.
  - apply clampInt32_mono.
  - intros (H1 & (H2 & (H3 & _)%Forall_cons)%Forall_cons)%Forall_cons. unfold runToProto.
    by rewrite !clampInt32_id.
Qed.

Lemma Runs_need_credential_witness :
  (AuthUnaryInterceptor None (Some (fun _ _ => None)) (Some ["Bearer teo_ci_00.s3cret"])
     "/teo.v1.Runs/CancelRun" (fun _ => CancelRun (mkService true) "run") (mkWorld emptyDB None 0 (fun _ => "") 0 ∅ [] [] idleAgent)).1
  = Ok (inr Unauthenticated).
Proof.
  destruct (Runs_need_credential None (Some (fun _ _ => None)) (Some ["Bearer teo_ci_00.s3cret"])
    "/teo.v1.Runs/CancelRun" (fun _ => CancelRun (mkService true) "run")
    (mkWorld emptyDB None 0 (fun _ => "") 0 ∅ [] [] idleAgent)) as [H _]; [reflexivity|].
  rewrite H; vm_compute; reflexivity.
Defined.

Lemma runToProto_bounds_witness :
  rmsg_TotalDurationMs (runToProto (mkRun "r" "p" "a/b" "c" "main" "running" None None (2 ^ 40) 60 1 0 0)) = max_int32.
Proof.
  destruct (runToProto_bounds (mkRun "r" "p" "a/b" "c" "main" "running" None None (2 ^ 40) 60 1 0 0)
    (mkRun "r" "p" "a/b" "c" "main" "running" None None (2 ^ 40) 60 1 0 0)) as (H & _ & _).
  reflexivity.
Defined.
