(* ===== verification/ServicesSafe.v ===== *)
(** * The worker, the intake and the gRPC services under interference

    As for the manager: each operation keeps any row relation its statements
    keep, and the statements keep [Evolves] and [NoFinalize].  Together with the
    manager this closes the circle: what every service relies on of the others
    is what every service guarantees. *)

From S2P Require Import Prelude Model Scheduler Db Effects Shards StateMachine Lifecycle.
From S2P Require Import Predictor RunManager RunManagerSafe Worker RunSvc Cluster.
From S2P Require Import GrpcSvc.

Class ServiceStmts (R : RowRel) : Prop := {
  ss_preempt :: forall id, StmtKeeps R (stmtPreempt id);
  ss_bump :: forall id, StmtKeeps R (stmtBumpPreemptions id);
  ss_test :: forall a b c d e f g h, StmtKeeps R (upsertTest a b c d e f g h);
  ss_exec :: forall a b c d e f g h i j, StmtKeeps R (insertExecution a b c d e f g h i j);
  ss_report :: forall a b t c, StmtKeeps R (stmtReport a b t c);
  ss_done :: forall id s, (s = "succeeded" \/ s = "failed") -> StmtKeeps R (stmtShardDone id s);
  ss_claim :: forall w, StmtKeeps R (stmtClaim w);
  ss_pull :: forall w, StmtKeeps R (stmtPull w);
  ss_claim_id :: forall w id, StmtKeeps R (stmtClaimById w id);
  ss_insert_run :: forall id repo req, StmtKeeps R (stmtInsertRun id repo req);
  ss_insert_plan :: forall id mf, StmtKeeps R (stmtInsertPlan id mf);
  ss_cancel :: forall id, StmtKeeps R (stmtCancel id);
  ss_clusters :: ClusterStmts R
}.

Section services.
Context (R : RowRel) `{!RowPreOrder R} `{!ServiceStmts R}.

#[local] Instance done_ok id : StmtKeeps R (stmtShardDone id "succeeded").
Proof. apply ss_done. auto. Qed.
#[local] Instance done_failed id : StmtKeeps R (stmtShardDone id "failed").
Proof. apply ss_done. auto. Qed.

#[export] Instance beginDrain_guaranteed : Guaranteed R beginDrain.
Proof. unfold beginDrain. guarantee. Qed.
#[export] Instance watchSpot_guaranteed n : Guaranteed R (watchSpot n).
Proof. unfold watchSpot. guarantee. Qed.
#[export] Instance interleave_guaranteed : Guaranteed R interleave.
Proof. unfold interleave. guarantee. Qed.
#[export] Instance recordResult_guaranteed a r s x : Guaranteed R (recordResult a r s x).
Proof. unfold recordResult, uploadLog. guarantee. Qed.
#[export] Instance loadTestsForShard_guaranteed s : Guaranteed R (loadTestsForShard s).
Proof. unfold loadTestsForShard. guarantee. Qed.
#[export] Instance executeShard_guaranteed a r s ts : Guaranteed R (executeShard a r s ts).
Proof. unfold executeShard, isDraining. guarantee. Qed.
#[export] Instance tryClaimAndRun_guaranteed a : Guaranteed R (tryClaimAndRun a).
Proof. unfold tryClaimAndRun, claimTx, storeCurrent, isDraining. guarantee. Qed.
#[export] Instance handleMessage_guaranteed a d : Guaranteed R (handleMessage a d).
Proof. unfold handleMessage, claimMessage, storeCurrent, isDraining. guarantee. Qed.
#[export] Instance Create_guaranteed s req : Guaranteed R (Create s req).
Proof. unfold Create, tryIdempotent, lookupIdempotent, loadRun. guarantee. Qed.
#[export] Instance Cancel_guaranteed s id : Guaranteed R (Cancel s id).
Proof. unfold Cancel, loadRun. guarantee. Qed.
#[export] Instance PullAssignment_guaranteed w : Guaranteed R (PullAssignment w).
Proof. unfold PullAssignment, loadShardTests. guarantee. Qed.
#[export] Instance ReportTestFinished_guaranteed c t : Guaranteed R (ReportTestFinished c t).
Proof. unfold ReportTestFinished. guarantee. Qed.
End services.

(** ** The statements *)

Section stmts.
Context (R : RowRel) `{!RowPreOrder R}.

Lemma bump_keeps id :
  (forall now r, int4 (r_preemption_count r + 1) = true ->
     rel_runs R (Some r) (Some (r_set_updated_at now (r_set_preemption_count (r_preemption_count r + 1) r)))) ->
  StmtKeeps R (stmtBumpPreemptions id).
Proof.
  intros H now db a db'. unfold stmtBumpPreemptions.
  destruct (shards db !! id) as [s|]; [|by intros [= _ <-]].
  destruct (runs db !! s_run_id s) as [r|] eqn:Er; [|by intros [= _ <-]].
  destruct (int4 _) eqn:Ei; [|done]. unfold updateRun. rewrite (surjective_pairing (updateRow _ _ _ _)). intros [= _ <-].
  apply DBRel_runs; [done|]. intros k. apply (updateRow_row (rel_runs R)). intros v Hv _.
  rewrite Er in Hv. injection Hv as <-. by apply H.
Qed.

Lemma upsertTest_keeps f r fp p n h s rn :
  (forall t now, rel_tests R (Some t) (Some (mkTestRow (ts_repo_id t) (ts_fingerprint t) (ts_path t) (ts_name t)
           (ts_params_hash t) (ts_ast_signature t) (ts_runner t) (ts_status t) (ts_quarantined_at t)
           (ts_quarantine_reason t) now (ts_owner_team t)))) ->
  (forall now, rel_tests R None (Some (mkTestRow r fp p n h s rn "active" None None now None))) ->
  StmtKeeps R (upsertTest f r fp p n h s rn).
Proof.
  intros H1 H2 now db a db'. unfold upsertTest.
  destruct (List.find _ _) as [[id t]|] eqn:E.
  - apply List.find_some in E as [Hin _]. apply list_elem_of_In, elem_of_map_to_list in Hin.
    intros [= _ <-]. apply DBRel_tests; [done|]. intros k. apply (insert_row (rel_tests R)).
    rewrite Hin. apply H1.
  - destruct (negb _); [done|]. destruct (tests db !! f) as [t|] eqn:Ef.
    { by rewrite bool_decide_true. }
    rewrite bool_decide_false by (by intros [? ?]). intros [= _ <-].
    apply DBRel_tests; [done|]. intros k. apply (insert_row (rel_tests R)). by rewrite Ef.
Qed.

Lemma insertExecution_keeps f s t at_ o d st fi lk cl :
  (int4 at_ = true -> int4 d = true -> existsb (String.eqb o) outcomes = true -> rel_execs R (s, t, at_) None (Some (mkExecRow f o d None st fi lk cl))) ->
  StmtKeeps R (insertExecution f s t at_ o d st fi lk cl).
Proof.
  intros H now db a db'. unfold insertExecution.
  destruct (int4 at_ && int4 d) eqn:Ei; [|done]. destruct (existsb _ outcomes) eqn:Eo; [|done]. cbn [negb].
  apply andb_true_iff in Ei as [Ea Ei]. destruct (test_executions db !! _) as [e|] eqn:E; [by intros [= _ <-]|].
  destruct (negb _); [done|]. intros [= _ <-].
  apply DBRel_execs; [done|]. intros k. apply (insert_keyed (rel_execs R)). rewrite E. by apply H.
Qed.

(** A claim writes one pending row. *)
Lemma claimOldest_keeps (f : Z -> shard_row -> shard_row) :
  (forall now s, s_status s = "pending" -> rel_shards R (Some s) (Some (f now s))) ->
  StmtKeeps R (claimOldest f).
Proof.
  intros H now db a db'. unfold claimOldest.
  destruct (claimable db) as [|[id s] l] eqn:E; [by intros [= _ <-]|].
  assert (Hin : (id, s) ∈ claimable db) by (rewrite E; by left).
  apply selectOrdered_elem in Hin as [Hs Hp]. zbool.
  intros [= _ <-]. apply DBRel_shards; [done|]. intros k. apply (insert_row (rel_shards R)).
  rewrite Hs. auto.
Qed.

Lemma insertRun_keeps id (row : Z -> run_row) :
  (forall now, int4 (default 0 (r_trigger_pr_number (row now))) && int4 (default 0 (r_budget_seconds (row now))) = true ->
     rel_runs R None (Some (row now))) ->
  StmtKeeps R (fun now => insertRun id (row now) now).
Proof.
  intros H now db a db'. unfold insertRun.
  destruct (int4 _ && int4 _) eqn:Ei; [|done]. cbn [negb]. destruct (runs db !! id) as [r|] eqn:E.
  { by rewrite bool_decide_true. }
  rewrite bool_decide_false by (by intros [? ?]). destruct (negb _); [done|].
  assert (Hok : DBRel R db (set_runs (<[id := row now]> (runs db)) db)).
  { apply DBRel_runs; [done|]. intros k. apply (insert_row (rel_runs R)). rewrite E. by apply H. }
  destruct (rm_idempotency_key _); [|by intros [= _ <-]].
  destruct (existsb _ _); [done|]. by intros [= _ <-].
Qed.

Lemma insertPlan_keeps id mf :
  rel_plans R None (Some (PDManifest mf)) -> StmtKeeps R (stmtInsertPlan id mf).
Proof.
  intros H now db a db'. unfold stmtInsertPlan.
  destruct (run_plans db !! id) as [p|] eqn:E; [by rewrite bool_decide_true|].
  rewrite bool_decide_false by (by intros [? ?]). destruct (negb _); [done|]. intros [= _ <-].
  apply DBRel_plans; [done|]. intros k. apply (insert_row (rel_plans R)). by rewrite E.
Qed.
End stmts.

#[export] Instance Evolves_services : ServiceStmts Evolves.
Proof.
  split.
  - intros id. eapply updateShard_keeps; [apply _|reflexivity|]. intros now s _. by split.
  - intros id. apply bump_keeps; [apply _|]. intros now r _. by apply runEvolves_same.
  - intros. by apply upsertTest_keeps; [apply _|..].
  - intros. by apply insertExecution_keeps; [apply _|].
  - intros a b t c now. apply (insertExecution_keeps Evolves); done.
  - intros id s Hs. eapply updateShard_keeps; [apply _|reflexivity|]. intros now sh _.
    split; try done. simpl. by destruct Hs as [-> | ->].
  - intros w. apply claimOldest_keeps; [apply _|]. intros now s Hs. by split.
  - intros w. apply claimOldest_keeps; [apply _|]. intros now s Hs. by split.
  - intros w id. eapply updateShard_keeps; [apply _|reflexivity|]. intros now s _. by split.
  - intros id repo req. apply (insertRun_keeps Evolves id (newRunRow repo req)). intros now _.
    split; [reflexivity|known].
  - intros id mf. by apply insertPlan_keeps; [apply _|].
  - intros id. eapply updateRun_keeps; [apply _|reflexivity|]. intros now r Hg%statusIn_elem.
    status_cases Hg; (eapply runEvolves_move;
      [reflexivity|unfold dbTerminal; rewrite Hg; intros [?|[?|?]]; discriminate
      |intros _; rewrite Hg; split; [known|reflexivity]|reflexivity..|by intros]).
  - intros b i r f msg n. by apply upsertCluster_keeps; [apply _|..].
Qed.

#[export] Instance NoFinalize_services : ServiceStmts NoFinalize.
Proof.
  split; try (intros; eapply updateShard_keeps; [apply _|reflexivity|by intros ? ? _ ?]).
  - intros id. apply bump_keeps; [apply _|]. intros now r _. by apply unfinalized_same.
  - intros. by apply upsertTest_keeps; [apply _|..].
  - intros. by apply insertExecution_keeps; [apply _|].
  - intros a b t c now. apply (insertExecution_keeps NoFinalize); done.
  - intros w. apply claimOldest_keeps; [apply _|]. by intros now s _ Hs.
  - intros w. apply claimOldest_keeps; [apply _|]. by intros now s _ Hs.
  - intros id repo req. by apply (insertRun_keeps NoFinalize id (newRunRow repo req)).
  - intros id mf. by apply insertPlan_keeps; [apply _|].
  - intros id. eapply updateRun_keeps; [apply _|reflexivity|]. intros. by eapply unfinalized_move.
  - intros b i r f msg n. by apply upsertCluster_keeps; [apply _|..].
Qed.
