(* ===== verification/Flake.v ===== *)
(** * internal/flake

    The Wilson interval, the classifier and the nightly job.  The arithmetic is
    written once over a class of number types: float64 runs it, the real numbers
    give it its meaning. *)

From Stdlib Require Import SpecFloat.
From S2P Require Import Prelude GoFloat Model Scheduler Db Effects Lifecycle.
From S2P Require Import RunManager.

(** ** Number types *)

Class FloatOps (F : Type) := {
  fofZ : Z -> F;
  (** The constant n / d. *)
  fconst : Z -> Z -> F;
  fadd : F -> F -> F;
  fsub : F -> F -> F;
  fmul : F -> F -> F;
  fdiv : F -> F -> F;
  fsqrt : F -> F;
  fmax : F -> F -> F;
  fmin : F -> F -> F;
  fltb : F -> F -> bool
}.

Definition isNaN (x : float64) : bool := match x with S754_nan => true | _ => false end.
Definition isInf (s : bool) (x : float64) : bool :=
  match x with S754_infinity s' => Bool.eqb s s' | _ => false end.
Definition isZero (x : float64) : bool := match x with S754_zero _ => true | _ => false end.

(** [math.Max] and [math.Min] with their special cases. *)
Definition f64_max (x y : float64) : float64 :=
  if isInf false x || isInf false y then S754_infinity false
  else if isNaN x || isNaN y then S754_nan
  else if isZero x && isZero y then (match x with S754_zero true => y | _ => x end)
  else if f64_ltb y x then x else y.
Definition f64_min (x y : float64) : float64 :=
  if isInf true x || isInf true y then S754_infinity true
  else if isNaN x || isNaN y then S754_nan
  else if isZero x && isZero y then (match x with S754_zero true => x | _ => y end)
  else if f64_ltb x y then x else y.

#[export] Instance float64_ops : FloatOps float64 := {
  fofZ := f64_ofZ; fconst := f64_const; fadd := f64_add; fsub := f64_sub; fmul := f64_mul;
  fdiv := f64_div; fsqrt := f64_sqrt; fmax := f64_max; fmin := f64_min; fltb := f64_ltb
}.

(** ** wilson.go *)

Section flake.
Context {F : Type} `{FloatOps F}.

(** [z] and the constant [z*z], which Go evaluates exactly. *)
Definition zConst : F := fconst 196 100.
Definition zSquared : F := fconst 38416 10000.

Definition WilsonInterval (failures n : Z) : F * F :=
  if n =? 0 then (fofZ 0, fofZ 0)
  else
    let p := fdiv (fofZ failures) (fofZ n) in
    let denom := fadd (fofZ 1) (fdiv zSquared (fofZ n)) in
    let center := fdiv (fadd p (fdiv zSquared (fmul (fofZ 2) (fofZ n)))) denom in
    let margin := fdiv (fmul zConst (fsqrt (fadd (fdiv (fmul p (fsub (fofZ 1) p)) (fofZ n))
      (fdiv zSquared (fmul (fmul (fofZ 4) (fofZ n)) (fofZ n)))))) denom in
    (fmax (fofZ 0) (fsub center margin), fmin (fofZ 1) (fadd center margin)).

Record Decision := mkDecision {
  NumAttempts : Z;
  NumFailures : Z;
  FailureRate : F;
  WilsonLower : F;
  WilsonUpper : F;
  IsFlaky : bool;
  IsBroken : bool;
  Insufficient : bool
}.

Record Threshold := mkThreshold {
  MinSamples : Z;
  WilsonLowerCutoff : F;
  BrokenLowerCutoff : F
}.

Definition Default : Threshold := mkThreshold 20 (fconst 5 100) (fconst 90 100).

Definition Classify (failures n : Z) (t : Threshold) : Decision :=
  if n <? MinSamples t then mkDecision n failures (fofZ 0) (fofZ 0) (fofZ 0) false false true
  else
    let rate := fdiv (fofZ failures) (fofZ n) in
    let '(lower, upper) := WilsonInterval failures n in
    if fltb (BrokenLowerCutoff t) lower then mkDecision n failures rate lower upper false true false
    else mkDecision n failures rate lower upper (fltb (WilsonLowerCutoff t) lower) false false.

(** ** job.go *)

(** How a number is stored in a NUMERIC(5,4) column, in ten-thousandths, or the
    error of one that does not fit. *)
Context (toNumeric : F -> result Z).

Record flakeRec := mkFlakeRec {
  fk_testID : string;
  fk_failures : Z;
  fk_attempts : Z
}.

Definition failureOutcome (o : string) : bool := existsb (String.eqb o) ["failed"; "errored"; "timed_out"].

Definition days (n : Z) : Z := n * 86400 * 1000000.

(** The executions of a test in the window, of shards of known runs. *)
Definition windowOf (now : Z) (testID : string) (db : DB) : list exec_row :=
  omap (fun kv : (string * string * Z) * exec_row =>
    if String.eqb kv.1.1.2 testID && (now - days 30 <? ex_started_at kv.2)
       && bool_decide (is_Some (shards db !! kv.1.1.1 ≫= fun s => runs db !! s_run_id s))
    then Some kv.2 else None) (map_to_list (test_executions db)).

Definition executedTests (db : DB) : list string :=
  remove_dups ((fun kv : (string * string * Z) * exec_row => kv.1.1.2) <$> map_to_list (test_executions db)).

Definition selectEligible (minSamples : Z) : Stmt (list flakeRec) := fun now db =>
  (Ok (omap (fun id =>
     let w := windowOf now id db in
     if (0 <? Z.of_nat (length w)) && (minSamples <=? Z.of_nat (length w))
     then Some (mkFlakeRec id (Z.of_nat (length (List.filter (fun e => failureOutcome (ex_outcome e)) w)))
                  (Z.of_nat (length w)))
     else None) (executedTests db)), db).

Definition categoryOf (d : Decision) : option string :=
  if IsBroken d then Some "broken" else if IsFlaky d then Some "unknown" else None.

(** The record an upsert leaves: the columns of EXCLUDED, the rest of the old
    row, and the old category when there is no new one. *)
Definition mergeFlake (rate lower upper n : Z) (category : option string) (now : Z) (old : option flake_row) : flake_row :=
  match old with
  | None => mkFlakeRow rate lower upper n category None None None None now None None
  | Some r => mkFlakeRow rate lower upper n
      (match category with Some c => Some c | None => fr_category r end)
      (fr_quarantined_at r) (fr_unquarantined_at r) (fr_github_issue_number r) (fr_github_issue_url r) now
      (fr_last_nudged_at r) (fr_unquarantine_proposed_at r)
  end.

(** Four digits after the point and one before it. *)
Definition numeric54 (z : Z) : bool := (-99999 <=? z) && (z <=? 99999).

Definition stmtFlakeUpsert (testID : string) (d : Decision) : Stmt unit := fun now db =>
  match toNumeric (FailureRate d), toNumeric (WilsonLower d), toNumeric (WilsonUpper d) with
  | Ok rate, Ok lower, Ok upper =>
      if negb (int4 (NumAttempts d)) then (Err errEncode, db)
      else if negb (numeric54 rate && numeric54 lower && numeric54 upper) then (Err (PgError "22003"), db)
      else if negb (bool_decide (is_Some (tests db !! testID))) then (Err (PgError "23503"), db)
      else (Ok tt, set_flake_records (<[testID :=
             mergeFlake rate lower upper (NumAttempts d) (categoryOf d) now (flake_records db !! testID)]>
             (flake_records db)) db)
  | _, _, _ => (Err (PgError "22003"), db)
  end.

Definition ts_set_status (v : string) (t : test_row) : test_row :=
  mkTestRow (ts_repo_id t) (ts_fingerprint t) (ts_path t) (ts_name t) (ts_params_hash t)
    (ts_ast_signature t) (ts_runner t) v (ts_quarantined_at t) (ts_quarantine_reason t) (ts_last_seen t) (ts_owner_team t).

Definition updateTest (id : string) (guard : test_row -> bool) (f : test_row -> test_row) : Stmt Z := fun now db =>
  let '(t, n) := updateRow id guard f (tests db) in (Ok n, set_tests t db).

Definition testStatusIs (s : string) (t : test_row) : bool := String.eqb (ts_status t) s.

Definition stmtBroken (testID : string) : Stmt Z :=
  updateTest testID (testStatusIs "active") (ts_set_status "broken").

Definition flakeOne (t : Threshold) (r : flakeRec) : M unit :=
  let d := Classify (fk_failures r) (fk_attempts r) t in
  ignoreM (poolExec (stmtFlakeUpsert (fk_testID r) d)) ;!
  whenM (IsBroken d) (ignoreM (poolExec (stmtBroken (fk_testID r)))).

Definition effectiveThreshold (t : Threshold) : Threshold := if MinSamples t =? 0 then Default else t.

(** [Job.Run] *)
Definition RunJob (threshold : Threshold) : M unit :=
  let t := effectiveThreshold threshold in
  batch ←! poolExec (selectEligible (MinSamples t)) ;
  forM_ batch (flakeOne t).
End flake.

Arguments Decision : clear implicits.
Arguments Threshold : clear implicits.

Example classify_demo :
  let d := @Classify float64 _ 3 20 Default in
  IsFlaky d = true /\ IsBroken d = false.
Proof. vm_compute. auto. Qed.

Example classify_broken : IsBroken (@Classify float64 _ 99 100 Default) = true.
Proof. vm_compute. reflexivity. Qed.
