(* ===== verification/Quarantine.v ===== *)
(** * internal/quarantine

    The quarantine daemon with its issue body and run-history chart, the SLA
    sweep, and the un-quarantine proposals with their one-shot tokens.  The
    GitHub client is a parameter: what its calls return. *)

From S2P Require Import Prelude GoSort GoFloat GoBytes GoFmt Model.
From S2P Require Import Scheduler Db Effects Lifecycle RunManager Flake.

(** ** mermaid.go *)

Definition maxHistoryPoints : nat := 30.

Inductive outcomeClass := outcomeFail | outcomePass | outcomeNeutral.
#[export] Instance outcomeClass_eq_dec : EqDecision outcomeClass.
Proof. solve_decision. Defined.

Definition classifyOutcome (o : string) : outcomeClass :=
  if String.eqb o "passed" then outcomePass
  else if String.eqb o "skipped" || String.eqb o "interrupted" then outcomeNeutral
  else outcomeFail.

(** The bars (1 pass, 0 fail) and the number of runs filtered out. *)
Definition chartBars (outcomes : list string) : list Z * Z :=
  foldl (fun acc o =>
    match classifyOutcome o with
    | outcomeNeutral => (acc.1, acc.2 + 1)
    | outcomePass => (acc.1 ++ [1], acc.2)
    | outcomeFail => (acc.1 ++ [0], acc.2)
    end) ([], 0) outcomes.

Definition lastBars (bars : list Z) : list Z :=
  if (maxHistoryPoints <? length bars)%nat then drop (length bars - maxHistoryPoints) bars else bars.

(** [%d] items separated by a comma and a space. *)
Definition commaList (l : list Z) : string := String.concat ", " (itoa <$> l).

Definition renderRunHistoryMermaid (outcomes : list string) : string :=
  let '(bars, filtered) := chartBars outcomes in
  if Nat.eqb (length bars) 0 then "_No recent run history available._" +:+ nl
  else
    let bars := lastBars bars in
    (if 0 <? filtered
     then "_" +:+ itoa filtered +:+ " skipped/interrupted run(s) omitted from the chart below._" +:+ nl +:+ nl
     else "")
    +:+ bq +:+ bq +:+ bq +:+ "mermaid" +:+ nl
    +:+ "xychart-beta" +:+ nl
    +:+ "    title " +:+ dq +:+ "Recent run outcomes (oldest -> newest)" +:+ dq +:+ nl
    +:+ "    x-axis [" +:+ commaList ((fun i => Z.of_nat i + 1) <$> seq 0 (length bars)) +:+ "]" +:+ nl
    +:+ "    y-axis " +:+ dq +:+ "Pass=1 / Fail=0" +:+ dq +:+ " 0 --> 1" +:+ nl
    +:+ "    bar [" +:+ commaList bars +:+ "]" +:+ nl
    +:+ bq +:+ bq +:+ bq +:+ nl.

(** ** quarantine.go *)

(** The flake rate column (ten-thousandths) as the float64 it is scanned into. *)
Definition rateOf (k : Z) : float64 := f64_const k 10000.
Definition ratePercent (k : Z) : string := fixed1 (f64_mul (rateOf k) (f64_ofZ 100)).

Definition buildIssueBody (path name : string) (rate : Z) (samples : Z) (outcomes : list string) : string :=
  "## Flaky test detected" +:+ nl +:+ nl
  +:+ "- **Path:** " +:+ bq +:+ path +:+ bq +:+ nl
  +:+ "- **Test:** " +:+ bq +:+ name +:+ bq +:+ nl
  +:+ "- **Failure rate:** " +:+ ratePercent rate +:+ "% over " +:+ itoa samples
  +:+ " attempts in the last 30 days" +:+ nl
  +:+ nl +:+ "## What happened" +:+ nl +:+ nl
  +:+ "TEO's flake detector promoted this test to **quarantined** because its "
  +:+ "Wilson 95% confidence-interval lower bound on failure rate exceeded 5%." +:+ nl +:+ nl
  +:+ "The test will continue to run in a non-blocking lane: failures here do not fail the build." +:+ nl +:+ nl
  +:+ "## Next steps" +:+ nl +:+ nl
  +:+ "1. Investigate the failure pattern in TEO's failure clusters page." +:+ nl
  +:+ "2. Common causes: order-dependent state, async/timing, network, randomness, env-dependent." +:+ nl
  +:+ "3. Once fixed, click 'Restore from quarantine' in the TEO UI." +:+ nl +:+ nl
  +:+ "## Recent run history" +:+ nl +:+ nl
  +:+ renderRunHistoryMermaid outcomes
  +:+ nl +:+ "---" +:+ nl
  +:+ "_This issue was created automatically by [TEO](https://github.com/teo-dev/teo)._" +:+ nl.

(** What the GitHub client answers: the number and URL of a new issue, the
    outcome of a comment; [None] where no client is wired. *)
Record Daemon := mkDaemon {
  d_IssueOpener : option (string -> string -> string -> result (Z * string));
  d_IssueCommenter : option (string -> Z -> string -> result unit)
}.

Definition commentIssue (c : string -> Z -> string -> result unit) (repo : string) (number : Z) (body : string) :
    M (result unit) :=
  emit (OComment repo number body) ;! retM (c repo number body).

Definition openIssue (c : string -> string -> string -> result (Z * string)) (repo title body : string) :
    M (result (Z * string)) :=
  emit (OOpenIssue repo title body) ;! retM (c repo title body).

Record cand := mkCand {
  c_testID : string;
  c_path : string;
  c_name : string;
  c_repoFull : string;
  c_autoEnabled : bool;
  c_rate : Z;
  c_samples : Z
}.

(** Active tests with a confirmed flake record that is not quarantined. *)
Definition selectCandidates (db : DB) : list cand :=
  omap (fun kv : string * flake_row =>
    match tests db !! kv.1 with
    | Some t =>
        match repos db !! ts_repo_id t with
        | Some rp =>
            if (500 <? fr_wilson_lower kv.2) && (20 <=? fr_sample_size kv.2)
               && String.eqb (ts_status t) "active" && bool_decide (fr_quarantined_at kv.2 = None)
            then Some (mkCand kv.1 (ts_path t) (ts_name t) (rp_full_name rp) (rp_auto_quarantine_enabled rp)
                        (fr_flake_rate kv.2) (fr_sample_size kv.2))
            else None
        | None => None
        end
    | None => None
    end) (map_to_list (flake_records db)).

Definition ts_set_quarantine (status : string) (at_ : option Z) (reason : option string) (t : test_row) : test_row :=
  mkTestRow (ts_repo_id t) (ts_fingerprint t) (ts_path t) (ts_name t) (ts_params_hash t)
    (ts_ast_signature t) (ts_runner t) status at_ reason (ts_last_seen t) (ts_owner_team t).

Definition updateFlake (id : string) (f : flake_row -> flake_row) : Stmt Z := fun now db =>
  let '(t, n) := updateRow id (fun _ => true) f (flake_records db) in (Ok n, set_flake_records t db).

Definition fr_set_quarantined_at (v : option Z) (r : flake_row) : flake_row :=
  mkFlakeRow (fr_flake_rate r) (fr_wilson_lower r) (fr_wilson_upper r) (fr_sample_size r) (fr_category r) v
    (fr_unquarantined_at r) (fr_github_issue_number r) (fr_github_issue_url r) (fr_last_recomputed_at r)
    (fr_last_nudged_at r) (fr_unquarantine_proposed_at r).
Definition fr_set_unquarantined_at (v : option Z) (r : flake_row) : flake_row :=
  mkFlakeRow (fr_flake_rate r) (fr_wilson_lower r) (fr_wilson_upper r) (fr_sample_size r) (fr_category r)
    (fr_quarantined_at r) v (fr_github_issue_number r) (fr_github_issue_url r) (fr_last_recomputed_at r)
    (fr_last_nudged_at r) (fr_unquarantine_proposed_at r).
Definition fr_set_issue (number : Z) (url : string) (r : flake_row) : flake_row :=
  mkFlakeRow (fr_flake_rate r) (fr_wilson_lower r) (fr_wilson_upper r) (fr_sample_size r) (fr_category r)
    (fr_quarantined_at r) (fr_unquarantined_at r) (Some number) (Some url) (fr_last_recomputed_at r)
    (fr_last_nudged_at r) (fr_unquarantine_proposed_at r).
Definition fr_set_last_nudged_at (v : option Z) (r : flake_row) : flake_row :=
  mkFlakeRow (fr_flake_rate r) (fr_wilson_lower r) (fr_wilson_upper r) (fr_sample_size r) (fr_category r)
    (fr_quarantined_at r) (fr_unquarantined_at r) (fr_github_issue_number r) (fr_github_issue_url r)
    (fr_last_recomputed_at r) v (fr_unquarantine_proposed_at r).
Definition fr_set_proposed_at (v : option Z) (r : flake_row) : flake_row :=
  mkFlakeRow (fr_flake_rate r) (fr_wilson_lower r) (fr_wilson_upper r) (fr_sample_size r) (fr_category r)
    (fr_quarantined_at r) (fr_unquarantined_at r) (fr_github_issue_number r) (fr_github_issue_url r)
    (fr_last_recomputed_at r) (fr_last_nudged_at r) v.

Definition stmtQuarantineTest (testID : string) : Stmt Z := fun now =>
  updateTest testID (testStatusIs "active")
    (ts_set_quarantine "quarantined" (Some now) (Some "auto: wilson-confirmed flaky")) now.
Definition stmtQuarantineRecord (testID : string) : Stmt Z := fun now =>
  updateFlake testID (fr_set_quarantined_at (Some now)) now.
Definition stmtSetIssue (number : Z) (url testID : string) : Stmt Z := fun now db =>
  if int4 number then updateFlake testID (fr_set_issue number url) now db else (Err errEncode, db).

(** The executions of a test, the last attempt of each shard. *)
Definition finalAttempts (testID : string) (db : DB) : list exec_row :=
  omap (fun kv : (string * string * Z) * exec_row =>
    if String.eqb kv.1.1.2 testID
       && forallb (fun kv' : (string * string * Z) * exec_row =>
            negb (String.eqb kv'.1.1.2 testID && String.eqb kv'.1.1.1 kv.1.1.1) || (kv'.1.2 <=? kv.1.2))
          (map_to_list (test_executions db))
    then Some kv.2 else None) (map_to_list (test_executions db)).

(** [.. ORDER BY started_at DESC LIMIT limit], then reversed. *)
Definition selectOutcomes (testID : string) (limit : nat) (db : DB) : list string :=
  rev (ex_outcome <$> take limit
    (SliceStable (fun a b => ex_started_at b <? ex_started_at a) (finalAttempts testID db))).

Definition recentOutcomes (testID : string) (limit : nat) : M (list string) :=
  wrapM testID (poolExec (query (selectOutcomes testID limit))).

Definition requarantineBody (rate samples : Z) : string :=
  "Re-quarantined after re-detection. Failure rate " +:+ ratePercent rate +:+ "% over " +:+ itoa samples
  +:+ " attempts in the last 30 days.".

Definition quarantine (d : Daemon) (testID repoFull path name : string) (rate samples : Z) : M unit :=
  withTx (
    txExec (stmtQuarantineTest testID) ;!
    txExec (stmtQuarantineRecord testID) ;!
    existing ←! tryM (scanRow (poolExec (query (fun db =>
      (fun r => coalesce (fr_github_issue_number r) 0) <$> flake_records db !! testID)))) ;
    let existingNumber := match existing with Ok n => n | Err _ => 0 end in
    match (if 0 <? existingNumber then d_IssueCommenter d else None) with
    | Some comment =>
        commentIssue comment repoFull existingNumber (requarantineBody rate samples) ;!
        txCommit
    | None =>
        outs ←! tryM (recentOutcomes testID (maxHistoryPoints * 3)) ;
        let outcomes := match outs with Ok l => l | Err _ => [] end in
        opened ←! match d_IssueOpener d with
                  | Some open =>
                      r ←! openIssue open repoFull ("[TEO] Flaky test quarantined: " +:+ name)
                             (buildIssueBody path name rate samples outcomes) ;
                      retM (match r with Ok nu => nu | Err _ => (0, "") end)
                  | None => retM (0, "")
                  end ;
        whenM (0 <? opened.1) (ignoreM (txExec (stmtSetIssue opened.1 opened.2 testID))) ;!
        txCommit
    end).

(** [Daemon.Run] *)
Definition RunDaemon (d : Daemon) : M unit :=
  cands ←! poolExec (query selectCandidates) ;
  forM_ cands (fun c =>
    if negb (c_autoEnabled c) then retM tt
    else ignoreM (quarantine d (c_testID c) (c_repoFull c) (c_path c) (c_name c) (c_rate c) (c_samples c))).

(** ** sla.go *)

Record SLASweeper := mkSLASweeper {
  sla_Commenter : option (string -> Z -> string -> result unit);
  sla_SLADays : Z
}.

Record slaRow := mkSlaRow {
  sl_testID : string;
  sl_path : string;
  sl_name : string;
  sl_repoFull : string;
  sl_issue : Z;
  sl_quarantinedAt : Z
}.

Definition slaDays (s : SLASweeper) : Z := if sla_SLADays s <=? 0 then 14 else sla_SLADays s.

(** Quarantined tests with an issue whose last action is older than the SLA. *)
Definition selectOverdue (slaDays : Z) : Stmt (list slaRow) := fun now db =>
  (Ok (omap (fun kv : string * flake_row =>
    match tests db !! kv.1, fr_github_issue_number kv.2, fr_quarantined_at kv.2 with
    | Some t, Some issue, Some q =>
        match repos db !! ts_repo_id t with
        | Some rp =>
            if String.eqb (ts_status t) "quarantined"
               && (days slaDays <? now - coalesce (fr_last_nudged_at kv.2) q)
            then Some (mkSlaRow kv.1 (ts_path t) (ts_name t) (rp_full_name rp) issue q)
            else None
        | None => None
        end
    | _, _, _ => None
    end) (map_to_list (flake_records db))), db).

(** [int(time.Since(at).Hours() / 24)], times in microseconds. *)
Definition daysSince (now at_ : Z) : Z :=
  let d := Z.max (- 2 ^ 63) (Z.min max_int64 ((now - at_) * 1000)) in
  f64_trunc (f64_div (Hours d) (f64_ofZ 24)).

Definition slaBody (days_ sla : Z) (path name : string) : string :=
  "This test has been quarantined for **" +:+ itoa days_ +:+ " days**. The SLA on flaky-test triage is "
  +:+ itoa sla +:+ " days." +:+ nl +:+ nl
  +:+ bq +:+ path +:+ "::" +:+ name +:+ bq +:+ " is still failing intermittently in the non-blocking lane."
  +:+ nl +:+ nl
  +:+ "_Posted automatically by [TEO](https://github.com/teo-dev/teo); next nudge in " +:+ itoa sla
  +:+ " days if no action._".

Definition stmtNudged (testID : string) : Stmt Z := fun now =>
  updateFlake testID (fr_set_last_nudged_at (Some now)) now.

Definition nudgeOne (s : SLASweeper) (r : slaRow) : M unit :=
  match sla_Commenter s with
  | None => retM tt
  | Some comment =>
      now ←! getNow ;
      res ←! commentIssue comment (sl_repoFull r) (sl_issue r)
               (slaBody (daysSince now (sl_quarantinedAt r)) (slaDays s) (sl_path r) (sl_name r)) ;
      match res with
      | Err _ => retM tt
      | Ok _ => ignoreM (poolExec (stmtNudged (sl_testID r)))
      end
  end.

(** [SLASweeper.Run] *)
Definition RunSLA (s : SLASweeper) : M unit :=
  work ←! poolExec (selectOverdue (slaDays s)) ;
  forM_ work (nudgeOne s).

(** ** unquarantine.go *)

Record UnquarantineProposer := mkProposer {
  uq_Commenter : option (string -> Z -> string -> result unit);
  uq_ConsecutivePassWindow : Z;
  uq_TokenTTL : Z;
  uq_BaseURL : string
}.

Definition passWindow (u : UnquarantineProposer) : Z :=
  if uq_ConsecutivePassWindow u <=? 0 then 30 else uq_ConsecutivePassWindow u.
Definition tokenTTL (u : UnquarantineProposer) : Z :=
  if uq_TokenTTL u =? 0 then 14 * 24 * hour else uq_TokenTTL u.

Record propRow := mkPropRow {
  pr_testID : string;
  pr_path : string;
  pr_name : string;
  pr_repoFull : string;
  pr_issue : Z
}.

(** The last [k] executions of a test on known shards, newest first. *)
Definition lastExecutions (k : Z) (testID : string) (db : DB) : list exec_row :=
  take (Z.to_nat k) (SliceStable (fun a b => ex_started_at b <? ex_started_at a)
    (omap (fun kv : (string * string * Z) * exec_row =>
       if String.eqb kv.1.1.2 testID && bool_decide (is_Some (shards db !! kv.1.1.1))
       then Some kv.2 else None) (map_to_list (test_executions db)))).

Definition allPassed (l : list exec_row) : bool := forallb (fun e => String.eqb (ex_outcome e) "passed") l.

Definition selectRestorable (k : Z) : Stmt (list propRow) := fun now db =>
  (Ok (omap (fun kv : string * flake_row =>
    match tests db !! kv.1, fr_github_issue_number kv.2 with
    | Some t, Some issue =>
        match repos db !! ts_repo_id t with
        | Some rp =>
            let w := lastExecutions k kv.1 db in
            if String.eqb (ts_status t) "quarantined"
               && allPassed w && (k <=? Z.of_nat (length w)) && (0 <? Z.of_nat (length w))
               && match fr_unquarantine_proposed_at kv.2 with
                  | None => true
                  | Some p => p <? now - days 7
                  end
            then Some (mkPropRow kv.1 (ts_path t) (ts_name t) (rp_full_name rp) issue)
            else None
        | None => None
        end
    | _, _ => None
    end) (map_to_list (flake_records db))), db).

Definition stmtInsertToken (token testID : string) (seconds : Z) : Stmt unit := fun now db =>
  if bool_decide (is_Some (unquarantine_tokens db !! token)) then (Err uniqueViolation, db)
  else if negb (bool_decide (is_Some (tests db !! testID))) then (Err (PgError "23503"), db)
  else (Ok tt, set_unquarantine_tokens
         (<[token := mkTokenRow testID (now + seconds * 1000000) None]> (unquarantine_tokens db)) db).

(** [rand.Read(raw)]: the next value of the world's source, as bytes. *)
Definition randRead : M (list Z) := s ←! newUUID ; retM (bytesOf s).

Definition mintToken (u : UnquarantineProposer) (testID : string) : M string :=
  raw ←! randRead ;
  let token := EncodeToString URL raw in
  poolExec (stmtInsertToken token testID (f64_trunc (Seconds (tokenTTL u)))) ;!
  retM token.

Definition proposalBody (u : UnquarantineProposer) (token path name : string) : string :=
  "This test has passed **" +:+ itoa (passWindow u) +:+ " consecutive runs** since being quarantined."
  +:+ nl +:+ nl
  +:+ "It looks fixed. To restore it to the blocking lane, click:" +:+ nl +:+ nl
  +:+ "  " +:+ uq_BaseURL u +:+ "/api/v1/quarantine/restore?token=" +:+ token +:+ nl +:+ nl
  +:+ "_Restoration is operator-confirmed; this link is single-use and expires in "
  +:+ itoa (Z.quot (tokenTTL u) (24 * hour)) +:+ " days._" +:+ nl +:+ nl
  +:+ bq +:+ path +:+ "::" +:+ name +:+ bq.

Definition stmtProposed (testID : string) : Stmt Z := fun now =>
  updateFlake testID (fr_set_proposed_at (Some now)) now.

Definition proposeOne (u : UnquarantineProposer) (r : propRow) : M unit :=
  tok ←! tryM (mintToken u (pr_testID r)) ;
  match tok with
  | Err _ => retM tt
  | Ok token =>
      posted ←! match uq_Commenter u with
                | Some comment =>
                    commentIssue comment (pr_repoFull r) (pr_issue r) (proposalBody u token (pr_path r) (pr_name r))
                | None => retM (Ok tt)
                end ;
      match posted with
      | Err _ => retM tt
      | Ok _ => ignoreM (poolExec (stmtProposed (pr_testID r)))
      end
  end.

(** [UnquarantineProposer.Run] *)
Definition RunProposer (u : UnquarantineProposer) : M unit :=
  work ←! poolExec (selectRestorable (passWindow u)) ;
  forM_ work (proposeOne u).

Definition ErrTokenConsumed : error := Sentinel "quarantine.ErrTokenConsumed".
Definition ErrTokenExpired : error := Sentinel "quarantine.ErrTokenExpired".

Definition updateToken (token : string) (f : token_row -> token_row) : Stmt Z := fun now db =>
  let '(t, n) := updateRow token (fun _ => true) f (unquarantine_tokens db) in (Ok n, set_unquarantine_tokens t db).

Definition stmtConsume (token : string) : Stmt Z := fun now =>
  updateToken token (fun r => mkTokenRow (ut_test_id r) (ut_expires_at r) (Some now)) now.
Definition stmtActivate (testID : string) : Stmt Z :=
  updateTest testID (fun _ => true) (ts_set_quarantine "active" None None).
Definition stmtUnquarantineRecord (testID : string) : Stmt Z := fun now =>
  updateFlake testID (fun r => fr_set_unquarantined_at (Some now) (fr_set_quarantined_at None r)) now.

Definition Restore (token : string) : M string :=
  if String.eqb token "" then throwM (ErrText "empty token")
  else withTx (
    row ←! scanRow (txExec (query (fun db => unquarantine_tokens db !! token))) ;
    match ut_consumed_at row with
    | Some _ => throwM ErrTokenConsumed
    | None =>
        now ←! getNow ;
        if ut_expires_at row <? now then throwM ErrTokenExpired
        else
          txExec (stmtConsume token) ;!
          txExec (stmtActivate (ut_test_id row)) ;!
          txExec (stmtUnquarantineRecord (ut_test_id row)) ;!
          txCommit ;!
          retM (ut_test_id row)
    end).
