(* ===== verification/Backfill.v ===== *)
(** * internal/resultpipeline/backfill.go

    The re-clustering job: its loop over the candidate executions with the
    per-trace caches, against the three interfaces it is given, and the Postgres
    source with its keyset pagination.  What ClickHouse answers is a parameter. *)

From S2P Require Import Prelude GoSort GoBytes Model Scheduler Db Effects Lifecycle.
From S2P Require Import RunManager Cluster GoFmt GoFloat.

Record ExecRow := mkExecRowRef {
  ExecID : string;
  RepoID : string;
  TraceID : string
}.

(** The interfaces ExecSource, StackSource and ClusterResolver. *)
Record Seams := mkSeams {
  sm_PendingFailures : Z -> M (list ExecRow);
  sm_AssignCluster : string -> string -> M unit;
  sm_StackFor : string -> M (string * string);
  sm_ClusterFor : string -> string -> string -> M string
}.

Record Backfiller := mkBackfiller {
  b_Seams : Seams;
  b_DryRun : bool;
  b_Since : Z
}.

Record Stats := mkStats {
  Scanned : Z;
  Assigned : Z;
  SkippedNoStack : Z;
  SkippedNoFingerprint : Z;
  Errors : Z;
  DryRun : bool;
  PreviewClusters : Z
}.

Inductive outcomeOf := RowAssigned | RowNoStack | RowNoFingerprint | RowError | RowPreviewed.

(** [stats.Scanned++] and the counter of what became of the row. *)
Definition count (o : outcomeOf) (s : Stats) : Stats :=
  let inc (b : bool) (n : Z) := if b then n + 1 else n in
  mkStats (Scanned s + 1)
    (inc (match o with RowAssigned => true | _ => false end) (Assigned s))
    (inc (match o with RowNoStack => true | _ => false end) (SkippedNoStack s))
    (inc (match o with RowNoFingerprint => true | _ => false end) (SkippedNoFingerprint s))
    (inc (match o with RowError => true | _ => false end) (Errors s))
    (DryRun s) (PreviewClusters s).

(** The variables of the loop: the counters, the two caches by trace id, and the
    fingerprints a dry run has seen. *)
Record loopState := mkLoop {
  l_stats : Stats;
  l_stackCache : gmap string (result (string * string));
  l_clusterCache : gmap string string;
  l_preview : gset string
}.

Section run.
Context (b : Backfiller).

Definition cachedStack (traceID : string) (l : loopState) : M (result (string * string)) :=
  match l_stackCache l !! traceID with
  | Some cs => retM cs
  | None => tryM (sm_StackFor (b_Seams b) traceID)
  end.

Definition cachedCluster (row : ExecRow) (stack message : string) (l : loopState) : M (result string) :=
  match l_clusterCache l !! TraceID row with
  | Some id => retM (Ok id)
  | None => tryM (sm_ClusterFor (b_Seams b) (RepoID row) stack message)
  end.

Definition done (o : outcomeOf) (l : loopState) : M loopState :=
  retM (mkLoop (count o (l_stats l)) (l_stackCache l) (l_clusterCache l) (l_preview l)).

Definition backfillRow (row : ExecRow) (l : loopState) : M loopState :=
  cs ←! cachedStack (TraceID row) l ;
  let l := mkLoop (l_stats l) (<[TraceID row := cs]> (l_stackCache l)) (l_clusterCache l) (l_preview l) in
  match cs with
  | Err _ => done RowError l
  | Ok (stack, message) =>
      if String.eqb stack "" then done RowNoStack l
      else if b_DryRun b then
        let fp := (FingerprintStack stack).1 in
        if String.eqb fp "" then done RowNoFingerprint l
        else done RowPreviewed (mkLoop (l_stats l) (l_stackCache l) (l_clusterCache l) ({[ fp ]} ∪ l_preview l))
      else
        cl ←! cachedCluster row stack message l ;
        match cl with
        | Err _ => done RowError l
        | Ok clusterID =>
            let l := mkLoop (l_stats l) (l_stackCache l) (<[TraceID row := clusterID]> (l_clusterCache l)) (l_preview l) in
            if String.eqb clusterID "" then done RowNoFingerprint l
            else
              a ←! tryM (sm_AssignCluster (b_Seams b) (ExecID row) clusterID) ;
              match a with Ok _ => done RowAssigned l | Err _ => done RowError l end
        end
  end.

Fixpoint backfillLoop (rows : list ExecRow) (l : loopState) : M loopState :=
  match rows with
  | [] => retM l
  | row :: rows' => l' ←! backfillRow row l ; backfillLoop rows' l'
  end.

Definition initLoop : loopState := mkLoop (mkStats 0 0 0 0 0 (b_DryRun b) 0) ∅ ∅ ∅.

Definition finish (l : loopState) : Stats :=
  let s := l_stats l in
  mkStats (Scanned s) (Assigned s) (SkippedNoStack s) (SkippedNoFingerprint s) (Errors s) (DryRun s)
    (Z.of_nat (size (l_preview l))).

(** [Backfiller.Run] *)
Definition RunBackfill : M Stats :=
  rows ←! wrapM "backfill scan pending failures" (sm_PendingFailures (b_Seams b) (b_Since b)) ;
  l ←! backfillLoop rows initLoop ;
  retM (finish l).
End run.

(** ** PGExecSource *)

Definition pendingFailuresPageSize : nat := Z.to_nat 5000.

(** The order of uuids: that of their lower-case texts, byte by byte. *)
Definition idLt (a b : string) : bool := bytesLt (bytesOf a) (bytesOf b).

Definition failureOutcomes : list string := ["failed"; "errored"; "timed_out"].

(** The candidate an execution row is, if it is one. *)
Definition pendingRow (secs now : Z) (db : DB) (kv : (string * string * Z) * exec_row) : option ExecRow :=
  let te := kv.2 in
  match shards db !! kv.1.1.1 with
  | Some sh =>
      match runs db !! s_run_id sh with
      | Some r =>
          if bool_decide (ex_failure_cluster_id te = None)
             && existsb (String.eqb (ex_outcome te)) failureOutcomes
             && negb (String.eqb (default "" (ex_otel_trace_id te)) "")
             && ((secs =? 0) || (now - secs * 1000000 <? ex_started_at te))
          then Some (mkExecRowRef (ex_id te) (r_repo_id r) (default "" (ex_otel_trace_id te)))
          else None
      | None => None
      end
  | None => None
  end.

(** The candidates, in any order. *)
Definition pendingRows (secs now : Z) (db : DB) : list ExecRow :=
  omap (pendingRow secs now db) (map_to_list (test_executions db)).

Definition execLess (a b : ExecRow) : bool := idLt (ExecID a) (ExecID b).

(** [.. AND te.id > after ORDER BY te.id LIMIT 5000] *)
Definition selectPage (secs : Z) (after : string) : Stmt (list ExecRow) := fun now db =>
  (Ok (take pendingFailuresPageSize
    (List.filter (fun e => idLt after (ExecID e)) (SliceStable execLess (pendingRows secs now db)))), db).

(** The page and the last id seen. *)
Definition pendingFailuresPage (secs : Z) (after : string) : M (list ExecRow * string) :=
  page ←! wrapM "query pending failures" (poolExec (selectPage secs after)) ;
  retM (page, match last page with Some e => ExecID e | None => "" end).


Fixpoint pendingLoop (fuel : nat) (secs : Z) (cursor : string) (out : list ExecRow) : M (list ExecRow) :=
  match fuel with
  | O => throwM (ErrText "out of fuel")
  | S fuel =>
      r ←! pendingFailuresPage secs cursor ;
      let '(page, last) := r in
      let out := out ++ page in
      if (length page <? pendingFailuresPageSize)%nat then retM out
      else pendingLoop fuel secs last out
  end.

(** [PGExecSource.PendingFailures]; the fuel bounds the number of pages. *)
Definition PendingFailures (fuel : nat) (since : Z) : M (list ExecRow) :=
  pendingLoop fuel (f64_trunc (Seconds since)) zeroUUID [].

Definition ex_set_cluster (c : option string) (e : exec_row) : exec_row :=
  mkExecRow (ex_id e) (ex_outcome e) (ex_duration_ms e) (ex_otel_trace_id e) (ex_started_at e)
    (ex_finished_at e) (ex_log_object_key e) c.

Definition unassigned (execID : string) (e : exec_row) : bool :=
  String.eqb (ex_id e) execID && bool_decide (ex_failure_cluster_id e = None).

(** The foreign key is checked on the rows that change. *)
Definition stmtAssignCluster (execID clusterID : string) : Stmt unit := fun now db =>
  if existsb (fun kv : (string * string * Z) * exec_row => unassigned execID kv.2) (map_to_list (test_executions db))
     && negb (bool_decide (is_Some (failure_clusters db !! clusterID)))
  then (Err (PgError "23503"), db)
  else (Ok tt, set_test_executions
    ((fun e => if unassigned execID e then ex_set_cluster (Some clusterID) e else e) <$> test_executions db) db).

Definition AssignCluster (execID clusterID : string) : M unit :=
  wrapM execID (poolExec (stmtAssignCluster execID clusterID)).

(** The production wiring: Postgres for the executions and the clusters, the
    given answers of ClickHouse for the stacks. *)
Definition pgSeams (fuel : nat) (stackFor : string -> result (string * string)) : Seams :=
  mkSeams (PendingFailures fuel) AssignCluster
    (fun t => match stackFor t with Ok sm => retM sm | Err e => throwM e end) (ClusterFor true).
