(* ===== verification/Graphql.v ===== *)
(** * internal/api/graphql.go and graphql_resolvers.go

    The mutations, in full, and the read resolvers whose columns the model keeps.
    A result map is a record with its keys as fields. *)

From Stdlib Require Import SpecFloat.
From S2P Require Import Prelude GoSort GoRegexp GoStrings GoFloat GoFmt Model Scheduler.
From S2P Require Import Db Effects RunManager RunSvc Auth Flake Quarantine.

Definition errInvalidRunID : error := Sentinel "api.errInvalidRunID".
Definition errNoFailures : error := Sentinel "api.errNoFailures".
Definition errForbiddenMutation : error := Sentinel "api.errForbiddenMutation".
Definition errInvalidTestID : error := Sentinel "api.errInvalidTestID".
Definition errTestNotFound : error := Sentinel "api.errTestNotFound".
Definition errCannotQuarantineDeleted : error := Sentinel "api.errCannotQuarantineDeleted".

(** [p] is the principal of the request's context. *)
Definition requireMutationRole (p : option Principal) : option error :=
  match p with
  | Some p => if HasRole p [RoleEngineer; RoleAdmin] then None else Some errForbiddenMutation
  | None => Some errForbiddenMutation
  end.

(** [if err := requireMutationRole(..); err != nil { return nil, err }] *)
Definition gated {A} (p : option Principal) (m : M A) : M A :=
  match requireMutationRole p with
  | Some err => throwM err
  | None => m
  end.

(** ** Reading *)

Record runMap := mkRunMap {
  gm_id : string;
  gm_repo_full_name : string;
  gm_commit_sha : string;
  gm_branch : string;
  gm_status : string;
  gm_total_duration_ms : Z;
  gm_preemption_count : option Z;
  gm_started_at : option Z;
  gm_finished_at : option Z
}.

Definition runMapOf (id : string) (r : run_row) (rp : repo_row) (preemptions : option Z) : runMap :=
  mkRunMap id (rp_full_name rp) (r_commit_sha r) (r_branch r) (r_status r)
    (coalesce (r_total_duration_ms r) 0) preemptions (r_started_at r) (r_finished_at r).

(** [.. ORDER BY r.created_at DESC LIMIT first] *)
Definition queryRuns (first : Z) : M (list runMap) :=
  poolExec (query (fun db =>
    omap (fun kv : string * run_row =>
      (fun rp => runMapOf kv.1 kv.2 rp None) <$> repos db !! r_repo_id kv.2)
      (take (Z.to_nat first)
        (selectOrdered (fun _ r => bool_decide (is_Some (repos db !! r_repo_id r))) (fun r => - r_created_at r) (runs db))))).

Definition selectRunMap (id : string) (db : DB) : option runMap :=
  match runs db !! id with
  | None => None
  | Some r => (fun rp => runMapOf id r rp (Some (r_preemption_count r))) <$> repos db !! r_repo_id r
  end.

Definition queryRunByID (id : string) : M runMap := scanRow (poolExec (query (selectRunMap id))).

Definition isFailureOutcome (o : string) : bool := existsb (String.eqb o) ["failed"; "errored"; "timed_out"].

(** The executions of a run's shards that failed, with the id of their test. *)
Definition failedExecutions (runID : string) (db : DB) : list string :=
  omap (fun kv : (string * string * Z) * exec_row =>
    match shards db !! kv.1.1.1 with
    | Some s => if String.eqb (s_run_id s) runID && isFailureOutcome (ex_outcome kv.2) then Some kv.1.1.2 else None
    | None => None
    end) (map_to_list (test_executions db)).

Definition queryFailedTestCount (runID : string) : M Z :=
  poolExec (query (fun db => Z.of_nat (length (failedExecutions runID db)))).

Record shardMap := mkShardMap {
  gs_id : string;
  gs_index : Z;
  gs_status : string;
  gs_worker_id : option string;
  gs_predicted_duration_ms : Z;
  gs_actual_duration_ms : option Z;
  gs_test_count : Z;
  gs_started_at : option Z;
  gs_finished_at : option Z
}.

Definition shardMapOf (kv : string * shard_row) : shardMap :=
  mkShardMap kv.1 (s_index kv.2) (s_status kv.2) (s_worker_id kv.2) (s_predicted_duration_ms kv.2)
    (s_actual_duration_ms kv.2) (s_test_count kv.2) (s_started_at kv.2) (s_finished_at kv.2).

Definition queryShards (runID : string) : M (list shardMap) :=
  poolExec (query (fun db =>
    shardMapOf <$> selectOrdered (fun _ s => String.eqb (s_run_id s) runID) s_index (shards db))).

(** [shardDeltaResolve], null without an actual duration. *)
Definition shardDelta (s : shardMap) : option Z :=
  (fun a => sub64 a (gs_predicted_duration_ms s)) <$> gs_actual_duration_ms s.

(** The flakes page: records above the cutoff, the surest first. *)
Definition selectFlakes (db : DB) : list (string * flake_row * test_row) :=
  take 200 (omap (fun kv : string * flake_row => (fun t => (kv.1, kv.2, t)) <$> tests db !! kv.1)
    (selectOrdered (fun id r => (500 <? fr_wilson_lower r) && bool_decide (is_Some (tests db !! id)))
       (fun r => - fr_wilson_lower r) (flake_records db))).

(** ** rerunFailed *)

Record failedTest := mkFailedTest {
  ft_Path : string;
  ft_Name : string;
  ft_ParamsHash : string;
  ft_Runner : string
}.

#[export] Instance failedTest_eq_dec : EqDecision failedTest.
Proof. solve_decision. Defined.

Definition failedTestOf (t : test_row) : failedTest :=
  mkFailedTest (ts_path t) (ts_name t) (ts_params_hash t) (ts_runner t).

(** [SELECT DISTINCT t.path, t.name, t.params_hash, t.runner ..], in any order. *)
Definition selectFailedTests (runID : string) (db : DB) : list failedTest :=
  remove_dups (omap (fun id => failedTestOf <$> tests db !! id) (failedExecutions runID db)).

(** [runner] after the loop: the first row's that is not empty. *)
Definition firstRunner (l : list failedTest) : string :=
  default "" (List.find (fun r => negb (String.eqb r "")) (ft_Runner <$> l)).

(** The manifest document: the runner of a test is not part of it. *)
Definition rerunManifest (runner : string) (l : list failedTest) : TestManifest :=
  mkTestManifest runner ((fun t => mkTestEntry (ft_Path t) (ft_Name t) (ft_ParamsHash t) "" []) <$> l).

Definition rerunRow (repoID commit branch parent : string) (count : Z) (runner : string) (now : Z) : run_row :=
  mkRunRow repoID commit branch "rerun" None None "pending" None None None None 0
    (mkRunMeta None (Some count) (Some runner) None ∅ None None) now now None None (Some parent) 0 0.

Definition stmtInsertRerun (id repoID commit branch parent : string) (count : Z) (runner : string) : Stmt unit :=
  fun now => insertRun id (rerunRow repoID commit branch parent count runner now) now.

Definition rerunFailed (parentRunID : string) : M runMap :=
  newID ←! withTx (
    parent ←! scanRow (txExec (query (fun db => runs db !! parentRunID))) ;
    tests ←! txExec (query (selectFailedTests parentRunID)) ;
    match tests with
    | [] => throwM errNoFailures
    | _ =>
        let runner := if String.eqb (firstRunner tests) "" then "pytest" else firstRunner tests in
        newID ←! newUUID ;
        txExec (stmtInsertRerun newID (r_repo_id parent) (r_commit_sha parent) (r_branch parent)
                  parentRunID (Z.of_nat (length tests)) runner) ;!
        txExec (stmtInsertPlan newID (rerunManifest runner tests)) ;!
        txCommit ;!
        retM newID
    end) ;
  queryRunByID newID.

(** ** Manual quarantine *)

Record testMap := mkTestMap {
  tm_id : string;
  tm_path : string;
  tm_name : string;
  tm_status : string;
  tm_quarantined_at : option string;
  tm_quarantine_reason : option string;
  tm_owner_team : option string
}.

Definition testMapOf (id : string) (t : test_row) : testMap :=
  mkTestMap id (ts_path t) (ts_name t) (ts_status t) (RFC3339 <$> ts_quarantined_at t)
    (ts_quarantine_reason t) (ts_owner_team t).

(** A missing row, in place of [ErrNoRows]. *)
Definition orTestNotFound {A} (m : M A) : M A :=
  r ←! tryM m ;
  match r with
  | Ok a => retM a
  | Err e => throwM (if errorsIs e ErrNoRows then errTestNotFound else e)
  end.

(** Inside a transaction. *)
Definition scanTestRow (testID : string) : M testMap :=
  orTestNotFound (scanRow (txExec (query (fun db => testMapOf testID <$> tests db !! testID)))).

Definition stmtManualQuarantine (testID reason : string) : Stmt Z := fun now =>
  updateTest testID (fun t => negb (String.eqb (ts_status t) "deleted"))
    (ts_set_quarantine "quarantined" (Some now) (Some reason)) now.

Definition stmtManualUnquarantine (testID : string) : Stmt Z :=
  updateTest testID (testStatusIs "quarantined") (ts_set_quarantine "active" None None).

Definition stmtUnquarantineOpen (testID : string) : Stmt Z := fun now db =>
  let '(t, n) := updateRow testID (fun r => bool_decide (is_Some (fr_quarantined_at r)))
    (fun r => fr_set_unquarantined_at (Some now) (fr_set_quarantined_at None r)) (flake_records db) in
  (Ok n, set_flake_records t db).

Definition quarantineReason (reason : string) : string :=
  let r := ofText (trimSpace (toText reason)) in
  if String.eqb r "" then "manual: operator quarantine" else r.

Definition setQuarantine (testID : string) (on : bool) (reason : string) : M testMap :=
  withTx (
    status ←! orTestNotFound (scanRow (txExec (query (fun db => ts_status <$> tests db !! testID)))) ;
    (if on then
       if String.eqb status "deleted" then throwM errCannotQuarantineDeleted
       else
         txExec (stmtManualQuarantine testID (quarantineReason reason)) ;!
         txExec (stmtQuarantineRecord testID)
     else
       txExec (stmtManualUnquarantine testID) ;!
       txExec (stmtUnquarantineOpen testID)) ;!
    m ←! scanTestRow testID ;
    txCommit ;!
    emit (OAudit (if on then "test.quarantine" else "test.unquarantine") testID) ;!
    retM m).

Definition quarantineTest (testID reason : string) : M testMap := setQuarantine testID true reason.
Definition unquarantineTest (testID : string) : M testMap := setQuarantine testID false "".

(** ** The mutation fields *)

Definition resolveRerunFailed (p : option Principal) (runID : string) : M runMap :=
  gated p (if String.eqb runID "" then throwM errInvalidRunID else rerunFailed runID).
Definition resolveQuarantineTest (p : option Principal) (testID reason : string) : M testMap :=
  gated p (if String.eqb testID "" then throwM errInvalidTestID else quarantineTest testID reason).
Definition resolveUnquarantineTest (p : option Principal) (testID : string) : M testMap :=
  gated p (if String.eqb testID "" then throwM errInvalidTestID else unquarantineTest testID).

(** [graphqlHandler]: the status it answers with before the query runs. *)
Definition graphqlGate (p : option Principal) : gate :=
  match p with
  | None => Unauthorized
  | Some p => match p_Roles p with [] => Forbidden | _ => Serve end
  end.

(** ** Presentation helpers *)

(** The argument as graphql-go decodes it, 0 when it is not an int. *)
Definition clampFirst (first : Z) : Z :=
  if first <=? 0 then 50 else if 200 <? first then 200 else first.

Definition classifyClusterCategory (msg : string) : string :=
  let has sub := contains (toLower msg) (toText sub) in
  if has "panic" then "panic"
  else if has "timeout" || has "deadline exceeded" then "timeout"
  else if has "connection refused" || has "dial tcp" || has "nosuchkey" then "network"
  else if has "data race" || has "-race" then "race"
  else "assertion".

Definition sparklineMaxLen : nat := 20.

Definition sparkOf (o : string) : ascii :=
  let o := ofText (toLower o) in
  if String.eqb o "passed" then "P" else if String.eqb o "skipped" then "S" else "F".

Definition encodeSparkline (outcomes : list string) : string :=
  ofText (map sparkOf (drop (length outcomes - sparklineMaxLen) outcomes)).

(** [raw] when it is a string, [""] otherwise. *)
Definition flakeStatusBadge (raw : string) : string :=
  let s := ofText (toLower raw) in
  if String.eqb s "quarantined" then "quarantined"
  else if String.eqb s "broken" then "broken" else "flagged".

(** The spark of a test in [attachFlakeSparklines]: [ranked] numbers its
    executions newest first; the twenty newest, oldest first.  SQL compares
    outcomes as they are. *)
Definition sqlSparkOf (o : string) : ascii :=
  if String.eqb o "passed" then "P" else if String.eqb o "skipped" then "S" else "F".

Definition rankedExecutions (testID : string) (db : DB) : list exec_row :=
  SliceStable (fun a b => ex_started_at b <? ex_started_at a)
    (omap (fun kv : (string * string * Z) * exec_row =>
       if String.eqb kv.1.1.2 testID then Some kv.2 else None) (map_to_list (test_executions db))).

Definition selectSpark (testID : string) (db : DB) : string :=
  ofText (rev (map (fun e => sqlSparkOf (ex_outcome e)) (take 20 (rankedExecutions testID db)))).

(** ** Predictor calibration *)

(** [pearson] *)
Definition f64_sum (l : list float64) : float64 := foldl f64_add (f64_ofZ 0) l.

Definition f64_isZero (x : float64) : bool := SFeqb x (f64_ofZ 0).

Definition pearson (x y : list float64) : float64 :=
  let n := length x in
  if negb (n =? length y)%nat || (n <? 2)%nat then f64_ofZ 0
  else
    let n := f64_ofZ (Z.of_nat n) in
    let mx := f64_div (f64_sum x) n in
    let my := f64_div (f64_sum y) n in
    let dev := zip_with (fun a b => (f64_sub a mx, f64_sub b my)) x y in
    let cov := f64_sum (map (fun d => f64_mul d.1 d.2) dev) in
    let vx := f64_sum (map (fun d => f64_mul d.1 d.1) dev) in
    let vy := f64_sum (map (fun d => f64_mul d.2 d.2) dev) in
    if f64_isZero vx || f64_isZero vy then f64_ofZ 0
    else f64_div cov (f64_sqrt (f64_mul vx vy)).

(** [percentile]: the nearest-rank quantile of a sorted slice. *)
Definition percentile (sorted : list float64) (p : float64) : float64 :=
  match sorted with
  | [] => f64_ofZ 0
  | first :: _ =>
      if negb (f64_ltb (f64_ofZ 0) p) then first
      else if negb (f64_ltb p (f64_ofZ 1)) then List.last sorted first
      else
        let idx := f64_ceil (f64_mul p (f64_ofZ (Z.of_nat (length sorted)))) - 1 in
        let idx := Z.max idx 0 in
        let idx := Z.min idx (Z.of_nat (length sorted) - 1) in
        nth (Z.to_nat idx) sorted first
  end.

Record predictorMap := mkPredictorMap {
  pd_mae : float64;
  pd_rho : float64;
  pd_model_version : string;
  pd_p50_delta_ms : Z;
  pd_p95_delta_ms : Z;
  pd_sample_count : Z;
  pd_confidence : float64
}.

(** The measured shards of a run, predicted and actual. *)
Definition selectMeasured (runID : string) (db : DB) : list (Z * Z) :=
  omap (fun kv : string * shard_row =>
    if String.eqb (s_run_id kv.2) runID
    then (fun a => (s_predicted_duration_ms kv.2, a)) <$> s_actual_duration_ms kv.2
    else None) (map_to_list (shards db)).

(** What [queryRunPredictor] makes of the samples. *)
Definition calibration (model : string) (rows : list (Z * Z)) : predictorMap :=
  let predicted := (fun r => f64_ofZ r.1) <$> rows in
  let actual := (fun r => f64_ofZ r.2) <$> rows in
  let n := f64_ofZ (Z.of_nat (length rows)) in
  let absDeltas := zip_with (fun a p => SFabs (f64_sub a p)) actual predicted in
  let mae := f64_div (f64_sum absDeltas) n in
  let sorted := SliceStable f64_ltb absDeltas in
  let meanActual := f64_div (f64_sum actual) n in
  let confidence :=
    if f64_ltb (f64_ofZ 0) meanActual
    then f64_div (f64_ofZ 1) (f64_add (f64_ofZ 1) (f64_div mae meanActual))
    else f64_ofZ 1 in
  mkPredictorMap mae (pearson predicted actual) model
    (f64_round (percentile sorted (f64_const 50 100))) (f64_round (percentile sorted (f64_const 95 100)))
    (Z.of_nat (length rows)) confidence.

Definition selectModel (runID : string) (db : DB) : option string :=
  (fun r => coalesce (rm_predictor_model (r_meta r)) "heuristic") <$> runs db !! runID.

Definition queryRunPredictor (runID : string) : M (option predictorMap) :=
  model ←! tryM (scanRow (poolExec (query (selectModel runID)))) ;
  match model with
  | Err e => if errorsIs e ErrNoRows then retM None else throwM e
  | Ok model =>
      let model := if String.eqb model "" then "heuristic" else model in
      rows ←! poolExec (query (selectMeasured runID)) ;
      if (length rows <? 2)%nat then retM None
      else retM (Some (calibration model rows))
  end.
