(* ===== verification/CheckObserver.v ===== *)
(** * internal/github/check_observer.go

    The Check Run kept for each run: created at the first transition seen,
    updated at the later ones, completed at a terminal one.  The REST client is a
    parameter. *)

From S2P Require Import Prelude GoSort GoRegexp GoStrings GoFmt Model Scheduler Db Effects RunManager.

(** The exchange with the API. *)
Record CheckClient := mkCheckClient {
  cc_Create : string -> CheckRun -> result Z;
  cc_Update : string -> Z -> CheckRun -> result unit
}.

Record CheckObserver := mkCheckObserver {
  ob_Client : option CheckClient;
  ob_BaseURL : string;
  ob_AppName : string
}.

Definition clientCreate (c : CheckClient) (repo : string) (run : CheckRun) : M Z :=
  emit (OCheckCreate repo run) ;!
  match cc_Create c repo run with Ok id => retM id | Err e => throwM e end.

Definition clientUpdate (c : CheckClient) (repo : string) (id : Z) (run : CheckRun) : M unit :=
  emit (OCheckUpdate repo id run) ;!
  match cc_Update c repo id run with Ok _ => retM tt | Err e => throwM e end.

(** [isTerminal] of this package. *)
Definition isTerminal (s : RunStatus) : bool :=
  String.eqb s RunSucceeded || String.eqb s RunFailed || String.eqb s RunCancelled.

(** ** Shard counts *)

Record shardCounts := mkShardCounts {
  sc_Total : Z;
  sc_Pending : Z;
  sc_Running : Z;
  sc_Done : Z;
  sc_Failed : Z;
  sc_Lost : Z
}.

Definition zeroCounts : shardCounts := mkShardCounts 0 0 0 0 0 0.

(** One row of the loop. *)
Definition addStatus (c : shardCounts) (row : string * Z) : shardCounts :=
  let '(st, n) := row in
  let total := sc_Total c + n in
  if String.eqb st "pending" then mkShardCounts total n (sc_Running c) (sc_Done c) (sc_Failed c) (sc_Lost c)
  else if String.eqb st "running" then mkShardCounts total (sc_Pending c) n (sc_Done c) (sc_Failed c) (sc_Lost c)
  else if String.eqb st "succeeded" then
    mkShardCounts total (sc_Pending c) (sc_Running c) (sc_Done c + n) (sc_Failed c) (sc_Lost c)
  else if String.eqb st "failed" then
    mkShardCounts total (sc_Pending c) (sc_Running c) (sc_Done c + n) (sc_Failed c + n) (sc_Lost c)
  else if String.eqb st "lost" || String.eqb st "preempted" then
    mkShardCounts total (sc_Pending c) (sc_Running c) (sc_Done c + n) (sc_Failed c) (sc_Lost c + n)
  else mkShardCounts total (sc_Pending c) (sc_Running c) (sc_Done c) (sc_Failed c) (sc_Lost c).

Definition shardsOf (runID : string) (db : DB) : list string :=
  omap (fun kv : string * shard_row => if String.eqb (s_run_id kv.2) runID then Some (s_status kv.2) else None)
    (map_to_list (shards db)).

Definition countOf (s : string) (l : list string) : Z := Z.of_nat (length (List.filter (String.eqb s) l)).

(** [SELECT status, count( * ) .. GROUP BY status] *)
Definition selectShardStatuses (runID : string) (db : DB) : list (string * Z) :=
  (fun s => (s, countOf s (shardsOf runID db))) <$> remove_dups (shardsOf runID db).

Definition shardCountsOf (runID : string) : M shardCounts :=
  r ←! tryM (poolExec (query (selectShardStatuses runID))) ;
  match r with
  | Err _ => retM zeroCounts
  | Ok rows => retM (foldl addStatus zeroCounts rows)
  end.

(** ** Clusters *)

Record ClusterSummary := mkClusterSummary {
  cl_Message : string;
  cl_Stack : string;
  cl_Occurrences : Z;
  cl_Hint : string;
  cl_HintCategory : string
}.

(** The executions of the run in a cluster. *)
Definition occurrencesInRun (runID id : string) (db : DB) : Z :=
  Z.of_nat (length (List.filter (fun kv : (string * string * Z) * exec_row =>
    match shards db !! kv.1.1.1 with
    | Some s => String.eqb (s_run_id s) runID && bool_decide (ex_failure_cluster_id kv.2 = Some id)
    | None => false
    end) (map_to_list (test_executions db)))).

Definition selectTopClusters (runID : string) (n : Z) (db : DB) : list ClusterSummary :=
  (fun kv : cluster_row * Z => mkClusterSummary (fc_representative_message kv.1) (fc_representative_stack kv.1) kv.2
     (coalesce (fc_root_cause_hint kv.1) "") (coalesce (fc_hint_category kv.1) "")) <$>
  take (Z.to_nat n)
    (SliceStable (fun a b : cluster_row * Z => (b.2 <? a.2) || ((b.2 =? a.2) && (fc_last_seen b.1 <? fc_last_seen a.1)))
      (List.filter (fun kv => 0 <? kv.2)
        ((fun kv : string * cluster_row => (kv.2, occurrencesInRun runID kv.1 db)) <$> map_to_list (failure_clusters db)))).

Definition topClusters (runID : string) (n : Z) : M (list ClusterSummary) :=
  r ←! tryM (poolExec (query (selectTopClusters runID n))) ;
  match r with Err _ => retM [] | Ok l => retM l end.

Definition fence : string := bq +:+ bq +:+ bq.

(** [stack[:1024]] is a cut in bytes. *)
Definition clippedStack (stack : string) : string :=
  if 1024 <? Z.of_nat (String.length stack)
  then String.substring 0 1024 stack +:+ nl +:+ "…(truncated)" else stack.

Definition clusterMarkdown (i : nat) (c : ClusterSummary) : string :=
  "**#" +:+ itoa (Z.of_nat i + 1) +:+ "** — " +:+ itoa (cl_Occurrences c) +:+ " occurrences" +:+ nl +:+ nl
  +:+ "> " +:+ (if String.eqb (cl_Message c) "" then "(no message)" else cl_Message c) +:+ nl +:+ nl
  +:+ (if String.eqb (cl_Hint c) "" then ""
       else "> 💡 **Likely cause** (" +:+ (if String.eqb (cl_HintCategory c) "" then "unknown" else cl_HintCategory c)
            +:+ "): " +:+ cl_Hint c +:+ nl +:+ nl)
  +:+ fence +:+ nl +:+ clippedStack (cl_Stack c)
  +:+ (if hasSuffix (toText (clippedStack (cl_Stack c))) (toText nl) then "" else nl)
  +:+ fence +:+ nl +:+ nl.

Definition buildClusterMarkdown (clusters : list ClusterSummary) : string :=
  match clusters with
  | [] => ""
  | _ => "### Top failure clusters" +:+ nl +:+ nl +:+ String.concat "" (imap clusterMarkdown clusters)
  end.

(** ** Summaries *)

Definition conclusionLabel (s : RunStatus) : string :=
  if String.eqb s RunSucceeded then "passed"
  else if String.eqb s RunFailed then "failed"
  else if String.eqb s RunCancelled then "canceled" else s.

Definition summary (snap : RunSnapshot) : M string :=
  c ←! shardCountsOf (sn_ID snap) ;
  retM ("Status: **" +:+ sn_Status snap +:+ "**" +:+ nl +:+ nl +:+ "Shards: " +:+ itoa (sc_Done c) +:+ "/"
    +:+ itoa (sc_Total c) +:+ " done · " +:+ itoa (sc_Running c) +:+ " running · " +:+ itoa (sc_Pending c)
    +:+ " pending · " +:+ itoa (sc_Failed c) +:+ " failed").

(** The summary line of a finished run. *)
Definition finalText (snap : RunSnapshot) (passed total failed : Z) : string :=
  let dur := if 0 <? sn_TotalDurationMS snap then itoa (Z.quot (sn_TotalDurationMS snap) 1000) +:+ "s" else "—" in
  let short := "Outcome: **" +:+ conclusionLabel (sn_Status snap) +:+ "** · " +:+ itoa passed
    +:+ "/" +:+ itoa total +:+ " shards passed · " +:+ itoa failed +:+ " failed · " +:+ dur +:+ " wall-clock" in
  if 0 <? sn_PreemptionCount snap
  then short +:+ nl +:+ nl +:+ "_" +:+ itoa (sn_PreemptionCount snap) +:+ " spot-preemption(s) handled during this run._"
  else short.

Definition finalSummary (snap : RunSnapshot) : M (string * string) :=
  c ←! shardCountsOf (sn_ID snap) ;
  clusters ←! topClusters (sn_ID snap) 3 ;
  retM (finalText snap (sc_Done c - sc_Failed c - sc_Lost c) (sc_Total c) (sc_Failed c), buildClusterMarkdown clusters).

(** ** The observer *)

Definition finalizeCheck (c : CheckClient) (snap : RunSnapshot) (checkID : Z) (deepURL name : string) : M unit :=
  let '(conclusion, title) :=
    if String.eqb (sn_Status snap) RunFailed then ("failure", "TEO: tests failed")
    else if String.eqb (sn_Status snap) RunCancelled then ("canceled", "TEO: run canceled")
    else ("success", "TEO: all tests passed") in
  body ←! finalSummary snap ;
  clientUpdate c (sn_RepoFullName snap) checkID
    (mkCheckRun name (sn_CommitSHA snap) "completed" conclusion (sn_StartedAt snap) (sn_FinishedAt snap) deepURL
      (mkCheckOutput title body.1 body.2)).

Definition stmtSetCheckRun (id : Z) (runID : string) : Stmt Z :=
  updateRun runID (fun _ => true) (r_set_github_check_run_id (Some id)).

Definition timeNow : M Z := fun w => (Ok (w_now w), w).

Definition OnRunStateChanged (o : CheckObserver) (snap : RunSnapshot) (prev : RunStatus) : M unit :=
  match ob_Client o with
  | None => retM tt
  | Some c =>
      let name := if String.eqb (ob_AppName o) "" then "TEO" else ob_AppName o in
      let deepURL := trimRightSlash (ob_BaseURL o) +:+ "/runs/" +:+ sn_ID snap in
      match sn_GitHubCheckRunID snap with
      | None =>
          now ←! timeNow ;
          text ←! summary snap ;
          id ←! wrapM "create check run" (clientCreate c (sn_RepoFullName snap)
            (mkCheckRun name (sn_CommitSHA snap) "in_progress" "" (Some now) None deepURL
              (mkCheckOutput "TEO is running this commit's tests" text ""))) ;
          wrapM "persist check run id" (poolExec (stmtSetCheckRun id (sn_ID snap))) ;!
          retM tt
      | Some checkID =>
          if isTerminal (sn_Status snap) then finalizeCheck c snap checkID deepURL name
          else
            now ←! timeNow ;
            text ←! summary snap ;
            clientUpdate c (sn_RepoFullName snap) checkID
              (mkCheckRun name (sn_CommitSHA snap) "in_progress" "" (sn_StartedAt snap) (Some now) deepURL
                (mkCheckOutput ("TEO: " +:+ sn_Status snap) text ""))
      end
  end.
