(* ===== verification/GraphqlProps.v ===== *)
(** * The GraphQL mutations

    A rerun is a pending child run of exactly the failed tests; manual quarantine
    and restore move one test and its flake record together. *)

From S2P Require Import Prelude GoRegexp GoStrings GoFmt Model Scheduler Db Effects Lifecycle.
From S2P Require Import RunManager RunManagerProps RunSvc RunSvcProps Auth Flake Quarantine Graphql.

(** ** The failed tests of a run *)

(** Test [id] failed in run [runID]. *)
Definition failedIn (db : DB) (runID id : string) : Prop :=
  exists sh at_ e s, test_executions db !! (sh, id, at_) = Some e /\ shards db !! sh = Some s
    /\ s_run_id s = runID /\ ex_outcome e ∈ ["failed"; "errored"; "timed_out"].

Lemma isFailureOutcome_elem o : isFailureOutcome o = true <-> o ∈ ["failed"; "errored"; "timed_out"].
Proof.
  unfold isFailureOutcome. rewrite existsb_exists, list_elem_of_In. split.
  - intros (x & Hx & ->%String.eqb_eq). done.
  - intros Hx. exists o. split; [done|apply String.eqb_refl].
Qed.

Lemma failedExecutions_elem runID db id : id ∈ failedExecutions runID db <-> failedIn db runID id.
Proof.
  unfold failedExecutions. rewrite list_elem_of_omap. split.
  - intros ([[[sh tid] at_] e] & Hin & H). apply elem_of_map_to_list in Hin. simpl in H.
    destruct (shards db !! sh) as [s|] eqn:Es; [|done].
    destruct (_ && _) eqn:E; [|done]. injection H as <-. zbool. apply isFailureOutcome_elem in H0.
    exists sh, at_, e, s. done.
  - intros (sh & at_ & e & s & H1 & H2 & H3 & H4). exists ((sh, id, at_), e).
    split; [by apply elem_of_map_to_list|]. simpl. rewrite H2, H3, String.eqb_refl.
    apply isFailureOutcome_elem in H4. by rewrite H4.
Qed.

Lemma selectFailedTests_elem runID db f : f ∈ selectFailedTests runID db <->
  exists id t, failedIn db runID id /\ tests db !! id = Some t /\ failedTestOf t = f.
Proof.
  unfold selectFailedTests. rewrite elem_of_remove_dups, list_elem_of_omap. split.
  - intros (id & Hid & H). apply failedExecutions_elem in Hid.
    destruct (tests db !! id) as [t|] eqn:E; [|done]. injection H as <-. eauto 6.
  - intros (id & t & Hid & Ht & <-). exists id. rewrite Ht. split; [by apply failedExecutions_elem|done].
Qed.

(** ** rerunFailed *)

Section rerun.
Context (now : Z) (u : nat -> string) (held : gset Z) (ag : AgentState).

Definition rerunRunner (l : list failedTest) : string :=
  if String.eqb (firstRunner l) "" then "pytest" else firstRunner l.

(** The database after the rerun of [parent] as run [id]. *)
Definition rerunDB (db : DB) (parent id : string) (r : run_row) : DB :=
  let l := selectFailedTests parent db in
  let db1 := set_runs (<[id := rerunRow (r_repo_id r) (r_commit_sha r) (r_branch r) parent
                                 (Z.of_nat (length l)) (rerunRunner l) now]> (runs db)) db in
  set_run_plans (<[id := PDManifest (rerunManifest (rerunRunner l) l)]> (run_plans db)) db1.

Lemma rerun_insert_quiet db d id repoID c b p k rn rp n out : runs d !! id = None -> repos d !! repoID = Some rp ->
  txExec (stmtInsertRerun id repoID c b p k rn) (QW db (Some d) now u n held out ag)
  = (Ok tt, QW db (Some (set_runs (<[id := rerunRow repoID c b p k rn now]> (runs d)) d)) now u n held out ag).
Proof.
  intros H1 H2. apply txExec_quiet. unfold stmtInsertRerun, insertRun.
  cbn [rerunRow r_trigger_pr_number r_budget_seconds r_repo_id r_meta rm_idempotency_key default].
  rewrite H1, H2. rewrite bool_decide_false by (by intros [? ?]). rewrite bool_decide_true by done. reflexivity.
Qed.

Lemma plan_insert_quiet db d id mf n out : run_plans d !! id = None -> is_Some (runs d !! id) ->
  txExec (stmtInsertPlan id mf) (QW db (Some d) now u n held out ag)
  = (Ok tt, QW db (Some (set_run_plans (<[id := PDManifest mf]> (run_plans d)) d)) now u n held out ag).
Proof.
  intros H1 H2. apply txExec_quiet. unfold stmtInsertPlan. rewrite H1.
  rewrite bool_decide_false by (by intros [? ?]). rewrite bool_decide_true by done. reflexivity.
Qed.

Lemma rerunFailed_quiet db parent r rp n out :
  runs db !! parent = Some r -> repos db !! r_repo_id r = Some rp ->
  runs db !! u n = None -> run_plans db !! u n = None -> selectFailedTests parent db <> [] ->
  let db' := rerunDB db parent (u n) r in
  rerunFailed parent (QW db None now u n held out ag)
  = match selectRunMap (u n) db' with
    | Some m => (Ok m, QW db' None now u (S n) held out ag)
    | None => (Err ErrNoRows, QW db' None now u (S n) held out ag)
    end.
Proof.
  intros Hr Hrp Hu Hp Hne db'. unfold rerunFailed.
  erewrite bindM_ok.
  2: { apply withTx_quiet. erewrite bindM_ok; [|by apply scan_quiet].
       erewrite bindM_ok; [|apply txQuery_quiet].
       destruct (selectFailedTests parent db) as [|f l] eqn:E; [done|]. rewrite <-E.
       erewrite bindM_ok; [|apply newUUID_quiet].
       erewrite bindM_ok; [|by eapply rerun_insert_quiet].
       erewrite bindM_ok.
       2: { apply plan_insert_quiet; [done|]. cbn [set_runs runs]. rewrite lookup_insert_eq. by eexists. }
       erewrite bindM_ok; [|apply txCommit_quiet]. reflexivity. }
  unfold queryRunByID. match goal with |- scanRow _ ?w = _ => change w with (QW db' None now u (S n) held out ag) end.
  unfold scanRow, bindM. cbn. by destruct (selectRunMap (u n) db').
Qed.
End rerun.

(** A rerun creates one pending child run of its parent, at the same commit,
    whose manifest decodes to exactly the tests that failed in the parent, by
    path, name and parameters; nothing else changes.  When nothing failed it is
    refused and nothing changes. *)
Theorem rerunFailed_reruns now u held ag db parent r rp n out :
  runs db !! parent = Some r -> repos db !! r_repo_id r = Some rp ->
  runs db !! u n = None -> run_plans db !! u n = None ->
  ((forall id, failedIn db parent id -> tests db !! id = None) ->
     rerunFailed parent (QW db None now u n held out ag) = (Err errNoFailures, QW db None now u n held out ag))
  /\ ((exists id, failedIn db parent id /\ is_Some (tests db !! id)) ->
     exists m db' mf, rerunFailed parent (QW db None now u n held out ag) = (Ok m, QW db' None now u (S n) held out ag)
       /\ gm_id m = u n /\ gm_status m = "pending" /\ gm_commit_sha m = r_commit_sha r
       /\ (exists c, runs db' = <[u n := c]> (runs db) /\ r_status c = "pending" /\ r_parent_run_id c = Some parent
             /\ rm_test_count (r_meta c) = Some (Z.of_nat (length (tm_Tests mf))))
       /\ run_plans db' = <[u n := PDManifest mf]> (run_plans db)
       /\ unmarshalManifest (PDManifest mf) = Ok mf
       /\ (forall p nm h, (p, nm, h) ∈ (fun e => (te_Path e, te_Name e, te_ParamsHash e)) <$> tm_Tests mf <->
             exists id t, failedIn db parent id /\ tests db !! id = Some t
               /\ (ts_path t, ts_name t, ts_params_hash t) = (p, nm, h))
       /\ (shards db', tests db', test_executions db') = (shards db, tests db, test_executions db)).
Proof.
  intros Hr Hrp Hu Hp. split.
  - intros Hnone. assert (selectFailedTests parent db = []) as He.
    { apply elem_of_nil_inv. intros f (id & t & Hid & Ht & _)%selectFailedTests_elem.
      by rewrite Hnone in Ht. }
    unfold rerunFailed. apply bindM_err. eapply withTx_rollback.
    erewrite bindM_ok; [|by apply scan_quiet]. erewrite bindM_ok; [|apply txQuery_quiet]. by rewrite He.
  - intros (id0 & Hid0 & [t0 Ht0]).
    assert (selectFailedTests parent db <> []) as Hne.
    { assert (failedTestOf t0 ∈ selectFailedTests parent db) as Hin by (apply selectFailedTests_elem; eauto).
      intros He. rewrite He in Hin. by apply elem_of_nil in Hin. }
    pose proof (rerunFailed_quiet now u held ag db parent r rp n out Hr Hrp Hu Hp Hne) as H. cbv zeta in H.
    unfold selectRunMap in H. cbn [rerunDB set_run_plans set_runs runs repos] in H.
    rewrite lookup_insert_eq in H. cbn [rerunRow r_repo_id] in H. rewrite Hrp in H.
    set (l := selectFailedTests parent db) in *.
    eexists _, _, (rerunManifest (rerunRunner l) l). split; [exact H|].
    repeat split; try reflexivity.
    + eexists. split; [reflexivity|]. cbn. rewrite length_fmap. done.
    + intros (e & He & Hin)%list_elem_of_fmap. cbn in Hin.
      apply list_elem_of_fmap in Hin as (f & -> & Hf). apply selectFailedTests_elem in Hf as (id & t & ? & ? & <-).
      exists id, t. split; [done|]. split; [done|]. by rewrite He.
    + intros (id & t & Hid & Ht & E). injection E as <- <- <-. apply list_elem_of_fmap.
      exists (mkTestEntry (ts_path t) (ts_name t) (ts_params_hash t) "" []). split; [done|].
      cbn. apply list_elem_of_fmap. exists (failedTestOf t). split; [done|]. apply selectFailedTests_elem. eauto.
Qed.

(** ** Manual quarantine *)

Section quarantine.
Context (u : nat -> string) (held : gset Z) (ag : AgentState).

(** The database after a manual quarantine, and after a manual restore. *)
Definition manualDB (now : Z) (id reason : string) (db : DB) : DB :=
  set_flake_records (updateRow id (fun _ => true) (fr_set_quarantined_at (Some now)) (flake_records db)).1
    (set_tests (updateRow id (fun t => negb (String.eqb (ts_status t) "deleted"))
                  (ts_set_quarantine "quarantined" (Some now) (Some (quarantineReason reason))) (tests db)).1 db).

Definition releasedDB (now : Z) (id : string) (db : DB) : DB :=
  set_flake_records (updateRow id (fun r => bool_decide (is_Some (fr_quarantined_at r)))
      (fun r => fr_set_unquarantined_at (Some now) (fr_set_quarantined_at None r)) (flake_records db)).1
    (set_tests (updateRow id (testStatusIs "quarantined") (ts_set_quarantine "active" None None) (tests db)).1 db).

Lemma orTestNotFound_ok {A} (m : M A) w a w' : m w = (Ok a, w') -> orTestNotFound m w = (Ok a, w').
Proof. intros H. unfold orTestNotFound. erewrite bindM_ok; [|by apply tryM_eq]. reflexivity. Qed.

Lemma scanTestRow_quiet now db d id t n out : tests d !! id = Some t ->
  scanTestRow id (QW db (Some d) now u n held out ag) = (Ok (testMapOf id t), QW db (Some d) now u n held out ag).
Proof. intros H. apply orTestNotFound_ok, scan_quiet. by rewrite H. Qed.

Lemma setQuarantine_on now db id reason t n out : tests db !! id = Some t -> ts_status t <> "deleted" ->
  setQuarantine id true reason (QW db None now u n held out ag)
  = (Ok (testMapOf id (ts_set_quarantine "quarantined" (Some now) (Some (quarantineReason reason)) t)),
     QW (manualDB now id reason db) None now u n held (out ++ [OAudit "test.quarantine" id]) ag).
Proof.
  intros Ht Hd. unfold setQuarantine. apply withTx_quiet.
  erewrite bindM_ok; [|apply orTestNotFound_ok, scan_quiet; by rewrite Ht].
  cbv beta iota. rewrite (proj2 (String.eqb_neq _ _)) by done.
  erewrite bindM_ok.
  2: { erewrite bindM_ok.
       2: { apply txExec_quiet. unfold stmtManualQuarantine, updateTest.
            rewrite (surjective_pairing (updateRow _ _ _ _)). reflexivity. }
       apply txExec_quiet. unfold stmtQuarantineRecord, updateFlake.
       rewrite (surjective_pairing (updateRow _ _ _ _)). reflexivity. }
  erewrite bindM_ok.
  2: { apply scanTestRow_quiet. cbn [set_flake_records set_tests tests]. rewrite updateRow_lookup, decide_True, Ht by done.
       cbn [fmap option_fmap option_map]. rewrite (proj2 (String.eqb_neq _ _)) by done. reflexivity. }
  erewrite bindM_ok; [|apply txCommit_quiet]. reflexivity.
Qed.

Lemma setQuarantine_off now db id reason t n out : tests db !! id = Some t ->
  setQuarantine id false reason (QW db None now u n held out ag)
  = (Ok (testMapOf id (if testStatusIs "quarantined" t then ts_set_quarantine "active" None None t else t)),
     QW (releasedDB now id db) None now u n held (out ++ [OAudit "test.unquarantine" id]) ag).
Proof.
  intros Ht. unfold setQuarantine. apply withTx_quiet.
  erewrite bindM_ok; [|apply orTestNotFound_ok, scan_quiet; by rewrite Ht]. cbv beta iota.
  erewrite bindM_ok.
  2: { erewrite bindM_ok.
       2: { apply txExec_quiet. unfold stmtManualUnquarantine, updateTest.
            rewrite (surjective_pairing (updateRow _ _ _ _)). reflexivity. }
       apply txExec_quiet. unfold stmtUnquarantineOpen.
       rewrite (surjective_pairing (updateRow _ _ _ _)). reflexivity. }
  erewrite bindM_ok.
  2: { apply scanTestRow_quiet. cbn [set_flake_records set_tests tests]. rewrite updateRow_lookup, decide_True, Ht by done.
       reflexivity. }
  erewrite bindM_ok; [|apply txCommit_quiet]. reflexivity.
Qed.

Lemma setQuarantine_refused now db id on reason n out :
  (tests db !! id = None -> setQuarantine id on reason (QW db None now u n held out ag)
     = (Err errTestNotFound, QW db None now u n held out ag))
  /\ (forall t, tests db !! id = Some t -> ts_status t = "deleted" ->
     setQuarantine id true reason (QW db None now u n held out ag)
     = (Err errCannotQuarantineDeleted, QW db None now u n held out ag)).
Proof.
  split.
  - intros Ht. unfold setQuarantine. eapply withTx_rollback. apply bindM_err.
    unfold orTestNotFound, scanRow, tryM, bindM. cbn. rewrite Ht. reflexivity.
  - intros t Ht Hd. unfold setQuarantine. eapply withTx_rollback.
    erewrite bindM_ok; [|apply orTestNotFound_ok, scan_quiet; by rewrite Ht]. rewrite Hd. reflexivity.
Qed.

(** Restoring twice is restoring once: the second time no row qualifies. *)
Lemma releasedDB_twice now later id db : releasedDB later id (releasedDB now id db) = releasedDB now id db.
Proof.
  assert (forall V (t : gmap string V) g f, (forall v, g v = true -> g (f v) = false) ->
            (updateRow id g f (updateRow id g f t).1).1 = (updateRow id g f t).1) as Hu.
  { intros V t g f Hg. apply map_eq. intros k. rewrite !updateRow_lookup. case_decide; [|done].
    destruct (t !! k) as [v|]; simpl; [|done]. destruct (g v) eqn:E; [by rewrite Hg|by rewrite E]. }
  destruct db as [db1 db2 db3 db4 db5 db6 db7 db8 db9]. unfold releasedDB, set_flake_records, set_tests. cbn.
  f_equal; [by apply Hu|].
  assert (forall f f' (t : gmap string flake_row) g, (forall v, g v = true -> g (f v) = false) ->
            (updateRow id g f' (updateRow id g f t).1).1 = (updateRow id g f t).1) as Hf; [|by apply Hf].
  intros f f' t g Hg. apply map_eq. intros k. rewrite !updateRow_lookup. case_decide; [|done].
  destruct (t !! k) as [v|]; simpl; [|done]. destruct (g v) eqn:E; [by rewrite Hg|by rewrite E].
Qed.
End quarantine.

(** A manual quarantine of a known test sets its status, time and reason and
    the time of its flake record, and touches no other test.  A deleted or
    unknown test is refused and nothing changes.  A restore makes a quarantined
    test active and clears both; repeated, it changes no row.  A repeated
    quarantine does: it takes the later time and the new reason. *)
Theorem setQuarantine_transitions now later u held ag db id t reason reason2 n out :
  tests db !! id = Some t -> ts_status t <> "deleted" ->
  let after := manualDB now id reason db in
  (exists m, quarantineTest id reason (QW db None now u n held out ag)
       = (Ok m, QW after None now u n held (out ++ [OAudit "test.quarantine" id]) ag)
     /\ tm_status m = "quarantined" /\ tm_quarantine_reason m = Some (quarantineReason reason))
  /\ (exists t', tests after = <[id := t']> (tests db) /\ ts_status t' = "quarantined"
       /\ ts_quarantined_at t' = Some now /\ ts_fingerprint t' = ts_fingerprint t)
  /\ (forall f, flake_records db !! id = Some f -> exists f', flake_records after = <[id := f']> (flake_records db)
       /\ fr_quarantined_at f' = Some now)
  /\ (exists m t', quarantineTest id reason2 (QW after None later u n held out ag)
         = (Ok m, QW (manualDB later id reason2 after) None later u n held (out ++ [OAudit "test.quarantine" id]) ag)
       /\ tests (manualDB later id reason2 after) !! id = Some t'
       /\ ts_quarantined_at t' = Some later /\ ts_quarantine_reason t' = Some (quarantineReason reason2))
  /\ (exists m t', unquarantineTest id (QW after None later u n held out ag)
         = (Ok m, QW (releasedDB later id after) None later u n held (out ++ [OAudit "test.unquarantine" id]) ag)
       /\ tests (releasedDB later id after) = <[id := t']> (tests db)
       /\ ts_status t' = "active" /\ ts_quarantined_at t' = None /\ ts_quarantine_reason t' = None)
  /\ (forall again n' out', exists m, unquarantineTest id (QW (releasedDB later id after) None again u n' held out' ag)
         = (Ok m, QW (releasedDB later id after) None again u n' held (out' ++ [OAudit "test.unquarantine" id]) ag)).
Proof.
  intros Ht Hd after.
  set (q := ts_set_quarantine "quarantined" (Some now) (Some (quarantineReason reason)) t).
  assert (tests after = <[id := q]> (tests db)) as Ha.
  { unfold after, manualDB. cbn [set_flake_records set_tests tests]. apply updateRow_hit; [done|].
    by rewrite (proj2 (String.eqb_neq _ _)). }
  assert (tests after !! id = Some q) as Hq by (rewrite Ha; apply lookup_insert_eq).
  assert (tests (releasedDB later id after) = <[id := ts_set_quarantine "active" None None q]> (tests db)) as Hr.
  { unfold releasedDB. cbn [set_flake_records set_tests tests]. rewrite (updateRow_hit _ _ _ _ q) by done.
    by rewrite Ha, insert_insert_eq. }
  split; [|split; [|split; [|split; [|split]]]].
  - eexists. split; [by apply setQuarantine_on|done].
  - by exists q.
  - intros f Hf. eexists. split; [unfold after, manualDB; cbn [set_flake_records flake_records]; by apply updateRow_hit|done].
  - eexists _, _. split; [by apply (setQuarantine_on u held ag later after id reason2 q)|].
    split; [unfold manualDB; cbn [set_flake_records set_tests tests]; erewrite updateRow_hit by (done || exact Hq);
      apply lookup_insert_eq|done].
  - eexists _, _. split; [by apply setQuarantine_off|]. split; [exact Hr|done].
  - intros again n' out'. eexists. unfold unquarantineTest.
    erewrite setQuarantine_off by (rewrite Hr; apply lookup_insert_eq). by rewrite releasedDB_twice.
Qed.

(** ** A concrete rerun and quarantine *)

Module GraphqlDemo.
Definition repo : repo_row := mkRepoRow "github" "acme/app" true true.
Definition test (name status : string) : test_row :=
  mkTestRow "repo" ("fp" ++ name) "a.py" name "" "" "pytest" status None None 0 (Some "core").
Definition run : run_row :=
  mkRunRow "repo" "c0ffee" "main" "ci" None None "failed" None (Some 1) (Some 2) (Some 1) 0
    (mkRunMeta None (Some 2) (Some "pytest") None ∅ None None) 0 2 None None None 0 0.
Definition shard : shard_row := mkShardRow "parent" 0 (Some "w") 10 "failed" 2 (Some 1) (Some 2) 0 None None.
Definition exec (outcome : string) : exec_row := mkExecRow "e" outcome 5 None 1 2 None None.
Definition record : flake_row := mkFlakeRow 2500 1120 4687 20 (Some "unknown") None None None None 0 None None.
Definition db : DB :=
  mkDB {[ "repo" := repo ]} {[ "parent" := run ]} ∅ {[ "s" := shard ]}
    {[ "x" := test "t0" "active"; "y" := test "t1" "active" ]}
    {[ ("s", "x", 1) := exec "passed"; ("s", "y", 1) := exec "failed" ]} ∅ {[ "y" := record ]} ∅ ∅.
Definition uuids (n : nat) : string := "child".
End GraphqlDemo.

Lemma rerunFailed_reruns_witness :
  exists m db' mf, rerunFailed "parent" (QW GraphqlDemo.db None 9 GraphqlDemo.uuids 0 ∅ [] idleAgent)
      = (Ok m, QW db' None 9 GraphqlDemo.uuids 1 ∅ [] idleAgent)
    /\ run_plans db' = {[ "child" := PDManifest mf ]}
    /\ ("a.py", "t1", "") ∈ (fun e => (te_Path e, te_Name e, te_ParamsHash e)) <$> tm_Tests mf.
Proof.
  assert (Hf : failedIn GraphqlDemo.db "parent" "y").
  { exists "s", 1, (GraphqlDemo.exec "failed"), GraphqlDemo.shard. split; [reflexivity|].
    split; [reflexivity|]. split; [reflexivity|]. apply (bool_decide_unpack _). vm_compute. exact I. }
  destruct (rerunFailed_reruns 9 GraphqlDemo.uuids ∅ idleAgent GraphqlDemo.db "parent" GraphqlDemo.run GraphqlDemo.repo 0 [])
    as [_ H]; [reflexivity|reflexivity|reflexivity|reflexivity|].
  destruct H as (m & db' & mf & H1 & _ & _ & _ & _ & H2 & _ & H3 & _); [exists "y"; split; [exact Hf|by eexists]|].
  exists m, db', mf. split; [exact H1|]. split; [rewrite H2; reflexivity|].
  apply H3. exists "y", (GraphqlDemo.test "t1" "active"). split; [exact Hf|]. split; reflexivity.
Defined.

Lemma setQuarantine_transitions_witness :
  exists m db', quarantineTest "y" "  flaky  " (QW GraphqlDemo.db None 9 GraphqlDemo.uuids 0 ∅ [] idleAgent)
      = (Ok m, QW db' None 9 GraphqlDemo.uuids 0 ∅ [OAudit "test.quarantine" "y"] idleAgent)
    /\ tm_quarantine_reason m = Some "flaky".
Proof.
  destruct (setQuarantine_transitions 9 20 GraphqlDemo.uuids ∅ idleAgent GraphqlDemo.db "y"
    (GraphqlDemo.test "t1" "active") "  flaky  " "again" 0 []) as [(m & H1 & _ & H2) _]; [reflexivity|discriminate|].
  exists m, (manualDB 9 "y" "  flaky  " GraphqlDemo.db). split; [exact H1|]. rewrite H2. vm_compute. reflexivity.
Defined.
