(* ===== verification/Reschedule.v ===== *)
(** * Replaying preempted shards

    The contract between the run manager's sweep and the worker's loader: what
    [rescheduleOne] stores for the new shard is what [loadTestsForShard] hands
    out for it, exactly the tests of the preempted shard that have no result; a
    shard is replayed once.  And its limit: the sweep adds a shard to the run,
    which changes the modulus of the round robin for every shard of that run not
    loaded yet. *)

From S2P Require Import Prelude Model Scheduler Db Effects Shards StateMachine Lifecycle.
From S2P Require Import Predictor RunManager RunManagerProps Worker.

Section load.
Context (db : DB) (now : Z) (u : nat -> string) (held : gset Z) (ag : AgentState).

(** The loader of a shard with a stored manifest of its own, and of one
    without. *)
Lemma load_reshard d shardID s r mf n out :
  shards d !! shardID = Some s -> runs d !! s_run_id s = Some r ->
  rm_reshards (r_meta r) !! shardID = Some mf -> tm_Tests mf <> [] ->
  loadTestsForShard shardID (QW db (Some d) now u n held out ag)
  = (Ok (tm_Tests mf), QW db (Some d) now u n held out ag).
Proof.
  intros Hs Hr Hm Hne. unfold loadTestsForShard.
  erewrite bindM_ok; [|eapply tryM_eq, (scan_quiet db now u held ag _ d n out (Some mf));
    unfold selectReshard; rewrite Hs, Hr; simpl; by rewrite Hm].
  cbv beta iota zeta. by destruct (tm_Tests mf).
Qed.

Lemma load_roundRobin d shardID s r mf n out :
  shards d !! shardID = Some s -> runs d !! s_run_id s = Some r ->
  rm_reshards (r_meta r) !! shardID = None -> run_plans d !! s_run_id s = Some (PDManifest mf) ->
  loadTestsForShard shardID (QW db (Some d) now u n held out ag)
  = (Ok (roundRobin (countShards (s_run_id s) d) (s_index s) (tm_Tests mf)),
     QW db (Some d) now u n held out ag).
Proof.
  intros Hs Hr Hm Hp. unfold loadTestsForShard.
  erewrite bindM_ok; [|eapply tryM_eq, (scan_quiet db now u held ag _ d n out None);
    unfold selectReshard; rewrite Hs, Hr; simpl; by rewrite Hm].
  cbv beta iota zeta.
  erewrite bindM_ok; [|apply (scan_quiet db now u held ag _ d n out
    (PDManifest mf, s_index s, countShards (s_run_id s) d)); unfold selectPlanOfShard; rewrite Hs, Hp; done].
  cbv beta iota. unfold decodeManifestTests. cbn [unmarshalManifest].
  destruct (tm_Tests mf) as [|t ts]; [|reflexivity]. reflexivity.
Qed.
End load.

(** C6: The shards of a planned run split its manifest: loading every shard of
    a run with n shards numbered 0 .. n-1 hands out every test of the manifest
    exactly once. *)
Theorem load_partitions_manifest db now u held ag runID r mf (ids : list string) n out :
  runs db !! runID = Some r -> rm_reshards (r_meta r) = ∅ ->
  run_plans db !! runID = Some (PDManifest mf) ->
  countShards runID db = Z.of_nat (length ids) -> ids <> [] ->
  (forall i id, ids !! i = Some id -> exists s, shards db !! id = Some s /\ s_run_id s = runID
     /\ s_index s = Z.of_nat i) ->
  exists loads : list (list TestEntry),
    Forall2 (fun id l => loadTestsForShard id (QW db (Some db) now u n held out ag)
                         = (Ok l, QW db (Some db) now u n held out ag)) ids loads
    /\ concat loads ≡ₚ tm_Tests mf.
Proof.
  intros Hr Hre Hp Hc Hne Hids.
  exists ((fun j : nat => roundRobin (Z.of_nat (length ids)) (Z.of_nat j) (tm_Tests mf)) <$> seq 0 (length ids)).
  split.
  - apply Forall2_same_length_lookup_2; [by rewrite length_fmap, length_seq|].
    intros i id l Hi Hl. apply list_lookup_fmap_Some in Hl as (j & -> & Hj).
    apply lookup_seq in Hj as [-> _]. simpl.
    destruct (Hids i id Hi) as (s & Hs & <- & Hx). rewrite <-Hc, <-Hx.
    apply (load_roundRobin db now u held ag db id s r mf); [done|done| |done].
    rewrite Hre. apply lookup_empty.
  - apply roundRobin_partition. destruct ids; [done|simpl; lia].
Qed.

(** ** The sweep *)

Section sweep.
Context (db : DB) (now : Z) (u : nat -> string) (held : gset Z) (ag : AgentState).
Context (shardID runID : string) (s : shard_row) (r : run_row) (mf : TestManifest).

(** The tests of the shard that have no result. *)
Definition unfinished : list planTest :=
  remainingTests (selectDone shardID db)
    (roundRobin (countShards runID db) (s_index s) (toPlanTest <$> tm_Tests mf)).

Definition reshardManifest : TestManifest := mkTestManifest (tm_Runner mf) (ofPlanTest <$> unfinished).

(** The row of the replacement shard. *)
Definition replacementShard : shard_row :=
  mkShardRow runID (countShards runID db) None 0 "pending" (Z.of_nat (length unfinished)) None None now None None.

(** The database afterwards: with nothing left to run the shard is done, else a
    replacement shard is queued with the unfinished tests. *)
Definition rescheduledDB (n : nat) : DB :=
  match unfinished with
  | [] => set_shards (<[shardID := s_set_rescheduled_at (Some now) (s_set_status "succeeded" s)]> (shards db)) db
  | _ =>
      set_shards (<[shardID := s_set_rescheduled_at (Some now) s]> (<[u n := replacementShard]> (shards db)))
        (set_runs (<[runID := r_set_updated_at now (r_set_meta (rm_add_reshard (u n) reshardManifest (r_meta r)) r)]>
           (runs db)) db)
  end.

Record Preempted (n : nat) : Prop := {
  pe_shard : shards db !! shardID = Some s;
  pe_of_run : s_run_id s = runID;
  pe_run : runs db !! runID = Some r;
  pe_plan : run_plans db !! runID = Some (PDManifest mf);
  pe_tests : tm_Tests mf <> [];
  pe_free : runIDLockKey runID ∉ held;
  pe_fresh : shards db !! u n = None;
  pe_next : forall k s', shards db !! k = Some s' -> s_run_id s' = runID -> s_index s' < countShards runID db;
  pe_int4 : int4 (countShards runID db) && int4 0 && int4 (Z.of_nat (length unfinished)) = true
}.

Lemma countShards_pos n : Preempted n -> 0 < countShards runID db.
Proof.
  intros []. unfold countShards.
  assert (Hin : (shardID, s) ∈ List.filter (fun kv : string * shard_row => String.eqb (s_run_id kv.2) runID)
    (map_to_list (shards db))).
  { apply list_elem_of_In, filter_In. split; [by apply list_elem_of_In, elem_of_map_to_list|].
    simpl. rewrite pe_of_run0. apply String.eqb_refl. }
  destruct (List.filter _ _); [by apply elem_of_nil in Hin|simpl; lia].
Qed.

Lemma rescheduleOne_quiet n out : Preempted n ->
  rescheduleOne shardID runID (s_index s) (PDManifest mf) (QW db None now u n held out ag)
  = (Ok tt, QW (rescheduledDB n) None now u (match unfinished with [] => n | _ => S n end) held out ag).
Proof.
  intros Hp. pose proof (countShards_pos n Hp) as Hpos. destruct Hp.
  apply withTx_quiet. erewrite bindM_ok; [|by apply tryLock_quiet].
  cbn [negb unmarshalPlanTests unmarshalManifest].
  destruct (toPlanTest <$> tm_Tests mf) as [|pt pts] eqn:Et.
  { destruct (tm_Tests mf); [done|discriminate]. }
  rewrite <-Et. clear pt pts Et.
  run_with (txQuery_quiet db now u held ag (countShards runID) db n out). cbv beta.
  rewrite (proj2 (Z.eqb_neq (countShards runID db) 0)) by lia.
  run_with (txQuery_quiet db now u held ag (selectDone shardID) db n out). cbv beta zeta.
  fold unfinished. unfold rescheduledDB. destruct unfinished as [|pt pts] eqn:Eu.
  - erewrite bindM_ok; [|apply txExec_quiet; unfold stmtShardReplayed; by rewrite (updateShard_some now shardID _ _ db s)].
    apply txCommit_quiet.
  - run_with (newUUID_quiet db now u held ag (Some db) n out).
    assert (Hins : insertShard (u n) runID (countShards runID db) 0 (Z.of_nat (length (pt :: pts))) now db
      = (Ok tt, set_shards (<[u n := replacementShard]> (shards db)) db)).
    { unfold insertShard, replacementShard. rewrite ?Eu, pe_int5. cbn [negb].
      rewrite pe_fresh0, pe_run0. rewrite bool_decide_false by (by intros [? ?]).
      rewrite bool_decide_true by done. cbn [negb].
      rewrite existsb_rows_false; [done|]. intros k s' Hk. simpl.
      destruct (String.eqb_spec (s_run_id s') runID) as [He|]; [simpl|done].
      apply Z.eqb_neq. specialize (pe_next0 k s' Hk He). lia. }
    run_with (txExec_quiet db now u held ag _ _ (S n) out _ _ Hins).
    erewrite bindM_ok; [|apply txExec_quiet; unfold stmtAddReshard; by rewrite (updateRun_some now runID _ _ _ r)].
    erewrite bindM_ok; [|apply txExec_quiet; unfold stmtShardRescheduled;
      rewrite (updateShard_some now shardID _ _ _ s); [reflexivity| |done]].
    + rewrite txCommit_quiet. unfold reshardManifest. by rewrite Eu.
    + simpl. rewrite lookup_insert_ne; [done|]. intros He. rewrite He in pe_fresh0. congruence.
Qed.
End sweep.

Lemma remainingTests_elem done l t :
  t ∈ remainingTests done l <-> t ∈ l /\ doneKey (pt_Path t) (pt_Name t) (pt_ParamsHash t) ∉ done.
Proof.
  unfold remainingTests. rewrite list_elem_of_In, filter_In, <-list_elem_of_In, negb_true_iff.
  rewrite <-not_true_iff_false, existsb_exists. split.
  - intros [H1 H2]. split; [done|]. intros Hin. apply H2. eexists. split; [by apply list_elem_of_In|].
    apply String.eqb_refl.
  - intros [H1 H2]. split; [done|]. intros (x & Hx & He%String.eqb_eq). subst x. apply H2.
    by apply list_elem_of_In.
Qed.

(** The tests of a list without a result for the shard, and a test as the
    replacement's manifest keeps it: its path, name and parameters. *)
Definition missing (done : list string) (given : list TestEntry) : list TestEntry :=
  List.filter (fun t => negb (existsb (String.eqb (doneKey (te_Path t) (te_Name t) (te_ParamsHash t))) done)) given.
Definition replayed (t : TestEntry) : TestEntry := ofPlanTest (toPlanTest t).

Lemma roundRobin_fmap {A B} (f : A -> B) total index l : roundRobin total index (f <$> l) = f <$> roundRobin total index l.
Proof.
  unfold roundRobin. generalize 0. induction l as [|x l IH]; intros i; [done|]. cbn. rewrite IH. by destruct (_ =? _).
Qed.

Lemma remainingTests_fmap done l : remainingTests done (toPlanTest <$> l) = toPlanTest <$> missing done l.
Proof.
  unfold remainingTests, missing. induction l as [|t l IH]; [done|]. cbn [fmap list_fmap List.filter] in *. rewrite IH.
  change (doneKey (pt_Path (toPlanTest t)) (pt_Name (toPlanTest t)) (pt_ParamsHash (toPlanTest t)))
    with (doneKey (te_Path t) (te_Name t) (te_ParamsHash t)). by destruct (negb _).
Qed.

(** What the worker that claimed the shard was given when it loaded it: the
    database [db0] of that moment, since when the run got no other shard and the
    shard is not itself a replacement. *)
Record Given (db0 db : DB) (shardID runID : string) (mf : TestManifest) (given : list TestEntry) : Prop := mkGiven {
  gv_since : DBRel Evolves db0 db;
  gv_shard : is_Some (shards db0 !! shardID);
  gv_run : exists r0, runs db0 !! runID = Some r0 /\ rm_reshards (r_meta r0) !! shardID = None;
  gv_plan : run_plans db0 !! runID = Some (PDManifest mf);
  gv_count : countShards runID db = countShards runID db0;
  gv_loaded : exists now0 u0 held0 ag0 n0 out0 w0,
    loadTestsForShard shardID (QW db0 (Some db0) now0 u0 n0 held0 out0 ag0) = (Ok given, w0)
}.

Lemma given_roundRobin db0 db u held shardID runID s r mf n given :
  Preempted db u held shardID runID s r mf n -> Given db0 db shardID runID mf given ->
  roundRobin (countShards runID db) (s_index s) (tm_Tests mf) = given.
Proof.
  intros [P1 P2 _ _ _ _ _ _ _] [G1 [s0 G2] (r0 & G3 & G4) G5 G6 (now0 & u0 & held0 & ag0 & n0 & out0 & w0 & G7)].
  pose proof (dr_shards _ _ _ G1 shardID) as Hs. rewrite G2, P1 in Hs. cbn in Hs. destruct Hs as [S1 S2 _ _ _ _].
  assert (s_run_id s0 = runID) as S3 by congruence. subst runID. rewrite <-S3 in *.
  rewrite (load_roundRobin db0 now0 u0 held0 ag0 db0 shardID s0 r0 mf n0 out0 G2 G3 G4 G5) in G7.
  injection G7 as <- _. by rewrite S2, G6.
Qed.

