(* ===== verification/Witnesses.v ===== *)
(** * Concrete runs

    The theorems about the manager applied to a small database: a repo, a run
    with three tests, two shards of which one was preempted. *)

From Stdlib Require Import Ascii.
From S2P Require Import RunManagerOps.
From S2P Require Import Prelude Model Scheduler Db Effects Shards StateMachine Lifecycle.
From S2P Require Import Predictor RunManager RunManagerProps Worker Reschedule.

Module Demo.
Definition repo : repo_row := mkRepoRow "github" "acme/app" true true.

Definition run (status : string) : run_row :=
  mkRunRow "repo" "c0ffee" "main" "api" None None status None None None None 0
    (mkRunMeta None (Some 3) (Some "pytest") None ∅ None None) 10 10 None None None 0 0.

Definition entry (name : string) : TestEntry := mkTestEntry "a.py" name "" "" [].
Definition manifest : TestManifest := mkTestManifest "pytest" [entry "t0"; entry "t1"; entry "t2"].

Definition preds : list Prediction := [mkPrediction "" 100 200 0 false].

(** A predictor that answers for the first test only. *)
Definition manager : Manager :=
  mkManager (mkPredictor (fun _ _ => retM preds)) true true 2 true.

Definition pendingDB : DB :=
  mkDB {[ "repo" := repo ]} {[ "run" := run "pending" ]} {[ "run" := PDManifest manifest ]} ∅ ∅ ∅ ∅ ∅ ∅ ∅.
Definition noManifestDB : DB :=
  mkDB {[ "repo" := repo ]} {[ "run" := run "pending" ]} ∅ ∅ ∅ ∅ ∅ ∅ ∅ ∅.

Definition shard (i : Z) (status : string) : shard_row :=
  mkShardRow "run" i None 1000 status 2 None None 20 None None.

(** Shard 0 was preempted after its first test, shard 1 is still pending. *)
Definition preemptedDB : DB :=
  mkDB {[ "repo" := repo ]} {[ "run" := run "running" ]} {[ "run" := PDManifest manifest ]}
    (<["s0" := shard 0 "preempted"]> {[ "s1" := shard 1 "pending" ]})
    {[ "x" := mkTestRow "repo" "f" "a.py" "t0" "" "" "pytest" "active" None None 0 None ]}
    {[ ("s0", "x", 1) := mkExecRow "e" "passed" 5 None 0 0 None None ]} ∅ ∅ ∅ ∅.

(** The same run while shard 0 was running and had no result. *)
Definition loadedDB : DB :=
  mkDB {[ "repo" := repo ]} {[ "run" := run "running" ]} {[ "run" := PDManifest manifest ]}
    (<["s0" := shard 0 "running"]> {[ "s1" := shard 1 "pending" ]})
    {[ "x" := mkTestRow "repo" "f" "a.py" "t0" "" "" "pytest" "active" None None 0 None ]} ∅ ∅ ∅ ∅ ∅.

Lemma loaded_preempted : DBRel Evolves loadedDB preemptedDB.
Proof.
  split; intros k; try reflexivity.
  - unfold loadedDB, preemptedDB. cbn [shards]. destruct (decide (k = "s0")) as [->|Hk].
    + rewrite !lookup_insert_eq. by split.
    + by rewrite !lookup_insert_ne.
  - unfold loadedDB, preemptedDB. cbn [test_executions rel_execs Evolves]. rewrite lookup_empty.
    by destruct (_ !! k).
Qed.

(** Fresh ids: u, uu, uuu, ... *)
Fixpoint ids (n : nat) : string :=
  match n with O => "u" | S k => String "u" (ids k) end.

#[export] Instance ids_inj : Inj (=) (=) ids.
Proof.
  intros a. induction a as [|a IH]; intros [|b]; simpl; [done| | |].
  - by destruct b.
  - by destruct a.
  - intros [= H]. by rewrite (IH b H).
Qed.

Lemma ids_fresh k n : k ∈ ["s0"; "s1"] -> ids n <> k.
Proof.
  intros Hk. destruct n as [|n]; simpl;
    (apply elem_of_cons in Hk as [->|Hk]; [done|]);
    (apply elem_of_cons in Hk as [->|Hk]; [done|by apply elem_of_nil in Hk]).
Qed.
End Demo.

Lemma tryHandle_plans_witness :
  exists d, (tryHandle Demo.manager "run" "pending" (QW Demo.pendingDB None 50 Demo.ids 0 ∅ [] idleAgent)).2
      = QW d None 50 Demo.ids 1 ∅
          (planOutputs Demo.manager "run" (planOf Demo.preds Demo.manifest)
           ++ observed Demo.manager d "run" "pending" ++ [ORunTransition "dispatching"]) idleAgent
    /\ (exists s, shards d !! "u" = Some s /\ s_test_count s = 3).
Proof.
  destruct (tryHandle_plans Demo.manager Demo.pendingDB 50 Demo.ids ∅ idleAgent "run" (Demo.run "pending")
    Demo.repo Demo.manifest Demo.preds 0 []) as (d & H1 & H2 & H3 & _).
  - apply Demo.ids_inj.
  - apply not_elem_of_empty.
  - split; try done.
    assert (Hl : forallb (fun a => int4 (a_ShardIndex a) && int4 (a_PredictedDurationMS a)
      && int4 (Z.of_nat (length (a_Tests a)))) (p_Assignments (planOf Demo.preds Demo.manifest)) = true)
      by (vm_compute; reflexivity).
    revert Hl. generalize (p_Assignments (planOf Demo.preds Demo.manifest)). intros l Hl.
    rewrite forallb_forall in Hl. apply Forall_forall. intros a Ha. apply Hl. by apply list_elem_of_In.
  - exists d. split; [by rewrite H1|].
    assert (Hh : (fun a => length (a_Tests a)) <$> (p_Assignments (planOf Demo.preds Demo.manifest) !! 0%nat) = Some 3%nat)
      by (vm_compute; reflexivity).
    apply fmap_Some in Hh as (a & Ha & Hl).
    eexists. split; [exact (H3 0%nat a Ha)|]. cbn [s_test_count]. by rewrite <-Hl.
Defined.

Lemma tryHandle_fails_witness :
  exists w, tryHandle Demo.manager "run" "pending" (QW Demo.noManifestDB None 50 Demo.ids 0 ∅ [] idleAgent) = (Ok tt, w)
    /\ r_status <$> runs (w_db w) !! "run" = Some "failed".
Proof.
  destruct (tryHandle_fails Demo.manager Demo.noManifestDB 50 Demo.ids ∅ idleAgent "run" (Demo.run "pending")
    Demo.repo 0 []) as (w & H1 & H2 & H3 & H4); try done.
  - apply NoManifest. done.
  - exists w. split; [done|]. rewrite H2. simpl. by rewrite lookup_insert_eq.
Defined.

Lemma locked_run_left_alone_witness :
  tryHandle Demo.manager "run" "pending"
    (QW Demo.pendingDB None 50 Demo.ids 0 {[ runIDLockKey "run" ]} [] idleAgent)
  = (Ok tt, QW Demo.pendingDB None 50 Demo.ids 0 {[ runIDLockKey "run" ]} [] idleAgent).
Proof.
  apply (locked_run_left_alone Demo.manager Demo.pendingDB 50 Demo.ids {[ runIDLockKey "run" ]} idleAgent
    "run" "pending" "s0" 0 PDOther 0 []).
  by apply elem_of_singleton.
Defined.

Lemma load_partitions_manifest_witness :
  exists loads : list (list TestEntry),
    Forall2 (fun id l => loadTestsForShard id (QW Demo.preemptedDB (Some Demo.preemptedDB) 50 Demo.ids 0 ∅ [] idleAgent)
                         = (Ok l, QW Demo.preemptedDB (Some Demo.preemptedDB) 50 Demo.ids 0 ∅ [] idleAgent)) ["s0"; "s1"] loads
    /\ concat loads ≡ₚ tm_Tests Demo.manifest.
Proof.
  apply (load_partitions_manifest Demo.preemptedDB 50 Demo.ids ∅ idleAgent "run" (Demo.run "running") Demo.manifest
    ["s0"; "s1"] 0 []); try done.
  intros i id Hi. destruct i as [|[|i]]; simpl in Hi; [| |done]; injection Hi as <-.
  - by exists (Demo.shard 0 "preempted").
  - by exists (Demo.shard 1 "pending").
Defined.


(** Replaying shard 0 makes the run one shard larger: shard 1, still pending,
    is then loaded with modulus 3 instead of 2, and so is any later claim.  Of a
    manifest of four tests on two shards, the test at position 3 is in no
    shard's load any more and was never run. *)
(** ** Dispatching and budgets *)

Module OpsDemo.
Definition plan : Plan :=
  mkPlan [mkAssignment 0 160 [mkTest (Demo.entry "t0") 100 false 0 false; mkTest (Demo.entry "t2") 60 false 0 false]]
    [] 160 160 "v1".
Definition dispatchingRun : run_row :=
  r_set_meta (rm_set_computed_plan (Some plan) (r_meta (Demo.run "dispatching"))) (Demo.run "dispatching").
Definition db : DB :=
  mkDB {[ "repo" := Demo.repo ]} {[ "run" := dispatchingRun ]} {[ "run" := PDManifest Demo.manifest ]}
    (<["s0" := Demo.shard 0 "pending"]> {[ "s1" := Demo.shard 1 "succeeded" ]}) ∅ ∅ ∅ ∅ ∅ ∅.
Definition late : run_row :=
  mkRunRow "repo" "c0ffee" "main" "api" None None "running" (Some 3) (Some 1000000) None None 0
    (mkRunMeta None (Some 3) (Some "pytest") None ∅ None None) 10 10 None None None 0 0.
Definition lateDB : DB :=
  mkDB {[ "repo" := Demo.repo ]} (<["late" := late]> {[ "run" := Demo.run "running" ]}) ∅ ∅ ∅ ∅ ∅ ∅ ∅ ∅.
End OpsDemo.

Lemma tryHandle_dispatches_witness :
  exists sent : list ShardDispatch, (tryHandle Demo.manager "run" "dispatching" (QW OpsDemo.db None 50 Demo.ids 0 ∅ [] idleAgent)).1 = Ok tt
    /\ mkShardDispatch "run" "s0" "acme/app" "pytest" [Demo.entry "t0"; Demo.entry "t2"] 160 50 ∈ sent.
Proof.
  destruct (tryHandle_dispatches Demo.manager OpsDemo.db 50 Demo.ids ∅ idleAgent "run" OpsDemo.dispatchingRun
    OpsDemo.plan 0 []) as (d & sent & H1 & _ & _ & H2);
    [apply not_elem_of_empty|reflexivity|reflexivity|reflexivity|].
  exists sent. split; [by rewrite H1|]. apply H2; [reflexivity|].
  exists "s0", (Demo.shard 0 "pending"), "acme/app", "repo",
    (mkAssignment 0 160 [mkTest (Demo.entry "t0") 100 false 0 false; mkTest (Demo.entry "t2") 60 false 0 false]).
  split_and!; reflexivity || (cbn; lia).
Defined.

Lemma checkBudgets_enforces_witness :
  exists d, w_db (checkBudgets Demo.manager (QW OpsDemo.lateDB None 4000001 Demo.ids 0 ∅ [] idleAgent)).2 = d
    /\ (r_status <$> runs d !! "late") = Some "failed" /\ (r_status <$> runs d !! "run") = Some "running".
Proof.
  destruct (checkBudgets_enforces Demo.manager OpsDemo.lateDB 4000001 Demo.ids ∅ idleAgent 0 [])
    as (d & stuck & H1 & _ & _ & _ & H2 & _).
  - intros k r Hk. unfold OpsDemo.lateDB in Hk. cbn in Hk.
    rewrite lookup_insert_Some in Hk. destruct Hk as [[_ <-]|[_ Hk]]; [cbn; lia|].
    apply lookup_singleton_Some in Hk as [_ <-]. cbn. lia.
  - exists d. split; [by rewrite H1|]. rewrite !H2. split; vm_compute; reflexivity.
Defined.

Module ModulusShift.
Definition manifest : TestManifest :=
  mkTestManifest "pytest" [Demo.entry "t0"; Demo.entry "t1"; Demo.entry "t2"; Demo.entry "t3"].
Definition before : DB :=
  mkDB {[ "repo" := Demo.repo ]} {[ "run" := Demo.run "running" ]} {[ "run" := PDManifest manifest ]}
    (<["s0" := Demo.shard 0 "preempted"]> {[ "s1" := Demo.shard 1 "pending" ]}) ∅ ∅ ∅ ∅ ∅ ∅.
Definition after : DB :=
  w_db (rescheduleOne "s0" "run" 0 (PDManifest manifest) (QW before None 50 Demo.ids 0 ∅ [] idleAgent)).2.
Definition loaded (d : DB) (id : string) : list string :=
  match (loadTestsForShard id (QW d (Some d) 50 Demo.ids 0 ∅ [] idleAgent)).1 with
  | Ok l => te_Name <$> l
  | Err _ => []
  end.

(** Rescheduling one shard can lose a test of another: with four tests on
    two shards, shard s1 (not loaded yet) is to run t1 and t3; after shard s0 is
    rescheduled the run has three shards, s1 loads t1 only, the new shard loads
    t0 and t2, and t3 belongs to no shard. *)
Theorem reschedule_drops_a_test :
  loaded before "s1" = ["t1"; "t3"]
  /\ loaded after "s1" = ["t1"] /\ loaded after "u" = ["t0"; "t2"].
Proof. vm_compute. auto. Qed.

(** The replacement shard of the run, preempted in turn before it ran anything, and
    what the sweep makes of it. *)
Definition lost : DB := set_shards (<["u" := mkShardRow "run" 2 None 0 "preempted" 2 None None 50 None None]> (shards after)) after.
Definition twice : DB :=
  w_db (rescheduleOne "u" "run" 2 (PDManifest manifest) (QW lost None 60 Demo.ids 1 ∅ [] idleAgent)).2.

(** A replacement shard that is preempted itself loses tests: it was given t0 and
    t2 and ran neither, but its own replacement gets t2 only, the test at its
    place in the round robin. *)
Theorem second_preemption_drops_a_test :
  loaded lost "u" = ["t0"; "t2"] /\ selectDone "u" lost = [] /\ loaded twice "uu" = ["t2"].
Proof. vm_compute. auto. Qed.
End ModulusShift.
