(* ===== verification/WorkerProps.v ===== *)
(** * What executing a shard leaves behind

    One execution for each test the adapter reported, with the first outcome
    reported for it, and the status of the shard, which does not depend on the
    outcomes. *)

From S2P Require Import Prelude GoSort GoRegexp Redact Model Scheduler Db Effects Shards StateMachine Lifecycle RunManager RunManagerProps RunSvc.
From S2P Require Import RunSvcProps Worker Reschedule Witnesses.

(** The first result reported for a fingerprint. *)
Definition firstWith (fp : string) (l : list Result) : option Result :=
  List.find (fun r => String.eqb (fingerprintOf (rs_Test r)) fp) l.

Lemma firstWith_snoc fp l r : firstWith fp (l ++ [r]) =
  match firstWith fp l with
  | Some r' => Some r'
  | None => if String.eqb (fingerprintOf (rs_Test r)) fp then Some r else None
  end.
Proof. unfold firstWith. induction l as [|x l IH]; [done|]. cbn [app List.find]. destruct (String.eqb (fingerprintOf (rs_Test x)) fp); [done|exact IH]. Qed.

(** The result can be stored. *)
Definition storable (r : Result) : Prop := rs_Outcome r ∈ outcomes /\ int4 (rs_DurationMS r) = true.

(** An agent that is not draining and will not be interrupted. *)
Definition calm (cur : string) : AgentState := mkAgentState false cur [].

Section record.
Context (cur : string) (now : Z) (u : nat -> string) (Hu : Inj (=) (=) u) (held : gset Z) (a : Agent) (runID shardID repoID : string).

Definition testOf (db : DB) (fp id : string) : Prop :=
  exists t, tests db !! id = Some t /\ ts_repo_id t = repoID /\ ts_fingerprint t = fp.

(** The rows the statements refer to, the unique index and the reference of the
    executions. *)
Record Recording (db : DB) : Prop := {
  rc_run : (r_repo_id <$> runs db !! runID) = Some repoID;
  rc_repo : is_Some (repos db !! repoID);
  rc_shard : is_Some (shards db !! shardID);
  rc_unique : forall fp id1 id2, testOf db fp id1 -> testOf db fp id2 -> id1 = id2;
  rc_refs : forall k e, test_executions db !! k = Some e -> is_Some (tests db !! k.1.2)
}.

Record Recorded (db0 : DB) (l : list Result) (db : DB) : Prop := {
  rd_rest : db = set_test_executions (test_executions db) (set_tests (tests db) db0);
  rd_sound : Recording db;
  rd_has : forall fp r, firstWith fp l = Some r -> exists id e, testOf db fp id
    /\ test_executions db !! (shardID, id, 1) = Some e
    /\ ex_outcome e = rs_Outcome r /\ ex_duration_ms e = rs_DurationMS r;
  rd_only : forall id k e, test_executions db !! (shardID, id, k) = Some e ->
    k = 1 /\ exists fp, testOf db fp id /\ is_Some (firstWith fp l);
  rd_others : forall k, k.1.1 <> shardID -> test_executions db !! k = test_executions db0 !! k;
  rd_tests : forall id t, tests db0 !! id = Some t -> exists t', tests db !! id = Some t'
    /\ ts_fingerprint t' = ts_fingerprint t /\ ts_repo_id t' = ts_repo_id t /\ ts_status t' = ts_status t
}.

Definition Fresh (n : nat) (db : DB) : Prop := forall k, (n <= k)%nat -> tests db !! u k = None.

(** ** One result *)

(** What the upsert does: the row with the fingerprint, new or touched. *)
Record Upserted (db : DB) (n : nat) (fp id : string) (db1 : DB) (t : test_row) : Prop := {
  up_db : db1 = set_tests (<[id := t]> (tests db)) db;
  up_key : ts_repo_id t = repoID /\ ts_fingerprint t = fp;
  up_row : (exists t0, tests db !! id = Some t0 /\ ts_fingerprint t = ts_fingerprint t0 /\ ts_repo_id t = ts_repo_id t0
              /\ ts_status t = ts_status t0)
    \/ id = u n /\ tests db !! id = None /\ forall id', ~ testOf db fp id'
}.

Lemma upsertTest_quiet db n fp path name params sig runner : Recording db -> Fresh n db ->
  exists id db1 t, upsertTest (u n) repoID fp path name params sig runner now db = (Ok id, db1) /\ Upserted db n fp id db1 t.
Proof.
  intros Hr Hf. unfold upsertTest. destruct (List.find _ _) as [[id t]|] eqn:E.
  - apply find_some in E as [Hin Hk]. apply list_elem_of_In, elem_of_map_to_list in Hin.
    apply andb_true_iff in Hk as [H1%String.eqb_eq H2%String.eqb_eq]. cbn [snd] in H1, H2.
    exists id. do 2 eexists. split; [reflexivity|]. split; [reflexivity|by split|]. left. exists t. by split_and!.
  - pose proof (find_none _ _ E) as Hn. rewrite bool_decide_true by apply (rc_repo _ Hr). cbn [negb].
    rewrite bool_decide_false by (rewrite Hf by lia; intros [? ?]; done).
    exists (u n). do 2 eexists. split; [reflexivity|]. split; [reflexivity|by split|]. right.
    split_and!; [done|by apply Hf|]. intros id' (t & Ht & <- & <-). specialize (Hn (id', t)).
    rewrite <-list_elem_of_In, elem_of_map_to_list in Hn. specialize (Hn Ht). cbn in Hn. by rewrite !String.eqb_refl in Hn.
Qed.

(** The row is there, and the other fingerprints keep their rows. *)
Lemma Upserted_testOf db n fp id db1 t : Recording db -> Upserted db n fp id db1 t ->
  testOf db1 fp id /\ (forall fp' id', testOf db fp' id' -> testOf db1 fp' id')
  /\ (forall fp' id', testOf db1 fp' id' -> fp' = fp /\ id' = id \/ testOf db fp' id').
Proof.
  intros Hr [-> [H1 H2] H3]. unfold testOf. cbn [set_tests tests]. split_and!.
  - exists t. by rewrite lookup_insert_eq.
  - intros fp' id' (t' & Ht & H4 & H5). destruct (decide (id' = id)) as [->|Hne].
    + exists t. rewrite lookup_insert_eq. destruct H3 as [(t0 & H6 & H7 & H8 & _)|(_ & H6 & _)]; [|congruence].
      split_and!; congruence.
    + exists t'. by rewrite lookup_insert_ne.
  - intros fp' id' (t' & Ht & H4 & H5). destruct (decide (id' = id)) as [->|Hne].
    + left. rewrite lookup_insert_eq in Ht. split; congruence.
    + right. exists t'. by rewrite lookup_insert_ne in Ht.
Qed.

Lemma Upserted_Recording db n fp id db1 t : Recording db -> Upserted db n fp id db1 t -> Recording db1.
Proof.
  intros Hr Hup. destruct (Upserted_testOf _ _ _ _ _ _ Hr Hup) as (H1 & _ & H3). pose proof Hup as [-> _ Hrow].
  destruct Hr as [Hrun Hrepo Hshard Hun Hrefs]. split; cbn [set_tests runs repos shards tests test_executions]; try done.
  - intros fp' id1 id2 Ha Hb. destruct (H3 _ _ Ha) as [[Ea1 Ea2]|Ha'], (H3 _ _ Hb) as [[Eb1 Eb2]|Hb']; [congruence| | |by eapply Hun];
      destruct (up_key _ _ _ _ _ _ Hup).
    + destruct Hrow as [(t0 & T1 & T2 & T3 & _)|(_ & _ & Hno)]; [|subst; by destruct (Hno id2)].
      subst. eapply Hun; [|exact Hb']. exists t0. split_and!; congruence.
    + destruct Hrow as [(t0 & T1 & T2 & T3 & _)|(_ & _ & Hno)]; [|subst; by destruct (Hno id1)].
      subst. eapply Hun; [exact Ha'|]. exists t0. split_and!; congruence.
  - intros k e He. destruct (decide (k.1.2 = id)) as [->|Hne]; [rewrite lookup_insert_eq; by eexists|].
    rewrite lookup_insert_ne by done. by eapply Hrefs.
Qed.

Lemma insertExecution_quiet db fresh id outcome ms st fin key : Recording db -> is_Some (tests db !! id) ->
  outcome ∈ outcomes -> int4 ms = true ->
  exists db', insertExecution fresh shardID id 1 outcome ms st fin key None now db = (Ok tt, db')
    /\ ((is_Some (test_executions db !! (shardID, id, 1)) /\ db' = db)
        \/ test_executions db !! (shardID, id, 1) = None
           /\ db' = set_test_executions (<[(shardID, id, 1) := mkExecRow fresh outcome ms None st fin key None]> (test_executions db)) db).
Proof.
  intros Hr Ht Ho Hm. unfold insertExecution. change (int4 1) with true. rewrite Hm. cbn [andb negb].
  assert (existsb (String.eqb outcome) outcomes = true) as ->.
  { apply existsb_exists. exists outcome. split; [by apply list_elem_of_In|apply String.eqb_refl]. }
  cbn [negb]. destruct (test_executions db !! (shardID, id, 1)) as [e|] eqn:E; [exists db; split; [done|left; eauto]|].
  rewrite !bool_decide_true by (done || apply (rc_shard _ Hr)). eexists. split; [reflexivity|]. by right.
Qed.
Lemma uploadLog_quiet db tx n out ag testID r : exists key out',
  uploadLog a runID shardID testID r (QW db tx now u n held out ag) = (Ok key, QW db tx now u n held out' ag).
Proof. unfold uploadLog. destruct (_ && _); do 2 eexists; reflexivity. Qed.

(** Storing one more result: [db1] after the upsert of its test, [db2] after the
    insert of its execution. *)
Section stored.
Context (db0 db db1 : DB) (l : list Result) (r : Result) (n : nat) (id fresh : string) (t : test_row) (key : option string).
Context (Hrec : Recorded db0 l db) (Hf : Fresh n db) (Hup : Upserted db n (fingerprintOf (rs_Test r)) id db1 t).

Let e : exec_row := mkExecRow fresh (rs_Outcome r) (rs_DurationMS r) None (rs_Started r) (rs_Finished r) key None.

Lemma stored_fresh X : Fresh (S (S n)) (set_test_executions X db1).
Proof.
  intros k Hk. rewrite (up_db _ _ _ _ _ _ Hup). cbn [set_test_executions set_tests tests].
  destruct (decide (u k = id)) as [<-|Hne]; [|rewrite lookup_insert_ne by done; apply Hf; lia].
  destruct (up_row _ _ _ _ _ _ Hup) as [(t0 & H & _)|(E%Hu & _)]; [|lia]. rewrite Hf in H by lia. done.
Qed.

Lemma stored_tests id' t0 : tests db0 !! id' = Some t0 -> exists t', tests db1 !! id' = Some t'
  /\ ts_fingerprint t' = ts_fingerprint t0 /\ ts_repo_id t' = ts_repo_id t0 /\ ts_status t' = ts_status t0.
Proof.
  intros H. destruct (rd_tests _ _ _ Hrec _ _ H) as (t' & H1 & H2 & H3 & H4). rewrite (up_db _ _ _ _ _ _ Hup).
  cbn [set_tests tests]. destruct (decide (id' = id)) as [->|Hne]; [|exists t'; by rewrite lookup_insert_ne].
  exists t. rewrite lookup_insert_eq. destruct (up_row _ _ _ _ _ _ Hup) as [(t1 & H5 & H6 & H7 & H8)|(_ & H5 & _)]; [|congruence].
  assert (t1 = t') as -> by congruence. split_and!; congruence.
Qed.

Lemma stored_rest X : set_test_executions X db1 = set_test_executions X (set_tests (tests db1) db0).
Proof. rewrite (up_db _ _ _ _ _ _ Hup), (rd_rest _ _ _ Hrec). reflexivity. Qed.

(** The execution of the test, if it has one, is that of an earlier result. *)
Lemma stored_before : is_Some (test_executions db !! (shardID, id, 1)) -> is_Some (firstWith (fingerprintOf (rs_Test r)) l).
Proof.
  intros [e' He]. destruct (rd_only _ _ _ Hrec _ _ _ He) as (_ & fp & Ht & Hs).
  destruct (Upserted_testOf _ _ _ _ _ _ (rd_sound _ _ _ Hrec) Hup) as ((t1 & A1 & _ & A2) & H2 & _).
  destruct (H2 _ _ Ht) as (t2 & B1 & _ & B2). replace (fingerprintOf (rs_Test r)) with fp by congruence. done.
Qed.

Lemma stored_old : is_Some (test_executions db !! (shardID, id, 1)) -> Recorded db0 (l ++ [r]) db1.
Proof.
  intros Hs. destruct (Upserted_testOf _ _ _ _ _ _ (rd_sound _ _ _ Hrec) Hup) as (H1 & H2 & H3).
  pose proof (stored_before Hs) as [r0 Hr0]. assert (test_executions db1 = test_executions db) as Ex by (by rewrite (up_db _ _ _ _ _ _ Hup)).
  split.
  - rewrite <-stored_rest, Ex. rewrite (up_db _ _ _ _ _ _ Hup). by destruct db.
  - eapply Upserted_Recording; [apply Hrec|exact Hup].
  - intros fp r' Hr'. rewrite Ex. assert (firstWith fp l = Some r') as Hl.
    { rewrite firstWith_snoc in Hr'. destruct (firstWith fp l) eqn:E; [done|].
      destruct (String.eqb_spec (fingerprintOf (rs_Test r)) fp); [congruence|done]. }
    destruct (rd_has _ _ _ Hrec _ _ Hl) as (id' & e' & A & B & C). exists id', e'. auto.
  - intros id' k e' He. rewrite Ex in He. destruct (rd_only _ _ _ Hrec _ _ _ He) as (-> & fp & A & [r' B]). split; [done|].
    exists fp. split; [auto|]. rewrite firstWith_snoc, B. by eexists.
  - intros k Hk. rewrite Ex. by apply (rd_others _ _ _ Hrec).
  - apply stored_tests.
Qed.

Lemma stored_new : test_executions db !! (shardID, id, 1) = None ->
  Recorded db0 (l ++ [r]) (set_test_executions (<[(shardID, id, 1) := e]> (test_executions db)) db1).
Proof.
  intros Hs. destruct (Upserted_testOf _ _ _ _ _ _ (rd_sound _ _ _ Hrec) Hup) as (H1 & H2 & H3).
  pose proof (Upserted_Recording _ _ _ _ _ _ (rd_sound _ _ _ Hrec) Hup) as [R1 R2 R3 R4 R5]. split.
  - apply stored_rest.
  - split; cbn [set_test_executions runs repos shards tests test_executions]; try done.
    intros k e' He. destruct (decide (k = (shardID, id, 1))) as [->|Hne]; [destruct H1 as (t1 & H1 & _); by eexists|].
    rewrite lookup_insert_ne in He by done. apply (R5 k e'). rewrite (up_db _ _ _ _ _ _ Hup). done.
  - cbn [set_test_executions test_executions]. intros fp r' Hr'. rewrite firstWith_snoc in Hr'.
    destruct (firstWith fp l) as [r1|] eqn:E.
    + injection Hr' as ->. destruct (rd_has _ _ _ Hrec _ _ E) as (id' & e' & A & B & C). exists id', e'.
      rewrite lookup_insert_ne by congruence. split; [exact (H2 _ _ A)|done].
    + destruct (String.eqb_spec (fingerprintOf (rs_Test r)) fp) as [<-|]; [|done]. injection Hr' as <-.
      exists id, e. rewrite lookup_insert_eq. split; [exact H1|done].
  - cbn [set_test_executions test_executions]. intros id' k e' He. destruct (decide ((shardID, id', k) = (shardID, id, 1))) as [E|Hne].
    + injection E as -> ->. split; [done|]. exists (fingerprintOf (rs_Test r)). split; [exact H1|]. rewrite firstWith_snoc.
      destruct (firstWith _ l); [by eexists|]. rewrite String.eqb_refl. by eexists.
    + rewrite lookup_insert_ne in He by congruence. destruct (rd_only _ _ _ Hrec _ _ _ He) as (-> & fp & A & [r' B]). split; [done|].
      exists fp. split; [exact (H2 _ _ A)|]. rewrite firstWith_snoc, B. by eexists.
  - cbn [set_test_executions test_executions]. intros k Hk. rewrite lookup_insert_ne by (intros <-; done). by apply (rd_others _ _ _ Hrec).
  - apply stored_tests.
Qed.
End stored.

Lemma recordResult_quiet db0 l db r n out : Recorded db0 l db -> Fresh n db -> storable r -> exists db' out',
  recordResult a runID shardID r (QW db None now u n held out (calm cur)) = (Ok tt, QW db' None now u (S (S n)) held out' (calm cur))
  /\ Recorded db0 (l ++ [r]) db' /\ Fresh (S (S n)) db'.
Proof.
  intros Hrec Hf [Ho Hm]. unfold recordResult. pose proof (rc_run _ (rd_sound _ _ _ Hrec)) as Hrun.
  run_with (tryM_eq _ _ _ _ (poolScan_quiet db now u held (calm cur) (fun db => r_repo_id <$> runs db !! runID) n out)).
  rewrite Hrun. cbv iota. run_with (newUUID_quiet db now u held (calm cur) None n out).
  destruct (upsertTest_quiet db n (fingerprintOf (rs_Test r)) (te_Path (rs_Test r)) (te_Name (rs_Test r)) (te_ParamsHash (rs_Test r))
    (te_ASTSignature (rs_Test r)) (ag_AdapterName a) (rd_sound _ _ _ Hrec) Hf) as (id & db1 & t & E & Hup).
  erewrite bindM_ok; [|apply tryM_eq, poolExec_quiet; exact E]. cbv iota.
  destruct (uploadLog_quiet db1 None (S n) out (calm cur) id r) as (key & out' & Eu). run_with Eu.
  run_with (newUUID_quiet db1 now u held (calm cur) None (S n) out').
  destruct (insertExecution_quiet db1 (u (S n)) id (rs_Outcome r) (rs_DurationMS r) (rs_Started r) (rs_Finished r) (nullIf key))
    as (db2 & E2 & H2); [eapply Upserted_Recording; [apply Hrec|exact Hup]| |done|done|].
  { destruct (Upserted_testOf _ _ _ _ _ _ (rd_sound _ _ _ Hrec) Hup) as ((t1 & H1 & _) & _). by eexists. }
  exists db2, out'. erewrite ignoreM_eq by (apply poolExec_quiet; exact E2). split; [done|].
  assert (test_executions db1 = test_executions db) as Ex by (by rewrite (up_db _ _ _ _ _ _ Hup)). rewrite Ex in H2.
  destruct H2 as [[Hs ->]|[Hs ->]].
  - split; [by eapply stored_old|]. assert (db1 = set_test_executions (test_executions db1) db1) as -> by (by destruct db1).
    by eapply stored_fresh.
  - split; [by eapply stored_new|]. by eapply stored_fresh.
Qed.
End record.

(** ** The shard *)

Section shard.
Context (cur : string) (now : Z) (u : nat -> string) (Hu : Inj (=) (=) u) (held : gset Z) (a : Agent) (runID shardID repoID : string).

Lemma records_quiet db0 rs l db n out : Forall storable rs -> Recorded runID shardID repoID db0 l db -> Fresh u n db ->
  exists db' n' out', forM_ rs (fun r => recordResult a runID shardID r ;! interleave) (QW db None now u n held out (calm cur))
    = (Ok tt, QW db' None now u n' held out' (calm cur)) /\ Recorded runID shardID repoID db0 (l ++ rs) db'.
Proof.
  intros Hrs. revert l db n out. induction Hrs as [|r rs Hr Hrs IH]; intros l db n out Hrec Hf.
  { exists db, n, out. by rewrite app_nil_r. }
  destruct (recordResult_quiet cur now u Hu held a runID shardID repoID db0 l db r n out Hrec Hf Hr) as (db1 & out1 & E & Hrec1 & Hf1).
  destruct (IH _ _ _ out1 Hrec1 Hf1) as (db' & n' & out' & E' & Hrec'). exists db', n', out'.
  split; [|by rewrite <-app_assoc in Hrec']. cbn [forM_]. erewrite bindM_ok; [exact E'|]. by run_with E.
Qed.

(** A shard nothing was recorded for. *)
Record Untouched (db : DB) (n : nat) : Prop := {
  ut_sound : Recording runID shardID repoID db;
  ut_fresh : Fresh u n db;
  ut_none : forall id k, test_executions db !! (shardID, id, k) = None
}.

Lemma Recorded_nil db n : Untouched db n -> Recorded runID shardID repoID db [] db.
Proof.
  intros [H1 H2 H3]. split; try done.
  - by destruct db.
  - intros id k e He. by rewrite H3 in He.
  - intros id t Ht. by exists t.
Qed.

(** What executing a shard comes to. *)
Record Executed (db : DB) (rs : list Result) (status : string) (db' : DB) : Prop := {
  xe_shard : exists s s', shards db !! shardID = Some s
    /\ shards db' = <[shardID := s']> (shards db)
    /\ s_status s' = status /\ s_finished_at s' = Some now /\ s_run_id s' = s_run_id s;
  xe_has : forall fp r, firstWith fp rs = Some r -> exists id e, testOf repoID db' fp id
    /\ test_executions db' !! (shardID, id, 1) = Some e
    /\ ex_outcome e = rs_Outcome r /\ ex_duration_ms e = rs_DurationMS r;
  xe_only : forall id k e, test_executions db' !! (shardID, id, k) = Some e ->
    k = 1 /\ exists fp, testOf repoID db' fp id /\ is_Some (firstWith fp rs);
  xe_unique : forall fp id1 id2, testOf repoID db' fp id1 -> testOf repoID db' fp id2 -> id1 = id2;
  xe_others : forall k, k.1.1 <> shardID -> test_executions db' !! k = test_executions db !! k;
  xe_runs : runs db' = runs db
}.

(** What the adapter reports for the tests of the shard; it is not asked about
    an empty list. *)
Definition reported (ts : list TestEntry) : list Result := match ts with [] => [] | _ => (ag_Execute a ts).1 end.
Definition shardStatus (ts : list TestEntry) : string :=
  match ts with [] => "succeeded" | _ => if (ag_Execute a ts).2 then "failed" else "succeeded" end.

Lemma shardDone_quiet db1 s status n out : shards db1 !! shardID = Some s ->
  ignoreM (poolExec (stmtShardDone shardID status)) (QW db1 None now u n held out (calm cur))
  = (Ok tt, QW (set_shards (<[shardID := s_set_finished_at (Some now) (s_set_status status s)]> (shards db1)) db1)
      None now u n held out (calm cur)).
Proof.
  intros Hs. eapply ignoreM_eq, poolExec_quiet. unfold stmtShardDone.
  by rewrite (updateShard_some now shardID (fun _ => true) _ db1 s).
Qed.

Lemma Recorded_executed db rs db1 s status : Recorded runID shardID repoID db rs db1 -> shards db !! shardID = Some s ->
  Executed db rs status (set_shards (<[shardID := s_set_finished_at (Some now) (s_set_status status s)]> (shards db1)) db1).
Proof.
  intros Hrec Hs. pose proof (rd_rest _ _ _ _ _ _ Hrec) as E.
  assert (shards db1 = shards db /\ runs db1 = runs db) as [Es Er] by (by rewrite E).
  destruct Hrec as [_ R1 R2 R3 R4 _]. split; try done.
  - do 2 eexists. split; [exact Hs|]. split; [cbn; by rewrite Es|done].
  - intros fp id1 id2. apply (rc_unique _ _ _ _ R1).
Qed.

(** The outcomes of the tests do not matter for the status. *)
Lemma executeShard_quiet db n out ts : Forall storable (reported ts) -> Untouched db n ->
  exists db' n' out', executeShard a runID shardID ts (QW db None now u n held out (calm cur))
      = (Ok tt, QW db' None now u n' held out' (calm cur))
    /\ Executed db (reported ts) (shardStatus ts) db'.
Proof.
  intros Hrs Hut. destruct (rc_shard _ _ _ _ (ut_sound _ _ Hut)) as [s Hs]. destruct ts as [|t ts].
  { do 3 eexists. split; [by apply shardDone_quiet|]. apply Recorded_executed; [by eapply Recorded_nil|done]. }
  destruct (records_quiet db (ag_Execute a (t :: ts)).1 [] db n (out ++ [OExecute (t :: ts)]) Hrs (Recorded_nil _ _ Hut) (ut_fresh _ _ Hut))
    as (db1 & n' & out' & E & Hrec). cbn [app] in Hrec.
  assert (shards db1 !! shardID = Some s) as Hs1 by (by rewrite (rd_rest _ _ _ _ _ _ Hrec)).
  do 3 eexists. split; [|by apply Recorded_executed].
  unfold executeShard. run_with (emit_quiet db now u held (calm cur) (OExecute (t :: ts)) None n out). run_with E.
  erewrite bindM_ok by reflexivity. cbn [w_agent QW ag_draining calm]. cbv iota. unfold shardStatus.
  destruct (ag_Execute a (t :: ts)).2; by apply shardDone_quiet.
Qed.
End shard.

(** * A worker takes a shard and runs it

    The whole path of a claim in a quiet world: the oldest claimable shard, its
    tests, the adapter, the executions and the final status. *)


(** The tests a shard stands for: its own manifest when a reschedule stored one,
    else its part of the run's. *)
Definition testsOfShard (db : DB) (shardID : string) (s : shard_row) (r : run_row) (mf : TestManifest) : list TestEntry :=
  match rm_reshards (r_meta r) !! shardID with
  | Some (mkTestManifest _ ((_ :: _) as ts)) => ts
  | _ => roundRobin (countShards (s_run_id s) db) (s_index s) (tm_Tests mf)
  end.

Section load.
Context (db : DB) (now : Z) (u : nat -> string) (held : gset Z) (ag : AgentState).

Lemma load_quiet d shardID s r mf n out :
  shards d !! shardID = Some s -> runs d !! s_run_id s = Some r -> run_plans d !! s_run_id s = Some (PDManifest mf) ->
  loadTestsForShard shardID (QW db (Some d) now u n held out ag)
  = (Ok (testsOfShard d shardID s r mf), QW db (Some d) now u n held out ag).
Proof.
  intros Hs Hr Hp. unfold testsOfShard. destruct (rm_reshards (r_meta r) !! shardID) as [[rn [|t ts]]|] eqn:Hm.
  - unfold loadTestsForShard.
    erewrite bindM_ok; [|eapply tryM_eq, (scan_quiet db now u held ag _ d n out (Some (mkTestManifest rn [])));
      unfold selectReshard; rewrite Hs, Hr; simpl; by rewrite Hm].
    cbv beta iota zeta. cbn [tm_Tests].
    erewrite bindM_ok; [|apply (scan_quiet db now u held ag _ d n out
      (PDManifest mf, s_index s, countShards (s_run_id s) d)); unfold selectPlanOfShard; rewrite Hs, Hp; done].
    cbv beta iota. unfold decodeManifestTests. cbn [unmarshalManifest]. by destruct (tm_Tests mf).
  - by rewrite (load_reshard db now u held ag d shardID s r (mkTestManifest rn (t :: ts))).
  - by rewrite (load_roundRobin db now u held ag d shardID s r mf).
Qed.
End load.

Section claim.
Context (now : Z) (u : nat -> string) (Hu : Inj (=) (=) u) (held : gset Z) (a : Agent).

Definition claimed (s : shard_row) : shard_row :=
  s_set_started_at (Some now) (s_set_worker_id (Some (ag_WorkerID a)) (s_set_status "running" s)).

(** The database once the claim is committed. *)
Definition claimedDB (shardID : string) (s : shard_row) (db : DB) : DB :=
  set_shards (<[shardID := claimed s]> (shards db)) db.

Lemma countShards_claimed runID shardID s db : shards db !! shardID = Some s ->
  countShards runID (claimedDB shardID s db) = countShards runID db.
Proof.
  intros Hs. unfold countShards, claimedDB. cbn [set_shards shards].
  assert (forall l k : list (string * shard_row), l ≡ₚ k ->
    length (List.filter (fun kv => String.eqb (s_run_id kv.2) runID) l) = length (List.filter (fun kv => String.eqb (s_run_id kv.2) runID) k)) as Hp.
  { induction 1; cbn; repeat case_match; cbn; congruence. }
  f_equal. rewrite <-(insert_delete_eq (shards db) shardID (claimed s)).
  transitivity (length (List.filter (fun kv : string * shard_row => String.eqb (s_run_id kv.2) runID)
    (map_to_list (<[shardID := s]> (delete shardID (shards db)))))); [|by rewrite insert_delete_id].
  rewrite !(Hp _ _ (map_to_list_insert _ _ _ (lookup_delete_eq _ _))).
  cbn [List.filter snd]. change (s_run_id (claimed s)) with (s_run_id s). by destruct (String.eqb (s_run_id s) runID).
Qed.

Lemma Untouched_claimed db shardID s repoID n : shards db !! shardID = Some s ->
  Untouched u (s_run_id s) shardID repoID db n -> Untouched u (s_run_id s) shardID repoID (claimedDB shardID s db) n.
Proof.
  intros Hs [[R1 R2 R3 R4 R5] H2 H3]. split; [split|..]; try done. cbn. rewrite lookup_insert_eq. by eexists.
Qed.

(** C11: A worker that is not draining takes the oldest claimable shard and marks
    it running, runs exactly the tests that shard stands for, and ends with one
    execution per test the adapter reported - the first outcome reported for it -
    with no other row of the shard, and with the shard failed if the adapter
    returned an error and succeeded otherwise, whatever the outcomes of the
    tests.  Nothing claimable leaves everything as it is. *)
Theorem tryClaimAndRun_runs db n out :
  match claimable db with
  | [] => tryClaimAndRun a (QW db None now u n held out idleAgent) = (Ok tt, QW db None now u n held out idleAgent)
  | (shardID, s) :: _ => forall r mf, runs db !! s_run_id s = Some r -> run_plans db !! s_run_id s = Some (PDManifest mf) ->
      Untouched u (s_run_id s) shardID (r_repo_id r) db n ->
      let ts := testsOfShard db shardID s r mf in
      Forall storable (reported a ts) ->
      exists db' n' out', tryClaimAndRun a (QW db None now u n held out idleAgent)
          = (Ok tt, QW db' None now u n' held out' idleAgent)
        /\ Executed now shardID (r_repo_id r) (claimedDB shardID s db) (reported a ts) (shardStatus a ts) db'
  end.
Proof.
  destruct (claimable db) as [|[shardID s] rest] eqn:Ec.
  - unfold tryClaimAndRun. erewrite bindM_ok by reflexivity. cbn [w_agent QW ag_draining idleAgent]. cbv iota.
    erewrite bindM_ok by reflexivity. erewrite bindM_ok.
    2: { apply withTx_quiet. run_with (txExec_quiet db now u held idleAgent (stmtClaim (ag_WorkerID a)) db n out None db
      ltac:(unfold stmtClaim, claimOldest; by rewrite Ec)). cbv iota. run_with (txCommit_quiet db now u held idleAgent db n out). reflexivity. }
    reflexivity.
  - intros r mf Hr Hp Hut ts Hst.
    assert (shards db !! shardID = Some s) as Hs.
    { assert ((shardID, s) ∈ claimable db) as Hin by (rewrite Ec; by left). unfold claimable in Hin.
      by apply selectOrdered_elem in Hin as [Hin _]. }
    set (d1 := claimedDB shardID s db).
    assert (testsOfShard d1 shardID (claimed s) r mf = ts) as Ets.
    { unfold ts, testsOfShard. cbn [claimed s_run_id s_index s_set_started_at s_set_worker_id s_set_status].
      unfold d1. by rewrite countShards_claimed. }
    destruct (executeShard_quiet shardID now u Hu held a (s_run_id s) shardID (r_repo_id r) d1 n out ts Hst
      (Untouched_claimed _ _ _ _ _ Hs Hut)) as (db' & n' & out' & E & Hx).
    exists db', n', out'. split; [|exact Hx].
    unfold tryClaimAndRun. erewrite bindM_ok by reflexivity. cbn [w_agent QW ag_draining idleAgent]. cbv iota.
    erewrite bindM_ok by reflexivity. erewrite bindM_ok.
    2: { apply withTx_quiet. run_with (txExec_quiet db now u held idleAgent (stmtClaim (ag_WorkerID a)) db n out
        (Some (shardID, claimed s)) d1 ltac:(unfold stmtClaim, claimOldest; by rewrite Ec)). cbv iota.
      erewrite bindM_ok by (apply (load_quiet db now u held idleAgent d1 shardID (claimed s) r mf); [apply lookup_insert_eq|done|done]).
      rewrite Ets. run_with (txCommit_quiet db now u held idleAgent d1 n out). reflexivity. }
    cbv iota. erewrite bindM_ok by reflexivity. erewrite bindM_ok by reflexivity. erewrite bindM_ok by reflexivity.
    erewrite bindM_ok by exact E. reflexivity.
Qed.
End claim.

(** *** A concrete claim *)

Module ClaimDemo.
Definition db : DB :=
  mkDB {[ "repo" := Demo.repo ]} {[ "run" := Demo.run "running" ]} {[ "run" := PDManifest Demo.manifest ]}
    {[ "s0" := Demo.shard 0 "pending" ]} ∅ ∅ ∅ ∅ ∅ ∅.
Definition result (t : TestEntry) (outcome : string) : Result := mkResult t outcome 1 2 5 "" "" "" "".
(** Every test fails. *)
Definition agent : Agent := mkAgent "w" "pytest" (fun ts => ((fun t => result t "failed") <$> ts, false)) (fun _ _ => true).

Lemma untouched : Untouched Demo.ids "run" "s0" "repo" db 0.
Proof.
  split; [split|intros k _; reflexivity|intros id k; reflexivity].
  - reflexivity.
  - by eexists.
  - by eexists.
  - intros fp id1 id2 (t & H & _). done.
  - intros k e H. done.
Qed.
End ClaimDemo.

Lemma tryClaimAndRun_runs_witness : exists db' n' out',
  tryClaimAndRun ClaimDemo.agent (QW ClaimDemo.db None 50 Demo.ids 0 ∅ [] idleAgent) = (Ok tt, QW db' None 50 Demo.ids n' ∅ out' idleAgent)
  /\ (s_status <$> shards db' !! "s0") = Some "succeeded"
  /\ exists id e, testOf "repo" db' (fingerprintOf (Demo.entry "t1")) id /\ test_executions db' !! ("s0", id, 1) = Some e
       /\ ex_outcome e = "failed".
Proof.
  pose proof (tryClaimAndRun_runs 50 Demo.ids Demo.ids_inj ∅ ClaimDemo.agent ClaimDemo.db 0 []) as H.
  change (claimable ClaimDemo.db) with [("s0", Demo.shard 0 "pending")] in H.
  destruct (H (Demo.run "running") Demo.manifest) as (db' & n' & out' & E & X); [reflexivity|reflexivity|exact ClaimDemo.untouched| |].
  - repeat constructor.
  - exists db', n', out'. split; [exact E|]. split.
    + destruct (xe_shard _ _ _ _ _ _ _ X) as (s & s' & _ & Hs & Hst & _). rewrite Hs, lookup_insert_eq. cbn. rewrite Hst. reflexivity.
    + destruct (xe_has _ _ _ _ _ _ _ X (fingerprintOf (Demo.entry "t1")) (ClaimDemo.result (Demo.entry "t1") "failed"))
        as (id & e & A & B & C & _); [reflexivity|]. exists id, e. split; [exact A|]. split; [exact B|exact C].
Defined.
