(* ===== verification/Rest.v ===== *)
(** * internal/api: the REST handlers

    runs.go, errors.go, quarantine_restore.go and logs.go: what each request is
    answered.  Whether the middleware bound a principal and what the JSON decoder
    makes of a body are arguments; so is the presigner of log URLs. *)

From S2P Require Import Prelude GoRegexp GoStrings Model Scheduler Db Effects Lifecycle RunSvc Quarantine Predictor RunManager RunManagerProps RunSvcProps.
From S2P Require Import Witnesses Worker WorkerProps.

(** ** Replies *)

(** The text of an error stands for itself. *)
Inductive detail :=
  | DText (s : string)
  | DError (e : error).

Record Problem := mkProblem {
  pb_Title : string;
  pb_Status : Z;
  pb_Detail : detail;
  pb_Errors : list FieldError
}.

Inductive reply (B : Type) :=
  | RProblem (p : Problem)
  | RBody (status : Z) (b : B).
Arguments RProblem {B} p.
Arguments RBody {B} status b.

Definition statusOf {B} (r : reply B) : Z := match r with RProblem p => pb_Status p | RBody s _ => s end.

Definition writeProblem {B} (status : Z) (title : string) (d : detail) (errs : list FieldError) : M (reply B) :=
  retM (RProblem (mkProblem title status d errs)).

Definition writeJSON {B} (status : Z) (b : B) : M (reply B) := retM (RBody status b).

Definition unauthorized {B} : M (reply B) := writeProblem 401 "Unauthorized" (DText "authentication required") [].

(** ** Runs *)

(** [errors.As(err, &verr)] *)
Fixpoint asValidation (err : error) : option (list FieldError) :=
  match err with
  | ValidationError fields => Some fields
  | ErrWrap _ inner => asValidation inner
  | _ => None
  end.

Definition writeRunProblem {B} (err : error) : M (reply B) :=
  match asValidation err with
  | Some fields => writeProblem 400 "Validation failed" (DText "see errors") fields
  | None =>
      if errorsIs err ErrRepoNotFound then writeProblem 404 "Repo not found" (DError err) []
      else if errorsIs err ErrIdempotencyConflict then
        writeProblem 409 "Idempotency-Key conflict"
          (DText "Idempotency-Key was previously used for a different commit on this repo") []
      else if errorsIs err ErrRunNotFound then writeProblem 404 "Not found" (DError err) []
      else writeProblem 500 "Internal error" (DError err) []
  end.

Definition withKey (key : string) (req : CreateRunRequest) : CreateRunRequest :=
  mkCreateRunRequest (cr_RepoFullName req) (cr_CommitSHA req) (cr_Branch req) (cr_Manifest req) (cr_Budget req)
    (cr_TriggerActor req) (cr_TriggerPRNumber req) key.

(** [POST /api/v1/runs]; [key] is the Idempotency-Key header. *)
Definition runsCreate (s : Service) (principal : bool) (body : option CreateRunRequest) (key : string) : M (reply Run) :=
  if negb principal then unauthorized
  else match body with
  | None => writeProblem 400 "Bad Request" (DText "invalid JSON body") []
  | Some req =>
      r ←! tryM (Create s (withKey key req)) ;
      match r with
      | Err err => writeRunProblem err
      | Ok (run, true) => writeJSON 201 run
      | Ok (run, false) => writeJSON 200 run
      end
  end.

Definition serveRun (principal : bool) (m : M Run) : M (reply Run) :=
  if negb principal then unauthorized
  else
    r ←! tryM m ;
    match r with
    | Err err => writeRunProblem err
    | Ok run => writeJSON 200 run
    end.

(** [GET /api/v1/runs/{id}] and [POST /api/v1/runs/{id}/cancel] *)
Definition runsGet (principal : bool) (id : string) : M (reply Run) := serveRun principal (Get id).
Definition runsCancel (s : Service) (principal : bool) (id : string) : M (reply Run) := serveRun principal (Cancel s id).

(** ** The restore link *)

(** [GET /api/v1/quarantine/restore?token=..]: no principal is asked for. *)
Definition quarantineRestore (token : string) : M (reply string) :=
  if String.eqb token "" then writeProblem 400 "Missing token" (DText "?token=... required") []
  else
    r ←! tryM (Restore token) ;
    match r with
    | Ok testID => writeJSON 200 testID
    | Err err =>
        if errorsIs err ErrTokenConsumed then
          writeProblem 410 "Token already used"
            (DText "this magic link has been consumed; the test was restored on a previous click") []
        else if errorsIs err ErrTokenExpired then
          writeProblem 410 "Token expired"
            (DText "this magic link is past its expiry; ask TEO to re-propose un-quarantine") []
        else writeProblem 500 "Restore failed" (DError err) []
    end.

(** ** Log URLs *)

Definition logURLSeconds : Z := 300.

Record logURL := mkLogURL {
  lg_URL : string;
  lg_Key : string;
  lg_ExpiresInSeconds : Z
}.

Definition ErrPresignUnavailable : error := Sentinel "logstore.ErrPresignUnavailable".

(** [SELECT te.log_object_key .. WHERE te.id = $1 AND s.run_id = $2] *)
Definition selectLogKey (execID runID : string) (db : DB) : option (option string) :=
  (fun kv => ex_log_object_key kv.2) <$> List.find (fun kv : (string * string * Z) * exec_row =>
    String.eqb (ex_id kv.2) execID
    && match shards db !! kv.1.1.1 with Some s => String.eqb (s_run_id s) runID | None => false end)
    (map_to_list (test_executions db)).

(** [GET /api/v1/runs/{id}/tests/{execId}/log]; [presigner] is given the key. *)
Definition logURLHandler (presigner : option (string -> result string)) (principal : bool) (runID execID : string) : M (reply logURL) :=
  if negb principal then unauthorized
  else match presigner with
  | None => writeProblem 501 "Log storage not configured" (DText "set TEO_S3_BUCKET to enable per-test log retrieval") []
  | Some presign =>
      row ←! tryM (scanRow (poolExec (query (selectLogKey execID runID)))) ;
      match row with
      | Err err =>
          if errorsIs err ErrNoRows then
            writeProblem 404 "Not found" (DText ("no test execution " +:+ execID +:+ " in run " +:+ runID)) []
          else writeProblem 500 "Database error" (DError err) []
      | Ok None => writeProblem 404 "No log" (DText "this test execution has no captured log (empty output, or capture disabled)") []
      | Ok (Some key) =>
          if String.eqb key "" then
            writeProblem 404 "No log" (DText "this test execution has no captured log (empty output, or capture disabled)") []
          else match presign key with
          | Err err =>
              if errorsIs err ErrPresignUnavailable then writeProblem 501 "Log storage not configured" (DError err) []
              else writeProblem 500 "Presign failed" (DError err) []
          | Ok url => writeJSON 200 (mkLogURL url key logURLSeconds)
          end
      end
  end.

(** * What the REST API answers

    The run endpoints over the intake service, and what a client that retries
    after a lost reply gets. *)


Definition noPrincipal {B} : reply B :=
  RProblem (mkProblem "Unauthorized" 401 (DText "authentication required") []).

Lemma serveRun_ok m w run w' : m w = (Ok run, w') -> serveRun true m w = (Ok (RBody 200 run), w').
Proof. intros E. unfold serveRun. cbn [negb]. by rewrite (bindM_ok _ _ _ _ _ (tryM_eq _ _ _ _ E)). Qed.

Lemma serveRun_unknown m w id w' : m w = (Err (ErrWrap id ErrRunNotFound), w') ->
  serveRun true m w = (Ok (RProblem (mkProblem "Not found" 404 (DError (ErrWrap id ErrRunNotFound)) [])), w').
Proof. intros E. unfold serveRun. cbn [negb]. by rewrite (bindM_ok _ _ _ _ _ (tryM_eq _ _ _ _ E)). Qed.

Lemma Create_invalid s req w : validateCreateRun req <> [] ->
  Create s req w = (Err (ValidationError (validateCreateRun req)), w).
Proof. intros Hv. unfold Create. by destruct (validateCreateRun req). Qed.

Section rest.
Context (svc : Service) (now : Z) (u : nat -> string) (held : gset Z) (ag : AgentState).

Lemma Get_quiet db id n out : Get id (QW db None now u n held out ag)
  = (match selectRun id db with Some run => Ok run | None => Err (ErrWrap id ErrRunNotFound) end,
     QW db None now u n held out ag).
Proof.
  unfold Get. erewrite bindM_ok; [|apply tryM_eq, poolScan_quiet]. by destruct (selectRun id db).
Qed.

(** The run endpoints answer as documented.  In any world, without a principal
    every call is a 401, an undecodable body a 400, an incomplete request a 400
    that lists exactly the failing fields, all without a change.  In a quiet
    world, the first POST with an idempotency key creates one pending run and
    answers 201; repeating it answers 200 with that run for the same commit and
    409 for another one, changing nothing; GET answers 200 with the run; GET and
    cancel of a uuid that is no run answer 404 and change nothing. *)
Theorem rest_runs_answers :
  (forall w body key id, runsCreate svc false body key w = (Ok noPrincipal, w)
     /\ runsGet false id w = (Ok noPrincipal, w) /\ runsCancel svc false id w = (Ok noPrincipal, w))
  /\ (forall w key, runsCreate svc true None key w
       = (Ok (RProblem (mkProblem "Bad Request" 400 (DText "invalid JSON body") [])), w))
  /\ (forall w req key, validateCreateRun req <> [] -> runsCreate svc true (Some req) key w
       = (Ok (RProblem (mkProblem "Validation failed" 400 (DText "see errors") (validateCreateRun req))), w))
  /\ (forall db req key repoID rp n out, NewRequest u db (withKey key req) repoID rp n ->
       exists run w, runsCreate svc true (Some req) key (QW db None now u n held out ag) = (Ok (RBody 201 run), w)
       /\ run_ID run = u n /\ run_Status run = "pending" /\ w_db w = createdDB now u db (withKey key req) repoID n
       /\ runsGet true (u n) w = (Ok (RBody 200 run), w)
       /\ forall req2, validateCreateRun req2 = [] -> cr_RepoFullName req2 = cr_RepoFullName req ->
            exists r, runsCreate svc true (Some req2) key w = (Ok r, w)
            /\ (cr_CommitSHA req2 = cr_CommitSHA req -> r = RBody 200 run)
            /\ (cr_CommitSHA req2 <> cr_CommitSHA req -> statusOf r = 409))
  /\ (forall db id n out, runs db !! id = None -> exists p, pb_Status p = 404
       /\ runsGet true id (QW db None now u n held out ag) = (Ok (RProblem p), QW db None now u n held out ag)
       /\ runsCancel svc true id (QW db None now u n held out ag) = (Ok (RProblem p), QW db None now u n held out ag)).
Proof.
  split_and!; [done|done| | |].
  - intros w req key Hv. unfold runsCreate. cbn [negb].
    by rewrite (bindM_ok _ _ _ _ _ (tryM_eq _ _ _ _ (Create_invalid svc (withKey key req) w Hv))).
  - intros db req key repoID rp n out Hn.
    set (run := viewOf (u n) rp (newRunRow repoID (withKey key req) now)). set (req' := withKey key req) in *.
    set (db' := createdDB now u db req' repoID n).
    pose proof (Create_fresh svc now u held ag db req' repoID rp n out Hn) as Ec. fold run db' in Ec.
    match type of Ec with _ = (_, ?w1) => set (w := w1) in * end. exists run, w. split_and!; [|done|done|done| |].
    + unfold runsCreate. cbn [negb]. by rewrite (bindM_ok _ _ _ _ _ (tryM_eq _ _ _ _ Ec)).
    + apply serveRun_ok. subst w. rewrite Get_quiet. subst db'. unfold selectRun, createdDB. cbn [set_run_plans set_runs runs repos].
      rewrite lookup_insert_eq. cbn [newRunRow r_repo_id]. by rewrite (nr_row _ _ _ _ _ _ Hn).
    + intros req2 Hv Hrepo.
      assert (Create svc (withKey key req2) w = (replay (withKey key req2) (u n) rp (newRunRow repoID req' now), w)) as E2.
      { apply (Create_known svc now u held ag db' (withKey key req2) repoID rp (u n) (newRunRow repoID req' now) (S n));
          [done| | |by apply (created_holds now u db req' (withKey key req2))].
        - subst db' w. cbn [withKey cr_RepoFullName]. rewrite Hrepo. apply (nr_repo _ _ _ _ _ _ Hn).
        - apply (nr_key _ _ _ _ _ _ Hn). }
      unfold replay in E2. change (r_commit_sha (newRunRow repoID req' now)) with (cr_CommitSHA req) in E2.
      change (cr_CommitSHA (withKey key req2)) with (cr_CommitSHA req2) in E2.
      unfold runsCreate. cbn [negb]. rewrite (bindM_ok _ _ _ _ _ (tryM_eq _ _ _ _ E2)).
      destruct (String.eqb_spec (cr_CommitSHA req) (cr_CommitSHA req2)) as [He|He]; eexists; (split; [reflexivity|]); split; try done;
        intros; exfalso; congruence.
  - intros db id n out Hno. exists (mkProblem "Not found" 404 (DError (ErrWrap id ErrRunNotFound)) []). split; [done|].
    assert (selectRun id db = None) as Hs by (unfold selectRun; by rewrite Hno).
    split; apply serveRun_unknown; [rewrite Get_quiet|rewrite Cancel_other by congruence]; by rewrite Hs.
Qed.

(** ** A lost reply *)

(** The insertion of the run is committed and its reply lost. *)
Definition lossyWorld (db : DB) (n : nat) (out : list Output) : World :=
  mkWorld db None now u n held [quietCall; quietCall; mkEnvEvent (fun db => db) FLost] out ag.

Definition lostDB (db : DB) (req : CreateRunRequest) (repoID : string) (n : nat) : DB :=
  set_runs (<[u n := newRunRow repoID req now]> (runs db)) db.

Lemma Create_lost db req repoID rp n out : NewRequest u db req repoID rp n ->
  Create svc req (lossyWorld db n out)
  = (Err (ErrWrap "insert run" ErrTransport), QW (lostDB db req repoID n) None now u (S n) held out ag).
Proof.
  intros Hn. pose proof (insertRun_quiet now u db req repoID rp n Hn) as Hins. destruct Hn. unfold Create. rewrite nr_valid.
  erewrite bindM_ok; [|apply tryM_eq; unfold scanRow, bindM; simpl; rewrite nr_repo; reflexivity].
  cbv beta iota zeta. rewrite (proj2 (String.eqb_neq _ "")) by done. cbn [negb].
  erewrite bindM_ok.
  2: { unfold tryIdempotent. erewrite bindM_ok; [reflexivity|]. apply tryM_eq. unfold lookupIdempotent.
       apply bindM_err. unfold scanRow, bindM. simpl. unfold selectIdempotent.
       rewrite selectOrdered_none by (intros k v; apply nr_new). reflexivity. }
  cbv beta iota. erewrite bindM_ok; [|reflexivity].
  erewrite bindM_ok; [|apply tryM_eq; unfold poolExec; simpl; rewrite Hins; reflexivity].
  reflexivity.
Qed.

(** When the database commits the insertion of a run but the reply is lost, the
    POST answers 500; the client's retry with the same key answers 200 with the
    run - whose manifest was never stored, so that the run manager fails it. *)
Theorem retry_after_lost_reply m db req key repoID rp n out :
  NewRequest u db (withKey key req) repoID rp n -> runIDLockKey (u n) ∉ held ->
  exists p run w, runsCreate svc true (Some req) key (lossyWorld db n out) = (Ok (RProblem p), w)
  /\ pb_Status p = 500
  /\ runsCreate svc true (Some req) key w = (Ok (RBody 200 run), w)
  /\ run_ID run = u n /\ run_Status run = "pending" /\ run_plans (w_db w) !! u n = None
  /\ exists w', tryHandle m (u n) "pending" w = (Ok tt, w') /\ r_status <$> runs (w_db w') !! u n = Some "failed".
Proof.
  intros Hn Hl. set (req' := withKey key req) in *. set (row := newRunRow repoID req' now).
  pose proof (Create_lost db req' repoID rp n out Hn) as Ec.
  match type of Ec with _ = (_, ?w1) => set (w := w1) in * end.
  exists (mkProblem "Internal error" 500 (DError (ErrWrap "insert run" ErrTransport)) []), (viewOf (u n) rp row), w.
  assert (HoldsKey (lostDB db req' repoID n) repoID req' (u n) rp row) as Hh.
  { destruct (created_holds now u db req' req' repoID rp n Hn eq_refl) as [H1 H2 H3 H4]. by split. }
  split_and!; [|done| |done|done|apply (nr_fresh_plan _ _ _ _ _ _ Hn)|].
  - unfold runsCreate. cbn [negb]. by rewrite (bindM_ok _ _ _ _ _ (tryM_eq _ _ _ _ Ec)).
  - pose proof (Create_known svc now u held ag (lostDB db req' repoID n) req' repoID rp (u n) row (S n) out
      (nr_valid _ _ _ _ _ _ Hn) (nr_repo _ _ _ _ _ _ Hn) (nr_key _ _ _ _ _ _ Hn) Hh) as E2.
    unfold replay in E2. change (r_commit_sha row) with (cr_CommitSHA req') in E2. rewrite String.eqb_refl in E2.
    unfold runsCreate. cbn [negb]. fold req'. fold w in E2. by rewrite (bindM_ok _ _ _ _ _ (tryM_eq _ _ _ _ E2)).
  - destruct (tryHandle_fails m (lostDB db req' repoID n) now u held ag (u n) row rp (S n) out Hl) as (w' & E & Hdb & Hst & _).
    + apply lookup_insert_eq.
    + done.
    + apply (nr_row _ _ _ _ _ _ Hn).
    + apply NoManifest. apply (nr_fresh_plan _ _ _ _ _ _ Hn).
    + exists w'. split; [exact E|]. rewrite Hdb. cbn [set_runs runs]. by rewrite lookup_insert_eq.
Qed.
End rest.

(** ** Log URLs *)

Lemma bindM_inv {A B} (m : M A) (k : A -> M B) w b w' : bindM m k w = (Ok b, w') ->
  exists a w1, m w = (Ok a, w1) /\ k a w1 = (Ok b, w').
Proof. unfold bindM. destruct (m w) as [[a|e] w1]; [eauto|done]. Qed.

Lemma scanQuery_inv {A} (f : DB -> option A) w a w' : scanRow (poolExec (query f)) w = (Ok a, w') -> f (w_db w') = Some a.
Proof.
  unfold scanRow. intros (o & w1 & E & Ek)%bindM_inv. destruct o as [a'|]; [|done]. injection Ek as -> ->.
  revert E. unfold poolExec, query. destruct (nextEvent w) as [[] w2]; [|done|done]. intros [= H <-].
  unfold commitOther. destruct (w_tx w2); simpl; [|done]. by rewrite lockMergeDB_id.
Qed.

(** In any world, a log URL is handed out only to a caller with a principal, and
    only for the log of an execution of a shard of the run in the request's path:
    the identifier of another run's execution is never enough. *)
Theorem log_urls_stay_in_run presigner principal runID execID w w' st lg :
  logURLHandler presigner principal runID execID w = (Ok (RBody st lg), w') ->
  principal = true /\ exists k e s presign, test_executions (w_db w') !! k = Some e /\ ex_id e = execID
    /\ shards (w_db w') !! k.1.1 = Some s /\ s_run_id s = runID
    /\ ex_log_object_key e = Some (lg_Key lg) /\ lg_Key lg <> ""
    /\ presigner = Some presign /\ presign (lg_Key lg) = Ok (lg_URL lg).
Proof.
  unfold logURLHandler. destruct principal; cbn [negb]; [|done]. destruct presigner as [presign|]; [|done].
  intros (row & w1 & E & Ek)%bindM_inv. unfold tryM in E. destruct (scanRow _ w) as [row' w2] eqn:Es. injection E as <- <-.
  destruct row' as [[key|]|err]; [|done|by destruct (errorsIs err ErrNoRows)].
  destruct (String.eqb_spec key ""); [done|]. destruct (presign key) as [url|err] eqn:Ep; [|by destruct (errorsIs _ _)].
  injection Ek as <- <- <-. split; [done|]. apply scanQuery_inv in Es. unfold selectLogKey in Es.
  destruct (List.find _ _) as [[k e]|] eqn:Ef; [|done]. injection Es as Ek.
  apply find_some in Ef as [Hin Hk]. apply list_elem_of_In, elem_of_map_to_list in Hin.
  apply andb_true_iff in Hk as [H1%String.eqb_eq H2]. cbn [fst snd] in *.
  destruct (shards (w_db w2) !! k.1.1) as [s|] eqn:Hs; [|done]. apply String.eqb_eq in H2.
  exists k, e, s, presign. by split_and!.
Qed.

(** ** Witnesses *)

Lemma rest_runs_answers_witness : exists run w,
  runsCreate RunSvcDemo.svc true (Some (RunSvcDemo.request "c1")) "key-1"
    (QW RunSvcDemo.db None 9 RunSvcDemo.ids 0 ∅ [] idleAgent) = (Ok (RBody 201 run), w)
  /\ exists r, runsCreate RunSvcDemo.svc true (Some (RunSvcDemo.request "c2")) "key-1" w = (Ok r, w) /\ statusOf r = 409.
Proof.
  destruct (rest_runs_answers RunSvcDemo.svc 9 RunSvcDemo.ids ∅ idleAgent) as (_ & _ & _ & A & _).
  destruct (A RunSvcDemo.db (RunSvcDemo.request "c1") "key-1" "repo" RunSvcDemo.repo 0%nat []) as (run & w & E & _ & _ & _ & _ & B).
  - exact (RunSvcDemo.new_request "c1" ltac:(discriminate)).
  - exists run, w. split; [exact E|]. destruct (B (RunSvcDemo.request "c2") eq_refl eq_refl) as (r & E2 & _ & H2).
    exists r. split; [exact E2|]. apply H2. discriminate.
Defined.

Lemma retry_after_lost_reply_witness : exists p run w,
  runsCreate RunSvcDemo.svc true (Some (RunSvcDemo.request "c1")) "key-1"
    (lossyWorld 9 RunSvcDemo.ids ∅ idleAgent RunSvcDemo.db 0 []) = (Ok (RProblem p), w)
  /\ runsCreate RunSvcDemo.svc true (Some (RunSvcDemo.request "c1")) "key-1" w = (Ok (RBody 200 run), w)
  /\ exists w', tryHandle Demo.manager (run_ID run) "pending" w = (Ok tt, w') /\ r_status <$> runs (w_db w') !! "r0" = Some "failed".
Proof.
  destruct (retry_after_lost_reply RunSvcDemo.svc 9 RunSvcDemo.ids ∅ idleAgent Demo.manager RunSvcDemo.db
    (RunSvcDemo.request "c1") "key-1" "repo" RunSvcDemo.repo 0 []) as (p & run & w & E1 & _ & E2 & Hid & _ & _ & w' & E3 & H3).
  - exact (RunSvcDemo.new_request "c1" ltac:(discriminate)).
  - apply not_elem_of_empty.
  - exists p, run, w. split; [exact E1|]. split; [exact E2|]. exists w'. rewrite Hid. split; [exact E3|exact H3].
Defined.

Module LogDemo.
Definition exec : exec_row := mkExecRow "e1" "passed" 5 None 1 2 (Some "logs/e1") None.
Definition db : DB := set_test_executions {[ ("s0", "t", 1) := exec ]} ClaimDemo.db.
End LogDemo.

Lemma log_urls_stay_in_run_witness :
  (logURLHandler (Some (fun k => Ok ("https://s3/" +:+ k))) true "run" "e1" (QW LogDemo.db None 9 Demo.ids 0 ∅ [] idleAgent)).1
    = Ok (RBody 200 (mkLogURL "https://s3/logs/e1" "logs/e1" 300))
  /\ exists k e, test_executions LogDemo.db !! k = Some e /\ ex_log_object_key e = Some "logs/e1".
Proof.
  split; [vm_compute; reflexivity|].
  destruct (log_urls_stay_in_run (Some (fun k => Ok ("https://s3/" +:+ k))) true "run" "e1" (QW LogDemo.db None 9 Demo.ids 0 ∅ [] idleAgent)
    (QW LogDemo.db None 9 Demo.ids 0 ∅ [] idleAgent) 200 (mkLogURL "https://s3/logs/e1" "logs/e1" 300))
    as (_ & k & e & s & presign & H1 & _ & _ & _ & H2 & _); [vm_compute; reflexivity|]. exists k, e. split; [exact H1|exact H2].
Defined.
