(* ===== verification/GraphqlWs.v ===== *)
(** * internal/api/graphql_ws.go: subscriptions over a WebSocket

    A session of the graphql-transport-ws protocol: the read loop, the timer of
    the initialisation and one goroutine per operation, which share the table of
    operations.  An entry leaves the table under the lock and its cancel function
    is called after the lock is released: the two are separate steps.  What an operation yields is the graphql library's: a result may
    come, or the channel may close, at any time. *)

From S2P Require Import Prelude Effects Auth Rest.

(** ** Messages and close codes *)

Record wsMessage := mkWsMessage {
  wm_ID : string;
  wm_Type : string;
  wm_Payload : string
}.

Definition wsConnectionInit : string := "connection_init".
Definition wsConnectionAck : string := "connection_ack".
Definition wsPing : string := "ping".
Definition wsPong : string := "pong".
Definition wsSubscribe : string := "subscribe".
Definition wsNext : string := "next".
Definition wsErrorMsg : string := "error".
Definition wsComplete : string := "complete".

Definition wsUnsupportedData : Z := 1003.
Definition wsCloseBadRequest : Z := 4400.
Definition wsCloseUnauthorized : Z := 4401.
Definition wsCloseInitTimeout : Z := 4408.
Definition wsCloseSubExists : Z := 4409.
Definition wsCloseTooManyInit : Z := 4429.

(** What [conn.Read] and the decoder make of the next frame. *)
Inductive frame :=
  | FReadError
  | FBinary
  | FInvalid
  | FMessage (m : wsMessage).

(** ** The session *)

(** An operation's goroutine: in its loop; with only the deferred [stopOp] left;
    inside that [stopOp], past the lock and about to call the cancel function it
    took from the table. *)
Inductive opPhase :=
  | OpRunning (id : string)
  | OpEnding (id : string)
  | OpCancelling (id : string) (t : nat).

Definition opID (p : opPhase) : string :=
  match p with OpRunning id => id | OpEnding id => id | OpCancelling id _ => id end.

(** The read loop: reading; inside [stopOp] or inside the deferred [cancelAll],
    past the lock, with the cancel functions still to call; returned. *)
Inductive readPhase :=
  | RdLoop
  | RdStopping (t : nat)
  | RdLeaving (ts : gset nat)
  | RdReturned.

(** The timer goroutine. *)
Inductive timerPhase := TWaiting | TFired | TGone.

(** Operations are numbered in the order they start; the number stands for the
    context and its cancel function. *)
Record wsSession := mkWsSession {
  ws_inited : bool;
  ws_ops : gmap string nat;
  ws_cancelled : gset nat;
  ws_procs : gmap nat opPhase;
  ws_next : nat;
  ws_timer : timerPhase;
  ws_closed : option Z;
  ws_reader : readPhase;
  ws_in : list wsMessage;
  ws_sent : list wsMessage
}.

Definition newSession : wsSession := mkWsSession false ∅ ∅ ∅ 0 TWaiting None RdLoop [] [].

Definition ws_returned (s : wsSession) : bool := match ws_reader s with RdReturned => true | _ => false end.

Definition set_inited (s : wsSession) : wsSession :=
  mkWsSession true (ws_ops s) (ws_cancelled s) (ws_procs s) (ws_next s) (ws_timer s) (ws_closed s) (ws_reader s) (ws_in s) (ws_sent s).
Definition set_ops (ops : gmap string nat) (s : wsSession) : wsSession :=
  mkWsSession (ws_inited s) ops (ws_cancelled s) (ws_procs s) (ws_next s) (ws_timer s) (ws_closed s) (ws_reader s) (ws_in s) (ws_sent s).
Definition set_procs (procs : gmap nat opPhase) (s : wsSession) : wsSession :=
  mkWsSession (ws_inited s) (ws_ops s) (ws_cancelled s) procs (ws_next s) (ws_timer s) (ws_closed s) (ws_reader s) (ws_in s) (ws_sent s).
Definition set_timer (t : timerPhase) (s : wsSession) : wsSession :=
  mkWsSession (ws_inited s) (ws_ops s) (ws_cancelled s) (ws_procs s) (ws_next s) t (ws_closed s) (ws_reader s) (ws_in s) (ws_sent s).
Definition set_reader (r : readPhase) (s : wsSession) : wsSession :=
  mkWsSession (ws_inited s) (ws_ops s) (ws_cancelled s) (ws_procs s) (ws_next s) (ws_timer s) (ws_closed s) r (ws_in s) (ws_sent s).
Definition log_in (m : wsMessage) (s : wsSession) : wsSession :=
  mkWsSession (ws_inited s) (ws_ops s) (ws_cancelled s) (ws_procs s) (ws_next s) (ws_timer s) (ws_closed s) (ws_reader s) (ws_in s ++ [m]) (ws_sent s).
Definition log_sent (m : wsMessage) (s : wsSession) : wsSession :=
  mkWsSession (ws_inited s) (ws_ops s) (ws_cancelled s) (ws_procs s) (ws_next s) (ws_timer s) (ws_closed s) (ws_reader s) (ws_in s) (ws_sent s ++ [m]).

(** [conn.Close]: the first code is the one the client sees. *)
Definition wsClose (code : Z) (s : wsSession) : wsSession :=
  mkWsSession (ws_inited s) (ws_ops s) (ws_cancelled s) (ws_procs s) (ws_next s) (ws_timer s)
    (match ws_closed s with Some c => Some c | None => Some code end) (ws_reader s) (ws_in s) (ws_sent s).

(** [write]: a closed connection, or any other error, drops the message. *)
Definition wsWrite (ok : bool) (m : wsMessage) (s : wsSession) : bool * wsSession :=
  if ok && bool_decide (ws_closed s = None) then (true, log_sent m s) else (false, s).

(** A cancel function is called. *)
Definition cancelOp (t : nat) (s : wsSession) : wsSession :=
  mkWsSession (ws_inited s) (ws_ops s) ({[ t ]} ∪ ws_cancelled s) (ws_procs s) (ws_next s) (ws_timer s) (ws_closed s)
    (ws_reader s) (ws_in s) (ws_sent s).

(** [stopOp], the part under the lock: the entry is gone, its cancel function is
    held by the caller and not called yet. *)
Definition stopOp (id : string) (s : wsSession) : option nat * wsSession :=
  match ws_ops s !! id with
  | Some t => (Some t, set_ops (delete id (ws_ops s)) s)
  | None => (None, s)
  end.

(** [cancelAll], the part under the lock. *)
Definition cancelAll (s : wsSession) : gset nat * wsSession :=
  (list_to_set (snd <$> map_to_list (ws_ops s)), set_ops ∅ s).

(** The return of [run], up to where its deferred [cancelAll] has released the
    lock. *)
Definition runReturn (s : wsSession) : wsSession :=
  let '(ts, s) := cancelAll s in set_reader (RdLeaving ts) s.

(** A [complete] of the client, up to where [stopOp] has released the lock. *)
Definition onComplete (id : string) (s : wsSession) : wsSession :=
  match stopOp id s with (Some t, s) => set_reader (RdStopping t) s | (None, s) => s end.

(** The deferred [stopOp] of goroutine [t], as far; with nothing in the table the
    goroutine is gone. *)
Definition opStops (t : nat) (id : string) (s : wsSession) : wsSession :=
  match stopOp id s with
  | (Some t', s) => set_procs (<[t := OpCancelling id t']> (ws_procs s)) s
  | (None, s) => set_procs (delete t (ws_procs s)) s
  end.

(** [startOp]; the library's Subscribe and the goroutine that forwards its
    results come with the registration.  [payloadOk]: the payload decodes. *)
Definition startOp (payloadOk ok : bool) (m : wsMessage) (s : wsSession) : wsSession :=
  if negb payloadOk then (wsWrite ok (mkWsMessage (wm_ID m) wsErrorMsg "invalid subscribe payload") s).2
  else match ws_ops s !! wm_ID m with
  | Some _ => wsClose wsCloseSubExists s
  | None =>
      let t := ws_next s in
      mkWsSession (ws_inited s) (<[wm_ID m := t]> (ws_ops s)) (ws_cancelled s) (<[t := OpRunning (wm_ID m)]> (ws_procs s)) (S t)
        (ws_timer s) (ws_closed s) (ws_reader s) (ws_in s) (ws_sent s)
  end.

(** One turn of the loop of [run]; [ok] is what the write of a reply comes to. *)
Definition onFrame (payloadOk ok : bool) (f : frame) (s : wsSession) : wsSession :=
  match f with
  | FReadError => runReturn s
  | FBinary => runReturn (wsClose wsUnsupportedData s)
  | FInvalid => runReturn (wsClose wsCloseBadRequest s)
  | FMessage m =>
      let s := log_in m s in
      if String.eqb (wm_Type m) wsConnectionInit then
        if ws_inited s then runReturn (wsClose wsCloseTooManyInit s)
        else
          let '(written, s) := wsWrite ok (mkWsMessage "" wsConnectionAck "") (set_inited s) in
          if written then s else runReturn s
      else if String.eqb (wm_Type m) wsPing then (wsWrite ok (mkWsMessage "" wsPong "") s).2
      else if String.eqb (wm_Type m) wsPong then s
      else if String.eqb (wm_Type m) wsSubscribe then
        if negb (ws_inited s) then runReturn (wsClose wsCloseUnauthorized s)
        else if String.eqb (wm_ID m) "" then runReturn (wsClose wsCloseBadRequest s)
        else startOp payloadOk ok m s
      else if String.eqb (wm_Type m) wsComplete then onComplete (wm_ID m) s
      else runReturn (wsClose wsCloseBadRequest s)
  end.

(** The interleavings of the goroutines.  The request's context has a deadline,
    so it may be done before [run] returns. *)
Inductive wsStep : wsSession -> wsSession -> Prop :=
  | WsFrame s f payloadOk ok : ws_reader s = RdLoop -> (ws_closed s <> None -> f = FReadError) ->
      wsStep s (onFrame payloadOk ok f s)
  | WsTimerGone s : ws_timer s = TWaiting -> ws_inited s = true \/ ws_returned s = true -> wsStep s (set_timer TGone s)
  | WsTimerFires s : ws_timer s = TWaiting -> ws_inited s = false -> wsStep s (set_timer TFired s)
  | WsTimerCloses s : ws_timer s = TFired -> wsStep s (set_timer TGone (wsClose wsCloseInitTimeout s))
  | WsOpDone s t id : ws_procs s !! t = Some (OpRunning id) -> t ∈ ws_cancelled s \/ ws_returned s = true ->
      wsStep s (set_procs (<[t := OpEnding id]> (ws_procs s)) s)
  | WsOpResult s t id payload ok : ws_procs s !! t = Some (OpRunning id) ->
      wsStep s (let '(written, s') := wsWrite ok (mkWsMessage id wsNext payload) s in
                if written then s' else set_procs (<[t := OpEnding id]> (ws_procs s')) s')
  | WsOpUnmarshalled s t id : ws_procs s !! t = Some (OpRunning id) -> wsStep s s
  | WsOpClosed s t id ok : ws_procs s !! t = Some (OpRunning id) ->
      wsStep s (let s' := (wsWrite ok (mkWsMessage id wsComplete "") s).2 in set_procs (<[t := OpEnding id]> (ws_procs s')) s')
  | WsOpStops s t id : ws_procs s !! t = Some (OpEnding id) -> wsStep s (opStops t id s)
  | WsOpCancels s t id t' : ws_procs s !! t = Some (OpCancelling id t') ->
      wsStep s (set_procs (delete t (ws_procs s)) (cancelOp t' s))
  | WsStopped s t : ws_reader s = RdStopping t -> wsStep s (set_reader RdLoop (cancelOp t s))
  | WsLeaves s ts t : ws_reader s = RdLeaving ts -> t ∈ ts -> wsStep s (set_reader (RdLeaving (ts ∖ {[ t ]})) (cancelOp t s))
  | WsReturns s : ws_reader s = RdLeaving ∅ -> wsStep s (set_reader RdReturned s)
  | WsTimerDeadline s : ws_timer s = TWaiting -> wsStep s (set_timer TGone s)
  | WsOpDeadline s t id : ws_procs s !! t = Some (OpRunning id) -> wsStep s (set_procs (<[t := OpEnding id]> (ws_procs s)) s).

(** ** The endpoint *)

Inductive upgrade :=
  | UpProblem (r : reply unit)
  | UpRefused
  | UpSession (s : wsSession).

(** [graphqlSubscriptionHandler]; [accepted] is the subprotocol agreed on, [None]
    when the handshake fails. *)
Definition graphqlSubscriptionHandler (p : option Principal) (accepted : option string) : upgrade :=
  match p with
  | None => UpProblem (RProblem (mkProblem "Unauthorized" 401 (DText "authentication required") []))
  | Some p =>
      match p_Roles p with
      | [] => UpProblem (RProblem (mkProblem "Unauthorized" 401 (DText "authentication required") []))
      | _ =>
          match accepted with
          | None => UpRefused
          | Some sub => if String.eqb sub "graphql-transport-ws" then UpSession newSession else UpRefused
          end
      end
  end.

(** ** What the table of operations holds *)

(** Somebody has taken the cancel function of operation [t] from the table and is
    about to call it. *)
Definition doomed (s : wsSession) (t : nat) : Prop :=
  ws_reader s = RdStopping t
  \/ (exists ts, ws_reader s = RdLeaving ts /\ t ∈ ts)
  \/ exists u id, ws_procs s !! u = Some (OpCancelling id t).

(** The read loop has left its loop: it is in the deferred [cancelAll] or past it. *)
Definition ws_left (s : wsSession) : bool :=
  match ws_reader s with RdLeaving _ | RdReturned => true | _ => false end.

(** A goroutine that has not called its deferred [stopOp] for the operation [id]. *)
Definition atWork (id : string) (p : opPhase) : Prop := p = OpRunning id \/ p = OpEnding id.

Record wfWs (s : wsSession) : Prop := {
  wf_ops id t : ws_ops s !! id = Some t -> exists p, ws_procs s !! t = Some p /\ atWork id p;
  wf_live t p : ws_procs s !! t = Some p -> t ∉ ws_cancelled s -> ws_ops s !! opID p = Some t \/ doomed s t;
  wf_fresh t p : ws_procs s !! t = Some p -> (t < ws_next s)%nat;
  wf_left : ws_left s = true -> ws_ops s = ∅
}.

(** * What a subscription session keeps to

    The table of operations under every interleaving of the goroutines, what a
    client may have been sent, and the subscription that is cancelled because an
    earlier one with its id is still ending. *)


(** ** The table of operations *)

(** Steps that leave the tables and the reader alone. *)
Definition sameOps (s s' : wsSession) : Prop :=
  ws_ops s' = ws_ops s /\ ws_cancelled s' = ws_cancelled s /\ ws_procs s' = ws_procs s /\ ws_next s' = ws_next s
  /\ ws_reader s' = ws_reader s.

Lemma wfWs_same s s' : sameOps s s' -> wfWs s -> wfWs s'.
Proof.
  intros (E1 & E2 & E3 & E4 & E5) [W1 W2 W3 W4].
  split; unfold doomed, ws_left; rewrite ?E1, ?E2, ?E3, ?E4, ?E5; done.
Qed.

(** The table of a state that differs elsewhere. *)
Ltac same_ops := eapply wfWs_same; [|eassumption]; by repeat split.

Lemma sameOps_write ok m s : sameOps s (wsWrite ok m s).2.
Proof. unfold wsWrite. by destruct (ok && _). Qed.

Lemma wfWs_write ok m s : wfWs s -> wfWs (wsWrite ok m s).2.
Proof. apply wfWs_same, sameOps_write. Qed.

(** While the loop reads, what is doomed is held by a goroutine. *)
Lemma doomed_reading s t : ws_reader s = RdLoop -> doomed s t -> exists u id, ws_procs s !! u = Some (OpCancelling id t).
Proof. intros Hr [H|[(ts & H & _)|H]]; [congruence|congruence|done]. Qed.

Lemma wfWs_complete id s : ws_reader s = RdLoop -> wfWs s -> wfWs (onComplete id s).
Proof.
  intros Hr Hw. unfold onComplete, stopOp. destruct (ws_ops s !! id) as [t|] eqn:E; [|done]. destruct Hw as [W1 W2 W3 W4].
  split; cbn; [..|done].
  - intros id' t' [_ H]%lookup_delete_Some. by apply W1.
  - intros t' p H Hc. destruct (W2 _ _ H Hc) as [Ho|Hd]; [|right; right; right; by apply (doomed_reading s)].
    destruct (decide (opID p = id)) as [He|Hn]; [|left; by rewrite lookup_delete_ne].
    right. left. cbn. f_equal. rewrite He in Ho. congruence.
  - exact W3.
Qed.

Lemma wfWs_return s : ws_reader s = RdLoop -> wfWs s -> wfWs (runReturn s).
Proof.
  intros Hr [W1 W2 W3 W4]. split; cbn; [done| |done|done].
  intros t p H Hc. right. destruct (W2 _ _ H Hc) as [Ho|Hd]; [|right; right; by apply (doomed_reading s)].
  right. left. eexists. split; [done|]. apply elem_of_list_to_set, list_elem_of_fmap. exists (opID p, t).
  split; [done|]. by apply elem_of_map_to_list.
Qed.

Lemma wfWs_startOp payloadOk ok m s : ws_reader s = RdLoop -> wfWs s -> wfWs (startOp payloadOk ok m s).
Proof.
  intros Hr Hw. unfold startOp. destruct (negb payloadOk); [by apply wfWs_write|].
  destruct (ws_ops s !! wm_ID m) as [t|] eqn:E; [same_ops|]. destruct Hw as [W1 W2 W3 W4]. split; cbn.
  - intros id t [[<- <-]|[Hn H]]%lookup_insert_Some.
    { exists (OpRunning (wm_ID m)). split; [apply lookup_insert_eq|by left]. }
    destruct (W1 _ _ H) as (p & Hp & Hi). exists p. split; [|done]. rewrite lookup_insert_ne; [done|]. apply W3 in Hp. lia.
  - intros t p [[<- <-]|[Hn H]]%lookup_insert_Some Hc; [left; apply lookup_insert_eq|]. destruct (W2 _ _ H Hc) as [Ho|Hd].
    + left. rewrite lookup_insert_ne; [done|]. intros He. rewrite He in E. congruence.
    + right. apply (doomed_reading _ _ Hr) in Hd as (u & id & Hu). right. right. exists u, id. cbn.
      rewrite lookup_insert_ne; [done|]. apply W3 in Hu. lia.
  - intros t p [[<- <-]|[Hn H]]%lookup_insert_Some; [lia|]. apply W3 in H. lia.
  - unfold ws_left. cbn. by rewrite Hr.
Qed.

(** A goroutine leaves its loop. *)
Lemma wfWs_phase t id s : ws_procs s !! t = Some (OpRunning id) -> wfWs s -> wfWs (set_procs (<[t := OpEnding id]> (ws_procs s)) s).
Proof.
  intros Hp [W1 W2 W3 W4]. split; cbn; [| | |exact W4].
  - intros id' t' H. destruct (W1 _ _ H) as (p & Hq & Hi). destruct (decide (t' = t)) as [->|Hn].
    + exists (OpEnding id). rewrite lookup_insert_eq. split; [done|]. rewrite Hp in Hq. injection Hq as <-. right.
      by destruct Hi as [[= <-]|[=]].
    + exists p. by rewrite lookup_insert_ne.
  - assert (forall t', doomed s t' -> doomed (set_procs (<[t := OpEnding id]> (ws_procs s)) s) t') as Hd.
    { intros t' [H|[H|(u & id' & Hu)]]; [by left|right; by left|]. right. right. exists u, id'. cbn.
      rewrite lookup_insert_ne; [done|]. intros <-. congruence. }
    intros t' p [[<- <-]|[Hn H]]%lookup_insert_Some Hc; [edestruct (W2 t (OpRunning id))|edestruct W2]; eauto.
  - intros t' p [[<- <-]|[Hn H]]%lookup_insert_Some; by eapply W3.
Qed.

(** Its deferred [stopOp]: what it takes from the table, it is about to cancel. *)
Lemma wfWs_stops t id s : ws_procs s !! t = Some (OpEnding id) -> wfWs s -> wfWs (opStops t id s).
Proof.
  intros Hp Hw. unfold opStops, stopOp.
  destruct (ws_ops s !! id) as [t0|] eqn:E; destruct Hw as [W1 W2 W3 W4]; split; cbn; try exact W4.
  - intros id' t' [Hn H]%lookup_delete_Some. destruct (W1 _ _ H) as (p & Hq & Hi). exists p. split; [|done].
    rewrite lookup_insert_ne; [done|]. intros <-. rewrite Hp in Hq. injection Hq as <-. by destruct Hi as [[=]|[= ->]].
  - assert (forall t', doomed s t' \/ t' = t0 -> doomed (set_procs (<[t := OpCancelling id t0]> (ws_procs s)) (set_ops (delete id (ws_ops s)) s)) t') as Hd.
    { intros t' [[H|[H|(u & id' & Hu)]]| ->]; [by left|right; by left|right; right; exists u, id'; cbn|right; right; exists t, id; cbn].
      - rewrite lookup_insert_ne; [done|]. intros <-. congruence.
      - apply lookup_insert_eq. }
    assert (forall t' p, ws_procs s !! t' = Some p -> t' ∉ ws_cancelled s -> delete id (ws_ops s) !! opID p = Some t'
      \/ doomed (set_procs (<[t := OpCancelling id t0]> (ws_procs s)) (set_ops (delete id (ws_ops s)) s)) t') as Hl.
    { intros t' p H Hc. destruct (W2 _ _ H Hc) as [Ho|]; [|right; auto]. destruct (decide (opID p = id)) as [He|Hn].
      - right. apply Hd. right. rewrite He in Ho. congruence.
      - left. by rewrite lookup_delete_ne. }
    intros t' p [[<- <-]|[Hn H]]%lookup_insert_Some Hc; [by apply (Hl t (OpEnding id))|by apply Hl].
  - intros t' p [[<- <-]|[Hn H]]%lookup_insert_Some; by eapply W3.
  - intros Hl. rewrite (W4 Hl). apply delete_empty.
  - intros id' t' H. destruct (W1 _ _ H) as (p & Hq & Hi). exists p. split; [|done]. rewrite lookup_delete_ne; [done|].
    intros <-. rewrite Hp in Hq. injection Hq as <-. destruct Hi as [[=]|[= ->]]. congruence.
  - intros t' p [Hn H]%lookup_delete_Some Hc. destruct (W2 _ _ H Hc) as [Ho|[Hd|[Hd|(u & id' & Hu)]]];
      [by left|right; by left|right; right; by left|]. right. right. right. exists u, id'. cbn. rewrite lookup_delete_ne; [done|].
    intros <-. congruence.
  - intros t' p [_ H]%lookup_delete_Some. by eapply W3.
Qed.

(** A cancel function is called: whoever held it holds it no longer. *)
Lemma wfWs_cancel t r procs s :
  procs ⊆ ws_procs s -> ws_left (set_reader r s) = ws_left s ->
  (forall id t', ws_ops s !! id = Some t' -> procs !! t' = ws_procs s !! t') ->
  (forall t', doomed s t' -> t' <> t -> doomed (set_procs procs (set_reader r s)) t') ->
  wfWs s -> wfWs (set_procs procs (set_reader r (cancelOp t s))).
Proof.
  intros Hp Hr Ho Hd [W1 W2 W3 W4]. split; cbn.
  - intros id t' H. rewrite (Ho _ _ H). by apply W1.
  - intros t' p H Hc. apply not_elem_of_union in Hc as [Hn Hc]. rewrite not_elem_of_singleton in Hn.
    destruct (W2 t' p) as [|H']; [by eapply lookup_weaken|done|by left|]. right. by apply Hd.
  - intros t' p H. eapply W3. by eapply lookup_weaken.
  - intros H. apply W4. by rewrite <-Hr.
Qed.

Lemma wfWs_opCancels t id t' s : ws_procs s !! t = Some (OpCancelling id t') -> wfWs s ->
  wfWs (set_procs (delete t (ws_procs s)) (cancelOp t' s)).
Proof.
  intros Hp Hw. apply (wfWs_same (set_procs (delete t (ws_procs s)) (set_reader (ws_reader s) (cancelOp t' s)))); [by repeat split|].
  apply wfWs_cancel; [apply delete_subseteq|done| | |done].
  - intros id' t'' H. destruct (wf_ops _ Hw _ _ H) as (p & Hq & Hi). rewrite lookup_delete_ne; [done|]. intros <-.
    destruct Hi as [-> | ->]; congruence.
  - intros t'' [H|[H|(u & id' & Hu)]] Hn; [by left|right; by left|]. right. right. exists u, id'. cbn.
    rewrite lookup_delete_ne; [done|]. intros <-. congruence.
Qed.

(** The same, by the reader. *)
Lemma wfWs_readerCancels t r s : ws_left (set_reader r s) = ws_left s ->
  (forall t', doomed s t' -> t' <> t -> doomed (set_reader r s) t') -> wfWs s -> wfWs (set_reader r (cancelOp t s)).
Proof.
  intros Hr Hd Hw. apply (wfWs_same (set_procs (ws_procs s) (set_reader r (cancelOp t s)))); [by repeat split|].
  by apply wfWs_cancel.
Qed.

Lemma wfWs_frame payloadOk ok f s : ws_reader s = RdLoop -> wfWs s -> wfWs (onFrame payloadOk ok f s).
Proof.
  intros Hr Hw. destruct f as [| | |m]; cbn [onFrame]; try (apply wfWs_return; [done|same_ops]).
  assert (wfWs (log_in m s)) as Hl by same_ops.
  destruct (String.eqb (wm_Type m) wsConnectionInit).
  { change (ws_inited (log_in m s)) with (ws_inited s). destruct (ws_inited s); [apply wfWs_return; [done|same_ops]|].
    assert (wfWs (set_inited (log_in m s))) as Hi by same_ops.
    pose proof (wfWs_write ok (mkWsMessage "" wsConnectionAck "") _ Hi) as H2.
    pose proof (sameOps_write ok (mkWsMessage "" wsConnectionAck "") (set_inited (log_in m s))) as (_ & _ & _ & _ & E5).
    destruct (wsWrite ok _ _) as [[] s']; [done|apply wfWs_return; [by rewrite <-Hr|done]]. }
  destruct (String.eqb (wm_Type m) wsPing); [by apply wfWs_write|]. destruct (String.eqb (wm_Type m) wsPong); [done|].
  destruct (String.eqb (wm_Type m) wsSubscribe).
  { destruct (negb _); [apply wfWs_return; [done|same_ops]|].
    destruct (String.eqb (wm_ID m) ""); [apply wfWs_return; [done|same_ops]|]. by apply wfWs_startOp. }
  destruct (String.eqb (wm_Type m) wsComplete); [by apply wfWs_complete|apply wfWs_return; [done|same_ops]].
Qed.

Lemma wsStep_wf s s' : wsStep s s' -> wfWs s -> wfWs s'.
Proof.
  intros Hstep Hw. destruct Hstep as [s f po ok Hr Hc|s Ht Hr|s Ht Hr|s Ht|s t id Hp Hc|s t id payload ok Hp|s t id Hp
    |s t id ok Hp|s t id Hp|s t id t' Hp|s t Hr|s ts t Hr Ht|s Hr|s Ht|s t id Hp].
  - by apply wfWs_frame.
  - same_ops.
  - same_ops.
  - same_ops.
  - by apply wfWs_phase.
  - pose proof (sameOps_write ok (mkWsMessage id wsNext payload) s) as Hs. pose proof (wfWs_same _ _ Hs Hw) as H2.
    destruct (wsWrite ok _ s) as [[] s']; [done|]. apply wfWs_phase; [|done]. destruct Hs as (_ & _ & E & _). cbn in E. by rewrite E.
  - done.
  - pose proof (sameOps_write ok (mkWsMessage id wsComplete "") s) as Hs. apply wfWs_phase; [|by apply (wfWs_same s)].
    destruct Hs as (_ & _ & E & _). by rewrite E.
  - by apply wfWs_stops.
  - by eapply wfWs_opCancels.
  - apply wfWs_readerCancels; [unfold ws_left; cbn; by rewrite Hr| |done].
    intros t' [H|[(ts & H & _)|H]] Hn; [congruence|congruence|right; by right].
  - apply wfWs_readerCancels; [unfold ws_left; cbn; by rewrite Hr| |done].
    intros t' [H|[(ts' & H & Hi)|H]] Hn; [congruence| |right; by right]. right. left. eexists. split; [done|].
    rewrite Hr in H. injection H as <-. apply elem_of_difference. by rewrite elem_of_singleton.
  - destruct Hw as [W1 W2 W3 W4]. split; cbn; [done| |done|intros _; apply W4; unfold ws_left; by rewrite Hr].
    intros t p H Hc. destruct (W2 _ _ H Hc) as [|[Hd|[(ts & Hd & Hi)|Hd]]]; [by left|congruence| |right; right; by right].
    rewrite Hr in Hd. injection Hd as <-. by apply elem_of_empty in Hi.
  - same_ops.
  - by apply wfWs_phase.
Qed.

Lemma reached_wf s : rtc wsStep newSession s -> wfWs s.
Proof.
  apply (rtc_ind_r (fun s => wfWs s)).
  - split; cbn; try done; by intros * H; rewrite lookup_empty in H.
  - intros y z _ Hs Hw. by eapply wsStep_wf.
Qed.

(** Who is about to cancel can: nothing blocks the call. *)
Lemma doomed_cancels s t : doomed s t -> exists s', wsStep s s' /\ t ∈ ws_cancelled s'.
Proof.
  intros [H|[(ts & H & Hi)|(u & id & H)]]; eexists; (split; [by econstructor|]); cbn; set_solver.
Qed.

(** ** The messages *)

Definition isAck (m : wsMessage) : bool := String.eqb (wm_Type m) wsConnectionAck.
Definition isData (m : wsMessage) : Prop := wm_Type m = wsNext \/ wm_Type m = wsComplete \/ wm_Type m = wsErrorMsg.
Definition acked (l : list wsMessage) : Prop := exists m, m ∈ l /\ isAck m = true.
Definition subscribed (id : string) (s : wsSession) : Prop :=
  exists m, m ∈ ws_in s /\ wm_Type m = wsSubscribe /\ wm_ID m = id /\ id <> "".

Record wfLog (s : wsSession) : Prop := {
  wl_ready : ws_inited s = true -> ws_left s = false -> acked (ws_sent s);
  wl_procs t p : ws_procs s !! t = Some p -> acked (ws_sent s) /\ subscribed (opID p) s;
  wl_data l1 m l2 : ws_sent s = l1 ++ m :: l2 -> isData m -> acked l1 /\ subscribed (wm_ID m) s;
  wl_one : (length (List.filter isAck (ws_sent s)) <= if ws_inited s then 1 else 0)%nat
}.

(** Steps that send nothing: more may have been received, operations may be gone. *)
Record quieter (s s' : wsSession) : Prop := {
  qt_in : ws_in s ⊆ ws_in s';
  qt_sent : ws_sent s' = ws_sent s;
  qt_inited : ws_inited s' = ws_inited s;
  qt_left : ws_left s = true -> ws_left s' = true;
  qt_procs t p : ws_procs s' !! t = Some p -> exists p', ws_procs s !! t = Some p' /\ opID p' = opID p
}.

Lemma subscribed_mono id s s' : ws_in s ⊆ ws_in s' -> subscribed id s -> subscribed id s'.
Proof. intros H (m & Hm & Hs). exists m. split; [by apply H|done]. Qed.

Lemma wfLog_quieter s s' : quieter s s' -> wfLog s -> wfLog s'.
Proof.
  intros [Q1 Q2 Q3 Q4 Q5] [L1 L2 L3 L4]. split; rewrite ?Q2, ?Q3.
  - intros Hi Hr. apply L1; [done|]. apply not_true_is_false. intros H. rewrite (Q4 H) in Hr. done.
  - intros t p (p' & H & <-)%Q5. destruct (L2 _ _ H). split; [done|by eapply subscribed_mono].
  - intros l1 m l2 E Hm. destruct (L3 _ _ _ E Hm). split; [done|by eapply subscribed_mono].
  - done.
Qed.

Lemma quieter_same s s' : ws_in s ⊆ ws_in s' -> ws_sent s' = ws_sent s -> ws_inited s' = ws_inited s ->
  (ws_left s = true -> ws_left s' = true) -> ws_procs s' = ws_procs s -> quieter s s'.
Proof. intros H1 H2 H3 H4 H5. split; try done. intros t p. rewrite H5. intros H. by exists p. Qed.

Lemma quieter_refl s : quieter s s.
Proof. by apply quieter_same. Qed.
Lemma quieter_trans s1 s2 s3 : quieter s1 s2 -> quieter s2 s3 -> quieter s1 s3.
Proof.
  intros [Q1 Q2 Q3 Q4 Q5] [R1 R2 R3 R4 R5]. split.
  - by etrans.
  - by rewrite R2.
  - by rewrite R3.
  - auto.
  - intros t p (p' & (p'' & H & E)%Q5 & E')%R5. exists p''. split; [done|by rewrite E].
Qed.

Lemma quieter_complete id s : ws_reader s = RdLoop -> quieter s (onComplete id s).
Proof.
  intros Hr. unfold onComplete, stopOp. destruct (ws_ops s !! id); [|apply quieter_refl].
  apply quieter_same; try done. unfold ws_left. by rewrite Hr.
Qed.
Lemma quieter_return s : quieter s (runReturn s).
Proof. by apply quieter_same. Qed.
Lemma quieter_close c s : quieter s (wsClose c s).
Proof. by apply quieter_same. Qed.
Lemma quieter_log m s : quieter s (log_in m s).
Proof. apply quieter_same; try done. intros x Hx. apply elem_of_app. by left. Qed.
Lemma quieter_phase t id s : ws_procs s !! t = Some (OpRunning id) -> quieter s (set_procs (<[t := OpEnding id]> (ws_procs s)) s).
Proof.
  intros Hp. split; try done. cbn. intros t' p [[<- <-]|[Hn H]]%lookup_insert_Some; [by exists (OpRunning id)|by exists p].
Qed.
Lemma quieter_delete t s : quieter s (set_procs (delete t (ws_procs s)) s).
Proof. split; try done. cbn. intros t' p [Hn H]%lookup_delete_Some. by exists p. Qed.
Lemma quieter_stops t id s : ws_procs s !! t = Some (OpEnding id) -> quieter s (opStops t id s).
Proof.
  intros Hp. unfold opStops, stopOp. destruct (ws_ops s !! id); [|apply quieter_delete]. split; try done. cbn.
  intros t' p [[<- <-]|[Hn H]]%lookup_insert_Some; [by exists (OpEnding id)|by exists p].
Qed.

(** A message of an operation, and a message of neither kind. *)
Lemma wfLog_write ok m s : wfLog s -> isAck m = false -> (isData m -> acked (ws_sent s) /\ subscribed (wm_ID m) s) ->
  wfLog (wsWrite ok m s).2.
Proof.
  intros Hl Ha Hd. unfold wsWrite. destruct (ok && _); [|done]. destruct Hl as [L1 L2 L3 L4].
  assert (forall l, acked l -> acked (l ++ [m])) as Hmono.
  { intros l (x & Hx & Hk). exists x. split; [apply elem_of_app; by left|done]. }
  split; cbn.
  - intros Hi Hr. by apply Hmono, L1.
  - intros t p H. destruct (L2 _ _ H). split; [by apply Hmono|done].
  - intros l1 x l2 E Hx. destruct l2 as [|y l2 _] using rev_ind.
    + apply app_inj_tail in E as [<- <-]. by apply Hd.
    + rewrite app_comm_cons, app_assoc in E. apply app_inj_tail in E as [E _]. by eapply L3.
  - rewrite List.filter_app. cbn. rewrite Ha, app_nil_r. exact L4.
Qed.

Lemma wfLog_startOp payloadOk ok m s : wfLog s -> ws_inited s = true -> ws_left s = false ->
  m ∈ ws_in s -> wm_Type m = wsSubscribe -> wm_ID m <> "" -> wfLog (startOp payloadOk ok m s).
Proof.
  intros Hl Hi Hr Hm Ht Hd. assert (subscribed (wm_ID m) s) as Hs by by exists m. pose proof (wl_ready _ Hl Hi Hr) as Ha.
  unfold startOp. destruct (negb payloadOk); [by apply wfLog_write|]. destruct (ws_ops s !! wm_ID m); [by eapply wfLog_quieter, Hl; apply quieter_close|].
  destruct Hl as [L1 L2 L3 L4]. split; cbn; [done| |done|done].
  intros t p [[<- <-]|[Hn H]]%lookup_insert_Some; [done|by apply (L2 t)].
Qed.

Lemma wfLog_init ok s : wfLog s -> ws_inited s = false ->
  wfLog (let '(written, s') := wsWrite ok (mkWsMessage "" wsConnectionAck "") (set_inited s) in if written then s' else runReturn s').
Proof.
  intros [L1 L2 L3 L4] Hi. unfold wsWrite. rewrite Hi in L4. destruct (ok && _).
  - assert (forall l, acked (l ++ [mkWsMessage "" wsConnectionAck ""])) as Hk.
    { intros l. eexists. split; [apply elem_of_app; right; by left|done]. }
    split; cbn.
    + intros _ _. apply Hk.
    + intros t p H. destruct (L2 _ _ H). split; [apply Hk|done].
    + intros l1 x l2 E Hx. destruct l2 as [|y l2 _] using rev_ind.
      * apply app_inj_tail in E as [_ <-]. by destruct Hx as [|[|]].
      * rewrite app_comm_cons, app_assoc in E. apply app_inj_tail in E as [E _]. by eapply L3.
    + rewrite List.filter_app, length_app. cbn. lia.
  - split; cbn; [done|exact L2|exact L3|lia].
Qed.

Lemma wfLog_frame payloadOk ok f s : ws_reader s = RdLoop -> wfLog s -> wfLog (onFrame payloadOk ok f s).
Proof.
  intros Hr Hw.
  assert (forall c s, quieter s (runReturn (wsClose c s))) as Hc.
  { intros c s0. eapply quieter_trans; [apply quieter_close|apply quieter_return]. }
  destruct f as [| | |m]; cbn [onFrame]; try (eapply wfLog_quieter, Hw; apply Hc || apply quieter_return).
  pose proof (wfLog_quieter _ _ (quieter_log m s) Hw) as Hl. assert (m ∈ ws_in (log_in m s)) as Hm by (apply elem_of_app; right; by left).
  destruct (String.eqb (wm_Type m) wsConnectionInit).
  { destruct (ws_inited (log_in m s)) eqn:Ei; [eapply wfLog_quieter, Hl; apply Hc|by apply wfLog_init]. }
  destruct (String.eqb (wm_Type m) wsPing); [by apply wfLog_write; [| |intros [|[|]]]|]. destruct (String.eqb (wm_Type m) wsPong); [done|].
  destruct (String.eqb_spec (wm_Type m) wsSubscribe) as [Es|_].
  { destruct (ws_inited (log_in m s)) eqn:Ei; cbn [negb]; [|eapply wfLog_quieter, Hl; apply Hc].
    destruct (String.eqb_spec (wm_ID m) ""); [eapply wfLog_quieter, Hl; apply Hc|].
    apply wfLog_startOp; try done. unfold ws_left. cbn. by rewrite Hr. }
  destruct (String.eqb (wm_Type m) wsComplete); eapply wfLog_quieter, Hl; [by apply quieter_complete|apply Hc].
Qed.

Lemma wsStep_log s s' : wsStep s s' -> wfLog s -> wfLog s'.
Proof.
  intros Hstep Hw. destruct Hstep as [s f po ok Hr Hc|s Ht Hr|s Ht Hr|s Ht|s t id Hp Hc|s t id payload ok Hp|s t id Hp
    |s t id ok Hp|s t id Hp|s t id t' Hp|s t Hr|s ts t Hr Ht|s Hr|s Ht|s t id Hp].
  - by apply wfLog_frame.
  - eapply wfLog_quieter, Hw. by apply quieter_same.
  - eapply wfLog_quieter, Hw. by apply quieter_same.
  - eapply wfLog_quieter, Hw. by apply quieter_same.
  - eapply wfLog_quieter, Hw. by apply quieter_phase.
  - destruct (wl_procs _ Hw _ _ Hp) as [Ha Hs].
    pose proof (wfLog_write ok (mkWsMessage id wsNext payload) s Hw eq_refl (fun _ => conj Ha Hs)) as H2.
    pose proof (sameOps_write ok (mkWsMessage id wsNext payload) s) as (_ & _ & E & _).
    destruct (wsWrite ok _ s) as [[] s']; [done|]. cbn in E. eapply wfLog_quieter, H2. apply quieter_phase. cbn. by rewrite E.
  - done.
  - destruct (wl_procs _ Hw _ _ Hp) as [Ha Hs].
    pose proof (wfLog_write ok (mkWsMessage id wsComplete "") s Hw eq_refl (fun _ => conj Ha Hs)) as H2.
    pose proof (sameOps_write ok (mkWsMessage id wsComplete "") s) as (_ & _ & E & _).
    eapply wfLog_quieter, H2. apply quieter_phase. by rewrite E.
  - eapply wfLog_quieter, Hw. by apply quieter_stops.
  - eapply wfLog_quieter, Hw. apply (quieter_trans _ (cancelOp t' s)); [by apply quieter_same|].
    apply (quieter_delete t (cancelOp t' s)).
  - eapply wfLog_quieter, Hw. apply quieter_same; try done. unfold ws_left. by rewrite Hr.
  - eapply wfLog_quieter, Hw. by apply quieter_same.
  - eapply wfLog_quieter, Hw. by apply quieter_same.
  - eapply wfLog_quieter, Hw. by apply quieter_same.
  - eapply wfLog_quieter, Hw. by apply quieter_phase.
Qed.

Lemma reached_log s : rtc wsStep newSession s -> wfLog s.
Proof.
  apply (rtc_ind_r (fun s => wfLog s)).
  - split; cbn; [done| |intros [] ? ? ?; done|done]. intros t p H. by rewrite lookup_empty in H.
  - intros y z _ Hs Hw. by eapply wsStep_log.
Qed.

(** C18: In every state a session reaches, under any interleaving of the read
    loop, the timer and the operations and whatever writes fail: a goroutine whose
    operation is not cancelled is the one the table has for its id, or somebody
    has taken its cancel function from the table and is about to call it, which
    nothing can block; so of the goroutines of one id at most one is neither
    cancelled nor about to be; the table names only goroutines that have not
    ended; once the read loop has left, the table is empty and every operation is
    cancelled or about to be, after its return by an ending goroutine only; at
    most one acknowledgement is ever sent; and a result, error or completion is
    sent only after it, for an id the client subscribed with. *)
Theorem ws_session_safe s : rtc wsStep newSession s ->
  (forall t p, ws_procs s !! t = Some p -> t ∉ ws_cancelled s -> ws_ops s !! opID p = Some t \/ doomed s t)
  /\ (forall t, doomed s t -> exists s', wsStep s s' /\ t ∈ ws_cancelled s')
  /\ (forall t1 t2 p1 p2, ws_procs s !! t1 = Some p1 -> ws_procs s !! t2 = Some p2 -> opID p1 = opID p2 ->
       t1 ∉ ws_cancelled s -> ~ doomed s t1 -> t2 ∉ ws_cancelled s -> ~ doomed s t2 -> t1 = t2)
  /\ (forall id t, ws_ops s !! id = Some t -> exists p, ws_procs s !! t = Some p /\ atWork id p)
  /\ (ws_left s = true -> ws_ops s = ∅ /\ forall t p, ws_procs s !! t = Some p -> t ∈ ws_cancelled s \/ doomed s t)
  /\ (ws_returned s = true -> forall t p, ws_procs s !! t = Some p ->
       t ∈ ws_cancelled s \/ exists u id, ws_procs s !! u = Some (OpCancelling id t))
  /\ (length (List.filter isAck (ws_sent s)) <= 1)%nat
  /\ forall l1 m l2, ws_sent s = l1 ++ m :: l2 -> isData m ->
       (exists a, a ∈ l1 /\ wm_Type a = wsConnectionAck)
       /\ exists m', m' ∈ ws_in s /\ wm_Type m' = wsSubscribe /\ wm_ID m' = wm_ID m /\ wm_ID m <> "".
Proof.
  intros Hs. pose proof (reached_wf s Hs) as [W1 W2 _ W4]. pose proof (reached_log s Hs) as [_ _ L3 L4].
  assert (ws_left s = true -> forall t p, ws_procs s !! t = Some p -> t ∈ ws_cancelled s \/ doomed s t) as Hall.
  { intros Hr t p Hp. destruct (decide (t ∈ ws_cancelled s)) as [|Hn]; [by left|]. right.
    destruct (W2 _ _ Hp Hn) as [Ho|]; [|done]. rewrite (W4 Hr) in Ho. by rewrite lookup_empty in Ho. }
  split; [exact W2|]. split; [apply doomed_cancels|]. split; [|split; [exact W1|split; [|split; [|split]]]].
  - intros t1 t2 p1 p2 H1 H2 E C1 D1 C2 D2. destruct (W2 _ _ H1 C1) as [O1|]; [|done]. destruct (W2 _ _ H2 C2) as [O2|]; [|done].
    rewrite E in O1. congruence.
  - intros Hr. split; [by apply W4|by apply Hall].
  - unfold ws_returned. intros Hr t p Hp. destruct (ws_reader s) eqn:Er; try done.
    destruct (Hall ltac:(unfold ws_left; by rewrite Er) _ _ Hp) as [|[Hd|[(ts & Hd & _)|Hd]]]; [by left|congruence|congruence|by right].
  - destruct (ws_inited s); lia.
  - intros l1 m l2 E Hm. destruct (L3 _ _ _ E Hm) as [(a & Ha & Hk) Hsub]. split; [|exact Hsub].
    exists a. split; [done|]. by apply String.eqb_eq.
Qed.

(** ** An id used again *)

Module WsDemo.
Definition msg (t id : string) : frame := FMessage (mkWsMessage id t "").
Definition sub (s : wsSession) : wsSession := onFrame true true (msg wsSubscribe "1") s.
Definition ready : wsSession := onFrame true true (msg wsConnectionInit "") newSession.
Definition completed : wsSession := onFrame true true (msg wsComplete "1") (sub ready).
Definition again : wsSession := sub (set_reader RdLoop (cancelOp 0 completed)).
(** The goroutine of the first operation sees its context, ends, and takes the
    second operation from the table. *)
Definition ending : wsSession := set_procs (<[0%nat := OpEnding "1"]> (ws_procs again)) again.
Definition taking : wsSession := opStops 0 "1" ending.
Definition stopped : wsSession := set_procs (delete 0%nat (ws_procs taking)) (cancelOp 1 taking).
(** Before it calls cancel, the client subscribes a third time. *)
Definition third : wsSession := sub taking.
End WsDemo.

Lemma demo_frame s f : ws_reader s = RdLoop -> ws_closed s = None -> wsStep s (onFrame true true f s).
Proof. intros Hr Hc. apply WsFrame; [done|]. by rewrite Hc. Qed.

Lemma demo_again : rtc wsStep newSession WsDemo.again.
Proof.
  eapply rtc_l; [apply (demo_frame newSession (WsDemo.msg wsConnectionInit "")); reflexivity|].
  eapply rtc_l; [apply (demo_frame WsDemo.ready (WsDemo.msg wsSubscribe "1")); reflexivity|].
  eapply rtc_l; [apply (demo_frame (WsDemo.sub WsDemo.ready) (WsDemo.msg wsComplete "1")); reflexivity|].
  eapply rtc_l; [apply (WsStopped WsDemo.completed 0); reflexivity|].
  apply rtc_once, (demo_frame (set_reader RdLoop (cancelOp 0 WsDemo.completed)) (WsDemo.msg wsSubscribe "1")); reflexivity.
Qed.

Lemma demo_taking : rtc wsStep newSession WsDemo.taking.
Proof.
  etrans; [exact demo_again|].
  eapply rtc_l; [apply (WsOpDone WsDemo.again 0%nat "1"); [reflexivity|left; apply (bool_decide_unpack _); vm_compute; exact I]|].
  apply rtc_once. apply (WsOpStops WsDemo.ending 0%nat "1"). reflexivity.
Qed.

Lemma demo_stopped : rtc wsStep newSession WsDemo.stopped.
Proof. eapply rtc_r; [exact demo_taking|]. apply (WsOpCancels WsDemo.taking 0%nat "1" 1%nat). reflexivity. Qed.

Lemma demo_third : rtc wsStep newSession WsDemo.third.
Proof. eapply rtc_r; [exact demo_taking|]. apply (demo_frame WsDemo.taking (WsDemo.msg wsSubscribe "1")); reflexivity. Qed.

(** A client that completes a subscription and subscribes again with the same
    id can be left without it: there is a state with the connection open and
    acknowledged in which its last message was the second subscribe, no result,
    error or completion was sent, and yet the new operation is cancelled and gone
    from the table - by the goroutine of the first operation, whose deferred
    stopOp goes by the id. *)
Theorem resubscription_cancelled : exists s id t,
  rtc wsStep newSession s
  /\ (fun m => (wm_Type m, wm_ID m)) <$> ws_in s = [(wsConnectionInit, ""); (wsSubscribe, id); (wsComplete, id); (wsSubscribe, id)]
  /\ wm_Type <$> ws_sent s = [wsConnectionAck]
  /\ ws_closed s = None /\ ws_reader s = RdLoop
  /\ ws_procs s !! t = Some (OpRunning id) /\ t ∈ ws_cancelled s /\ ws_ops s !! id = None.
Proof.
  exists WsDemo.stopped, "1", 1%nat. split; [exact demo_stopped|]. repeat (split; [reflexivity|]). reflexivity.
Qed.

(** The entry leaves the table before its context is cancelled: in between, the
    client's third subscribe with the id is accepted, and two goroutines forward
    results for it, neither cancelled. *)
Theorem two_operations_of_one_id : exists s id t1 t2,
  rtc wsStep newSession s /\ ws_closed s = None /\ ws_reader s = RdLoop /\ t1 <> t2
  /\ ws_procs s !! t1 = Some (OpRunning id) /\ t1 ∉ ws_cancelled s /\ doomed s t1
  /\ ws_procs s !! t2 = Some (OpRunning id) /\ t2 ∉ ws_cancelled s /\ ws_ops s !! id = Some t2.
Proof.
  exists WsDemo.third, "1", 1%nat, 2%nat. split; [exact demo_third|]. split; [reflexivity|]. split; [reflexivity|]. split; [done|].
  split; [reflexivity|]. split; [apply (bool_decide_unpack _); vm_compute; exact I|].
  split; [right; right; exists 0%nat, "1"; reflexivity|].
  split; [reflexivity|]. split; [apply (bool_decide_unpack _); vm_compute; exact I|reflexivity].
Qed.

Lemma ws_session_safe_witness :
  ws_ops WsDemo.third !! "1" = Some 2%nat /\ (length (List.filter isAck (ws_sent WsDemo.third)) <= 1)%nat
  /\ forall t p, ws_procs WsDemo.third !! t = Some p -> t ∉ ws_cancelled WsDemo.third ->
       ws_ops WsDemo.third !! opID p = Some t \/ doomed WsDemo.third t.
Proof.
  destruct (ws_session_safe WsDemo.third demo_third) as (H1 & _ & _ & _ & _ & _ & H4 & _).
  split; [reflexivity|]. split; [exact H4|exact H1].
Defined.
