(* ===== verification/Oidc.v ===== *)
(** * internal/oidc and the sign-in handlers of internal/api

    oidc.go: discovery, the authorization URL, the code exchange, the key set with
    its refresh and the verification of ID tokens.  auth_oidc.go: the /auth
    handlers, the cookies, and the role resolver over the user tables.
    internal/auth: the session tokens.  Parameters: the HTTP exchanges (with the
    decoding of their bodies), the jwt library and the random bytes. *)

From S2P Require Import Prelude GoBytes GoUrl GoRegexp GoStrings GoFmt Model Effects Auth Rest.

(** ** oidc.go *)

Record Config := mkConfig {
  cf_IssuerURL : string;
  cf_ClientID : string;
  cf_ClientSecret : string;
  cf_RedirectURL : string;
  cf_Scopes : list string
}.

Record discoveryDoc := mkDiscovery {
  dd_Issuer : string;
  dd_AuthEndpoint : string;
  dd_TokenEndpoint : string;
  dd_JWKSURI : string
}.

(** The key set, which changes, is kept apart. *)
Record Provider := mkProvider {
  pv_cfg : Config;
  pv_issuer : string;
  pv_authURL : string;
  pv_tokenURL : string;
  pv_jwksURI : string
}.

Record IDClaims := mkIDClaims {
  ic_Subject : string;
  ic_Email : string;
  ic_EmailVerified : bool
}.

(** What came of an HTTP exchange: a transport error, or the status with what the
    decoder makes of the body. *)
Abbreviation response A := (result (Z * result A)) (only parsing).

Definition getJSON {A} (resp : response A) : result A :=
  match resp with
  | Err e => Err e
  | Ok (status, body) => if negb (status =? 200) then Err (ErrText "GET: unexpected status") else body
  end.

Definition wrapR {A} (msg : string) (r : result A) : result A :=
  match r with Ok a => Ok a | Err e => Err (ErrWrap msg e) end.

Definition defaultScopes : list string := ["openid"; "email"; "profile"].

Definition withScopes (cfg : Config) : Config :=
  match cf_Scopes cfg with
  | [] => mkConfig (cf_IssuerURL cfg) (cf_ClientID cfg) (cf_ClientSecret cfg) (cf_RedirectURL cfg) defaultScopes
  | _ => cfg
  end.

Definition wellKnown (issuerURL : string) : string := trimRightSlash issuerURL +:+ "/.well-known/openid-configuration".

Definition NewProvider (get : string -> response discoveryDoc) (cfg : Config) : result Provider :=
  if String.eqb (cf_IssuerURL cfg) "" || String.eqb (cf_ClientID cfg) "" then
    Err (ErrText "oidc: IssuerURL and ClientID are required")
  else
    let cfg := withScopes cfg in
    match wrapR "oidc: discovery" (getJSON (get (wellKnown (cf_IssuerURL cfg)))) with
    | Err e => Err e
    | Ok doc =>
        if String.eqb (dd_AuthEndpoint doc) "" || String.eqb (dd_TokenEndpoint doc) "" || String.eqb (dd_JWKSURI doc) "" then
          Err (ErrText "oidc: discovery document missing required endpoints")
        else
          let issuer := if String.eqb (dd_Issuer doc) "" then trimRightSlash (cf_IssuerURL cfg) else dd_Issuer doc in
          Ok (mkProvider cfg issuer (dd_AuthEndpoint doc) (dd_TokenEndpoint doc) (dd_JWKSURI doc))
    end.

(** [url.Values.Set] *)
Definition setValue (k x : string) (v : gmap string (list string)) : gmap string (list string) := <[k := [x]]> v.

Definition authValues (p : Provider) (state nonce : string) : gmap string (list string) :=
  setValue "nonce" nonce (setValue "state" state (setValue "scope" (String.concat " " (cf_Scopes (pv_cfg p)))
    (setValue "redirect_uri" (cf_RedirectURL (pv_cfg p)) (setValue "client_id" (cf_ClientID (pv_cfg p))
      (setValue "response_type" "code" ∅))))).

Definition AuthCodeURL (p : Provider) (state nonce : string) : string :=
  pv_authURL p +:+ "?" +:+ Encode (authValues p state nonce).

Record tokenResponse := mkTokenResponse {
  tr_IDToken : string;
  tr_Error : string;
  tr_ErrorDesc : string
}.

Definition tokenForm (p : Provider) (code : string) : gmap string (list string) :=
  let form := setValue "client_id" (cf_ClientID (pv_cfg p)) (setValue "redirect_uri" (cf_RedirectURL (pv_cfg p))
    (setValue "code" code (setValue "grant_type" "authorization_code" ∅))) in
  if negb (String.eqb (cf_ClientSecret (pv_cfg p)) "") then setValue "client_secret" (cf_ClientSecret (pv_cfg p)) form else form.

(** [newRequest] is given the URL, [post] the URL and the body. *)
Definition Exchange (newRequest : string -> result unit) (post : string -> string -> response tokenResponse)
    (p : Provider) (code : string) : result string :=
  let form := Encode (tokenForm p code) in
  match newRequest (pv_tokenURL p) with
  | Err e => Err e
  | Ok _ =>
      match wrapR "oidc: token request" (post (pv_tokenURL p) form) with
      | Err e => Err e
      | Ok (status, body) =>
          match wrapR "oidc: decode token response" body with
          | Err e => Err e
          | Ok tr =>
              if negb (String.eqb (tr_Error tr) "") then
                Err (ErrText ("oidc: token endpoint error: " +:+ tr_Error tr +:+ ": " +:+ tr_ErrorDesc tr))
              else if negb (status =? 200) || String.eqb (tr_IDToken tr) "" then
                Err (ErrText "oidc: token endpoint returned no id_token")
              else Ok (tr_IDToken tr)
          end
      end
  end.

(** ** Keys *)

(** [rsa.PublicKey] *)
Record rsaKey := mkRsaKey {
  rk_N : Z;
  rk_E : Z
}.

#[export] Instance rsaKey_eq_dec : EqDecision rsaKey.
Proof. solve_decision. Defined.

Record jwk := mkJwk {
  jk_Kty : string;
  jk_Kid : string;
  jk_N : string;
  jk_E : string
}.

(** [new(big.Int).SetBytes] *)
Definition setBytes (l : list Z) : Z := foldl (fun n b => 256 * n + b) 0 l.

(** [e = e<<8 | int(b)] on a 64-bit int. *)
Definition shiftIn (e b : Z) : Z := Z.lor (wrap64 (Z.shiftl e 8)) b.

Definition rsaPublicKey (j : jwk) : result rsaKey :=
  match DecodeString URL (jk_N j), DecodeString URL (jk_E j) with
  | Some nb, Some eb =>
      let e := foldl shiftIn 0 eb in
      if e =? 0 then Err (ErrText "oidc: zero RSA exponent") else Ok (mkRsaKey (setBytes nb) e)
  | _, _ => Err (ErrText "illegal base64 data")
  end.

Abbreviation keySet := (gmap string rsaKey) (only parsing).

Definition addJwk (next : keySet) (key : jwk) : keySet :=
  if negb (String.eqb (jk_Kty key) "RSA") then next
  else match rsaPublicKey key with
       | Err _ => next
       | Ok pk => <[jk_Kid key := pk]> next
       end.

(** [refreshLocked]: the error, if any, and the key set afterwards. *)
Definition refreshLocked (fetch : response (list jwk)) (k : keySet) : result unit * keySet :=
  match wrapR "oidc: fetch jwks" (getJSON fetch) with
  | Err e => (Err e, k)
  | Ok doc =>
      let next := foldl addJwk ∅ doc in
      if Nat.eqb (size next) 0 then (Err (ErrText "oidc: jwks contained no usable RSA keys"), k)
      else (Ok tt, next)
  end.

(** The only key of a set. *)
Definition onlyKey (k : keySet) : option rsaKey :=
  match map_to_list k with [(_, pk)] => Some pk | _ => None end.

(** [keySet.key], under its mutex. *)
Definition keyFor (fetch : response (list jwk)) (kid : string) (k : keySet) : result rsaKey * keySet :=
  match k !! kid with
  | Some pk => (Ok pk, k)
  | None =>
      match refreshLocked fetch k with
      | (Err e, k') => (Err e, k')
      | (Ok _, k') =>
          match k' !! kid with
          | Some pk => (Ok pk, k')
          | None =>
              match (if String.eqb kid "" then onlyKey k' else None) with
              | Some pk => (Ok pk, k')
              | None => (Err (ErrText ("oidc: no signing key for kid " +:+ kid)), k')
              end
          end
      end
  end.

(** ** ID tokens *)

Record idTokenClaims := mkIDToken {
  it_Issuer : string;
  it_Subject : string;
  it_Audience : list string;
  it_ExpiresAt : option Z;
  it_Email : string;
  it_EmailVerified : bool;
  it_Nonce : string
}.

Section verify.
(** The two halves of [jwt.ParseWithClaims] around the call of the key function:
    the header of a well-formed RS256 token (its kid, empty when there is none),
    and signature, issuer, audience and times of the token under the key. *)
Context (parseHeader : string -> result string)
        (checkToken : string -> rsaKey -> string -> string -> Z -> result idTokenClaims).

Definition VerifyIDToken (p : Provider) (fetch : response (list jwk)) (now : Z) (raw expectedNonce : string)
    (k : keySet) : result IDClaims * keySet :=
  match parseHeader raw with
  | Err e => (Err (ErrWrap "oidc: verify id token" e), k)
  | Ok kid =>
      match keyFor fetch kid k with
      | (Err e, k') => (Err (ErrWrap "oidc: verify id token" e), k')
      | (Ok pk, k') =>
          (match checkToken raw pk (pv_issuer p) (cf_ClientID (pv_cfg p)) now with
           | Err e => Err (ErrWrap "oidc: verify id token" e)
           | Ok c =>
               if negb (String.eqb expectedNonce "") && negb (String.eqb (it_Nonce c) expectedNonce) then
                 Err (ErrText "oidc: nonce mismatch")
               else if String.eqb (it_Subject c) "" then Err (ErrText "oidc: id token has no subject")
               else Ok (mkIDClaims (it_Subject c) (it_Email c) (it_EmailVerified c))
           end, k')
      end
  end.
End verify.

(** ** Session tokens *)

Record JWTIssuer := mkJWTIssuer {
  ji_Secret : string;
  ji_TTL : Z;
  ji_Issuer : string
}.

(** Times in nanoseconds. *)
Record Claims := mkClaims {
  cl_Issuer : string;
  cl_Subject : string;
  cl_IssuedAt : Z;
  cl_ExpiresAt : Z;
  cl_Email : string;
  cl_Roles : list string
}.

(** The jwt library: [jwt.NewNumericDate], signing under HS256, and parsing at a
    time. *)
Record JwtLib := mkJwtLib {
  jl_NumericDate : Z -> Z;
  jl_SignedString : string -> Claims -> result string;
  jl_Parse : string -> Z -> string -> result Claims
}.

Section tokens.
Context (lib : JwtLib) (j : JWTIssuer).

Definition Issue (now : Z) (userID email : string) (roles : list Role) : result string :=
  jl_SignedString lib (ji_Secret j)
    (mkClaims (ji_Issuer j) userID (jl_NumericDate lib now) (jl_NumericDate lib (now + ji_TTL j)) email roles).

Definition Verify (now : Z) (raw : string) : result Principal :=
  match jl_Parse lib (ji_Secret j) now raw with
  | Err e => Err e
  | Ok c => Ok (mkPrincipal (cl_Subject c) (cl_Email c) "" (cl_Roles c) [] false)
  end.
End tokens.

(** ** The role resolver *)

Record user_row := mkUserRow {
  u_email : string;
  u_display_name : string;
  u_oidc_subject : option string;
  u_active : bool;
  u_digest_opt_out : bool;
  u_updated_at : Z
}.

(** teo.users by id, and teo.user_roles: user, role, repository. *)
Record userTables := mkUserTables {
  ut_users : gmap string user_row;
  ut_roles : list (string * Role * option string)
}.

Definition userByEmail (email : string) (t : userTables) : option (string * user_row) :=
  List.find (fun kv => String.eqb (u_email kv.2) email) (map_to_list (ut_users t)).

(** Another user has the subject. *)
Definition subjectTaken (id : string) (subject : option string) (t : userTables) : bool :=
  match subject with
  | None => false
  | Some s => existsb (fun kv => negb (String.eqb kv.1 id) && bool_decide (u_oidc_subject kv.2 = Some s)) (map_to_list (ut_users t))
  end.

Definition nullIfEmpty (s : string) : option string := if String.eqb s "" then None else Some s.

(** [INSERT INTO teo.users .. ON CONFLICT (email) DO UPDATE .. RETURNING id]; [id]
    is the generated key. *)
Definition upsertUser (id : string) (now : Z) (email subject : string) (t : userTables) : result (string * userTables) :=
  let put id row := if subjectTaken id (u_oidc_subject row) t then Err uniqueViolation
                    else Ok (id, mkUserTables (<[id := row]> (ut_users t)) (ut_roles t)) in
  match userByEmail email t with
  | None => put id (mkUserRow email email (nullIfEmpty subject) true false now)
  | Some (id', u) =>
      let subject' := match u_oidc_subject u with Some s => Some s | None => nullIfEmpty subject end in
      put id' (mkUserRow (u_email u) (u_display_name u) subject' (u_active u) (u_digest_opt_out u) now)
  end.

(** [SELECT role FROM teo.user_roles WHERE user_id = $1 AND repo_id IS NULL] *)
Definition globalRoles (id : string) (t : userTables) : list Role :=
  omap (fun r => if String.eqb r.1.1 id && bool_decide (r.2 = None) then Some r.1.2 else None) (ut_roles t).

(** What goes wrong with the two statements, the generated key and the time. *)
Record resolverEnv := mkResolverEnv {
  re_upsert : Fault;
  re_query : Fault;
  re_id : string;
  re_now : Z
}.

Definition DBRoleResolver (env : resolverEnv) (email subject : string) (t : userTables) : result (list Role) * userTables :=
  if String.eqb email "" then (Ok [], t)
  else match re_upsert env with
  | FFail => (Err ErrTransport, t)
  | f =>
      match upsertUser (re_id env) (re_now env) email subject t with
      | Err e => (Err e, t)
      | Ok (id, t') =>
          match f, re_query env with
          | FNone, FNone => (Ok (globalRoles id t'), t')
          | _, _ => (Err ErrTransport, t')
          end
      end
  end.

(** ** Cookies and replies *)

(** All of them httpOnly and SameSite=Lax. *)
Record cookie := mkCookie {
  ck_Name : string;
  ck_Value : string;
  ck_Path : string;
  ck_Secure : bool;
  ck_MaxAge : Z
}.

Inductive webAnswer (B : Type) :=
  | WRedirect (url : string)
  | WReply (r : reply B).
Arguments WRedirect {B} url.
Arguments WReply {B} r.

Record webReply (B : Type) := mkWeb {
  wb_Cookies : list cookie;
  wb_Answer : webAnswer B
}.
Arguments mkWeb {B}.
Arguments wb_Cookies {B}.
Arguments wb_Answer {B}.

Definition webProblem {B} (status : Z) (title detail : string) : webReply B :=
  mkWeb [] (WReply (RProblem (mkProblem title status (DText detail) []))).

Definition stateCookie : string := "teo_oidc_state".
Definition nonceCookie : string := "teo_oidc_nonce".
Definition SessionCookie : string := "teo_session".
Definition flowTTL : Z := 600 * second.

(** The fields of the server the handlers use. *)
Record SignInConfig := mkSignIn {
  si_jwt : JWTIssuer;
  si_uiBaseURL : string;
  si_cookieSecure : bool
}.

(** [WithOIDC] *)
Definition WithOIDC (uiBaseURL : string) (s : SignInConfig) : SignInConfig :=
  mkSignIn (si_jwt s) uiBaseURL (hasPrefix (toText uiBaseURL) (toText "https")).

(** [int(d.Seconds())] *)
Definition secondsInt (d : Z) : Z := f64_trunc (Seconds d).

(** ** The handlers *)

Section handlers.
Context (s : SignInConfig).

Definition setSessionCookie (token : string) : cookie :=
  mkCookie SessionCookie token "/" (si_cookieSecure s) (secondsInt (ji_TTL (si_jwt s))).
Definition setFlowCookie (name value : string) : cookie := mkCookie name value "/auth" (si_cookieSecure s) (secondsInt flowTTL).
Definition clearCookie (name : string) : cookie :=
  mkCookie name "" (if String.eqb name stateCookie || String.eqb name nonceCookie then "/auth" else "/") (si_cookieSecure s) (-1).

Definition landing : string := if String.eqb (si_uiBaseURL s) "" then "/" else si_uiBaseURL s.

(** The interface oidcAuthenticator; the verification reads and refreshes the key
    set. *)
Record oidcAuthenticator := mkAuthenticator {
  oa_AuthCodeURL : string -> string -> string;
  oa_Exchange : string -> result string;
  oa_VerifyIDToken : string -> string -> gmap string rsaKey -> result IDClaims * gmap string rsaKey
}.

(** [randToken]; [None] when the random source fails. *)
Definition randToken (bytes : option (list Z)) : option string := EncodeToString URL <$> bytes.

(** [GET /auth/login] *)
Definition oidcLogin (oidc : option oidcAuthenticator) (rand1 rand2 : option (list Z)) : webReply unit :=
  match oidc with
  | None => webProblem 503 "SSO not configured" "set TEO_OIDC_ISSUER and TEO_OIDC_CLIENT_ID to enable sign-in"
  | Some oa =>
      match randToken rand1 with
      | None => webProblem 500 "Internal error" "could not start sign-in"
      | Some state =>
          match randToken rand2 with
          | None => webProblem 500 "Internal error" "could not start sign-in"
          | Some nonce =>
              mkWeb [setFlowCookie stateCookie state; setFlowCookie nonceCookie nonce] (WRedirect (oa_AuthCodeURL oa state nonce))
          end
      end
  end.

(** The query and the cookies of the callback; a missing parameter is empty. *)
Record callbackRequest := mkCallback {
  cb_error : string;
  cb_error_description : string;
  cb_code : string;
  cb_state : string;
  cb_stateCookie : option string;
  cb_nonceCookie : option string
}.

(** What the handlers share between requests. *)
Record authState := mkAuthState {
  as_keys : gmap string rsaKey;
  as_users : userTables
}.

Abbreviation RoleResolver := (string -> string -> userTables -> result (list Role) * userTables) (only parsing).

(** The roles of a session. *)
Definition resolveRoles (resolver : option RoleResolver) (claims : IDClaims) (t : userTables) : list Role * userTables :=
  match resolver with
  | None => ([RoleEngineer], t)
  | Some resolve =>
      match resolve (ic_Email claims) (ic_Subject claims) t with
      | (Ok (r :: rs), t') => (r :: rs, t')
      | (_, t') => ([RoleEngineer], t')
      end
  end.

(** [GET /auth/callback]; [issue] is [s.jwt.Issue]. *)
Definition oidcCallback (oidc : option oidcAuthenticator) (resolver : option RoleResolver)
    (issue : string -> string -> list Role -> result string) (r : callbackRequest) (st : authState) : webReply unit * authState :=
  match oidc with
  | None => (webProblem 503 "SSO not configured" "sign-in is disabled", st)
  | Some oa =>
      if negb (String.eqb (cb_error r) "") then
        (webProblem 401 "Sign-in failed" (cb_error r +:+ ": " +:+ cb_error_description r), st)
      else if String.eqb (cb_code r) "" || String.eqb (cb_state r) "" then
        (webProblem 400 "Bad callback" "missing code or state", st)
      else if negb (match cb_stateCookie r with Some v => negb (String.eqb v "") && String.eqb v (cb_state r) | None => false end) then
        (webProblem 400 "Bad callback" "state mismatch (possible CSRF or expired sign-in)", st)
      else
        let nonce := default "" (cb_nonceCookie r) in
        match oa_Exchange oa (cb_code r) with
        | Err _ => (webProblem 502 "Sign-in failed" "token exchange failed", st)
        | Ok raw =>
            match oa_VerifyIDToken oa raw nonce (as_keys st) with
            | (Err _, k) => (webProblem 401 "Sign-in failed" "could not verify identity token", mkAuthState k (as_users st))
            | (Ok claims, k) =>
                let '(roles, t) := resolveRoles resolver claims (as_users st) in
                let st' := mkAuthState k t in
                match issue (ic_Subject claims) (ic_Email claims) roles with
                | Err _ => (webProblem 500 "Internal error" "could not issue session", st')
                | Ok token =>
                    (mkWeb [setSessionCookie token; clearCookie stateCookie; clearCookie nonceCookie] (WRedirect landing), st')
                end
            end
        end
  end.

(** [POST /auth/logout] *)
Definition oidcLogout : webReply unit := mkWeb [clearCookie SessionCookie] (WRedirect landing).

Record sessionBody := mkSessionBody {
  sb_userId : string;
  sb_email : string;
  sb_roles : list string
}.

(** [GET /auth/session] *)
Definition session (p : option Principal) : webReply sessionBody :=
  match p with
  | None => webProblem 401 "Unauthorized" "not signed in"
  | Some p => mkWeb [] (WReply (RBody 200 (mkSessionBody (p_UserID p) (p_Email p) (p_Roles p))))
  end.

(** [POST /auth/refresh]; the body is expiresInSeconds. *)
Definition refresh (issue : string -> string -> list Role -> result string) (p : option Principal) : webReply Z :=
  match p with
  | None => webProblem 401 "Unauthorized" "not signed in"
  | Some p =>
      match issue (p_UserID p) (p_Email p) (p_Roles p) with
      | Err _ => webProblem 500 "Internal error" "could not refresh session"
      | Ok token => mkWeb [setSessionCookie token] (WReply (RBody 200 (secondsInt (ji_TTL (si_jwt s)))))
      end
  end.
End handlers.
