(* ===== verification/Digest.v ===== *)
(** * internal/digest

    The weekly digest: the statistics of each owner (digest.go), the two
    renderings, the senders (sender.go) and the pass over the repositories
    (runner.go).  The mail server, the Slack webhook and the opt-outs in
    repos.meta are parameters; the user table does not change during a pass. *)

From S2P Require Import Prelude GoSort GoBytes GoRegexp GoStrings GoFloat GoFmt Model Scheduler Db Effects Auth Oidc RunManager.
From S2P Require Import RunManagerProps.

(** ** Statistics *)

Record SlowTest := mkSlowTest {
  sl_Path : string;
  sl_Name : string;
  sl_AvgDurationMS : Z;
  sl_Runs : Z
}.

Record OwnerStats := mkOwnerStats {
  os_Owner : string;
  os_OwnedTests : Z;
  os_FlakyTests : Z;
  os_CIMinutes : float64;
  os_WoWDeltaPct : float64;
  os_SlowestTests : list SlowTest;
  os_GeneratedAt : Z;
  os_WeekStart : Z;
  os_WeekEnd : Z
}.

Definition hourMicros : Z := 3600 * 1000000.
Definition weekMicros : Z := 7 * 24 * hourMicros.

(** An execution with its test, as the joins put them together. *)
Record ownedExec := mkOwnedExec {
  oe_owner : string;
  oe_testRepo : string;
  oe_runRepo : string;
  oe_path : string;
  oe_name : string;
  oe_startedAt : Z;
  oe_durationMS : Z
}.

(** [teo.tests JOIN test_executions JOIN shards JOIN runs .. owner_team IS NOT NULL] *)
Definition ownedOf (db : DB) (kv : (string * string * Z) * exec_row) : option ownedExec :=
  match tests db !! kv.1.1.2, shards db !! kv.1.1.1 with
  | Some t, Some s =>
      match runs db !! s_run_id s, ts_owner_team t with
      | Some r, Some owner =>
          Some (mkOwnedExec owner (ts_repo_id t) (r_repo_id r) (ts_path t) (ts_name t) (ex_started_at kv.2) (ex_duration_ms kv.2))
      | _, _ => None
      end
  | _, _ => None
  end.

Definition ownedExecs (db : DB) : list ownedExec := omap (ownedOf db) (map_to_list (test_executions db)).

(** [BETWEEN] takes both ends. *)
Definition between (x from to : Z) : bool := (from <=? x) && (x <=? to).

Definition inWeek (repoID : string) (from to : Z) (e : ownedExec) : bool :=
  String.eqb (oe_runRepo e) repoID && between (oe_startedAt e) from to.

(** [GROUP BY owner_team]: count and sum of the durations. *)
Definition addToOwner (g : gmap string (Z * Z)) (e : ownedExec) : gmap string (Z * Z) :=
  let '(n, ms) := default (0, 0) (g !! oe_owner e) in <[oe_owner e := (n + 1, ms + oe_durationMS e)]> g.

Definition byOwner (l : list ownedExec) : gmap string (Z * Z) := foldl addToOwner ∅ l.

(** [sum(te.duration_ms)::float / 60000] *)
Definition minutesOf (ms : Z) : float64 := f64_div (f64_ofZ ms) (f64_ofZ 60000).

(** [fr.wilson_lower > 0.05] *)
Definition flakyTests (repoID owner : string) (db : DB) : Z :=
  Z.of_nat (length (List.filter (fun kv : string * flake_row =>
    match tests db !! kv.1 with
    | Some t => String.eqb (ts_repo_id t) repoID && bool_decide (ts_owner_team t = Some owner)
    | None => false
    end && (500 <? fr_wilson_lower kv.2)) (map_to_list (flake_records db)))).

(** A row of the query: owner, executions, flaky tests, minutes of this week and
    of the one before. *)
Definition ownerRow : Type := string * Z * Z * float64 * float64.

Definition selectWeek (repoID : string) (prevStart start stop : Z) (db : DB) : list ownerRow :=
  let this := byOwner (List.filter (inWeek repoID start stop) (ownedExecs db)) in
  let last := byOwner (List.filter (inWeek repoID prevStart start) (ownedExecs db)) in
  (fun kv : string * (Z * Z) =>
     (kv.1, kv.2.1, flakyTests repoID kv.1 db, minutesOf kv.2.2,
      match last !! kv.1 with Some p => minutesOf p.2 | None => f64_ofZ 0 end)) <$> map_to_list this.

(** [avg(..)::int], half away from zero. *)
Definition roundedAvg (sum n : Z) : Z :=
  if sum <? 0 then - ((2 * - sum + n) / (2 * n)) else (2 * sum + n) / (2 * n).

Definition addToTest (g : gmap (string * string) (Z * Z)) (e : ownedExec) : gmap (string * string) (Z * Z) :=
  let k := (oe_path e, oe_name e) in
  let '(n, ms) := default (0, 0) (g !! k) in <[k := (n + 1, ms + oe_durationMS e)]> g.

Definition slowerFirst (a b : SlowTest) : bool := sl_AvgDurationMS b <? sl_AvgDurationMS a.

Definition selectSlowest (repoID owner : string) (start stop : Z) (limit : nat) (db : DB) : list SlowTest :=
  let groups := foldl addToTest ∅ (List.filter (fun e => String.eqb (oe_testRepo e) repoID && String.eqb (oe_owner e) owner
      && between (oe_startedAt e) start stop) (ownedExecs db)) in
  take limit (SliceStable slowerFirst
    ((fun kv : (string * string) * (Z * Z) => mkSlowTest kv.1.1 kv.1.2 (roundedAvg kv.2.2 kv.2.1) kv.2.1) <$> map_to_list groups)).

Definition slowestTests (repoID owner : string) (start stop : Z) (limit : nat) : M (list SlowTest) :=
  poolExec (query (selectSlowest repoID owner start stop limit)).

(** [((this - prev) / prev) * 100], 0 without a previous week. *)
Definition weekOverWeek (this prev : float64) : float64 :=
  if f64_ltb (f64_ofZ 0) prev then f64_mul (f64_div (f64_sub this prev) prev) (f64_ofZ 100) else f64_ofZ 0.

Fixpoint buildRows (repoID : string) (start stop : Z) (rows : list ownerRow) (out : list OwnerStats) : M (list OwnerStats) :=
  match rows with
  | [] => retM out
  | (owner, owned, flaky, minutes, prev) :: rows' =>
      generated ←! getNow ;
      slow ←! tryM (slowestTests repoID owner start stop 3) ;
      buildRows repoID start stop rows'
        (out ++ [mkOwnerStats owner owned flaky minutes (weekOverWeek minutes prev)
                  (match slow with Ok l => l | Err _ => [] end) generated start stop])
  end.

Definition BuildAll (repoID : string) : M (list OwnerStats) :=
  now ←! getNow ;
  let stop := now - now mod hourMicros in
  let start := stop - weekMicros in
  let prevStart := start - weekMicros in
  rows ←! poolExec (query (selectWeek repoID prevStart start stop)) ;
  buildRows repoID start stop rows [].

(** ** Renderings *)

(** [Format("2006-01-02 15:04")] *)
Definition formatMinute (us : Z) : string :=
  let s := secondsOf us mod 86400 in
  formatDate us +:+ " " +:+ padded 2 (s / 3600) +:+ ":" +:+ padded 2 (s / 60 mod 60).

Definition zeroFloat (x : float64) : bool := negb (f64_ltb x (f64_ofZ 0)) && negb (f64_ltb (f64_ofZ 0) x).

Fixpoint slowLines (i : Z) (l : list SlowTest) : string :=
  match l with
  | [] => ""
  | t :: l' => "  " +:+ itoa i +:+ ". " +:+ sl_Path t +:+ "::" +:+ sl_Name t +:+ " — " +:+ itoa (sl_AvgDurationMS t)
      +:+ " ms avg (" +:+ itoa (sl_Runs t) +:+ " runs)" +:+ nl +:+ slowLines (i + 1) l'
  end.

Definition RenderText (s : OwnerStats) : string :=
  "Your TEO digest — " +:+ os_Owner s +:+ nl
  +:+ "Week of " +:+ formatDate (os_WeekStart s) +:+ " to " +:+ formatDate (os_WeekEnd s) +:+ nl +:+ nl
  +:+ "  " +:+ itoa (os_OwnedTests s) +:+ " tests owned" +:+ nl
  +:+ "  " +:+ itoa (os_FlakyTests s) +:+ " flaky" +:+ nl
  +:+ "  " +:+ fixed1 (os_CIMinutes s) +:+ " min CI consumed"
  +:+ (if zeroFloat (os_WoWDeltaPct s) then "" else
         " (" +:+ (if f64_ltb (os_WoWDeltaPct s) (f64_ofZ 0) then "" else "+") +:+ fixed1 (os_WoWDeltaPct s) +:+ "% WoW)")
  +:+ nl
  +:+ match os_SlowestTests s with
      | [] => ""
      | l => nl +:+ "Slowest tests:" +:+ nl +:+ slowLines 1 l
      end.

(** The escaper html/template puts on text: its replacement table. *)
Definition escapeChar (c : ascii) : string :=
  if Ascii.eqb c "034" then "&#34;"
  else if Ascii.eqb c "&" then "&amp;"
  else if Ascii.eqb c "'" then "&#39;"
  else if Ascii.eqb c "+" then "&#43;"
  else if Ascii.eqb c "<" then "&lt;"
  else if Ascii.eqb c ">" then "&gt;"
  else String c "".

Fixpoint htmlEscape (s : string) : string :=
  match s with EmptyString => "" | String c s' => escapeChar c +:+ htmlEscape s' end.

Fixpoint slowItems (l : list SlowTest) : string :=
  match l with
  | [] => ""
  | t :: l' => "<li><code>" +:+ htmlEscape (sl_Path t) +:+ "::" +:+ htmlEscape (sl_Name t) +:+ "</code> — "
      +:+ itoa (sl_AvgDurationMS t) +:+ " ms avg, " +:+ itoa (sl_Runs t) +:+ " runs</li>" +:+ nl +:+ slowItems l'
  end.

(** Between the [if] and its [end]. *)
Definition slowSection (l : list SlowTest) : string :=
  match l with
  | [] => ""
  | _ => nl +:+ "<h3>Slowest tests</h3>" +:+ nl +:+ "<ol>" +:+ nl +:+ slowItems l +:+ nl +:+ "</ol>" +:+ nl
  end.

(** [RenderHTML]; executing this template does not fail. *)
Definition RenderHTML (s : OwnerStats) : string :=
  "<!doctype html>" +:+ nl
  +:+ "<html><body style=" +:+ dq +:+ "font-family:system-ui,sans-serif;max-width:640px" +:+ dq +:+ ">" +:+ nl
  +:+ "<h2>Your TEO digest — " +:+ htmlEscape (os_Owner s) +:+ "</h2>" +:+ nl
  +:+ "<p>Week of " +:+ formatDate (os_WeekStart s) +:+ " to " +:+ formatDate (os_WeekEnd s) +:+ ".</p>" +:+ nl
  +:+ "<ul>" +:+ nl
  +:+ "<li><strong>" +:+ itoa (os_OwnedTests s) +:+ "</strong> tests owned</li>" +:+ nl
  +:+ "<li><strong>" +:+ itoa (os_FlakyTests s) +:+ "</strong> flaky</li>" +:+ nl
  +:+ "<li><strong>" +:+ htmlEscape (fixed1 (os_CIMinutes s)) +:+ "</strong> min CI consumed" +:+ nl
  +:+ (if zeroFloat (os_WoWDeltaPct s) then "" else
         "(" +:+ (if f64_ltb (f64_ofZ 0) (os_WoWDeltaPct s) then "+" else "") +:+ htmlEscape (fixed1 (os_WoWDeltaPct s)) +:+ "% WoW)")
  +:+ "</li>" +:+ nl
  +:+ "</ul>" +:+ nl
  +:+ slowSection (os_SlowestTests s)
  +:+ nl +:+ "<hr>" +:+ nl
  +:+ "<p style=" +:+ dq +:+ "color:#888;font-size:12px" +:+ dq +:+ ">" +:+ nl
  +:+ "Generated " +:+ formatMinute (os_GeneratedAt s) +:+ " UTC. Manage preferences in TEO settings." +:+ nl
  +:+ "</p>" +:+ nl
  +:+ "</body></html>".

(** ** Senders *)

Record Message := mkMessage {
  ms_Owner : string;
  ms_Email : string;
  ms_Subject : string;
  ms_HTML : string;
  ms_Text : string
}.

(** The interface Sender. *)
Definition Sender : Type := Message -> M unit.

Definition crlf : string := String "013" (String "010" "").

Record SMTPSender := mkSMTPSender {
  sm_Host : string;
  sm_Port : Z;
  sm_From : string
}.

(** [nanos] is the clock reading in the boundary. *)
Definition composeMIME (s : SMTPSender) (nanos : Z) (m : Message) : string :=
  let boundary := "teo-digest-boundary-" +:+ itoa nanos in
  "From: " +:+ sm_From s +:+ crlf +:+ "To: " +:+ ms_Email m +:+ crlf +:+ "Subject: " +:+ ms_Subject m +:+ crlf
  +:+ "MIME-Version: 1.0" +:+ crlf
  +:+ "Content-Type: multipart/alternative; boundary=" +:+ dq +:+ boundary +:+ dq +:+ crlf +:+ crlf
  +:+ "--" +:+ boundary +:+ crlf
  +:+ "Content-Type: text/plain; charset=UTF-8" +:+ crlf +:+ crlf
  +:+ ms_Text m +:+ crlf
  +:+ "--" +:+ boundary +:+ crlf
  +:+ "Content-Type: text/html; charset=UTF-8" +:+ crlf +:+ crlf
  +:+ ms_HTML m +:+ crlf
  +:+ "--" +:+ boundary +:+ "--" +:+ crlf.

(** [SMTPSender.Send]; [answer] is what comes first, the answer of the dialer or
    the end of the context. *)
Definition smtpSend (answer : string -> string -> result unit) (s : SMTPSender) : Sender := fun m =>
  if String.eqb (ms_Email m) "" then retM tt
  else if String.eqb (sm_Host s) "" then throwM (ErrText "SMTP host not configured")
  else
    now ←! getNow ;
    let addr := sm_Host s +:+ ":" +:+ itoa (sm_Port s) in
    let body := composeMIME s (1000 * now) m in
    emit (OMail addr (sm_From s) (ms_Email m) body) ;!
    ofResult (answer (ms_Email m) body).

Definition buildSlackText (m : Message) : string :=
  "*" +:+ ms_Subject m +:+ "*" +:+ nl +:+ bq +:+ bq +:+ bq +:+ nl +:+ ms_Text m +:+ nl +:+ bq +:+ bq +:+ bq.

(** [SlackSender.Send]; [post] is the status of the exchange. *)
Definition slackSend (newRequest : string -> result unit) (post : string -> result Z) (webhookURL : string) : Sender := fun m =>
  if String.eqb webhookURL "" then throwM (ErrText "slack webhook not configured")
  else
    let text := buildSlackText m in
    ofResult (newRequest webhookURL) ;!
    emit (OSlack webhookURL text) ;!
    status ←! ofResult (post text) ;
    if 300 <=? status then throwM (ErrText "slack webhook: unexpected status") else retM tt.

(** [Multiplex.Send]: every sender is called; the first error is the result. *)
Fixpoint multiplexFrom (senders : list Sender) (firstErr : option error) (m : Message) : M unit :=
  match senders with
  | [] => match firstErr with Some e => throwM e | None => retM tt end
  | s :: senders' =>
      r ←! tryM (s m) ;
      multiplexFrom senders' (match firstErr, r with Some e, _ => Some e | None, Err e => Some e | None, Ok _ => None end) m
  end.

Definition multiplex (senders : list Sender) : Sender := multiplexFrom senders None.

(** ** The pass *)

Record DigestResult := mkDigestResult {
  dr_Repo : string;
  dr_Owner : string;
  dr_Email : string;
  dr_Skipped : bool;
  dr_SkipReason : string;
  dr_SendError : option error;
  dr_OwnedTests : Z;
  dr_FlakyTests : Z;
  dr_CIMinutes : float64
}.

Definition at_ : ascii := "@".

(** [strings.SplitN(s, "@", 2)[0]], and [split_part(s, '@', 1)]. *)
Definition localPart (email : string) : text := match splitOn at_ (toText email) with p :: _ => p | [] => [] end.

(** [@alice], not [@org/team]. *)
Definition isHandle (owner : text) : bool := hasPrefix owner [at_] && negb (contains owner (toText "/")).

(** [html/template] and the two renderings of an owner's statistics. *)
Definition messageFor (full email : string) (s : OwnerStats) : Message :=
  mkMessage (os_Owner s) email ("TEO digest — " +:+ os_Owner s +:+ " (" +:+ full +:+ ")") (RenderHTML s) (RenderText s).

Section runner.
(** The repositories whose meta says digest_opt_out, and teo.users. *)
Context (optedOut : string -> bool) (users : gmap string user_row).

Definition selectDigestRepos (db : DB) : list (string * string) :=
  omap (fun kv : string * repo_row => if rp_enabled kv.2 && negb (optedOut kv.1) then Some (kv.1, rp_full_name kv.2) else None)
    (map_to_list (repos db)).

Definition eligibleRepos : M (list (string * string)) := poolExec (query selectDigestRepos).

(** The row the first query for a handle, or for an address, comes upon. *)
Definition userByHandle (handle : text) : option user_row :=
  snd <$> List.find (fun kv : string * user_row => u_active kv.2
    && (bool_decide (toLower (u_email kv.2) = map lowerOf handle)
        || bool_decide (map lowerOf (localPart (u_email kv.2)) = map lowerOf handle))) (map_to_list users).
Definition userByAddress (email : string) : option user_row :=
  snd <$> List.find (fun kv : string * user_row => u_active kv.2 && bool_decide (toLower (u_email kv.2) = toLower email)) (map_to_list users).

Definition resolveOwner (owner : string) : M (string * bool) :=
  let owner := trimSpace (toText owner) in
  match owner with
  | [] => retM (""%string, false)
  | _ =>
      if isHandle owner then
        u ←! tryM (scanRow (poolExec (query (fun _ => userByHandle (trimPrefix owner [at_]))))) ;
        match u with
        | Err _ => retM (""%string, false)
        | Ok u => retM (u_email u, u_digest_opt_out u)
        end
      else retM (""%string, false)
  end.

Definition resultFor (full email : string) (skipped : bool) (reason : string) (e : option error) (s : OwnerStats) : DigestResult :=
  mkDigestResult full (os_Owner s) email skipped reason e (os_OwnedTests s) (os_FlakyTests s) (os_CIMinutes s).

(** One iteration of the inner loop. *)
Definition digestOne (sender : option Sender) (full : string) (s : OwnerStats) : M DigestResult :=
  eo ←! resolveOwner (os_Owner s) ;
  if eo.2 then retM (resultFor full "" true "user opted out" None s)
  else match sender with
  | None => retM (resultFor full eo.1 false "" None s)
  | Some send =>
      r ←! tryM (send (messageFor full eo.1 s)) ;
      retM (resultFor full eo.1 false "" (match r with Ok _ => None | Err e => Some e end) s)
  end.

Fixpoint digestOwners (sender : option Sender) (full : string) (stats : list OwnerStats) (out : list DigestResult) : M (list DigestResult) :=
  match stats with
  | [] => retM out
  | s :: stats' => res ←! digestOne sender full s ; digestOwners sender full stats' (out ++ [res])
  end.

Fixpoint digestRepos (sender : option Sender) (rps : list (string * string)) (out : list DigestResult) : M (list DigestResult) :=
  match rps with
  | [] => retM out
  | (id, full) :: rps' =>
      stats ←! tryM (BuildAll id) ;
      match stats with
      | Err _ => digestRepos sender rps' out
      | Ok stats => out' ←! digestOwners sender full stats out ; digestRepos sender rps' out'
      end
  end.

(** [Runner.Run] *)
Definition RunDigest (sender : option Sender) : M (list DigestResult) :=
  rps ←! eligibleRepos ;
  digestRepos sender rps [].

(** ** The dry run for one user *)

Definition ownerMatchesUser (owner email : string) (handles : list text) : bool :=
  let owner := map lowerOf (trimSpace (toText owner)) in
  match owner with
  | [] => false
  | _ =>
      isHandle owner
      && (let h := trimPrefix owner [at_] in
          bool_decide (h = map lowerOf (localPart email)) || existsb (fun hh => bool_decide (h = hh)) handles)
  end.

Definition userByEmail (email : string) : M (string * list text) :=
  u ←! scanRow (poolExec (query (fun _ => userByAddress email))) ;
  retM (u_email u, [map lowerOf (localPart (u_email u))]).

Fixpoint userRepos (email : string) (user : string * list text) (rps : list (string * string)) (out : list Message) : M (list Message) :=
  match rps with
  | [] => retM out
  | (id, full) :: rps' =>
      stats ←! tryM (BuildAll id) ;
      match stats with
      | Err _ => userRepos email user rps' out
      | Ok stats =>
          userRepos email user rps'
            (out ++ (messageFor full email <$> List.filter (fun s => ownerMatchesUser (os_Owner s) user.1 user.2) stats))
      end
  end.

Definition RunForUser (email : string) : M (list Message) :=
  user ←! userByEmail email ;
  rps ←! eligibleRepos ;
  userRepos email user rps [].
End runner.

(** * What a digest pass sends

    In a quiet world: one mail for each eligible repository and owner with
    executions in the week whose handle is that of a user who has not opted out,
    with the counts of that week.  In every world: no mail goes to anybody else.
    And no text of a test or an owner becomes markup of the mail. *)


(** ** The statistics *)

Definition ofOwner (o : string) (l : list ownedExec) : list ownedExec := List.filter (fun e => String.eqb (oe_owner e) o) l.
Definition millis (l : list ownedExec) : Z := sumZ (oe_durationMS <$> l).

Lemma ofOwner_snoc o l e : ofOwner o (l ++ [e]) = ofOwner o l ++ (if String.eqb (oe_owner e) o then [e] else []).
Proof. unfold ofOwner. rewrite List.filter_app. cbn. by destruct (String.eqb _ o). Qed.

Lemma byOwner_lookup l o : byOwner l !! o =
  match ofOwner o l with [] => None | es => Some (Z.of_nat (length es), millis es) end.
Proof.
  induction l as [|e l IH] using rev_ind; [done|]. unfold byOwner. rewrite foldl_snoc. change (foldl addToOwner ∅ l) with (byOwner l).
  rewrite ofOwner_snoc. unfold addToOwner. destruct (String.eqb_spec (oe_owner e) o) as [<-|Hn].
  - rewrite IH. destruct (ofOwner (oe_owner e) l) as [|x xs] eqn:E; cbn [from_option id].
    + rewrite lookup_insert_eq. cbn. unfold millis. cbn. do 2 f_equal. lia.
    + rewrite lookup_insert_eq. change ((x :: xs) ++ [e]) with (x :: (xs ++ [e])). unfold millis.
      rewrite !fmap_cons, !sumZ_cons, fmap_app, sumZ_app. cbn [length]. rewrite length_app. cbn. do 2 f_equal; lia.
  - rewrite app_nil_r. destruct (default _ (byOwner l !! oe_owner e)). by rewrite lookup_insert_ne.
Qed.

(** ** A pass in a quiet world *)

Definition stopOf (now : Z) : Z := now - now mod hourMicros.

(** The executions of the week that ends with the last full hour. *)
Definition weekOf (repoID : string) (stop : Z) (db : DB) : list ownedExec :=
  List.filter (inWeek repoID (stop - weekMicros) stop) (ownedExecs db).

Definition statOf (repoID : string) (now : Z) (db : DB) (r : ownerRow) : OwnerStats :=
  let '(owner, owned, flaky, minutes, prev) := r in
  mkOwnerStats owner owned flaky minutes (weekOverWeek minutes prev)
    (selectSlowest repoID owner (stopOf now - weekMicros) (stopOf now) 3 db) now (stopOf now - weekMicros) (stopOf now).

Definition statsOf (repoID : string) (now : Z) (db : DB) : list OwnerStats :=
  statOf repoID now db <$> selectWeek repoID (stopOf now - weekMicros - weekMicros) (stopOf now - weekMicros) (stopOf now) db.

Lemma statsOf_spec repoID now db s : s ∈ statsOf repoID now db ->
  let es := ofOwner (os_Owner s) (weekOf repoID (stopOf now) db) in
  let before := ofOwner (os_Owner s) (weekOf repoID (stopOf now - weekMicros) db) in
  es <> [] /\ os_OwnedTests s = Z.of_nat (length es) /\ os_CIMinutes s = minutesOf (millis es)
  /\ os_FlakyTests s = flakyTests repoID (os_Owner s) db
  /\ os_WoWDeltaPct s = weekOverWeek (minutesOf (millis es)) (match before with [] => f64_ofZ 0 | _ => minutesOf (millis before) end)
  /\ os_SlowestTests s = selectSlowest repoID (os_Owner s) (stopOf now - weekMicros) (stopOf now) 3 db.
Proof.
  unfold statsOf, selectWeek. intros (r & -> & ((o & n & ms) & -> & Hin)%list_elem_of_fmap)%list_elem_of_fmap.
  apply elem_of_map_to_list in Hin. cbn [statOf fst snd os_Owner os_OwnedTests os_CIMinutes os_FlakyTests os_WoWDeltaPct os_SlowestTests].
  rewrite byOwner_lookup in Hin. fold (weekOf repoID (stopOf now) db) in Hin.
  destruct (ofOwner o (weekOf _ _ _)) as [|e es]; [done|]. injection Hin as <- <-. split_and!; try done.
  f_equal. rewrite byOwner_lookup. fold (weekOf repoID (stopOf now - weekMicros) db).
  by destruct (ofOwner o (weekOf repoID (stopOf now - weekMicros) db)).
Qed.

Lemma statsOf_owners repoID now db : NoDup (os_Owner <$> statsOf repoID now db)
  /\ forall e, e ∈ weekOf repoID (stopOf now) db -> oe_owner e ∈ os_Owner <$> statsOf repoID now db.
Proof.
  unfold statsOf, selectWeek. rewrite <-!list_fmap_compose. set (g := byOwner (List.filter (inWeek repoID (stopOf now - weekMicros) (stopOf now)) (ownedExecs db))).
  assert (forall f : string * (Z * Z) -> string, (forall kv, f kv = kv.1) -> f <$> map_to_list g = (map_to_list g).*1) as E.
  { intros f Hf. apply list_fmap_ext. intros i kv _. apply Hf. }
  rewrite E by (by intros [o [n ms]]).
  split; [apply NoDup_fst_map_to_list|]. intros e He.
  assert (is_Some (g !! oe_owner e)) as [p Hp].
  { subst g. rewrite byOwner_lookup. destruct (ofOwner _ _) as [|x xs] eqn:Eo; [|by eexists]. exfalso.
    assert (e ∈ ofOwner (oe_owner e) (weekOf repoID (stopOf now) db)) as Hin.
    { unfold ofOwner. apply list_elem_of_In, filter_In. split; [by apply list_elem_of_In|apply String.eqb_refl]. }
    unfold weekOf in Hin. rewrite Eo in Hin. by apply elem_of_nil in Hin. }
  apply list_elem_of_fmap. exists (oe_owner e, p). split; [done|]. by apply elem_of_map_to_list.
Qed.

Section quiet.
Context (db : DB) (now : Z) (u : nat -> string) (held : gset Z) (ag : AgentState) (n : nat).
Context (optedOut : string -> bool) (users : gmap string user_row).

Abbreviation W out := (QW db None now u n held out ag).

Lemma buildRows_quiet repoID rows acc out :
  buildRows repoID (stopOf now - weekMicros) (stopOf now) rows acc (W out) = (Ok (acc ++ (statOf repoID now db <$> rows)), W out).
Proof.
  revert acc. induction rows as [|[[[[o k] f] ms] prev] rows IH]; intros acc; [by rewrite app_nil_r|]. cbn [buildRows].
  erewrite bindM_ok; [|reflexivity]. erewrite bindM_ok; [|apply tryM_eq, poolQuery_quiet]. rewrite IH. by rewrite <-app_assoc.
Qed.

Lemma BuildAll_quiet repoID out : BuildAll repoID (W out) = (Ok (statsOf repoID now db), W out).
Proof. unfold BuildAll. erewrite bindM_ok; [|reflexivity]. erewrite bindM_ok; [|apply poolQuery_quiet]. apply buildRows_quiet. Qed.

(** The user an owner stands for. *)
Definition userOf (owner : string) : option user_row :=
  let o := trimSpace (toText owner) in
  if isHandle o then userByHandle users (trimPrefix o [at_]) else None.

Lemma resolveOwner_quiet owner out :
  resolveOwner users owner (W out) = (Ok (match userOf owner with Some x => (u_email x, u_digest_opt_out x) | None => (""%string, false) end), W out).
Proof.
  unfold resolveOwner, userOf. destruct (trimSpace (toText owner)) as [|c t] eqn:E; [done|]. destruct (isHandle (c :: t)); [|done].
  erewrite bindM_ok; [|apply tryM_eq, poolScan_quiet]. by destruct (userByHandle users _).
Qed.

(** What the pass sends for an owner, and what it reports. *)
Section smtp.
Context (answer : string -> string -> result unit) (s : SMTPSender) (Hhost : sm_Host s <> "").

Definition mailsFor (full : string) (st : OwnerStats) : list Output :=
  match userOf (os_Owner st) with
  | Some x =>
      if u_digest_opt_out x || String.eqb (u_email x) "" then []
      else [OMail (sm_Host s +:+ ":" +:+ itoa (sm_Port s)) (sm_From s) (u_email x)
              (composeMIME s (1000 * now) (messageFor full (u_email x) st))]
  | None => []
  end.

Definition reportFor (full : string) (st : OwnerStats) : DigestResult :=
  match userOf (os_Owner st) with
  | Some x =>
      if u_digest_opt_out x then resultFor full "" true "user opted out" None st
      else resultFor full (u_email x) false ""
             (if String.eqb (u_email x) "" then None
              else match answer (u_email x) (composeMIME s (1000 * now) (messageFor full (u_email x) st)) with Ok _ => None | Err e => Some e end) st
  | None => resultFor full "" false "" None st
  end.

Lemma smtpSend_quiet m out :
  smtpSend answer s m (W out) =
  (if String.eqb (ms_Email m) "" then Ok tt else answer (ms_Email m) (composeMIME s (1000 * now) m),
   W (out ++ if String.eqb (ms_Email m) "" then []
             else [OMail (sm_Host s +:+ ":" +:+ itoa (sm_Port s)) (sm_From s) (ms_Email m) (composeMIME s (1000 * now) m)])).
Proof using Hhost.
  unfold smtpSend. destruct (String.eqb (ms_Email m) ""); [by rewrite app_nil_r|]. rewrite (proj2 (String.eqb_neq _ _) Hhost).
  unfold getNow, emit, bindM. cbn. by destruct (answer _ _).
Qed.

Lemma digestOne_quiet full st out :
  digestOne users (Some (smtpSend answer s)) full st (W out) = (Ok (reportFor full st), W (out ++ mailsFor full st)).
Proof using Hhost.
  unfold digestOne. erewrite bindM_ok; [|apply resolveOwner_quiet]. unfold reportFor, mailsFor.
  destruct (userOf (os_Owner st)) as [x|]; cbn [fst snd].
  - destruct (u_digest_opt_out x); cbn [orb]; [by rewrite app_nil_r|].
    erewrite bindM_ok; [|apply tryM_eq, smtpSend_quiet]. cbn [ms_Email messageFor].
    by destruct (String.eqb (u_email x) "").
  - erewrite bindM_ok; [|apply tryM_eq; reflexivity]. by rewrite app_nil_r.
Qed.

Lemma digestOwners_quiet full stats acc out :
  digestOwners users (Some (smtpSend answer s)) full stats acc (W out)
  = (Ok (acc ++ (reportFor full <$> stats)), W (out ++ concat (mailsFor full <$> stats))).
Proof using Hhost.
  revert acc out. induction stats as [|st stats IH]; intros acc out; [by rewrite !app_nil_r|]. cbn [digestOwners].
  erewrite bindM_ok; [|apply digestOne_quiet]. rewrite IH. cbn. by rewrite <-!app_assoc.
Qed.

Lemma digestRepos_quiet rps acc out :
  digestRepos users (Some (smtpSend answer s)) rps acc (W out)
  = (Ok (acc ++ concat ((fun rp : string * string => reportFor rp.2 <$> statsOf rp.1 now db) <$> rps)),
     W (out ++ concat ((fun rp : string * string => concat (mailsFor rp.2 <$> statsOf rp.1 now db)) <$> rps))).
Proof using Hhost.
  revert acc out. induction rps as [|[id full] rps IH]; intros acc out; [by rewrite !app_nil_r|]. cbn [digestRepos].
  erewrite bindM_ok; [|apply tryM_eq, BuildAll_quiet]. cbn beta iota. erewrite bindM_ok; [|apply digestOwners_quiet]. rewrite IH. cbn. by rewrite <-!app_assoc.
Qed.
End smtp.
End quiet.

Definition expectedMails (optedOut : string -> bool) (users : gmap string user_row) (s : SMTPSender) (now : Z) (db : DB) : list Output :=
  concat ((fun rp : string * string => concat (mailsFor now users s rp.2 <$> statsOf rp.1 now db)) <$> selectDigestRepos optedOut db).

(** When nothing interferes, a pass with a mail server sends, for each enabled
    repository that has not opted out and each owner with an execution in the
    week up to the last full hour, exactly one mail if the owner is the handle of
    an active user with an address who has not opted out, and nothing else; a
    refused mail is reported and does not stop the others; each such owner has one
    entry of statistics, whose number of owned tests is the number of executions
    of the week, however few tests they are of, whose minutes are those
    executions' and whose change is against the seven days before. *)
Theorem digest_pass optedOut users answer s db now u n held out ag : sm_Host s <> "" ->
  (exists results,
     RunDigest optedOut users (Some (smtpSend answer s)) (QW db None now u n held out ag)
       = (Ok results, QW db None now u n held (out ++ expectedMails optedOut users s now db) ag)
     /\ results = concat ((fun rp : string * string => reportFor now users answer s rp.2 <$> statsOf rp.1 now db) <$> selectDigestRepos optedOut db))
  /\ forall repoID,
       NoDup (os_Owner <$> statsOf repoID now db)
       /\ (forall e, e ∈ weekOf repoID (stopOf now) db -> oe_owner e ∈ os_Owner <$> statsOf repoID now db)
       /\ forall st, st ∈ statsOf repoID now db ->
            let es := ofOwner (os_Owner st) (weekOf repoID (stopOf now) db) in
            let before := ofOwner (os_Owner st) (weekOf repoID (stopOf now - weekMicros) db) in
            es <> [] /\ os_OwnedTests st = Z.of_nat (length es) /\ os_CIMinutes st = minutesOf (millis es)
            /\ os_FlakyTests st = flakyTests repoID (os_Owner st) db
            /\ os_WoWDeltaPct st = weekOverWeek (minutesOf (millis es)) (match before with [] => f64_ofZ 0 | _ => minutesOf (millis before) end)
            /\ os_SlowestTests st = selectSlowest repoID (os_Owner st) (stopOf now - weekMicros) (stopOf now) 3 db.
Proof.
  intros Hs. split.
  - eexists. split; [|reflexivity]. unfold RunDigest. erewrite bindM_ok; [|apply poolQuery_quiet].
    rewrite (digestRepos_quiet db now u held ag n users answer s Hs). done.
  - intros repoID. destruct (statsOf_owners repoID now db) as [H1 H2]. split; [done|]. split; [done|].
    intros st. apply statsOf_spec.
Qed.

(** ** In every world *)

Section consent.
Context (optedOut : string -> bool) (users : gmap string user_row).

(** The address of an active user who has not opted out. *)
Definition consenting (email : string) : Prop :=
  exists id x, users !! id = Some x /\ u_active x = true /\ u_digest_opt_out x = false /\ u_email x = email /\ email <> "".

Definition consented (o : Output) : Prop :=
  match o with OMail _ _ to _ => consenting to | OSlack _ _ => True | _ => False end.

Lemma sends_bind_value {P : Output -> Prop} {A B} (m : M A) (k : A -> M B) (Q : A -> Prop) :
  Sends P m -> (forall w a w', m w = (Ok a, w') -> Q a) -> (forall a, Q a -> Sends P (k a)) -> Sends P (bindM m k).
Proof.
  intros Hm Hv Hk w. unfold bindM. destruct (Hm w) as (l & E & Hl). destruct (m w) as [[a|e] w1] eqn:Em; [|by exists l]. cbn in E.
  destruct (Hk a (Hv _ _ _ Em) w1) as (l' & E' & Hl'). exists (l ++ l'). split; [by rewrite E', E, app_assoc|by apply Forall_app].
Qed.

#[local] Instance sends_now P : Sends P getNow.
Proof. by apply sends_nothing. Qed.

Lemma scan_value {A} (v : option A) w a w' : scanRow (poolExec (query (fun _ => v))) w = (Ok a, w') -> v = Some a.
Proof.
  unfold scanRow, bindM, poolExec, query. destruct (nextEvent w) as [[] w1]; [|done|done]. destruct v as [x|]; [|done].
  by intros [= <- _].
Qed.

(** Whatever the reads come to, an address handed out without an opt-out is a
    consenting user's. *)
Lemma resolveOwner_value owner w eo w' : resolveOwner users owner w = (Ok eo, w') -> eo.2 = false -> eo.1 = "" \/ consenting eo.1.
Proof.
  unfold resolveOwner. destruct (trimSpace (toText owner)) as [|c t]; [intros [= <- _]; by left|].
  destruct (isHandle (c :: t)); [|intros [= <- _]; by left]. unfold bindM at 1, tryM.
  destruct (scanRow _ w) as [[x|e] w1] eqn:E; [|intros [= <- _]; by left].
  apply scan_value in E. intros [= <- _]. cbn [fst snd]. intros Ho. destruct (decide (u_email x = "")) as [?|Hn]; [by left|right].
  unfold userByHandle in E. destruct (List.find _ _) as [[id y]|] eqn:Ef; [|done]. injection E as ->.
  apply find_some in Ef as [Hin Hb]. apply list_elem_of_In, elem_of_map_to_list in Hin.
  apply andb_true_iff in Hb as [Ha _]. by exists id, x.
Qed.

(** A sender that sends nothing but to the address of its message. *)
Definition addressed (send : Sender) : Prop :=
  forall m, ms_Email m = "" \/ consenting (ms_Email m) -> Sends consented (send m).

Lemma smtpSend_addressed answer s : addressed (smtpSend answer s).
Proof.
  intros m Hm. unfold smtpSend. destruct (String.eqb_spec (ms_Email m) ""); [apply _|]. destruct (String.eqb _ ""); [apply _|].
  apply sends_bind; [apply _|]. intros now. apply sends_bind; [|intros _; apply _]. apply sends_emit. by destruct Hm.
Qed.

Lemma slackSend_addressed newRequest post url : addressed (slackSend newRequest post url).
Proof.
  intros m _. unfold slackSend. destruct (String.eqb url ""); [apply _|]. apply sends_bind; [apply _|]. intros _.
  apply sends_bind; [by apply sends_emit|]. intros _. apply sends_bind; [apply _|]. intros z. destruct (300 <=? z); apply _.
Qed.

Lemma multiplex_addressed senders : Forall addressed senders -> addressed (multiplex senders).
Proof.
  intros Hs m Hm. unfold multiplex. generalize (@None error). induction Hs as [|send senders Hsend Hs IH]; intros fe; cbn [multiplexFrom].
  - destruct fe; apply _.
  - apply sends_bind; [apply sends_try, Hsend, Hm|]. intros r. apply IH.
Qed.

Context (sender : option Sender) (Hsender : forall send, sender = Some send -> addressed send).

#[local] Instance digestOne_sends full s : Sends consented (digestOne users sender full s).
Proof using Hsender.
  unfold digestOne. eapply (sends_bind_value _ _ (fun eo => eo.2 = false -> eo.1 = "" \/ consenting eo.1)).
  - unfold resolveOwner. destruct (trimSpace (toText (os_Owner s))); [apply _|]. destruct (isHandle _); [|apply _].
    apply sends_bind; [apply sends_try; unfold scanRow; apply sends_bind; [apply _|intros [x|]; apply _]|]. intros [x|e]; apply _.
  - intros w eo w'. apply resolveOwner_value.
  - intros [email opt] Ha. cbn [fst snd] in *. destruct opt; [apply _|]. destruct sender as [send|]; [|apply _].
    apply sends_bind; [|intros r; apply _]. apply sends_try, Hsender; [done|]. by apply Ha.
Qed.

#[local] Instance digestOwners_sends full stats out : Sends consented (digestOwners users sender full stats out).
Proof using Hsender.
  revert out. induction stats as [|s stats IH]; intros out; cbn [digestOwners]; [apply _|]. apply sends_bind; [apply _|intros res; apply IH].
Qed.

#[local] Instance buildRows_sends repoID start stop rows out : Sends consented (buildRows repoID start stop rows out).
Proof.
  revert out. induction rows as [|[[[[o k] f] ms] prev] rows IH]; intros out; cbn [buildRows]; [apply _|].
  apply sends_bind; [apply _|]. intros g. apply sends_bind; [unfold slowestTests; apply _|]. intros slow. apply IH.
Qed.

Lemma RunDigest_sends : Sends consented (RunDigest optedOut users sender).
Proof using Hsender.
  unfold RunDigest. apply sends_bind; [unfold eligibleRepos; apply _|]. intros rps. generalize (@nil DigestResult).
  induction rps as [|[id full] rps IH]; intros out; cbn [digestRepos]; [apply _|].
  apply sends_bind; [apply sends_try; unfold BuildAll; apply _|]. intros [stats|e]; [|apply IH].
  apply sends_bind; [apply _|]. intros out'. apply IH.
Qed.
End consent.

(** Whatever other sessions do and whichever database call fails, a pass with
    a mail server and a Slack webhook sends nothing but Slack posts and mails to
    addresses of active users who have not opted out. *)
Theorem digest_mail_consent optedOut users answer s newRequest post url w :
  exists l, w_out (RunDigest optedOut users (Some (multiplex [smtpSend answer s; slackSend newRequest post url])) w).2 = w_out w ++ l
    /\ Forall (fun o => match o with
         | OMail _ _ to _ => exists id x, users !! id = Some x /\ u_active x = true /\ u_digest_opt_out x = false /\ u_email x = to /\ to <> ""
         | OSlack _ _ => True
         | _ => False
         end) l.
Proof.
  apply (RunDigest_sends optedOut users). intros send [= <-]. apply multiplex_addressed. constructor; [apply smtpSend_addressed|].
  constructor; [apply slackSend_addressed|constructor].
Qed.

(** ** The mail's markup *)

Definition isMarkup (c : ascii) : bool := Ascii.eqb c "<" || Ascii.eqb c ">" || Ascii.eqb c "034".
Definition markup (s : string) : list ascii := List.filter isMarkup (toText s).

Lemma markup_app s t : markup (s +:+ t) = markup s ++ markup t.
Proof. unfold markup. by rewrite toText_app, List.filter_app. Qed.

Lemma markup_escape s : markup (htmlEscape s) = [].
Proof.
  induction s as [|c s IH]; [done|]. cbn [htmlEscape]. rewrite markup_app, IH, app_nil_r.
  destruct c as [[] [] [] [] [] [] [] []]; vm_compute; reflexivity.
Qed.

Lemma markup_numeric s : numeric s -> markup s = [].
Proof.
  unfold markup, numeric. induction 1 as [|c t Hc Ht IH]; [done|]. cbn. rewrite IH. revert Hc.
  destruct c as [[] [] [] [] [] [] [] []]; vm_compute; congruence.
Qed.

Lemma markup_minute us : markup (formatMinute us) = [].
Proof.
  unfold formatMinute. rewrite !markup_app, (markup_numeric (formatDate us)) by apply formatDate_numeric.
  by rewrite !(markup_numeric (padded _ _)) by apply padded_numeric.
Qed.

Lemma markup_change x : markup (if zeroFloat x then "" else
  "(" +:+ (if f64_ltb (f64_ofZ 0) x then "+" else "") +:+ htmlEscape (fixed1 x) +:+ "% WoW)") = [].
Proof. destruct (zeroFloat x); [done|]. rewrite !markup_app, markup_escape. by destruct (f64_ltb _ x). Qed.

Lemma markup_items l l' : length l = length l' -> markup (slowItems l) = markup (slowItems l').
Proof.
  revert l'. induction l as [|t l IH]; intros [|t' l'] H; try done. cbn [slowItems].
  rewrite !markup_app, !markup_escape, !(markup_numeric (itoa _)) by apply itoa_numeric. by rewrite (IH l') by (by injection H).
Qed.

Lemma markup_section l l' : length l = length l' -> markup (slowSection l) = markup (slowSection l').
Proof.
  intros H. pose proof (markup_items l l' H) as Hi. unfold slowSection. destruct l as [|t l], l' as [|t' l']; [reflexivity|discriminate H|discriminate H|].
  rewrite !markup_app. by rewrite Hi.
Qed.

(** Nothing in a test's path or name, nor in the name of an owner, becomes
    markup of the mail: two digests with as many slow tests have the same angle
    brackets and quotes in the same order, whatever else they say. *)
Theorem html_markup_fixed s s' : length (os_SlowestTests s) = length (os_SlowestTests s') ->
  markup (RenderHTML s) = markup (RenderHTML s').
Proof.
  intros Hl. unfold RenderHTML. rewrite !markup_app, !markup_escape, !markup_minute, !markup_change.
  rewrite !(markup_numeric (itoa _)) by apply itoa_numeric. rewrite !(markup_numeric (formatDate _)) by apply formatDate_numeric.
  by rewrite (markup_section _ _ Hl).
Qed.

(** ** A week *)

Module DigestDemo.
(** One test that ran three times, and 90 seconds in all. *)
Definition test : test_row := mkTestRow "repo" "fp" "a_test.go" "TestA<b>" "" "" "gotest" "active" None None 0 (Some "@ann").
Definition runRow : run_row := mkRunRow "repo" "c" "main" "api" None None "finalizing" None None None None 0
  (mkRunMeta None None None None ∅ None None) 0 0 None None None 0 0.
Definition shardRow : shard_row := mkShardRow "run" 0 None 0 "succeeded" 1 None None 0 None None.
Definition exec (t : Z) : exec_row := mkExecRow "e" "passed" 30000 None t t None None.
Definition now : Z := 500 * hourMicros + 7.
Definition db : DB := set_repos {[ "repo" := mkRepoRow "github" "org/app" true false ]}
  (set_runs {[ "run" := runRow ]} (set_shards {[ "s" := shardRow ]} (set_tests {[ "t" := test ]}
    (set_test_executions {[ ("s", "t", 1) := exec (400 * hourMicros); ("s", "t", 2) := exec (401 * hourMicros); ("s", "t", 3) := exec (500 * hourMicros) ]} emptyDB)))).
Definition users (optOut : bool) : gmap string user_row := {[ "u" := mkUserRow "Ann@example.com" "Ann" None true optOut 0 ]}.
Definition server : SMTPSender := mkSMTPSender "mail" 25 "teo@example.com".
End DigestDemo.

Lemma digest_pass_witness : exists results out,
  RunDigest (fun _ => false) (DigestDemo.users false) (Some (smtpSend (fun _ _ => Err ErrTransport) DigestDemo.server))
    (QW DigestDemo.db None DigestDemo.now (fun _ => "") 0 ∅ [] idleAgent)
    = (Ok results, QW DigestDemo.db None DigestDemo.now (fun _ => "") 0 ∅ out idleAgent)
  /\ (fun r => (dr_Owner r, dr_Email r, dr_OwnedTests r, fixed1 (dr_CIMinutes r), dr_SendError r)) <$> results
     = [("@ann", "Ann@example.com", 3, "1.5", Some ErrTransport)]
  /\ length out = 1%nat.
Proof.
  destruct (digest_pass (fun _ => false) (DigestDemo.users false) (fun _ _ => Err ErrTransport) DigestDemo.server DigestDemo.db DigestDemo.now
    (fun _ => "") 0 ∅ [] idleAgent ltac:(discriminate)) as [(results & H & Hr) _].
  eexists results, _. split; [exact H|]. subst results. split; vm_compute; reflexivity.
Defined.

Lemma html_markup_fixed_witness :
  let st := mkOwnerStats "@ann" 3 0 (f64_ofZ 1) (f64_ofZ 0) [mkSlowTest "<script>" "a" 1 1] 0 0 0 in
  let plain := mkOwnerStats "x" 0 0 (f64_ofZ 0) (f64_ofZ 0) [mkSlowTest "" "" 0 0] 0 0 0 in
  markup (RenderHTML st) = markup (RenderHTML plain) /\ length (markup (RenderHTML plain)) = 72%nat.
Proof. split; [apply (html_markup_fixed _ _); reflexivity|vm_compute; reflexivity]. Defined.

(** The query for the user fails: the digest of someone who has opted out is
    posted to Slack. *)
Lemma slack_ignores_opt_out :
  let quiet := quietEvent in
  let w := mkWorld DigestDemo.db None DigestDemo.now (fun _ => "") 0 ∅ [quiet; quiet; quiet; mkEnvEvent id FFail] [] idleAgent in
  let pass w := length (w_out (RunDigest (fun _ => false) (DigestDemo.users true)
     (Some (slackSend (fun _ => Ok tt) (fun _ => Ok 200) "https://hooks.example.com")) w).2) in
  pass w = 1%nat /\ pass (QW DigestDemo.db None DigestDemo.now (fun _ => "") 0 ∅ [] idleAgent) = 0%nat.
Proof. vm_compute. auto. Qed.
