(* ===== verification/Export.v ===== *)
(** * internal/api/export.go

    The export of a run: JUnit XML from the database, OTLP from the spans in
    ClickHouse.  The marshallers, uuid.Parse, the query of ClickHouse and the order
    in which a map is ranged over are parameters. *)

From S2P Require Import Prelude GoSort GoBytes GoFmt GoRegexp GoStrings Model Db Effects Otlp Rest.

(** ** OTLP *)

Abbreviation ExportedSpan := spanRow (only parsing).

(** Pairs of digits; [None] when one is not a digit. *)
Fixpoint hexPairs (l : list Z) : option (list Z) :=
  match l with
  | a :: b :: l' =>
      match hexValue a, hexValue b with
      | Some hi, Some lo => cons (Z.lor (Z.shiftl hi 4) lo) <$> hexPairs l'
      | _, _ => None
      end
  | _ => Some []
  end.

(** [hexToBytes]: nil for a character that is no digit, the last of an odd number
    of characters apart. *)
Definition hexToBytes (s : string) : list Z := default [] (hexPairs (bytesOf s)).

Definition stringKV (k v : string) : KeyValue := mkKeyValue k (Some (StringValue v)).

Definition statusFromCode (code : Z) (msg : string) : SpanStatus :=
  mkSpanStatus (if code =? 1 then 1 else if code =? 2 then 2 else 0) msg.

Section otlp.
Context (rangeOf : gmap string string -> list (string * string)) (uuidParse : string -> option string).

(** [QuerySpansByRun]: [select] is the query, given the parsed id. *)
Definition QuerySpansByRun (select : string -> result (list ExportedSpan)) (runID : string) : result (list ExportedSpan) :=
  match uuidParse runID with
  | None => Err (ErrWrap "parse run id" (ErrText "invalid UUID"))
  | Some rid => select rid
  end.

Definition exportSpan (s : ExportedSpan) : Span :=
  mkSpan (hexToBytes (sr_TraceID s)) (hexToBytes (sr_SpanID s)) (hexToBytes (sr_ParentSpanID s)) (sr_Name s) (sr_Kind s)
    (sr_StartTime s mod 2 ^ 64) (sr_EndTime s mod 2 ^ 64)
    ([stringKV "teo.run_id" (sr_RunID s); stringKV "teo.test_id" (sr_TestID s)]
     ++ ((fun kv => stringKV kv.1 kv.2) <$>
          List.filter (fun kv : string * string => negb (String.eqb kv.1 "teo.run_id" || String.eqb kv.1 "teo.test_id"))
            (rangeOf (sr_Attributes s))))
    (Some (statusFromCode (sr_StatusCode s) (sr_StatusMessage s))).

Definition buildOTLP (spans : string -> result (list ExportedSpan)) (runID : string) : result ExportTraceServiceRequest :=
  match spans runID with
  | Err e => Err e
  | Ok rows =>
      Ok [mkResourceSpans [stringKV "teo.run_id" runID; stringKV "service.name" "teo"] [exportSpan <$> rows]]
  end.
End otlp.

(** ** JUnit *)

Record junitFailure := mkJunitFailure {
  jf_Message : string;
  jf_Type : string;
  jf_Body : string
}.

Record junitTestCase := mkJunitTestCase {
  jc_Classname : string;
  jc_Name : string;
  jc_Time : string;
  jc_Failure : option junitFailure;
  jc_Error : option junitFailure;
  jc_Skipped : bool
}.

Record junitTestSuite := mkJunitTestSuite {
  js_Name : string;
  js_Tests : Z;
  js_Failures : Z;
  js_Errors : Z;
  js_Skipped : Z;
  js_Time : string;
  js_Timestamp : string;
  js_Cases : list junitTestCase
}.

Record junitTestSuites := mkJunitTestSuites {
  jd_Name : string;
  jd_Tests : Z;
  jd_Failures : Z;
  jd_Errors : Z;
  jd_Skipped : Z;
  jd_Time : string;
  jd_Suites : list junitTestSuite
}.

(** [formatSeconds] *)
Definition formatSeconds (d : Z) : string := fixed3 (Seconds d).

(** One row of the query. *)
Record junitRow := mkJunitRow {
  jr_shardID : string;
  jr_shardIdx : Z;
  jr_startedAt : option Z;
  jr_path : string;
  jr_name : string;
  jr_outcome : string;
  jr_duration : Z;
  jr_message : string;
  jr_stack : string;
  jr_attempt : Z
}.

(** The joins: an execution of the run with its shard, its test and, when there is
    one, its cluster. *)
Definition junitRowOf (runID : string) (db : DB) (kv : (string * string * Z) * exec_row) : option junitRow :=
  let '(sid, tid, attempt) := kv.1 in
  match shards db !! sid, tests db !! tid with
  | Some s, Some t =>
      if String.eqb (s_run_id s) runID then
        let fc := match ex_failure_cluster_id kv.2 with Some c => failure_clusters db !! c | None => None end in
        Some (mkJunitRow sid (s_index s) (s_started_at s) (ts_path t) (ts_name t) (ex_outcome kv.2) (ex_duration_ms kv.2)
               (match fc with Some c => fc_representative_message c | None => "" end)
               (match fc with Some c => fc_representative_stack c | None => "" end) attempt)
      else None
  | _, _ => None
  end.

(** [ORDER BY s.index, t.path, t.name, te.attempt], texts byte by byte. *)
Definition textLess (a b : string) (rest : bool) : bool :=
  bytesLt (bytesOf a) (bytesOf b) || (String.eqb a b && rest).
Definition junitLess (a b : junitRow) : bool :=
  (jr_shardIdx a <? jr_shardIdx b)
  || ((jr_shardIdx a =? jr_shardIdx b)
      && textLess (jr_path a) (jr_path b) (textLess (jr_name a) (jr_name b) (jr_attempt a <? jr_attempt b))).

Definition selectJUnit (runID : string) (db : DB) : list junitRow :=
  SliceStable junitLess (omap (junitRowOf runID db) (map_to_list (test_executions db))).

(** The loop's variables: the suites by shard and their durations, the shards in
    order, the totals. *)
Record junitState := mkJunitState {
  bySuite : gmap string junitTestSuite;
  suiteDur : gmap string Z;
  suiteOrder : list string;
  totalTests : Z;
  totalFail : Z;
  totalErr : Z;
  totalSkip : Z;
  totalDur : Z
}.

Definition junitStart : junitState := mkJunitState ∅ ∅ [] 0 0 0 0 0.

(** The year 1 in microseconds. *)
Definition zeroTime : Z := -62135596800000000.

Definition newSuite (r : junitRow) : junitTestSuite :=
  mkJunitTestSuite ("shard-" +:+ itoa (jr_shardIdx r)) 0 0 0 0 ""
    (match jr_startedAt r with Some t => if t =? zeroTime then "" else RFC3339 t | None => "" end) [].

Definition isErrorOutcome (o : string) : bool :=
  String.eqb o "errored" || String.eqb o "timed_out" || String.eqb o "interrupted".

Definition caseOf (r : junitRow) : junitTestCase :=
  mkJunitTestCase (jr_path r) (jr_name r) (formatSeconds (jr_duration r * 1000000))
    (if String.eqb (jr_outcome r) "failed" then Some (mkJunitFailure (jr_message r) "failed" (jr_stack r)) else None)
    (if isErrorOutcome (jr_outcome r) then Some (mkJunitFailure (jr_message r) (jr_outcome r) (jr_stack r)) else None)
    (String.eqb (jr_outcome r) "skipped").

Definition addCase (r : junitRow) (s : junitTestSuite) : junitTestSuite :=
  mkJunitTestSuite (js_Name s) (js_Tests s + 1)
    (js_Failures s + Z.b2z (String.eqb (jr_outcome r) "failed"))
    (js_Errors s + Z.b2z (isErrorOutcome (jr_outcome r)))
    (js_Skipped s + Z.b2z (String.eqb (jr_outcome r) "skipped"))
    (js_Time s) (js_Timestamp s) (js_Cases s ++ [caseOf r]).

(** One row of the loop. *)
Definition addRow (st : junitState) (r : junitRow) : junitState :=
  let '(suite, order) := match bySuite st !! jr_shardID r with
    | Some s => (s, suiteOrder st)
    | None => (newSuite r, suiteOrder st ++ [jr_shardID r])
    end in
  let dur := jr_duration r * 1000000 in
  mkJunitState (<[jr_shardID r := addCase r suite]> (bySuite st))
    (<[jr_shardID r := wrap64 (default 0 (suiteDur st !! jr_shardID r) + dur)]> (suiteDur st)) order
    (totalTests st + 1)
    (totalFail st + Z.b2z (String.eqb (jr_outcome r) "failed"))
    (totalErr st + Z.b2z (isErrorOutcome (jr_outcome r)))
    (totalSkip st + Z.b2z (String.eqb (jr_outcome r) "skipped"))
    (wrap64 (totalDur st + dur)).

Definition timedSuite (st : junitState) (sid : string) : option junitTestSuite :=
  (fun s => mkJunitTestSuite (js_Name s) (js_Tests s) (js_Failures s) (js_Errors s) (js_Skipped s)
     (formatSeconds (default 0 (suiteDur st !! sid))) (js_Timestamp s) (js_Cases s)) <$> bySuite st !! sid.

Definition junitDoc (runID : string) (st : junitState) : junitTestSuites :=
  mkJunitTestSuites ("run-" +:+ runID) (totalTests st) (totalFail st) (totalErr st) (totalSkip st)
    (formatSeconds (totalDur st)) (omap (timedSuite st) (suiteOrder st)).

Definition buildJUnit (runID : string) : M junitTestSuites :=
  rows ←! poolExec (query (selectJUnit runID)) ;
  retM (junitDoc runID (foldl addRow junitStart rows)).

(** ** The endpoint *)

(** The content type and the body. *)
Record exportBody := mkExportBody {
  eb_ContentType : string;
  eb_Body : string
}.

Section handler.
Context (rangeOf : gmap string string -> list (string * string)) (uuidParse : string -> option string)
  (xmlMarshal : junitTestSuites -> result string) (protoMarshal protojson : ExportTraceServiceRequest -> result string)
  (xmlHeader : string).

Definition marshalled {A} (status : Z) (contentType : string) (m : A -> result string) (a : A) (prefix : string) : M (reply exportBody) :=
  match m a with
  | Err e => writeProblem 500 "Marshal failed" (DError e) []
  | Ok body => writeJSON status (mkExportBody contentType (prefix +:+ body))
  end.

(** [GET /api/v1/runs/{id}/export?format=..&as=..]; [spans] is the query of
    ClickHouse, when there is a connection. *)
Definition exportHandler (spans : option (string -> result (list ExportedSpan))) (principal : bool) (runID format as_ : string)
    : M (reply exportBody) :=
  if negb principal then unauthorized
  else match uuidParse runID with
  | None => writeProblem 400 "Invalid id" (DText "run id must be a UUID") []
  | Some _ =>
      exists_ ←! tryM (poolExec (query (fun db => bool_decide (is_Some (runs db !! runID))))) ;
      match exists_ with
      | Err e => writeProblem 500 "Database error" (DError e) []
      | Ok false => writeProblem 404 "Not found" (DText ("run " +:+ runID +:+ " does not exist")) []
      | Ok true =>
          if bool_decide (toLower format = toText "junit") then
            doc ←! tryM (buildJUnit runID) ;
            match doc with
            | Err e => writeProblem 500 "Build failed" (DError e) []
            | Ok doc => marshalled 200 "application/xml; charset=utf-8" xmlMarshal doc xmlHeader
            end
          else if bool_decide (toLower format = toText "otlp") then
            match spans with
            | None => writeProblem 501 "OTLP export unavailable" (DText "server is not configured with a ClickHouse connection") []
            | Some select =>
                match buildOTLP rangeOf (QuerySpansByRun uuidParse select) runID with
                | Err e => writeProblem 500 "Build failed" (DError e) []
                | Ok req =>
                    if String.eqb as_ "json" then marshalled 200 "application/json" protojson req ""
                    else marshalled 200 "application/x-protobuf" protoMarshal req ""
                end
            end
          else writeProblem 400 "Invalid format" (DText ("format must be " +:+ dq +:+ "junit" +:+ dq +:+ " or " +:+ dq +:+ "otlp" +:+ dq)) []
      end
  end.
End handler.

Example hexToBytes_demo : hexToBytes <$> [""; "00fF1"; "0g"] = [[]; [0; 255]; []].
Proof. vm_compute. reflexivity. Qed.
Example formatSeconds_demo : formatSeconds <$> [0; 1500000000; 12345678901; -1000000] = ["0.000"; "1.500"; "12.346"; "-0.001"].
Proof. vm_compute. reflexivity. Qed.
