(* ===== verification/Webhook.v ===== *)
(** * internal/github/webhook.go

    The receiver of the App's events: the signature over the body, and the
    installation events.  What [json.Unmarshal] makes of a body is a parameter;
    SHA-256 and HMAC are those of [GoBytes]. *)

From S2P Require Import Prelude GoBytes GoRegexp GoStrings Db Effects RunManagerProps RunSvcProps WorkerProps Witnesses.

(** ** The signature *)

Definition sigPrefix : string := "sha256=".

(** [VerifySignature]; [None] is no error. *)
Definition VerifySignature (body secret sigHeader : string) : option error :=
  if negb (hasPrefix (toText sigHeader) (toText sigPrefix)) then Some (ErrText "missing or malformed signature")
  else match hexDecode (bytesOf (ofText (drop (String.length sigPrefix) (toText sigHeader)))) with
  | None => Some (ErrText "bad hex in signature")
  | Some want =>
      if bool_decide (want = hmacSHA256 (bytesOf secret) (bytesOf body)) then None
      else Some (ErrText "signature mismatch")
  end.

(** ** Installation events *)

Record installationEvent := mkInstallationEvent {
  ie_Action : string;
  ie_ID : Z;
  ie_Login : string;
  ie_Type : string;
  ie_Repositories : list string
}.

Definition suspending (action : string) : bool := String.eqb action "deleted" || String.eqb action "suspend".

(** [INSERT INTO teo.github_installations .. ON CONFLICT (id) DO UPDATE]; the
    trigger of the table sets [updated_at]. *)
Definition stmtUpsertInstallation (e : installationEvent) (suspended : bool) : Stmt unit := fun now db =>
  let created := match github_installations db !! ie_ID e with Some g => gi_created_at g | None => now end in
  (Ok tt, set_github_installations
    (<[ie_ID e := mkInstallRow (ie_Login e) (ie_Type e) suspended created now]> (github_installations db)) db).

Definition isRepo (name : string) (kv : string * repo_row) : bool :=
  String.eqb (rp_vcs kv.2) "github" && String.eqb (rp_full_name kv.2) name.

Definition enableRepo (r : repo_row) : repo_row :=
  mkRepoRow (rp_vcs r) (rp_full_name r) true (rp_auto_quarantine_enabled r).

(** [INSERT INTO teo.repos .. ON CONFLICT (vcs, full_name) DO UPDATE SET enabled =
    TRUE]; [fresh] is the id a new row gets. *)
Definition stmtEnableRepo (fresh name : string) : Stmt unit := fun _ db =>
  match List.find (isRepo name) (map_to_list (repos db)) with
  | Some (id, r) => (Ok tt, set_repos (<[id := enableRepo r]> (repos db)) db)
  | None =>
      if bool_decide (is_Some (repos db !! fresh)) then (Err uniqueViolation, db)
      else (Ok tt, set_repos (<[fresh := mkRepoRow "github" name true true]> (repos db)) db)
  end.

(** One repository of the event; an error is logged and the next one is tried. *)
Definition upsertRepo (name : string) : M unit :=
  fresh ←! newUUID ; ignoreM (poolExec (stmtEnableRepo fresh name)).

Section receiver.
Context (decode : string -> option installationEvent) (secret : string).

Definition handleInstallation (body : string) : M unit :=
  match decode body with
  | None => retM tt
  | Some e =>
      let suspended := suspending (ie_Action e) in
      r ←! tryM (poolExec (stmtUpsertInstallation e suspended)) ;
      match r with
      | Err _ => retM tt
      | Ok _ => if suspending (ie_Action e) then retM tt else forM_ (ie_Repositories e) upsertRepo
      end
  end.

(** ** The receiver *)

(** A request: its body, when it can be read, and two headers. *)
Record hookRequest := mkHookRequest {
  hk_Body : option string;
  hk_Signature : string;
  hk_Event : string
}.

Definition maxBody : Z := 5242880.

(** [io.ReadAll] of [http.MaxBytesReader(rw, r.Body, 5<<20)] *)
Definition readBody (rq : hookRequest) : option string :=
  match hk_Body rq with
  | Some b => if Z.of_nat (String.length b) <=? maxBody then Some b else None
  | None => None
  end.

(** The status written. *)
Definition ServeHTTP (rq : hookRequest) : M Z :=
  match readBody rq with
  | None => retM 400
  | Some body =>
      match VerifySignature body secret (hk_Signature rq) with
      | Some _ => retM 401
      | None =>
          whenM (String.eqb (hk_Event rq) "installation" || String.eqb (hk_Event rq) "installation_repositories")
            (handleInstallation body) ;!
          retM 200
      end
  end.
End receiver.

(** * What the webhook receiver lets through, and what an installation event does *)


(** ** The repositories after an event *)

(** No repository is held twice. *)
Definition UniqueRepos (rs : gmap string repo_row) : Prop :=
  forall i j r r', rs !! i = Some r -> rs !! j = Some r' ->
    rp_vcs r = rp_vcs r' -> rp_full_name r = rp_full_name r' -> i = j.

Definition named (names : list string) (r : repo_row) : bool :=
  String.eqb (rp_vcs r) "github" && bool_decide (rp_full_name r ∈ names).

(** [rs] is [rs0] with the repositories of [names] present and enabled. *)
Record ReposEnabled (rs0 : gmap string repo_row) (names : list string) (rs : gmap string repo_row) : Prop := {
  en_old i r : rs0 !! i = Some r -> rs !! i = Some (if named names r then enableRepo r else r);
  en_new i r : rs !! i = Some r -> rs0 !! i = None -> exists name, name ∈ names /\ r = mkRepoRow "github" name true true;
  en_all name : name ∈ names -> exists i r, rs !! i = Some r /\ rp_vcs r = "github" /\ rp_full_name r = name /\ rp_enabled r = true;
  en_unique : UniqueRepos rs
}.

Lemma named_snoc names name r : named (names ++ [name]) r
  = named names r || isRepo name ("", r).
Proof.
  unfold named, isRepo. cbn [snd]. rewrite <-andb_orb_distrib_r. f_equal.
  destruct (String.eqb_spec (rp_full_name r) name) as [->|Hne]; rewrite ?orb_true_r, ?orb_false_r;
    [apply bool_decide_eq_true_2; set_solver|apply bool_decide_ext; set_solver].
Qed.

Lemma enableRepo_idem r : enableRepo (enableRepo r) = enableRepo r.
Proof. done. Qed.

Lemma isRepo_found name db i r : List.find (isRepo name) (map_to_list (repos db)) = Some (i, r) ->
  repos db !! i = Some r /\ rp_vcs r = "github" /\ rp_full_name r = name.
Proof.
  intros [Hin Hk]%find_some. apply list_elem_of_In, elem_of_map_to_list in Hin.
  by apply andb_true_iff in Hk as [H1%String.eqb_eq H2%String.eqb_eq].
Qed.

Lemma isRepo_none name db i r : List.find (isRepo name) (map_to_list (repos db)) = None ->
  repos db !! i = Some r -> rp_vcs r = "github" -> rp_full_name r <> name.
Proof.
  intros Hn Hr Hv <-. pose proof (find_none _ _ Hn (i, r)) as H0.
  rewrite <-list_elem_of_In, elem_of_map_to_list in H0. specialize (H0 Hr). unfold isRepo in H0. cbn [snd] in H0.
  by rewrite Hv, !String.eqb_refl in H0.
Qed.

Section upserts.
Context (now : Z) (u : nat -> string) (Hu : Inj (=) (=) u) (held : gset Z) (ag : AgentState).

Definition FreshRepos (n : nat) (rs : gmap string repo_row) : Prop := forall k, (n <= k)%nat -> rs !! u k = None.

Lemma enable_one rs0 names db n name : ReposEnabled rs0 names (repos db) -> FreshRepos n (repos db) ->
  exists rs, stmtEnableRepo (u n) name now db = (Ok tt, set_repos rs db)
    /\ ReposEnabled rs0 (names ++ [name]) rs /\ FreshRepos (S n) rs.
Proof.
  intros [Hold Hnew Hall Huniq] Hf. unfold stmtEnableRepo.
  destruct (List.find (isRepo name) (map_to_list (repos db))) as [[i r]|] eqn:E.
  - apply isRepo_found in E as (Hi & Hv & Hn). eexists. split; [reflexivity|]. split; [split|].
    + intros j r0 Hj. pose proof (Hold _ _ Hj) as Hj'. rewrite named_snoc. destruct (decide (j = i)) as [->|Hne].
      * rewrite Hi in Hj'. injection Hj' as ->. rewrite lookup_insert_eq. unfold isRepo. cbn [snd].
        assert (rp_vcs r0 = "github" /\ rp_full_name r0 = name) as [-> ->] by (by destruct (named names r0)).
        rewrite !String.eqb_refl, orb_true_r. f_equal. by destruct (named names r0).
      * rewrite lookup_insert_ne by done. rewrite Hj'. f_equal.
        destruct (isRepo name ("", r0)) eqn:En; [|by rewrite orb_false_r]. exfalso. apply Hne.
        unfold isRepo in En. cbn [snd] in En. apply andb_true_iff in En as [H1%String.eqb_eq H2%String.eqb_eq].
        apply (Huniq _ _ _ _ Hj' Hi); destruct (named names r0); cbn; congruence.
    + intros j r0 Hj H0. destruct (decide (j = i)) as [->|Hne].
      * rewrite lookup_insert_eq in Hj. injection Hj as <-. destruct (Hnew _ _ Hi H0) as (nm & Hin & ->).
        exists nm. split; [set_solver|done].
      * rewrite lookup_insert_ne in Hj by done. destruct (Hnew _ _ Hj H0) as (nm & Hin & ->). exists nm. split; [set_solver|done].
    + intros nm Hin. destruct (decide (nm = name)) as [->|Hne].
      * exists i, (enableRepo r). by rewrite lookup_insert_eq.
      * destruct (Hall nm) as (j & r0 & Hj & H1 & H2 & H3); [set_solver|]. exists j, r0.
        rewrite lookup_insert_ne; [done|]. intros <-. congruence.
    + intros j k r1 r2 Hj Hk E1 E2.
      assert (forall j r1, <[i:=enableRepo r]> (repos db) !! j = Some r1 -> exists r1', repos db !! j = Some r1'
        /\ rp_vcs r1' = rp_vcs r1 /\ rp_full_name r1' = rp_full_name r1) as Hb.
      { intros j0 r0 [[<- <-]|[_ H0]]%lookup_insert_Some; eauto. }
      destruct (Hb _ _ Hj) as (a & Ha & A1 & A2), (Hb _ _ Hk) as (b & Hb' & B1 & B2). eapply Huniq; [exact Ha|exact Hb'| |]; congruence.
    + intros k Hk. rewrite lookup_insert_ne by (intros ->; rewrite Hf in Hi by lia; done). apply Hf. lia.
  - rewrite bool_decide_false by (rewrite Hf by lia; intros [? ?]; done). eexists. split; [reflexivity|]. split; [split|].
    + intros j r0 Hj. pose proof (Hold _ _ Hj) as Hj'. rewrite named_snoc.
      rewrite lookup_insert_ne by (intros <-; rewrite Hf in Hj' by lia; done). rewrite Hj'. f_equal.
      destruct (isRepo name ("", r0)) eqn:En; [|by rewrite orb_false_r]. exfalso. unfold isRepo in En. cbn [snd] in En.
      apply andb_true_iff in En as [H1%String.eqb_eq H2%String.eqb_eq].
      apply (isRepo_none _ _ _ _ E Hj'); by destruct (named names r0).
    + intros j r0 [[<- <-]|[Hne Hj]]%lookup_insert_Some H0.
      * exists name. split; [set_solver|done].
      * destruct (Hnew _ _ Hj H0) as (nm & Hin & ->). exists nm. split; [set_solver|done].
    + intros nm Hin. destruct (decide (nm = name)) as [->|Hne].
      * exists (u n), (mkRepoRow "github" name true true). by rewrite lookup_insert_eq.
      * destruct (Hall nm) as (j & r0 & Hj & H1 & H2 & H3); [set_solver|]. exists j, r0.
        rewrite lookup_insert_ne; [done|]. intros <-. rewrite Hf in Hj by lia. done.
    + intros j k r1 r2 [[<- <-]|[Hne1 Hj]]%lookup_insert_Some [[<- <-]|[Hne2 Hk]]%lookup_insert_Some E1 E2; [done| | |by eapply Huniq].
      * by destruct (isRepo_none _ _ _ _ E Hk (eq_sym E1)).
      * by destruct (isRepo_none _ _ _ _ E Hj E1).
    + intros k Hk. rewrite lookup_insert_ne by (intros E'%(inj u); lia). apply Hf. lia.
Qed.

Lemma upsertRepos_quiet rs0 l names db n out : ReposEnabled rs0 names (repos db) -> FreshRepos n (repos db) ->
  exists rs n', forM_ l upsertRepo (QW db None now u n held out ag) = (Ok tt, QW (set_repos rs db) None now u n' held out ag)
    /\ ReposEnabled rs0 (names ++ l) rs.
Proof.
  revert names db n. induction l as [|name l IH]; intros names db n He Hf; cbn [forM_].
  - exists (repos db), n. rewrite app_nil_r. by destruct db.
  - destruct (enable_one rs0 names db n name He Hf) as (rs & Es & He' & Hf').
    destruct (IH (names ++ [name]) (set_repos rs db) (S n) He' Hf') as (rs' & n' & E & He'').
    exists rs', n'. rewrite (app_assoc names [name] l : names ++ name :: l = _). split; [|done].
    erewrite bindM_ok; [exact E|]. unfold upsertRepo. erewrite bindM_ok; [|apply newUUID_quiet].
    erewrite ignoreM_eq; [reflexivity|]. by apply poolExec_quiet.
Qed.
End upserts.

(** ** The receiver *)

Section receiver.
Context (decode : string -> option installationEvent) (secret : string).

(** GitHub's signature of the body, in hexadecimal digits of either case. *)
Definition Signed (rq : hookRequest) (body : string) : Prop :=
  hk_Body rq = Some body /\ Z.of_nat (String.length body) <= maxBody
  /\ exists sig, hk_Signature rq = sigPrefix +:+ sig
       /\ hexDecode (bytesOf sig) = Some (hmacSHA256 (bytesOf secret) (bytesOf body)).

Lemma readBody_some rq body : readBody rq = Some body <-> hk_Body rq = Some body /\ Z.of_nat (String.length body) <= maxBody.
Proof.
  unfold readBody. destruct (hk_Body rq) as [b|]; [|by split; [|intros [? _]]].
  destruct (Z.leb_spec (Z.of_nat (String.length b)) maxBody).
  - split; [by intros [= ->]|]. by intros [[= ->] _].
  - split; [done|]. intros [[= ->] ?]. lia.
Qed.

Lemma VerifySignature_ok body sig : VerifySignature body secret sig = None <->
  exists hex, sig = sigPrefix +:+ hex /\ hexDecode (bytesOf hex) = Some (hmacSHA256 (bytesOf secret) (bytesOf body)).
Proof.
  unfold VerifySignature. destruct (hasPrefix (toText sig) (toText sigPrefix)) eqn:E; cbn [negb].
  - apply hasPrefix_app in E as [t Et].
    assert (sig = sigPrefix +:+ ofText t) as ->.
    { rewrite <-(ofText_toText sig), Et, <-(ofText_toText (sigPrefix +:+ ofText t)). by rewrite toText_app, toText_ofText. }
    replace (drop (String.length sigPrefix) (toText (sigPrefix +:+ ofText t))) with t
      by (rewrite toText_app, toText_ofText; reflexivity).
    destruct (hexDecode (bytesOf (ofText t))) as [want|] eqn:Ew.
    + case_bool_decide as Hd.
      * split; [|done]. intros _. exists (ofText t). by rewrite Ew, Hd.
      * split; [done|]. intros (hex & Eh%(inj (String.append sigPrefix)) & Ed). rewrite <-Eh in Ed. congruence.
    + split; [done|]. intros (hex & Eh%(inj (String.append sigPrefix)) & Ed). rewrite <-Eh in Ed. congruence.
  - split; [done|]. intros (hex & -> & _). exfalso.
    assert (hasPrefix (toText (sigPrefix +:+ hex)) (toText sigPrefix) = true) as H1; [|congruence].
    apply hasPrefix_app. exists (toText hex). apply toText_app.
Qed.

Definition installing (rq : hookRequest) : bool :=
  String.eqb (hk_Event rq) "installation" || String.eqb (hk_Event rq) "installation_repositories".

Lemma serve_signed rq body w : Signed rq body ->
  ServeHTTP decode secret rq w = (whenM (installing rq) (handleInstallation decode body) ;! retM 200) w.
Proof.
  intros (H1 & H2 & H3). unfold ServeHTTP. rewrite (proj2 (readBody_some rq body)) by done.
  by rewrite (proj2 (VerifySignature_ok body _) H3).
Qed.

Lemma serve_unsigned rq w : (forall body, ~ Signed rq body) ->
  ServeHTTP decode secret rq w = (Ok 400, w) \/ ServeHTTP decode secret rq w = (Ok 401, w).
Proof.
  intros Hno. unfold ServeHTTP. destruct (readBody rq) as [body|] eqn:Eb; [|by left].
  apply readBody_some in Eb as [B1 B2]. destruct (VerifySignature body secret (hk_Signature rq)) eqn:Ev; [by right|].
  exfalso. apply (Hno body). by apply VerifySignature_ok in Ev.
Qed.

Lemma genuine_signed body ev : Z.of_nat (String.length body) <= maxBody ->
  Signed (mkHookRequest (Some body) (sigPrefix +:+ hexString (hmacSHA256 (bytesOf secret) (bytesOf body))) ev) body.
Proof.
  intros Hl. split; [done|]. split; [done|]. eexists. split; [reflexivity|]. unfold hexString.
  rewrite bytesOf_stringOf by apply hexEncode_isByte, hmacSHA256_isByte. apply hexDecode_encode, hmacSHA256_isByte.
Qed.

Context (now : Z) (u : nat -> string) (Hu : Inj (=) (=) u) (held : gset Z) (ag : AgentState).

(** The row an event leaves of its installation. *)
Definition installationOf (e : installationEvent) (db : DB) : install_row :=
  mkInstallRow (ie_Login e) (ie_Type e) (suspending (ie_Action e))
    (default now (gi_created_at <$> github_installations db !! ie_ID e)) now.

Lemma handleInstallation_quiet body e db n out : decode body = Some e -> UniqueRepos (repos db) -> FreshRepos u n (repos db) ->
  exists rs n', handleInstallation decode body (QW db None now u n held out ag)
      = (Ok tt, QW (set_repos rs (set_github_installations (<[ie_ID e := installationOf e db]> (github_installations db)) db))
                  None now u n' held out ag)
    /\ ReposEnabled (repos db) (if suspending (ie_Action e) then [] else ie_Repositories e) rs.
Proof.
  intros He Hq Hf. unfold handleInstallation. rewrite He. cbv zeta.
  assert (ReposEnabled (repos db) [] (repos db)) as H0.
  { split; [|intros i r H1 H2; congruence|intros nm []%not_elem_of_nil|done].
    intros i r Hi. rewrite Hi. unfold named. by rewrite bool_decide_false, andb_false_r by apply not_elem_of_nil. }
  set (db1 := set_github_installations (<[ie_ID e := installationOf e db]> (github_installations db)) db).
  erewrite bindM_ok; [|eapply tryM_eq, (poolExec_quiet _ _ _ _ _ _ _ _ tt db1)].
  2: { unfold stmtUpsertInstallation, db1, installationOf. by destruct (github_installations db !! ie_ID e). }
  cbv beta iota. destruct (suspending (ie_Action e)) eqn:Es.
  - exists (repos db), n. split; [|done]. unfold retM. subst db1. by destruct db.
  - destruct (upsertRepos_quiet now u Hu held ag (repos db) (ie_Repositories e) [] db1 n out) as (rs & n' & E & Hen); [done|done|].
    exists rs, n'. by split.
Qed.

(** C33: A delivery whose body is missing, too large or not signed with the secret
    is refused with 400 or 401 and changes nothing, whatever else goes on; the
    body's HMAC in hexadecimal is accepted.  An accepted installation event in a
    quiet world answers 200 and writes the row of its installation, suspended
    exactly for deleted and suspend - whatever an earlier or later event said -
    and, for the other actions, adds or enables exactly the repositories it
    names. *)
Theorem webhook_applies_signed :
  (forall rq w, (forall body, ~ Signed rq body) ->
     exists st, st ∈ [400; 401] /\ ServeHTTP decode secret rq w = (Ok st, w))
  /\ (forall body ev, Z.of_nat (String.length body) <= maxBody ->
     Signed (mkHookRequest (Some body) (sigPrefix +:+ hexString (hmacSHA256 (bytesOf secret) (bytesOf body))) ev) body)
  /\ forall rq body e db n out, Signed rq body -> installing rq = true -> decode body = Some e ->
     UniqueRepos (repos db) -> FreshRepos u n (repos db) ->
     exists db' n', ServeHTTP decode secret rq (QW db None now u n held out ag) = (Ok 200, QW db' None now u n' held out ag)
       /\ github_installations db' = <[ie_ID e := installationOf e db]> (github_installations db)
       /\ ReposEnabled (repos db) (if suspending (ie_Action e) then [] else ie_Repositories e) (repos db')
       /\ db' = set_repos (repos db') (set_github_installations (github_installations db') db).
Proof.
  split_and!; [| apply genuine_signed |].
  - intros rq w Hno. destruct (serve_unsigned rq w Hno) as [E|E]; rewrite E; eexists; split; [|done| |done]; set_solver.
  - intros rq body e db n out Hs Hi He Hq Hf. destruct (handleInstallation_quiet body e db n out He Hq Hf) as (rs & n' & E & Hen).
    exists (set_repos rs (set_github_installations (<[ie_ID e := installationOf e db]> (github_installations db)) db)), n'.
    split_and!; [|done|done|done]. rewrite (serve_signed rq body _ Hs), Hi. unfold whenM. by erewrite bindM_ok by exact E.
Qed.
End receiver.

(** *** A redelivered event *)

Module HookDemo.
Definition secret : string := "s3cret".
Definition body : string := "created".
Definition decode (b : string) : option installationEvent :=
  if String.eqb b body then Some (mkInstallationEvent "created" 7 "acme" "Organization" ["acme/app"; "acme/lib"]) else None.
Definition request : hookRequest :=
  mkHookRequest (Some body) (sigPrefix +:+ hexString (hmacSHA256 (bytesOf secret) (bytesOf body))) "installation".
(** The App was removed since. *)
Definition db : DB := set_repos {[ "r1" := mkRepoRow "github" "acme/app" false false ]}
  (set_github_installations {[ 7 := mkInstallRow "acme" "Organization" true 3 9 ]} emptyDB).
End HookDemo.

Lemma demo_repo i r : repos HookDemo.db !! i = Some r -> i = "r1" /\ r = mkRepoRow "github" "acme/app" false false.
Proof.
  change (repos HookDemo.db) with ({[ "r1" := mkRepoRow "github" "acme/app" false false ]} : gmap string repo_row).
  by intros [<- <-]%lookup_singleton_Some.
Qed.

(** The same delivery once more brings the removed App back as installed. *)
Lemma webhook_applies_signed_witness : exists db' n',
  ServeHTTP HookDemo.decode HookDemo.secret HookDemo.request (QW HookDemo.db None 50 Demo.ids 0 ∅ [] (calm ""))
    = (Ok 200, QW db' None 50 Demo.ids n' ∅ [] (calm ""))
  /\ github_installations db' !! 7 = Some (mkInstallRow "acme" "Organization" false 3 50)
  /\ repos db' !! "r1" = Some (mkRepoRow "github" "acme/app" true false)
  /\ (exists i, repos db' !! i = Some (mkRepoRow "github" "acme/lib" true true))
  /\ ServeHTTP HookDemo.decode "other" HookDemo.request (QW HookDemo.db None 50 Demo.ids 0 ∅ [] (calm ""))
    = (Ok 401, QW HookDemo.db None 50 Demo.ids 0 ∅ [] (calm "")).
Proof.
  destruct (webhook_applies_signed HookDemo.decode HookDemo.secret 50 Demo.ids Demo.ids_inj ∅ (calm "")) as (_ & G & A).
  destruct (A HookDemo.request HookDemo.body (mkInstallationEvent "created" 7 "acme" "Organization" ["acme/app"; "acme/lib"])
    HookDemo.db 0%nat []) as (db' & n' & E & Hg & He & _).
  - apply G. vm_compute. discriminate.
  - reflexivity.
  - reflexivity.
  - intros i j r r' [-> _]%demo_repo [-> _]%demo_repo _ _. reflexivity.
  - intros k _. destruct (repos HookDemo.db !! Demo.ids k) eqn:Ek; [|reflexivity]. apply demo_repo in Ek as [Ek _]. by destruct k.
  - exists db', n'. split; [exact E|]. split; [by rewrite Hg|]. split; [|split].
    + exact (en_old _ _ _ He "r1" _ eq_refl).
    + destruct (en_all _ _ _ He "acme/lib") as (i & r & Hi & Hv & Hn & _); [right; left|]. exists i. rewrite Hi. f_equal.
      destruct (repos HookDemo.db !! i) as [r0|] eqn:E0.
      * apply demo_repo in E0 as [-> ->]. pose proof (en_old _ _ _ He "r1" _ eq_refl) as Ho. exfalso. rewrite Hi in Ho. injection Ho as ->. discriminate.
      * destruct (en_new _ _ _ He _ _ Hi E0) as (nm & _ & ->). cbn in Hn. by rewrite Hn.
    + vm_compute. reflexivity.
Defined.
