(* ===== verification/JobsSafe.v ===== *)
(** * The periodic jobs and the mutations under interference

    The flake job, the quarantine daemon, the SLA sweep, the proposer, restore
    tokens, the cluster backfill and the GraphQL mutations keep any row relation
    their statements keep, and the statements keep [Evolves] and [NoFinalize]. *)

From S2P Require Import Prelude Model Scheduler Db Effects StateMachine Lifecycle.
From S2P Require Import RunManager RunManagerSafe RunSvc ServicesSafe Cluster.
From S2P Require Import Flake Quarantine Backfill Auth Graphql CheckObserver LlmHints Webhook.

(** The CHECK constraint on [tests.status]. *)
Definition testStatuses : list string := ["active"; "quarantined"; "broken"; "deleted"].

(** Changes of a test row that keep its identity and a legal status. *)
Definition keepsIdentity (f : test_row -> test_row) : Prop :=
  forall t, testEvolves t (f t) /\ (ts_status t ∈ testStatuses -> ts_status (f t) ∈ testStatuses).

(** Changes of a flake record that leave the figures alone and write no issue
    number out of range. *)
Definition keepsFigures (f : flake_row -> flake_row) : Prop := forall r,
  (fr_flake_rate (f r), fr_wilson_lower (f r), fr_wilson_upper (f r), fr_sample_size (f r))
    = (fr_flake_rate r, fr_wilson_lower r, fr_wilson_upper r, fr_sample_size r)
  /\ (fr_github_issue_number (f r) = fr_github_issue_number r \/ int4 (default 0 (fr_github_issue_number (f r))) = true).

Class JobStmts (R : RowRel) : Prop := {
  js_test :: forall id g f, keepsIdentity f -> StmtKeeps R (updateTest id g f);
  js_token :: forall tok id secs, StmtKeeps R (stmtInsertToken tok id secs);
  js_consume :: forall tok, StmtKeeps R (stmtConsume tok);
  js_assign :: forall id c, StmtKeeps R (stmtAssignCluster id c);
  js_rerun :: forall id repo c b p n rn, StmtKeeps R (stmtInsertRerun id repo c b p n rn);
  js_check :: forall k id, StmtKeeps R (stmtSetCheckRun k id);
  js_flake :: forall id f, keepsFigures f -> StmtKeeps R (updateFlake id f);
  js_reopen :: forall id, StmtKeeps R (stmtUnquarantineOpen id);
  js_upsert :: forall (F : Type) (num : F -> result Z) id d, StmtKeeps R (stmtFlakeUpsert num id d);
  js_hint :: forall h b, StmtKeeps R (stmtSaveHint h b);
  js_repo :: forall fresh name, StmtKeeps R (stmtEnableRepo fresh name)
}.

Lemma set_quarantine_keeps s a r : s ∈ testStatuses -> keepsIdentity (ts_set_quarantine s a r).
Proof. intros Hs t. split; [by split|done]. Qed.
Lemma set_status_keeps s : s ∈ testStatuses -> keepsIdentity (ts_set_status s).
Proof. intros Hs t. split; [by split|done]. Qed.

(** A statement whose text depends on the time keeps [R] when it does at each. *)
Lemma timed_keeps R {A} (s : Z -> Stmt A) : (forall now, StmtKeeps R (s now)) -> StmtKeeps R (fun now => s now now).
Proof. intros H now db a db' E. exact (H now now db a db' E). Qed.

Section jobs.
Context (R : RowRel) `{!RowPreOrder R} `{!JobStmts R} `{!ServiceStmts R}.

#[local] Instance quarantineTest_keeps id : StmtKeeps R (stmtQuarantineTest id).
Proof. apply (timed_keeps R (fun now => updateTest id _ _)). intros now. apply js_test, set_quarantine_keeps; known. Qed.
#[local] Instance manual_keeps id r : StmtKeeps R (stmtManualQuarantine id r).
Proof. apply (timed_keeps R (fun now => updateTest id _ _)). intros now. apply js_test, set_quarantine_keeps; known. Qed.
#[local] Instance manualUn_keeps id : StmtKeeps R (stmtManualUnquarantine id).
Proof. apply js_test, set_quarantine_keeps; known. Qed.
#[local] Instance activate_keeps id : StmtKeeps R (stmtActivate id).
Proof. apply js_test, set_quarantine_keeps; known. Qed.
#[local] Instance broken_keeps id : StmtKeeps R (stmtBroken id).
Proof. apply js_test, set_status_keeps; known. Qed.

(** An update of a flake record with the time in it. *)
Lemma timedFlake_keeps id (f : Z -> flake_row -> flake_row) :
  (forall now, keepsFigures (f now)) -> StmtKeeps R (fun now => updateFlake id (f now) now).
Proof. intros H. apply (timed_keeps R (fun now => updateFlake id (f now))). intros now. apply js_flake, H. Qed.

#[local] Instance quarantineRecord_keeps id : StmtKeeps R (stmtQuarantineRecord id).
Proof. apply (timedFlake_keeps id (fun now => fr_set_quarantined_at (Some now))). intros now r. split; [done|by left]. Qed.
#[local] Instance nudged_keeps id : StmtKeeps R (stmtNudged id).
Proof. apply (timedFlake_keeps id (fun now => fr_set_last_nudged_at (Some now))). intros now r. split; [done|by left]. Qed.
#[local] Instance proposed_keeps id : StmtKeeps R (stmtProposed id).
Proof. apply (timedFlake_keeps id (fun now => fr_set_proposed_at (Some now))). intros now r. split; [done|by left]. Qed.
#[local] Instance unquarantineRecord_keeps id : StmtKeeps R (stmtUnquarantineRecord id).
Proof.
  apply (timedFlake_keeps id (fun now r => fr_set_unquarantined_at (Some now) (fr_set_quarantined_at None r))).
  intros now r. split; [done|by left].
Qed.
#[local] Instance setIssue_keeps n url id : StmtKeeps R (stmtSetIssue n url id).
Proof.
  intros now db a db'. unfold stmtSetIssue. destruct (int4 n) eqn:En; [|done].
  apply js_flake. intros r. split; [done|by right].
Qed.

(** Statements that read. *)
Lemma reads_keep {A} (s : Stmt A) : (forall now db, (s now db).2 = db) -> StmtKeeps R s.
Proof. intros H now db a db' E. pose proof (H now db) as Hd. rewrite E in Hd. simpl in Hd. subst. reflexivity. Qed.
#[local] Instance eligible_keeps n : StmtKeeps R (selectEligible n).
Proof. by apply reads_keep. Qed.
#[local] Instance overdue_keeps n : StmtKeeps R (selectOverdue n).
Proof. by apply reads_keep. Qed.
#[local] Instance restorable_keeps n : StmtKeeps R (selectRestorable n).
Proof. by apply reads_keep. Qed.
#[local] Instance page_keeps s c : StmtKeeps R (selectPage s c).
Proof. by apply reads_keep. Qed.

#[export] Instance RunJob_guaranteed {F} `{FloatOps F} num t : Guaranteed R (RunJob num t).
Proof. unfold RunJob, flakeOne. guarantee. Qed.
#[export] Instance RunDaemon_guaranteed d : Guaranteed R (RunDaemon d).
Proof. unfold RunDaemon, quarantine, recentOutcomes, commentIssue, openIssue. guarantee. Qed.
#[export] Instance RunSLA_guaranteed s : Guaranteed R (RunSLA s).
Proof. unfold RunSLA, nudgeOne, commentIssue. guarantee. Qed.
#[export] Instance RunProposer_guaranteed u : Guaranteed R (RunProposer u).
Proof. unfold RunProposer, proposeOne, mintToken, randRead, commentIssue. guarantee. Qed.
#[export] Instance Restore_guaranteed tok : Guaranteed R (Restore tok).
Proof. unfold Restore. guarantee. Qed.

#[local] Instance pendingLoop_guaranteed fuel secs c out : Guaranteed R (pendingLoop fuel secs c out).
Proof.
  revert c out. induction fuel as [|fuel IH]; intros c out; cbn [pendingLoop]; [apply _|].
  unfold pendingFailuresPage. guarantee.
Qed.
#[local] Instance backfillLoop_guaranteed b rows l :
  (forall t, Guaranteed R (sm_StackFor (b_Seams b) t)) ->
  (forall r s m, Guaranteed R (sm_ClusterFor (b_Seams b) r s m)) ->
  (forall e c, Guaranteed R (sm_AssignCluster (b_Seams b) e c)) -> Guaranteed R (backfillLoop b rows l).
Proof.
  intros H1 H2 H3. revert l. induction rows as [|r rows IH]; intros l; cbn [backfillLoop]; [apply _|].
  unfold backfillRow, cachedStack, cachedCluster, done. guarantee.
Qed.
#[export] Instance RunBackfill_guaranteed fuel stackFor dry since :
  Guaranteed R (RunBackfill (mkBackfiller (pgSeams fuel stackFor) dry since)).
Proof.
  unfold RunBackfill, PendingFailures. cbn [b_Seams pgSeams sm_PendingFailures].
  guarantee. apply backfillLoop_guaranteed; intros;
    cbn [b_Seams pgSeams sm_StackFor sm_ClusterFor sm_AssignCluster]; unfold AssignCluster; guarantee.
Qed.

#[local] Instance summarizeEach_guaranteed c l out : Guaranteed R (summarizeEach c l out).
Proof.
  revert out. induction l as [|cl l IH]; intros out; cbn [summarizeEach]; [apply _|].
  unfold summarizeOne, ofResult. guarantee.
Qed.
#[local] Instance hintLoop_guaranteed c restale bs mc dry fuel size l s :
  Guaranteed R (hintLoop (mkHintRunner (pgHintSeams c) restale bs mc dry) fuel size l s).
Proof.
  revert l s. induction fuel as [|fuel IH]; intros l s; destruct l as [|x l]; cbn [hintLoop]; try apply _.
  unfold hintBatch. cbn [hr_Seams pgHintSeams hs_Summarize]. unfold Summarize.
  assert (forall byID batch s, Guaranteed R (hintEach (mkHintRunner (pgHintSeams c) restale bs mc dry) byID batch s)).
  { intros byID batch. induction batch as [|y batch IHb]; intros s0; cbn [hintEach]; [apply _|].
    unfold hintOne. cbn [hr_Seams pgHintSeams hs_SaveHint]. unfold SaveHint. guarantee. }
  guarantee.
Qed.
#[export] Instance RunHints_guaranteed c restale bs mc dry :
  Guaranteed R (RunHints (mkHintRunner (pgHintSeams c) restale bs mc dry)).
Proof. unfold RunHints. cbn [hr_Seams pgHintSeams hs_PendingClusters]. unfold PendingClusters. guarantee. Qed.

#[local] Instance installation_keeps e s : StmtKeeps R (stmtUpsertInstallation e s).
Proof. intros now db a db' [= _ <-]. by apply DBRel_installations. Qed.
#[export] Instance ServeHTTP_guaranteed decode secret rq : Guaranteed R (ServeHTTP decode secret rq).
Proof. unfold ServeHTTP, handleInstallation, upsertRepo. guarantee. Qed.

#[local] Instance timeNow_guaranteed : Guaranteed R timeNow.
Proof. intros w Hw. by apply Kept_refl. Qed.
#[local] Instance summary_guaranteed snap : Guaranteed R (summary snap).
Proof. unfold summary, shardCountsOf. guarantee. Qed.
#[local] Instance finalizeCheck_guaranteed c snap k url name : Guaranteed R (finalizeCheck c snap k url name).
Proof. unfold finalizeCheck, finalSummary, shardCountsOf, topClusters, clientUpdate. guarantee. Qed.
#[export] Instance OnRunStateChanged_guaranteed o snap prev : Guaranteed R (OnRunStateChanged o snap prev).
Proof. unfold OnRunStateChanged, clientCreate, clientUpdate. guarantee. Qed.

#[export] Instance rerunFailed_guaranteed id : Guaranteed R (rerunFailed id).
Proof. unfold rerunFailed, queryRunByID. guarantee. Qed.
#[export] Instance setQuarantine_guaranteed id on reason : Guaranteed R (setQuarantine id on reason).
Proof. unfold setQuarantine, scanTestRow, orTestNotFound. guarantee. Qed.
#[export] Instance gated_guaranteed {A} p (m : M A) : Guaranteed R m -> Guaranteed R (gated p m).
Proof. intros H. unfold gated. guarantee. Qed.
End jobs.

(** ** The statements *)

Section stmts.
Context (R : RowRel) `{!RowPreOrder R}.

Lemma updateTest_keeps id g f : (forall t, rel_tests R (Some t) (Some (f t))) -> StmtKeeps R (updateTest id g f).
Proof.
  intros H now db a db'. unfold updateTest. destruct (updateRow id g f (tests db)) as [t n] eqn:E.
  intros [= _ <-]. apply DBRel_tests; [done|]. intros k.
  replace t with (updateRow id g f (tests db)).1 by (by rewrite E).
  apply (updateRow_row (rel_tests R)); auto.
Qed.

Lemma insertToken_keeps tok id secs :
  (forall now, rel_tokens R None (Some (mkTokenRow id now None))) -> StmtKeeps R (stmtInsertToken tok id secs).
Proof.
  intros H now db a db'. unfold stmtInsertToken. destruct (unquarantine_tokens db !! tok) as [t|] eqn:E.
  { by rewrite bool_decide_true. }
  rewrite bool_decide_false by (by intros [? ?]). destruct (negb _); [done|]. intros [= _ <-].
  apply DBRel_tokens; [done|]. intros k. apply (insert_row (rel_tokens R)). by rewrite E.
Qed.

Lemma consume_keeps tok :
  (forall now t, rel_tokens R (Some t) (Some (mkTokenRow (ut_test_id t) (ut_expires_at t) (Some now)))) ->
  StmtKeeps R (stmtConsume tok).
Proof.
  intros H now db a db'. unfold stmtConsume, updateToken.
  match goal with |- context [updateRow tok ?g ?f ?t] => destruct (updateRow tok g f t) as [t' n] eqn:E end.
  intros [= _ <-]. apply DBRel_tokens; [done|]. intros k.
  match type of E with ?u = _ => replace t' with u.1 by (by rewrite E) end.
  apply (updateRow_row (rel_tokens R)); auto.
Qed.

Lemma assign_keeps id c :
  (forall k e, ex_failure_cluster_id e = None -> rel_execs R k (Some e) (Some (ex_set_cluster (Some c) e))) ->
  StmtKeeps R (stmtAssignCluster id c).
Proof.
  intros H now db a db'. unfold stmtAssignCluster. destruct (_ && _); [done|]. intros [= _ <-].
  apply DBRel_execs; [done|]. intros k. rewrite lookup_fmap.
  destruct (test_executions db !! k) as [e|]; simpl; [|reflexivity].
  unfold unassigned. destruct (String.eqb _ _); simpl; [|reflexivity].
  case_bool_decide; [by apply H|reflexivity].
Qed.

Lemma updateFlake_keeps id f : (forall r, rel_flakes R (Some r) (Some (f r))) -> StmtKeeps R (updateFlake id f).
Proof.
  intros H now db a db'. unfold updateFlake. rewrite (surjective_pairing (updateRow _ _ _ _)). intros [= _ <-].
  apply DBRel_flakes; [done|]. intros k. apply (updateRow_row (rel_flakes R)); auto.
Qed.

Lemma reopen_keeps id :
  (forall now r, rel_flakes R (Some r) (Some (fr_set_unquarantined_at (Some now) (fr_set_quarantined_at None r)))) ->
  StmtKeeps R (stmtUnquarantineOpen id).
Proof.
  intros H now db a db'. unfold stmtUnquarantineOpen. rewrite (surjective_pairing (updateRow _ _ _ _)). intros [= _ <-].
  apply DBRel_flakes; [done|]. intros k. apply (updateRow_row (rel_flakes R)); auto.
Qed.

Lemma flakeUpsert_keeps {F} (num : F -> result Z) id d :
  (forall rate lower upper n cat now o, numeric54 rate && numeric54 lower && numeric54 upper = true -> int4 n = true ->
     rel_flakes R o (Some (mergeFlake rate lower upper n cat now o))) ->
  StmtKeeps R (stmtFlakeUpsert num id d).
Proof.
  intros H now db a db'. unfold stmtFlakeUpsert.
  destruct (num (FailureRate d)) as [rate|]; [|done]. destruct (num (WilsonLower d)) as [lower|]; [|done].
  destruct (num (WilsonUpper d)) as [upper|]; [|done]. destruct (int4 _) eqn:Ei; [|done]. cbn [negb].
  destruct (_ && _) eqn:En; [|done]. cbn [negb]. destruct (negb _); [done|]. intros [= _ <-].
  apply DBRel_flakes; [done|]. intros k. apply (insert_row (rel_flakes R)). by apply H.
Qed.

Lemma saveHint_keeps h b : (forall now c, rel_clusters R (Some c) (Some (fc_set_hint h now c))) -> StmtKeeps R (stmtSaveHint h b).
Proof.
  intros H now db a db' [= _ <-]. apply DBRel_clusters; [done|]. intros k. apply (updateRow_row (rel_clusters R)); auto.
Qed.

Lemma enableRepo_keeps fresh name : (forall r, rel_repos R (Some r) (Some (enableRepo r))) ->
  rel_repos R None (Some (mkRepoRow "github" name true true)) -> StmtKeeps R (stmtEnableRepo fresh name).
Proof.
  intros H1 H2 now db a db'. unfold stmtEnableRepo. destruct (List.find _ _) as [[id r]|] eqn:E.
  - apply List.find_some in E as [Hin _]. apply list_elem_of_In, elem_of_map_to_list in Hin.
    intros [= _ <-]. apply DBRel_repos; [done|]. intros k. apply (insert_row (rel_repos R)). by rewrite Hin.
  - destruct (repos db !! fresh) as [r|] eqn:Ef; [by rewrite bool_decide_true|].
    rewrite bool_decide_false by (by intros [? ?]). intros [= _ <-].
    apply DBRel_repos; [done|]. intros k. apply (insert_row (rel_repos R)). by rewrite Ef.
Qed.
End stmts.

#[export] Instance Evolves_jobs : JobStmts Evolves.
Proof.
  split.
  - intros id g f Hf. apply updateTest_keeps; [apply _|]. intros t. apply Hf.
  - intros. by apply insertToken_keeps; [apply _|].
  - intros. apply consume_keeps; [apply _|]. intros now t. by split.
  - intros. apply assign_keeps; [apply _|]. intros k e He. split; try done. simpl. by rewrite He.
  - intros id repo c b p n rn. apply (insertRun_keeps Evolves id (rerunRow repo c b p n rn)).
    intros now _. split; [reflexivity|known].
  - intros k id. eapply updateRun_keeps; [apply _|reflexivity|]. intros now r _. by apply runEvolves_same.
  - intros id f _. by apply updateFlake_keeps; [apply _|].
  - intros id. by apply reopen_keeps; [apply _|].
  - intros F num id d. apply flakeUpsert_keeps; [apply _|]. by intros rate lower upper n cat now [r|].
  - intros h b. by apply saveHint_keeps; [apply _|].
  - intros fresh name. by apply enableRepo_keeps; [apply _|..].
Qed.

#[export] Instance NoFinalize_jobs : JobStmts NoFinalize.
Proof.
  split.
  - intros id g f Hf. by apply updateTest_keeps; [apply _|].
  - intros. by apply insertToken_keeps; [apply _|].
  - intros. by apply consume_keeps; [apply _|].
  - intros. by apply assign_keeps; [apply _|].
  - intros id repo c b p n rn. by apply (insertRun_keeps NoFinalize id (rerunRow repo c b p n rn)).
  - intros k id. eapply updateRun_keeps; [apply _|reflexivity|]. intros. by apply unfinalized_same.
  - intros id f _. by apply updateFlake_keeps; [apply _|].
  - intros id. by apply reopen_keeps; [apply _|].
  - intros F num id d. by apply flakeUpsert_keeps; [apply _|].
  - intros h b. by apply saveHint_keeps; [apply _|].
  - intros fresh name. by apply enableRepo_keeps; [apply _|..].
Qed.
