(* ===== verification/OidcProps.v ===== *)
(** * Signing in, and what a session stands for

    The authorization URL and the callback fit together; a principal the
    middleware binds goes back to an identity the provider vouched for or to an
    API key that was valid - at some time, since a session can be refreshed
    without end. *)

From S2P Require Import Prelude GoBytes GoUrl GoRegexp GoStrings GoFmt Model Effects Auth ApiKeys Rest Oidc.

(** ** The authorization URL *)

Lemma authValues_nonempty p state nonce k : authValues p state nonce !! k <> Some [].
Proof.
  unfold authValues, setValue. intros H.
  repeat (apply lookup_insert_Some in H as [[_ ?]|[_ H]]; [done|]). by rewrite lookup_empty in H.
Qed.

Lemma tokenForm_nonempty p code k : tokenForm p code !! k <> Some [].
Proof.
  unfold tokenForm, setValue. intros H. case_match;
  repeat (apply lookup_insert_Some in H as [[_ ?]|[_ H]]; [done|]); by rewrite lookup_empty in H.
Qed.

(** ** Keys *)

Lemma encoded_nonempty a l : Forall isByte l -> l <> [] -> EncodeToString a l <> "".
Proof. intros Hl Hn E. pose proof (Decode_Encode a l Hl) as H. rewrite E in H. cbn in H. congruence. Qed.

Lemma setBytes_snoc l b : setBytes (l ++ [b]) = 256 * setBytes l + b.
Proof. unfold setBytes. by rewrite foldl_snoc. Qed.

Lemma setBytes_bound l : Forall isByte l -> 0 <= setBytes l < 256 ^ Z.of_nat (length l).
Proof.
  induction l as [|b l IH] using rev_ind; [cbn; lia|]. intros [Hl Hb]%Forall_app. apply Forall_cons in Hb as [Hb _].
  rewrite setBytes_snoc, length_app. cbn [length]. replace (Z.of_nat (length l + 1)) with (Z.of_nat (length l) + 1) by lia.
  rewrite Z.pow_add_r by lia. change (256 ^ 1) with 256. specialize (IH Hl). unfold isByte in Hb. lia.
Qed.

Lemma lor_byte e b : isByte b -> Z.lor (256 * e) b = 256 * e + b.
Proof.
  intros Hb. replace (256 * e) with (Z.shiftl e 8) by (rewrite Z.shiftl_mul_pow2 by lia; lia).
  assert (Z.land (Z.shiftl e 8) b = 0) as H0.
  { apply Z.bits_inj'. intros n Hn. rewrite Z.land_spec, Z.shiftl_spec, Z.bits_0 by done. destruct (Z.lt_ge_cases n 8).
    - by rewrite Z.testbit_neg_r by lia.
    - rewrite (Z.bits_above_log2 b n); [by rewrite andb_false_r|unfold isByte in Hb; lia|].
      destruct (Z.eq_dec b 0) as [-> |]; [cbn; lia|]. apply Z.log2_lt_pow2; [unfold isByte in Hb; lia|].
      apply Z.lt_le_trans with (2 ^ 8); [unfold isByte in Hb; lia|]. apply Z.pow_le_mono_r; lia. }
  pose proof (Z.add_lor_land (Z.shiftl e 8) b). lia.
Qed.

(** An exponent of at most seven bytes is read as it stands. *)
Lemma shiftIn_bytes eb : Forall isByte eb -> (length eb <= 7)%nat -> foldl shiftIn 0 eb = setBytes eb.
Proof.
  induction eb as [|b l IH] using rev_ind; [done|]. intros [Hl Hb]%Forall_app Hlen. apply Forall_cons in Hb as [Hb _].
  rewrite length_app in Hlen. cbn in Hlen. rewrite foldl_snoc, setBytes_snoc, IH by (done || lia). unfold shiftIn.
  pose proof (setBytes_bound l Hl) as H1.
  assert (256 ^ Z.of_nat (length l) <= 256 ^ 6) by (apply Z.pow_le_mono_r; lia).
  rewrite Z.shiftl_mul_pow2 by lia. replace (setBytes l * 2 ^ 8) with (256 * setBytes l) by lia.
  rewrite wrap64_small by (unfold in_int64; lia). by apply lor_byte.
Qed.

Lemma rsaPublicKey_encoded kid nb eb : Forall isByte nb -> Forall isByte eb -> (length eb <= 7)%nat -> setBytes eb <> 0 ->
  rsaPublicKey (mkJwk "RSA" kid (EncodeToString URL nb) (EncodeToString URL eb)) = Ok (mkRsaKey (setBytes nb) (setBytes eb)).
Proof.
  intros Hn He Hl H0. unfold rsaPublicKey. cbn [jk_N jk_E]. rewrite !Decode_Encode, shiftIn_bytes by done.
  by rewrite (proj2 (Z.eqb_neq _ _) H0).
Qed.

(** ** The keys of a set were published *)

(** What the key endpoint serves at a time. *)
Section published.
Context (jwks : Z -> result (Z * result (list jwk))).

Definition Published (t : Z) (pk : rsaKey) : Prop :=
  exists doc j, jwks t = Ok (200, Ok doc) /\ j ∈ doc /\ jk_Kty j = "RSA" /\ rsaPublicKey j = Ok pk.

Definition keysPublished (now : Z) (k : gmap string rsaKey) : Prop :=
  forall kid pk, k !! kid = Some pk -> exists t, t <= now /\ Published t pk.

Lemma addJwks_from doc k kid pk : foldl addJwk k doc !! kid = Some pk ->
  k !! kid = Some pk \/ exists j, j ∈ doc /\ jk_Kty j = "RSA" /\ rsaPublicKey j = Ok pk.
Proof.
  revert k. induction doc as [|j doc IH]; intros k H; [by left|]. cbn [foldl] in H.
  apply IH in H as [H|(i & Hi & H)]; [|right; exists i; split; [by right|done]].
  unfold addJwk in H. destruct (String.eqb_spec (jk_Kty j) "RSA") as [Ek|_]; cbn in H; [|by left].
  destruct (rsaPublicKey j) as [pk'|] eqn:Er; [|by left].
  apply lookup_insert_Some in H as [[_ ->]|[_ H]]; [right|by left]. exists j. split; [by left|done].
Qed.

Lemma keyFor_published now kid k r k' : keyFor (jwks now) kid k = (r, k') -> keysPublished now k ->
  keysPublished now k' /\ forall pk, r = Ok pk -> exists t, t <= now /\ Published t pk.
Proof.
  unfold keyFor. destruct (k !! kid) as [pk|] eqn:Ek.
  { intros [= <- <-] Hk. split; [done|]. intros pk' [= <-]. by eapply Hk. }
  destruct (refreshLocked (jwks now) k) as [[u|e] k1] eqn:Er.
  - unfold refreshLocked, getJSON in Er. destruct (jwks now) as [[status body]|] eqn:Ej; [|done].
    destruct (Z.eqb_spec status 200) as [-> |]; [|done]. cbn in Er. destruct body as [doc|]; [|done]. cbn in Er.
    destruct (Nat.eqb _ 0); [done|]. injection Er as _ <-.
    assert (keysPublished now (foldl addJwk ∅ doc)) as Hn.
    { intros kid' pk [H|(j & H)]%addJwks_from; [by rewrite lookup_empty in H|]. exists now. split; [done|]. exists doc, j.
      destruct H as (H1 & H2 & H3). by split_and!. }
    intros E Hk. destruct (foldl addJwk ∅ doc !! kid) as [pk|] eqn:E1.
    { injection E as <- <-. split; [done|]. intros pk' [= <-]. by eapply Hn. }
    destruct (String.eqb kid ""); [|by injection E as <- <-].
    unfold onlyKey in E. destruct (map_to_list _) as [|[a pk] [|]] eqn:E2; [by injection E as <- <-| |by injection E as <- <-].
    injection E as <- <-. split; [done|]. intros pk' [= <-]. eapply Hn, elem_of_map_to_list. rewrite E2. left.
  - unfold refreshLocked in Er. intros [= <- <-] Hk. split; [|done].
    destruct (wrapR _ _); [|by injection Er as _ <-]. by destruct (Nat.eqb _ 0); [injection Er as _ <-|].
Qed.
End published.

(** ** Session tokens *)

(** Three segments of base64url, the header being an object: it begins with ey. *)
Definition compact (tok : string) : Prop :=
  hasPrefix (toText tok) (toText "ey") = true /\ Forall (fun c => isSpace c = false) (toText tok).

Definition wholeSeconds (c : Claims) : Prop := (second | cl_IssuedAt c) /\ (second | cl_ExpiresAt c).

(** What golang-jwt documents: dates are cut to seconds, a signed token parses to
    its claims until it expires and to nothing else. *)
Record JwtLaws (lib : JwtLib) : Prop := {
  jw_date t : jl_NumericDate lib t = second * (t / second);
  jw_parse s c tok now : wholeSeconds c -> jl_SignedString lib s c = Ok tok ->
    (now < cl_ExpiresAt c -> jl_Parse lib s now tok = Ok c)
    /\ forall c', jl_Parse lib s now tok = Ok c' -> c' = c /\ now < cl_ExpiresAt c;
  jw_sign s c : exists tok, jl_SignedString lib s c = Ok tok;
  jw_compact s c tok : jl_SignedString lib s c = Ok tok -> compact tok
}.

Section tokens.
Context (lib : JwtLib) (laws : JwtLaws lib) (j : JWTIssuer).

Definition claimsAt (t : Z) (userID email : string) (roles : list Role) : Claims :=
  mkClaims (ji_Issuer j) userID (jl_NumericDate lib t) (jl_NumericDate lib (t + ji_TTL j)) email roles.

Lemma claimsAt_whole t userID email roles : wholeSeconds (claimsAt t userID email roles).
Proof. split; cbn; rewrite (jw_date _ laws); apply Z.divide_factor_l. Qed.

Lemma date_bounds t : t - second < jl_NumericDate lib t <= t.
Proof. rewrite (jw_date _ laws). pose proof (Z.div_mod t second). pose proof (Z.mod_pos_bound t second). unfold second in *. lia. Qed.

(** Until a second before the end of its life a token verifies; what verifies is
    the principal it was issued for, within its life. *)
Lemma Verify_issued t userID email roles tok now : Issue lib j t userID email roles = Ok tok ->
  (now + second <= t + ji_TTL j -> Verify lib j now tok = Ok (mkPrincipal userID email "" roles [] false))
  /\ forall p, Verify lib j now tok = Ok p -> p = mkPrincipal userID email "" roles [] false /\ now < t + ji_TTL j.
Proof.
  intros Hi. pose proof (jw_parse _ laws _ _ _ now (claimsAt_whole t userID email roles) Hi) as [H1 H2].
  pose proof (date_bounds (t + ji_TTL j)) as Hb. split.
  - intros Hn. unfold Verify. rewrite H1; [done|]. cbn. lia.
  - intros p. unfold Verify. destruct (jl_Parse _ _ _ _) as [c|] eqn:E; [|done]. intros [= <-].
    destruct (H2 _ eq_refl) as [-> Hc]. cbn in Hc |- *. split; [done|lia].
Qed.

(** The middleware takes a token from the session cookie as it stands. *)
Lemma trimSpace_none t : Forall (fun c => isSpace c = false) t -> trimSpace t = t.
Proof.
  assert (forall t, Forall (fun c => isSpace c = false) t -> dropWhile isSpace t = t) as Hd.
  { intros [|c t']; [done|]. intros [Hc _]%Forall_cons. cbn [dropWhile]. by rewrite Hc. }
  intros Ht. unfold trimSpace. rewrite (Hd t) by done. rewrite Hd; [apply rev_involutive|]. by apply Forall_rev.
Qed.

Lemma Middleware_cookie resolve verify tok : compact tok ->
  Middleware resolve (Some verify) "" (Some tok) = verify tok.
Proof.
  intros [H1 H2]. unfold Middleware, httpToken. cbn [String.eqb negb]. rewrite trimSpace_none by done.
  apply hasPrefix_app in H1 as [u Hu]. rewrite <-(ofText_toText tok) at 2. rewrite Hu. reflexivity.
Qed.
End tokens.

(** ** The server *)

Section web.
Context (lib : JwtLib) (cfg : SignInConfig).
(** API keys: Argon2 and the key table over time. *)
Context (argon2 : list Z -> list Z -> list Z) (table : Z -> gmap string key_row).
(** The identity provider: the registration, the keys it serves over time, and
    the two halves of the jwt library's parser for ID tokens. *)
Context (p : Provider) (jwks : Z -> result (Z * result (list jwk)))
        (parseHeader : string -> result string)
        (checkToken : string -> rsaKey -> string -> string -> Z -> result idTokenClaims).

Abbreviation j := (si_jwt cfg).

Record WebSys := mkWebSys {
  ws_now : Z;
  ws_cache : gmap string apiKeyEntry;
  ws_auth : authState;
  (** every session token handed to a browser *)
  ws_issued : list string
}.

Definition resolveNow (now : Z) (c : gmap string apiKeyEntry) (prefix display : string) : result Principal * gmap string apiKeyEntry :=
  resolveAPIKey argon2 prefix display now now (Ok (selectKey prefix now (table now))) c.

Definition okOf {A} (r : result A) : option A := match r with Ok a => Some a | Err _ => None end.

(** The middleware with the two verifiers of the server: the principal bound. *)
Definition bound (now : Z) (c : gmap string apiKeyEntry) (authorization : string) (cookie : option string) : option Principal :=
  Middleware (Some (fun prefix display => okOf (resolveNow now c prefix display).1))
             (Some (fun raw => okOf (Verify lib j now raw))) authorization cookie.

(** The cache after it. *)
Definition cacheAfter (now : Z) (c : gmap string apiKeyEntry) (authorization : string) (cookie : option string) : gmap string apiKeyEntry :=
  let tok := httpToken authorization cookie in
  if hasPrefix tok (toText "teo_") then
    match lastIndexByte tok dot with
    | Some (S i) => (resolveNow now c (ofText (take (S i) tok)) (ofText tok)).2
    | _ => c
    end
  else c.

(** A browser, or whoever sends the request, presents no session token that
    verifies unless the server has issued it. *)
Definition unforged (issued : list string) (authorization : string) (cookie : option string) : Prop :=
  forall now q, Verify lib j now (ofText (httpToken authorization cookie)) = Ok q ->
    ofText (httpToken authorization cookie) ∈ issued.

(** The session tokens in a reply. *)
Definition sessionTokens {B} (r : webReply B) : list string :=
  omap (fun k => if String.eqb (ck_Name k) SessionCookie && negb (String.eqb (ck_Value k) "") then Some (ck_Value k) else None)
       (wb_Cookies r).

Definition authenticator (now : Z) (exchange : string -> result string) : oidcAuthenticator :=
  mkAuthenticator (AuthCodeURL p) exchange (fun raw nonce k => VerifyIDToken parseHeader checkToken p (jwks now) now raw nonce k).

(** The callback as it is wired. *)
Definition callbackAt (now : Z) (exchange : string -> result string) (env : resolverEnv) (r : callbackRequest) (st : authState) :=
  oidcCallback cfg (Some (authenticator now exchange)) (Some (DBRoleResolver env)) (Issue lib j now) r st.

Definition refreshAt (now : Z) (q : option Principal) : webReply Z := refresh cfg (Issue lib j now) q.

Inductive wstep : WebSys -> WebSys -> Prop :=
  | WTick now now' c st iss : now <= now' -> wstep (mkWebSys now c st iss) (mkWebSys now' c st iss)
  | WUsers now c k u u' iss :
      wstep (mkWebSys now c (mkAuthState k u) iss) (mkWebSys now c (mkAuthState k u') iss)
  | WCallback now c st iss exchange env r :
      wstep (mkWebSys now c st iss)
        (let '(reply, st') := callbackAt now exchange env r st in mkWebSys now c st' (sessionTokens reply ++ iss))
  | WRequest now c st iss authorization cookie : unforged iss authorization cookie ->
      wstep (mkWebSys now c st iss) (mkWebSys now (cacheAfter now c authorization cookie) st iss)
  | WRefresh now c st iss authorization cookie : unforged iss authorization cookie ->
      wstep (mkWebSys now c st iss)
        (mkWebSys now (cacheAfter now c authorization cookie) st
           (sessionTokens (refreshAt now (bound now c authorization cookie)) ++ iss)).

Definition initWeb (now : Z) (u : userTables) : WebSys := mkWebSys now ∅ (mkAuthState ∅ u) [].

(** *** Where a session comes from *)

(** The provider's key vouched for the identity at [t]; the roles are those the
    resolver gave then. *)
Inductive SignedIn (t : Z) (sub email : string) (roles : list Role) : Prop :=
  | signed_in raw pk c t' env u :
      checkToken raw pk (pv_issuer p) (cf_ClientID (pv_cfg p)) t = Ok c ->
      t' <= t -> Published jwks t' pk ->
      it_Subject c = sub -> it_Email c = email -> sub <> "" ->
      roles = (resolveRoles (Some (DBRoleResolver env)) (mkIDClaims sub email (it_EmailVerified c)) u).1 ->
      SignedIn t sub email roles.

(** A row of the key table at [t], or up to the life of a cache entry earlier,
    was live and matched the presented secret. *)
Definition KeyHeld (t : Z) (q : Principal) : Prop :=
  exists t1 prefix d, t1 <= t <= t1 + cacheTTL /\ Vouched argon2 table t1 prefix d q.

Inductive Origin (t : Z) (sub email : string) (roles : list Role) : Prop :=
  | origin_oidc : SignedIn t sub email roles -> Origin t sub email roles
  | origin_key q : KeyHeld t q -> sub = "" -> email = "" -> roles = p_Roles q -> Origin t sub email roles.

(** A session: its first issue and its latest. *)
Definition Session (now : Z) (tok : string) : Prop :=
  exists t0 t sub email roles, t0 <= t <= now /\ Origin t0 sub email roles /\ Issue lib j t sub email roles = Ok tok.

Definition cacheWf (now : Z) (c : gmap string apiKeyEntry) : Prop :=
  forall key e, c !! key = Some e -> exists t' prefix d,
    Vouched argon2 table t' prefix d (ke_principal e) /\ t' <= now /\ ke_expires e = t' + cacheTTL.

Record wfWeb (s : WebSys) : Prop := {
  ww_keys : keysPublished jwks (ws_now s) (as_keys (ws_auth s));
  ww_cache : cacheWf (ws_now s) (ws_cache s);
  ww_issued tok : tok ∈ ws_issued s -> Session (ws_now s) tok
}.

(** *** It stays so *)

Context (laws : JwtLaws lib).

Lemma keysPublished_mono now now' k : now <= now' -> keysPublished jwks now k -> keysPublished jwks now' k.
Proof. intros Hn H kid pk Hk. destruct (H _ _ Hk) as (t & Ht & Hp). exists t. split; [lia|done]. Qed.

Lemma cacheWf_mono now now' c : now <= now' -> cacheWf now c -> cacheWf now' c.
Proof. intros Hn H key e He. destruct (H _ _ He) as (t & pr & d & Hv & Ht & Hx). exists t, pr, d. split_and!; [done|lia|done]. Qed.

Lemma Session_mono now now' tok : now <= now' -> Session now tok -> Session now' tok.
Proof. intros Hn (t0 & t & sub & email & roles & Ht & H). exists t0, t, sub, email, roles. split; [lia|done]. Qed.

Lemma resolveNow_held now c prefix display : cacheWf now c ->
  cacheWf now (resolveNow now c prefix display).2
  /\ forall q, (resolveNow now c prefix display).1 = Ok q -> KeyHeld now q /\ asAPIKey q = q.
Proof.
  intros Hc. unfold resolveNow, resolveAPIKey. destruct (cacheGet now _ c) as [q|] eqn:Eg; cbn [fst snd].
  - split; [done|]. intros q' [= <-]. unfold cacheGet in Eg. destruct (c !! _) as [e|] eqn:Ee; [|done].
    destruct (Z.ltb_spec (ke_expires e) now); [done|]. injection Eg as <-.
    destruct (Hc _ _ Ee) as (t & pr & d & Hv & Ht & Hx). split; [exists t, pr, d; split; [lia|done]|].
    by destruct Hv as (id & k & _ & _ & _ & _ & _ & ->).
  - destruct (lookupKey _ _ _ _) as [q|e] eqn:El; cbn [fst snd]; [|done].
    apply lookupKey_vouched in El. split.
    + unfold cachePut. intros key e [[_ <-]|[_ He]]%lookup_insert_Some; [|by eapply Hc]. exists now, prefix, display. cbn. by split_and!.
    + intros q' [= <-]. split; [exists now, prefix, display; split; [unfold cacheTTL, second; lia|done]|].
      by destruct El as (id & k & _ & _ & _ & _ & _ & ->).
Qed.

Lemma cacheAfter_wf now c authorization cookie : cacheWf now c -> cacheWf now (cacheAfter now c authorization cookie).
Proof.
  intros Hc. unfold cacheAfter. destruct (hasPrefix _ _); [|done]. destruct (lastIndexByte _ _) as [[|i]|]; [done| |done].
  by apply resolveNow_held.
Qed.

(** The principal is that of a live key, or that of a session within its life. *)
Definition Justified (now : Z) (q : Principal) : Prop :=
  KeyHeld now q \/ exists t0 t sub email roles, t0 <= t <= now /\ now < t + ji_TTL j
    /\ Origin t0 sub email roles /\ q = mkPrincipal sub email "" roles [] false.

Lemma bound_justified now c iss authorization cookie q : cacheWf now c -> (forall tok, tok ∈ iss -> Session now tok) ->
  unforged iss authorization cookie -> bound now c authorization cookie = Some q -> Justified now q.
Proof.
  intros Hc Hi Hu. unfold bound, Middleware. set (tok := httpToken authorization cookie) in *.
  unfold principalOfToken. destruct tok as [|ch tl] eqn:Et; [done|]. rewrite <-Et in *. clear Et ch tl.
  destruct (hasPrefix tok _).
  - destruct (lastIndexByte tok dot) as [[|i]|]; [done| |done]. destruct (resolveNow now c _ _).1 as [q'|] eqn:Er; [|done].
    intros [= <-]. left. pose proof (proj2 (resolveNow_held now c _ _ Hc) _ Er) as [H ->]. exact H.
  - destruct (Verify lib j now (ofText tok)) as [q'|] eqn:Ev; [|done]. intros [= <-]. right.
    destruct (Hi _ (Hu now q' Ev)) as (t0 & t & sub & email & roles & Ht & Ho & Hs).
    destruct (proj2 (Verify_issued lib laws j t sub email roles _ now Hs) _ Ev) as [-> Hx].
    exists t0, t, sub, email, roles. destruct Ht. by split_and!.
Qed.

Lemma sessionTokens_session {B} k l (a : webAnswer B) (tok : string) : Forall (fun c => ck_Value c = "") l -> ck_Name k = SessionCookie ->
  tok ∈ sessionTokens (mkWeb (k :: l) a) -> tok = ck_Value k.
Proof.
  intros Hl Hn (c & Hc & E)%list_elem_of_omap. cbn in Hc. destruct (String.eqb _ _ && _) eqn:Eb; [|done]. injection E as <-.
  apply elem_of_cons in Hc as [->|Hc]; [done|]. rewrite Forall_forall in Hl. rewrite (Hl _ Hc), andb_false_r in Eb. done.
Qed.

Lemma callback_session now exchange env r st reply st' : keysPublished jwks now (as_keys st) ->
  callbackAt now exchange env r st = (reply, st') ->
  keysPublished jwks now (as_keys st') /\ forall tok, tok ∈ sessionTokens reply -> Session now tok.
Proof.
  intros Hk. unfold callbackAt, oidcCallback.
  assert (forall x : webReply unit, sessionTokens x = [] -> forall tok, tok ∈ sessionTokens x -> Session now tok) as Hno.
  { intros x -> tok H. by apply elem_of_nil in H. }
  destruct (negb (String.eqb (cb_error r) "")); [intros [= <- <-]; split; [done|by apply Hno]|].
  destruct (_ || _); [intros [= <- <-]; split; [done|by apply Hno]|].
  destruct (negb (match cb_stateCookie r with Some _ => _ | None => _ end)); [intros [= <- <-]; split; [done|by apply Hno]|].
  cbn [oa_Exchange oa_VerifyIDToken authenticator]. destruct (exchange (cb_code r)) as [raw|]; [|intros [= <- <-]; split; [done|by apply Hno]].
  destruct (VerifyIDToken _ _ _ _ _ _ _ _) as [rc k] eqn:Ev.
  assert (keysPublished jwks now k /\ forall cl, rc = Ok cl -> ic_Subject cl <> "" /\
    exists pk c t', checkToken raw pk (pv_issuer p) (cf_ClientID (pv_cfg p)) now = Ok c /\ t' <= now /\ Published jwks t' pk
      /\ cl = mkIDClaims (it_Subject c) (it_Email c) (it_EmailVerified c)) as [Hk' Hcl].
  { unfold VerifyIDToken in Ev. destruct (parseHeader raw) as [kid|]; [|by injection Ev as <- <-].
    destruct (keyFor (jwks now) kid (as_keys st)) as [rk k1] eqn:Ek. apply keyFor_published in Ek as [H1 H2]; [|done].
    destruct rk as [pk|]; injection Ev as <- <-; [|done]. split; [done|]. intros cl. destruct (H2 _ eq_refl) as (t' & Ht & Hp).
    destruct (checkToken _ _ _ _ _) as [c|] eqn:Ec; [|done]. destruct (_ && _); [done|].
    destruct (String.eqb_spec (it_Subject c) ""); [done|]. intros [= <-]. split; [done|]. by exists pk, c, t'. }
  destruct rc as [cl|]; [|intros [= <- <-]; split; [done|by apply Hno]].
  destruct (resolveRoles _ cl (as_users st)) as [roles u] eqn:Er.
  destruct (Issue lib j now _ _ roles) as [tok|] eqn:Ei; intros [= <- <-]; (split; [done|]); [|by apply Hno].
  intros tok' ->%sessionTokens_session; [|by repeat constructor|done]. cbn [ck_Value setSessionCookie].
  exists now, now, (ic_Subject cl), (ic_Email cl), roles. split; [lia|]. split; [|done]. apply origin_oidc.
  destruct (Hcl _ eq_refl) as (Hs & pk & c & t' & Hc & Ht & Hp & ->). cbn [ic_Subject ic_Email] in *.
  eapply (signed_in _ _ _ _ raw pk c t' env (as_users st)); try done. by rewrite Er.
Qed.

Lemma refresh_session now q : Justified now q -> forall tok, tok ∈ sessionTokens (refreshAt now (Some q)) -> Session now tok.
Proof.
  intros Hq tok. unfold refreshAt, refresh. destruct (Issue lib j now _ _ _) as [tok'|] eqn:Ei; [|by intros ?%elem_of_nil].
  intros ->%sessionTokens_session; [|constructor|done]. cbn [ck_Value setSessionCookie].
  destruct Hq as [Hq|(t0 & t & sub & email & roles & Ht & _ & Ho & ->)].
  - exists now, now, (p_UserID q), (p_Email q), (p_Roles q). split; [lia|]. split; [|done]. destruct Hq as (t1 & pr & d & Ht & Hv).
    pose proof Hv as (id & k & _ & _ & _ & _ & _ & Eq).
    eapply (origin_key _ _ _ _ q); [by exists t1, pr, d|by rewrite Eq..|done].
  - exists t0, now, sub, email, roles. split; [lia|done].
Qed.

Lemma wstep_wf s s' : wstep s s' -> wfWeb s -> wfWeb s'.
Proof.
  intros Hstep [W1 W2 W3]. destruct Hstep as [now now' c st iss Hn|now c k u u' iss|now c st iss exchange env r|now c st iss au ck Hu|now c st iss au ck Hu];
    cbn [ws_now ws_cache ws_auth ws_issued] in *.
  - split; cbn; [by eapply keysPublished_mono|by eapply cacheWf_mono|]. intros tok Ht. eapply Session_mono; [done|by apply W3].
  - by split.
  - destruct (callbackAt now exchange env r st) as [reply st'] eqn:E. apply callback_session in E as [H1 H2]; [|done].
    split; cbn; [done|done|]. intros tok [Ht|Ht]%elem_of_app; [by apply H2|by apply W3].
  - split; cbn; [done|by apply cacheAfter_wf|done].
  - split; cbn; [done|by apply cacheAfter_wf|]. intros tok [Ht|Ht]%elem_of_app; [|by apply W3].
    destruct (bound now c au ck) as [q|] eqn:Eb; [|by apply elem_of_nil in Ht].
    eapply refresh_session; [|exact Ht]. by eapply bound_justified.
Qed.

Lemma web_wf now u s : rtc wstep (initWeb now u) s -> wfWeb s.
Proof.
  apply (rtc_ind_r (fun s => wfWeb s)).
  - split; cbn; [intros kid pk H; by rewrite lookup_empty in H|intros key e H; by rewrite lookup_empty in H|by intros tok ?%elem_of_nil].
  - intros y z _ Hs Hw. by eapply wstep_wf.
Qed.
(** C14: Every principal the middleware binds to a request, in any state the server
    reaches from an empty cache and key set by sign-ins, requests, refreshes,
    changes of the user tables and the passing of time, goes back to a proof of
    identity: it is that of an API key whose row was live and matched the
    presented secret at most 30 seconds earlier, or that of a session token issued
    within the life of a token, whose first issue followed either an ID token
    with that non-empty subject and email, accepted at that moment under a key
    the provider had published, with the roles the resolver gave then, or an API
    key valid then. *)
Theorem sessions_are_vouched now0 u s : rtc wstep (initWeb now0 u) s ->
  forall authorization cookie q, unforged (ws_issued s) authorization cookie ->
  bound (ws_now s) (ws_cache s) authorization cookie = Some q ->
  KeyHeld (ws_now s) q
  \/ exists t0 t sub email roles, t0 <= t <= ws_now s /\ ws_now s < t + ji_TTL j
       /\ q = mkPrincipal sub email "" roles [] false
       /\ (SignedIn t0 sub email roles \/ exists k, KeyHeld t0 k /\ sub = "" /\ email = "" /\ roles = p_Roles k).
Proof.
  intros Hs%web_wf authorization cookie q Hu Hb.
  destruct (bound_justified _ _ _ _ _ _ (ww_cache _ Hs) (ww_issued _ Hs) Hu Hb) as [H|(t0 & t & sub & email & roles & Ht & Hx & Ho & ->)]; [by left|right].
  exists t0, t, sub, email, roles. split; [lia|]. split; [lia|]. split; [done|]. destruct Ho as [H|k H1 H2 H3 H4]; [by left|right]. by exists k.
Qed.

(** *** A session does not end *)

Lemma refreshed now q : exists tok, Issue lib j now (p_UserID q) (p_Email q) (p_Roles q) = Ok tok
  /\ sessionTokens (refreshAt now (Some q)) = [tok].
Proof.
  destruct (jw_sign _ laws (ji_Secret j) (claimsAt lib j now (p_UserID q) (p_Email q) (p_Roles q))) as [tok Ht].
  exists tok. split; [exact Ht|]. unfold refreshAt, refresh. change (Issue lib j now _ _ _) with
    (jl_SignedString lib (ji_Secret j) (claimsAt lib j now (p_UserID q) (p_Email q) (p_Roles q))). rewrite Ht.
  unfold sessionTokens. cbn [wb_Cookies omap list_omap setSessionCookie ck_Name ck_Value].
  assert (tok <> "") as Hn.
  { intros ->. by destruct (jw_compact _ laws _ _ _ Ht) as [H _]. }
  by rewrite (proj2 (String.eqb_neq tok "") Hn).
Qed.

Lemma unforged_cookie iss tok : compact tok -> tok ∈ iss -> unforged iss "" (Some tok).
Proof.
  intros [_ Hc] Hin now q _. unfold httpToken. cbn [String.eqb negb]. rewrite trimSpace_none by done. by rewrite ofText_toText.
Qed.

Lemma bound_cookie now c t userID email roles tok : Issue lib j t userID email roles = Ok tok -> now + second <= t + ji_TTL j ->
  bound now c "" (Some tok) = Some (mkPrincipal userID email "" roles [] false).
Proof.
  intros Hi Hn. unfold bound. rewrite Middleware_cookie by (by eapply (jw_compact _ laws)).
  by rewrite (proj1 (Verify_issued lib laws j t userID email roles tok now Hi) Hn).
Qed.

(** Someone the middleware knows refreshes, and again shortly before the token
    ends. *)
Lemma refresh_once now c st iss authorization cookie q d : 0 <= d -> d + second <= ji_TTL j ->
  unforged iss authorization cookie -> bound now c authorization cookie = Some q ->
  exists c' iss' tok, rtc wstep (mkWebSys now c st iss) (mkWebSys (now + d) c' st iss')
    /\ unforged iss' "" (Some tok)
    /\ bound (now + d) c' "" (Some tok) = Some (mkPrincipal (p_UserID q) (p_Email q) "" (p_Roles q) [] false).
Proof.
  intros Hd Hx Hu Hb. destruct (refreshed now q) as (tok & Hi & Ht).
  exists (cacheAfter now c authorization cookie), ([tok] ++ iss), tok. split; [|split].
  - eapply rtc_l; [by apply (WRefresh now c st iss authorization cookie)|]. rewrite Hb, Ht. apply rtc_once, WTick. lia.
  - apply unforged_cookie; [by eapply (jw_compact _ laws)|by left].
  - eapply bound_cookie; [exact Hi|lia].
Qed.

Lemma refresh_often n now c st iss authorization cookie q d : 0 <= d -> d + second <= ji_TTL j ->
  unforged iss authorization cookie -> bound now c authorization cookie = Some q ->
  exists c' iss' tok, rtc wstep (mkWebSys now c st iss) (mkWebSys (now + (Z.of_nat n + 1) * d) c' st iss')
    /\ unforged iss' "" (Some tok)
    /\ bound (now + (Z.of_nat n + 1) * d) c' "" (Some tok) = Some (mkPrincipal (p_UserID q) (p_Email q) "" (p_Roles q) [] false).
Proof.
  intros Hd Hx. revert now c iss authorization cookie q. induction n as [|n IH]; intros now c iss authorization cookie q Hu Hb.
  - replace (now + (Z.of_nat 0 + 1) * d) with (now + d) by lia. by eapply refresh_once.
  - destruct (refresh_once now c st iss authorization cookie q d Hd Hx Hu Hb) as (c1 & iss1 & tok1 & R1 & U1 & B1).
    destruct (IH _ _ _ _ _ _ U1 B1) as (c2 & iss2 & tok2 & R2 & U2 & B2). exists c2, iss2, tok2.
    replace (now + (Z.of_nat (S n) + 1) * d) with (now + d + (Z.of_nat n + 1) * d) by lia.
    split; [by etrans|done].
Qed.

(** C13: Whoever the middleware once bound - a user, or the holder of an API key -
    can keep the roles of that moment for good: for every later time there is a
    run of the server in which, after refreshing now and then, a session cookie
    of his is accepted with the same user, email and roles, whatever has become
    of the API key and of the user's roles meanwhile. *)
Theorem sessions_outlive_revocation s authorization cookie q : 2 * second <= ji_TTL j ->
  unforged (ws_issued s) authorization cookie -> bound (ws_now s) (ws_cache s) authorization cookie = Some q ->
  forall t, exists s' tok, rtc wstep s s' /\ t <= ws_now s' /\ unforged (ws_issued s') "" (Some tok)
    /\ bound (ws_now s') (ws_cache s') "" (Some tok) = Some (mkPrincipal (p_UserID q) (p_Email q) "" (p_Roles q) [] false).
Proof.
  intros Hl Hu Hb t. destruct s as [now c st iss]. cbn [ws_now ws_cache ws_issued] in *.
  destruct (refresh_often (Z.to_nat (t - now)) now c st iss authorization cookie q second) as (c' & iss' & tok & R & U & B);
    [unfold second; lia|lia|done|done|].
  eexists _, tok. split; [exact R|]. cbn [ws_now ws_cache ws_issued]. split; [unfold second; lia|done].
Qed.

(** ** A sign-in from beginning to end *)

(** C15: A sign-in that the browser follows completes: the login sets the two
    flow cookies and redirects to the provider with a query that parses back to
    exactly the parameters of the request, state and nonce among them; a callback
    with the cookies of that login is refused before the code is exchanged when
    its state is not that of the redirect; with the state, and an ID token
    accepted under the key for its kid, it answers 401 when the token's nonce is
    not that of the redirect or the token has no subject, and else sets a session
    cookie for the token's subject and email with the resolved roles, clears the
    two flow cookies and goes to the landing page. *)
Theorem sign_in_completes now exchange env b1 b2 : Forall isByte b1 -> Forall isByte b2 -> b1 <> [] -> b2 <> [] ->
  exists query state nonce,
    oidcLogin cfg (Some (authenticator now exchange)) (Some b1) (Some b2)
      = mkWeb [setFlowCookie cfg stateCookie state; setFlowCookie cfg nonceCookie nonce] (WRedirect (pv_authURL p +:+ "?" +:+ query))
    /\ ParseQuery query = Some (list_to_map [("response_type", ["code"]); ("client_id", [cf_ClientID (pv_cfg p)]);
         ("redirect_uri", [cf_RedirectURL (pv_cfg p)]); ("scope", [String.concat " " (cf_Scopes (pv_cfg p))]);
         ("state", [state]); ("nonce", [nonce])])
    /\ forall code st' now' st, code <> "" ->
       let r := mkCallback "" "" code st' (Some state) (Some nonce) in
       (st' <> state -> exists title detail, callbackAt now' exchange env r st = (webProblem 400 title detail, st))
       /\ forall raw kid pk k c, st' = state -> exchange code = Ok raw -> parseHeader raw = Ok kid ->
          keyFor (jwks now') kid (as_keys st) = (Ok pk, k) ->
          checkToken raw pk (pv_issuer p) (cf_ClientID (pv_cfg p)) now' = Ok c ->
          let '(reply, st2) := callbackAt now' exchange env r st in
          as_keys st2 = k
          /\ if decide (it_Nonce c = nonce /\ it_Subject c <> "") then
               let '(roles, users) := resolveRoles (Some (DBRoleResolver env)) (mkIDClaims (it_Subject c) (it_Email c) (it_EmailVerified c)) (as_users st) in
               as_users st2 = users
               /\ exists tok, Issue lib j now' (it_Subject c) (it_Email c) roles = Ok tok
                  /\ reply = mkWeb [setSessionCookie cfg tok; clearCookie cfg stateCookie; clearCookie cfg nonceCookie] (WRedirect (landing cfg))
             else as_users st2 = as_users st
                  /\ reply = webProblem 401 "Sign-in failed" "could not verify identity token".
Proof.
  intros H1 H2 N1 N2. set (state := EncodeToString URL b1). set (nonce := EncodeToString URL b2).
  exists (Encode (authValues p state nonce)), state, nonce. split; [done|]. split.
  { rewrite ParseQuery_Encode by (intros k; apply authValues_nonempty). reflexivity. }
  assert (state <> "") as Hs by by apply encoded_nonempty. assert (nonce <> "") as Hn by by apply encoded_nonempty.
  intros code st' now' st Hc r. unfold callbackAt, oidcCallback. subst r. cbn [cb_error cb_error_description cb_code cb_state cb_stateCookie cb_nonceCookie].
  rewrite (proj2 (String.eqb_neq code "") Hc), (proj2 (String.eqb_neq state "") Hs). cbn [String.eqb negb orb andb].
  split.
  - intros Hne. destruct (String.eqb_spec st' ""); [by eexists _, _|]. destruct (String.eqb_spec state st'); [congruence|]. by eexists _, _.
  - intros raw kid pk k c -> He Hh Hk Hck. rewrite (proj2 (String.eqb_neq state "") Hs), String.eqb_refl.
    change (default "" (Some nonce)) with nonce. cbn [negb oa_Exchange oa_VerifyIDToken authenticator]. rewrite He. unfold VerifyIDToken. rewrite Hh, Hk, Hck.
    rewrite (proj2 (String.eqb_neq nonce "") Hn). cbn [negb andb].
    destruct (String.eqb_spec (it_Nonce c) nonce) as [En|En]; cbn [negb].
    + destruct (String.eqb_spec (it_Subject c) "") as [Es|Es]; [by rewrite decide_False by (intros [_ H]; exact (H Es))|].
      destruct (resolveRoles _ _ _) as [roles users]. cbn [ic_Subject ic_Email].
      destruct (jw_sign _ laws (ji_Secret j) (claimsAt lib j now' (it_Subject c) (it_Email c) roles)) as [tok Ht].
      change (Issue lib j now' _ _ _) with (jl_SignedString lib (ji_Secret j) (claimsAt lib j now' (it_Subject c) (it_Email c) roles)).
      rewrite Ht, decide_True by done. split; [done|]. split; [done|]. by exists tok.
    + by rewrite decide_False by (intros [H _]; exact (En H)).
Qed.
End web.

(** ** A library with the laws *)

Module SignInDemo.
#[export] Instance Claims_eq_dec : EqDecision Claims.
Proof. solve_decision. Defined.
#[export] Instance Claims_countable : Countable Claims.
Proof.
  refine (inj_countable' (fun c => (cl_Issuer c, cl_Subject c, (cl_IssuedAt c, cl_ExpiresAt c), cl_Email c, cl_Roles c))
    (fun '(a, b, (c, d), e, f) => mkClaims a b c d e f) _). by intros [].
Defined.

(** A token is the number of its claims in binary. *)
Fixpoint bits (n : positive) : string :=
  match n with xH => "" | xO n => String "a" (bits n) | xI n => String "b" (bits n) end.
Fixpoint unbits (s : string) : option positive :=
  match s with
  | EmptyString => Some xH
  | String c s => (if Ascii.eqb c "a" then xO else xI) <$> unbits s
  end.

Definition jwt : JwtLib := mkJwtLib
  (fun t => second * (t / second))
  (fun _ c => Ok ("ey" +:+ bits (encode c)))
  (fun _ now tok =>
     match toText tok with
     | "e"%char :: "y"%char :: t =>
         match unbits (ofText t) ≫= decode with
         | Some c => if now <? cl_ExpiresAt c then Ok c else Err (ErrText "token is expired")
         | None => Err (ErrText "token is malformed")
         end
     | _ => Err (ErrText "token is malformed")
     end).

Lemma unbits_bits n : unbits (bits n) = Some n.
Proof. induction n as [n IH|n IH|]; cbn; [by rewrite IH..|done]. Qed.

Lemma bits_no_space n : Forall (fun c => isSpace c = false) (toText (bits n)).
Proof. induction n as [n IH|n IH|]; cbn; [by constructor..|constructor]. Qed.

Lemma jwt_laws : JwtLaws jwt.
Proof.
  split.
  - done.
  - intros s c tok now _ [= <-]. cbn [jl_Parse jwt]. change (toText ("ey" +:+ bits (encode c))) with ("e"%char :: "y"%char :: toText (bits (encode c))).
    cbn iota. rewrite ofText_toText, unbits_bits. cbn [mbind option_bind]. rewrite decode_encode.
    destruct (Z.ltb_spec now (cl_ExpiresAt c)) as [H|H].
    + split; [done|]. by intros c' [= <-].
    + split; [lia|done].
  - intros s c. by eexists.
  - intros s c tok [= <-]. unfold compact. change (toText ("ey" +:+ bits (encode c))) with ("e"%char :: "y"%char :: toText (bits (encode c))).
    split; [by apply hasPrefix_app; eexists|]. do 2 (constructor; [done|]). apply bits_no_space.
Qed.

Definition cfg : SignInConfig := WithOIDC "https://teo.example.com" (mkSignIn (mkJWTIssuer "secret" hour "teo") "" false).

Definition key : jwk := mkJwk "RSA" "k1" (EncodeToString URL [200; 1; 17]) (EncodeToString URL [1; 0; 1]).
Definition jwks (t : Z) : result (Z * result (list jwk)) := Ok (200, Ok [key]).
Definition provider : Provider :=
  mkProvider (mkConfig "https://idp.example.com/" "teo" "s3cret" "https://teo.example.com/auth/callback" defaultScopes)
    "https://idp.example.com" "https://idp.example.com/auth" "https://idp.example.com/token" "https://idp.example.com/keys".

(** The provider has not verified the address. *)
Definition idClaims (nonce : string) : idTokenClaims :=
  mkIDToken "https://idp.example.com" "mallory" ["teo"] None "ann@example.com" false nonce.
Definition parseHeader (raw : string) : result string := Ok "k1".
(** The token carries its nonce. *)
Definition checkToken (raw : string) (pk : rsaKey) (iss aud : string) (now : Z) : result idTokenClaims :=
  if bool_decide (pk = mkRsaKey 13107473 65537) then Ok (idClaims raw) else Err (ErrText "signature is invalid").

Definition users : userTables :=
  mkUserTables {[ "u1" := mkUserRow "ann@example.com" "Ann" (Some "ann") true false 0 ]} [("u1", RoleAdmin, None); ("u1", RoleReadOnly, Some "r1")].
Definition env : resolverEnv := mkResolverEnv FNone FNone "u2" 5.
Definition request (state : string) : callbackRequest := mkCallback "" "" "c0de" state (Some state) None.

Definition now : Z := 1700000000 * second.
Definition start : WebSys := initWeb now users.
Definition reply := (callbackAt jwt cfg provider jwks parseHeader checkToken now (fun _ => Ok "n0nce") env (request "st") (mkAuthState ∅ users)).
Definition signedIn : WebSys := mkWebSys now ∅ reply.2 (sessionTokens reply.1 ++ []).
End SignInDemo.

Lemma demo_signed_in : rtc (wstep SignInDemo.jwt SignInDemo.cfg demoHash KeyDemo.table SignInDemo.provider SignInDemo.jwks
  SignInDemo.parseHeader SignInDemo.checkToken) SignInDemo.start SignInDemo.signedIn.
Proof.
  apply rtc_once. unfold SignInDemo.signedIn, SignInDemo.start, initWeb.
  pose proof (WCallback SignInDemo.jwt SignInDemo.cfg demoHash KeyDemo.table SignInDemo.provider SignInDemo.jwks SignInDemo.parseHeader SignInDemo.checkToken
    SignInDemo.now ∅ (mkAuthState ∅ SignInDemo.users) [] (fun _ => Ok "n0nce") SignInDemo.env (SignInDemo.request "st")) as H.
  change (callbackAt _ _ _ _ _ _ _ _ _ _ _) with SignInDemo.reply in H. by destruct SignInDemo.reply.
Qed.

(** The token of the demo's browser: no nonce cookie, an address the provider
    did not verify, another subject than the one on record - and the roles of
    the owner of the address. *)
Lemma demo_admin : exists tok, ws_issued SignInDemo.signedIn = [tok]
  /\ Issue SignInDemo.jwt (si_jwt SignInDemo.cfg) SignInDemo.now "mallory" "ann@example.com" [RoleAdmin] = Ok tok.
Proof. eexists. split; vm_compute; reflexivity. Qed.

Lemma sessions_are_vouched_witness : exists tok,
  bound SignInDemo.jwt SignInDemo.cfg demoHash KeyDemo.table SignInDemo.now ∅ "" (Some tok)
    = Some (mkPrincipal "mallory" "ann@example.com" "" [RoleAdmin] [] false)
  /\ exists t0 sub email roles,
       SignedIn SignInDemo.provider SignInDemo.jwks SignInDemo.checkToken t0 sub email roles /\ RoleAdmin ∈ roles.
Proof.
  destruct demo_admin as (tok & E1 & E2). exists tok.
  assert (bound SignInDemo.jwt SignInDemo.cfg demoHash KeyDemo.table SignInDemo.now ∅ "" (Some tok)
    = Some (mkPrincipal "mallory" "ann@example.com" "" [RoleAdmin] [] false)) as Hb.
  { eapply (bound_cookie _ _ _ _ SignInDemo.jwt_laws); [exact E2|vm_compute; done]. }
  split; [exact Hb|].
  destruct (sessions_are_vouched SignInDemo.jwt SignInDemo.cfg demoHash KeyDemo.table SignInDemo.provider SignInDemo.jwks
    SignInDemo.parseHeader SignInDemo.checkToken SignInDemo.jwt_laws SignInDemo.now SignInDemo.users SignInDemo.signedIn
    demo_signed_in "" (Some tok) _ ltac:(apply unforged_cookie; [by eapply (jw_compact _ SignInDemo.jwt_laws)|rewrite E1; left]) Hb)
    as [(t1 & pr & d & _ & id & k & _ & _ & _ & _ & _ & Hk)|(t0 & t & sub & email & roles & _ & _ & Hq & [Ho|(k & _ & _ & He & _)])].
  - discriminate.
  - exists t0, sub, email, roles. split; [exact Ho|]. injection Hq as _ _ <-. left.
  - injection Hq as _ <- _. discriminate.
Defined.

Lemma sessions_outlive_revocation_witness :
  (forall t k, 100 <= t -> KeyDemo.table t !! "k1" = Some k -> is_Some (ak_revoked_at k))
  /\ exists s' tok, second <= ws_now s'
    /\ bound SignInDemo.jwt SignInDemo.cfg demoHash KeyDemo.table (ws_now s') (ws_cache s') "" (Some tok)
       = Some (mkPrincipal "" "" "" [RoleEngineer] [] false).
Proof.
  split; [exact demo_revoked|].
  destruct (sessions_outlive_revocation SignInDemo.jwt SignInDemo.cfg demoHash KeyDemo.table SignInDemo.provider SignInDemo.jwks
    SignInDemo.parseHeader SignInDemo.checkToken SignInDemo.jwt_laws (initWeb 50 SignInDemo.users) ("Bearer " +:+ KeyDemo.display) None
    KeyDemo.principal) with (t := second) as (s' & tok & _ & Ht & _ & Hb).
  - vm_compute. discriminate.
  - intros t q. vm_compute. discriminate.
  - vm_compute. reflexivity.
  - exists s', tok. split; [exact Ht|exact Hb].
Defined.

Lemma sign_in_completes_witness : exists query state nonce,
  oidcLogin SignInDemo.cfg (Some (authenticator SignInDemo.provider SignInDemo.jwks SignInDemo.parseHeader SignInDemo.checkToken SignInDemo.now (fun _ => Ok "")))
    (Some [1; 2; 3]) (Some [4; 5; 6])
    = mkWeb [setFlowCookie SignInDemo.cfg stateCookie state; setFlowCookie SignInDemo.cfg nonceCookie nonce]
        (WRedirect ("https://idp.example.com/auth?" +:+ query))
  /\ state = "AQID" /\ nonce = "BAUG" /\ secondsInt flowTTL = 600 /\ is_Some (ParseQuery query).
Proof.
  destruct (sign_in_completes SignInDemo.jwt SignInDemo.cfg SignInDemo.provider SignInDemo.jwks SignInDemo.parseHeader SignInDemo.checkToken
    SignInDemo.jwt_laws SignInDemo.now (fun _ => Ok "") SignInDemo.env [1; 2; 3] [4; 5; 6]) as (query & state & nonce & H1 & H2 & _).
  - repeat constructor; unfold isByte; lia.
  - repeat constructor; unfold isByte; lia.
  - discriminate.
  - discriminate.
  - exists query, state, nonce. split; [exact H1|]. apply (f_equal (fun r => ck_Value <$> wb_Cookies r)) in H1. vm_compute in H1. injection H1 as <- <-.
    split; [reflexivity|]. split; [reflexivity|]. split; [vm_compute; reflexivity|]. by eexists.
Defined.
