(* ===== verification/ExportProps.v ===== *)
(** * Spans in and out

    What the OTLP receiver stores is what the export of a run gives back, and
    ingesting an export stores the same rows again. *)

From S2P Require Import Prelude GoSort GoBytes GoFmt GoRegexp GoStrings Db Effects RunManagerProps Cluster Otlp Rest Export.
From S2P Require Import Model RunSvcProps Witnesses Worker WorkerProps.

(** ** Hexadecimal *)

Lemma hexPairs_encode l : Forall isByte l -> hexPairs (hexEncode l) = Some l.
Proof.
  unfold hexEncode. induction 1 as [|b l Hb Hl IH]; [done|]. cbn [fmap list_fmap concat app hexPairs].
  destruct (nibbles b Hb) as (B1 & B2 & B3). rewrite !hexValue_digit by done.
  change (concat _) with (concat ((fun b => [hexDigit (Z.shiftr b 4); hexDigit (Z.land b 15)]) <$> l)).
  rewrite IH. cbn [fmap option_fmap option_map]. do 2 f_equal. clear IH Hl.
  set (hi := Z.shiftr b 4) in *. set (lo := Z.land b 15) in *.
  assert (Z.land (Z.shiftl hi 4) lo = 0) as H0.
  { apply Z.bits_inj'. intros n Hn. rewrite Z.land_spec, Z.shiftl_spec, Z.bits_0 by done. destruct (Z.lt_ge_cases n 4).
    - by rewrite Z.testbit_neg_r by lia.
    - subst lo. rewrite Z.land_spec. change 15 with (Z.ones 4). by rewrite Z.ones_spec_high, !andb_false_r by lia. }
  pose proof (Z.add_lor_land (Z.shiftl hi 4) lo) as H1. rewrite H0, Z.shiftl_mul_pow2 in H1 by lia. rewrite Z.shiftl_mul_pow2 by lia. lia.
Qed.

Lemma hexToBytes_hexBytes b : Forall isByte b -> hexToBytes (hexBytes b) = b.
Proof.
  intros Hb. destruct b as [|x b]; [done|]. unfold hexToBytes, hexBytes, hexString.
  rewrite bytesOf_stringOf by by apply hexEncode_isByte. by rewrite hexPairs_encode.
Qed.

(** ** Maps and the lists they are ranged over as *)

Lemma foldl_insert (l : list (string * string)) (m : gmap string string) :
  foldl (fun m kv => <[kv.1 := kv.2]> m) m l = list_to_map (reverse l) ∪ m.
Proof.
  revert m. induction l as [|[k v] l IH]; intros m; cbn [foldl]; [by rewrite reverse_nil, list_to_map_nil, (left_id_L ∅ (∪))|].
  rewrite IH, reverse_cons, list_to_map_app. cbn [list_to_map foldr fst snd].
  rewrite <-(assoc_L (∪)). f_equal. by rewrite insert_union_singleton_l, insert_empty.
Qed.

Section ranged.
Context (rangeOf : gmap string string -> list (string * string)) (Hrange : forall m, rangeOf m ≡ₚ map_to_list m).

Lemma ranged_map m : list_to_map (reverse (rangeOf m)) = m.
Proof.
  rewrite <-(list_to_map_to_list m) at 2. apply list_to_map_proper.
  - rewrite reverse_Permutation, Hrange. apply NoDup_fst_map_to_list.
  - by rewrite reverse_Permutation.
Qed.

Lemma buildMap_ranged m : buildMap (rangeOf m).*1 (rangeOf m).*2 = m.
Proof. unfold buildMap. rewrite zip_fst_snd, foldl_insert, (right_id_L ∅ (∪)). apply ranged_map. Qed.

Lemma attrsToMap_strings l : attrsToMap ((fun kv => stringKV kv.1 kv.2) <$> l)
  = foldl (fun (m : gmap string string) (kv : string * string) => <[kv.1 := kv.2]> m) ∅ l.
Proof.
  unfold attrsToMap. generalize (∅ : gmap string string). induction l as [|kv l IH]; intros m; [done|]. cbn. apply IH.
Qed.

(** The attributes of an exported span read back: those stored, with both ids. *)
Lemma exported_attributes m rid tid :
  attrsToMap (sp_Attributes (exportSpan rangeOf (mkSpanRow "" "" "" tid rid "" 0 0 0 0 "" m)))
  = <["teo.run_id" := rid]> (<["teo.test_id" := tid]> m).
Proof.
  cbn [exportSpan sp_Attributes sr_RunID sr_TestID sr_Attributes].
  set (others := List.filter _ (rangeOf m)).
  change ([stringKV "teo.run_id" rid; stringKV "teo.test_id" tid] ++ ((fun kv => stringKV kv.1 kv.2) <$> others))
    with ((fun kv => stringKV kv.1 kv.2) <$> [("teo.run_id", rid); ("teo.test_id", tid)] ++ others).
  rewrite attrsToMap_strings, foldl_insert, (right_id_L ∅ (∪)).
  assert (NoDup (rangeOf m).*1) as Hnd by (rewrite Hrange; apply NoDup_fst_map_to_list).
  assert (forall k v, (k, v) ∈ others <-> m !! k = Some v /\ k <> "teo.run_id" /\ k <> "teo.test_id") as Ho.
  { intros k v. unfold others. rewrite list_elem_of_In, filter_In, <-list_elem_of_In, Hrange, elem_of_map_to_list. cbn [fst].
    rewrite negb_true_iff, orb_false_iff, !String.eqb_neq. tauto. }
  assert (NoDup (reverse ([("teo.run_id", rid); ("teo.test_id", tid)] ++ others)).*1) as Hnd'.
  { rewrite reverse_Permutation. cbn [app fmap list_fmap fst]. apply NoDup_cons. split.
    { intros [E|[[k v] [E Hin%Ho]]%list_elem_of_fmap]%elem_of_cons; [done|]. cbn in E. destruct Hin as (_ & Hin & _). congruence. }
    apply NoDup_cons. split; [intros ([k v] & E & Hin%Ho)%list_elem_of_fmap; cbn in E; destruct Hin as (_ & _ & Hin); congruence|].
    unfold others. revert Hnd. generalize (rangeOf m). intros l Hnd. induction l as [|[k v] l IH]; [constructor|]. cbn [List.filter fst].
    apply NoDup_cons in Hnd as [Hk Hnd]. destruct (negb _); [|by apply IH]. apply NoDup_cons. split; [|by apply IH].
    intros ([k' v'] & E & Hin)%list_elem_of_fmap. apply Hk. cbn in E. subst k'. apply list_elem_of_In, filter_In in Hin as [Hin _].
    apply list_elem_of_fmap. exists (k, v'). by rewrite list_elem_of_In. }
  apply map_eq. intros k. apply option_eq. intros v.
  rewrite <-elem_of_list_to_map by exact Hnd'. rewrite elem_of_reverse. cbn [app]. rewrite !elem_of_cons, Ho.
  rewrite lookup_insert_Some, lookup_insert_Some.
  split.
  - intros [[= -> ->]|[[= -> ->]|(H & H1 & H2)]]; [by left|right|right]; (split; [done|]); [by left|right; done].
  - intros [[<- <-]|[H1 [[<- <-]|[H2 H]]]]; [by left|by right; left|]. right. right. done.
Qed.
End ranged.

(** ** The round trip *)

(** The spans of a request, each with the attributes of its resource. *)
Definition spansOf (req : ExportTraceServiceRequest) : list (gmap string string * Span) :=
  concat ((fun rs => pair (attrsToMap (rsp_Attributes rs)) <$> concat (rsp_Scopes rs)) <$> req).

(** The ranges of the wire types; the kinds of the protocol are 0 to 5. *)
Record wfSpan (sp : Span) : Prop := {
  wf_trace : Forall isByte (sp_TraceId sp);
  wf_span : Forall isByte (sp_SpanId sp);
  wf_parent : Forall isByte (sp_ParentSpanId sp);
  wf_start : 0 <= sp_Start sp < 2 ^ 64;
  wf_end : 0 <= sp_End sp < 2 ^ 64;
  wf_kind : -128 <= sp_Kind sp < 128
}.

Section roundtrip.
Context (rangeOf : gmap string string -> list (string * string)) (Hrange : forall m, rangeOf m ≡ₚ map_to_list m)
  (uuidParse : string -> option string).

(** The run and the test a span is stored under. *)
Definition runOf (x : gmap string string * Span) : string :=
  parseUUIDOrZero uuidParse (firstNonEmpty [attr "teo.run_id" (attrsToMap (sp_Attributes x.2)); attr "teo.run_id" x.1]).
Definition testOfSpan (x : gmap string string * Span) : string :=
  parseUUIDOrZero uuidParse (attr "teo.test_id" (attrsToMap (sp_Attributes x.2))).

(** [out] is the span [x] as it comes back: the same identifiers, name and kind,
    times clamped to int64, a known status code, and the attributes as strings with
    both ids. *)
Record Returned (x : gmap string string * Span) (out : Span) : Prop := {
  rt_trace : sp_TraceId out = sp_TraceId x.2;
  rt_span : sp_SpanId out = sp_SpanId x.2;
  rt_parent : sp_ParentSpanId out = sp_ParentSpanId x.2;
  rt_name : sp_Name out = sp_Name x.2;
  rt_kind : sp_Kind out = sp_Kind x.2;
  rt_start : sp_Start out = Z.min (sp_Start x.2) maxInt64;
  rt_end : sp_End out = Z.min (sp_End x.2) maxInt64;
  rt_attributes : attrsToMap (sp_Attributes out)
    = <["teo.run_id" := runOf x]> (<["teo.test_id" := testOfSpan x]> (attrsToMap (sp_Attributes x.2)));
  rt_status : exists s, sp_Status out = Some s /\ ss_Code s = statusToCode (sp_Status x.2)
    /\ ss_Message s = match sp_Status x.2 with Some s => ss_Message s | None => "" end
}.

Definition storedRow (x : gmap string string * Span) : spanRow := batchRow uuidParse (flattenSpan rangeOf x.1 x.2).

Lemma flatten_rows req : (flatten rangeOf req).1 = (fun x => flattenSpan rangeOf x.1 x.2) <$> spansOf req.
Proof.
  unfold flatten, spansOf. cbn [fst]. induction req as [|rs req IH]; [done|].
  rewrite !fmap_cons. cbn [concat]. rewrite fmap_app, IH. f_equal. generalize (concat (rsp_Scopes rs)). intros l.
  induction l as [|sp l IHl]; [done|]. rewrite !fmap_cons. cbn [concat app]. f_equal. exact IHl.
Qed.

Lemma firstNonEmpty_same s : firstNonEmpty [s; s] = s.
Proof. unfold firstNonEmpty. cbn [List.find]. by destruct (String.eqb_spec s "") as [->|]. Qed.

Lemma storedRow_run x : sr_RunID (storedRow x) = runOf x.
Proof. done. Qed.
Lemma storedRow_test x : sr_TestID (storedRow x) = testOfSpan x.
Proof. unfold testOfSpan. rewrite <-(firstNonEmpty_same (attr _ _)). done. Qed.

Lemma clamp_range n : 0 <= n -> 0 <= unixNanoToTime n <= maxInt64 /\ unixNanoToTime n = Z.min n maxInt64.
Proof. unfold unixNanoToTime, maxInt64. intros Hn. destruct (Z.ltb_spec (2 ^ 63 - 1) n); lia. Qed.

Lemma int8_small n : -128 <= n < 128 -> int8 n = n.
Proof. intros Hn. unfold int8. rewrite Z.mod_small by lia. lia. Qed.

Lemma statusToCode_known s : statusToCode s = 0 \/ statusToCode s = 1 \/ statusToCode s = 2.
Proof. unfold statusToCode. destruct s as [s|]; [|auto]. destruct (_ =? 1); [auto|]. destruct (_ =? 2); auto. Qed.

Lemma statusFromCode_code s msg : ss_Code (statusFromCode (statusToCode s) msg) = statusToCode s.
Proof. unfold statusFromCode. destruct (statusToCode_known s) as [->|[->| ->]]; done. Qed.

Lemma exportSpan_attributes s : sp_Attributes (exportSpan rangeOf s)
  = sp_Attributes (exportSpan rangeOf (mkSpanRow "" "" "" (sr_TestID s) (sr_RunID s) "" 0 0 0 0 "" (sr_Attributes s))).
Proof. done. Qed.

Lemma storedRow_attributes x : sr_Attributes (storedRow x) = attrsToMap (sp_Attributes x.2).
Proof. apply (buildMap_ranged rangeOf Hrange). Qed.

Lemma exported_stored x : wfSpan x.2 -> Returned x (exportSpan rangeOf (storedRow x)).
Proof.
  intros []. split; try (cbn; by apply hexToBytes_hexBytes).
  - done.
  - cbn. by apply int8_small.
  - change (unixNanoToTime (sp_Start x.2) mod 2 ^ 64 = Z.min (sp_Start x.2) maxInt64).
    destruct (clamp_range (sp_Start x.2)) as [H1 H2]; [lia|]. rewrite <-H2. apply Z.mod_small. unfold maxInt64 in H1. lia.
  - change (unixNanoToTime (sp_End x.2) mod 2 ^ 64 = Z.min (sp_End x.2) maxInt64).
    destruct (clamp_range (sp_End x.2)) as [H1 H2]; [lia|]. rewrite <-H2. apply Z.mod_small. unfold maxInt64 in H1. lia.
  - rewrite exportSpan_attributes, (exported_attributes rangeOf Hrange), storedRow_attributes, storedRow_test. done.
  - eexists. split; [reflexivity|]. split; [apply statusFromCode_code|done].
Qed.

(** ** Ingesting an export *)

(** [uuid.Parse] accepts its own canonical form, which has no surrounding space. *)
Definition canonicalUUIDs : Prop := uuidParse zeroUUID = Some zeroUUID /\
  forall s x, uuidParse s = Some x -> x <> "" /\ ofText (trimSpace (toText x)) = x /\ uuidParse x = Some x.

Lemma parse_stored s : canonicalUUIDs -> let x := parseUUIDOrZero uuidParse s in x <> "" /\ parseUUIDOrZero uuidParse x = x.
Proof.
  intros [Hz Hc]. cbv zeta.
  assert (forall s x, uuidParse s = Some x -> x <> "" /\ parseUUIDOrZero uuidParse x = x) as Hp.
  { intros s' x Hx. destruct (Hc _ _ Hx) as (H1 & H2 & H3). split; [done|]. unfold parseUUIDOrZero.
    rewrite (proj2 (String.eqb_neq x "")) by done. by rewrite H2, H3. }
  assert (exists s', uuidParse s' = Some (parseUUIDOrZero uuidParse s)) as [s' E]; [|by eapply Hp].
  unfold parseUUIDOrZero. destruct (String.eqb s ""); [by exists zeroUUID|].
  destruct (uuidParse (ofText (trimSpace (toText s)))) as [x|] eqn:E; cbn; eauto.
Qed.

(** A stored row with both ids among its attributes. *)
Definition withIds (s : spanRow) : spanRow :=
  mkSpanRow (sr_TraceID s) (sr_SpanID s) (sr_ParentSpanID s) (sr_TestID s) (sr_RunID s) (sr_Name s) (sr_Kind s) (sr_StartTime s)
    (sr_EndTime s) (sr_StatusCode s) (sr_StatusMessage s)
    (<["teo.run_id" := sr_RunID s]> (<["teo.test_id" := sr_TestID s]> (sr_Attributes s))).

Lemma hexBytes_again b : Forall isByte b -> hexBytes (hexToBytes (hexBytes b)) = hexBytes b.
Proof. intros Hb. by rewrite hexToBytes_hexBytes. Qed.

Lemma unixNano_again n : 0 <= n -> unixNanoToTime (unixNanoToTime n mod 2 ^ 64) = unixNanoToTime n.
Proof.
  intros Hn. destruct (clamp_range n Hn) as [H1 H2]. rewrite Z.mod_small by (unfold maxInt64 in H1; lia).
  destruct (clamp_range (unixNanoToTime n)) as [_ ->]; lia.
Qed.

Lemma int8_again n : int8 (int8 n) = int8 n.
Proof. unfold int8. rewrite (Z.mod_small ((n + 128) mod 256 - 128 + 128)); [lia|]. pose proof (Z.mod_pos_bound (n + 128) 256). lia. Qed.

Lemma ingested_again res x : canonicalUUIDs -> wfSpan x.2 ->
  batchRow uuidParse (flattenSpan rangeOf res (exportSpan rangeOf (storedRow x))) = withIds (storedRow x).
Proof.
  intros Hu []. unfold withIds.
  assert (attrsToMap (sp_Attributes (exportSpan rangeOf (storedRow x)))
    = <["teo.run_id" := runOf x]> (<["teo.test_id" := testOfSpan x]> (attrsToMap (sp_Attributes x.2)))) as Ha.
  { by rewrite exportSpan_attributes, (exported_attributes rangeOf Hrange), storedRow_attributes, storedRow_test. }
  rewrite storedRow_attributes, storedRow_test, storedRow_run.
  unfold batchRow, flattenSpan. cbn [traceID spanID parentSpanID testID runID rowName kind startTime endTime statusCode statusMessage attrKeys attrVals].
  rewrite Ha, (buildMap_ranged rangeOf Hrange). unfold pickTestID. rewrite firstNonEmpty_same.
  set (tid := testOfSpan x). set (rid := runOf x). unfold attr.
  rewrite lookup_insert_eq, lookup_insert_ne, lookup_insert_eq by done. cbn [default].
  destruct (parse_stored (attr "teo.test_id" (attrsToMap (sp_Attributes x.2))) Hu) as [T1 T2]. fold (testOfSpan x) in T1, T2. fold tid in T1, T2.
  destruct (parse_stored (firstNonEmpty [attr "teo.run_id" (attrsToMap (sp_Attributes x.2)); attr "teo.run_id" x.1]) Hu) as [R1 R2].
  fold (runOf x) in R1, R2. fold rid in R1, R2.
  replace (firstNonEmpty [rid; default "" (res !! "teo.run_id")]) with rid
    by (unfold firstNonEmpty; cbn [List.find]; by rewrite (proj2 (String.eqb_neq rid "")) by done).
  change (id tid) with tid. rewrite T2, R2. unfold storedRow, batchRow, flattenSpan, exportSpan.
  cbn [sp_TraceId sp_SpanId sp_ParentSpanId sp_Name sp_Kind sp_Start sp_End sp_Status sr_TraceID sr_SpanID sr_ParentSpanID sr_Name sr_Kind
    sr_StartTime sr_EndTime sr_StatusCode sr_StatusMessage traceID spanID parentSpanID rowName kind startTime endTime statusCode statusMessage].
  f_equal; [by apply hexBytes_again..|apply int8_again|apply unixNano_again; lia|apply unixNano_again; lia|].
  unfold statusFromCode. cbn [statusToCode ss_Code]. destruct (statusToCode_known (sp_Status x.2)) as [->|[->| ->]]; done.
Qed.

(** ** The whole way *)

Lemma writeSpans_sends ch rows w w' : writeSpans uuidParse ch rows w = (Ok tt, w') -> rows <> [] ->
  w_out w' = w_out w ++ [OSpanBatch (batchRow uuidParse <$> rows)] /\ ch_Send ch (batchRow uuidParse <$> rows) = Ok tt.
Proof.
  intros E Hne. unfold writeSpans in E. destruct rows as [|r rows]; [done|]. set (l := r :: rows) in *. clearbody l. clear r rows.
  apply bindM_inv in E as (? & w1 & E1 & E). apply bindM_inv in E as (? & w2 & E2 & E). apply bindM_inv in E as (? & w3 & E3 & E).
  assert (forall A msg (r : result A) w0 a w0', wrapM msg (ofResult r) w0 = (Ok a, w0') -> w0' = w0 /\ r = Ok a) as Hr.
  { intros A msg r w0 a w0'. destruct r; cbn; intros [= <- <-]; done. }
  apply Hr in E1 as [-> _].
  assert (w2 = w) as ->.
  { clear E3 E Hne. revert E2. generalize (ch_Append ch). intros app. revert x0. induction l as [|s l IH]; intros y E2; cbn [forM_] in E2; [by injection E2|].
    apply bindM_inv in E2 as (? & w4 & Ea & E2). apply Hr in Ea as [-> _]. by eapply IH. }
  injection E3 as _ <-. apply Hr in E as [-> ->]. done.
Qed.

(** C20: Spans come back.  When the receiver accepts a request, the batch it sends to
    ClickHouse holds one row per span; and whatever order ClickHouse returns the
    rows of a run in, the export of that run holds exactly its spans, each with
    its identifiers, name, kind, status and attributes, its times clamped to
    int64; and ingesting that export produces those very rows again, their two
    ids now also among the attributes. *)
Theorem otlp_round_trip ch cluster metrics req w w' :
  canonicalUUIDs -> Forall (fun x => wfSpan x.2) (spansOf req) -> spansOf req <> [] ->
  Export rangeOf uuidParse (Some ch) cluster metrics req w = (Ok tt, w') ->
  exists rows, w_out w' = w_out w ++ [OSpanBatch rows] /\ ch_Send ch rows = Ok tt /\ length rows = length (spansOf req)
  /\ forall select run rid stored, uuidParse run = Some rid -> select rid = Ok stored ->
       stored ≡ₚ List.filter (fun s => String.eqb (sr_RunID s) rid) rows ->
     exists l out, l ≡ₚ List.filter (fun x => String.eqb (runOf x) rid) (spansOf req) /\ Forall2 Returned l out
     /\ let exported := [mkResourceSpans [stringKV "teo.run_id" run; stringKV "service.name" "teo"] [out]] in
        buildOTLP rangeOf (QuerySpansByRun uuidParse select) run = Ok exported
        /\ batchRow uuidParse <$> (flatten rangeOf exported).1 = withIds <$> stored.
Proof.
  intros Hu Hwf Hne E. unfold Export in E. pose proof (flatten_rows req) as Hrows.
  destruct (flatten rangeOf req) as [rows failures] eqn:Ef. cbn [fst] in Hrows. subst rows.
  clear Ef. destruct ((fun x => flattenSpan rangeOf x.1 x.2) <$> spansOf req) as [|r0 rs0] eqn:Er; [by destruct (spansOf req)|]. rewrite <-Er in E. clear r0 rs0 Er.
  apply bindM_inv in E as (r & w1 & E1 & E). unfold tryM in E1. destruct (writeSpans _ _ _ w) as [r1 w2] eqn:Ew. injection E1 as <- <-.
  destruct r1 as [[]|e].
  2: { destruct metrics; cbn in E; discriminate. }
  apply writeSpans_sends in Ew as [Ho Hs]; [|by destruct (spansOf req)].
  assert (batchRow uuidParse <$> ((fun x => flattenSpan rangeOf x.1 x.2) <$> spansOf req) = storedRow <$> spansOf req) as Eb
    by by rewrite <-list_fmap_compose.
  rewrite Eb in Ho, Hs. exists (storedRow <$> spansOf req). split_and!; [|exact Hs|apply length_fmap|].
  { assert (Sends (fun _ => False) (forM_ failures (fun f => ignoreM (UpsertCluster cluster (fl_repoID f) (fl_stack f) (fl_message f))))) as Hsend.
    { apply sends_forM. intros f. unfold UpsertCluster. destruct cluster, (FingerprintStack (fl_stack f)) as [fp norm]; cbn [negb];
        [destruct (String.eqb fp "")|..]; apply _. }
    destruct (Hsend w2) as (l & El & Hl). rewrite E in El. cbn [snd] in El. destruct l as [|o l]; [|by inversion Hl].
    by rewrite El, app_nil_r, Ho. }
  intros select run rid stored Hrun Hsel Hst.
  assert (exists l, stored = storedRow <$> l /\ l ≡ₚ List.filter (fun x => String.eqb (runOf x) rid) (spansOf req)) as (l & -> & Hl).
  { assert (List.filter (fun s => String.eqb (sr_RunID s) rid) (storedRow <$> spansOf req)
      = storedRow <$> List.filter (fun x => String.eqb (runOf x) rid) (spansOf req)) as Hf.
    { generalize (spansOf req). intros l. induction l as [|x l IH]; [done|]. rewrite fmap_cons. cbn [List.filter]. rewrite storedRow_run.
      destruct (String.eqb (runOf x) rid); [rewrite fmap_cons; by f_equal|done]. }
    rewrite Hf in Hst. apply Permutation_map_inv in Hst as (l & -> & Hl). exists l. split; [done|by symmetry]. }
  assert (Forall (fun x => wfSpan x.2) l) as Hwl.
  { rewrite Hl. apply Forall_forall. intros x Hx. apply list_elem_of_In, filter_In in Hx as [Hx _]. apply list_elem_of_In in Hx.
    by eapply Forall_forall in Hwf. }
  exists l, (exportSpan rangeOf <$> (storedRow <$> l)). split; [done|]. split.
  { clear Hl Hst Hsel. induction Hwl as [|x l Hx Hwl IH]; [constructor|]. rewrite !fmap_cons. constructor; [by apply exported_stored|exact IH]. }
  cbv zeta. split; [unfold buildOTLP, QuerySpansByRun; by rewrite Hrun, Hsel|].
  rewrite flatten_rows. unfold spansOf. cbn [fmap list_fmap concat rsp_Scopes rsp_Attributes]. rewrite !app_nil_r.
  generalize (attrsToMap [stringKV "teo.run_id" run; stringKV "service.name" "teo"]). intros res. clear Hl Hst Hsel.
  induction Hwl as [|x l Hx Hwl IH]; [done|]. rewrite !fmap_cons. cbn [fst snd]. f_equal; [by apply ingested_again|exact IH].
Qed.
End roundtrip.

(** *** Two spans *)

Module OtlpDemo.
Definition parse (s : string) : option string :=
  if Nat.eqb (String.length s) 36 && String.eqb (ofText (trimSpace (toText s))) s then Some s else None.
Definition run : string := "6ba7b810-9dad-11d1-80b4-00c04fd430c8".
(** The second ends after 2262 and carries its own test id. *)
Definition request : ExportTraceServiceRequest :=
  [mkResourceSpans [stringKV "teo.run_id" run]
     [[mkSpan [1; 171] [2] [] "setup" 1 10 20 [mkKeyValue "n" (Some (IntValue 3))] None;
       mkSpan [1; 171] [3] [2] "call" 3 20 (2 ^ 63 + 5) [stringKV "teo.test_id" run] (Some (mkSpanStatus 2 "boom"))]]].
Definition store : clickhouse := mkClickhouse (Ok tt) (fun _ => Ok tt) (fun _ => Ok tt).
Definition world : World := QW emptyDB None 9 (fun _ => "") 0 ∅ [] idleAgent.
End OtlpDemo.

Lemma demo_canonical : canonicalUUIDs OtlpDemo.parse.
Proof.
  split; [reflexivity|]. intros s x. unfold OtlpDemo.parse at 1.
  destruct (Nat.eqb_spec (String.length s) 36) as [Hl|]; [|done]. destruct (String.eqb_spec (ofText (trimSpace (toText s))) s) as [Ht|]; [|done].
  cbn [andb]. intros [= <-]. split_and!; [by intros ->|done|]. unfold OtlpDemo.parse. by rewrite Hl, Ht, String.eqb_refl.
Qed.

Lemma otlp_round_trip_witness : exists rows out,
  (Export map_to_list OtlpDemo.parse (Some OtlpDemo.store) false false OtlpDemo.request OtlpDemo.world).1 = Ok tt
  /\ length rows = 2%nat
  /\ buildOTLP map_to_list (QuerySpansByRun OtlpDemo.parse (fun _ => Ok (List.filter (fun s => String.eqb (sr_RunID s) OtlpDemo.run) rows))) OtlpDemo.run
     = Ok [mkResourceSpans [stringKV "teo.run_id" OtlpDemo.run; stringKV "service.name" "teo"] [out]]
  /\ exists l, l ≡ₚ List.filter (fun x => String.eqb (runOf OtlpDemo.parse x) OtlpDemo.run) (spansOf OtlpDemo.request)
       /\ Forall2 (Returned OtlpDemo.parse) l out.
Proof.
  destruct (otlp_round_trip map_to_list (fun m => reflexivity _) OtlpDemo.parse OtlpDemo.store false false OtlpDemo.request OtlpDemo.world
    (Export map_to_list OtlpDemo.parse (Some OtlpDemo.store) false false OtlpDemo.request OtlpDemo.world).2 demo_canonical)
    as (rows & _ & _ & Hn & A).
  - repeat constructor; (exact eq_refl || discriminate).
  - discriminate.
  - vm_compute. reflexivity.
  - destruct (A (fun _ => Ok (List.filter (fun s => String.eqb (sr_RunID s) OtlpDemo.run) rows)) OtlpDemo.run OtlpDemo.run _ eq_refl eq_refl (reflexivity _))
      as (l & out & H1 & H2 & H3 & _).
    exists rows, out. split; [vm_compute; reflexivity|]. split; [exact Hn|]. split; [exact H3|]. exists l. split; [exact H1|exact H2].
Defined.

(** * The JUnit document

    The loop over the rows against its reference: the rows of each shard, in the
    order of the query. *)


(** ** The reference *)

Definition rowsOf (sid : string) (l : list junitRow) : list junitRow := List.filter (fun r => String.eqb (jr_shardID r) sid) l.
Definition countWhere (p : string -> bool) (l : list junitRow) : Z := sumZ ((fun r => Z.b2z (p (jr_outcome r))) <$> l).
Definition nanosOf (l : list junitRow) : Z := wrap64 (sumZ ((fun r => jr_duration r * 1000000) <$> l)).

(** The suite of a shard's rows, [first] being the first of them. *)
Definition suiteRef (first : junitRow) (rs : list junitRow) : junitTestSuite :=
  mkJunitTestSuite (js_Name (newSuite first)) (Z.of_nat (length rs)) (countWhere (String.eqb "failed") rs)
    (countWhere isErrorOutcome rs) (countWhere (String.eqb "skipped") rs) "" (js_Timestamp (newSuite first)) (caseOf <$> rs).

(** ** The loop *)

Record Looped (l : list junitRow) (st : junitState) : Prop := {
  lp_suite sid : bySuite st !! sid = match rowsOf sid l with [] => None | r :: rs => Some (suiteRef r (r :: rs)) end;
  lp_dur sid : default 0 (suiteDur st !! sid) = nanosOf (rowsOf sid l);
  lp_nodup : NoDup (suiteOrder st);
  lp_order sid : sid ∈ suiteOrder st <-> rowsOf sid l <> [];
  lp_tests : totalTests st = Z.of_nat (length l);
  lp_fail : totalFail st = countWhere (String.eqb "failed") l;
  lp_err : totalErr st = countWhere isErrorOutcome l;
  lp_skip : totalSkip st = countWhere (String.eqb "skipped") l;
  lp_total : totalDur st = nanosOf l;
  lp_cases : concat ((fun sid => caseOf <$> rowsOf sid l) <$> suiteOrder st) ≡ₚ caseOf <$> l
}.

Lemma rowsOf_snoc sid l r : rowsOf sid (l ++ [r]) = rowsOf sid l ++ if String.eqb (jr_shardID r) sid then [r] else [].
Proof. unfold rowsOf. rewrite List.filter_app. cbn [List.filter]. by destruct (String.eqb _ _). Qed.

Lemma countWhere_snoc p l r : countWhere p (l ++ [r]) = countWhere p l + Z.b2z (p (jr_outcome r)).
Proof. unfold countWhere. rewrite fmap_app, sumZ_app. cbn. lia. Qed.

Lemma nanosOf_snoc l r : nanosOf (l ++ [r]) = wrap64 (nanosOf l + jr_duration r * 1000000).
Proof. unfold nanosOf. rewrite fmap_app, sumZ_app, wrap64_add_l. cbn. f_equal. lia. Qed.

Lemma addCase_ref first rs r : addCase r (suiteRef first rs) = suiteRef first (rs ++ [r]).
Proof.
  unfold addCase, suiteRef. cbn [js_Name js_Tests js_Failures js_Errors js_Skipped js_Time js_Timestamp js_Cases].
  rewrite !countWhere_snoc, length_app, fmap_app, Nat2Z.inj_add. cbn. by rewrite !(String.eqb_sym (jr_outcome r)).
Qed.

Lemma addCase_new r : addCase r (newSuite r) = suiteRef r [r].
Proof. unfold addCase, suiteRef, countWhere. cbn. rewrite !(String.eqb_sym (jr_outcome r)), !Z.add_0_r. reflexivity. Qed.

(** A shard's cases gain one, at its place in the order. *)
Lemma cases_snoc order l r : NoDup order -> jr_shardID r ∈ order ->
  concat ((fun sid => caseOf <$> rowsOf sid (l ++ [r])) <$> order) ≡ₚ concat ((fun sid => caseOf <$> rowsOf sid l) <$> order) ++ [caseOf r].
Proof.
  intros Hn Hin. assert (forall k : list string, jr_shardID r ∉ k -> (fun sid => caseOf <$> rowsOf sid (l ++ [r])) <$> k = (fun sid => caseOf <$> rowsOf sid l) <$> k) as Hother.
  { intros k Hk. apply list_fmap_ext. intros i sid Hs. rewrite rowsOf_snoc.
    rewrite (proj2 (String.eqb_neq _ _)); [by rewrite app_nil_r|]. intros <-. apply Hk. by eapply list_elem_of_lookup_2. }
  apply list_elem_of_split in Hin as (k1 & k2 & ->). apply NoDup_app in Hn as (_ & H1 & [H2 _]%NoDup_cons).
  rewrite !fmap_app, !fmap_cons, !Hother; [|done|intros ?; eapply H1; [done|by left]].
  rewrite rowsOf_snoc, String.eqb_refl, fmap_app, !concat_app. cbn [concat fmap list_fmap].
  rewrite <-!app_assoc. apply Permutation_app_head, Permutation_app_head, Permutation_app_comm.
Qed.

Lemma addRow_looped l st r : Looped l st -> Looped (l ++ [r]) (addRow st r).
Proof.
  intros [Hs Hd Hn Ho H1 H2 H3 H4 H5 Hc]. unfold addRow.
  assert (exists suite order, (match bySuite st !! jr_shardID r with
      | Some s => (s, suiteOrder st) | None => (newSuite r, suiteOrder st ++ [jr_shardID r]) end) = (suite, order)
    /\ Some (addCase r suite) = match rowsOf (jr_shardID r) (l ++ [r]) with [] => None | r0 :: rs => Some (suiteRef r0 (r0 :: rs)) end
    /\ NoDup order /\ (forall sid, sid ∈ order <-> rowsOf sid (l ++ [r]) <> [])
    /\ concat ((fun sid => caseOf <$> rowsOf sid (l ++ [r])) <$> order) ≡ₚ caseOf <$> (l ++ [r])) as (suite & order & -> & Hsuite & Hn' & Ho' & Hc').
  { pose proof (Hs (jr_shardID r)) as E. pose proof (Ho (jr_shardID r)) as Eo. rewrite rowsOf_snoc, String.eqb_refl.
    assert (forall sid, rowsOf sid (l ++ [r]) <> [] <-> rowsOf sid l <> [] \/ sid = jr_shardID r) as Hne.
    { intros sid. rewrite rowsOf_snoc. destruct (String.eqb_spec (jr_shardID r) sid) as [->|Hx].
      - split; [by right|]. intros _ E0. by apply app_nil in E0 as [_ ?].
      - rewrite app_nil_r. split; [by left|]. intros [?|?]; congruence. }
    rewrite fmap_app. cbn [fmap list_fmap]. destruct (rowsOf (jr_shardID r) l) as [|r0 rs] eqn:Er; rewrite E.
    - assert (jr_shardID r ∉ suiteOrder st) as Hnew by (rewrite Eo; intros ?; done).
      do 2 eexists. split; [reflexivity|]. split; [by rewrite addCase_new|]. split.
      { apply NoDup_app. split; [done|]. split; [|apply NoDup_singleton]. by intros x Hx ->%list_elem_of_singleton. }
      split; [intros sid; rewrite Hne, elem_of_app, list_elem_of_singleton, Ho; done|].
      rewrite cases_snoc; [|apply NoDup_app; split; [done|]; split; [by intros x Hx ->%list_elem_of_singleton|apply NoDup_singleton]|set_solver].
      rewrite fmap_app, concat_app. cbn [fmap list_fmap concat]. rewrite Er. cbn. rewrite app_nil_r. by rewrite Hc.
    - assert (jr_shardID r ∈ suiteOrder st) as Hold by by apply Eo.
      do 2 eexists. split; [reflexivity|]. split; [by rewrite addCase_ref|]. split; [done|].
      split; [intros sid; rewrite Hne, Ho; split; [by left|intros [?| ->]; [done|congruence]]|].
      rewrite cases_snoc by done. by rewrite Hc. }
  split; cbn [bySuite suiteDur suiteOrder totalTests totalFail totalErr totalSkip totalDur].
  - intros sid. destruct (decide (sid = jr_shardID r)) as [->|Hne]; [by rewrite lookup_insert_eq|].
    rewrite lookup_insert_ne, Hs by done. rewrite rowsOf_snoc, (proj2 (String.eqb_neq _ _)) by done. by rewrite app_nil_r.
  - intros sid. destruct (decide (sid = jr_shardID r)) as [->|Hne].
    + rewrite lookup_insert_eq. cbn [default]. rewrite rowsOf_snoc, String.eqb_refl, nanosOf_snoc. unfold id. by rewrite Hd.
    + rewrite lookup_insert_ne, Hd by done. rewrite rowsOf_snoc, (proj2 (String.eqb_neq _ _)) by done. by rewrite app_nil_r.
  - done.
  - done.
  - rewrite length_app, H1. cbn. lia.
  - rewrite countWhere_snoc, H2. by rewrite String.eqb_sym.
  - by rewrite countWhere_snoc, H3.
  - rewrite countWhere_snoc, H4. by rewrite String.eqb_sym.
  - by rewrite nanosOf_snoc, H5.
  - done.
Qed.

Lemma foldl_looped l : Looped l (foldl addRow junitStart l).
Proof.
  induction l as [|r l IH] using rev_ind; [|rewrite foldl_snoc; by apply addRow_looped].
  split; try done; [constructor|]. intros sid. split; [by intros ?%elem_of_nil|done].
Qed.

(** ** The query *)

Lemma junitLess_weak : WeakOrder junitLess.
Proof.
  assert (forall a b, bytesLt a b = false -> bytesLt b a = false -> a = b) as Htot by apply bytesLt_total.
  assert (forall f : junitRow -> string, forall less, WeakOrder less -> WeakOrder (fun x y => textLess (f x) (f y) (less x y))) as Ht.
  { intros f less. apply (weakOrder_lex f (fun a b => bytesLt (bytesOf a) (bytesOf b)) String.eqb).
    - apply weakOrder_key, weakOrder_bytes.
    - apply String.eqb_eq.
    - intros a b H1 H2. apply (inj bytesOf). by apply Htot. }
  apply (weakOrder_lex jr_shardIdx Z.ltb Z.eqb); [apply weakOrder_Z|apply Z.eqb_eq|intros a b; rewrite !Z.ltb_ge; lia|].
  apply (Ht jr_path (fun x y => textLess (jr_name x) (jr_name y) (jr_attempt x <? jr_attempt y))).
  apply (Ht jr_name (fun x y => jr_attempt x <? jr_attempt y)), weakOrder_key, weakOrder_Z.
Qed.

(** The executions of the run. *)
Definition ofRun (runID : string) (db : DB) (kv : (string * string * Z) * exec_row) : bool :=
  match shards db !! kv.1.1.1 with Some s => String.eqb (s_run_id s) runID | None => false end.
Definition executionsOf (runID : string) (db : DB) : list ((string * string * Z) * exec_row) :=
  List.filter (ofRun runID db) (map_to_list (test_executions db)).

(** Every execution has its shard and its test. *)
Definition referenced (db : DB) : Prop := forall k e, test_executions db !! k = Some e ->
  is_Some (shards db !! k.1.1) /\ is_Some (tests db !! k.1.2).

Lemma junitRowOf_run runID db kv : referenced db -> kv ∈ map_to_list (test_executions db) ->
  match junitRowOf runID db kv with
  | Some r => ofRun runID db kv = true /\ jr_shardID r = kv.1.1.1
  | None => ofRun runID db kv = false
  end.
Proof.
  intros Href Hin. destruct kv as [[[sid tid] a] e]. apply elem_of_map_to_list in Hin.
  destruct (Href _ _ Hin) as [[s Hs] [t Ht]]. unfold junitRowOf, ofRun. cbn [fst snd] in *. rewrite Hs, Ht.
  by destruct (String.eqb (s_run_id s) runID).
Qed.

Lemma selectJUnit_length runID db : referenced db -> length (selectJUnit runID db) = length (executionsOf runID db).
Proof.
  intros Href. unfold selectJUnit, executionsOf. rewrite SliceStable_perm.
  assert (forall kv, kv ∈ map_to_list (test_executions db) -> kv ∈ map_to_list (test_executions db)) as H by done. revert H.
  generalize (map_to_list (test_executions db)) at 1 3 4. intros l. induction l as [|kv l IH]; intros H; [done|].
  pose proof (junitRowOf_run runID db kv Href (H kv ltac:(left))) as Hr.
  cbn [omap list_omap List.filter]. destruct (junitRowOf runID db kv); [destruct Hr as [-> _]|rewrite Hr];
    cbn [length]; rewrite IH; auto; intros kv' Hkv; apply H; by right.
Qed.

(** The shards with a suite. *)
Lemma rowsOf_executions runID db sid : referenced db ->
  rowsOf sid (selectJUnit runID db) <> [] <-> exists kv, kv ∈ executionsOf runID db /\ kv.1.1.1 = sid.
Proof.
  intros Href. split.
  - intros Hne. destruct (rowsOf sid _) as [|r rs] eqn:Er; [done|].
    assert (r ∈ rowsOf sid (selectJUnit runID db)) as Hin by (rewrite Er; left).
    apply list_elem_of_In, filter_In in Hin as [Hin He%String.eqb_eq]. apply list_elem_of_In in Hin.
    unfold selectJUnit in Hin. rewrite SliceStable_perm in Hin. apply list_elem_of_omap in Hin as (kv & Hin & Ekv).
    exists kv. pose proof (junitRowOf_run runID db kv Href Hin) as H. rewrite Ekv in H. destruct H as [H1 H2].
    split; [|congruence]. apply list_elem_of_In, filter_In. by rewrite <-list_elem_of_In.
  - intros (kv & Hin & <-) Hno. apply list_elem_of_In, filter_In in Hin as [Hin Hr]. apply list_elem_of_In in Hin.
    pose proof (junitRowOf_run runID db kv Href Hin) as H. destruct (junitRowOf runID db kv) as [r|] eqn:Er; [|congruence].
    assert (r ∈ rowsOf kv.1.1.1 (selectJUnit runID db)) as Hrin; [|rewrite Hno in Hrin; by apply elem_of_nil in Hrin].
    apply list_elem_of_In, filter_In. rewrite <-list_elem_of_In. split; [|by rewrite (proj2 H), String.eqb_refl].
    unfold selectJUnit. rewrite SliceStable_perm. apply list_elem_of_omap. by exists kv.
Qed.

Section junit.
Context (db : DB) (now : Z) (u : nat -> string) (held : gset Z) (ag : AgentState).

(** The suite of shard [sid] in the document, from the rows [rs] of the query. *)
Definition suiteOf (rows : list junitRow) (sid : string) (s : junitTestSuite) : Prop :=
  exists first rest, rowsOf sid rows = first :: rest
  /\ js_Name s = "shard-" +:+ itoa (jr_shardIdx first)
  /\ js_Cases s = caseOf <$> rowsOf sid rows
  /\ js_Tests s = Z.of_nat (length (rowsOf sid rows))
  /\ js_Failures s = countWhere (String.eqb "failed") (rowsOf sid rows)
  /\ js_Errors s = countWhere isErrorOutcome (rowsOf sid rows)
  /\ js_Skipped s = countWhere (String.eqb "skipped") (rowsOf sid rows)
  /\ js_Time s = formatSeconds (nanosOf (rowsOf sid rows)).

Lemma timedSuite_of rows st sid : Looped rows st -> sid ∈ suiteOrder st -> exists s, timedSuite st sid = Some s /\ suiteOf rows sid s.
Proof.
  intros H Hin%(lp_order _ _ H). unfold timedSuite. rewrite (lp_suite _ _ H), (lp_dur _ _ H). unfold suiteOf.
  destruct (rowsOf sid rows) as [|r rs] eqn:Er; [done|]. cbn [fmap option_fmap option_map]. eexists. split; [reflexivity|].
  exists r, rs. by split_and!.
Qed.

(** The JUnit export of a run accounts for it: in a quiet database whose
    executions have their shards and tests, the document has one case for each
    execution of the run - none lost, none doubled - and one suite for each shard
    that has any, its cases in the order of the query (by shard index, path, name
    and attempt); the counts and times of a suite are those of its cases, and the
    totals those of the run. *)
Theorem junit_accounts runID n out : referenced db -> exists doc order,
  let rows := selectJUnit runID db in
  buildJUnit runID (QW db None now u n held out ag) = (Ok doc, QW db None now u n held out ag)
  /\ StronglySorted (notAfter junitLess) rows
  /\ jd_Tests doc = Z.of_nat (length (executionsOf runID db))
  /\ jd_Failures doc = countWhere (String.eqb "failed") rows /\ jd_Errors doc = countWhere isErrorOutcome rows
  /\ jd_Skipped doc = countWhere (String.eqb "skipped") rows /\ jd_Time doc = formatSeconds (nanosOf rows)
  /\ concat (js_Cases <$> jd_Suites doc) ≡ₚ caseOf <$> rows
  /\ NoDup order /\ Forall2 (suiteOf rows) order (jd_Suites doc)
  /\ forall sid, sid ∈ order <-> exists kv, kv ∈ executionsOf runID db /\ kv.1.1.1 = sid.
Proof.
  intros Href. set (rows := selectJUnit runID db). set (st := foldl addRow junitStart rows).
  pose proof (foldl_looped rows : Looped rows st) as H. exists (junitDoc runID st), (suiteOrder st).
  assert (forall order, (forall sid, sid ∈ order -> sid ∈ suiteOrder st) -> Forall2 (suiteOf rows) order (omap (timedSuite st) order)) as Hsuites.
  { intros order. induction order as [|sid order IH]; intros Ho; [constructor|].
    destruct (timedSuite_of rows st sid H) as (s & Es & Hs); [apply Ho; by left|]. cbn [omap list_omap]. rewrite Es.
    constructor; [done|]. apply IH. intros sid' Hs'. apply Ho. by right. }
  specialize (Hsuites (suiteOrder st) (fun _ h => h)).
  cbv zeta. split_and!; cbn [junitDoc jd_Tests jd_Failures jd_Errors jd_Skipped jd_Time jd_Suites].
  - unfold buildJUnit. by erewrite bindM_ok; [|apply poolQuery_quiet].
  - apply weakOrder_sorted, junitLess_weak.
  - by rewrite (lp_tests _ _ H), <-(selectJUnit_length runID db Href).
  - apply (lp_fail _ _ H). - apply (lp_err _ _ H). - apply (lp_skip _ _ H). - by rewrite (lp_total _ _ H).
  - rewrite <-(lp_cases _ _ H). revert Hsuites. generalize (omap (timedSuite st) (suiteOrder st)). intros l Hl.
    induction Hl as [|sid s order l (f & rs & _ & _ & E & _) Hl IH]; [done|]. cbn [fmap list_fmap concat]. by rewrite E, IH.
  - apply (lp_nodup _ _ H).
  - exact Hsuites.
  - intros sid. rewrite (lp_order _ _ H). by apply rowsOf_executions.
Qed.
End junit.

Module JunitDemo.
Definition test (name : string) : test_row := mkTestRow "repo" name "a.py" name "" "" "pytest" "active" None None 0 None.
Definition exec (id outcome : string) (ms : Z) : exec_row := mkExecRow id outcome ms None 1 2 None None.
Definition db : DB := set_tests {[ "t1" := test "one"; "t2" := test "two" ]}
  (set_test_executions {[ ("s0", "t1", 1) := exec "e1" "passed" 1500; ("s0", "t2", 1) := exec "e2" "failed" 250 ]} ClaimDemo.db).
End JunitDemo.

Lemma demo_referenced : referenced JunitDemo.db.
Proof.
  intros k e. unfold JunitDemo.db. cbn [set_tests set_test_executions test_executions].
  intros [[<- _]|[_ [<- _]%lookup_singleton_Some]]%lookup_insert_Some; split; vm_compute; eauto.
Qed.

Lemma junit_accounts_witness : exists doc,
  buildJUnit "run" (QW JunitDemo.db None 9 Demo.ids 0 ∅ [] idleAgent) = (Ok doc, QW JunitDemo.db None 9 Demo.ids 0 ∅ [] idleAgent)
  /\ jd_Tests doc = 2 /\ jd_Failures doc = 1 /\ jd_Time doc = "1.750"
  /\ Forall (fun s => js_Name s = "shard-0") (jd_Suites doc).
Proof.
  destruct (junit_accounts JunitDemo.db 9 Demo.ids ∅ idleAgent "run" 0 [] demo_referenced)
    as (doc & order & E & _ & H1 & H2 & _ & _ & H3 & _ & _ & H4 & _).
  exists doc. split; [exact E|]. split; [rewrite H1; vm_compute; reflexivity|]. split; [rewrite H2; vm_compute; reflexivity|].
  split; [rewrite H3; vm_compute; reflexivity|].
  injection E as <-. vm_compute. repeat constructor.
Defined.
