(* ===== verification/AdapterProps.v ===== *)
(** * What the pytest adapter loses, and the adapter template

    Node ids written one per line are discovered as they were, except those whose
    text looks like a summary line; and of the parametrized variants of one test
    in a shard only one gets an execution, with the first outcome reported for
    any of them.  Module [Template] is the skeleton for new adapters, which reports
    every test it is given. *)

From S2P Require Import Prelude GoSort GoBytes GoFloat GoFmt GoRegexp GoStrings Model Scheduler Db Effects Shards StateMachine.
From S2P Require Import Lifecycle RunManager RunManagerProps RunSvc RunSvcProps Worker WorkerProps Pytest Witnesses Gotest.

(** ** pkg/adapter/template: the skeleton for new adapters *)

Module Template.
Definition Name : string := "your-runner".

Definition bin (Bin : string) : string := if String.eqb Bin "" then "your-runner" else Bin.

(** The output of the listing is not parsed yet. *)
Definition Discover (Bin : string) (run : string -> list string -> result text) : result (list TestEntry) :=
  match run (bin Bin) ["--list-tests"] with
  | Err e => Err (ErrWrap (Name +:+ " discover") e)
  | Ok _ => Ok []
  end.

Definition translateOutcome (s : string) : TestOutcome :=
  if existsb (String.eqb s) ["passed"; "pass"; "ok"] then OutcomePassed
  else if existsb (String.eqb s) ["failed"; "fail"] then OutcomeFailed
  else if existsb (String.eqb s) ["skipped"; "skip"; "pending"; "todo"] then OutcomeSkipped
  else OutcomeErrored.

(** One run of the process: the clock when it starts and when the k-th result is
    made, and how its error prints. *)
Record templateRun := mkTemplateRun {
  tr_Started : Z;
  tr_Now : nat -> Z;
  tr_Err : string
}.

Definition erroredTest (p : templateRun) (k : nat) (t : TestEntry) : Result :=
  mkResult t OutcomeErrored (micros (tr_Started p)) (micros (tr_Now p k))
    (Z.quot (tr_Now p k - tr_Started p) 1000000) "" "" (Name +:+ " produced no parseable output: " +:+ tr_Err p) "".

(** The output is not parsed yet, so the fallback reports every test. *)
Definition Execute (Bin : string) (environ : list string) (run : string -> list string -> list string -> templateRun)
    (tests : list TestEntry) (env : list (string * string)) : list Result * bool :=
  match tests with
  | [] => ([], false)
  | _ => let p := run (bin Bin) (te_Path <$> tests) (mergeEnv environ env) in (imap (erroredTest p) tests, false)
  end.

(** Filled in or not, a shard run by the skeleton loses no test: each gets one
    result, in order, and every outcome it can translate to is one the database
    takes. *)
Theorem Execute_reports_all Bin environ run tests env :
  (rs_Test <$> (Execute Bin environ run tests env).1 = tests)
  /\ (Execute Bin environ run tests env).2 = false
  /\ Forall (fun r => rs_Outcome r ∈ outcomes) (Execute Bin environ run tests env).1
  /\ forall s, translateOutcome s ∈ outcomes.
Proof.
  assert (forall s, translateOutcome s ∈ outcomes) as Ho.
  { intros s. unfold translateOutcome. repeat case_match; unfold outcomes; repeat (first [left|right]; fail); repeat constructor. }
  assert (OutcomeErrored ∈ outcomes) as He by exact (Ho "").
  destruct tests as [|t ts]; [by split_and!|]. unfold Execute. cbn [fst snd].
  set (p := run _ _ _). set (l := t :: ts). clearbody l. split_and!; [|done| |done].
  - apply list_eq. intros i. rewrite list_lookup_fmap, list_lookup_imap. by destruct (l !! i).
  - apply Forall_lookup. intros i r. rewrite list_lookup_imap. destruct (l !! i); [|done]. by intros [= <-].
Qed.
End Template.

(** ** Fingerprints *)

Definition colon : ascii := ":".

Lemma last_field (x x' : text) s s' : colon ∉ s -> colon ∉ s' -> x ++ (colon :: s) = x' ++ (colon :: s') -> x = x' /\ s = s'.
Proof.
  intros Hs Hs' E. pose proof (lastIndexByte_app x colon s Hs) as H. rewrite E, (lastIndexByte_app x' colon s' Hs') in H.
  injection H as H. apply app_inj_1 in E as [-> E]; [|done]. by injection E.
Qed.

(** The parameters and the signature are hexadecimal. *)
Definition plainEntry (t : TestEntry) : Prop :=
  (colon ∉ toText (te_ParamsHash t)) /\ (colon ∉ toText (te_ASTSignature t)) /\ hasPrefix (toText (te_Path t)) (toText "?") = false.

Lemma fingerprint_text t : toText (fingerprintOf t)
  = (((toText (nodeID t) ++ [colon]) ++ (colon :: toText (te_ParamsHash t))) ++ [colon]) ++ (colon :: toText (te_ASTSignature t)).
Proof. unfold fingerprintOf, nodeID. rewrite !toText_app. change (toText "::") with [colon; colon]. by rewrite <-!app_assoc. Qed.

Lemma fingerprint_nodeID t t' : colon ∉ toText (te_ParamsHash t) -> colon ∉ toText (te_ASTSignature t) ->
  colon ∉ toText (te_ParamsHash t') -> colon ∉ toText (te_ASTSignature t') ->
  fingerprintOf t = fingerprintOf t' -> nodeID t = nodeID t'.
Proof.
  intros H1 H2 H3 H4 E. apply (f_equal toText) in E. rewrite !fingerprint_text in E.
  apply last_field in E as [E _]; [|done|done]. apply app_inj_2 in E as [E _]; [|done].
  apply last_field in E as [E _]; [|done|done]. apply app_inj_2 in E as [E _]; [|done].
  by rewrite <-(ofText_toText (nodeID t)), E, ofText_toText.
Qed.

(** ** The index of the requested tests *)

Lemma indexByID_snoc ts t : indexByID (ts ++ [t]) = <[nodeID t := t]> (indexByID ts).
Proof. unfold indexByID. by rewrite foldl_app. Qed.

Lemma indexByID_elem ts id t : indexByID ts !! id = Some t -> t ∈ ts /\ nodeID t = id.
Proof.
  induction ts as [|x ts IH] using rev_ind; [done|]. rewrite indexByID_snoc. destruct (decide (nodeID x = id)) as [<-|Hne].
  - rewrite lookup_insert_eq. intros [= <-]. split; [apply elem_of_app; right; by left|done].
  - rewrite lookup_insert_ne by done. intros H. destruct (IH H). split; [apply elem_of_app; by left|done].
Qed.

(** The entry a report line is filed under. *)
Definition entryOf (ts : list TestEntry) (jt : jsonTest) : TestEntry :=
  default (mkTestEntry "?" (jt_NodeID jt) "" "" []) (indexByID ts !! stripParams (jt_NodeID jt)).

Lemma entryOf_result ts st jt : rs_Test (resultOf ts st jt) = entryOf ts jt.
Proof. done. Qed.

(** The line of a report that decides for a node id. *)
Definition firstLine (l : list jsonTest) (id : string) : option jsonTest :=
  List.find (fun jt => String.eqb (stripParams (jt_NodeID jt)) id) l.

Section filed.
Context (ts : list TestEntry) (Hts : Forall plainEntry ts).

Lemma entryOf_cases jt : (indexByID ts !! stripParams (jt_NodeID jt) = Some (entryOf ts jt) /\ entryOf ts jt ∈ ts
    /\ nodeID (entryOf ts jt) = stripParams (jt_NodeID jt))
  \/ te_Path (entryOf ts jt) = "?" /\ te_ParamsHash (entryOf ts jt) = "" /\ te_ASTSignature (entryOf ts jt) = "".
Proof.
  unfold entryOf. destruct (indexByID ts !! stripParams (jt_NodeID jt)) as [t|] eqn:E; [|by right].
  left. cbn. split; [done|]. by apply indexByID_elem.
Qed.

Lemma filed_under t jt : t ∈ ts -> fingerprintOf (entryOf ts jt) = fingerprintOf t ->
  stripParams (jt_NodeID jt) = nodeID t /\ exists t', indexByID ts !! nodeID t = Some t' /\ fingerprintOf t' = fingerprintOf t.
Proof.
  intros Hin E. rewrite Forall_forall in Hts. destruct (Hts t Hin) as (P1 & P2 & P3).
  destruct (entryOf_cases jt) as [(H1 & H2 & H3)|(H1 & H2 & H3)].
  - destruct (Hts _ H2) as (Q1 & Q2 & _). pose proof (fingerprint_nodeID _ _ Q1 Q2 P1 P2 E) as En.
    rewrite <-En, H3. split; [done|]. by exists (entryOf ts jt).
  - exfalso. apply (f_equal toText) in E. unfold fingerprintOf in E. rewrite !toText_app, H1 in E.
    change (toText "::") with [colon; colon] in E. change (toText "?") with ["?"%char] in E.
    revert P3 E. destruct (toText (te_Path t)) as [|c p]; intros P3 E; cbn [app] in E; [by unfold colon in E|]. injection E as E _. subst c. by destruct p.
Qed.

Lemma firstWith_report st l t : indexByID ts !! nodeID t = Some t ->
  firstWith (fingerprintOf t) (resultOf ts st <$> l) = resultOf ts st <$> firstLine l (nodeID t).
Proof.
  intros Ht. destruct (indexByID_elem _ _ _ Ht) as [Hin _]. unfold firstWith, firstLine.
  induction l as [|jt l IH]; [done|]. cbn [fmap list_fmap List.find]. rewrite entryOf_result.
  destruct (String.eqb_spec (stripParams (jt_NodeID jt)) (nodeID t)) as [E|E].
  - unfold entryOf. rewrite E, Ht. cbn [default from_option]. by rewrite String.eqb_refl.
  - destruct (String.eqb_spec (fingerprintOf (entryOf ts jt)) (fingerprintOf t)) as [E'|_]; [|exact IH].
    by apply filed_under in E' as [? _].
Qed.

Lemma firstWith_shadowed st l t r : t ∈ ts -> firstWith (fingerprintOf t) (resultOf ts st <$> l) = Some r ->
  exists t', indexByID ts !! nodeID t = Some t' /\ fingerprintOf t' = fingerprintOf t.
Proof.
  intros Hin H. apply find_some in H as [Hr He%String.eqb_eq]. apply list_elem_of_In, list_elem_of_fmap in Hr as (jt & -> & _).
  by apply (filed_under t jt) in He as [_ ?].
Qed.
End filed.

Lemma translateOutcome_known s : translateOutcome s ∈ outcomes.
Proof.
  unfold translateOutcome. destruct (String.eqb s "passed"); [known|]. destruct (String.eqb s "failed"); [known|].
  destruct (String.eqb s "skipped"); known.
Qed.

(** ** A shard of parametrized tests *)

Section shard.
Context (now : Z) (u : nat -> string) (Hu : Inj (=) (=) u) (held : gset Z) (a : Agent) (runID shardID repoID cur : string).
Context (path : string) (environ : list string) (run : list string -> list string -> pytestRun).
Context (Ha : forall ts, ag_Execute a ts = Execute path environ run ts []).

Lemma reported_pytest ts l : ts <> [] -> py_TempDir (run (pytestArgs path ts) environ) = true ->
  py_Report (run (pytestArgs path ts) environ) = Report l ->
  reported a ts = (resultOf ts (py_Started (run (pytestArgs path ts) environ)) <$> l) /\ shardStatus a ts = "succeeded".
Proof.
  intros Hne Ht Hr. unfold reported, shardStatus. destruct ts as [|t ts]; [done|]. rewrite Ha. unfold Execute, mergeEnv.
  by rewrite Ht, Hr.
Qed.

(** When pytest leaves a report for a shard, the shard ends succeeded; a test
    is recorded with the outcome of the first report line whose node id, cut at
    its parameters, is the test's path and name - and only the last of the
    requested tests with that path and name is recorded: every other
    parametrized variant in the shard has no execution, and its outcome is lost
    or stands under the last variant. *)
Theorem pytest_records_one_variant ts l db n out : ts <> [] -> Forall plainEntry ts ->
  py_TempDir (run (pytestArgs path ts) environ) = true -> py_Report (run (pytestArgs path ts) environ) = Report l ->
  Forall (fun jt => int4 (f64_trunc (f64_mul (jt_Duration jt) (f64_ofZ 1000))) = true) l ->
  Untouched u runID shardID repoID db n ->
  exists db' n' out', executeShard a runID shardID ts (QW db None now u n held out (calm cur))
      = (Ok tt, QW db' None now u n' held out' (calm cur))
  /\ (s_status <$> shards db' !! shardID) = Some "succeeded"
  /\ (forall t jt, indexByID ts !! nodeID t = Some t -> firstLine l (nodeID t) = Some jt ->
        exists id e, testOf repoID db' (fingerprintOf t) id /\ test_executions db' !! (shardID, id, 1) = Some e
          /\ ex_outcome e = translateOutcome (jt_Outcome jt))
  /\ (forall t t', t ∈ ts -> indexByID ts !! nodeID t = Some t' -> fingerprintOf t' <> fingerprintOf t ->
        forall id k, testOf repoID db' (fingerprintOf t) id -> test_executions db' !! (shardID, id, k) = None).
Proof.
  intros Hne Hp Ht Hr Hms Hut. destruct (reported_pytest ts l Hne Ht Hr) as [Erep Est].
  set (st := py_Started (run (pytestArgs path ts) environ)) in *.
  destruct (executeShard_quiet cur now u Hu held a runID shardID repoID db n out ts) as (db' & n' & out' & E & Hx); [|done|].
  { rewrite Erep. apply Forall_fmap. eapply Forall_impl; [exact Hms|]. intros jt Hjt. split; [apply translateOutcome_known|exact Hjt]. }
  rewrite Erep, Est in Hx. exists db', n', out'. split; [exact E|]. destruct Hx as [(s & s' & _ & Hs & H1 & _) H2 H3 Hun _ _]. split_and!.
  - rewrite Hs, lookup_insert_eq. cbn. by rewrite H1.
  - intros t jt Hi Hf. destruct (H2 (fingerprintOf t) (resultOf ts st jt)) as (id & e & A & B & C & _).
    { rewrite (firstWith_report ts Hp) by done. by rewrite Hf. }
    exists id, e. by split_and!.
  - intros t t' Hin Hi Hd id k Hid. destruct (test_executions db' !! (shardID, id, k)) as [e|] eqn:Ee; [|done]. exfalso.
    destruct (H3 _ _ _ Ee) as (-> & fp & Hfp & [r Hw]). destruct Hfp as (t1 & A1 & _ & A2), Hid as (t2 & B1 & _ & B2).
    assert (fp = fingerprintOf t) as -> by congruence.
    destruct (firstWith_shadowed ts Hp _ _ _ _ Hin Hw) as (t3 & C1 & C2). congruence.
Qed.
End shard.

(** ** Discovery *)

(** A collected test: its file, its name in the file and its parameters. *)
Record node := mkNode {
  nd_path : text;
  nd_name : text;
  nd_params : text
}.

Definition renderNode (d : node) : text :=
  nd_path d ++ colons ++ nd_name d ++ match nd_params d with [] => [] | p => "["%char :: p ++ ["]"%char] end.

(** What discovery makes of a line that looks like a summary. *)
Definition summaryLike (line : text) : bool := contains line (toText "test") && contains line (toText "collected").

Definition entryOfNode (d : node) : TestEntry :=
  mkTestEntry (ofText (nd_path d)) (ofText (nd_name d)) (hashParams (nd_params d)) "" [].

(** A node id pytest can print on a line of its own. *)
Record printable (d : node) : Prop := {
  pn_path : colon ∉ nd_path d;
  pn_name : nd_name d <> [] /\ ("["%char ∉ nd_name d);
  pn_trim : trimSpace (renderNode d) = renderNode d;
  pn_line : (lineFeed ∉ renderNode d) /\ (carriageReturn ∉ renderNode d);
  pn_head : hasPrefix (renderNode d) (toText "=") = false /\ hasPrefix (renderNode d) (toText "no tests ran") = false;
  pn_size : (length (renderNode d) < maxScanTokenSize)%nat
}.

Lemma index_colons p t : colon ∉ p -> index (p ++ colons ++ t) colons = Some (length p).
Proof.
  induction p as [|c p IH]; rewrite index_eq; cbn [app]; [by destruct t|]. rewrite not_elem_of_cons. intros [Hc Hp].
  assert (hasPrefix (c :: p ++ colons ++ t) colons = false) as ->.
  { change colons with [colon; colon]. cbn [hasPrefix]. by rewrite (proj2 (Ascii.eqb_neq colon c)). }
  by rewrite IH.
Qed.

Lemma index_absent c t : c ∉ t -> index t [c] = None.
Proof.
  induction t as [|d t IH]; rewrite index_eq; cbn [hasPrefix]; [done|]. rewrite not_elem_of_cons. intros [Hc Ht].
  rewrite (proj2 (Ascii.eqb_neq c d)) by done. cbn [andb]. by rewrite IH.
Qed.

Lemma splitParams_node d : nd_name d <> [] -> "["%char ∉ nd_name d ->
  splitParams (nd_name d ++ match nd_params d with [] => [] | p => "["%char :: p ++ ["]"%char] end) = Some (nd_name d, nd_params d).
Proof.
  destruct d as [path name params]. cbn. intros Hne Hb. unfold splitParams, bracketAt. destruct params as [|c params].
  { by rewrite app_nil_r, index_absent. }
  rewrite index_char by done. destruct name as [|x name]; [done|]. cbn [length].
  rewrite length_app. cbn [length]. rewrite length_app. cbn [length].
  rewrite (proj2 (Nat.leb_le _ _)) by lia. do 2 f_equal.
  - by rewrite (take_app_length (x :: name)).
  - change (drop (S (S (length name))) ((x :: name) ++ "["%char :: c :: params ++ ["]"%char]))
      with (drop (S (length (x :: name))) ((x :: name) ++ ["["%char] ++ (c :: params) ++ ["]"%char])).
    rewrite app_assoc. replace (S (length (x :: name))) with (length ((x :: name) ++ ["["%char])) by (rewrite length_app; cbn; lia).
    rewrite drop_app_length. replace (S (length name) + S (S (length params + 1)) - 1 - S (S (length name)))%nat with (length (c :: params))
      by (cbn [length]; lia). by rewrite take_app_length.
Qed.

Lemma collectLine_node d : printable d -> collectLine (renderNode d) =
  Some (if summaryLike (renderNode d) then None else Some (entryOfNode d)).
Proof.
  intros [H1 [H2 H2'] H3 H4 [H5 H5'] H6]. unfold collectLine. rewrite H3, H5, H5'. rewrite bool_decide_false.
  2: { unfold renderNode. by destruct (nd_path d). }
  cbn [orb]. fold (summaryLike (renderNode d)). destruct (summaryLike _); [done|].
  unfold renderNode. rewrite index_colons by done.
  replace (length (nd_path d) + 2)%nat with (length (nd_path d ++ colons)) by (rewrite length_app; done).
  rewrite (app_assoc _ colons), drop_app_length, splitParams_node by done.
  by rewrite <-app_assoc, take_app_length.
Qed.

Lemma parseCollect_render ds : Forall printable ds ->
  parseCollect (concat ((fun l => l ++ [lineFeed]) <$> (renderNode <$> ds)))
  = Some (omap (fun d => if summaryLike (renderNode d) then None else Some (entryOfNode d)) ds).
Proof.
  intros Hd. unfold parseCollect. rewrite rawLines_lines, scanLines_short.
  - cbn [fst]. induction Hd as [|d ds H Hd IH]; [done|]. cbn [fmap list_fmap collectLines omap list_omap].
    rewrite collectLine_node, IH by done. by destruct (summaryLike _).
  - apply Forall_fmap. eapply Forall_impl; [exact Hd|]. intros d []. by split; [|apply pn_line0].
  - apply Forall_fmap. eapply Forall_impl; [exact Hd|]. intros d []. apply pn_line0.
Qed.

Lemma hashParams_inj p q : hashParams p = hashParams q -> p = q.
Proof.
  assert (forall p, p <> [] -> hashParams p = hexString (bytesOf (ofText p))) as Hh by (by intros []).
  assert (forall p, p <> [] -> hexString (bytesOf (ofText p)) <> "") as Hne.
  { intros [|c x] H E; [done|]. change "" with (hexString []) in E.
    by apply hexString_inj in E; [|apply bytesOf_isByte|constructor]. }
  destruct p as [|c p], q as [|d q]; [done| | |]; rewrite ?Hh by done; intros E.
  - symmetry in E. by apply Hne in E.
  - by apply Hne in E.
  - apply hexString_inj in E; [|apply bytesOf_isByte|apply bytesOf_isByte].
    rewrite <-(stringOf_bytesOf (ofText (c :: p))) in E at 1. apply (f_equal stringOf) in E. rewrite !stringOf_bytesOf in E.
    by rewrite <-(toText_ofText (c :: p)), E, toText_ofText.
Qed.

Lemma bytesOf_toText s : bytesOf s = byteOf <$> toText s.
Proof. induction s as [|c s IH]; [done|]. cbn. by f_equal. Qed.

Lemma hash_colon p : colon ∉ toText (hashParams p).
Proof.
  destruct p as [|c p]; [apply not_elem_of_nil|]. intros Hin.
  pose proof (hexString_digits _ (bytesOf_isByte (ofText (c :: p)))) as H. rewrite Forall_forall in H.
  specialize (H (byteOf colon)). change (hexString (bytesOf (ofText (c :: p)))) with (hashParams (c :: p)) in H.
  rewrite bytesOf_toText in H. specialize (H (list_elem_of_fmap_2 _ _ _ Hin)). change (byteOf colon) with 58 in H. lia.
Qed.

(** Discovery reads back the node ids pytest prints, one per line: every
    test's file, name and parameters, the parameters hashed without collision -
    except that a test whose node id has both "test" and "collected" in it is
    passed over as if it were a summary line, and is never planned. *)
Theorem discovery_reads_back ds : Forall printable ds ->
  parseCollect (concat ((fun l => l ++ [lineFeed]) <$> (renderNode <$> ds)))
    = Some (entryOfNode <$> List.filter (fun d => negb (summaryLike (renderNode d))) ds)
  /\ (forall d d', d ∈ ds -> d' ∈ ds -> fingerprintOf (entryOfNode d) = fingerprintOf (entryOfNode d') -> d = d').
Proof.
  intros Hd. split.
  - rewrite parseCollect_render by done. f_equal. clear. induction ds as [|d ds IH]; [done|].
    cbn [omap list_omap List.filter]. destruct (summaryLike _); cbn [negb fmap list_fmap]; [done|by f_equal].
  - intros d d' Hin Hin' E. rewrite Forall_forall in Hd. destruct (Hd d Hin) as [P1 [_ P2] _ _ _ _], (Hd d' Hin') as [Q1 [_ Q2] _ _ _ _].
    assert (forall x, colon ∉ toText (te_ParamsHash (entryOfNode x))) as Hc by (intros x; apply hash_colon).
    apply (f_equal toText) in E. rewrite !fingerprint_text in E. apply last_field in E as [E _]; [|apply not_elem_of_nil|apply not_elem_of_nil].
    apply app_inj_2 in E as [E _]; [|done]. apply last_field in E as [E Ep]; [|apply Hc|apply Hc].
    apply app_inj_2 in E as [E _]; [|done]. unfold nodeID in E. rewrite !toText_app in E. cbn [entryOfNode te_Path te_Name] in E.
    rewrite !toText_ofText in E. change (toText "::") with colons in E.
    pose proof (index_colons (nd_path d) (nd_name d) P1) as I. rewrite E, index_colons in I by done. injection I as I.
    apply app_inj_1 in E as [E1 E]; [|done]. injection E as E2.
    change (toText (hashParams (nd_params d)) = toText (hashParams (nd_params d'))) in Ep.
    assert (nd_params d = nd_params d') as E3.
    { apply hashParams_inj. by rewrite <-(ofText_toText (hashParams (nd_params d))), Ep, ofText_toText. }
    destruct d, d'. cbn in *. congruence.
Qed.

(** *** Two variants in one shard *)

Module PytestDemo.
Definition variant (p : string) : TestEntry := mkTestEntry "t.py" "test_a" (hashParams (toText p)) "" [].
Definition tests : list TestEntry := [variant "1"; variant "2"].
Definition line (p o : string) : jsonTest := mkJsonTest ("t.py::test_a[" +:+ p +:+ "]") o (f64_ofZ 0) "" "".
Definition report : list jsonTest := [line "1" "passed"; line "2" "failed"].
Definition run (args environ : list string) : pytestRun := mkPytestRun true (Report report) "" 0 (fun _ => 0).
Definition agent : Agent := mkAgent "w" "pytest" (fun ts => Execute "r.json" [] run ts []) (fun _ _ => true).
Definition nodes : list node := [mkNode (toText "t.py") (toText "test_a") (toText "1"); mkNode (toText "t.py") (toText "test_collected") []].
End PytestDemo.

(** The second variant failed; what is recorded for it is that it passed. *)
Lemma pytest_records_one_variant_witness : exists db' n' out',
  executeShard PytestDemo.agent "run" "s0" PytestDemo.tests (QW ClaimDemo.db None 50 Demo.ids 0 ∅ [] (calm ""))
    = (Ok tt, QW db' None 50 Demo.ids n' ∅ out' (calm ""))
  /\ (exists id e, testOf "repo" db' (fingerprintOf (PytestDemo.variant "2")) id
       /\ test_executions db' !! ("s0", id, 1) = Some e /\ ex_outcome e = "passed")
  /\ forall id k, testOf "repo" db' (fingerprintOf (PytestDemo.variant "1")) id -> test_executions db' !! ("s0", id, k) = None.
Proof.
  destruct (pytest_records_one_variant 50 Demo.ids Demo.ids_inj ∅ PytestDemo.agent "run" "s0" "repo" "" "r.json" []
    PytestDemo.run (fun ts => eq_refl) PytestDemo.tests PytestDemo.report ClaimDemo.db 0 [])
    as (db' & n' & out' & E & _ & H1 & H2).
  - discriminate.
  - repeat constructor; apply (bool_decide_unpack _); vm_compute; exact I.
  - reflexivity.
  - reflexivity.
  - repeat constructor.
  - exact ClaimDemo.untouched.
  - exists db', n', out'. split; [exact E|]. split.
    + apply (H1 (PytestDemo.variant "2") (PytestDemo.line "1" "passed")); vm_compute; reflexivity.
    + intros id k Hid. apply (H2 (PytestDemo.variant "1") (PytestDemo.variant "2")); [by left|vm_compute; reflexivity|vm_compute; discriminate|exact Hid].
Defined.

Lemma discovery_reads_back_witness :
  parseCollect (toText ("t.py::test_a[1]" +:+ nl +:+ "t.py::test_collected" +:+ nl))
  = Some [PytestDemo.variant "1"].
Proof.
  destruct (discovery_reads_back PytestDemo.nodes) as [H _]; [|exact H].
  assert (forall d, d ∈ PytestDemo.nodes -> printable d) as Hp; [|by apply Forall_forall].
  intros d Hd. unfold PytestDemo.nodes in Hd.
  assert ((length (renderNode d) < 100)%nat) as Hlen.
  { repeat (apply elem_of_cons in Hd as [->|Hd]; [apply (bool_decide_unpack _); vm_compute; exact I|]). by apply elem_of_nil in Hd. }
  split; [| | | | |unfold maxScanTokenSize; lia];
    repeat (apply elem_of_cons in Hd as [->|Hd]; [apply (bool_decide_unpack _); vm_compute; exact I|]); by apply elem_of_nil in Hd.
Defined.

(** * What a shard of Go tests ends as

    A test is recorded with its first terminal event; a test without one - its
    package did not compile, the process was killed - is not recorded, and the
    shard succeeds all the same. *)


(** ** Terminal events *)

(** The test and the outcome of a terminal event line. *)
Definition terminalOf (unmarshal : text -> option goEvent) (line : text) : option (string * TestOutcome) :=
  match unmarshal line with
  | None => None
  | Some ev => if String.eqb (ge_Test ev) "" then None else (fun o => (ge_Test ev, o)) <$> terminalOutcome (ge_Action ev)
  end.

(** Those of a stream, under the key of the test. *)
Definition terminals (unmarshal : text -> option goEvent) (pkg : string) (stream : text) : list (string * TestOutcome) :=
  (fun to => (pkg +:+ "::" +:+ to.1, to.2)) <$> omap (terminalOf unmarshal) (scanLines maxEventLine (rawLines stream)).1.

Definition firstTerminal (l : list (string * TestOutcome)) (key : string) : option TestOutcome :=
  (fun ko => ko.2) <$> List.find (fun ko : string * TestOutcome => String.eqb ko.1 key) l.

(** The result [r] reports the terminal event [ko]. *)
Definition reports (index : gmap string TestEntry) (r : Result) (ko : string * TestOutcome) : Prop :=
  nodeID (rs_Test r) = ko.1 /\ rs_Outcome r = ko.2
  /\ (index !! ko.1 = Some (rs_Test r)
      \/ index !! ko.1 = None /\ te_ParamsHash (rs_Test r) = "" /\ te_ASTSignature (rs_Test r) = "").

Section streams.
Context (unmarshal : text -> option goEvent) (ts : list TestEntry) (startWall : Z).

Lemma goResult_reports pkg start test o elapsed :
  reports (indexByID ts) (goResult pkg (indexByID ts) start (pkg +:+ "::" +:+ test) test o elapsed) (pkg +:+ "::" +:+ test, o).
Proof.
  unfold reports, goResult. cbn [rs_Test rs_Outcome fst snd]. destruct (indexByID ts !! _) as [t|] eqn:E; cbn [default from_option].
  - destruct (indexByID_elem _ _ _ E) as [_ Hn]. split_and!; [done|done|by left].
  - split_and!; [done|done|by right].
Qed.

Lemma processLine_reports pkg now l started :
  Forall2 (reports (indexByID ts)) (processLine unmarshal pkg (indexByID ts) startWall now l started).2
    ((fun to => (pkg +:+ "::" +:+ to.1, to.2)) <$> option_list (terminalOf unmarshal l)).
Proof.
  unfold processLine, terminalOf. destruct (unmarshal l) as [ev|]; [|constructor].
  destruct (String.eqb (ge_Test ev) ""); [constructor|]. cbv zeta.
  destruct (String.eqb_spec (ge_Action ev) "run") as [->|Er]; [constructor|].
  destruct (terminalOutcome (ge_Action ev)) as [o|]; [|constructor]. constructor; [apply goResult_reports|constructor].
Qed.

Lemma processLines_reports pkg ls now started :
  Forall2 (reports (indexByID ts)) (processLines unmarshal pkg (indexByID ts) startWall now ls started)
    ((fun to => (pkg +:+ "::" +:+ to.1, to.2)) <$> omap (terminalOf unmarshal) ls).
Proof.
  revert now started. induction ls as [|l ls IH]; intros now started; cbn [processLines]; [constructor|].
  pose proof (processLine_reports pkg (now 0%nat) l started) as H. destruct (processLine _ _ _ _ _ l started) as [st rs].
  replace (omap (terminalOf unmarshal) (l :: ls)) with (option_list (terminalOf unmarshal l) ++ omap (terminalOf unmarshal) ls)
    by (cbn [omap list_omap]; by destruct (terminalOf unmarshal l)).
  rewrite fmap_app. by apply Forall2_app.
Qed.

Context (order : list string -> list string) (run : list string -> list string -> goProcess) (environ : list string).

(** The terminal events of the processes for [pkgs], one after the other. *)
Definition allTerminals (pkgs : list string) : list (string * TestOutcome) :=
  concat ((fun pkg => terminals unmarshal pkg (gp_Stream (run (goArgs pkg ts) environ))) <$> pkgs).

Lemma runPackages_reports pkgs : Forall (fun pkg => gp_Starts (run (goArgs pkg ts) environ) = true) pkgs ->
  (runPackages unmarshal startWall run environ (indexByID ts) ts [] pkgs).2 = false
  /\ Forall2 (reports (indexByID ts)) (runPackages unmarshal startWall run environ (indexByID ts) ts [] pkgs).1 (allTerminals pkgs).
Proof.
  induction 1 as [|pkg pkgs Hp Hps [IH1 IH2]]; [split; [done|constructor]|]. cbn [runPackages mergeEnv]. rewrite Hp. cbn [negb].
  destruct (runPackages _ _ _ _ _ _ _ pkgs) as [rs err]. split; [done|]. unfold allTerminals. cbn [fmap list_fmap concat fst].
  apply Forall2_app; [|exact IH2]. apply processLines_reports.
Qed.

Lemma firstWith_terminal (Hts : Forall plainEntry ts) rs l t o : Forall2 (reports (indexByID ts)) rs l ->
  indexByID ts !! nodeID t = Some t -> firstTerminal l (nodeID t) = Some o ->
  exists r, firstWith (fingerprintOf t) rs = Some r /\ rs_Outcome r = o.
Proof.
  intros H Ht. destruct (indexByID_elem _ _ _ Ht) as [Hin _]. rewrite Forall_forall in Hts. destruct (Hts t Hin) as (P1 & P2 & _).
  unfold firstTerminal, firstWith. induction H as [|r ko rs l (H1 & H2 & H3) _ IH]; [done|]. cbn [List.find].
  destruct (String.eqb_spec ko.1 (nodeID t)) as [E|E].
  - intros [= <-]. rewrite E, Ht in H3. destruct H3 as [[= H3]|[? _]]; [|done]. rewrite <-H3, String.eqb_refl. eauto.
  - intros Ho. destruct (String.eqb_spec (fingerprintOf (rs_Test r)) (fingerprintOf t)) as [Ef|_]; [|by apply IH].
    exfalso. apply E. rewrite <-H1. destruct H3 as [Hi|(_ & Q1 & Q2)].
    + destruct (indexByID_elem _ _ _ Hi) as [Hin' _]. destruct (Hts _ Hin') as (Q1 & Q2 & _). by apply fingerprint_nodeID.
    + apply fingerprint_nodeID; rewrite ?Q1, ?Q2; try done; apply not_elem_of_nil.
Qed.

Lemma firstWith_silent (Hts : Forall plainEntry ts) rs l t r : Forall2 (reports (indexByID ts)) rs l -> t ∈ ts ->
  firstWith (fingerprintOf t) rs = Some r -> is_Some (firstTerminal l (nodeID t)).
Proof.
  intros H Hin. rewrite Forall_forall in Hts. destruct (Hts t Hin) as (P1 & P2 & _).
  unfold firstTerminal, firstWith. induction H as [|r' ko rs l (H1 & H2 & H3) _ IH]; [done|]. cbn [List.find].
  destruct (String.eqb_spec ko.1 (nodeID t)) as [E|E]; [by eexists|].
  destruct (String.eqb_spec (fingerprintOf (rs_Test r')) (fingerprintOf t)) as [Ef|_]; [|by apply IH].
  intros _. exfalso. apply E. rewrite <-H1. destruct H3 as [Hi|(_ & Q1 & Q2)].
  - destruct (indexByID_elem _ _ _ Hi) as [Hin' _]. destruct (Hts _ Hin') as (Q1 & Q2 & _). by apply fingerprint_nodeID.
  - apply fingerprint_nodeID; rewrite ?Q1, ?Q2; try done; apply not_elem_of_nil.
Qed.

Lemma reports_known rs l : Forall2 (reports (indexByID ts)) rs l -> Forall (fun ko => ko.2 ∈ outcomes) l ->
  Forall (fun r => rs_Outcome r ∈ outcomes) rs.
Proof.
  induction 1 as [|r ko rs l (_ & H & _) _ IH]; intros Hl; [constructor|]. apply Forall_cons in Hl as [H1 H2].
  constructor; [by rewrite H|by apply IH].
Qed.

Lemma allTerminals_known pkgs : Forall (fun ko => ko.2 ∈ outcomes) (allTerminals pkgs).
Proof.
  unfold allTerminals. induction pkgs as [|pkg pkgs IH]; [constructor|]. cbn [fmap list_fmap concat]. apply Forall_app. split; [|exact IH].
  unfold terminals. apply Forall_fmap, Forall_forall. intros [t o] Hin. cbn. apply list_elem_of_omap in Hin as (l & _ & Hl).
  unfold terminalOf in Hl. destruct (unmarshal l) as [ev|]; [|done]. destruct (String.eqb _ ""); [done|].
  unfold terminalOutcome in Hl. destruct (String.eqb _ "pass"); [injection Hl as _ <-; known|].
  destruct (String.eqb _ "fail"); [injection Hl as _ <-; known|]. destruct (String.eqb _ "skip"); [injection Hl as _ <-; known|done].
Qed.
End streams.

(** ** The shard *)

Section shard.
Context (now : Z) (u : nat -> string) (Hu : Inj (=) (=) u) (held : gset Z) (a : Agent) (runID shardID repoID cur : string).
Context (unmarshal : text -> option goEvent) (order : list string -> list string) (startWall : Z)
  (run : list string -> list string -> goProcess) (environ : list string).
Context (Ha : forall ts, ag_Execute a ts = ExecuteGo unmarshal order startWall run environ ts []).

(** When every process of a shard of Go tests starts, the shard ends
    succeeded: a test with a terminal event is recorded with the outcome of the
    first one, in the order the packages ran; a test with none has no execution
    at all - as when its package does not compile or the process is killed at
    the timeout - and nothing marks the shard failed. *)
Theorem gotest_shard_outcomes ts db n out : ts <> [] -> Forall plainEntry ts ->
  Forall (fun pkg => gp_Starts (run (goArgs pkg ts) environ) = true) (order (distinctPaths ts)) ->
  Forall (fun r => int4 (rs_DurationMS r) = true) (reported a ts) -> Untouched u runID shardID repoID db n ->
  let events := allTerminals unmarshal ts run environ (order (distinctPaths ts)) in
  exists db' n' out', executeShard a runID shardID ts (QW db None now u n held out (calm cur))
      = (Ok tt, QW db' None now u n' held out' (calm cur))
  /\ (s_status <$> shards db' !! shardID) = Some "succeeded"
  /\ (forall t o, indexByID ts !! nodeID t = Some t -> firstTerminal events (nodeID t) = Some o ->
        exists id e, testOf repoID db' (fingerprintOf t) id /\ test_executions db' !! (shardID, id, 1) = Some e /\ ex_outcome e = o)
  /\ (forall t id k, t ∈ ts -> firstTerminal events (nodeID t) = None ->
        testOf repoID db' (fingerprintOf t) id -> test_executions db' !! (shardID, id, k) = None).
Proof.
  intros Hne Hp Hs Hms Hut events.
  destruct (runPackages_reports unmarshal ts startWall run environ _ Hs) as [Herr Hrep]. fold events in Hrep.
  assert (reported a ts = (runPackages unmarshal startWall run environ (indexByID ts) ts [] (order (distinctPaths ts))).1
    /\ shardStatus a ts = "succeeded") as [Er Est].
  { unfold reported, shardStatus. destruct ts as [|t ts]; [done|]. rewrite Ha. unfold ExecuteGo. by rewrite Herr. }
  rewrite <-Er in Hrep.
  destruct (executeShard_quiet cur now u Hu held a runID shardID repoID db n out ts) as (db' & n' & out' & E & Hx); [|done|].
  { apply Forall_and. split; [|exact Hms]. eapply reports_known; [exact Hrep|apply allTerminals_known]. }
  rewrite Est in Hx. exists db', n', out'. split; [exact E|]. destruct Hx as [(s & s' & _ & Hs' & H1 & _) H2 H3 Hun _ _]. split_and!.
  - rewrite Hs', lookup_insert_eq. cbn. by rewrite H1.
  - intros t o Ht Ho. destruct (firstWith_terminal ts Hp _ _ t o Hrep Ht Ho) as (r & Hr & <-).
    destruct (H2 _ _ Hr) as (id & e & A & B & C & _). exists id, e. by split_and!.
  - intros t id k Hin Hno Hid. destruct (test_executions db' !! (shardID, id, k)) as [e|] eqn:Ee; [|done]. exfalso.
    destruct (H3 _ _ _ Ee) as (-> & fp & Hfp & [r Hw]). destruct Hfp as (t1 & A1 & _ & A2), Hid as (t2 & B1 & _ & B2).
    assert (fp = fingerprintOf t) as -> by congruence.
    destruct (firstWith_silent ts Hp _ _ _ _ Hrep Hin Hw) as [o Ho]. congruence.
Qed.
End shard.

(** *** A package that does not compile *)

Module GotestDemo.
Definition tests : list TestEntry := [mkTestEntry "m/a" "TestA" "" "" []; mkTestEntry "m/b" "TestB" "" "" []].
(** The decoded lines of the two packages: the second only prints a build failure. *)
Definition decode (l : text) : option goEvent :=
  if bool_decide (l = toText "fail A") then Some (mkGoEvent "fail" "m/a" "TestA" "" (f64_ofZ 1))
  else if bool_decide (l = toText "fail") then Some (mkGoEvent "fail" "m/b" "" "" (f64_ofZ 0)) else None.
Definition run (args environ : list string) : goProcess :=
  if bool_decide (last args = Some "m/a") then mkGoProcess true (toText ("fail A" +:+ nl)) (fun _ => 0)
  else mkGoProcess true (toText ("fail" +:+ nl)) (fun _ => 0).
Definition agent : Agent := mkAgent "w" "go" (fun ts => ExecuteGo decode id 0 run [] ts []) (fun _ _ => true).
End GotestDemo.

Lemma gotest_shard_outcomes_witness : exists db' n' out',
  executeShard GotestDemo.agent "run" "s0" GotestDemo.tests (QW ClaimDemo.db None 50 Demo.ids 0 ∅ [] (calm ""))
    = (Ok tt, QW db' None 50 Demo.ids n' ∅ out' (calm ""))
  /\ (s_status <$> shards db' !! "s0") = Some "succeeded"
  /\ (exists id e, testOf "repo" db' "m/a::TestA::::" id /\ test_executions db' !! ("s0", id, 1) = Some e /\ ex_outcome e = "failed")
  /\ forall id k, testOf "repo" db' "m/b::TestB::::" id -> test_executions db' !! ("s0", id, k) = None.
Proof.
  destruct (gotest_shard_outcomes 50 Demo.ids Demo.ids_inj ∅ GotestDemo.agent "run" "s0" "repo" "" GotestDemo.decode id 0
    GotestDemo.run [] (fun ts => eq_refl) GotestDemo.tests ClaimDemo.db 0 [])
    as (db' & n' & out' & E & H0 & H1 & H2).
  - discriminate.
  - repeat constructor; apply (bool_decide_unpack _); vm_compute; exact I.
  - repeat constructor.
  - apply (bool_decide_unpack _). vm_compute. exact I.
  - exact ClaimDemo.untouched.
  - exists db', n', out'. split; [exact E|]. split; [exact H0|]. split.
    + apply (H1 (mkTestEntry "m/a" "TestA" "" "" []) "failed"); vm_compute; reflexivity.
    + intros id k Hid. apply (H2 (mkTestEntry "m/b" "TestB" "" "" []) id k); [right; left|vm_compute; reflexivity|exact Hid].
Defined.
