(* ===== verification/FlakeExact.v ===== *)
(** * What the classifier computes

    Over the real numbers the interval of [WilsonInterval] is the score interval:
    the proportions the observation does not reject at z = 1.96.  The verdict of
    the classifier is therefore an integer inequality, and the float64 verdict
    is checked against it. *)

From Stdlib Require Import Reals Lra SpecFloat.
From S2P Require Import Prelude GoFloat Flake.

#[local] Open Scope R_scope.

#[export] Instance real_ops : FloatOps R := {
  fofZ := IZR; fconst := fun n d => IZR n / IZR d; fadd := Rplus; fsub := Rminus; fmul := Rmult;
  fdiv := Rdiv; fsqrt := sqrt; fmax := Rmax; fmin := Rmin;
  fltb := fun x y => if Rlt_dec x y then true else false
}.

Definition z2 : R := 38416 / 10000.

Lemma z2_pos : 0 < z2.
Proof. unfold z2. lra. Qed.

(** ** The interval *)

Section interval.
Context (f n : Z) (Hn : (0 < n)%Z) (Hf : (0 <= f <= n)%Z).

Let N := IZR n.
Let x := IZR f / N.
Let D := 1 + z2 / N.
Let C := (x + z2 / (2 * N)) / D.
Let M := 196 / 100 * sqrt (x * (1 - x) / N + z2 / (4 * N * N)) / D.

Lemma N_pos : 0 < N.
Proof. unfold N. by apply IZR_lt. Qed.
Lemma x_range : 0 <= x <= 1.
Proof.
  pose proof N_pos as HN. destruct Hf as [H1 H2]. apply IZR_le in H1, H2. fold N in H2. unfold x. split.
  - apply Rmult_le_pos; [done|]. left. by apply Rinv_0_lt_compat.
  - apply (Rmult_le_reg_r N); [done|]. unfold Rdiv. rewrite Rmult_assoc, Rinv_l by lra. lra.
Qed.
Lemma D_pos : 1 < D.
Proof. pose proof N_pos. pose proof z2_pos. unfold D. assert (0 < z2 / N) by (by apply Rdiv_lt_0_compat). lra. Qed.

Lemma radicand_nonneg : 0 <= x * (1 - x) / N + z2 / (4 * N * N).
Proof.
  pose proof N_pos. pose proof z2_pos. pose proof x_range.
  assert (0 <= x * (1 - x) / N) by (apply Rmult_le_pos; [nra|left; by apply Rinv_0_lt_compat]).
  assert (0 < z2 / (4 * N * N)) by (apply Rdiv_lt_0_compat; nra). lra.
Qed.

Lemma M_nonneg : 0 <= M.
Proof.
  pose proof D_pos. unfold M. apply Rmult_le_pos; [|left; apply Rinv_0_lt_compat; lra].
  apply Rmult_le_pos; [lra|apply sqrt_pos].
Qed.

Lemma M_square : M * M = C * C - x * x / D.
Proof.
  pose proof N_pos as HN. pose proof D_pos as HD. pose proof radicand_nonneg as Hr.
  unfold M. set (q := sqrt _).
  assert (Hq : q * q = x * (1 - x) / N + z2 / (4 * N * N)) by (by apply sqrt_sqrt).
  replace (196 / 100 * q / D * (196 / 100 * q / D)) with (z2 * (q * q) / (D * D)) by (unfold z2; field; lra).
  rewrite Hq. replace (C * C - x * x / D)
    with (((x + z2 / (2 * N)) * (x + z2 / (2 * N)) - x * x * D) / (D * D)) by (unfold C; field; lra).
  apply (f_equal (fun v => v / (D * D))). unfold D. field. lra.
Qed.

(** Within the interval around the center is within the score inequality. *)
Lemma score_quadratic p : (p - C) * (p - C) <= M * M <-> (x - p) * (x - p) <= z2 * p * (1 - p) / N.
Proof.
  pose proof N_pos as HN. pose proof D_pos as HD. rewrite M_square.
  assert (E : D * ((p - C) * (p - C) - (C * C - x * x / D)) = (x - p) * (x - p) - z2 * p * (1 - p) / N).
  { unfold C. unfold D. field. split; [lra|]. pose proof z2_pos. lra. }
  split; intros H; nra.
Qed.

Lemma within_sq p : (p - C) * (p - C) <= M * M <-> C - M <= p <= C + M.
Proof. pose proof M_nonneg. split; intros HH; nra. Qed.

Lemma wilson_eq : WilsonInterval f n = (Rmax 0 (C - M), Rmin 1 (C + M)).
Proof.
  unfold WilsonInterval. destruct (Z.eqb_spec n 0) as [|_]; [lia|]. reflexivity.
Qed.

Lemma score_interval p : 0 <= p <= 1 ->
  (WilsonInterval f n).1 <= p <= (WilsonInterval f n).2 <->
  (x - p) * (x - p) <= z2 * p * (1 - p) / N.
Proof.
  intros Hp. rewrite wilson_eq, <-score_quadratic, within_sq. simpl.
  unfold Rmax, Rmin. destruct (Rle_dec 0 (C - M)), (Rle_dec 1 (C + M)); lra.
Qed.

Lemma rate_within : (WilsonInterval f n).1 <= x <= (WilsonInterval f n).2.
Proof.
  apply score_interval; [apply x_range|]. pose proof x_range. pose proof N_pos. pose proof z2_pos.
  replace ((x - x) * (x - x)) with 0 by ring.
  apply Rmult_le_pos; [apply Rmult_le_pos; [apply Rmult_le_pos|]; lra|left; by apply Rinv_0_lt_compat].
Qed.

(** The lower bound is above a cutoff exactly when the rate is and the cutoff is
    rejected. *)
Lemma lower_above c : 0 <= c <= 1 ->
  c < (WilsonInterval f n).1 <-> c < x /\ z2 * c * (1 - c) / N < (x - c) * (x - c).
Proof.
  intros Hc. pose proof (score_interval c Hc) as Hs. pose proof rate_within as Hx. split.
  - intros H. split; [lra|]. apply Rnot_le_lt. intros Hle. apply Hs in Hle. lra.
  - intros [H1 H2]. apply Rnot_le_lt. intros Hle.
    assert (Hin : (WilsonInterval f n).1 <= c <= (WilsonInterval f n).2) by lra.
    apply Hs in Hin. lra.
Qed.
End interval.

(** C28: The interval is the Wilson score interval: for f failures of n attempts, a
    proportion p lies in it exactly when the observed rate is within z = 1.96
    standard errors of p, and the observed rate itself lies in it, inside
    [0, 1]. *)
Theorem WilsonInterval_score f n p : (0 < n)%Z -> (0 <= f <= n)%Z -> 0 <= p <= 1 ->
  let '(lower, upper) := @WilsonInterval R _ f n in
  let rate := IZR f / IZR n in
  (lower <= p <= upper <-> (rate - p) * (rate - p) <= z2 * p * (1 - p) / IZR n)
  /\ 0 <= lower <= rate /\ rate <= upper <= 1.
Proof.
  intros Hn Hf Hp. pose proof (score_interval f n Hn Hf p Hp) as H1.
  pose proof (rate_within f n Hn Hf) as H2. pose proof (wilson_eq f n Hn) as H3.
  destruct (WilsonInterval f n) as [lower upper]. injection H3 as Hl Hu. simpl in *.
  split; [done|]. pose proof (Rmax_l 0 (((IZR f / IZR n + z2 / (2 * IZR n)) / (1 + z2 / IZR n)) - 196 / 100 * sqrt (IZR f / IZR n * (1 - IZR f / IZR n) / IZR n + z2 / (4 * IZR n * IZR n)) / (1 + z2 / IZR n))).
  pose proof (Rmin_l 1 (((IZR f / IZR n + z2 / (2 * IZR n)) / (1 + z2 / IZR n)) + 196 / 100 * sqrt (IZR f / IZR n * (1 - IZR f / IZR n) / IZR n + z2 / (4 * IZR n * IZR n)) / (1 + z2 / IZR n))).
  lra.
Qed.

(** ** The verdict as an integer inequality *)

(** The lower bound of f of n is above the percentage c. *)
Definition above (c f n : Z) : bool :=
  ((c * n <? 100 * f) && (38416 * c * (100 - c) * n <? 10000 * ((100 * f - c * n) * (100 * f - c * n))))%Z.

Lemma above_spec c f n : (0 < n)%Z -> (0 <= f <= n)%Z -> (0 <= c <= 100)%Z ->
  IZR c / IZR 100 < (@WilsonInterval R _ f n).1 <-> above c f n = true.
Proof.
  intros Hn Hf Hc. assert (HN : 0 < IZR n) by (by apply IZR_lt).
  rewrite (lower_above f n Hn Hf).
  2: { destruct Hc as [H1 H2]. apply IZR_le in H1, H2. lra. }
  unfold above. rewrite andb_true_iff, !Z.ltb_lt. set (X := IZR f). set (Y := IZR n). set (c' := IZR c).
  assert (E1 : IZR c / IZR 100 < IZR f / IZR n <-> (c * n < 100 * f)%Z).
  { split; intros H.
    - apply lt_IZR. rewrite !mult_IZR. apply (Rmult_lt_compat_r (100 * IZR n)) in H; [|lra].
      replace (IZR c / IZR 100 * (100 * IZR n)) with (IZR c * IZR n) in H by field.
      replace (IZR f / IZR n * (100 * IZR n)) with (100 * IZR f) in H by (field; lra). lra.
    - apply IZR_lt in H. rewrite !mult_IZR in H. apply (Rmult_lt_reg_r (100 * IZR n)); [lra|].
      replace (IZR c / IZR 100 * (100 * IZR n)) with (IZR c * IZR n) by field.
      replace (IZR f / IZR n * (100 * IZR n)) with (100 * IZR f) by (field; lra). lra. }
  assert (E2 : z2 * (IZR c / IZR 100) * (1 - IZR c / IZR 100) / IZR n
      < (IZR f / IZR n - IZR c / IZR 100) * (IZR f / IZR n - IZR c / IZR 100)
    <-> (38416 * c * (100 - c) * n < 10000 * ((100 * f - c * n) * (100 * f - c * n)))%Z).
  { assert (K : 0 < 100000000 * (IZR n * IZR n)) by nra.
    assert (L1 : z2 * (IZR c / IZR 100) * (1 - IZR c / IZR 100) / IZR n * (100000000 * (IZR n * IZR n))
      = IZR (38416 * c * (100 - c) * n)) by (rewrite !mult_IZR, minus_IZR; unfold z2; field; lra).
    assert (L2 : (IZR f / IZR n - IZR c / IZR 100) * (IZR f / IZR n - IZR c / IZR 100) * (100000000 * (IZR n * IZR n))
      = IZR (10000 * ((100 * f - c * n) * (100 * f - c * n))))
      by (rewrite !mult_IZR, !minus_IZR, !mult_IZR; field; lra).
    split; intros H.
    - apply lt_IZR. rewrite <-L1, <-L2. by apply Rmult_lt_compat_r.
    - apply IZR_lt in H. rewrite <-L1, <-L2 in H. by apply (Rmult_lt_reg_r _ _ _ K). }
  tauto.
Qed.

Definition verdict {F} (d : Decision F) : bool * bool * bool := (Insufficient d, IsBroken d, IsFlaky d).

(** The verdict by integers. *)
Definition verdictExact (f n : Z) : bool * bool * bool :=
  if (n <? 20)%Z then (true, false, false)
  else if above 90 f n then (false, true, false) else (false, false, above 5 f n).

Lemma Classify_real f n : (0 < n)%Z -> (0 <= f <= n)%Z ->
  verdict (@Classify R _ f n Default) = verdictExact f n.
Proof.
  intros Hn Hf. unfold Classify, verdictExact. cbn [Default MinSamples BrokenLowerCutoff WilsonLowerCutoff].
  destruct (n <? 20)%Z; [done|].
  pose proof (above_spec 90 f n Hn Hf ltac:(lia)) as H9. pose proof (above_spec 5 f n Hn Hf ltac:(lia)) as H5.
  destruct (WilsonInterval f n) as [lower upper]. simpl in H5, H9.
  cbn [fltb fconst real_ops]. destruct (Rlt_dec (90 / 100) lower) as [Hb|Hb].
  - rewrite (proj1 H9 Hb). done.
  - destruct (above 90 f n); [tauto|]. unfold verdict. simpl. f_equal.
    destruct (Rlt_dec (5 / 100) lower); destruct (above 5 f n); tauto.
Qed.

(** ** The float64 verdict *)

Definition floatAgrees (f n : Z) : bool :=
  bool_decide (verdict (@Classify float64 _ f n Default) = verdictExact f n).

Definition zrange (k : nat) : list Z := Z.of_nat <$> seq 0 k.

Definition floatAgreesUpTo (bound : nat) : bool :=
  forallb (fun n => forallb (fun f => floatAgrees f n) (zrange (S (Z.to_nat n)))) (zrange (S bound)).

Lemma zrange_elem k v : (0 <= v < Z.of_nat k)%Z -> v ∈ zrange k.
Proof.
  intros Hv. apply list_elem_of_fmap. exists (Z.to_nat v). split; [lia|]. apply elem_of_seq. lia.
Qed.

Lemma floatAgreesUpTo_spec bound f n : floatAgreesUpTo bound = true ->
  (0 <= n <= Z.of_nat bound)%Z -> (0 <= f <= n)%Z ->
  verdict (@Classify float64 _ f n Default) = verdictExact f n.
Proof.
  unfold floatAgreesUpTo. rewrite forallb_forall. intros H Hn Hf.
  assert (H1 : In n (zrange (S bound))) by (apply list_elem_of_In, zrange_elem; lia).
  specialize (H n H1). rewrite forallb_forall in H.
  assert (H2 : In f (zrange (S (Z.to_nat n)))) by (apply list_elem_of_In, zrange_elem; lia).
  specialize (H f H2). unfold floatAgrees in H. by apply bool_decide_eq_true in H.
Qed.

Lemma floatAgrees_checked : floatAgreesUpTo 30 = true.
Proof. vm_cast_no_check (eq_refl true). Qed.

(** The float64 classifier gives the exact verdict: for up to 30 attempts the
    classification computed in float64 is the one over the real numbers (rounding
    never moves a test across a cutoff), and over the reals it is broken or flaky
    exactly when the score test rejects 90% or 5%, for any number of attempts. *)
Theorem Classify_exact f n : (0 < n)%Z -> (0 <= f <= n)%Z ->
  verdict (@Classify R _ f n Default) = verdictExact f n
  /\ ((n <= 30)%Z -> verdict (@Classify float64 _ f n Default) = verdict (@Classify R _ f n Default)).
Proof.
  intros Hn Hf. split; [by apply Classify_real|]. intros Hb. rewrite Classify_real by done.
  apply (floatAgreesUpTo_spec 30); [exact floatAgrees_checked|lia|lia].
Qed.

Lemma WilsonInterval_score_witness :
  let '(lower, upper) := @WilsonInterval R _ 3 20 in lower <= 3 / 20 /\ 3 / 20 <= upper.
Proof.
  pose proof (WilsonInterval_score 3 20 0 ltac:(lia) ltac:(lia) ltac:(lra)) as H.
  destruct (WilsonInterval 3 20) as [lower upper]. cbv zeta in H. lra.
Defined.

Lemma Classify_exact_witness : verdict (@Classify float64 _ 3 20 Default) = (false, false, true)
  /\ verdict (@Classify R _ 3 20 Default) = (false, false, true).
Proof.
  destruct (Classify_exact 3 20) as [H1 H2]; [lia|lia|].
  rewrite <-(H2 ltac:(lia)). split; vm_compute; reflexivity.
Defined.
