(* ===== verification/QuarantineProps.v ===== *)
(** * What quarantine does

    The chart of recent runs, the daemon's sweep, and the one-shot restore
    tokens. *)

From S2P Require Import Prelude GoSort GoFloat GoBytes GoFmt Model.
From S2P Require Import Scheduler Db Effects Lifecycle RunManager RunManagerProps.
From S2P Require Import RunSvcProps Flake Quarantine.

(** ** The chart *)

Definition isVerdict (o : string) : bool := bool_decide (classifyOutcome o <> outcomeNeutral).
Definition barOf (o : string) : Z := if bool_decide (classifyOutcome o = outcomePass) then 1 else 0.

Lemma chartBars_spec outcomes : chartBars outcomes
  = (barOf <$> List.filter isVerdict outcomes,
     Z.of_nat (length (List.filter (fun o => negb (isVerdict o)) outcomes))).
Proof.
  unfold chartBars. induction outcomes as [|o l IH] using rev_ind; [done|].
  rewrite foldl_app, IH, !List.filter_app, fmap_app, length_app, Nat2Z.inj_add. cbn [foldl List.filter].
  assert (Hv : isVerdict o = match classifyOutcome o with outcomeNeutral => false | _ => true end)
    by (unfold isVerdict; by destruct (classifyOutcome o)).
  assert (Hb : barOf o = match classifyOutcome o with outcomePass => 1 | _ => 0 end)
    by (unfold barOf; by destruct (classifyOutcome o)).
  rewrite Hv. destruct (classifyOutcome o); cbn; rewrite ?Hb, ?app_nil_r, ?Z.add_0_r; done.
Qed.

(** The run-history chart draws the last thirty runs that ended in a verdict,
    oldest first, one bar per run, 1 for a pass and 0 for a failure, and counts
    the skipped and interrupted ones it leaves out; with no verdict at all
    there is no chart. *)
Theorem chart_recent outcomes :
  let verdicts := List.filter isVerdict outcomes in
  let shown := drop (length verdicts - maxHistoryPoints) verdicts in
  lastBars (chartBars outcomes).1 = barOf <$> shown
  /\ (length shown <= maxHistoryPoints)%nat
  /\ (chartBars outcomes).2 + Z.of_nat (length verdicts) = Z.of_nat (length outcomes)
  /\ (verdicts = [] -> renderRunHistoryMermaid outcomes = "_No recent run history available._" +:+ nl).
Proof.
  cbv zeta. rewrite chartBars_spec. cbn [fst snd]. split_and!.
  - unfold lastBars. rewrite length_fmap. destruct (Nat.ltb_spec maxHistoryPoints (length (List.filter isVerdict outcomes))).
    + by rewrite fmap_drop.
    + replace (length _ - maxHistoryPoints)%nat with 0%nat by lia. by rewrite drop_0.
  - rewrite length_drop. lia.
  - induction outcomes as [|o l IH]; [done|]. simpl. destruct (isVerdict o); simpl; lia.
  - unfold renderRunHistoryMermaid. rewrite chartBars_spec, length_fmap.
    by intros ->.
Qed.

(** ** Restore *)

Section restore.
Context (now : Z) (u : nat -> string) (held : gset Z) (ag : AgentState).

Definition consumedToken (r : token_row) : token_row := mkTokenRow (ut_test_id r) (ut_expires_at r) (Some now).

(** The database after a restore: the token used up, the test active, its record
    released. *)
Definition restoredDB (db : DB) (token : string) (r : token_row) : DB :=
  set_flake_records (updateRow (ut_test_id r) (fun _ => true)
      (fun f => fr_set_unquarantined_at (Some now) (fr_set_quarantined_at None f)) (flake_records db)).1
    (set_tests (updateRow (ut_test_id r) (fun _ => true) (ts_set_quarantine "active" None None) (tests db)).1
      (set_unquarantine_tokens (<[token := consumedToken r]> (unquarantine_tokens db)) db)).

Lemma Restore_ok db token r n out : token <> "" ->
  unquarantine_tokens db !! token = Some r -> ut_consumed_at r = None -> now <= ut_expires_at r ->
  Restore token (QW db None now u n held out ag)
  = (Ok (ut_test_id r), QW (restoredDB db token r) None now u n held out ag).
Proof.
  intros Ht Hr Hc He. unfold Restore. rewrite (proj2 (String.eqb_neq _ _)) by done.
  apply withTx_quiet. erewrite bindM_ok; [|by apply scan_quiet]. rewrite Hc.
  erewrite bindM_ok; [|reflexivity]. cbv beta. change (w_now _) with now.
  rewrite (proj2 (Z.ltb_ge _ _)) by done.
  erewrite bindM_ok.
  2: { apply txExec_quiet. unfold stmtConsume, updateToken, updateRow. rewrite Hr. reflexivity. }
  erewrite bindM_ok.
  2: { apply txExec_quiet. unfold stmtActivate, updateTest. rewrite (surjective_pairing (updateRow _ _ _ _)). reflexivity. }
  erewrite bindM_ok.
  2: { apply txExec_quiet. unfold stmtUnquarantineRecord, updateFlake. rewrite (surjective_pairing (updateRow _ _ _ _)). reflexivity. }
  erewrite bindM_ok; [|apply txCommit_quiet]. reflexivity.
Qed.

(** A token that cannot be used leaves the database as it is. *)
Lemma Restore_refused db token n out : token <> "" ->
  match unquarantine_tokens db !! token with
  | None => Restore token (QW db None now u n held out ag) = (Err ErrNoRows, QW db None now u n held out ag)
  | Some r =>
      (ut_consumed_at r <> None ->
         Restore token (QW db None now u n held out ag) = (Err ErrTokenConsumed, QW db None now u n held out ag))
      /\ (ut_consumed_at r = None -> ut_expires_at r < now ->
         Restore token (QW db None now u n held out ag) = (Err ErrTokenExpired, QW db None now u n held out ag))
  end.
Proof.
  intros Ht. destruct (unquarantine_tokens db !! token) as [r|] eqn:Hr.
  - split.
    + intros Hc. unfold Restore. rewrite (proj2 (String.eqb_neq _ _)) by done.
      eapply withTx_rollback. erewrite bindM_ok; [|by apply scan_quiet].
      destruct (ut_consumed_at r); [reflexivity|done].
    + intros Hc He. unfold Restore. rewrite (proj2 (String.eqb_neq _ _)) by done.
      eapply withTx_rollback. erewrite bindM_ok; [|by apply scan_quiet]. rewrite Hc.
      erewrite bindM_ok; [|reflexivity]. cbv beta. change (w_now _) with now.
      rewrite (proj2 (Z.ltb_lt _ _)) by done. reflexivity.
  - unfold Restore. rewrite (proj2 (String.eqb_neq _ _)) by done.
    eapply withTx_rollback. apply bindM_err. unfold scanRow. erewrite bindM_ok; [|apply txQuery_quiet].
    rewrite Hr. reflexivity.
Qed.

End restore.

(** A restore token works once: a live token makes its test active again,
    clears its quarantine and its record's, and is consumed in the same commit;
    using it again, at any later time, is refused as consumed; an expired or
    unknown one is refused; no refusal changes anything. *)
Theorem Restore_once now u held ag db token r n out : token <> "" ->
  unquarantine_tokens db !! token = Some r -> ut_consumed_at r = None ->
  (now <= ut_expires_at r ->
     exists db', Restore token (QW db None now u n held out ag) = (Ok (ut_test_id r), QW db' None now u n held out ag)
       /\ (forall t, tests db !! ut_test_id r = Some t ->
             tests db' !! ut_test_id r = Some (ts_set_quarantine "active" None None t))
       /\ (forall id, id <> ut_test_id r -> tests db' !! id = tests db !! id)
       /\ (forall f, flake_records db !! ut_test_id r = Some f -> exists f', flake_records db' !! ut_test_id r = Some f'
             /\ fr_quarantined_at f' = None /\ fr_unquarantined_at f' = Some now)
       /\ (forall later n' out', Restore token (QW db' None later u n' held out' ag)
             = (Err ErrTokenConsumed, QW db' None later u n' held out' ag)))
  /\ (ut_expires_at r < now ->
     Restore token (QW db None now u n held out ag) = (Err ErrTokenExpired, QW db None now u n held out ag)).
Proof.
  intros Ht Hr Hc. split.
  - intros He. exists (restoredDB now db token r). split_and!.
    + by apply Restore_ok.
    + intros t Hid. unfold restoredDB. cbn [set_flake_records set_tests tests].
      rewrite updateRow_lookup, decide_True, Hid by done. done.
    + intros id Hid. unfold restoredDB. cbn [set_flake_records set_tests tests].
      rewrite updateRow_lookup, decide_False by done. done.
    + intros f Hf. unfold restoredDB. cbn [set_flake_records flake_records].
      rewrite updateRow_lookup, decide_True, Hf by done. eexists. split; [reflexivity|done].
    + intros later n' out'.
      pose proof (Restore_refused later u held ag (restoredDB now db token r) token n' out' Ht) as H. unfold restoredDB in H at 1. cbn [set_flake_records set_tests set_unquarantine_tokens unquarantine_tokens] in H.
      rewrite lookup_insert_eq in H. by apply H.
  - intros He. pose proof (Restore_refused now u held ag db token n out Ht) as H. rewrite Hr in H. by apply H.
Qed.


(** ** The daemon's sweep *)

Section sweep.
Context (d : Daemon) (now : Z) (u : nat -> string) (held : gset Z) (ag : AgentState).

Definition quarantinedTest : test_row -> test_row :=
  ts_set_quarantine "quarantined" (Some now) (Some "auto: wilson-confirmed flaky").

(** What one quarantine leaves: the test, its record quarantined with its counts
    unchanged, every other row as it was. *)
Record QuarantineStep (id : string) (db db' : DB) : Prop := {
  qs_tests : tests db' = alter quarantinedTest id (tests db);
  qs_flakes_other : forall k, k <> id -> flake_records db' !! k = flake_records db !! k;
  qs_flake : forall f, flake_records db !! id = Some f ->
    exists f', flake_records db' !! id = Some f' /\ fr_quarantined_at f' = Some now;
  qs_rest : repos db' = repos db /\ runs db' = runs db /\ shards db' = shards db
    /\ test_executions db' = test_executions db
}.

Lemma updateFlake_quiet id f db r : flake_records db !! id = Some r ->
  updateFlake id f now db = (Ok 1, set_flake_records (<[id := f r]> (flake_records db)) db).
Proof. intros H. unfold updateFlake, updateRow. by rewrite H. Qed.

(** A query on the pool beside the open transaction sees what is committed. *)
Lemma poolQuery_beside {A} (f : DB -> A) db tx n out :
  poolExec (query f) (QW db (Some tx) now u n held out ag) = (Ok (f db), QW db (Some tx) now u n held out ag).
Proof. unfold poolExec. simpl. unfold commitOther. simpl. by rewrite lockViewDB_id, lockMergeDB_id. Qed.

Lemma recentOutcomes_quiet id k db tx n out :
  tryM (recentOutcomes id k) (QW db (Some tx) now u n held out ag)
  = (Ok (Ok (selectOutcomes id k db)), QW db (Some tx) now u n held out ag).
Proof. apply tryM_eq. unfold recentOutcomes. apply wrapM_ok, poolQuery_beside. Qed.

Lemma openIssue_quiet open repo title body db tx n out :
  openIssue open repo title body (QW db tx now u n held out ag)
  = (Ok (open repo title body), QW db tx now u n held (out ++ [OOpenIssue repo title body]) ag).
Proof. unfold openIssue. erewrite bindM_ok; [|apply emit_quiet]. reflexivity. Qed.

(** The report on a test: a comment on its issue, if it has one and there is a
    commenter, or else a new issue, if there is an opener. *)
Definition reportFor (issue : option Z) (repo id path name : string) (rate samples : Z) (db : DB) : list Output :=
  if (0 <? coalesce issue 0) && bool_decide (is_Some (d_IssueCommenter d))
  then [OComment repo (coalesce issue 0) (requarantineBody rate samples)]
  else if bool_decide (is_Some (d_IssueOpener d))
  then [OOpenIssue repo ("[TEO] Flaky test quarantined: " +:+ name)
          (buildIssueBody path name rate samples (selectOutcomes id (maxHistoryPoints * 3) db))]
  else [].
Definition reportOf (db : DB) (id : string) : list Output :=
  match tests db !! id, flake_records db !! id with
  | Some t, Some r =>
      match repos db !! ts_repo_id t with
      | Some rp => reportFor (fr_github_issue_number r) (rp_full_name rp) id (ts_path t) (ts_name t) (fr_flake_rate r) (fr_sample_size r) db
      | None => []
      end
  | _, _ => []
  end.

Lemma setIssue_quiet number url id db w n out r : flake_records db !! id = Some r ->
  exists db', ignoreM (txExec (stmtSetIssue number url id)) (QW w (Some db) now u n held out ag)
      = (Ok tt, QW w (Some db') now u n held out ag)
    /\ (db' = db \/ db' = set_flake_records (<[id := fr_set_issue number url r]> (flake_records db)) db).
Proof.
  intros Hr. destruct (int4 number) eqn:E.
  - eexists. split; [|by right]. eapply ignoreM_eq, txExec_quiet. unfold stmtSetIssue. rewrite E.
    by apply updateFlake_quiet.
  - exists db. split; [|by left]. eapply ignoreM_eq. unfold txExec. simpl. unfold stmtSetIssue. by rewrite E.
Qed.

Lemma quarantine_quiet id repo path name rate samples db t r n out :
  tests db !! id = Some t -> ts_status t = "active" -> flake_records db !! id = Some r ->
  exists db', quarantine d id repo path name rate samples (QW db None now u n held out ag)
      = (Ok tt, QW db' None now u n held (out ++ reportFor (fr_github_issue_number r) repo id path name rate samples db) ag)
    /\ QuarantineStep id db db'.
Proof.
  intros Ht Hs Hr.
  set (db1 := set_tests (<[id := quarantinedTest t]> (tests db)) db).
  set (r2 := fr_set_quarantined_at (Some now) r).
  set (db2 := set_flake_records (<[id := r2]> (flake_records db)) db1).
  assert (H1 : stmtQuarantineTest id now db = (Ok 1, db1)).
  { unfold stmtQuarantineTest, updateTest, updateRow, testStatusIs. by rewrite Ht, Hs. }
  assert (H2 : stmtQuarantineRecord id now db1 = (Ok 1, db2)) by (exact (updateFlake_quiet id (fr_set_quarantined_at (Some now)) db1 r Hr)).
  assert (Hstep : forall db3, (db3 = db2 \/ exists number url, db3 = set_flake_records (<[id := fr_set_issue number url r2]> (flake_records db2)) db2) ->
    QuarantineStep id db db3).
  { intros db3 H3. assert (Ha : <[id := quarantinedTest t]> (tests db) = alter quarantinedTest id (tests db)).
    { apply map_eq. intros k. destruct (decide (k = id)) as [->|Hk].
      - by rewrite lookup_insert_eq, lookup_alter_eq, Ht.
      - by rewrite lookup_insert_ne, lookup_alter_ne. }
    destruct H3 as [->|(number & url & ->)]; (split; [exact Ha| | |done]).
    - intros k Hk. cbn. by rewrite lookup_insert_ne.
    - intros f Hf. cbn. rewrite lookup_insert_eq. by eexists.
    - intros k Hk. cbn. by rewrite !lookup_insert_ne.
    - intros f Hf. cbn. rewrite lookup_insert_eq. by eexists. }
  set (num := coalesce (fr_github_issue_number r) 0).
  assert (Hpool : forall out0, tryM (scanRow (poolExec (query (fun db0 => (fun r0 => coalesce (fr_github_issue_number r0) 0) <$> flake_records db0 !! id))))
      (QW db (Some db2) now u n held out0 ag) = (Ok (Ok num), QW db (Some db2) now u n held out0 ag)).
  { intros out0. apply tryM_eq. unfold scanRow, bindM, poolExec. simpl. rewrite Hr. simpl.
    unfold commitOther. simpl. by rewrite lockViewDB_id, lockMergeDB_id. }
  unfold quarantine, reportFor. fold num. destruct (if 0 <? num then d_IssueCommenter d else None) as [comment|] eqn:Ec.
  - assert ((0 <? num) && bool_decide (is_Some (d_IssueCommenter d)) = true) as ->.
    { destruct (0 <? num); [|done]. by rewrite Ec. }
    eexists. split.
    { apply withTx_quiet. erewrite bindM_ok; [|by apply txExec_quiet]. erewrite bindM_ok; [|by apply txExec_quiet].
      erewrite bindM_ok; [|apply Hpool]. cbv beta iota zeta. rewrite Ec.
      erewrite bindM_ok; [|unfold commentIssue; erewrite bindM_ok; [|apply emit_quiet]; reflexivity].
      apply txCommit_quiet. }
    apply Hstep. by left.
  - assert ((0 <? num) && bool_decide (is_Some (d_IssueCommenter d)) = false) as ->.
    { destruct (0 <? num); [|done]. by rewrite Ec. }
    destruct (d_IssueOpener d) as [open|] eqn:Eo.
    + set (outs := selectOutcomes id (maxHistoryPoints * 3) db).
      set (body := buildIssueBody path name rate samples outs). set (title := "[TEO] Flaky test quarantined: " +:+ name).
      set (opened := match open repo title body with Ok nu => nu | Err _ => (0, "") end).
      destruct (setIssue_quiet opened.1 opened.2 id db2 db n (out ++ [OOpenIssue repo title body]) r2) as (db3 & Hset & H3);
        [cbn; by rewrite lookup_insert_eq|].
      exists (if 0 <? opened.1 then db3 else db2). split.
      { apply withTx_quiet. erewrite bindM_ok; [|by apply txExec_quiet]. erewrite bindM_ok; [|by apply txExec_quiet].
        erewrite bindM_ok; [|apply Hpool]. cbv beta iota zeta. rewrite Ec.
        erewrite bindM_ok; [|apply recentOutcomes_quiet]. cbv beta iota zeta.
        erewrite bindM_ok; [|erewrite bindM_ok; [reflexivity|apply openIssue_quiet]].
        fold outs body title opened.
        destruct (0 <? opened.1); cbn [whenM].
        - erewrite bindM_ok; [|exact Hset]. apply txCommit_quiet.
        - erewrite bindM_ok; [|reflexivity]. apply txCommit_quiet. }
      apply Hstep. destruct (0 <? opened.1); [|by left]. destruct H3 as [->| ->]; [by left|right; eauto].
    + exists db2. split.
      { apply withTx_quiet. erewrite bindM_ok; [|by apply txExec_quiet]. erewrite bindM_ok; [|by apply txExec_quiet].
        erewrite bindM_ok; [|apply Hpool]. cbv beta iota zeta. rewrite Ec.
        erewrite bindM_ok; [|apply recentOutcomes_quiet]. cbv beta iota zeta. erewrite bindM_ok; [|reflexivity]. cbn [whenM fst Z.ltb Z.compare].
        erewrite bindM_ok; [|reflexivity]. rewrite app_nil_r. apply txCommit_quiet. }
      apply Hstep. by left.
Qed.

Definition flagged (cs : list cand) : list string := c_testID <$> List.filter c_autoEnabled cs.

(** What the sweep leaves for the flagged tests and for the others. *)
Record SweepResult (ids : list string) (db db' : DB) : Prop := {
  sw_tests : forall id, tests db' !! id
    = if bool_decide (id ∈ ids) then quarantinedTest <$> tests db !! id else tests db !! id;
  sw_flagged : forall id, id ∈ ids -> exists f, flake_records db' !! id = Some f /\ fr_quarantined_at f = Some now;
  sw_others : forall id, id ∉ ids -> flake_records db' !! id = flake_records db !! id;
  sw_rest : repos db' = repos db /\ runs db' = runs db /\ shards db' = shards db /\ test_executions db' = test_executions db
}.

Definition sweepOne (c : cand) : M unit :=
  if negb (c_autoEnabled c) then retM tt
  else ignoreM (quarantine d (c_testID c) (c_repoFull c) (c_path c) (c_name c) (c_rate c) (c_samples c)).

Definition Candidate (db : DB) (c : cand) : Prop :=
  exists t r rp, tests db !! c_testID c = Some t /\ ts_status t = "active" /\ flake_records db !! c_testID c = Some r
    /\ repos db !! ts_repo_id t = Some rp
    /\ c = mkCand (c_testID c) (ts_path t) (ts_name t) (rp_full_name rp) (rp_auto_quarantine_enabled rp)
          (fr_flake_rate r) (fr_sample_size r).

(** The reports of the others do not depend on this step. *)
Lemma reportOf_step id db db' k : k <> id -> QuarantineStep id db db' -> reportOf db' k = reportOf db k.
Proof.
  intros Hk [H1 H2 _ (H3 & H4 & H5 & H6)]. unfold reportOf, reportFor, selectOutcomes, finalAttempts.
  by rewrite H1, lookup_alter_ne, H2, H3, ?H4, ?H5, ?H6 by done.
Qed.

Lemma step_sweep id ids db db1 db' : id ∉ ids -> is_Some (flake_records db !! id) ->
  QuarantineStep id db db1 -> SweepResult ids db1 db' -> SweepResult (id :: ids) db db'.
Proof.
  intros Hid [r Hr] [H1 H2 H3 (H4 & H5 & H6 & H7)] [S1 S2 S3 (S4 & S5 & S6 & S7)].
  assert (Hne : forall k, k ∈ ids -> k <> id) by (intros k Hk ->; done).
  split; [| | |split_and!; congruence].
  - intros k. rewrite S1, H1. destruct (decide (k = id)) as [->|Hk].
    + rewrite (bool_decide_false (id ∈ ids)), (bool_decide_true (id ∈ id :: ids)) by (done || by left).
      by rewrite lookup_alter_eq.
    + rewrite lookup_alter_ne by done.
      rewrite (bool_decide_ext (k ∈ id :: ids) (k ∈ ids)); [done|].
      rewrite elem_of_cons. tauto.
  - intros k Hk. apply elem_of_cons in Hk as [->|Hk]; [|by apply S2].
    destruct (H3 r Hr) as (f & Hf & Hq). exists f. split; [|done]. by rewrite S3.
  - intros k Hk. apply not_elem_of_cons in Hk as [Hk1 Hk2]. rewrite S3 by done. by apply H2.
Qed.

Lemma sweep_loop cs db n out : NoDup (c_testID <$> cs) -> Forall (Candidate db) cs ->
  exists db', forM_ cs sweepOne (QW db None now u n held out ag)
      = (Ok tt, QW db' None now u n held (out ++ concat (reportOf db <$> flagged cs)) ag)
    /\ SweepResult (flagged cs) db db'.
Proof.
  revert db out. induction cs as [|c cs IH]; intros db out Hnd Hc.
  { exists db. rewrite app_nil_r. split; [done|]. split; try done.
    intros id Hid. by apply elem_of_nil in Hid. }
  apply NoDup_cons in Hnd as [Hn Hnd]. apply Forall_cons in Hc as [(t & r & rp & Ht & Hs & Hr & Hrp & Ec) Hc].
  unfold flagged. cbn [forM_ List.filter]. unfold sweepOne at 1. destruct (c_autoEnabled c) eqn:Ea; cbn [negb].
  - destruct (quarantine_quiet (c_testID c) (c_repoFull c) (c_path c) (c_name c) (c_rate c) (c_samples c)
      db t r n out Ht Hs Hr) as (db1 & Hq & Hstep).
    assert (reportFor (fr_github_issue_number r) (c_repoFull c) (c_testID c) (c_path c) (c_name c) (c_rate c) (c_samples c) db
      = reportOf db (c_testID c)) as Er.
    { unfold reportOf. rewrite Ht, Hr, Hrp, Ec. by rewrite Ec. }
    rewrite Er in Hq. erewrite bindM_ok; [|eapply ignoreM_eq, Hq].
    assert (reportOf db1 <$> flagged cs = reportOf db <$> flagged cs) as Esame.
    { apply list_fmap_ext. intros i k Hk%list_elem_of_lookup_2. apply (reportOf_step (c_testID c)); [|done].
      intros ->. apply list_elem_of_fmap in Hk as (c' & E & Hin%list_elem_of_In). apply filter_In in Hin as [Hin _]. apply Hn.
      rewrite E. by apply list_elem_of_fmap_2, list_elem_of_In. }
    destruct (IH db1 (out ++ reportOf db (c_testID c)) Hnd) as (db' & Hl & Hres).
    { apply Forall_forall. intros c' Hc'. rewrite Forall_forall in Hc. destruct (Hc c' Hc') as (t' & r' & rp' & H1 & H2 & H3 & H4 & H5).
      assert (c_testID c' <> c_testID c).
      { intros E. apply Hn. rewrite <-E. by apply list_elem_of_fmap_2. }
      destruct Hstep as [K1 K2 _ (K3 & _)]. exists t', r', rp'. rewrite K1, lookup_alter_ne, K2, K3 by congruence. done. }
    exists db'. cbn [fmap list_fmap concat]. rewrite app_assoc. split.
    + rewrite Hl. do 3 f_equal. f_equal. exact Esame.
    + apply (step_sweep _ _ db db1); [| by eexists|done|done].
      intros (c' & E & Hin%list_elem_of_In)%list_elem_of_fmap. apply filter_In in Hin as [Hin _]. apply Hn.
      rewrite E. by apply list_elem_of_fmap_2, list_elem_of_In.
  - erewrite bindM_ok; [|reflexivity]. by apply IH.
Qed.

Lemma selectCandidates_elem db c : c ∈ selectCandidates db <->
  exists t r rp, tests db !! c_testID c = Some t /\ flake_records db !! c_testID c = Some r
    /\ repos db !! ts_repo_id t = Some rp /\ ts_status t = "active" /\ fr_quarantined_at r = None
    /\ 500 < fr_wilson_lower r /\ 20 <= fr_sample_size r
    /\ c = mkCand (c_testID c) (ts_path t) (ts_name t) (rp_full_name rp) (rp_auto_quarantine_enabled rp)
          (fr_flake_rate r) (fr_sample_size r).
Proof.
  unfold selectCandidates. rewrite list_elem_of_omap. split.
  - intros ([id r] & Hin%elem_of_map_to_list & H). cbn [fst snd] in H.
    destruct (tests db !! id) as [t|] eqn:Ht; [|done]. destruct (repos db !! ts_repo_id t) as [rp|] eqn:Hrp; [|done].
    destruct (_ && bool_decide _) eqn:E; [|done]. injection H as <-. zbool. apply bool_decide_eq_true in H0.
    exists t, r, rp. cbn [c_testID]. split_and!; done.
  - intros (t & r & rp & Ht & Hr & Hrp & Hs & Hq & Hl & Hn & ->). exists (c_testID c, r).
    split; [by apply elem_of_map_to_list|]. cbn [fst snd c_testID]. rewrite Ht, Hrp, Hs, String.eqb_refl.
    rewrite (proj2 (Z.ltb_lt _ _)), (proj2 (Z.leb_le _ _)), bool_decide_true by done. done.
Qed.

Lemma selectCandidates_NoDup db : NoDup (c_testID <$> selectCandidates db).
Proof.
  unfold selectCandidates. pose proof (NoDup_fst_map_to_list (flake_records db)) as H. revert H.
  induction (map_to_list (flake_records db)) as [|[id r] l IH]; intros H; [constructor|].
  cbn [fmap list_fmap fst] in H. apply NoDup_cons in H as [Hn H]. cbn [omap list_omap fst snd].
  destruct (tests db !! id) as [t|]; [|by apply IH]. destruct (repos db !! ts_repo_id t); [|by apply IH].
  destruct (_ && _); [|by apply IH]. cbn [fmap list_fmap c_testID]. apply NoDup_cons. split; [|by apply IH].
  intros (c & -> & ([id' r'] & Hin & E)%list_elem_of_omap)%list_elem_of_fmap. apply Hn.
  cbn [fst snd] in E. destruct (tests db !! id') as [t'|]; [|done]. destruct (repos db !! ts_repo_id t'); [|done].
  destruct (_ && _); [|done]. injection E as <-. cbn [c_testID]. apply list_elem_of_fmap. by exists (id', r').
Qed.

Lemma NoDup_fmap_filter {A B} (f : A -> B) (p : A -> bool) l : NoDup (f <$> l) -> NoDup (f <$> List.filter p l).
Proof.
  induction l as [|x l IH]; cbn [fmap list_fmap List.filter]; intros H; [constructor|].
  apply NoDup_cons in H as [Hx H]. destruct (p x); [|by apply IH]. cbn [fmap list_fmap]. apply NoDup_cons.
  split; [|by apply IH]. intros (y & E & Hy%list_elem_of_In)%list_elem_of_fmap. apply filter_In in Hy as [Hy _].
  apply Hx. rewrite E. by apply list_elem_of_fmap_2, list_elem_of_In.
Qed.

(** The tests a sweep quarantines. *)
Definition Quarantinable (db : DB) (id : string) : Prop :=
  exists t r rp, tests db !! id = Some t /\ flake_records db !! id = Some r /\ repos db !! ts_repo_id t = Some rp
    /\ ts_status t = "active" /\ fr_quarantined_at r = None /\ 500 < fr_wilson_lower r /\ 20 <= fr_sample_size r
    /\ rp_auto_quarantine_enabled rp = true.

Lemma flagged_quarantinable db id : id ∈ flagged (selectCandidates db) <-> Quarantinable db id.
Proof.
  unfold flagged. rewrite list_elem_of_fmap. split.
  - intros (c & -> & Hin%list_elem_of_In). apply filter_In in Hin as [Hin%list_elem_of_In Ha].
    apply selectCandidates_elem in Hin as (t & r & rp & H1 & H2 & H3 & H4 & H5 & H6 & H7 & H8).
    exists t, r, rp.
    split_and!; try done. rewrite H8 in Ha. done.
  - intros (t & r & rp & H1 & H2 & H3 & H4 & H5 & H6 & H7 & H8).
    exists (mkCand id (ts_path t) (ts_name t) (rp_full_name rp) true (fr_flake_rate r) (fr_sample_size r)).
    split; [done|]. apply list_elem_of_In, filter_In. split; [|done]. apply list_elem_of_In, selectCandidates_elem.
    exists t, r, rp. cbn [c_testID]. rewrite H8. by split_and!.
Qed.

Lemma RunDaemon_quiet db n out :
  exists db', RunDaemon d (QW db None now u n held out ag)
      = (Ok tt, QW db' None now u n held (out ++ concat (reportOf db <$> flagged (selectCandidates db))) ag)
    /\ SweepResult (flagged (selectCandidates db)) db db'.
Proof.
  destruct (sweep_loop (selectCandidates db) db n out (selectCandidates_NoDup db)) as (db' & Hl & H).
  { apply Forall_forall. intros c (t & r & rp & H1 & H2 & H3 & H4 & _ & _ & _ & H5)%selectCandidates_elem. by exists t, r, rp. }
  exists db'. split; [|exact H]. unfold RunDaemon. erewrite bindM_ok; [|apply poolQuery_quiet]. exact Hl.
Qed.

(** C9: A sweep of the daemon quarantines exactly the active tests of repos with
    auto-quarantine on whose record is not quarantined yet and confirms the
    flake (Wilson lower bound above 5%, at least 20 samples): each becomes
    quarantined with the reason recorded and its record stamped, every other
    test and record is unchanged.  What goes to GitHub is the report on each of
    them, once and in the order of the sweep: a comment on the issue the record
    has, when there is a commenter, or else a new issue with the name, path,
    figures and run history of that test, when there is an opener. *)
Theorem RunDaemon_quarantines db n out :
  exists db' ids, RunDaemon d (QW db None now u n held out ag)
      = (Ok tt, QW db' None now u n held (out ++ concat (reportOf db <$> ids)) ag)
    /\ NoDup ids /\ (forall id, id ∈ ids <-> Quarantinable db id)
    /\ (forall id, id ∈ ids -> tests db' !! id = quarantinedTest <$> tests db !! id
          /\ exists f, flake_records db' !! id = Some f /\ fr_quarantined_at f = Some now)
    /\ (forall id, id ∉ ids -> tests db' !! id = tests db !! id /\ flake_records db' !! id = flake_records db !! id).
Proof.
  destruct (RunDaemon_quiet db n out) as (db' & Hl & [S1 S2 S3 _]).
  exists db', (flagged (selectCandidates db)). split_and!; [exact Hl|..].
  - apply NoDup_fmap_filter, selectCandidates_NoDup.
  - apply flagged_quarantinable.
  - intros id Hid. split; [by rewrite S1, bool_decide_true|by apply S2].
  - intros id Hid. split; [by rewrite S1, bool_decide_false|by apply S3].
Qed.
End sweep.

(** A restore does not last: the record keeps its old bound until it is
    recomputed, so the next sweep of the daemon quarantines the restored test
    again when auto-quarantine is on and the record still confirms the flake. *)
Theorem restored_is_requarantined d now later u held ag db token r t f rp n out :
  token <> "" -> unquarantine_tokens db !! token = Some r -> ut_consumed_at r = None -> now <= ut_expires_at r ->
  tests db !! ut_test_id r = Some t -> flake_records db !! ut_test_id r = Some f -> repos db !! ts_repo_id t = Some rp ->
  500 < fr_wilson_lower f -> 20 <= fr_sample_size f -> rp_auto_quarantine_enabled rp = true ->
  exists db1 db2 out2,
    Restore token (QW db None now u n held out ag) = (Ok (ut_test_id r), QW db1 None now u n held out ag)
    /\ (ts_status <$> tests db1 !! ut_test_id r) = Some "active"
    /\ RunDaemon d (QW db1 None later u n held out ag) = (Ok tt, QW db2 None later u n held out2 ag)
    /\ (ts_status <$> tests db2 !! ut_test_id r) = Some "quarantined".
Proof.
  intros Ht Hr Hc He Htest Hf Hrp Hl Hn Ha. exists (restoredDB now db token r).
  destruct (RunDaemon_quiet d later u held ag (restoredDB now db token r) n out) as (db2 & Hrun & [S1 _ _ _]).
  assert (Htest1 : tests (restoredDB now db token r) !! ut_test_id r = Some (ts_set_quarantine "active" None None t)).
  { unfold restoredDB. cbn [set_flake_records set_tests tests]. by rewrite updateRow_lookup, decide_True, Htest by done. }
  eexists db2, _. split_and!; [by apply Restore_ok|by rewrite Htest1|exact Hrun|].
  rewrite S1, Htest1, bool_decide_true; [done|]. apply flagged_quarantinable.
  exists (ts_set_quarantine "active" None None t), (fr_set_unquarantined_at (Some now) (fr_set_quarantined_at None f)), rp.
  split_and!; try done. unfold restoredDB. cbn [set_flake_records flake_records].
  by rewrite updateRow_lookup, decide_True, Hf by done.
Qed.

(** ** A concrete quarantine *)

Module QuarantineDemo.
Definition repo : repo_row := mkRepoRow "github" "acme/app" true true.
Definition test (status : string) : test_row := mkTestRow "repo" "fp" "a.py" "t0" "" "" "pytest" status None None 0 None.
Definition record : flake_row := mkFlakeRow 2500 1120 4687 20 (Some "unknown") (Some 5) None (Some 7) (Some "u") 0 None None.
Definition token : token_row := mkTokenRow "x" 1000 None.
Definition db : DB :=
  mkDB {[ "repo" := repo ]} ∅ ∅ ∅ {[ "x" := test "quarantined" ]} ∅ ∅ {[ "x" := record ]} {[ "tok" := token ]} ∅.
Definition daemon : Daemon := mkDaemon (Some (fun _ _ _ => Ok (8, "url"))) (Some (fun _ _ _ => Ok tt)).
End QuarantineDemo.

Lemma Restore_once_witness :
  exists db', Restore "tok" (QW QuarantineDemo.db None 9 (fun _ => "") 0 ∅ [] idleAgent)
      = (Ok "x", QW db' None 9 (fun _ => "") 0 ∅ [] idleAgent)
    /\ (Restore "tok" (QW db' None 500 (fun _ => "") 0 ∅ [] idleAgent)).1 = Err ErrTokenConsumed.
Proof.
  destruct (Restore_once 9 (fun _ => "") ∅ idleAgent QuarantineDemo.db "tok" QuarantineDemo.token 0 [])
    as [H _]; [done|reflexivity|reflexivity|].
  destruct H as (db' & H1 & _ & _ & _ & H2); [cbn; lia|]. exists db'. split; [exact H1|]. by rewrite H2.
Defined.

Lemma restored_is_requarantined_witness :
  exists db1 db2 out2,
    Restore "tok" (QW QuarantineDemo.db None 9 (fun _ => "") 0 ∅ [] idleAgent)
      = (Ok "x", QW db1 None 9 (fun _ => "") 0 ∅ [] idleAgent)
    /\ RunDaemon QuarantineDemo.daemon (QW db1 None 10 (fun _ => "") 0 ∅ [] idleAgent)
      = (Ok tt, QW db2 None 10 (fun _ => "") 0 ∅ out2 idleAgent)
    /\ (ts_status <$> tests db2 !! "x") = Some "quarantined".
Proof.
  destruct (restored_is_requarantined QuarantineDemo.daemon 9 10 (fun _ => "") ∅ idleAgent QuarantineDemo.db "tok"
    QuarantineDemo.token (QuarantineDemo.test "quarantined") QuarantineDemo.record QuarantineDemo.repo 0 [])
    as (db1 & db2 & out2 & H1 & _ & H2 & H3); try reflexivity; try (cbn; lia); [discriminate|].
  exists db1, db2, out2. split_and!; [exact H1|exact H2|exact H3].
Defined.
