(* ===== verification/BackfillProps.v ===== *)
(** * What the backfill does

    Every candidate is accounted for whatever the stores answer, a dry run
    touches neither of them, and the paged scan is the whole scan. *)

From S2P Require Import Prelude GoSort GoBytes Model Scheduler Db Effects Lifecycle.
From S2P Require Import RunManager RunManagerProps RunSvcProps Cluster GoFmt GoFloat Backfill.

(** ** The counters *)

Definition accounted (s : Stats) : Z := Assigned s + SkippedNoStack s + SkippedNoFingerprint s + Errors s.

(** What one row does to the counters. *)
Record Counted (dry : bool) (s s' : Stats) : Prop := {
  ct_scanned : Scanned s' = Scanned s + 1;
  ct_dry : DryRun s' = DryRun s;
  ct_wet : dry = false -> accounted s' = accounted s + 1;
  ct_dry_assigned : dry = true -> Assigned s' = Assigned s /\ accounted s <= accounted s' <= accounted s + 1
}.

Lemma count_counted dry o s : (dry = true -> o <> RowAssigned) -> (dry = false -> o <> RowPreviewed) ->
  Counted dry s (count o s).
Proof.
  intros H1 H2. destruct s. split; unfold accounted; destruct o; cbn; try done; intros; subst;
    try (by destruct H1); try (by destruct H2); lia.
Qed.

(** A row is handled whatever the calls answer, and counted once; a dry run does
    not look at the cluster resolver or the assignment. *)
Lemma backfillRow_counts b row l w : exists l' w',
  backfillRow b row l w = (Ok l', w') /\ Counted (b_DryRun b) (l_stats l) (l_stats l').
Proof.
  unfold backfillRow, cachedStack.
  assert (Hcs : exists cs w1, (match l_stackCache l !! TraceID row with
      | Some cs => retM cs | None => tryM (sm_StackFor (b_Seams b) (TraceID row)) end) w = (Ok cs, w1)).
  { destruct (l_stackCache l !! TraceID row); [by do 2 eexists|].
    destruct (sm_StackFor (b_Seams b) (TraceID row) w) as [cs w1] eqn:E. exists cs, w1. by apply tryM_eq. }
  destruct Hcs as (cs & w1 & Hcs). rewrite (bindM_ok _ _ _ _ _ Hcs). unfold done.
  destruct cs as [[stack message]|e]; [|do 2 eexists; split; [reflexivity|by apply count_counted]].
  destruct (String.eqb stack ""); [do 2 eexists; split; [reflexivity|by apply count_counted]|].
  destruct (b_DryRun b) eqn:Ed.
  { destruct (String.eqb (FingerprintStack stack).1 ""); do 2 eexists;
      (split; [reflexivity|]); by apply count_counted. }
  unfold cachedCluster. cbn [l_clusterCache].
  assert (Hcl : exists cl w2, (match l_clusterCache l !! TraceID row with
      | Some id => retM (Ok id) | None => tryM (sm_ClusterFor (b_Seams b) (RepoID row) stack message) end) w1 = (Ok cl, w2)).
  { destruct (l_clusterCache l !! TraceID row); [by do 2 eexists|].
    destruct (sm_ClusterFor (b_Seams b) (RepoID row) stack message w1) as [cl w2] eqn:E. exists cl, w2. by apply tryM_eq. }
  destruct Hcl as (cl & w2 & Hcl). rewrite (bindM_ok _ _ _ _ _ Hcl).
  destruct cl as [clusterID|e]; [|do 2 eexists; split; [reflexivity|by apply count_counted]].
  destruct (String.eqb clusterID ""); [do 2 eexists; split; [reflexivity|by apply count_counted]|].
  destruct (sm_AssignCluster (b_Seams b) (ExecID row) clusterID w2) as [a w3] eqn:Ea.
  rewrite (bindM_ok _ _ _ _ _ (tryM_eq _ _ _ _ Ea)).
  destruct a; do 2 eexists; (split; [reflexivity|by apply count_counted]).
Qed.

Record CountedAll (dry : bool) (n : Z) (s s' : Stats) : Prop := {
  ca_scanned : Scanned s' = Scanned s + n;
  ca_dry : DryRun s' = DryRun s;
  ca_wet : dry = false -> accounted s' = accounted s + n;
  ca_dry_assigned : dry = true -> Assigned s' = Assigned s /\ accounted s <= accounted s' <= accounted s + n
}.

Lemma backfillLoop_counts b rows l w : exists l' w',
  backfillLoop b rows l w = (Ok l', w') /\ CountedAll (b_DryRun b) (Z.of_nat (length rows)) (l_stats l) (l_stats l').
Proof.
  revert l w. induction rows as [|row rows IH]; intros l w.
  { do 2 eexists. split; [reflexivity|]. split; cbn; intros; lia || done || (split; [done|lia]). }
  destruct (backfillRow_counts b row l w) as (l1 & w1 & H1 & [A1 A2 A3 A4]).
  destruct (IH l1 w1) as (l2 & w2 & H2 & [B1 B2 B3 B4]).
  exists l2, w2. split; [cbn [backfillLoop]; by rewrite (bindM_ok _ _ _ _ _ H1)|].
  split; cbn [length]; rewrite ?Nat2Z.inj_succ.
  - lia.
  - congruence.
  - intros Hd. specialize (A3 Hd). specialize (B3 Hd). lia.
  - intros Hd. specialize (A4 Hd) as [? ?]. specialize (B4 Hd) as [? ?]. split; [congruence|lia].
Qed.

Definition sameReads (s s' : Seams) : Prop :=
  sm_PendingFailures s = sm_PendingFailures s' /\ sm_StackFor s = sm_StackFor s'.

Lemma backfillRow_dry s s' since row l w : sameReads s s' ->
  backfillRow (mkBackfiller s true since) row l w = backfillRow (mkBackfiller s' true since) row l w.
Proof.
  intros [_ H]. unfold backfillRow, cachedStack, bindM. cbn [b_Seams b_DryRun]. rewrite H.
  destruct (_ w) as [[cs|e] w1]; [|done]. destruct cs as [[stack message]|e]; [|done].
  by destruct (String.eqb stack "").
Qed.

Lemma backfillLoop_dry s s' since rows l w : sameReads s s' ->
  backfillLoop (mkBackfiller s true since) rows l w = backfillLoop (mkBackfiller s' true since) rows l w.
Proof.
  intros H. revert l w. induction rows as [|row rows IH]; intros l w; [done|]. cbn [backfillLoop].
  unfold bindM. rewrite (backfillRow_dry s s' since row l w H). by destruct (backfillRow _ row l w) as [[l'|e] w'].
Qed.

(** A backfill fails only when the scan for candidates fails; otherwise,
    whatever the stack source, the cluster resolver and the database answer, it
    ends with every candidate scanned and counted exactly once as assigned,
    without a stack, without a fingerprint or as an error; a dry run assigns
    none and does not depend on the cluster resolver or the assignment at all. *)
Theorem RunBackfill_accounts b w :
  match sm_PendingFailures (b_Seams b) (b_Since b) w with
  | (Err e, w1) => RunBackfill b w = (Err (ErrWrap "backfill scan pending failures" e), w1)
  | (Ok rows, _) => exists s w', RunBackfill b w = (Ok s, w')
      /\ Scanned s = Z.of_nat (length rows) /\ DryRun s = b_DryRun b
      /\ (b_DryRun b = false -> accounted s = Scanned s)
      /\ (b_DryRun b = true -> Assigned s = 0 /\ accounted s <= Scanned s
           /\ forall s', sameReads (b_Seams b) s' -> RunBackfill (mkBackfiller s' true (b_Since b)) w = RunBackfill b w)
  end.
Proof.
  unfold RunBackfill. destruct (sm_PendingFailures (b_Seams b) (b_Since b) w) as [[rows|e] w1] eqn:E.
  - destruct (backfillLoop_counts b rows (initLoop b) w1) as (l & w' & Hl & [H1 H2 H3 H4]).
    exists (finish l), w'. rewrite (bindM_ok _ _ _ _ _ (wrapM_ok _ _ _ _ _ E)), (bindM_ok _ _ _ _ _ Hl).
    cbn [initLoop l_stats Scanned Assigned DryRun accounted] in *. unfold accounted in *. cbn in H1, H2, H3, H4 |- *.
    split_and!; try done.
    + intros Hd. rewrite H1, H3 by done. lia.
    + intros Hd. destruct (H4 Hd) as [Ha Hb]. split_and!; [done|lia|]. intros s' Hs'.
      destruct b as [s dry since]. cbn in Hd, E, Hs', Hl |- *. subst dry. destruct Hs' as [Hp Hst]. rewrite <-Hp.
      rewrite (bindM_ok _ _ _ _ _ (wrapM_ok _ _ _ _ _ E)). unfold bindM.
      pose proof (backfillLoop_dry s s' since rows (initLoop (mkBackfiller s true since)) w1 (conj Hp Hst)) as Hloop.
      change (initLoop (mkBackfiller s' true since)) with (initLoop (mkBackfiller s true since)).
      rewrite <-Hloop, Hl. reflexivity.
  - apply bindM_err. unfold wrapM. by rewrite E.
Qed.

(** ** Paging *)

Lemma idLt_asym a b : idLt a b = true -> idLt b a = false.
Proof.
  unfold idLt. intros H. destruct (bytesLt (bytesOf b) (bytesOf a)) eqn:E; [|done].
  pose proof (bytesLt_trans _ _ _ H E) as K. by rewrite bytesLt_irrefl in K.
Qed.

Lemma idLt_total a b : idLt a b = false -> idLt b a = false -> a = b.
Proof.
  intros H1 H2. pose proof (bytesLt_total _ _ H1 H2) as H. rewrite <-(stringOf_bytesOf a), <-(stringOf_bytesOf b).
  by rewrite H.
Qed.

Lemma idLt_le_trans a b c : idLt b a = false -> idLt c b = false -> idLt c a = false.
Proof.
  intros H1 H2. destruct (idLt c a) eqn:E; [|done].
  destruct (idLt a b) eqn:Eab.
  - unfold idLt in *. by rewrite (bytesLt_trans _ _ _ E Eab) in H2.
  - rewrite (idLt_total a b Eab H1) in E. congruence.
Qed.

Definition before (x y : ExecRow) : Prop := idLt (ExecID x) (ExecID y) = true.

Lemma sorted_rows rows : NoDup (ExecID <$> rows) -> StronglySorted before (SliceStable execLess rows).
Proof.
  intros Hnd.
  assert (Hs : StronglySorted (notAfter execLess) (SliceStable execLess rows)).
  { apply SliceStable_sorted.
    - intros x y. apply idLt_asym.
    - intros x y z. unfold notAfter, execLess. apply idLt_le_trans. }
  assert (Hnd' : NoDup (ExecID <$> SliceStable execLess rows)) by (by rewrite SliceStable_perm).
  induction Hs as [|x l Hl IH Hx]; [constructor|]. cbn [fmap list_fmap] in Hnd'. apply NoDup_cons in Hnd' as [Hn Hnd'].
  constructor; [by apply IH|]. apply Forall_forall. intros y Hy. rewrite Forall_forall in Hx. specialize (Hx y Hy).
  unfold before. destruct (idLt (ExecID x) (ExecID y)) eqn:E; [done|]. exfalso. apply Hn.
  rewrite (idLt_total _ _ E Hx). by apply list_elem_of_fmap_2.
Qed.

(** The rows after a cursor that lies between the two parts of the list. *)
Lemma filter_after cursor done rest :
  Forall (fun e => idLt cursor (ExecID e) = false) done -> Forall (fun e => idLt cursor (ExecID e) = true) rest ->
  List.filter (fun e => idLt cursor (ExecID e)) (done ++ rest) = rest.
Proof.
  intros H1 H2. rewrite List.filter_app.
  assert (List.filter (fun e => idLt cursor (ExecID e)) done = []) as ->.
  { induction H1 as [|e l He Hl IH]; [done|]. cbn. by rewrite He. }
  induction H2 as [|e l He Hl IH]; [done|]. cbn in IH |- *. by rewrite He, IH.
Qed.

Section paging.
Context (db : DB) (now : Z) (u : nat -> string) (held : gset Z) (ag : AgentState) (n : nat) (out : list Output).
Context (secs : Z).

Let L := SliceStable execLess (pendingRows secs now db).

Lemma page_quiet cursor : pendingFailuresPage secs cursor (QW db None now u n held out ag)
  = (let page := take pendingFailuresPageSize (List.filter (fun e => idLt cursor (ExecID e)) L) in
     Ok (page, match last page with Some e => ExecID e | None => "" end), QW db None now u n held out ag).
Proof. unfold pendingFailuresPage. erewrite bindM_ok; [|apply wrapM_ok; reflexivity]. reflexivity. Qed.

Lemma sorted_split (l1 l2 : list ExecRow) e : StronglySorted before (l1 ++ l2) -> last l1 = Some e ->
  Forall (fun x => idLt (ExecID e) (ExecID x) = false) l1 /\ Forall (fun x => idLt (ExecID e) (ExecID x) = true) l2.
Proof.
  intros Hs Hl. apply last_Some in Hl as [l1' ->]. rewrite <-app_assoc in Hs. simpl in Hs.
  assert (He : Forall (fun x => before x e) l1' /\ Forall (before e) l2).
  { induction l1' as [|x l1' IH]; simpl in Hs.
    - apply StronglySorted_inv in Hs as [_ Hs]. done.
    - apply StronglySorted_inv in Hs as [Hs Hx]. destruct (IH Hs) as [H1 H2]. split; [|done].
      constructor; [|done]. rewrite Forall_forall in Hx. apply Hx. apply elem_of_app. right. by left. }
  destruct He as [H1 H2]. split; [|exact H2]. apply Forall_app. split.
  - eapply Forall_impl; [exact H1|]. intros x Hx. by apply idLt_asym.
  - repeat constructor. unfold idLt. apply bytesLt_irrefl.
Qed.

Lemma pendingLoop_quiet fuel cursor done rest acc : L = done ++ rest -> StronglySorted before L ->
  Forall (fun e => idLt cursor (ExecID e) = false) done -> Forall (fun e => idLt cursor (ExecID e) = true) rest ->
  (length rest < fuel * pendingFailuresPageSize)%nat ->
  pendingLoop fuel secs cursor acc (QW db None now u n held out ag)
  = (Ok (acc ++ rest), QW db None now u n held out ag).
Proof.
  assert (HK : (0 < pendingFailuresPageSize)%nat) by (unfold pendingFailuresPageSize; lia).
  revert cursor done rest acc. induction fuel as [|fuel IH]; intros cursor done rest acc HL Hs Hd Hr Hf; [lia|].
  cbn [pendingLoop]. rewrite (bindM_ok _ _ _ _ _ (page_quiet cursor)). cbv zeta beta iota.
  rewrite HL, (filter_after _ _ _ Hd Hr). destruct (Nat.ltb_spec (length (take pendingFailuresPageSize rest)) pendingFailuresPageSize) as [Hlt|Hge].
  - rewrite length_take in Hlt. rewrite take_ge by lia. reflexivity.
  - rewrite length_take in Hge.
    assert (Hl : exists e, last (take pendingFailuresPageSize rest) = Some e).
    { destruct (last (take pendingFailuresPageSize rest)) as [e|] eqn:E; [by exists e|].
      apply last_None in E. apply (f_equal length) in E. rewrite length_take in E. cbn [length] in E. clear - E HK Hge. lia. }
    destruct Hl as [e He]. rewrite He.
    rewrite (IH (ExecID e) (done ++ take pendingFailuresPageSize rest) (drop pendingFailuresPageSize rest)).
    + by rewrite <-app_assoc, take_drop.
    + by rewrite <-app_assoc, take_drop.
    + done.
    + assert (Hlast : last (done ++ take pendingFailuresPageSize rest) = Some e).
      { rewrite last_app, He. done. }
      destruct (sorted_split (done ++ take pendingFailuresPageSize rest) (drop pendingFailuresPageSize rest) e) as [H1 _];
        [by rewrite <-app_assoc, take_drop, <-HL|done|exact H1].
    + assert (Hlast : last (done ++ take pendingFailuresPageSize rest) = Some e).
      { rewrite last_app, He. done. }
      destruct (sorted_split (done ++ take pendingFailuresPageSize rest) (drop pendingFailuresPageSize rest) e) as [_ H2];
        [by rewrite <-app_assoc, take_drop, <-HL|done|exact H2].
    + rewrite length_drop. lia.
Qed.
End paging.

(** The primary key of test_executions, and no nil uuid. *)
Record ExecIds (db : DB) : Prop := {
  ei_unique : forall k k' e e', test_executions db !! k = Some e -> test_executions db !! k' = Some e' ->
    ex_id e = ex_id e' -> k = k';
  ei_not_nil : forall k e, test_executions db !! k = Some e -> idLt zeroUUID (ex_id e) = true
}.

Lemma pendingRow_id secs now db kv x : pendingRow secs now db kv = Some x -> ExecID x = ex_id kv.2.
Proof.
  unfold pendingRow. destruct (shards db !! kv.1.1.1) as [sh|]; [|done]. destruct (runs db !! s_run_id sh); [|done].
  cbv zeta. destruct (_ && _); [|done]. by intros [= <-].
Qed.

Lemma pendingRows_elem secs now db x : x ∈ pendingRows secs now db ->
  exists k e, test_executions db !! k = Some e /\ ExecID x = ex_id e.
Proof.
  unfold pendingRows. intros ([k e] & Hin%elem_of_map_to_list & H%pendingRow_id)%list_elem_of_omap. by exists k, e.
Qed.

Lemma NoDup_omap {A B C} (f : A -> option B) (g : B -> C) (l : list A) :
  NoDup l -> (forall x y a b, x ∈ l -> y ∈ l -> f x = Some a -> f y = Some b -> g a = g b -> x = y) ->
  NoDup (g <$> omap f l).
Proof.
  induction 1 as [|x l Hx Hl IH]; intros H; cbn; [constructor|].
  assert (IH' : NoDup (g <$> omap f l)) by (apply IH; intros y z a b Hy Hz; apply H; by right).
  destruct (f x) as [a|] eqn:E; cbn; [|exact IH']. apply NoDup_cons. split; [|exact IH'].
  intros (b & Eb & (y & Hy & Hfy)%list_elem_of_omap)%list_elem_of_fmap.
  apply Hx. by rewrite (H x y a b ltac:(by left) ltac:(by right) E Hfy Eb).
Qed.

Lemma pendingRows_NoDup secs now db : ExecIds db -> NoDup (ExecID <$> pendingRows secs now db).
Proof.
  intros [Hu _]. apply NoDup_omap; [apply NoDup_map_to_list|].
  intros [k e] [k' e'] a b Hk%elem_of_map_to_list Hk'%elem_of_map_to_list Ha%pendingRow_id Hb%pendingRow_id E.
  cbn in Ha, Hb. assert (k = k') as -> by (eapply Hu; [exact Hk|exact Hk'|congruence]). congruence.
Qed.

(** C10: The paged scan is the whole scan: with enough fuel for the number of
    candidates, fetching pages of 5000 by keyset ends and returns every pending
    execution exactly once, in the order of the ids, and changes nothing. *)
Theorem PendingFailures_complete db now u held ag n out fuel since :
  let candidates := pendingRows (f64_trunc (Seconds since)) now db in
  ExecIds db -> (length candidates < fuel * pendingFailuresPageSize)%nat ->
  exists rows, PendingFailures fuel since (QW db None now u n held out ag) = (Ok rows, QW db None now u n held out ag)
    /\ rows ≡ₚ candidates /\ NoDup (ExecID <$> rows) /\ StronglySorted before rows.
Proof.
  cbv zeta. intros Hids Hf. set (secs := f64_trunc (Seconds since)) in *.
  pose proof (pendingRows_NoDup secs now db Hids) as Hnd. pose proof (sorted_rows _ Hnd) as Hs.
  exists (SliceStable execLess (pendingRows secs now db)).
  split_and!; [|apply SliceStable_perm|by rewrite SliceStable_perm|done].
  unfold PendingFailures. fold secs.
  rewrite (pendingLoop_quiet db now u held ag n out secs fuel zeroUUID []
    (SliceStable execLess (pendingRows secs now db)) []); [done|done|done|constructor| |].
  - apply Forall_forall. intros x Hx. rewrite SliceStable_perm in Hx.
    apply pendingRows_elem in Hx as (k & e & Hin & ->). by eapply ei_not_nil.
  - by rewrite SliceStable_perm.
Qed.

(** ** A concrete scan *)

Module BackfillDemo.
Definition failedExec (id : string) : exec_row := mkExecRow id "failed" 5 (Some "trace") 100 105 None None.
Definition db : DB :=
  mkDB {[ "repo" := mkRepoRow "github" "acme/app" true true ]}
    {[ "run" := mkRunRow "repo" "c" "main" "api" None None "running" None None None None 0
                  (mkRunMeta None None None None ∅ None None) 0 0 None None None 0 0 ]} ∅
    {[ "s" := mkShardRow "run" 0 None 0 "running" 2 None None 0 None None ]}
    ∅ (<[("s", "x", 1) := failedExec "b"]> {[ ("s", "y", 1) := failedExec "a" ]}) ∅ ∅ ∅ ∅.

Lemma ids : ExecIds db.
Proof.
  assert (H : forall k e, test_executions db !! k = Some e ->
    (k = ("s", "x", 1) /\ e = failedExec "b") \/ (k = ("s", "y", 1) /\ e = failedExec "a")).
  { intros k e. unfold db. cbn [test_executions]. rewrite lookup_insert_Some, lookup_singleton_Some.
    intros [[<- <-]|[_ [<- <-]]]; auto. }
  split.
  - intros k k' e e' [[-> ->]|[-> ->]]%H [[-> ->]|[-> ->]]%H; done.
  - intros k e [[-> ->]|[-> ->]]%H; reflexivity.
Qed.
End BackfillDemo.

Lemma PendingFailures_complete_witness : exists rows w,
  PendingFailures 1 0 (QW BackfillDemo.db None 200 (fun _ => "") 0 ∅ [] idleAgent) = (Ok rows, w)
  /\ (ExecID <$> rows) ≡ₚ ["a"; "b"].
Proof.
  destruct (PendingFailures_complete BackfillDemo.db 200 (fun _ => "") ∅ idleAgent 0 [] 1 0) as (rows & H1 & H2 & _).
  - apply BackfillDemo.ids.
  - assert (length (pendingRows (f64_trunc (Seconds 0)) 200 BackfillDemo.db) = 2%nat) as -> by (vm_compute; reflexivity).
    unfold pendingFailuresPageSize. lia.
  - exists rows, (QW BackfillDemo.db None 200 (fun _ => "") 0 ∅ [] idleAgent). split; [exact H1|].
    rewrite H2. vm_compute. by apply Permutation_refl || apply perm_swap.
Defined.
