(* ===== verification/Hub.v ===== *)
(** * internal/api/subscriptions.go

    The subscription hub: its heap of fan-outs and channels, the operations that
    run under its mutex, and the goroutines around them as a step relation whose
    steps carry their events.  A Go panic (send on or close of a closed channel) is
    a flag of the state. *)

From S2P Require Import Prelude Model.

(** A snapshot: the run it was read for, the status, which the hub looks at, and
    the rest of the row. *)
Record snapshotRow := mkSnapshotRow {
  sn_run : string;
  sn_status : string;
  sn_row : Z
}.

Definition isTerminalRunStatus (s : string) : bool :=
  String.eqb s RunSucceeded || String.eqb s RunFailed || String.eqb s RunCancelled.

(** ** Channels *)

(** A channel with a buffer of one. *)
Record chanState := mkChan {
  ch_buf : option snapshotRow;
  ch_closed : bool
}.

Definition newChan : chanState := mkChan None false.

(** [trySend]: the buffer holds the new snapshot afterwards, whatever it held.
    [None] is the panic of a send on a closed channel. *)
Definition trySend (v : snapshotRow) (c : chanState) : option chanState :=
  if ch_closed c then None else Some (mkChan (Some v) false).

Definition closeChan (c : chanState) : option chanState :=
  if ch_closed c then None else Some (mkChan (ch_buf c) true).

(** ** The hub *)

(** A [runFanout]; subscribers are the numbers of their channels. *)
Record runFanout := mkFanout {
  rf_subs : gset nat;
  rf_notify : bool;
  rf_cancelled : bool
}.

Record Hub := mkHub {
  h_runs : gmap string nat;
  h_fanouts : gmap nat runFanout;
  h_chans : gmap nat chanState;
  h_active : Z;
  h_pushes : Z;
  h_panicked : bool
}.

Definition emptyHub : Hub := mkHub ∅ ∅ ∅ 0 0 false.

Definition h_set_chan (s : nat) (o : option chanState) (h : Hub) : Hub :=
  match o with
  | Some c => mkHub (h_runs h) (h_fanouts h) (<[s := c]> (h_chans h)) (h_active h) (h_pushes h) (h_panicked h)
  | None => mkHub (h_runs h) (h_fanouts h) (h_chans h) (h_active h) (h_pushes h) true
  end.
Definition h_set_fanout (f : nat) (rf : runFanout) (h : Hub) : Hub :=
  mkHub (h_runs h) (<[f := rf]> (h_fanouts h)) (h_chans h) (h_active h) (h_pushes h) (h_panicked h).
Definition h_set_runs (r : gmap string nat) (h : Hub) : Hub :=
  mkHub r (h_fanouts h) (h_chans h) (h_active h) (h_pushes h) (h_panicked h).
Definition h_add_active (n : Z) (h : Hub) : Hub :=
  mkHub (h_runs h) (h_fanouts h) (h_chans h) (h_active h + n) (h_pushes h) (h_panicked h).
Definition h_add_pushes (n : Z) (h : Hub) : Hub :=
  mkHub (h_runs h) (h_fanouts h) (h_chans h) (h_active h) (h_pushes h + n) (h_panicked h).

(** The fan-out of a run, with its address. *)
Definition fanoutOf (runID : string) (h : Hub) : option (nat * runFanout) :=
  match h_runs h !! runID with
  | Some f => (fun rf => (f, rf)) <$> h_fanouts h !! f
  | None => None
  end.

Definition poke (runID : string) (h : Hub) : Hub :=
  match fanoutOf runID h with
  | None => h
  | Some (f, rf) => h_set_fanout f (mkFanout (rf_subs rf) true (rf_cancelled rf)) h
  end.

(** The part of [Subscribe] under the lock: [s] is the new channel, [f] the
    address of a new fan-out; says whether a loop is started. *)
Definition register (runID : string) (s f : nat) (h : Hub) : Hub * bool :=
  let h := h_set_chan s (Some newChan) h in
  match fanoutOf runID h with
  | None =>
      (h_set_runs (<[runID := f]> (h_runs h)) (h_set_fanout f (mkFanout {[ s ]} false false) h), true)
  | Some (g, rf) => (h_set_fanout g (mkFanout ({[ s ]} ∪ rf_subs rf) (rf_notify rf) (rf_cancelled rf)) h, false)
  end.

Definition sendTo (v : snapshotRow) (s : nat) (h : Hub) : Hub :=
  match h_chans h !! s with
  | Some c => h_set_chan s (trySend v c) h
  | None => h
  end.

Definition closeSub (s : nat) (h : Hub) : Hub :=
  match h_chans h !! s with
  | Some c => h_add_active (-1) (h_set_chan s (closeChan c) h)
  | None => h
  end.

Definition fanout (runID : string) (v : snapshotRow) (h : Hub) : Hub :=
  match fanoutOf runID h with
  | None => h
  | Some (_, rf) => foldr (fun s h => h_add_pushes 1 (sendTo v s h)) h (elements (rf_subs rf))
  end.

Definition cancelRun (runID : string) (f : nat) (rf : runFanout) (h : Hub) : Hub :=
  h_set_runs (delete runID (h_runs h)) (h_set_fanout f (mkFanout (rf_subs rf) (rf_notify rf) true) h).

Definition closeRun (runID : string) (h : Hub) : Hub :=
  match fanoutOf runID h with
  | None => h
  | Some (f, rf) => cancelRun runID f rf (foldr closeSub h (elements (rf_subs rf)))
  end.

Definition unsubscribe (runID : string) (s : nat) (h : Hub) : Hub :=
  match fanoutOf runID h with
  | None => h
  | Some (f, rf) =>
      if negb (bool_decide (s ∈ rf_subs rf)) then h
      else
        let rf := mkFanout (rf_subs rf ∖ {[ s ]}) (rf_notify rf) (rf_cancelled rf) in
        let h := closeSub s (h_set_fanout f rf h) in
        if bool_decide (rf_subs rf = ∅) then cancelRun runID f rf h else h
  end.

(** ** The goroutines *)

(** A loop waits, or has read a snapshot, or is about to close its run. *)
Inductive loopPhase := LWait | LRead (v : snapshotRow) | LClose.

(** A [Subscribe] call after the lock: it counts the subscriber, reads a snapshot
    and sends it. *)
Inductive subPhase := SRegistered | SCounted | SRead (v : snapshotRow) | SReturned.

Record Sys := mkSys {
  sy_hub : Hub;
  sy_loops : gmap nat (string * loopPhase);
  sy_subs : gmap nat (string * subPhase)
}.

Definition initSys : Sys := mkSys emptyHub ∅ ∅.

Definition h_clear_notify (f : nat) (h : Hub) : Hub :=
  match h_fanouts h !! f with
  | Some rf => h_set_fanout f (mkFanout (rf_subs rf) false (rf_cancelled rf)) h
  | None => h
  end.

(** What a step does for the clients: a subscription begins; its initial snapshot
    is sent, or could not be read; a snapshot goes to the subscribers of a run; a
    client takes a snapshot; a client is gone; a run's subscriptions end. *)
Inductive hubEvent :=
  | EvSubscribe (r : string) (s : nat)
  | EvSend (s : nat) (v : snapshotRow)
  | EvNoSnapshot (s : nat)
  | EvPublish (r : string) (v : snapshotRow)
  | EvReceive (s : nat) (v : snapshotRow)
  | EvLeave (r : string) (s : nat)
  | EvEnd (r : string).

(** One step of a goroutine, with the event it is.  What a snapshot read returns
    is any row of the run asked for, or nothing when it fails; loops are named by
    the address of their fan-out.  A send is one step: the two tries of [trySend]
    are not split.  A channel that is closed still gives what its buffer holds. *)
Inductive lstep : Sys -> option hubEvent -> Sys -> Prop :=
  | step_poke sy runID : lstep sy None (mkSys (poke runID (sy_hub sy)) (sy_loops sy) (sy_subs sy))
  | step_subscribe sy runID s f h started :
      s ∉ dom (h_chans (sy_hub sy)) -> f ∉ dom (h_fanouts (sy_hub sy)) ->
      register runID s f (sy_hub sy) = (h, started) ->
      lstep sy (Some (EvSubscribe runID s))
        (mkSys h (if started : bool then <[f := (runID, LWait)]> (sy_loops sy) else sy_loops sy)
           (<[s := (runID, SRegistered)]> (sy_subs sy)))
  | step_count sy s runID : sy_subs sy !! s = Some (runID, SRegistered) ->
      lstep sy None (mkSys (h_add_active 1 (sy_hub sy)) (sy_loops sy) (<[s := (runID, SCounted)]> (sy_subs sy)))
  | step_initial_read sy s runID v : sy_subs sy !! s = Some (runID, SCounted) -> sn_run v = runID ->
      lstep sy None (mkSys (sy_hub sy) (sy_loops sy) (<[s := (runID, SRead v)]> (sy_subs sy)))
  | step_initial_fail sy s runID : sy_subs sy !! s = Some (runID, SCounted) ->
      lstep sy (Some (EvNoSnapshot s)) (mkSys (sy_hub sy) (sy_loops sy) (<[s := (runID, SReturned)]> (sy_subs sy)))
  | step_initial_send sy s runID v : sy_subs sy !! s = Some (runID, SRead v) ->
      lstep sy (Some (EvSend s v)) (mkSys (sendTo v s (sy_hub sy)) (sy_loops sy) (<[s := (runID, SReturned)]> (sy_subs sy)))
  | step_client_done sy s runID : sy_subs sy !! s = Some (runID, SReturned) ->
      lstep sy (Some (EvLeave runID s)) (mkSys (unsubscribe runID s (sy_hub sy)) (sy_loops sy) (delete s (sy_subs sy)))
  | step_receive sy s v cl : h_chans (sy_hub sy) !! s = Some (mkChan (Some v) cl) ->
      lstep sy (Some (EvReceive s v)) (mkSys (h_set_chan s (Some (mkChan None cl)) (sy_hub sy)) (sy_loops sy) (sy_subs sy))
  | step_loop_exit sy f runID rf : sy_loops sy !! f = Some (runID, LWait) ->
      h_fanouts (sy_hub sy) !! f = Some rf -> rf_cancelled rf = true ->
      lstep sy None (mkSys (sy_hub sy) (delete f (sy_loops sy)) (sy_subs sy))
  | step_loop_read sy f runID v : sy_loops sy !! f = Some (runID, LWait) -> sn_run v = runID ->
      lstep sy None (mkSys (h_clear_notify f (sy_hub sy)) (<[f := (runID, LRead v)]> (sy_loops sy)) (sy_subs sy))
  | step_loop_retry sy f runID : sy_loops sy !! f = Some (runID, LWait) ->
      lstep sy None (mkSys (h_clear_notify f (sy_hub sy)) (sy_loops sy) (sy_subs sy))
  | step_loop_fanout sy f runID v : sy_loops sy !! f = Some (runID, LRead v) ->
      lstep sy (Some (EvPublish runID v)) (mkSys (fanout runID v (sy_hub sy))
        (<[f := (runID, if isTerminalRunStatus (sn_status v) then LClose else LWait)]> (sy_loops sy)) (sy_subs sy))
  | step_loop_close sy f runID : sy_loops sy !! f = Some (runID, LClose) ->
      lstep sy (Some (EvEnd runID)) (mkSys (closeRun runID (sy_hub sy)) (delete f (sy_loops sy)) (sy_subs sy)).

Definition sstep (sy sy' : Sys) : Prop := exists l, lstep sy l sy'.

(** An execution from the start, with its events in their order. *)
Inductive execution : list hubEvent -> Sys -> Prop :=
  | exec_init : execution [] initSys
  | exec_silent es sy sy' : execution es sy -> lstep sy None sy' -> execution es sy'
  | exec_event es sy e sy' : execution es sy -> lstep sy (Some e) sy' -> execution (es ++ [e]) sy'.
