(* ===== verification/HubProps.v ===== *)
(** * The subscription hub: invariants

    [wf] is what every reachable state of the hub satisfies: a channel is open
    exactly while its subscriber is registered, a registered subscriber's run has
    a running loop, and the gauge counts the open channels. *)

From S2P Require Import Prelude Model Hub.

(** ** Channels under the operations *)

Definition isOpen (c : chanState) : bool := negb (ch_closed c).

(** The effect of a send and of a close on a channel, panics aside. *)
Definition sent (v : snapshotRow) (c : chanState) : chanState :=
  if ch_closed c then c else mkChan (Some v) false.
Definition closed (c : chanState) : chanState := mkChan (ch_buf c) true.

Definition openChan (h : Hub) (s : nat) : Prop := exists c, h_chans h !! s = Some c /\ ch_closed c = false.

(** [h'] differs from [h] in its channels, counters and panic flag only. *)
Definition sameRuns (h h' : Hub) : Prop := h_runs h' = h_runs h /\ h_fanouts h' = h_fanouts h.

Lemma sameRuns_trans h1 h2 h3 : sameRuns h1 h2 -> sameRuns h2 h3 -> sameRuns h1 h3.
Proof. intros [? ?] [? ?]. split; congruence. Qed.

Lemma sendTo_runs v s h : sameRuns h (sendTo v s h).
Proof. unfold sendTo, h_set_chan. split; repeat case_match; reflexivity. Qed.

Lemma closeSub_runs s h : sameRuns h (closeSub s h).
Proof. unfold closeSub, h_set_chan. split; repeat case_match; reflexivity. Qed.

Lemma sendTo_chans v s h i :
  h_chans (sendTo v s h) !! i = (if decide (i = s) then sent v <$> h_chans h !! i else h_chans h !! i).
Proof.
  unfold sendTo, trySend, sent. destruct (h_chans h !! s) as [c|] eqn:E.
  - destruct (ch_closed c) eqn:Ec; cbn; case_decide; subst; simplify_map_eq; rewrite ?E; cbn; rewrite ?Ec; auto.
  - case_decide; subst; rewrite ?E; auto.
Qed.

Lemma closeSub_chans s h i :
  h_chans (closeSub s h) !! i = (if decide (i = s) then closed <$> h_chans h !! i else h_chans h !! i).
Proof.
  unfold closeSub, closeChan, closed. destruct (h_chans h !! s) as [c|] eqn:E.
  - destruct c as [b []]; cbn; case_decide; subst; simplify_map_eq; rewrite ?E; auto.
  - case_decide; subst; rewrite ?E; auto.
Qed.

(** A pass over a list of channels with an operation of that kind. *)
Section Pass.
Context (op : nat -> Hub -> Hub) (eff : chanState -> chanState).
Hypothesis op_runs : forall s h, sameRuns h (op s h).
Hypothesis op_chans : forall s h i,
  h_chans (op s h) !! i = (if decide (i = s) then eff <$> h_chans h !! i else h_chans h !! i).
Hypothesis eff_idem : forall c, eff (eff c) = eff c.

Lemma pass_runs l h : sameRuns h (foldr op h l).
Proof. induction l as [|s l IH]; [split; reflexivity | exact (sameRuns_trans _ _ _ IH (op_runs s _))]. Qed.

Lemma pass_chans l h i :
  h_chans (foldr op h l) !! i = (if decide (i ∈ l) then eff <$> h_chans h !! i else h_chans h !! i).
Proof.
  induction l as [|s l IH]; [reflexivity|]. cbn [foldr]. rewrite op_chans, IH.
  destruct (decide (i = s)) as [->|Hi].
  - rewrite (decide_True (P := s ∈ s :: l)) by left. case_decide; [|reflexivity].
    destruct (h_chans h !! s); cbn; rewrite ?eff_idem; reflexivity.
  - destruct (decide (i ∈ l)).
    + rewrite decide_True by (right; assumption). reflexivity.
    + rewrite decide_False; [reflexivity | intros [?|?]%elem_of_cons; contradiction].
Qed.
End Pass.

Lemma sent_idem v c : sent v (sent v c) = sent v c.
Proof. destruct c as [b []]; reflexivity. Qed.

Lemma closed_idem c : closed (closed c) = closed c.
Proof. reflexivity. Qed.

(** ** Counting the entries of a map *)

Section Count.
Context {V : Type} (P : V -> bool).

Definition countWhere (m : gmap nat V) : Z := Z.of_nat (size (filter (fun kv => P kv.2 = true) m)).
Definition weight (o : option V) : Z := match o with Some x => Z.b2z (P x) | None => 0 end.

Lemma filter_lookup_where (m : gmap nat V) i : filter (fun kv => P kv.2 = true) m !! i =
  match m !! i with Some x => if P x then Some x else None | None => None end.
Proof.
  destruct (m !! i) as [x|] eqn:E.
  - destruct (P x) eqn:Ep.
    + apply map_lookup_filter_Some. auto.
    + apply map_lookup_filter_None. right. intros y Hy. simplify_eq. cbn. congruence.
  - apply map_lookup_filter_None. auto.
Qed.

Lemma count_delete (m : gmap nat V) i : countWhere (delete i m) = countWhere m - weight (m !! i).
Proof.
  unfold countWhere, weight. rewrite map_filter_delete, map_size_delete, filter_lookup_where.
  destruct (m !! i) as [x|] eqn:E; [destruct (P x) eqn:Ep|]; cbn; try lia.
  assert (size (filter (fun kv => P kv.2 = true) m) <> 0%nat); [|lia].
  apply map_size_non_empty_iff. intros Hn.
  pose proof (filter_lookup_where m i) as Hl. rewrite Hn, E, Ep in Hl. discriminate.
Qed.

Lemma count_insert (m : gmap nat V) i x : countWhere (<[i := x]> m) = countWhere m - weight (m !! i) + Z.b2z (P x).
Proof.
  rewrite <- count_delete, <- insert_delete_eq. unfold countWhere.
  rewrite map_filter_insert. case_decide as Ep; cbn in Ep.
  - rewrite map_size_insert_None, Ep; [cbn [Z.b2z]; lia|].
    rewrite filter_lookup_where, lookup_delete_eq. reflexivity.
  - rewrite delete_delete_eq. apply not_true_is_false in Ep. rewrite Ep. cbn [Z.b2z]. lia.
Qed.
End Count.

(** ** The invariant *)

Definition liveSub (h : Hub) (r : string) (s : nat) : Prop :=
  exists f rf, fanoutOf r h = Some (f, rf) /\ s ∈ rf_subs rf.

(** What the loops and the hub agree on. *)
Definition loopsCover (h : Hub) (loops : gmap nat (string * loopPhase)) : Prop :=
  forall r f, h_runs h !! r = Some f ->
    exists rf ph, h_fanouts h !! f = Some rf /\ rf_cancelled rf = false /\ rf_subs rf ≠ ∅ /\
      loops !! f = Some (r, ph).

Definition isRegistered (p : string * subPhase) : bool :=
  match p.2 with SRegistered => true | _ => false end.

Record hub_ok (h : Hub) (loops : gmap nat (string * loopPhase)) : Prop := {
  ok_loops : loopsCover h loops;
  ok_open : forall s, openChan h s <-> exists r, liveSub h r s;
  ok_once : forall r1 r2 s, liveSub h r1 s -> liveSub h r2 s -> r1 = r2
}.

Definition gap (h : Hub) : Z := h_active h - countWhere isOpen (h_chans h).

Record wf (sy : Sys) : Prop := {
  wf_hub : hub_ok (sy_hub sy) (sy_loops sy);
  wf_subs : dom (sy_subs sy) ⊆ dom (h_chans (sy_hub sy));
  wf_gauge : gap (sy_hub sy) = - countWhere isRegistered (sy_subs sy)
}.

(** ** The operations of the hub *)

Lemma sendTo_gap v s h : gap (sendTo v s h) = gap h.
Proof.
  unfold gap, sendTo, trySend, h_set_chan. destruct (h_chans h !! s) as [[b []]|] eqn:E; cbn; try reflexivity.
  rewrite count_insert, E. cbn. lia.
Qed.

Lemma sendTo_panic v s h : openChan h s -> h_panicked (sendTo v s h) = h_panicked h.
Proof. intros (c & E & Ho). unfold sendTo, trySend. rewrite E, Ho. reflexivity. Qed.

Lemma closeSub_gap s h : openChan h s -> gap (closeSub s h) = gap h /\ h_panicked (closeSub s h) = h_panicked h.
Proof.
  intros ([b []] & E & Ho); [discriminate|]. unfold gap, closeSub, closeChan. rewrite E. cbn.
  rewrite count_insert, E. cbn. split; [lia|reflexivity].
Qed.

Lemma closeSubs_gap l h : NoDup l -> Forall (openChan h) l ->
  gap (foldr closeSub h l) = gap h /\ h_panicked (foldr closeSub h l) = h_panicked h.
Proof.
  induction 1 as [|s l Hs Hl IH]; intros Ho; [auto|]. apply Forall_cons in Ho as [Hos Ho].
  destruct (IH Ho) as [G1 G2]. cbn [foldr].
  assert (openChan (foldr closeSub h l) s) as Hs'.
  { destruct Hos as (c & E & Hc). exists c. split; [|assumption].
    rewrite (pass_chans _ closed closeSub_chans closed_idem). rewrite decide_False; assumption. }
  destruct (closeSub_gap s _ Hs') as [-> ->]. auto.
Qed.

Definition push (v : snapshotRow) (s : nat) (h : Hub) : Hub := h_add_pushes 1 (sendTo v s h).

Lemma push_runs v s h : sameRuns h (push v s h).
Proof. apply sendTo_runs. Qed.

Lemma push_chans v s h i :
  h_chans (push v s h) !! i = (if decide (i = s) then sent v <$> h_chans h !! i else h_chans h !! i).
Proof. apply sendTo_chans. Qed.

Lemma sent_open v h h' (l : list nat) :
  (forall i, h_chans h' !! i = (if decide (i ∈ l) then sent v <$> h_chans h !! i else h_chans h !! i)) ->
  forall s, openChan h' s <-> openChan h s.
Proof.
  intros Hc s. unfold openChan. rewrite Hc. case_decide; [|reflexivity].
  destruct (h_chans h !! s) as [[b c]|]; cbn; [|split; intros (? & ? & ?); discriminate].
  split; intros (c' & E & Ho); simplify_eq; destruct c; try discriminate; eexists; split; reflexivity.
Qed.

Lemma pushes_gap v l h : Forall (openChan h) l ->
  gap (foldr (push v) h l) = gap h /\ h_panicked (foldr (push v) h l) = h_panicked h.
Proof.
  induction l as [|s l IH]; intros Ho; [auto|]. apply Forall_cons in Ho as [Hos Ho].
  destruct (IH Ho) as [G1 G2]. cbn [foldr].
  assert (openChan (foldr (push v) h l) s) as Hs'.
  { eapply (sent_open v h _ l); [intros i|exact Hos].
    apply (pass_chans (push v) (sent v)); [apply push_chans | apply sent_idem]. }
  split; [|cbn; rewrite sendTo_panic by assumption; assumption].
  rewrite <- G1. apply (sendTo_gap v s).
Qed.

Lemma liveSub_same h h' : sameRuns h h' -> forall r s, liveSub h' r s <-> liveSub h r s.
Proof. intros [E1 E2] r s. unfold liveSub, fanoutOf. rewrite E1, E2. reflexivity. Qed.

Lemma fanoutOf_Some h r f rf :
  fanoutOf r h = Some (f, rf) <-> h_runs h !! r = Some f /\ h_fanouts h !! f = Some rf.
Proof.
  unfold fanoutOf. destruct (h_runs h !! r) as [g|]; [|split; [discriminate|intros [? _]; discriminate]].
  destruct (h_fanouts h !! g) as [rg|] eqn:E; cbn; split.
  - intros [= <- <-]. auto.
  - intros [[= ->] ?]. congruence.
  - discriminate.
  - intros [[= ->] ?]. congruence.
Qed.

Lemma cover_fanout h loops r f : loopsCover h loops -> h_runs h !! r = Some f ->
  exists rf, fanoutOf r h = Some (f, rf).
Proof. intros Hc E. destruct (Hc r f E) as (rf & _ & Hf & _). exists rf. apply fanoutOf_Some. auto. Qed.

Lemma cover_inj h loops r1 r2 f : loopsCover h loops ->
  h_runs h !! r1 = Some f -> h_runs h !! r2 = Some f -> r1 = r2.
Proof. intros Hc E1 E2. destruct (Hc _ _ E1) as (? & ? & ? & ? & ? & ?), (Hc _ _ E2) as (? & ? & ? & ? & ? & ?). congruence. Qed.

(** ** The invariant under the operations *)

Lemma hub_ok_same h h' loops : sameRuns h h' -> (forall s, openChan h' s <-> openChan h s) ->
  hub_ok h loops -> hub_ok h' loops.
Proof.
  intros Hs Ho [H1 H2 H3]. pose proof (liveSub_same h h' Hs) as Hl. split.
  - destruct Hs as [E1 E2]. unfold loopsCover. rewrite E1, E2. exact H1.
  - intros s. rewrite Ho, H2. setoid_rewrite Hl. reflexivity.
  - intros r1 r2 s. rewrite !Hl. apply H3.
Qed.

(** The loops may move on and stop, as long as those of registered runs stay. *)
Lemma hub_ok_loops h loops loops' :
  (forall r f ph, h_runs h !! r = Some f -> loops !! f = Some (r, ph) -> exists ph', loops' !! f = Some (r, ph')) ->
  hub_ok h loops -> hub_ok h loops'.
Proof.
  intros Hl [H1 H2 H3]. split; [|assumption..]. intros r f E.
  destruct (H1 r f E) as (rf & ph & E1 & E2 & E3 & E4). destruct (Hl r f ph E E4) as [ph' E5]. eauto 8.
Qed.

Lemma hub_ok_phase h loops f r ph ph' : loops !! f = Some (r, ph) -> hub_ok h loops ->
  hub_ok h (<[f := (r, ph')]> loops).
Proof.
  intros E. apply hub_ok_loops. intros r2 f2 ph2 _ E2. destruct (decide (f2 = f)) as [->|Hf].
  - rewrite E in E2. simplify_eq. rewrite lookup_insert_eq. eauto.
  - rewrite lookup_insert_ne by congruence. eauto.
Qed.

Lemma notify_ok h loops f rf rf' : h_fanouts h !! f = Some rf ->
  rf_subs rf' = rf_subs rf -> rf_cancelled rf' = rf_cancelled rf ->
  hub_ok h loops -> hub_ok (h_set_fanout f rf' h) loops.
Proof.
  intros Ef Es Ec [H1 H2 H3].
  assert (forall r s, liveSub (h_set_fanout f rf' h) r s <-> liveSub h r s) as Hl.
  { intros r s. unfold liveSub. setoid_rewrite fanoutOf_Some. cbn. split.
    - intros (g & rg & [E1 E2] & Hin). destruct (decide (g = f)) as [->|Hg].
      + rewrite lookup_insert_eq in E2. simplify_eq. exists f, rf. rewrite <- Es. auto.
      + rewrite lookup_insert_ne in E2 by congruence. eauto.
    - intros (g & rg & [E1 E2] & Hin). destruct (decide (g = f)) as [->|Hg].
      + exists f, rf'. rewrite lookup_insert_eq, Es. simplify_eq. auto.
      + exists g, rg. rewrite lookup_insert_ne by congruence. auto. }
  split.
  - intros r g E. destruct (H1 r g E) as (rg & ph & E1 & E2 & E3 & E4). cbn.
    destruct (decide (g = f)) as [->|Hg].
    + rewrite lookup_insert_eq. simplify_eq. exists rf', ph. rewrite Es, Ec. auto.
    + rewrite lookup_insert_ne by congruence. exists rg, ph. auto.
  - intros s. setoid_rewrite Hl. exact (H2 s).
  - intros r1 r2 s. rewrite !Hl. apply H3.
Qed.

Lemma poke_ok r h loops : hub_ok h loops -> hub_ok (poke r h) loops.
Proof.
  unfold poke. destruct (fanoutOf r h) as [[f rf]|] eqn:E; [|auto].
  apply fanoutOf_Some in E as [_ E]. eapply notify_ok; eauto.
Qed.

Lemma clear_ok f h loops : hub_ok h loops -> hub_ok (h_clear_notify f h) loops.
Proof.
  unfold h_clear_notify. destruct (h_fanouts h !! f) as [rf|] eqn:E; [|auto].
  eapply notify_ok; eauto.
Qed.

(** The channels of a run's subscribers, as a list. *)
Lemma live_elements h r f rf s : fanoutOf r h = Some (f, rf) ->
  liveSub h r s <-> s ∈ elements (rf_subs rf).
Proof.
  intros E. rewrite elem_of_elements. unfold liveSub. rewrite E. split; [|eauto].
  intros (? & ? & ? & ?). simplify_eq. assumption.
Qed.

Lemma subs_open h loops r f rf : hub_ok h loops -> fanoutOf r h = Some (f, rf) ->
  Forall (openChan h) (elements (rf_subs rf)).
Proof.
  intros [_ H2 _] E. apply Forall_forall. intros s Hs. apply H2. exists r.
  apply (live_elements h r f rf s E). assumption.
Qed.

Lemma fanout_unfold r v h f rf : fanoutOf r h = Some (f, rf) ->
  fanout r v h = foldr (push v) h (elements (rf_subs rf)).
Proof. intros E. unfold fanout. rewrite E. reflexivity. Qed.

Lemma fanout_chans r v h f rf s : fanoutOf r h = Some (f, rf) ->
  h_chans (fanout r v h) !! s =
  (if decide (s ∈ elements (rf_subs rf)) then sent v <$> h_chans h !! s else h_chans h !! s).
Proof.
  intros E. rewrite (fanout_unfold r v h f rf E).
  apply (pass_chans (push v) (sent v)); [apply push_chans | apply sent_idem].
Qed.

Lemma fanout_ok r v h loops : hub_ok h loops ->
  hub_ok (fanout r v h) loops /\ gap (fanout r v h) = gap h /\ h_panicked (fanout r v h) = h_panicked h.
Proof.
  intros Hok. destruct (fanoutOf r h) as [[f rf]|] eqn:E.
  - split; [|rewrite (fanout_unfold r v h f rf E); apply pushes_gap; eapply subs_open; eauto].
    eapply hub_ok_same; [| |exact Hok].
    + rewrite (fanout_unfold r v h f rf E). apply (pass_runs (push v)), push_runs.
    + eapply sent_open. intros i. apply (fanout_chans r v h f rf i E).
  - unfold fanout. rewrite E. auto.
Qed.

(** Removing channels [X] from the registry and closing them. *)
Lemma remove_ok h h' loops loops' (X : list nat) : loopsCover h' loops' ->
  (forall r s, liveSub h' r s <-> liveSub h r s /\ s ∉ X) ->
  (forall s, openChan h' s <-> openChan h s /\ s ∉ X) ->
  hub_ok h loops -> hub_ok h' loops'.
Proof.
  intros Hc Hl Ho [_ H2 H3]. split; [assumption| |].
  - intros s. rewrite Ho, H2. setoid_rewrite Hl. split; [intros [[r ?] ?]; eauto | intros [r [? ?]]; eauto].
  - intros r1 r2 s. rewrite !Hl. intros [? _] [? _]. eauto.
Qed.

Lemma cancel_live r f rf h : h_runs h !! r = Some f -> (forall r', h_runs h !! r' = Some f -> r' = r) ->
  forall r' s, liveSub (cancelRun r f rf h) r' s <-> r' <> r /\ liveSub h r' s.
Proof.
  intros E Hinj r' s. unfold liveSub. setoid_rewrite fanoutOf_Some. cbn.
  destruct (decide (r' = r)) as [->|Hr].
  - rewrite lookup_delete_eq. split; [intros (? & ? & [? ?] & ?); discriminate | intros [? _]; contradiction].
  - rewrite lookup_delete_ne by congruence. split.
    + intros (g & rg & [E1 E2] & Hin). split; [assumption|]. exists g, rg.
      rewrite lookup_insert_ne in E2; [auto|]. intros <-. apply Hr, Hinj, E1.
    + intros (_ & g & rg & [E1 E2] & Hin). exists g, rg.
      rewrite lookup_insert_ne; [auto|]. intros <-. apply Hr, Hinj, E1.
Qed.

Lemma cancel_cover r f rf h loops loops' : h_runs h !! r = Some f ->
  (forall g, g <> f -> loops' !! g = loops !! g \/ ~ (exists r', r' <> r /\ h_runs h !! r' = Some g)) ->
  loopsCover h loops -> loopsCover (cancelRun r f rf h) loops'.
Proof.
  intros E Hl Hc r' g E'. cbn in E'. apply lookup_delete_Some in E' as [Hr E'].
  assert (g <> f) as Hg by (intros ->; apply Hr; eapply (cover_inj h loops r r' f); eauto).
  destruct (Hc r' g E') as (rg & ph & E1 & E2 & E3 & E4). exists rg, ph. cbn.
  rewrite lookup_insert_ne by congruence. destruct (Hl g Hg) as [->|Hn]; [auto|].
  exfalso. apply Hn. eauto.
Qed.

Lemma closed_open h h' (l : list nat) :
  (forall i, h_chans h' !! i = (if decide (i ∈ l) then closed <$> h_chans h !! i else h_chans h !! i)) ->
  forall s, openChan h' s <-> openChan h s /\ s ∉ l.
Proof.
  intros Hc s. unfold openChan. rewrite Hc. case_decide as Hs.
  - split; [|intros [_ ?]; contradiction]. intros (c & E & Ho).
    destruct (h_chans h !! s); cbn in E; simplify_eq.
  - split; [auto | intros [? _]; assumption].
Qed.

Lemma closeSubs_chans l h i :
  h_chans (foldr closeSub h l) !! i = (if decide (i ∈ l) then closed <$> h_chans h !! i else h_chans h !! i).
Proof. apply (pass_chans _ closed closeSub_chans closed_idem). Qed.

(** [closeRun] by a loop that stops afterwards. *)
Lemma closeRun_ok r h loops g ph : hub_ok h loops -> loops !! g = Some (r, ph) ->
  hub_ok (closeRun r h) (delete g loops) /\ gap (closeRun r h) = gap h /\
  h_panicked (closeRun r h) = h_panicked h.
Proof.
  intros Hok Hg. destruct (fanoutOf r h) as [[f rf]|] eqn:E.
  - pose proof (subs_open h loops r f rf Hok E) as Ho.
    destruct (closeSubs_gap _ _ (NoDup_elements (rf_subs rf)) Ho) as [G1 G2].
    pose proof (pass_runs closeSub closeSub_runs (elements (rf_subs rf)) h) as Hs.
    apply fanoutOf_Some in E as E'. destruct E' as [Er Ef].
    unfold closeRun. rewrite E. split; [|split; assumption].
    eapply (remove_ok h _ loops _ (elements (rf_subs rf))); [| | |exact Hok].
    + apply (cancel_cover r f rf _ loops); [rewrite (proj1 Hs); assumption| |].
      * intros g' Hg'. destruct (decide (g' = g)) as [->|]; [right|left; rewrite lookup_delete_ne by congruence; reflexivity].
        intros (r' & Hr' & E'). rewrite (proj1 Hs) in E'.
        destruct (ok_loops _ _ Hok r' g E') as (? & ? & ? & ? & ? & ?). congruence.
      * intros r' g' E'. rewrite (proj2 Hs). rewrite (proj1 Hs) in E'. exact (ok_loops _ _ Hok r' g' E').
    + intros r' s. rewrite cancel_live; [|rewrite (proj1 Hs); assumption|].
      * rewrite (liveSub_same h _ Hs), <- (live_elements h r f rf s E). split.
        -- intros [Hr Hl]. split; [assumption|]. intros Hl'. apply Hr. eapply (ok_once _ _ Hok); eauto.
        -- intros [Hl Hn]. split; [intros ->; contradiction|assumption].
      * intros r2 E'. rewrite (proj1 Hs) in E'. eapply cover_inj; [apply Hok|..]; eauto.
    + apply closed_open. intros i. apply closeSubs_chans.
  - unfold closeRun. rewrite E. split; [|auto].
    eapply hub_ok_loops; [|exact Hok]. intros r' g' ph' E1 E2. exists ph'.
    rewrite lookup_delete_ne; [assumption|]. intros ->. rewrite Hg in E2. simplify_eq.
    destruct (cover_fanout h loops r' g' (ok_loops _ _ Hok) E1) as [rf E']. congruence.
Qed.

Lemma shrink_live r f rf rf' s0 h : fanoutOf r h = Some (f, rf) ->
  (forall r', h_runs h !! r' = Some f -> r' = r) ->
  (forall r1 r2 s, liveSub h r1 s -> liveSub h r2 s -> r1 = r2) ->
  rf_subs rf' = rf_subs rf ∖ {[ s0 ]} -> s0 ∈ rf_subs rf ->
  forall r' s, liveSub (h_set_fanout f rf' h) r' s <-> liveSub h r' s /\ s <> s0.
Proof.
  intros E Hinj Honce Es Hin r' s. apply fanoutOf_Some in E as E'. destruct E' as [Er Ef].
  assert (liveSub h r s0) as Hl0 by (exists f, rf; auto).
  destruct (decide (r' = r)) as [->|Hr].
  - rewrite (live_elements h r f rf s E), (live_elements _ r f rf').
    + rewrite !elem_of_elements, Es, elem_of_difference, elem_of_singleton. reflexivity.
    + apply fanoutOf_Some. cbn. rewrite lookup_insert_eq. auto.
  - transitivity (liveSub h r' s).
    + unfold liveSub. setoid_rewrite fanoutOf_Some. cbn.
      split; intros (g & rg & [E1 E2] & Hs); exists g, rg.
      * rewrite lookup_insert_ne in E2; [auto|]. intros <-. apply Hr, Hinj, E1.
      * rewrite lookup_insert_ne; [auto|]. intros <-. apply Hr, Hinj, E1.
    + split; [|intros [? _]; assumption]. intros Hl. split; [assumption|]. intros ->.
      apply Hr. eauto.
Qed.

Lemma closeSub_one s h i :
  h_chans (closeSub s h) !! i = (if decide (i ∈ [s]) then closed <$> h_chans h !! i else h_chans h !! i).
Proof. rewrite <- closeSubs_chans; reflexivity. Qed.

Lemma difference_only (X : gset nat) s s2 : X ∖ {[ s ]} = ∅ -> s2 ∈ X -> s2 = s.
Proof.
  intros He H. assert (s2 ∉ (∅ : gset nat)) as Hx by apply not_elem_of_empty.
  rewrite <- He in Hx. apply not_elem_of_difference in Hx as [?|Hx%elem_of_singleton]; [contradiction|assumption].
Qed.

Lemma emptied_cover r f rf rf' h h1 loops : sameRuns (h_set_fanout f rf h) h1 ->
  (forall r', h_runs h !! r' = Some f -> r' = r) -> loopsCover h loops ->
  loopsCover (cancelRun r f rf' h1) loops.
Proof.
  intros [S1 S2] Hinj Hc r2 g E2. cbn in E2. apply lookup_delete_Some in E2 as [Hr2 E2].
  rewrite S1 in E2. cbn in E2. destruct (Hc r2 g E2) as (rg & ph & F1 & F2 & F3 & F4).
  assert (g <> f) by (intros ->; apply Hr2; symmetry; auto).
  exists rg, ph. cbn. rewrite S2. cbn. rewrite !lookup_insert_ne by congruence. auto.
Qed.

Lemma unsubscribe_ok r s h loops : hub_ok h loops ->
  hub_ok (unsubscribe r s h) loops /\ gap (unsubscribe r s h) = gap h /\
  h_panicked (unsubscribe r s h) = h_panicked h.
Proof.
  intros Hok. unfold unsubscribe. destruct (fanoutOf r h) as [[f rf]|] eqn:E; [|auto].
  case_bool_decide as Hin; [|auto]. cbn [negb].
  set (rf' := mkFanout (rf_subs rf ∖ {[s]}) (rf_notify rf) (rf_cancelled rf)).
  apply fanoutOf_Some in E as E'. destruct E' as [Er Ef].
  assert (forall r2, h_runs h !! r2 = Some f -> r2 = r) as Hinj.
  { intros r2 E2. eapply cover_inj; [apply Hok|..]; eauto. }
  pose proof (shrink_live r f rf rf' s h E Hinj (ok_once _ _ Hok) eq_refl Hin) as Hl.
  set (h1 := h_set_fanout f rf' h) in *.
  assert (openChan h1 s) as Ho by (apply (ok_open _ _ Hok); exists r, f, rf; auto).
  destruct (closeSub_gap s h1 Ho) as [G1 G2]. pose proof (closeSub_runs s h1) as Hs.
  assert (forall s', openChan (closeSub s h1) s' <-> openChan h s' /\ s' ∉ [s]) as Hopen.
  { apply (closed_open h1). intros i. apply closeSub_one. }
  case_bool_decide as He; (split; [|split; assumption]).
  - eapply (remove_ok h _ loops loops [s]); [| |exact Hopen|exact Hok].
    + exact (emptied_cover r f rf' rf' h _ loops Hs Hinj (ok_loops _ _ Hok)).
    + intros r2 s2. rewrite cancel_live; [|rewrite (proj1 Hs); assumption|].
      * rewrite (liveSub_same h1 _ Hs), Hl, list_elem_of_singleton. split; [intros [_ ?]; assumption|].
        intros [H1 H2]. split; [|auto]. intros ->. apply (live_elements h r f rf s2 E) in H1.
        apply elem_of_elements in H1. apply H2, (difference_only (rf_subs rf)); assumption.
      * intros r3 E3. rewrite (proj1 Hs) in E3. auto.
  - eapply (remove_ok h _ loops loops [s]); [| |exact Hopen|exact Hok].
    + destruct Hs as [S1 S2]. intros r2 g E2. rewrite S1 in E2. rewrite S2. cbn in E2 |- *.
      destruct (ok_loops _ _ Hok r2 g E2) as (rg & ph & F1 & F2 & F3 & F4).
      destruct (decide (g = f)) as [->|Hg].
      * rewrite lookup_insert_eq. exists rf', ph. simplify_eq. auto.
      * rewrite lookup_insert_ne by congruence. exists rg, ph. auto.
    + intros r2 s2. rewrite (liveSub_same h1 _ Hs), Hl, list_elem_of_singleton. reflexivity.
Qed.

(** ** Registration *)

Definition startLoop (started : bool) (f : nat) (r : string) (loops : gmap nat (string * loopPhase)) :=
  if started then <[f := (r, LWait)]> loops else loops.

Lemma register_chans r s f h h' started : register r s f h = (h', started) ->
  h_chans h' = <[s := newChan]> (h_chans h) /\ h_active h' = h_active h /\ h_panicked h' = h_panicked h.
Proof. unfold register. destruct (fanoutOf r _) as [[g rg]|]; intros [= <- <-]; auto. Qed.

(** What registration does to the registry: the run [r] has the fan-out [g], which
    holds [rf]. *)
Lemma registered_live r g rf s h h' loops loops' ph : loopsCover h loops ->
  h_runs h' = <[r := g]> (h_runs h) -> h_fanouts h' = <[g := rf]> (h_fanouts h) ->
  (forall r', r' <> r -> h_runs h !! r' <> Some g) ->
  rf_cancelled rf = false -> (forall s', s' ∈ rf_subs rf <-> liveSub h r s' \/ s' = s) ->
  loops' !! g = Some (r, ph) -> (forall g', g' <> g -> loops' !! g' = loops !! g') ->
  loopsCover h' loops' /\ forall r' s', liveSub h' r' s' <-> liveSub h r' s' \/ (r' = r /\ s' = s).
Proof.
  intros Hc Er Ef Hnew Hcan Hsubs Hl Hl'. split.
  - intros r2 g2. rewrite Er, Ef. destruct (decide (r2 = r)) as [->|Hr].
    + rewrite lookup_insert_eq. intros [= <-]. exists rf, ph. rewrite lookup_insert_eq. repeat split; [assumption| |assumption].
      intros Hx. apply (not_elem_of_empty (C := gset nat) s). rewrite <- Hx. apply Hsubs. auto.
    + rewrite lookup_insert_ne by congruence. intros E2. destruct (Hc r2 g2 E2) as (rf2 & ph2 & F1 & F2 & F3 & F4).
      assert (g2 <> g) by (intros ->; exact (Hnew r2 Hr E2)).
      exists rf2, ph2. rewrite lookup_insert_ne, Hl' by congruence. auto.
  - intros r' s'. destruct (decide (r' = r)) as [->|Hr].
    + transitivity (s' ∈ rf_subs rf); [|rewrite Hsubs; intuition].
      rewrite (live_elements h' r g rf), elem_of_elements; [reflexivity|].
      apply fanoutOf_Some. rewrite Er, Ef, !lookup_insert_eq. auto.
    + transitivity (liveSub h r' s'); [|intuition].
      unfold liveSub. setoid_rewrite fanoutOf_Some. rewrite Er, Ef. rewrite lookup_insert_ne by congruence.
      split; intros (g2 & rf2 & [E1 E2] & Hin); exists g2, rf2;
        (assert (g2 <> g) by (intros ->; exact (Hnew r' Hr E1))).
      * rewrite lookup_insert_ne in E2 by congruence. auto.
      * rewrite lookup_insert_ne by congruence. auto.
Qed.

Lemma register_live r s f h h' started loops : loopsCover h loops -> f ∉ dom (h_fanouts h) ->
  register r s f h = (h', started) ->
  loopsCover h' (startLoop started f r loops) /\
  forall r' s', liveSub h' r' s' <-> liveSub h r' s' \/ (r' = r /\ s' = s).
Proof.
  intros Hc Hf. unfold register. change (fanoutOf r (h_set_chan s (Some newChan) h)) with (fanoutOf r h).
  destruct (fanoutOf r h) as [[g rg]|] eqn:E; intros [= <- <-]; cbn [startLoop].
  - apply fanoutOf_Some in E as E'. destruct E' as [Er Eg].
    destruct (Hc r g Er) as (rg' & ph & F1 & F2 & F3 & F4). simplify_eq.
    eapply (registered_live r g _ s h); [exact Hc|cbn|reflexivity| |exact F2| |exact F4|reflexivity].
    + symmetry. apply insert_id. assumption.
    + intros r' Hr E'. apply Hr. exact (cover_inj h loops r' r g Hc E' Er).
    + intros s'. cbn. rewrite (live_elements h r g rg s' E), elem_of_elements, elem_of_union, elem_of_singleton. intuition.
  - eapply (registered_live r f _ s h); [exact Hc|reflexivity|reflexivity| |reflexivity| | |].
    + intros r2 _ E2. destruct (Hc r2 f E2) as (? & _ & E' & _). apply Hf. eapply elem_of_dom_2; eauto.
    + intros s'. cbn. rewrite elem_of_singleton. split; [auto|]. intros [(g & rf & E' & _)|]; [congruence|assumption].
    + apply lookup_insert_eq.
    + intros g' Hg. apply lookup_insert_ne. congruence.
Qed.

Lemma register_ok r s f h h' started loops : hub_ok h loops -> s ∉ dom (h_chans h) -> f ∉ dom (h_fanouts h) ->
  register r s f h = (h', started) -> hub_ok h' (startLoop started f r loops) /\ gap h' = gap h - 1.
Proof.
  intros [H1 H2 H3] Hs Hf E. destruct (register_live r s f h h' started loops H1 Hf E) as [Hc Hl].
  destruct (register_chans r s f h h' started E) as (Ec & Ea & _). apply not_elem_of_dom in Hs.
  assert (forall r', ~ liveSub h r' s) as Hno.
  { intros r' Hl'. destruct (proj2 (H2 s) (ex_intro _ r' Hl')) as (c & E' & _). congruence. }
  split.
  - split; [exact Hc| |].
    + intros s'. setoid_rewrite Hl. unfold openChan. rewrite Ec. destruct (decide (s' = s)) as [->|Hn].
      * rewrite lookup_insert_eq. split; intros _; [exists r; auto | exists newChan; auto].
      * rewrite lookup_insert_ne by congruence. fold (openChan h s'). rewrite H2.
        split; [intros [r' ?]; exists r'; auto | intros [r' [?|[_ ?]]]; [eauto|contradiction]].
    + intros r1 r2 s'. rewrite !Hl. intros [L1|[-> ->]] [L2|[-> E2]]; try congruence.
      * eauto.
      * subst. destruct (Hno r1 L1).
      * destruct (Hno r2 L2).
  - unfold gap. rewrite Ec, Ea, count_insert, Hs. cbn. lia.
Qed.

(** ** The whole system *)

Lemma pointwise_dom (m m' : gmap nat chanState) (eff : chanState -> chanState) (P : nat -> Prop)
    `{!forall i, Decision (P i)} :
  (forall i, m' !! i = (if decide (P i) then eff <$> m !! i else m !! i)) -> dom m' = dom m.
Proof.
  intros Hm. apply set_eq. intros i. rewrite !elem_of_dom, Hm.
  case_decide; [apply fmap_is_Some | reflexivity].
Qed.

Lemma sendTo_dom v s h : dom (h_chans (sendTo v s h)) = dom (h_chans h).
Proof. eapply pointwise_dom. apply sendTo_chans. Qed.

Lemma fanout_dom r v h : dom (h_chans (fanout r v h)) = dom (h_chans h).
Proof.
  destruct (fanoutOf r h) as [[f rf]|] eqn:E; [|unfold fanout; rewrite E; reflexivity].
  eapply pointwise_dom. intros i. apply (fanout_chans r v h f rf i E).
Qed.

Lemma closeRun_dom r h : dom (h_chans (closeRun r h)) = dom (h_chans h).
Proof.
  unfold closeRun. destruct (fanoutOf r h) as [[f rf]|]; [|reflexivity]. cbn.
  eapply pointwise_dom. intros i. apply closeSubs_chans.
Qed.

Lemma unsubscribe_dom r s h : dom (h_chans (unsubscribe r s h)) = dom (h_chans h).
Proof.
  unfold unsubscribe. destruct (fanoutOf r h) as [[f rf]|]; [|reflexivity]. case_match; [reflexivity|].
  transitivity (dom (h_chans (closeSub s (h_set_fanout f (mkFanout (rf_subs rf ∖ {[s]}) (rf_notify rf) (rf_cancelled rf)) h)))).
  - case_match; reflexivity.
  - exact (pointwise_dom _ _ closed _ (closeSub_one s _)).
Qed.

Lemma clear_same f h : h_chans (h_clear_notify f h) = h_chans h /\ gap (h_clear_notify f h) = gap h /\
  h_panicked (h_clear_notify f h) = h_panicked h.
Proof. unfold h_clear_notify. case_match; auto. Qed.

Lemma poke_same r h : h_chans (poke r h) = h_chans h /\ gap (poke r h) = gap h /\
  h_panicked (poke r h) = h_panicked h.
Proof. unfold poke. destruct (fanoutOf r h) as [[]|]; auto. Qed.

Lemma sendTo_ok v s h loops : hub_ok h loops -> hub_ok (sendTo v s h) loops.
Proof.
  apply hub_ok_same; [apply sendTo_runs|]. eapply (sent_open v h _ [s]). intros i.
  rewrite sendTo_chans. destruct (decide (i = s)) as [->|Hi].
  - rewrite decide_True by left. reflexivity.
  - rewrite decide_False; [reflexivity|]. intros Hin%list_elem_of_singleton. contradiction.
Qed.

Lemma receive_ok s v cl h loops : h_chans h !! s = Some (mkChan (Some v) cl) -> hub_ok h loops ->
  hub_ok (h_set_chan s (Some (mkChan None cl)) h) loops /\ gap (h_set_chan s (Some (mkChan None cl)) h) = gap h.
Proof.
  intros E Hok. split; [|unfold gap; cbn; rewrite count_insert, E; destruct cl; cbn; lia].
  revert Hok. apply hub_ok_same; [split; reflexivity|]. intros s'. unfold openChan. cbn.
  destruct (decide (s' = s)) as [->|Hn]; [|rewrite lookup_insert_ne by congruence; reflexivity].
  rewrite lookup_insert_eq, E. split; intros (c & Ec & Ho); injection Ec as <-; eexists; (split; [reflexivity|exact Ho]).
Qed.

Lemma add_active_ok n h loops : hub_ok h loops -> hub_ok (h_add_active n h) loops /\ gap (h_add_active n h) = gap h + n.
Proof. intros [H1 H2 H3]. split; [split; assumption | unfold gap; cbn; lia]. Qed.

Lemma registered_insert (m : gmap nat (string * subPhase)) s r p old : m !! s = Some (r, old) ->
  countWhere isRegistered (<[s := (r, p)]> m) =
    countWhere isRegistered m - Z.b2z (isRegistered (r, old)) + Z.b2z (isRegistered (r, p)).
Proof. intros E. rewrite count_insert, E. reflexivity. Qed.

Lemma init_wf : wf initSys.
Proof.
  split; [split| |].
  - intros r f E. discriminate.
  - intros s. split; [intros (c & E & _); discriminate | intros (r & f & rf & E & _); discriminate].
  - intros r1 r2 s (f & rf & E & _). discriminate.
  - cbn. rewrite !dom_empty_L. set_solver.
  - vm_compute. reflexivity.
Qed.

Lemma phase_dom (m : gmap nat (string * subPhase)) s p q : m !! s = Some q -> dom (<[s := p]> m) = dom m.
Proof. intros E. apply dom_insert_lookup_L. eauto. Qed.

Lemma step_wf sy sy' : wf sy -> sstep sy sy' -> wf sy'.
Proof.
  intros [Hok Hd Hg] [l Hs]. destruct Hs as [sy r | sy r s f h st Hs Hf E | sy s r E | sy s r v E Hv | sy s r E
    | sy s r v E | sy s r E | sy s v cl E | sy f r rf E Ef Hc | sy f r v E Hv | sy f r E | sy f r v E | sy f r E]; split; cbn [sy_hub sy_loops sy_subs].
  - apply poke_ok, Hok.
  - destruct (poke_same r (sy_hub sy)) as (-> & _ & _). exact Hd.
  - destruct (poke_same r (sy_hub sy)) as (_ & -> & _). exact Hg.
  - exact (proj1 (register_ok _ _ _ _ _ _ _ Hok Hs Hf E)).
  - destruct (register_chans _ _ _ _ _ _ E) as (-> & _ & _). rewrite !dom_insert_L. set_solver.
  - rewrite (proj2 (register_ok _ _ _ _ _ _ _ Hok Hs Hf E)), count_insert, Hg.
    rewrite (proj1 (not_elem_of_dom _ _)); [cbn; lia|]. set_solver.
  - apply add_active_ok, Hok.
  - rewrite (phase_dom _ _ _ _ E). exact Hd.
  - rewrite (proj2 (add_active_ok 1 _ _ Hok)), (registered_insert _ _ _ _ _ E), Hg. cbn. lia.
  - exact Hok.
  - rewrite (phase_dom _ _ _ _ E). exact Hd.
  - rewrite (registered_insert _ _ _ _ _ E), Hg. cbn. lia.
  - exact Hok.
  - rewrite (phase_dom _ _ _ _ E). exact Hd.
  - rewrite (registered_insert _ _ _ _ _ E), Hg. cbn. lia.
  - apply sendTo_ok, Hok.
  - rewrite (phase_dom _ _ _ _ E), sendTo_dom. exact Hd.
  - rewrite (registered_insert _ _ _ _ _ E), sendTo_gap, Hg. cbn. lia.
  - apply unsubscribe_ok, Hok.
  - rewrite unsubscribe_dom, dom_delete_L. set_solver.
  - destruct (unsubscribe_ok r s _ _ Hok) as (_ & -> & _). rewrite count_delete, E, Hg. cbn. lia.
  - exact (proj1 (receive_ok _ _ _ _ _ E Hok)).
  - cbn. rewrite (dom_insert_lookup_L (h_chans (sy_hub sy))) by eauto. exact Hd.
  - rewrite (proj2 (receive_ok _ _ _ _ _ E Hok)). exact Hg.
  - eapply hub_ok_loops; [|exact Hok]. intros r2 f2 ph2 E2 E3. exists ph2.
    rewrite lookup_delete_ne; [assumption|]. intros <-.
    destruct (ok_loops _ _ Hok r2 f E2) as (? & ? & ? & ? & _). congruence.
  - exact Hd.
  - exact Hg.
  - eapply hub_ok_phase; [exact E|]. apply clear_ok, Hok.
  - destruct (clear_same f (sy_hub sy)) as (-> & _ & _). exact Hd.
  - destruct (clear_same f (sy_hub sy)) as (_ & -> & _). exact Hg.
  - apply clear_ok, Hok.
  - destruct (clear_same f (sy_hub sy)) as (-> & _ & _). exact Hd.
  - destruct (clear_same f (sy_hub sy)) as (_ & -> & _). exact Hg.
  - eapply hub_ok_phase; [exact E|]. apply fanout_ok, Hok.
  - rewrite fanout_dom. exact Hd.
  - destruct (fanout_ok r v _ _ Hok) as (_ & -> & _). exact Hg.
  - exact (proj1 (closeRun_ok _ _ _ _ _ Hok E)).
  - rewrite closeRun_dom. exact Hd.
  - destruct (closeRun_ok _ _ _ _ _ Hok E) as (_ & -> & _). exact Hg.
Qed.

Lemma reachable_wf sy : rtc sstep initSys sy -> wf sy.
Proof.
  intros Hr. pattern sy. revert sy Hr. apply (rtc_ind_r _ initSys); [apply init_wf|].
  intros y z _ Hs Hy. eapply step_wf; eauto.
Qed.

(** The only panicking step is the send that [Subscribe] makes without the lock. *)
Lemma step_panics sy sy' : wf sy -> sstep sy sy' -> h_panicked (sy_hub sy') <> h_panicked (sy_hub sy) ->
  exists s r v, sy_subs sy !! s = Some (r, SRead v) /\ sy_hub sy' = sendTo v s (sy_hub sy) /\
    ~ openChan (sy_hub sy) s.
Proof.
  intros [Hok Hd Hg] [l Hs]. destruct Hs as [sy r | sy r s f h st Hs Hf E | sy s r E | sy s r v E Hv | sy s r E
    | sy s r v E | sy s r E | sy s v cl E | sy f r rf E Ef Hc | sy f r v E Hv | sy f r E | sy f r v E | sy f r E];
    cbn; intros Hp; try contradiction.
  - destruct Hp. apply poke_same.
  - destruct Hp. eapply register_chans; eauto.
  - exists s, r, v. repeat split; [assumption|]. intros Ho. apply Hp, sendTo_panic, Ho.
  - destruct Hp. eapply unsubscribe_ok; eauto.
  - destruct Hp. apply clear_same.
  - destruct Hp. apply clear_same.
  - destruct Hp. eapply fanout_ok; eauto.
  - destruct Hp. eapply closeRun_ok; eauto.
Qed.

(** ** The theorems *)

(** In every reachable state of the hub and its goroutines, a channel is open
    exactly while some run has its subscriber registered, a registered run has a
    running loop of its own, the active gauge is the number of open channels less
    the subscribers not counted yet, and the only step that can panic is the
    initial send of [Subscribe], on a channel that has been closed. *)
Theorem hub_safe sy : rtc sstep initSys sy ->
  (forall s, openChan (sy_hub sy) s <-> exists r, liveSub (sy_hub sy) r s) /\
  (forall r f, h_runs (sy_hub sy) !! r = Some f -> exists ph, sy_loops sy !! f = Some (r, ph)) /\
  h_active (sy_hub sy) = countWhere isOpen (h_chans (sy_hub sy)) - countWhere isRegistered (sy_subs sy) /\
  (forall sy', sstep sy sy' -> h_panicked (sy_hub sy') <> h_panicked (sy_hub sy) ->
    exists s r v, sy_subs sy !! s = Some (r, SRead v) /\ sy_hub sy' = sendTo v s (sy_hub sy) /\
      ~ openChan (sy_hub sy) s).
Proof.
  intros Hr. pose proof (reachable_wf sy Hr) as Hwf. destruct Hwf as [Hok Hd Hg] eqn:E. clear E.
  split; [apply Hok|]. split; [|split].
  - intros r f Er. destruct (ok_loops _ _ Hok r f Er) as (_ & ph & _ & _ & _ & Hl). eauto.
  - unfold gap in Hg. lia.
  - intros sy'. apply step_panics. assumption.
Qed.

(** When a loop has read a terminal snapshot, its two next steps leave that
    snapshot in the channel of every subscriber of the run, close these channels
    and no others, and remove the run; nothing panics. *)
Theorem terminal_snapshot_delivered sy f r v : rtc sstep initSys sy ->
  sy_loops sy !! f = Some (r, LRead v) -> isTerminalRunStatus (sn_status v) = true ->
  exists sy1 sy2, sstep sy sy1 /\ sstep sy1 sy2 /\
    h_panicked (sy_hub sy2) = h_panicked (sy_hub sy) /\ h_runs (sy_hub sy2) !! r = None /\
    forall s, (liveSub (sy_hub sy) r s -> h_chans (sy_hub sy2) !! s = Some (mkChan (Some v) true)) /\
      (~ liveSub (sy_hub sy) r s -> h_chans (sy_hub sy2) !! s = h_chans (sy_hub sy) !! s).
Proof.
  intros Hr El Ht. destruct (reachable_wf sy Hr) as [Hok _ _].
  pose proof (step_loop_fanout sy f r v El) as S1. rewrite Ht in S1.
  destruct (fanout_ok r v _ _ Hok) as (Hok1 & _ & P1).
  eexists _, _. split; [eexists; exact S1|]. split.
  { eexists. eapply (step_loop_close _ f r). cbn. apply lookup_insert_eq. }
  cbn [sy_hub sy_loops].
  destruct (closeRun_ok r (fanout r v (sy_hub sy)) (<[f := (r, LClose)]> (sy_loops sy)) f LClose) as (_ & _ & P2);
    [eapply hub_ok_phase; eauto | apply lookup_insert_eq|].
  split; [congruence|].
  destruct (fanoutOf r (sy_hub sy)) as [[g rf]|] eqn:E.
  - assert (fanoutOf r (fanout r v (sy_hub sy)) = Some (g, rf)) as E1.
    { rewrite (fanout_unfold r v _ g rf E). unfold fanoutOf.
      destruct (pass_runs (push v) (push_runs v) (elements (rf_subs rf)) (sy_hub sy)) as [-> ->]. exact E. }
    unfold closeRun. rewrite E1. cbn. split; [apply lookup_delete_eq|]. intros s.
    rewrite closeSubs_chans, (fanout_chans r v _ g rf s E), (live_elements _ r g rf s E).
    split; intros Hs; case_decide; try contradiction; [|reflexivity].
    destruct (Forall_forall (openChan (sy_hub sy)) (elements (rf_subs rf))) as [Ho _].
    destruct (Ho (subs_open _ _ _ _ _ Hok E) s Hs) as ([b []] & -> & Hc); [discriminate|reflexivity].
  - assert (fanout r v (sy_hub sy) = sy_hub sy) as E1 by (unfold fanout; rewrite E; reflexivity).
    unfold closeRun. rewrite E1, E. split.
    + destruct (h_runs (sy_hub sy) !! r) as [g|] eqn:Er; [|reflexivity].
      destruct (cover_fanout _ _ r g (ok_loops _ _ Hok) Er) as [rf E']. congruence.
    + intros s. split; [|reflexivity]. intros (g & rf & E' & _). congruence.
Qed.

(** ** A run of the hub *)

Module HubDemo.

Definition running : snapshotRow := mkSnapshotRow "run" RunRunning 1.
Definition succeeded : snapshotRow := mkSnapshotRow "run" RunSucceeded 2.

Definition subscribed : Sys :=
  mkSys (fst (register "run" 0 0 emptyHub)) {[ 0%nat := ("run", LWait) ]} {[ 0%nat := ("run", SRegistered) ]}.

(** The subscriber has read a running snapshot, the loop a terminal one. *)
Definition racing : Sys :=
  mkSys (h_clear_notify 0 (h_add_active 1 (sy_hub subscribed)))
    (<[0%nat := ("run", LRead succeeded)]> (sy_loops subscribed))
    (<[0%nat := ("run", SRead running)]> (<[0%nat := ("run", SCounted)]> (sy_subs subscribed))).

Lemma racing_reachable : rtc sstep initSys racing.
Proof.
  eapply rtc_l; [eexists; eapply (step_subscribe initSys "run" 0 0 _ true)|].
  1-2: vm_compute; intros H; discriminate H.
  1: reflexivity.
  eapply rtc_l; [eexists; eapply (step_count _ 0%nat "run"); reflexivity|].
  eapply rtc_l; [eexists; eapply (step_initial_read _ 0%nat "run" running); reflexivity|].
  eapply rtc_l; [eexists; eapply (step_loop_read _ 0%nat "run" succeeded); reflexivity|].
  apply rtc_refl.
Defined.

End HubDemo.

(** The hub can panic: a subscriber that read its initial snapshot before the
    run ended sends it after the loop has closed its channel, since [Subscribe]
    sends without the lock. *)
Theorem initial_send_can_panic : exists sy sy',
  rtc sstep initSys sy /\ h_panicked (sy_hub sy) = false /\
  sstep sy sy' /\ h_panicked (sy_hub sy') = true.
Proof.
  eexists _, _. split; [|split; [|split]].
  - etrans; [exact HubDemo.racing_reachable|].
    eapply rtc_l; [eexists; eapply (step_loop_fanout _ 0%nat "run" HubDemo.succeeded); reflexivity|].
    apply rtc_once. eexists. eapply (step_loop_close _ 0%nat "run"). reflexivity.
  - vm_compute. reflexivity.
  - eexists. eapply (step_initial_send _ 0%nat "run" HubDemo.running). reflexivity.
  - vm_compute. reflexivity.
Qed.

Lemma hub_safe_witness : h_active (sy_hub HubDemo.racing) = 1 /\
  exists ph, sy_loops HubDemo.racing !! 0%nat = Some ("run", ph).
Proof.
  destruct (hub_safe HubDemo.racing HubDemo.racing_reachable) as (_ & Hl & Hg & _).
  split; [rewrite Hg; vm_compute; reflexivity | exact (Hl "run" 0%nat eq_refl)].
Defined.

Lemma terminal_snapshot_delivered_witness : exists sy1 sy2,
  sstep HubDemo.racing sy1 /\ sstep sy1 sy2 /\
  h_chans (sy_hub sy2) !! 0%nat = Some (mkChan (Some HubDemo.succeeded) true).
Proof.
  destruct (terminal_snapshot_delivered HubDemo.racing 0 "run" HubDemo.succeeded
    HubDemo.racing_reachable eq_refl eq_refl) as (sy1 & sy2 & S1 & S2 & _ & _ & Hs).
  exists sy1, sy2. split; [exact S1|]. split; [exact S2|]. apply (Hs 0%nat).
  exists 0%nat, (mkFanout {[ 0%nat ]} false false). split; [reflexivity|]. cbn [rf_subs]. apply elem_of_singleton_2. reflexivity.
Defined.
