(* ===== verification/HubSpec.v ===== *)
(** * The subscription hub: what it promises

    To a client the hub is a set of subscriptions, each a mailbox of one snapshot
    that belongs to a run until it is closed.  The hub with its fan-outs, loops and
    locks refines that: the event of every step is possible in the specification
    and takes it to a state the hub stands for. *)

From S2P Require Import Prelude Model Hub HubProps.

(** ** The specification *)

(** A subscription waits for its initial snapshot, follows its run, or was left by
    its client. *)
Inductive subMode := Starting | Following | Left.

Record subscription := mkSub {
  sb_run : string;
  sb_mode : subMode;
  sb_open : bool;
  sb_mail : option snapshotRow
}.

#[export] Instance snapshotRow_eq_dec : EqDecision snapshotRow.
Proof. solve_decision. Defined.
#[export] Instance subMode_eq_dec : EqDecision subMode.
Proof. solve_decision. Defined.
#[export] Instance subscription_eq_dec : EqDecision subscription.
Proof. solve_decision. Defined.

(** The subscriptions, and the runs whose terminal snapshot was published. *)
Record Spec := mkSpec {
  sp_subs : gmap nat subscription;
  sp_ended : gset string
}.

Definition emptySpec : Spec := mkSpec ∅ ∅.

(** The newest snapshot replaces one not taken yet.  A delivery to a closed mailbox
    delivers nothing, whether or not the program survives it; a closed mailbox
    keeps its last until it is taken. *)
Definition deliver (v : snapshotRow) (p : subscription) : subscription :=
  if sb_open p then mkSub (sb_run p) (sb_mode p) true (Some v) else p.
Definition take1 (p : subscription) : subscription := mkSub (sb_run p) (sb_mode p) (sb_open p) None.
Definition shut (p : subscription) : subscription := mkSub (sb_run p) (sb_mode p) false (sb_mail p).
Definition enter (m : subMode) (p : subscription) : subscription := mkSub (sb_run p) m (sb_open p) (sb_mail p).

Definition ofRun (r : string) (p : subscription) : bool := bool_decide (sb_run p = r).

(** [f] at the subscriptions [sel] selects. *)
Definition onSubs (sel : nat -> subscription -> bool) (f : subscription -> subscription)
    (m : gmap nat subscription) : gmap nat subscription :=
  map_imap (fun s p => Some (if sel s p then f p else p)) m.

Definition theSub (s : nat) (i : nat) (_ : subscription) : bool := bool_decide (i = s).
Definition subsOf (r : string) (_ : nat) (p : subscription) : bool := ofRun r p.

(** [f] at subscription [s], which has to satisfy [ok]. *)
Definition atSub (s : nat) (ok : subscription -> bool) (f : subscription -> subscription) (sp : Spec) : option Spec :=
  match sp_subs sp !! s with
  | Some p => if ok p then Some (mkSpec (onSubs (theSub s) f (sp_subs sp)) (sp_ended sp)) else None
  | None => None
  end.

Definition inMode (m : subMode) (p : subscription) : bool := bool_decide (sb_mode p = m).

(** [None] when the event is not possible: a subscription gets one initial
    snapshot, of its run; what is published for a run is a snapshot of it; a client
    takes what its mailbox holds, and leaves once, the run it subscribed to; a
    run's subscriptions end after a terminal snapshot of it. *)
Definition specStep (e : hubEvent) (sp : Spec) : option Spec :=
  match e with
  | EvSubscribe r s =>
      match sp_subs sp !! s with
      | None => Some (mkSpec (<[s := mkSub r Starting true None]> (sp_subs sp)) (sp_ended sp))
      | Some _ => None
      end
  | EvSend s v => atSub s (fun p => inMode Starting p && ofRun (sn_run v) p) (fun p => enter Following (deliver v p)) sp
  | EvNoSnapshot s => atSub s (inMode Starting) (enter Following) sp
  | EvPublish r v =>
      if bool_decide (sn_run v = r) then
        Some (mkSpec (onSubs (subsOf r) (deliver v) (sp_subs sp))
                (if isTerminalRunStatus (sn_status v) then {[ r ]} ∪ sp_ended sp else sp_ended sp))
      else None
  | EvReceive s v => atSub s (fun p => bool_decide (sb_mail p = Some v)) take1 sp
  | EvLeave r s => atSub s (fun p => inMode Following p && ofRun r p) (fun p => enter Left (shut p)) sp
  | EvEnd r => if bool_decide (r ∈ sp_ended sp) then Some (mkSpec (onSubs (subsOf r) shut (sp_subs sp)) (sp_ended sp)) else None
  end.

Fixpoint specRun (es : list hubEvent) (sp : Spec) : option Spec :=
  match es with
  | [] => Some sp
  | e :: es => specStep e sp ≫= specRun es
  end.

(** [v] was sent to [s], or published for the run of [s] after [s] subscribed. *)
Definition addressed (es : list hubEvent) (s : nat) (r : string) (v : snapshotRow) : Prop :=
  sn_run v = r /\ exists es1 es2, es = es1 ++ EvSubscribe r s :: es2 /\ (EvSend s v ∈ es2 \/ EvPublish r v ∈ es2).

(** A terminal snapshot of [r] was published. *)
Definition endedIn (es : list hubEvent) (r : string) : Prop :=
  exists v, EvPublish r v ∈ es /\ sn_run v = r /\ isTerminalRunStatus (sn_status v) = true.

(** What the events so far say of a state of the specification. *)
Record explained (es : list hubEvent) (sp : Spec) : Prop := {
  ex_run s p : sp_subs sp !! s = Some p -> exists es1 es2, es = es1 ++ EvSubscribe (sb_run p) s :: es2;
  ex_mail s p v : sp_subs sp !! s = Some p -> sb_mail p = Some v -> addressed es s (sb_run p) v;
  ex_closed s p : sp_subs sp !! s = Some p -> sb_open p = false -> EvLeave (sb_run p) s ∈ es \/ endedIn es (sb_run p);
  ex_ended r : r ∈ sp_ended sp -> endedIn es r;
  ex_received es1 s v es2 : es = es1 ++ EvReceive s v :: es2 -> exists r, addressed es1 s r v
}.

(** ** Abstraction *)

(** The subscription a channel stands for. *)
Definition standsFor (h : Hub) (s : nat) (c : chanState) (p : subscription) : Prop :=
  sb_open p = negb (ch_closed c) /\ sb_mail p = ch_buf c /\ (ch_closed c = false -> liveSub h (sb_run p) s).

Definition abstracts (h : Hub) (m : gmap nat subscription) : Prop := forall s,
  match h_chans h !! s with
  | None => m !! s = None
  | Some c => exists p, m !! s = Some p /\ standsFor h s c p
  end.

(** How far the [Subscribe] call of a subscription is. *)
Definition modeOf (ph : subPhase) : subMode := match ph with SReturned => Following | _ => Starting end.

Record refines (sy : Sys) (sp : Spec) : Prop := {
  rf_chans : abstracts (sy_hub sy) (sp_subs sp);
  rf_modes s r ph : sy_subs sy !! s = Some (r, ph) -> exists p, sp_subs sp !! s = Some p /\ sb_run p = r /\ sb_mode p = modeOf ph;
  rf_initial s r v : sy_subs sy !! s = Some (r, SRead v) -> sn_run v = r;
  rf_read f r v : sy_loops sy !! f = Some (r, LRead v) -> sn_run v = r;
  rf_ending f r : sy_loops sy !! f = Some (r, LClose) -> r ∈ sp_ended sp
}.

Lemma onSubs_lookup sel f m s : onSubs sel f m !! s = (fun p => if sel s p then f p else p) <$> m !! s.
Proof. unfold onSubs. rewrite map_lookup_imap. by destruct (m !! s). Qed.

Lemma onSubs_back sel f m s p' : onSubs sel f m !! s = Some p' -> exists p, m !! s = Some p /\ p' = (if sel s p then f p else p).
Proof. rewrite onSubs_lookup. destruct (m !! s) as [p|]; cbn; [|done]. intros [= <-]. by exists p. Qed.

(** ** The operations *)

(** [h'] has no run, no fan-out and no subscriber that [h] has not. *)
Definition shrinks (h h' : Hub) : Prop :=
  (forall r f, h_runs h' !! r = Some f -> h_runs h !! r = Some f) /\
  (forall f rf', h_fanouts h' !! f = Some rf' -> exists rf, h_fanouts h !! f = Some rf /\ rf_subs rf' ⊆ rf_subs rf).

Lemma shrinks_live h h' : shrinks h h' -> forall r s, liveSub h' r s -> liveSub h r s.
Proof.
  intros [H1 H2] r s (f & rf & E & Hs). apply fanoutOf_Some in E as [E1 E2].
  destruct (H2 _ _ E2) as (rf0 & E3 & Hsub). exists f, rf0. split; [apply fanoutOf_Some; auto|set_solver].
Qed.

Lemma shrinks_same h h' : sameRuns h h' -> shrinks h h'.
Proof. intros [E1 E2]. split; [by rewrite E1|]. intros f rf. rewrite E2. eauto. Qed.

#[export] Instance shrinks_preorder : PreOrder shrinks.
Proof.
  split; [intros h; by apply shrinks_same|]. intros h1 h2 h3 [A1 A2] [B1 B2]. split; [auto|].
  intros f rf (rf2 & E2 & S2)%B2. destruct (A2 _ _ E2) as (rf1 & E1 & S1). exists rf1. split; [done|set_solver].
Qed.

Lemma shrinks_fanout f rf rf' h : h_fanouts h !! f = Some rf -> rf_subs rf' ⊆ rf_subs rf -> shrinks h (h_set_fanout f rf' h).
Proof.
  intros E Hs. split; [done|]. intros g rg. cbn. destruct (decide (g = f)) as [->|Hg].
  - rewrite lookup_insert_eq. intros [= <-]. eauto.
  - rewrite lookup_insert_ne by congruence. eauto.
Qed.

Lemma shrinks_cancel r f rf rf' h : h_fanouts h !! f = Some rf -> rf_subs rf' ⊆ rf_subs rf -> shrinks h (cancelRun r f rf' h).
Proof.
  intros E Hs. etrans; [by apply (shrinks_fanout f rf (mkFanout (rf_subs rf') (rf_notify rf') true))|]. split; [|eauto].
  intros r' g. cbn. intros [_ ?]%lookup_delete_Some. done.
Qed.

Lemma poke_shrinks r h : shrinks h (poke r h).
Proof.
  unfold poke. destruct (fanoutOf r h) as [[f rf]|] eqn:E; [|done]. apply fanoutOf_Some in E as [_ E].
  by eapply shrinks_fanout.
Qed.

Lemma clear_shrinks f h : shrinks h (h_clear_notify f h).
Proof. unfold h_clear_notify. destruct (h_fanouts h !! f) as [rf|] eqn:E; [|done]. by eapply shrinks_fanout. Qed.

Lemma fanout_shrinks r v h : shrinks h (fanout r v h).
Proof.
  destruct (fanoutOf r h) as [[f rf]|] eqn:E; [|unfold fanout; by rewrite E].
  rewrite (fanout_unfold r v h f rf E). apply shrinks_same, (pass_runs (push v)), push_runs.
Qed.

Lemma closeRun_shrinks r h : shrinks h (closeRun r h).
Proof.
  unfold closeRun. destruct (fanoutOf r h) as [[f rf]|] eqn:E; [|done]. apply fanoutOf_Some in E as [_ E].
  pose proof (pass_runs closeSub closeSub_runs (elements (rf_subs rf)) h) as [S1 S2].
  etrans; [by apply shrinks_same; split; [exact S1|exact S2]|]. apply (shrinks_cancel r f rf rf); [by rewrite S2|done].
Qed.

Lemma unsubscribe_shrinks r s h : shrinks h (unsubscribe r s h).
Proof.
  unfold unsubscribe. destruct (fanoutOf r h) as [[f rf]|] eqn:E; [|done]. apply fanoutOf_Some in E as [_ E].
  case_match; [done|]. set (rf' := mkFanout (rf_subs rf ∖ {[s]}) (rf_notify rf) (rf_cancelled rf)).
  pose proof (closeSub_runs s (h_set_fanout f rf' h)) as [S1 S2].
  assert (shrinks h (closeSub s (h_set_fanout f rf' h))) as Hc.
  { etrans; [apply (shrinks_fanout f rf rf' h E); cbn; set_solver|by apply shrinks_same]. }
  case_match; [|done]. etrans; [exact Hc|]. apply (shrinks_cancel r f rf' rf'); [|done].
  rewrite S2. cbn. apply lookup_insert_eq.
Qed.

(** Which channels an operation touches, and how. *)
Definition effectOn (P : nat -> Prop) `{!forall i, Decision (P i)} (eff : chanState -> chanState) (h h' : Hub) : Prop :=
  forall i, h_chans h' !! i = (if decide (P i) then eff else id) <$> h_chans h !! i.

#[export] Instance liveSub_dec h r s : Decision (liveSub h r s).
Proof.
  destruct (fanoutOf r h) as [[f rf]|] eqn:E.
  - destruct (decide (s ∈ rf_subs rf)) as [Hin|Hin]; [left; exists f, rf; auto|right].
    intros (g & rg & E' & Hin'). rewrite E in E'. by injection E' as <- <-.
  - right. intros (g & rg & E' & _). by rewrite E in E'.
Defined.

Lemma effectOn_if (P Q : nat -> Prop) `{!forall i, Decision (P i)} `{!forall i, Decision (Q i)} eff h h' :
  (forall i, Q i <-> P i) -> (forall i, h_chans h' !! i = (if decide (Q i) then eff <$> h_chans h !! i else h_chans h !! i)) ->
  effectOn P eff h h'.
Proof.
  intros Hpq Hc i. rewrite Hc. destruct (decide (Q i)) as [Hq|Hq].
  - rewrite decide_True by (by apply Hpq). done.
  - rewrite decide_False by (by rewrite <-Hpq). by rewrite option_fmap_id.
Qed.

Lemma fanout_effect r v h : effectOn (liveSub h r) (sent v) h (fanout r v h).
Proof.
  destruct (fanoutOf r h) as [[f rf]|] eqn:E.
  - apply (effectOn_if _ (.∈ elements (rf_subs rf))); [intros i; symmetry; by apply (live_elements h r f)|].
    intros i. by apply (fanout_chans r v h f).
  - intros i. unfold fanout. rewrite E. rewrite decide_False; [by rewrite option_fmap_id|].
    intros (g & rg & E' & _). by rewrite E in E'.
Qed.

Lemma closeRun_effect r h : effectOn (liveSub h r) closed h (closeRun r h).
Proof.
  unfold closeRun. destruct (fanoutOf r h) as [[f rf]|] eqn:E.
  - apply (effectOn_if _ (.∈ elements (rf_subs rf))); [intros i; symmetry; by apply (live_elements h r f)|].
    intros i. apply closeSubs_chans.
  - intros i. rewrite decide_False; [by rewrite option_fmap_id|]. intros (g & rg & E' & _). by rewrite E in E'.
Qed.

Lemma unsubscribe_effect r s h : effectOn (fun i => i = s /\ liveSub h r i) closed h (unsubscribe r s h).
Proof.
  unfold unsubscribe. destruct (fanoutOf r h) as [[f rf]|] eqn:E.
  - assert (liveSub h r s <-> s ∈ rf_subs rf) as Hl.
    { rewrite (live_elements h r f rf s E). apply elem_of_elements. }
    case_bool_decide as Hin; cbn [negb].
    + set (rf' := mkFanout (rf_subs rf ∖ {[s]}) (rf_notify rf) (rf_cancelled rf)).
      apply (effectOn_if _ (.∈ [s])).
      * intros i. rewrite list_elem_of_singleton. split; [intros ->; tauto|tauto].
      * intros i. etrans; [|apply (closeSub_one s (h_set_fanout f rf' h) i)]. by case_match.
    + intros i. rewrite decide_False; [by rewrite option_fmap_id|]. intros [-> ?]. tauto.
  - intros i. rewrite decide_False; [by rewrite option_fmap_id|]. intros (_ & g & rg & E' & _). by rewrite E in E'.
Qed.

(** An operation that opens nothing and changes each channel as the specification
    changes its subscription. *)
Lemma abstracts_effect (P : nat -> Prop) `{!forall i, Decision (P i)} eff h h' loops loops' m (sel : nat -> subscription -> bool) f :
  hub_ok h loops -> hub_ok h' loops' -> shrinks h h' -> effectOn P eff h h' ->
  (forall c, ch_closed c = true -> ch_closed (eff c) = true) ->
  (forall s c p, h_chans h !! s = Some c -> m !! s = Some p -> standsFor h s c p ->
     let p' := if sel s p then f p else p in let c' := if decide (P s) then eff c else c in
     sb_run p' = sb_run p /\ sb_open p' = negb (ch_closed c') /\ sb_mail p' = ch_buf c') ->
  abstracts h m -> abstracts h' (onSubs sel f m).
Proof.
  intros Hok1 Hok2 Hs He Hc Hf Ha s. specialize (Ha s). rewrite He, onSubs_lookup.
  destruct (h_chans h !! s) as [c|] eqn:E; cbn; [|by rewrite Ha]. destruct Ha as (p & Ep & Hp).
  rewrite Ep. cbn. eexists. split; [done|]. destruct (Hf s c p E Ep Hp) as (Hr & Ho & Hm).
  replace ((if decide (P s) then eff else id) c) with (if decide (P s) then eff c else c) by (by case_decide).
  split; [exact Ho|]. split; [exact Hm|]. intros Hopen. rewrite Hr.
  destruct (proj1 (ok_open _ _ Hok2 s)) as [r' Hr'].
  { eexists. split; [rewrite He, E; reflexivity|]. by case_decide. }
  assert (ch_closed c = false) as Ec.
  { destruct (ch_closed c) eqn:Ec; [|done]. case_decide; [by rewrite (Hc _ Ec) in Hopen|congruence]. }
  destruct Hp as (_ & _ & Hlive). by rewrite (ok_once _ _ Hok1 _ _ _ (Hlive Ec) (shrinks_live _ _ Hs _ _ Hr')).
Qed.

(** ** The simulation *)

Section simulate.
Context (h h' : Hub) (loops loops' : gmap nat (string * loopPhase)) (m : gmap nat subscription).
Hypotheses (Hok : hub_ok h loops) (Hok' : hub_ok h' loops') (Ha : abstracts h m).

Lemma abs_silent : shrinks h h' -> h_chans h' = h_chans h -> abstracts h' m.
Proof.
  intros Hs Hc. assert (onSubs (fun _ _ => false) (fun p => p) m = m) as <-.
  { apply map_eq. intros s. rewrite onSubs_lookup. by destruct (m !! s). }
  apply (abstracts_effect (fun _ => False) id h h' loops loops'); try done.
  - intros i. rewrite Hc. case_decide; [done|by rewrite option_fmap_id].
  - intros s c p _ _ (H1 & H2 & _). cbv zeta. by case_decide.
Qed.

(** On the subscribers of [r]. *)
Lemma abs_run r eff f : shrinks h h' -> effectOn (liveSub h r) eff h h' ->
  (forall c, ch_closed c = true -> eff c = c) -> (forall p, sb_open p = false -> f p = p) -> (forall p, sb_run (f p) = sb_run p) ->
  (forall c p, sb_open p = negb (ch_closed c) -> sb_mail p = ch_buf c ->
     sb_open (f p) = negb (ch_closed (eff c)) /\ sb_mail (f p) = ch_buf (eff c)) ->
  abstracts h' (onSubs (subsOf r) f m).
Proof.
  intros Hs He Hc Hfc Hr Hf. eapply (abstracts_effect _ eff h h' loops loops'); eauto.
  { intros c Ec. by rewrite Hc. }
  intros s c p _ _ (H1 & H2 & H3). cbv zeta. destruct (ch_closed c) eqn:Ec; cbn in H1.
  - rewrite Hfc by done. replace (if decide _ then eff c else c) with c by (case_decide; by rewrite ?Hc).
    rewrite Ec. by destruct (subsOf r s p).
  - specialize (H3 eq_refl). unfold subsOf, ofRun. case_bool_decide as Hrun.
    + subst r. rewrite decide_True by done. split; [done|]. apply Hf; [by rewrite Ec|done].
    + rewrite decide_False; [by rewrite Ec|]. intros Hl. by apply Hrun, (ok_once _ _ Hok _ _ s).
Qed.

(** On one channel. *)
Lemma abs_one s0 (P : nat -> Prop) `{!forall i, Decision (P i)} eff f : shrinks h h' -> effectOn P eff h h' ->
  (forall i, P i -> i = s0) -> (forall c, ch_closed c = true -> ch_closed (eff c) = true) -> (forall p, sb_run (f p) = sb_run p) ->
  (forall c p, h_chans h !! s0 = Some c -> m !! s0 = Some p -> standsFor h s0 c p ->
     let c' := if decide (P s0) then eff c else c in sb_open (f p) = negb (ch_closed c') /\ sb_mail (f p) = ch_buf c') ->
  abstracts h' (onSubs (theSub s0) f m).
Proof.
  intros Hs He HP Hc Hr Hf. eapply (abstracts_effect P eff h h' loops loops'); eauto.
  intros s c p Ec Ep Hp. cbv zeta. unfold theSub. case_bool_decide as Hi.
  - subst s. split; [done|]. by apply Hf.
  - destruct Hp as (H1 & H2 & _). rewrite decide_False; [done|]. intros Hi'. by apply Hi, HP.
Qed.
End simulate.

Lemma abs_register h h' loops m r s f started : hub_ok h loops -> abstracts h m ->
  s ∉ dom (h_chans h) -> f ∉ dom (h_fanouts h) -> register r s f h = (h', started) ->
  m !! s = None /\ abstracts h' (<[s := mkSub r Starting true None]> m).
Proof.
  intros Hok Ha Hs Hf E. destruct (register_live r s f h h' started loops (ok_loops _ _ Hok) Hf E) as [_ Hl].
  destruct (register_chans r s f h h' started E) as (Hc & _ & _). apply not_elem_of_dom in Hs.
  pose proof (Ha s) as Hsp. rewrite Hs in Hsp. split; [done|].
  intros i. rewrite Hc. destruct (decide (i = s)) as [->|Hi].
  - rewrite !lookup_insert_eq. eexists. split; [done|]. split; [done|]. split; [done|]. intros _. apply Hl. auto.
  - rewrite !lookup_insert_ne by congruence. specialize (Ha i). destruct (h_chans h !! i) as [c|]; [|done].
    destruct Ha as (p & Ep & H1 & H2 & H3). exists p. split; [done|]. split; [done|]. split; [done|]. intros Ho. apply Hl. auto.
Qed.

Lemma sendTo_effect v s h : effectOn (fun i => i = s) (sent v) h (sendTo v s h).
Proof. apply (effectOn_if _ (fun i => i = s)); [done|]. intros i. apply sendTo_chans. Qed.

Lemma receive_effect s v cl h : h_chans h !! s = Some (mkChan (Some v) cl) ->
  effectOn (fun i => i = s) (fun c => mkChan None (ch_closed c)) h (h_set_chan s (Some (mkChan None cl)) h).
Proof.
  intros E i. cbn. destruct (decide (i = s)) as [->|Hi].
  - by rewrite lookup_insert_eq, E.
  - by rewrite lookup_insert_ne, option_fmap_id by congruence.
Qed.

Lemma deliver_sent v c p : sb_open p = negb (ch_closed c) -> sb_mail p = ch_buf c ->
  sb_open (deliver v p) = negb (ch_closed (sent v c)) /\ sb_mail (deliver v p) = ch_buf (sent v c).
Proof. intros H1 H2. unfold deliver, sent. rewrite H1. by destruct (ch_closed c) eqn:E; cbn; rewrite ?E. Qed.

Lemma deliver_run v p : sb_run (deliver v p) = sb_run p.
Proof. unfold deliver. by case_match. Qed.

Lemma shut_shut p : sb_open p = false -> shut p = p.
Proof. by destruct p as [r m [] b]. Qed.

Lemma closed_fix c : ch_closed c = true -> closed c = c.
Proof. by destruct c as [b []]. Qed.

Lemma sent_fix v c : ch_closed c = true -> sent v c = c.
Proof. unfold sent. by intros ->. Qed.

(** How far the calls and the loops are, under the operations. *)
Definition modes (subs : gmap nat (string * subPhase)) (m : gmap nat subscription) : Prop :=
  forall s r ph, subs !! s = Some (r, ph) -> exists p, m !! s = Some p /\ sb_run p = r /\ sb_mode p = modeOf ph.

Lemma modes_kept subs m sel f : (forall p, sb_run (f p) = sb_run p /\ sb_mode (f p) = sb_mode p) ->
  modes subs m -> modes subs (onSubs sel f m).
Proof.
  intros Hf Hm s r ph E. destruct (Hm s r ph E) as (p & Ep & Hr & Hmo). rewrite onSubs_lookup, Ep. cbn. eexists. split; [done|].
  destruct (Hf p) as [F1 F2]. case_match; [by rewrite F1, F2|done].
Qed.

Lemma modes_phase subs m s r ph ph' : modeOf ph' = modeOf ph -> subs !! s = Some (r, ph) -> modes subs m ->
  modes (<[s := (r, ph')]> subs) m.
Proof.
  intros Hph E Hm i r' ph'' [[<- [= <- <-]]|[Hi E']]%lookup_insert_Some; [|by apply Hm].
  rewrite Hph. by apply Hm.
Qed.

Lemma modes_enter subs m s r ph ph' f : (forall p, sb_run (f p) = sb_run p /\ sb_mode (f p) = modeOf ph') ->
  subs !! s = Some (r, ph) -> modes subs m -> modes (<[s := (r, ph')]> subs) (onSubs (theSub s) f m).
Proof.
  intros Hf E Hm i r' ph''. setoid_rewrite onSubs_lookup. unfold theSub. intros [[<- [= <- <-]]|[Hi E']]%lookup_insert_Some.
  - destruct (Hm _ _ _ E) as (p & -> & Hr & _). cbn. rewrite bool_decide_true by done. eexists. split; [done|].
    destruct (Hf p) as [F1 F2]. by rewrite F1, F2.
  - destruct (Hm _ _ _ E') as (p & -> & Hp). cbn. rewrite bool_decide_false by congruence. by exists p.
Qed.

Lemma modes_gone subs m s f : modes subs m -> modes (delete s subs) (onSubs (theSub s) f m).
Proof.
  intros Hm i r ph [Hi E]%lookup_delete_Some. destruct (Hm _ _ _ E) as (p & Ep & Hp). rewrite onSubs_lookup, Ep. cbn.
  unfold theSub. rewrite bool_decide_false by congruence. by exists p.
Qed.

(** What the reads returned, and the loops that end their run. *)
Definition readsOk (loops : gmap nat (string * loopPhase)) (ended : gset string) : Prop :=
  forall f r ph, loops !! f = Some (r, ph) -> match ph with LWait => True | LRead v => sn_run v = r | LClose => r ∈ ended end.
Definition initialOk (subs : gmap nat (string * subPhase)) : Prop :=
  forall s r ph, subs !! s = Some (r, ph) -> match ph with SRead v => sn_run v = r | _ => True end.

Lemma refines_alt sy sp : refines sy sp <->
  abstracts (sy_hub sy) (sp_subs sp) /\ modes (sy_subs sy) (sp_subs sp) /\ initialOk (sy_subs sy) /\ readsOk (sy_loops sy) (sp_ended sp).
Proof.
  split.
  - intros [R1 R2 R3 R4 R5]. split; [done|]. split; [done|]. split; [intros s r []|intros f r []]; naive_solver.
  - intros (R1 & R2 & R3 & R4). split; [done|done|..].
    + intros s r v E. exact (R3 _ _ _ E).
    + intros f r v E. exact (R4 _ _ _ E).
    + intros f r E. exact (R4 _ _ _ E).
Qed.

Lemma initialOk_insert subs s r ph : match ph with SRead v => sn_run v = r | _ => True end -> initialOk subs ->
  initialOk (<[s := (r, ph)]> subs).
Proof. intros Hp Hi i r' ph' [[<- [= <- <-]]|[_ E]]%lookup_insert_Some; [done|by eapply Hi]. Qed.
Lemma initialOk_delete subs s : initialOk subs -> initialOk (delete s subs).
Proof. intros Hi i r' ph' [_ E]%lookup_delete_Some. by eapply Hi. Qed.

Lemma readsOk_insert loops ended f r ph : match ph with LWait => True | LRead v => sn_run v = r | LClose => r ∈ ended end ->
  readsOk loops ended -> readsOk (<[f := (r, ph)]> loops) ended.
Proof. intros Hp Hi i r' ph' [[<- [= <- <-]]|[_ E]]%lookup_insert_Some; [done|by eapply Hi]. Qed.
Lemma readsOk_delete loops ended f : readsOk loops ended -> readsOk (delete f loops) ended.
Proof. intros Hi i r' ph' [_ E]%lookup_delete_Some. by eapply Hi. Qed.
Lemma readsOk_more loops ended ended' : ended ⊆ ended' -> readsOk loops ended -> readsOk loops ended'.
Proof. intros Hs Hi f r ph E. specialize (Hi f r ph E). destruct ph; set_solver. Qed.

(** [l] takes the specification along a step that ends in [sy']. *)
Definition matched (l : option hubEvent) (sp : Spec) (sy' : Sys) : Prop :=
  match l with
  | Some e => exists sp', specStep e sp = Some sp' /\ refines sy' sp'
  | None => refines sy' sp
  end.

Section steps.
Context (sy : Sys) (sp : Spec).
Hypotheses (Hwf : wf sy) (Href : refines sy sp).

(** The subscription of a [Subscribe] call in progress. *)
Lemma sub_of s r ph : sy_subs sy !! s = Some (r, ph) ->
  exists p, sp_subs sp !! s = Some p /\ sb_run p = r /\ sb_mode p = modeOf ph.
Proof using Href. apply (rf_modes _ _ Href). Qed.

Lemma atSub_ok s p ok f : sp_subs sp !! s = Some p -> ok p = true ->
  atSub s ok f sp = Some (mkSpec (onSubs (theSub s) f (sp_subs sp)) (sp_ended sp)).
Proof using. intros E Hp. unfold atSub. by rewrite E, Hp. Qed.

Lemma subscribe_matched r s f h started : s ∉ dom (h_chans (sy_hub sy)) -> f ∉ dom (h_fanouts (sy_hub sy)) ->
  register r s f (sy_hub sy) = (h, started) ->
  matched (Some (EvSubscribe r s)) sp
    (mkSys h (if started : bool then <[f := (r, LWait)]> (sy_loops sy) else sy_loops sy) (<[s := (r, SRegistered)]> (sy_subs sy))).
Proof using Hwf Href.
  intros Hs Hf E. pose proof (proj1 (refines_alt _ _) Href) as (R1 & R2 & R3 & R4). destruct Hwf as [Hok Hd _].
  destruct (abs_register _ _ _ _ _ _ _ _ Hok R1 Hs Hf E) as [Hno Ha]. cbn. rewrite Hno. eexists. split; [done|].
  apply refines_alt. split; [exact Ha|]. split; [|split; [by apply initialOk_insert|destruct started; [by apply readsOk_insert|done]]].
  intros i r' ph. cbn. intros [[<- [= <- <-]]|[Hi E']]%lookup_insert_Some.
  - rewrite lookup_insert_eq. by eexists.
  - rewrite lookup_insert_ne by done. by apply R2.
Qed.

Lemma send_matched s r v : sy_subs sy !! s = Some (r, SRead v) ->
  hub_ok (sendTo v s (sy_hub sy)) (sy_loops sy) ->
  matched (Some (EvSend s v)) sp (mkSys (sendTo v s (sy_hub sy)) (sy_loops sy) (<[s := (r, SReturned)]> (sy_subs sy))).
Proof using Hwf Href.
  intros E Hok'. pose proof (proj1 (refines_alt _ _) Href) as (R1 & R2 & R3 & R4). destruct (sub_of _ _ _ E) as (p & Ep & Hr & Hm).
  cbn. rewrite (atSub_ok s p) by (done || unfold inMode, ofRun; rewrite Hm, Hr, (R3 _ _ _ E), !bool_decide_true; done).
  eexists. split; [done|]. apply refines_alt. split; [|split; [|split; [by apply initialOk_insert|done]]]; cbn.
  - apply (abs_one _ _ _ _ _ (wf_hub _ Hwf) Hok' R1 s (fun i => i = s) (sent v)); [apply shrinks_same, sendTo_runs|apply sendTo_effect|done| | |].
    + intros c Hc. by rewrite sent_fix.
    + intros q. apply deliver_run.
    + intros c q _ _ (H1 & H2 & _). cbv zeta. rewrite decide_True by done. by apply deliver_sent.
  - eapply modes_enter; [|exact E|done]. intros q. split; [apply deliver_run|done].
Qed.

Lemma noSnapshot_matched s r : sy_subs sy !! s = Some (r, SCounted) ->
  matched (Some (EvNoSnapshot s)) sp (mkSys (sy_hub sy) (sy_loops sy) (<[s := (r, SReturned)]> (sy_subs sy))).
Proof using Hwf Href.
  intros E. pose proof (proj1 (refines_alt _ _) Href) as (R1 & R2 & R3 & R4). destruct (sub_of _ _ _ E) as (p & Ep & Hr & Hm).
  cbn. rewrite (atSub_ok s p) by (done || unfold inMode; rewrite Hm, bool_decide_true; done).
  eexists. split; [done|]. apply refines_alt. split; [|split; [|split; [by apply initialOk_insert|done]]]; cbn.
  - pose proof (wf_hub _ Hwf) as Hok. apply (abs_one _ _ _ _ _ Hok Hok R1 s (fun _ => False) id); try done.
    + intros i. case_decide; [done|by rewrite option_fmap_id].
    + intros c q _ _ (H1 & H2 & _). cbv zeta. by case_decide.
  - by eapply modes_enter; [|exact E|].
Qed.

Lemma receive_matched s v cl : h_chans (sy_hub sy) !! s = Some (mkChan (Some v) cl) ->
  matched (Some (EvReceive s v)) sp (mkSys (h_set_chan s (Some (mkChan None cl)) (sy_hub sy)) (sy_loops sy) (sy_subs sy)).
Proof using Hwf Href.
  intros E. pose proof (proj1 (refines_alt _ _) Href) as (R1 & R2 & R3 & R4). pose proof (wf_hub _ Hwf) as Hok.
  pose proof (R1 s) as Hs. rewrite E in Hs. destruct Hs as (p & Ep & _ & Hm & _).
  cbn. rewrite (atSub_ok s p) by (done || by apply bool_decide_true). eexists. split; [done|].
  apply refines_alt. split; [|split; [|done]]; cbn.
  - apply (abs_one _ _ _ _ _ Hok (proj1 (receive_ok _ _ _ _ _ E Hok)) R1 s (fun i => i = s) (fun c => mkChan None (ch_closed c)));
      [by apply shrinks_same|by eapply receive_effect|done|done|done|].
    intros c q _ _ (H1 & H2 & _). cbv zeta. by rewrite decide_True.
  - by apply modes_kept.
Qed.

Lemma leave_matched s r : sy_subs sy !! s = Some (r, SReturned) ->
  matched (Some (EvLeave r s)) sp (mkSys (unsubscribe r s (sy_hub sy)) (sy_loops sy) (delete s (sy_subs sy))).
Proof using Hwf Href.
  intros E. pose proof (proj1 (refines_alt _ _) Href) as (R1 & R2 & R3 & R4). pose proof (wf_hub _ Hwf) as Hok.
  destruct (sub_of _ _ _ E) as (p & Ep & Hr & Hm).
  cbn. rewrite (atSub_ok s p) by (done || unfold inMode, ofRun; rewrite Hm, Hr, !bool_decide_true; done).
  eexists. split; [done|]. apply refines_alt. split; [|split; [|split; [by apply initialOk_delete|done]]]; cbn.
  - destruct (unsubscribe_ok r s _ _ Hok) as (Hok' & _).
    apply (abs_one _ _ _ _ _ Hok Hok' R1 s (fun i => i = s /\ liveSub (sy_hub sy) r i) closed);
      [apply unsubscribe_shrinks|apply unsubscribe_effect|by intros i [? _]|done|done|].
    intros c q _ Eq (H1 & H2 & H3). cbv zeta. replace q with p in * by congruence. destruct (ch_closed c) eqn:Ec.
    + case_decide; cbn; rewrite ?Ec; done.
    + rewrite decide_True; [done|]. split; [done|]. rewrite <-Hr. by apply H3.
  - by apply modes_gone.
Qed.

Lemma publish_matched f r v : sy_loops sy !! f = Some (r, LRead v) ->
  matched (Some (EvPublish r v)) sp (mkSys (fanout r v (sy_hub sy))
    (<[f := (r, if isTerminalRunStatus (sn_status v) then LClose else LWait)]> (sy_loops sy)) (sy_subs sy)).
Proof using Hwf Href.
  intros E. pose proof (proj1 (refines_alt _ _) Href) as (R1 & R2 & R3 & R4). pose proof (wf_hub _ Hwf) as Hok.
  destruct (fanout_ok r v _ _ Hok) as (Hok' & _). cbn. rewrite bool_decide_true by exact (R4 _ _ _ E). eexists. split; [done|].
  apply refines_alt. split; [|split; [|split; [done|]]]; cbn.
  - apply (abs_run _ _ _ _ _ Hok Hok' R1 r (sent v)); [apply fanout_shrinks|apply fanout_effect|apply sent_fix| | |].
    + intros p Hp. unfold deliver. by rewrite Hp.
    + apply deliver_run.
    + apply deliver_sent.
  - apply modes_kept; [|done]. intros p. unfold deliver. by case_match.
  - destruct (isTerminalRunStatus (sn_status v)).
    + apply readsOk_insert; [set_solver|]. eapply readsOk_more, R4. set_solver.
    + by apply readsOk_insert.
Qed.

Lemma end_matched f r : sy_loops sy !! f = Some (r, LClose) ->
  matched (Some (EvEnd r)) sp (mkSys (closeRun r (sy_hub sy)) (delete f (sy_loops sy)) (sy_subs sy)).
Proof using Hwf Href.
  intros E. pose proof (proj1 (refines_alt _ _) Href) as (R1 & R2 & R3 & R4). pose proof (wf_hub _ Hwf) as Hok.
  destruct (closeRun_ok _ _ _ _ _ Hok E) as (Hok' & _). cbn. rewrite bool_decide_true by exact (R4 _ _ _ E). eexists. split; [done|].
  apply refines_alt. split; [|split; [|split; [done|by apply readsOk_delete]]]; cbn.
  - by apply (abs_run _ _ _ _ _ Hok Hok' R1 r closed);
      [apply closeRun_shrinks|apply closeRun_effect|apply closed_fix|apply shut_shut|..].
  - by apply modes_kept.
Qed.
End steps.

(** The event of every step is possible in the specification, and leads to a state
    the hub stands for. *)
Lemma step_matched sy l sy' sp : wf sy -> lstep sy l sy' -> refines sy sp -> matched l sp sy'.
Proof.
  intros Hwf Hs Href. pose proof (wf_hub _ (step_wf sy sy' Hwf (ex_intro _ l Hs))) as Hok'.
  pose proof (proj1 (refines_alt _ _) Href) as (R1 & R2 & R3 & R4). pose proof (wf_hub _ Hwf) as Hok.
  destruct Hs as [sy r | sy r s f h st Hs Hf E | sy s r E | sy s r v E Hv | sy s r E
    | sy s r v E | sy s r E | sy s v cl E | sy f r rf E Ef Hc | sy f r v E Hv | sy f r E | sy f r v E | sy f r E]; cbn [sy_hub sy_loops] in *;
    try (apply refines_alt; cbn [sy_hub sy_loops sy_subs]; split; [|split; [|split]]).
  - eapply (abs_silent _ _ _ _ _ Hok Hok' R1); [apply poke_shrinks|apply poke_same].
  - done.
  - done.
  - done.
  - by apply subscribe_matched.
  - by eapply (abs_silent _ _ _ _ _ Hok Hok' R1); [apply shrinks_same|].
  - by eapply modes_phase; [|exact E|].
  - by apply initialOk_insert.
  - done.
  - done.
  - by eapply modes_phase; [|exact E|].
  - by apply initialOk_insert.
  - done.
  - by apply noSnapshot_matched.
  - by apply send_matched.
  - by apply leave_matched.
  - by apply receive_matched.
  - done.
  - done.
  - done.
  - by apply readsOk_delete.
  - eapply (abs_silent _ _ _ _ _ Hok Hok' R1); [apply clear_shrinks|apply clear_same].
  - done.
  - done.
  - by apply readsOk_insert.
  - eapply (abs_silent _ _ _ _ _ Hok Hok' R1); [apply clear_shrinks|apply clear_same].
  - done.
  - done.
  - done.
  - by apply publish_matched.
  - by apply end_matched.
Qed.

(** ** What the specification guarantees *)

Lemma specRun_app es1 es2 sp : specRun (es1 ++ es2) sp = specRun es1 sp ≫= specRun es2.
Proof.
  revert sp. induction es1 as [|e es1 IH]; intros sp; [done|]. cbn. destruct (specStep e sp) as [sp'|]; cbn; [apply IH|done].
Qed.

Lemma addressed_app es e s r v : addressed es s r v -> addressed (es ++ [e]) s r v.
Proof.
  intros [Hr (es1 & es2 & -> & H)]. split; [done|]. exists es1, (es2 ++ [e]). split; [by rewrite <-app_assoc|].
  destruct H; [left|right]; apply elem_of_app; by left.
Qed.

Lemma endedIn_app es e r : endedIn es r -> endedIn (es ++ [e]) r.
Proof. intros (v & H & Hv). exists v. split; [apply elem_of_app; by left|done]. Qed.

(** What an event did to one subscription. *)
Definition follows (e : hubEvent) (sp : Spec) (s : nat) (p p' : subscription) : Prop :=
  sb_run p' = sb_run p
  /\ (forall v, sb_mail p' = Some v ->
       sb_mail p = Some v \/ (sn_run v = sb_run p /\ (e = EvSend s v \/ e = EvPublish (sb_run p) v)))
  /\ (sb_open p' = false -> sb_open p = false \/ e = EvLeave (sb_run p) s \/ sb_run p ∈ sp_ended sp).

Lemma follows_same e sp s p : follows e sp s p p.
Proof. split; [done|]. split; auto. Qed.

Lemma explained_event es e sp sp' : explained es sp ->
  (forall s p', sp_subs sp' !! s = Some p' ->
     (e = EvSubscribe (sb_run p') s /\ sb_mail p' = None /\ sb_open p' = true)
     \/ exists p, sp_subs sp !! s = Some p /\ follows e sp s p p') ->
  (forall r, r ∈ sp_ended sp' -> r ∈ sp_ended sp \/ exists v, e = EvPublish r v /\ sn_run v = r /\ isTerminalRunStatus (sn_status v) = true) ->
  (forall s v, e = EvReceive s v -> exists p, sp_subs sp !! s = Some p /\ sb_mail p = Some v) ->
  explained (es ++ [e]) sp'.
Proof.
  intros [X1 X2 X3 X4 X5] Hsubs Hend Hrecv. split.
  - intros s p' Ep'. destruct (Hsubs s p' Ep') as [[-> _]|(p & Ep & -> & _)]; [by exists es, []|].
    destruct (X1 s p Ep) as (es1 & es2 & ->). exists es1, (es2 ++ [e]). by rewrite <-app_assoc.
  - intros s p' v Ep' Hv. destruct (Hsubs s p' Ep') as [(_ & Hn & _)|(p & Ep & -> & Hm & _)]; [congruence|].
    destruct (Hm v Hv) as [Hv'|[Hr He]]; [by eapply addressed_app, X2|].
    destruct (X1 s p Ep) as (es1 & es2 & ->). split; [done|]. exists es1, (es2 ++ [e]). split; [by rewrite <-app_assoc|].
    destruct He as [-> | ->]; [left|right]; apply elem_of_app; right; by left.
  - intros s p' Ep' Ho. destruct (Hsubs s p' Ep') as [(_ & _ & Hn)|(p & Ep & -> & _ & Hc)]; [congruence|].
    destruct (Hc Ho) as [Hc'|[-> |He]].
    + destruct (X3 s p Ep Hc') as [H|H]; [left; apply elem_of_app; by left|right; by apply endedIn_app].
    + left. apply elem_of_app. right. by left.
    + right. by apply endedIn_app, X4.
  - intros r [Hr|(v & -> & Hv)]%Hend; [by apply endedIn_app, X4|]. exists v. split; [apply elem_of_app; right; by left|done].
  - intros es1 s v es2. destruct es2 as [|e' es2 _] using rev_ind; intros E.
    + apply app_inj_tail in E as [-> ->]. destruct (Hrecv s v eq_refl) as (p & Ep & Hv). exists (sb_run p). by eapply X2.
    + rewrite app_comm_cons, app_assoc in E. apply app_inj_tail in E as [-> _]. by eapply X5.
Qed.

Lemma atSub_back s ok f sp sp' : atSub s ok f sp = Some sp' ->
  exists p, sp_subs sp !! s = Some p /\ ok p = true /\ sp' = mkSpec (onSubs (theSub s) f (sp_subs sp)) (sp_ended sp).
Proof. unfold atSub. destruct (sp_subs sp !! s) as [p|]; [|done]. destruct (ok p) eqn:E; [|done]. intros [= <-]. by exists p. Qed.

(** An event of one subscription. *)
Lemma explained_one es e sp s p f : explained es sp -> sp_subs sp !! s = Some p -> follows e sp s p (f p) ->
  (forall s' v, e = EvReceive s' v -> s' = s /\ sb_mail p = Some v) ->
  explained (es ++ [e]) (mkSpec (onSubs (theSub s) f (sp_subs sp)) (sp_ended sp)).
Proof.
  intros Hx Ep Hf Hr. apply (explained_event _ _ sp); [done| |cbn; auto|].
  - intros i p' Hp'. right. cbn in Hp'. apply onSubs_back in Hp' as (q & Eq & ->). exists q. split; [done|].
    unfold theSub. case_bool_decide as Hi; [subst i|apply follows_same]. by replace q with p by congruence.
  - intros s' v He. destruct (Hr s' v He) as [-> Hv]. by exists p.
Qed.

(** An event of a run. *)
Lemma explained_run es e sp r f ended : explained es sp -> (forall s v, e <> EvReceive s v) ->
  (forall s p, sb_run p = r -> follows e sp s p (f p)) ->
  (forall r, r ∈ ended -> r ∈ sp_ended sp \/ exists v, e = EvPublish r v /\ sn_run v = r /\ isTerminalRunStatus (sn_status v) = true) ->
  explained (es ++ [e]) (mkSpec (onSubs (subsOf r) f (sp_subs sp)) ended).
Proof.
  intros Hx Hne Hf Hend. apply (explained_event _ _ sp); [done| |exact Hend|].
  - intros i p' Hp'. right. cbn in Hp'. apply onSubs_back in Hp' as (q & Eq & ->). exists q. split; [done|].
    unfold subsOf, ofRun. case_bool_decide; [by apply Hf|apply follows_same].
  - intros s v He. by destruct (Hne s v).
Qed.

Lemma deliver_follows e sp s p v : sn_run v = sb_run p -> e = EvSend s v \/ e = EvPublish (sb_run p) v ->
  follows e sp s p (deliver v p).
Proof.
  intros Hv He. unfold deliver. destruct (sb_open p) eqn:Ho; [|apply follows_same]. split; [done|]. split; [|done].
  intros w [= <-]. auto.
Qed.

Lemma specStep_explained es e sp sp' : explained es sp -> specStep e sp = Some sp' -> explained (es ++ [e]) sp'.
Proof.
  intros Hx E. destruct e as [r s|s v|s|r v|s v|r s|r]; cbn in E.
  - destruct (sp_subs sp !! s) eqn:Es; [done|]. injection E as <-. apply (explained_event _ _ sp); [done| |cbn; auto|done].
    intros i p'. cbn. intros [[<- <-]|[Hi Hp]]%lookup_insert_Some; [by left|right]. exists p'. split; [done|apply follows_same].
  - apply atSub_back in E as (p & Ep & [Hm Hr]%andb_true_iff & ->). apply bool_decide_eq_true in Hr.
    apply (explained_one _ _ _ _ p); [done|done| |done]. exact (deliver_follows _ sp s p v (eq_sym Hr) (or_introl eq_refl)).
  - apply atSub_back in E as (p & Ep & _ & ->). apply (explained_one _ _ _ _ p); [done|done| |done].
    split; [done|]. split; auto.
  - case_bool_decide as Hv; [|done]. injection E as <-. apply explained_run; [done|done| |].
    + intros s p <-. apply deliver_follows; auto.
    + intros r'. destruct (isTerminalRunStatus (sn_status v)) eqn:Et; [|by left].
      intros [->%elem_of_singleton|Hr]%elem_of_union; [right; by exists v|by left].
  - apply atSub_back in E as (p & Ep & Hm%bool_decide_eq_true & ->). apply (explained_one _ _ _ _ p); [done|done| |].
    + split; [done|]. split; [done|auto].
    + by intros s' v' [= <- <-].
  - apply atSub_back in E as (p & Ep & [Hm Hr]%andb_true_iff & ->). apply bool_decide_eq_true in Hr.
    apply (explained_one _ _ _ _ p); [done|done| |done]. split; [done|]. split; [auto|]. cbn. rewrite Hr. auto.
  - case_bool_decide as Hr; [|done]. injection E as <-. apply explained_run; [done|done| |by left].
    intros s p <-. split; [done|]. split; auto.
Qed.

Lemma explained_init : explained [] emptySpec.
Proof. split; try done. intros [|] ? ? ? ?; done. Qed.

Lemma refines_init : refines initSys emptySpec.
Proof. by split. Qed.

Lemma execution_reachable es sy : execution es sy -> rtc sstep initSys sy.
Proof.
  induction 1 as [|es sy sy' _ IH Hs|es sy e sy' _ IH Hs]; [done|..]; (eapply rtc_r; [exact IH|by eexists]).
Qed.

Lemma reachable_execution sy : rtc sstep initSys sy -> exists es, execution es sy.
Proof.
  apply (rtc_ind_r (fun sy => exists es, execution es sy) initSys); [exists []; constructor|].
  intros y z _ [[e|] Hs] [es He]; eexists; [by eapply exec_event|by eapply exec_silent].
Qed.

Lemma execution_refines es sy : execution es sy ->
  exists sp, specRun es emptySpec = Some sp /\ refines sy sp /\ explained es sp.
Proof.
  induction 1 as [|es sy sy' Hx IH Hs|es sy e sy' Hx IH Hs].
  - exists emptySpec. split; [done|]. split; [apply refines_init|apply explained_init].
  - destruct IH as (sp & E & Hr & He). exists sp. split; [done|]. split; [|done].
    exact (step_matched _ _ _ _ (reachable_wf _ (execution_reachable _ _ Hx)) Hs Hr).
  - destruct IH as (sp & E & Hr & He).
    destruct (step_matched _ _ _ _ (reachable_wf _ (execution_reachable _ _ Hx)) Hs Hr) as (sp' & E' & Hr').
    exists sp'. split; [rewrite specRun_app, E; cbn; by rewrite E'|]. split; [done|by eapply specStep_explained].
Qed.

(** C26: The hub with its goroutines refines the mailbox specification.  From every
    reachable state, the event of each step - the one the step is, with its run,
    its subscriber and its snapshot - is possible in the specification and leads to
    a state the hub stands for; a step without an event changes nothing there.  So
    every execution runs its own events through the specification.  In it, what a
    channel holds, and what a client ever received, is a snapshot of the run the
    client subscribed to, sent to it or published for that run after it
    subscribed; and a channel is closed only when its client left or a terminal
    snapshot of its run was published. *)
Theorem hub_refines_spec :
  (forall sy l sy' sp, rtc sstep initSys sy -> lstep sy l sy' -> refines sy sp ->
     match l with Some e => exists sp', specStep e sp = Some sp' /\ refines sy' sp' | None => refines sy' sp end)
  /\ (forall es sy, execution es sy -> exists sp, specRun es emptySpec = Some sp /\ refines sy sp)
  /\ (forall es sy s c, execution es sy -> h_chans (sy_hub sy) !! s = Some c -> exists r,
        (exists es1 es2, es = es1 ++ EvSubscribe r s :: es2)
        /\ (forall v, ch_buf c = Some v -> addressed es s r v)
        /\ (ch_closed c = true -> EvLeave r s ∈ es \/ endedIn es r))
  /\ (forall es1 s v es2 sy, execution (es1 ++ EvReceive s v :: es2) sy -> exists r, addressed es1 s r v).
Proof.
  split; [|split; [|split]].
  - intros sy l sy' sp Hr Hs Href. exact (step_matched sy l sy' sp (reachable_wf sy Hr) Hs Href).
  - intros es sy Hx. destruct (execution_refines es sy Hx) as (sp & E & Hr & _). by exists sp.
  - intros es sy s c Hx Ec. destruct (execution_refines es sy Hx) as (sp & _ & Hr & [X1 X2 X3 _ _]).
    pose proof (rf_chans _ _ Hr s) as Hs. rewrite Ec in Hs. destruct Hs as (p & Ep & Ho & Hm & _).
    exists (sb_run p). split; [by apply X1|]. split.
    + intros v Hv. eapply X2; [exact Ep|congruence].
    + intros Hc. apply X3; [done|]. by rewrite Ho, Hc.
  - intros es1 s v es2 sy Hx. destruct (execution_refines _ sy Hx) as (sp & _ & _ & [_ _ _ _ X5]). by eapply X5.
Qed.

(** The race of the demonstration, and its loop's next step, as events. *)
Lemma hub_refines_spec_witness : exists es sp, specRun es emptySpec = Some sp /\ refines HubDemo.racing sp
  /\ exists sp' sy', specStep (EvPublish "run" HubDemo.succeeded) sp = Some sp' /\ refines sy' sp'.
Proof.
  destruct hub_refines_spec as (H1 & H2 & _). destruct (reachable_execution _ HubDemo.racing_reachable) as [es Hx].
  destruct (H2 es HubDemo.racing Hx) as (sp & E & Hr). exists es, sp. split; [exact E|]. split; [exact Hr|].
  destruct (H1 _ _ _ sp HubDemo.racing_reachable
    (step_loop_fanout HubDemo.racing 0%nat "run" HubDemo.succeeded eq_refl) Hr) as (sp' & E' & Hr').
  exists sp'. eexists. split; [exact E'|exact Hr'].
Defined.
