(* ===== verification/Codeowners.v ===== *)
(** * internal/codeowners

    Parsing a CODEOWNERS file and finding the owners of a path: the last rule
    whose pattern covers it. *)

From S2P Require Import Prelude Effects GoRegexp GoStrings.

(** * Package path

    [path.Match] and [filepath.Base] of Go's standard library on ASCII text, and
    what [path.Match] means: on patterns of literals, [?] and [*] it decides the
    glob relation although it never goes back to an earlier star. *)


Definition ErrBadPattern : error := Sentinel "path.ErrBadPattern".

Definition slash : class := lit "/".

(** ** The definitions *)

(** The chunk up to the next star outside brackets, and what follows it. *)
Fixpoint scanEnd (inrange : bool) (p : text) : text * text :=
  match p with
  | [] => ([], [])
  | c :: p' =>
      if lit "\" c then
        match p' with
        | d :: p'' => let '(chunk, rest) := scanEnd inrange p'' in (c :: d :: chunk, rest)
        | [] => ([c], [])
        end
      else if lit "*" c && negb inrange then ([], p)
      else
        let '(chunk, rest) := scanEnd (if lit "[" c then true else if lit "]" c then false else inrange) p' in
        (c :: chunk, rest)
  end.

Definition scanChunk (p : text) : bool * text * text :=
  let p' := dropWhile (lit "*") p in
  let '(chunk, rest) := scanEnd false p' in
  (hasPrefix p ["*"%char], chunk, rest).

(** Inside a class: whether it is negated, the ranges so far, whether there are
    any, and a low bound read that may still become a range. *)
Inductive chunkMode :=
  | Outside
  | Inside (negated : bool) (ranges : class) (some : bool) (pending : option ascii)
  | HighBound (negated : bool) (ranges : class) (lo : ascii).

Definition withPending (ranges : class) (pending : option ascii) : class :=
  match pending with Some lo => orc ranges (lit lo) | None => ranges end.

(** What [matchChunk] makes of a chunk, whatever the name: one class of
    characters per element, or [None] for [ErrBadPattern]. *)
Fixpoint parseChunk (m : chunkMode) (t : text) : option (list class) :=
  match m, t with
  | Outside, [] => Some []
  | _, [] => None
  | Outside, c :: t' =>
      if lit "?" c then cons (notc slash) <$> parseChunk Outside t'
      else if lit "[" c then
        match t' with
        | d :: t'' =>
            if lit "^" d then parseChunk (Inside true (fun _ => false) false None) t''
            else parseChunk (Inside false (fun _ => false) false None) t'
        | [] => None
        end
      else if lit "\" c then
        match t' with d :: t'' => cons (lit d) <$> parseChunk Outside t'' | [] => None end
      else cons (lit c) <$> parseChunk Outside t'
  | Inside neg ranges some pending, c :: t' =>
      match pending with
      | Some lo =>
          if lit "-" c then parseChunk (HighBound neg ranges lo) t'
          else if lit "]" c then
            cons (fun x => xorb neg (orc ranges (lit lo) x)) <$> parseChunk Outside t'
          else if lit "\" c then
            match t' with d :: t'' => parseChunk (Inside neg (orc ranges (lit lo)) true (Some d)) t'' | [] => None end
          else parseChunk (Inside neg (orc ranges (lit lo)) true (Some c)) t'
      | None =>
          if lit "]" c && some then cons (fun x => xorb neg (ranges x)) <$> parseChunk Outside t'
          else if lit "-" c || lit "]" c then None
          else if lit "\" c then
            match t' with d :: t'' => parseChunk (Inside neg ranges some (Some d)) t'' | [] => None end
          else parseChunk (Inside neg ranges some (Some c)) t'
      end
  | HighBound neg ranges lo, c :: t' =>
      if lit "-" c || lit "]" c then None
      else if lit "\" c then
        match t' with d :: t'' => parseChunk (Inside neg (orc ranges (inRange lo d)) true None) t'' | [] => None end
      else parseChunk (Inside neg (orc ranges (inRange lo c)) true None) t'
  end.

(** The rest of [s] after the elements. *)
Fixpoint matchChunk (fs : list class) (s : text) : option text :=
  match fs, s with
  | [], _ => Some s
  | f :: fs', c :: s' => if f c then matchChunk fs' s' else None
  | _ :: _, [] => None
  end.

(** A last chunk must exhaust the name. *)
Definition acceptable (last : bool) (t : text) : bool :=
  negb last || match t with [] => true | _ => false end.

(** The match after the shortest nonempty prefix without a slash. *)
Fixpoint skipMatch (fs : list class) (last : bool) (s : text) : option text :=
  match s with
  | [] => None
  | c :: s' =>
      if slash c then None
      else match matchChunk fs s' with
           | Some t => if acceptable last t then Some t else skipMatch fs last s'
           | None => skipMatch fs last s'
           end
  end.

(** The outer [None] is running out of fuel. *)
Fixpoint wellFormed (fuel : nat) (p : text) : option bool :=
  match fuel with
  | O => None
  | S fuel =>
      match p with
      | [] => Some true
      | _ =>
          let '(_, chunk, rest) := scanChunk p in
          match parseChunk Outside chunk with
          | None => Some false
          | Some _ => wellFormed fuel rest
          end
      end
  end.

Fixpoint matchLoop (fuel : nat) (p name : text) : option (result bool) :=
  match fuel with
  | O => None
  | S fuel =>
      match p with
      | [] => Some (Ok (match name with [] => true | _ => false end))
      | _ =>
          let '(star, chunk, rest) := scanChunk p in
          let last := match rest with [] => true | _ => false end in
          match star, chunk with
          | true, [] => Some (Ok (negb (existsb slash name)))
          | _, _ =>
              match parseChunk Outside chunk with
              | None => Some (Err ErrBadPattern)
              | Some fs =>
                  let here := match matchChunk fs name with
                              | Some t => if acceptable last t then Some t else None
                              | None => None
                              end in
                  match (match here with Some t => Some t | None => if star then skipMatch fs last name else None end) with
                  | Some t => matchLoop fuel rest t
                  | None => (fun ok : bool => if ok then Ok false else Err ErrBadPattern) <$> wellFormed fuel rest
                  end
              end
          end
      end
  end.

(** [path.Match] *)
Definition pathMatch (pattern name : text) : result bool :=
  default (Err ErrBadPattern) (matchLoop (S (length pattern)) pattern name).

(** [ok, _ := path.Match(..)] *)
Definition pathMatches (pattern name : text) : bool :=
  match pathMatch pattern name with Ok b => b | Err _ => false end.

(** [filepath.Base] *)
Definition filepathBase (p : text) : text :=
  match p with
  | [] => ["."%char]
  | _ =>
      match rev (dropWhile slash (rev p)) with
      | [] => ["/"%char]
      | q => match lastIndexByte q "/" with Some i => drop (S i) q | None => q end
      end
  end.

Example pathMatch_examples :
  let m p n := pathMatch (toText p) (toText n) in
  m "abc" "abc" = Ok true /\ m "a*" "abc" = Ok true /\ m "a*/b" "a/c/b" = Ok false
  /\ m "a*b*c*d*e*/f" "axbxcxdxe/f" = Ok true /\ m "a*b*c*d*e*/f" "axbxcxdxexxx/fff" = Ok false
  /\ m "ab[^e-g]" "abc" = Ok true /\ m "a\*b" "a*b" = Ok true /\ m "[]a]" "]" = Err ErrBadPattern
  /\ m "[a-]" "a" = Err ErrBadPattern /\ m "a[" "ab" = Err ErrBadPattern /\ m "*x" "xxx" = Ok true
  /\ m "a*b?c*x" "abxbbxdbxebxczzx" = Ok true /\ m "[\-x]" "-" = Ok true.
Proof. vm_compute. repeat split. Qed.

(** ** Enough fuel *)

#[local] Arguments lit : simpl never.
#[local] Arguments slash : simpl never.

Lemma scanEnd_length b p : (length (scanEnd b p).1 + length (scanEnd b p).2 = length p)%nat.
Proof.
  assert (forall n b p, (length p <= n)%nat -> (length (scanEnd b p).1 + length (scanEnd b p).2 = length p)%nat) as H; [|eauto].
  clear. induction n as [|n IH]; intros b [|c p] Hn; cbn in Hn |- *; try lia.
  destruct (lit "\" c).
  { destruct p as [|d p]; cbn in Hn |- *; [lia|]. specialize (IH b p).
    destruct (scanEnd b p) as [chunk rest]; cbn in *. lia. }
  destruct (lit "*" c && negb b); [cbn; lia|].
  match goal with |- context [scanEnd ?b' p] => specialize (IH b' p); destruct (scanEnd b' p) as [chunk rest] end. cbn in *. lia.
Qed.

Lemma dropWhile_length f t : (length (dropWhile f t) <= length t)%nat.
Proof. induction t as [|c t IH]; cbn; [lia|]. destruct (f c); cbn; lia. Qed.

(** A chunk takes something off the pattern. *)
Lemma scanChunk_shrinks p star chunk rest : p <> [] -> scanChunk p = (star, chunk, rest) -> (length rest < length p)%nat.
Proof.
  intros Hp E. unfold scanChunk in E. pose proof (scanEnd_length false (dropWhile (lit "*") p)) as Hl.
  destruct (scanEnd false _) as [chunk' rest'] eqn:Es. injection E as _ <- <-. cbn in Hl.
  destruct p as [|c p]; [done|]. cbn [dropWhile] in Es, Hl. destruct (lit "*" c) eqn:Ec.
  - pose proof (dropWhile_length (lit "*") p). cbn. lia.
  - destruct chunk' as [|d chunk']; [|cbn in *; lia]. exfalso. cbn in Es. rewrite Ec in Es. cbn in Es.
    destruct (lit "\" c); [destruct p as [|d p]; [done|destruct (scanEnd false p); done]|].
    destruct (scanEnd _ p); done.
Qed.

Lemma wellFormed_total fuel p : (length p < fuel)%nat -> is_Some (wellFormed fuel p).
Proof.
  revert p. induction fuel as [|fuel IH]; intros p Hl; [lia|]. cbn. destruct p as [|c p]; [by eexists|].
  destruct (scanChunk (c :: p)) as [[star chunk] rest] eqn:E. apply scanChunk_shrinks in E; [|done].
  destruct (parseChunk Outside chunk); [apply IH; lia|by eexists].
Qed.

(** One round of the loop per chunk: the fuel of [pathMatch] is never used up. *)
Lemma matchLoop_total fuel p name : (length p < fuel)%nat -> is_Some (matchLoop fuel p name).
Proof.
  revert p name. induction fuel as [|fuel IH]; intros p name Hl; [lia|]. cbn [matchLoop].
  destruct p as [|c p]; [by eexists|].
  destruct (scanChunk (c :: p)) as [[star chunk] rest] eqn:E. apply scanChunk_shrinks in E; [|done].
  assert (forall o : option text, is_Some (match o with Some t => matchLoop fuel rest t
    | None => (fun ok : bool => if ok then Ok false else Err ErrBadPattern) <$> wellFormed fuel rest end)) as Hrest.
  { intros [t|]; [apply IH; lia|]. apply fmap_is_Some, wellFormed_total. lia. }
  destruct star, chunk as [|d chunk]; try (by eexists); destruct (parseChunk _ _); try (by eexists); apply Hrest.
Qed.

(** ** What a pattern means *)

(** Patterns of literals, [?] and [*]. *)
Definition plain (c : ascii) : bool := negb (lit "[" c || lit "\" c).
Definition plainText (p : text) : Prop := Forall (fun c => plain c = true) p.

Definition noSlash (s : text) : Prop := existsb slash s = false.

(** [*] is any text without a slash, [?] any character but a slash. *)
Inductive globs : text -> text -> Prop :=
  | globs_nil : globs [] []
  | globs_star p seg s : noSlash seg -> globs p s -> globs ("*"%char :: p) (seg ++ s)
  | globs_any p c s : slash c = false -> globs p s -> globs ("?"%char :: p) (c :: s)
  | globs_lit p c s : lit "*" c = false -> lit "?" c = false -> globs p s -> globs (c :: p) (c :: s).

(** What one element of a chunk accepts. *)
Definition elem (c : ascii) : class := if lit "?" c then notc slash else lit c.

Definition starFree (p : text) : Prop := existsb (lit "*") p = false.

Lemma lit_eq a c : lit a c = true <-> c = a.
Proof. unfold lit. rewrite Ascii.eqb_eq. done. Qed.

Lemma lit_refl a : lit a a = true.
Proof. by apply lit_eq. Qed.

Lemma globs_nil_iff s : globs [] s <-> s = [].
Proof. split; [by inversion 1|intros ->; constructor]. Qed.

Lemma globs_star_iff p s : globs ("*"%char :: p) s <-> exists seg s', s = seg ++ s' /\ noSlash seg /\ globs p s'.
Proof.
  split; [|intros (seg & s' & -> & ? & ?); by constructor].
  inversion 1 as [|? seg s' Hs Hg| |? ? ? Hc]; subst; [by eauto|]. done.
Qed.

Lemma globs_cons_iff c p s : lit "*" c = false ->
  globs (c :: p) s <-> exists d s', s = d :: s' /\ elem c d = true /\ globs p s'.
Proof.
  intros Hc. unfold elem. split.
  - inversion 1 as [|? seg s' Hs Hg|? d s' Hd Hg|? ? s' Hc1 Hc2]; subst.
    + done.
    + exists d, s'. rewrite lit_refl. unfold notc. by rewrite Hd.
    + exists c, s'. rewrite Hc2, lit_refl. done.
  - intros (d & s' & -> & He & Hg). destruct (lit "?" c) eqn:Eq.
    + apply lit_eq in Eq as ->. constructor; [|done]. unfold notc in He. by apply negb_true_iff in He.
    + apply lit_eq in He as ->. by constructor.
Qed.

Lemma globs_chunk chunk rest s : starFree chunk ->
  globs (chunk ++ rest) s <-> exists t, matchChunk (map elem chunk) s = Some t /\ globs rest t.
Proof.
  unfold starFree. revert s. induction chunk as [|c chunk IH]; intros s Hc; cbn in *; [naive_solver|].
  apply orb_false_iff in Hc as [Hc1 Hc2]. rewrite globs_cons_iff by done. destruct s as [|d s].
  - split; [intros (? & ? & ? & _); done|intros (? & ? & _); done].
  - destruct (elem c d) eqn:E.
    + rewrite <-IH by done. split; [intros (? & ? & [= <- <-] & _ & ?); done|eauto].
    + split; [intros (? & ? & [= <- <-] & ? & _); congruence|intros (? & ? & _); done].
Qed.

Lemma noSlash_app s t : noSlash (s ++ t) <-> noSlash s /\ noSlash t.
Proof. unfold noSlash. rewrite existsb_app. apply orb_false_iff. Qed.

Lemma globs_stars p s : hasPrefix p ["*"%char] = true -> globs p s <-> globs ("*"%char :: dropWhile (lit "*") p) s.
Proof.
  destruct p as [|c p]; [done|]. change (hasPrefix (c :: p) _) with (Ascii.eqb "*" c && hasPrefix p []).
  intros [Hc%Ascii.eqb_eq _]%andb_true_iff. subst c. cbn [dropWhile]. rewrite lit_refl.
  revert s. induction p as [|c p IH]; intros s; [done|]. cbn. destruct (lit "*" c) eqn:Ec; [|done].
  apply lit_eq in Ec as ->. rewrite <-IH, (globs_star_iff ("*"%char :: p)). setoid_rewrite globs_star_iff. split.
  - intros (seg & s' & -> & H1 & seg2 & s2 & -> & H2 & H3). exists (seg ++ seg2), s2.
    rewrite app_assoc, noSlash_app. done.
  - intros (seg & s' & -> & H1 & H2). exists [], (seg ++ s'). split; [done|]. split; [done|]. eauto.
Qed.

(** ** One star suffices *)

Lemma matchChunk_prefix chunk s t : starFree chunk -> matchChunk (map elem chunk) s = Some t ->
  exists u, s = u ++ t /\ map slash u = map slash chunk.
Proof.
  unfold starFree. revert s. induction chunk as [|c chunk IH]; intros s Hc H; cbn in *.
  - injection H as <-. by exists [].
  - apply orb_false_iff in Hc as [_ Hc]. destruct s as [|d s]; [done|]. destruct (elem c d) eqn:E; [|done].
    destruct (IH s Hc H) as (u & -> & Hu). exists (d :: u). split; [done|]. cbn. rewrite Hu. f_equal.
    unfold elem in E. destruct (lit "?" c) eqn:Eq; [|by apply lit_eq in E as ->].
    apply lit_eq in Eq as ->. unfold notc in E. apply negb_true_iff in E. by rewrite E.
Qed.

Lemma shifted_false n (l m : list bool) : length m = n -> repeat false n ++ l = l ++ m -> existsb id m = false.
Proof.
  intros Hn. revert m Hn. induction l as [|b l IH]; intros m Hn E.
  - cbn in E. rewrite app_nil_r in E. rewrite <-E. clear. by induction n.
  - destruct n as [|n]; [by destruct m|]. cbn in E. injection E as <- E. apply IH; [done|].
    rewrite <-E. clear. cbn. induction n as [|n IHn]; [done|]. cbn. by rewrite IHn.
Qed.

Lemma existsb_map {A} (f : A -> bool) l : existsb id (map f l) = existsb f l.
Proof. induction l as [|a l IH]; cbn; [done|]. by rewrite IH. Qed.

Lemma noSlash_map s : noSlash s -> map slash s = repeat false (length s).
Proof.
  unfold noSlash. induction s as [|c s IH]; [done|]. cbn. intros [-> H]%orb_false_iff. by rewrite IH.
Qed.

(** A match further right, reached without crossing a slash, can be had from the
    leftmost one by the star that follows. *)
Lemma leftmost_suffices chunk rest seg s t1 t2 : starFree chunk -> noSlash seg ->
  matchChunk (map elem chunk) (seg ++ s) = Some t1 -> matchChunk (map elem chunk) s = Some t2 ->
  rest = [] /\ t1 = [] \/ (exists r, rest = "*"%char :: r) -> globs rest t2 -> globs rest t1.
Proof.
  intros Hc Hs M1 M2 Hrest Hg. destruct Hrest as [[-> ->]|[r ->]]; [constructor|].
  destruct (matchChunk_prefix _ _ _ Hc M1) as (u1 & E1 & S1), (matchChunk_prefix _ _ _ Hc M2) as (u2 & -> & S2).
  assert (length u1 = length u2) as Hl by (rewrite <-(length_map slash u1), S1, <-S2; apply length_map).
  assert (exists w, t1 = w ++ t2 /\ seg ++ u2 = u1 ++ w) as (w & -> & Ew).
  { rewrite app_assoc in E1. apply app_eq_app in E1 as (w & [[E2 E3]|[E2 E3]]).
    - by exists w.
    - pose proof (f_equal length E2) as El. rewrite !length_app in El. destruct w as [|? w]; [|cbn in El; lia].
      exists []. cbn in E3. by rewrite E2, E3, !app_nil_r. }
  assert (noSlash w) as Hw.
  { unfold noSlash. rewrite <-existsb_map. apply (shifted_false (length seg) (map slash u1)).
    - rewrite length_map. apply (f_equal length) in Ew. rewrite !length_app in Ew. lia.
    - apply (f_equal (map slash)) in Ew. rewrite !map_app, (noSlash_map _ Hs), S2, <-S1 in Ew. done. }
  apply globs_star_iff in Hg as (seg2 & s2 & -> & H2 & Hg). apply globs_star_iff. exists (w ++ seg2), s2.
  rewrite <-app_assoc, noSlash_app. done.
Qed.

(** The rest of a pattern after a chunk. *)
Definition restOf (rest : text) : Prop := rest = [] \/ exists r, rest = "*"%char :: r.
Definition isLast (rest : text) : bool := match rest with [] => true | _ => false end.

Lemma unacceptable_globs rest t : acceptable (isLast rest) t = false -> globs rest t -> False.
Proof. destruct rest; cbn; [|done]. destruct t; [done|]. by intros _ ?%globs_nil_iff. Qed.

Lemma acceptable_rest rest t : restOf rest -> acceptable (isLast rest) t = true -> rest = [] /\ t = [] \/ (exists r, rest = "*"%char :: r).
Proof. intros [->|?]; [|by right]. destruct t; [by left|done]. Qed.

(** Candidates at the end of a slash-free prefix that is not empty, respectively
    any slash-free prefix. *)
Lemma skipMatch_globs chunk rest s : starFree chunk -> restOf rest ->
  (exists seg s' t, s = seg ++ s' /\ seg <> [] /\ noSlash seg /\ matchChunk (map elem chunk) s' = Some t /\ globs rest t)
  <-> (exists t, skipMatch (map elem chunk) (isLast rest) s = Some t /\ globs rest t).
Proof.
  intros Hc Hr. induction s as [|c s IH]; cbn.
  { split; [intros ([|] & s' & t & E & ? & _); done|intros (? & ? & _); done]. }
  destruct (slash c) eqn:Es.
  { split; [|intros (? & ? & _); done]. intros ([|d seg] & s' & t & E & ? & Hn & _); [done|]. injection E as -> ->.
    unfold noSlash in Hn. cbn in Hn. by rewrite Es in Hn. }
  assert (forall seg, noSlash seg -> noSlash (c :: seg)) as Hcons by (intros seg Hn; unfold noSlash in *; cbn; by rewrite Es).
  assert (Hfar : forall seg s' t, c :: s = seg ++ s' -> seg <> [] -> noSlash seg -> matchChunk (map elem chunk) s' = Some t ->
    (s' = s \/ exists seg', s = seg' ++ s' /\ seg' <> [] /\ noSlash seg')).
  { intros [|d seg] s' t E ? Hn _; [done|]. injection E as -> ->. unfold noSlash in Hn. cbn in Hn. apply orb_false_iff in Hn as [_ Hn].
    destruct seg as [|e seg]; [by left|right]. by exists (e :: seg). }
  assert (Hskip : (forall t, matchChunk (map elem chunk) s = Some t -> acceptable (isLast rest) t = false) ->
    (exists seg s' t, c :: s = seg ++ s' /\ seg <> [] /\ noSlash seg /\ matchChunk (map elem chunk) s' = Some t /\ globs rest t)
    <-> (exists t, skipMatch (map elem chunk) (isLast rest) s = Some t /\ globs rest t)).
  { intros Hno. rewrite <-IH. split.
    - intros (seg & s' & t & E & Hne & Hn & M & Hg). destruct (Hfar seg s' t E Hne Hn M) as [->|(seg' & -> & ? & ?)].
      + destruct (unacceptable_globs rest t (Hno t M) Hg).
      + exists seg', s', t. done.
    - intros (seg & s' & t & -> & _ & Hn & M & Hg). exists (c :: seg), s', t. split_and!; auto. }
  destruct (matchChunk (map elem chunk) s) as [t|] eqn:E; [|apply Hskip; done].
  destruct (acceptable (isLast rest) t) eqn:Ea; [|apply Hskip; by intros t' [= <-]].
  split.
  - intros (seg & s' & t' & Eq & Hne & Hn & M & Hg). exists t. split; [done|].
    destruct (Hfar seg s' t' Eq Hne Hn M) as [->|(seg' & -> & _ & Hn')]; [congruence|].
    exact (leftmost_suffices chunk rest seg' s' t t' Hc Hn' E M (acceptable_rest rest t Hr Ea) Hg).
  - intros (t' & [= <-] & Hg). exists [c], s, t. split_and!; try done. by apply Hcons.
Qed.

(** ** The loop decides the relation *)

Lemma plain_Forall_app p q : plainText (p ++ q) <-> plainText p /\ plainText q.
Proof. apply Forall_app. Qed.

Lemma scanEnd_plain p : plainText p -> exists chunk rest,
  scanEnd false p = (chunk, rest) /\ p = chunk ++ rest /\ starFree chunk /\ restOf rest.
Proof.
  induction 1 as [|c p Hc Hp IH]; [by exists [], []; split; [done|split; [done|split; [done|by left]]]|].
  destruct IH as (chunk & rest & E & -> & Hs & Hr). unfold plain in Hc. apply negb_true_iff, orb_false_iff in Hc as [H1 H2].
  cbn. rewrite H2, H1. destruct (lit "*" c) eqn:Ec; cbn.
  - apply lit_eq in Ec as ->. exists [], ("*"%char :: chunk ++ rest). split_and!; try done. right. eauto.
  - destruct (lit "]" c); rewrite E; exists (c :: chunk), rest; split_and!; try done; unfold starFree; cbn; by rewrite Ec.
Qed.

Lemma parse_plain p : plainText p -> parseChunk Outside p = Some (map elem p).
Proof.
  induction 1 as [|c p Hc Hp IH]; [done|]. unfold plain in Hc. apply negb_true_iff, orb_false_iff in Hc as [H1 H2].
  cbn. rewrite H1, H2, IH. unfold elem. by destruct (lit "?" c).
Qed.

Lemma dropWhile_plain f p : plainText p -> plainText (dropWhile f p).
Proof. induction 1 as [|c p Hc Hp IH]; [constructor|]. cbn. destruct (f c); [done|by constructor]. Qed.

Lemma dropWhile_head f p c r : dropWhile f p = c :: r -> f c = false.
Proof. induction p as [|d p IH]; [done|]. cbn. destruct (f d) eqn:E; [done|]. by intros [= <- _]. Qed.

(** A plain pattern is a star or none, a chunk, and what starts with the next star. *)
Lemma scanChunk_plain p : plainText p -> exists star chunk rest,
  scanChunk p = (star, chunk, rest) /\ starFree chunk /\ restOf rest /\ plainText chunk /\ plainText rest
  /\ (chunk = [] -> rest = [])
  /\ (forall s, globs p s <-> globs ((if star : bool then ["*"%char] else []) ++ chunk ++ rest) s).
Proof.
  intros Hp. destruct (scanEnd_plain _ (dropWhile_plain (lit "*") p Hp)) as (chunk & rest & E & Ed & Hs & Hr).
  pose proof (dropWhile_plain (lit "*") p Hp) as Hpl. rewrite Ed in Hpl. apply plain_Forall_app in Hpl as [P1 P2].
  exists (hasPrefix p ["*"%char]), chunk, rest. unfold scanChunk. rewrite E. split_and!; try done.
  { intros ->. cbn in Ed. destruct Hr as [->|[r ->]]; [done|]. pose proof (dropWhile_head _ _ _ _ Ed) as Hf. by rewrite lit_refl in Hf. }
  intros s. destruct (hasPrefix p ["*"%char]) eqn:Eh; [rewrite globs_stars by done; by rewrite Ed|].
  assert (dropWhile (lit "*") p = p) as Ep; [|cbn; by rewrite <-Ed, Ep].
  destruct p as [|c p]; [done|]. cbn. destruct (lit "*" c) eqn:Ec; [|done]. apply lit_eq in Ec as ->.
  change (hasPrefix ("*"%char :: p) _) with (hasPrefix p []) in Eh. by destruct p.
Qed.

Lemma wellFormed_plain fuel p : (length p < fuel)%nat -> plainText p -> wellFormed fuel p = Some true.
Proof.
  revert p. induction fuel as [|fuel IH]; intros p Hl Hp; [lia|]. cbn. destruct p as [|c p]; [done|].
  destruct (scanChunk_plain _ Hp) as (star & chunk & rest & E & _ & _ & P1 & P2 & _ & _). rewrite E.
  apply scanChunk_shrinks in E; [|done]. rewrite (parse_plain chunk P1). apply IH; [lia|done].
Qed.

Lemma star_globs s : globs ["*"%char] s <-> noSlash s.
Proof.
  rewrite globs_star_iff. setoid_rewrite globs_nil_iff. split; [intros (seg & ? & -> & ? & ->); by rewrite app_nil_r|].
  intros. exists s, []. by rewrite app_nil_r.
Qed.

(** Here, or further on after a star. *)
Lemma candidate_globs (star : bool) chunk rest s : starFree chunk -> restOf rest ->
  let here := match matchChunk (map elem chunk) s with
              | Some t => if acceptable (isLast rest) t then Some t else None
              | None => None
              end in
  globs ((if star then ["*"%char] else []) ++ chunk ++ rest) s <->
  exists t, (match here with Some t => Some t | None => if star then skipMatch (map elem chunk) (isLast rest) s else None end) = Some t
    /\ globs rest t.
Proof.
  intros Hc Hr here.
  assert (forall t, matchChunk (map elem chunk) s = Some t -> globs rest t -> here = Some t) as Hhere.
  { intros t M Hg. unfold here. rewrite M. destruct (acceptable _ t) eqn:Ea; [done|]. destruct (unacceptable_globs rest t Ea Hg). }
  assert (forall t, here = Some t -> matchChunk (map elem chunk) s = Some t /\ acceptable (isLast rest) t = true) as Hback.
  { intros t. unfold here. destruct (matchChunk _ s) as [t'|]; [|done]. destruct (acceptable _ t') eqn:Ea; [|done]. by intros [= <-]. }
  destruct star; cbn [app].
  - rewrite globs_star_iff. setoid_rewrite (globs_chunk chunk rest _ Hc). split.
    + intros (seg & s' & Es & Hn & t & M & Hg). destruct here as [t0|] eqn:E0.
      * exists t0. split; [done|]. destruct (Hback t0 eq_refl) as [M0 Ha]. rewrite Es in M0.
        exact (leftmost_suffices chunk rest seg s' t0 t Hc Hn M0 M (acceptable_rest rest t0 Hr Ha) Hg).
      * apply skipMatch_globs; [done..|]. exists seg, s', t. split_and!; try done. intros ->. cbn in Es. subst s'.
        by discriminate (Hhere t M Hg).
    + destruct here as [t0|] eqn:E0.
      * intros (t & [= <-] & Hg). destruct (Hback t0 eq_refl) as [M0 _]. exists [], s. split_and!; try done. by exists t0.
      * intros (seg & s' & t & -> & _ & Hn & M & Hg)%skipMatch_globs; [|done..]. exists seg, s'. split_and!; try done. by exists t.
  - rewrite (globs_chunk chunk rest s Hc). split.
    + intros (t & M & Hg). exists t. by rewrite (Hhere t M Hg).
    + intros (t & E & Hg). exists t. destruct here as [t0|]; [|done]. injection E as <-. split; [by apply Hback|done].
Qed.

Lemma matchLoop_globs fuel p s : (length p < fuel)%nat -> plainText p ->
  exists b, matchLoop fuel p s = Some (Ok b) /\ (b = true <-> globs p s).
Proof.
  revert p s. induction fuel as [|fuel IH]; intros p s Hl Hp; [lia|]. cbn [matchLoop]. destruct p as [|c p].
  { exists (match s with [] => true | _ => false end). split; [done|]. rewrite globs_nil_iff. by destruct s. }
  destruct (scanChunk_plain _ Hp) as (star & chunk & rest & E & Hs & Hr & P1 & P2 & Hnil & Hg). rewrite E.
  apply scanChunk_shrinks in E; [|done]. setoid_rewrite Hg. clear Hg. rewrite (parse_plain chunk P1).
  assert (Hgen : exists b, match (match (match matchChunk (map elem chunk) s with
              | Some t => if acceptable (isLast rest) t then Some t else None | None => None end) with
              | Some t => Some t | None => if star then skipMatch (map elem chunk) (isLast rest) s else None end) with
            | Some t => matchLoop fuel rest t
            | None => (fun ok : bool => if ok then Ok false else Err ErrBadPattern) <$> wellFormed fuel rest end = Some (Ok b)
          /\ (b = true <-> globs ((if star : bool then ["*"%char] else []) ++ chunk ++ rest) s)).
  { setoid_rewrite (candidate_globs star chunk rest s Hs Hr). cbv zeta. match goal with |- context [match ?o with Some t => matchLoop _ _ _ | None => _ end] => destruct o as [t|] end.
    - destruct (IH rest t) as (b & Eb & Hb); [lia|done|]. exists b. split; [done|]. rewrite Hb.
      split; [by exists t|]. by intros (? & [= <-] & ?).
    - exists false. rewrite (wellFormed_plain fuel rest) by (lia || done). split; [done|]. split; [done|]. by intros (? & ? & _). }
  destruct star, chunk as [|d chunk]; try exact Hgen. exists (negb (existsb slash s)). split; [done|].
  rewrite (Hnil eq_refl). cbn [app]. rewrite star_globs. unfold noSlash. by destruct (existsb slash s).
Qed.

(** * The owners of a path *)

(** ** The definitions *)

Record Rule := mkRule {
  ru_Pattern : text;
  ru_Owners : list text
}.

Record Owners := mkOwners {
  ow_Rules : list Rule
}.

(** [strings.Fields] *)
Fixpoint fieldsFrom (word t : text) : list text :=
  let flush := match word with [] => [] | _ => [word] end in
  match t with
  | [] => flush
  | c :: t' => if isSpace c then flush ++ fieldsFrom [] t' else fieldsFrom (word ++ [c]) t'
  end.

Definition fields (t : text) : list text := fieldsFrom [] t.

(** One line of [Parse]. *)
Definition parseLine (l : text) : option Rule :=
  let line := trimSpace l in
  if bool_decide (line = []) || hasPrefix line ["#"%char] then None
  else match fields line with
       | pat :: o :: os => Some (mkRule pat (o :: os))
       | _ => None
       end.

Definition Parse (content : text) : Owners * option error :=
  let '(ls, err) := scanLines maxScanTokenSize (rawLines content) in (mkOwners (omap parseLine ls), err).

(** [strings.CutPrefix] with one character, [strings.CutSuffix]. *)
Definition cutChar (c : ascii) (t : text) : option text :=
  match t with d :: t' => if Ascii.eqb c d then Some t' else None | [] => None end.
Definition cutSuffix (t s : text) : option text :=
  if hasSuffix t s then Some (take (length t - length s) t) else None.

Definition trimSlash (p : text) : text := default p (cutChar "/" p).

(** The candidates [strings.Join(segments[i:], "/")]. *)
Fixpoint tails {A} (l : list A) : list (list A) :=
  match l with [] => [] | _ :: l' => l :: tails l' end.

Definition candidates (p : text) : list text := map (joinWith ["/"%char]) (tails (splitOn "/" p)).

Definition matchPattern (pat p : text) : bool :=
  let pat := trimSpace pat in
  if bool_decide (pat = []) then false
  else
    let p := trimSlash p in
    if bool_decide (pat = toText "*") || bool_decide (pat = toText "**") then true
    else match cutChar "/" pat with
    | Some anchored =>
        if hasSuffix anchored ["/"%char] then hasPrefix p anchored
        else match cutSuffix anchored (toText "/**") with
        | Some prefix => bool_decide (p = prefix) || hasPrefix p (prefix ++ ["/"%char])
        | None =>
            if contains anchored ["*"%char] then pathMatches anchored p
            else bool_decide (p = anchored)
        end
    | None =>
        if hasPrefix pat (toText "*.") && negb (existsb (orc slash (lit "*")) (drop 1 pat))
        then hasSuffix (filepathBase p) (drop 1 pat)
        else if contains pat ["/"%char] then existsb (pathMatches pat) (candidates p)
        else pathMatches pat (filepathBase p)
    end.

(** The rules in reverse, the first that matches; [None] is the nil slice. *)
Definition Match (o : Owners) (filepath : text) : option (list text) :=
  ru_Owners <$> List.find (fun r => matchPattern (ru_Pattern r) filepath) (rev (ow_Rules o)).

Example matchPattern_examples :
  let m pat p := matchPattern (toText pat) (toText p) in
  m "/services/billing/" "services/billing/main.go" = true /\ m "*.go" "misc/foo.go" = true
  /\ m "/docs/**" "/docs/a/b.md" = true /\ m "docs/*.md" "x/docs/a.md" = true /\ m "Makefile" "a/Makefile" = true
  /\ m "/a.go" "b/a.go" = false /\ m "docs/" "docs/a.md" = false.
Proof. vm_compute. repeat split. Qed.

Example Match_example :
  let o := (Parse (toText "* @all
# comment
*.go  @go @x
")).1 in
  Match o (toText "a/b.go") = Some [toText "@go"; toText "@x"] /\ Match o (toText "a/b.c") = Some [toText "@all"].
Proof. vm_compute. repeat split. Qed.

(** * Code owners: what a rule covers, and who owns a path *)


#[local] Arguments lit : simpl never.
#[local] Arguments slash : simpl never.
#[local] Arguments parseLine : simpl never.

(** ** Strings *)

Lemma hasSuffix_app t s : hasSuffix t s = true <-> exists u, t = u ++ s.
Proof.
  unfold hasSuffix. rewrite hasPrefix_app. split; intros [u E].
  - exists (rev u). by rewrite <-(rev_involutive t), E, rev_app_distr, rev_involutive.
  - exists (rev u). by rewrite E, rev_app_distr.
Qed.

Lemma cutSuffix_Some t s d : cutSuffix t s = Some d <-> t = d ++ s.
Proof.
  unfold cutSuffix. destruct (hasSuffix t s) eqn:E.
  - apply hasSuffix_app in E as [u ->]. rewrite length_app. replace (length u + length s - length s)%nat with (length u) by lia.
    rewrite take_app_length. split; [by intros [= ->]|]. by intros ->%app_inv_tail.
  - split; [done|]. intros ->. by rewrite (proj2 (hasSuffix_app _ s)) in E by eauto.
Qed.

Lemma contains_char t c : contains t [c] = existsb (lit c) t.
Proof.
  unfold contains. induction t as [|d t IH]; [done|]. rewrite index_eq. cbn [hasPrefix existsb]. change (lit c d) with (Ascii.eqb c d).
  destruct (Ascii.eqb c d) eqn:E; cbn [andb orb]; [by destruct t|]. rewrite <-IH. by destruct (index t [c]).
Qed.

(** [s] is [p], or what follows one of its slashes. *)
Definition tailOf (p s : text) : Prop := s = p \/ exists pre, p = pre ++ "/"%char :: s.

Lemma tails_nonempty {A} (l : list A) x : x ∈ tails l -> x <> [].
Proof. induction l as [|a l IH]; cbn; [by intros ?%elem_of_nil|]. by intros [->|?]%elem_of_cons; [|apply IH]. Qed.

Lemma later_candidates sep p s :
  s ∈ map (joinWith [sep]) (tails (tl (splitOn sep p))) <-> exists pre, p = pre ++ sep :: s.
Proof.
  induction p as [|c p IH]; cbn.
  { split; [by intros ?%elem_of_nil|]. by intros [[|? ?] [=]]. }
  destruct (Ascii.eqb c sep) eqn:E.
  - apply Ascii.eqb_eq in E as ->. cbn [tl]. pose proof (join_split sep p) as Hj. pose proof (splitOn_nonempty sep p) as Hn.
    destruct (splitOn sep p) as [|l ls]; [done|]. cbn [tails map tl] in *. rewrite elem_of_cons, IH, Hj. split.
    + intros [->|[pre ->]]; [by exists []|by exists (sep :: pre)].
    + intros [[|d pre] E]; injection E; intros; subst; [by left|right; eauto].
  - pose proof (splitOn_nonempty sep p) as Hn. destruct (splitOn sep p) as [|l ls]; [done|]. cbn [tl] in *. rewrite IH.
    split; [intros [pre ->]; by exists (c :: pre)|].
    intros [[|d pre] Ep]; [injection Ep as -> _; by rewrite Ascii.eqb_refl in E|]. injection Ep as -> ->. eauto.
Qed.

Lemma candidates_tailOf p s : s ∈ candidates p <-> tailOf p s.
Proof.
  unfold candidates, tailOf. rewrite <-later_candidates. pose proof (join_split "/" p) as Hj.
  destruct (splitOn "/" p) as [|l ls] eqn:E; [by destruct (splitOn_nonempty "/" p)|].
  cbn [tails map tl]. by rewrite elem_of_cons, Hj.
Qed.

(** The last segment of a path that does not end in a slash. *)
Definition baseOf (p b : text) : Prop := tailOf p b /\ noSlash b.

Lemma dropWhile_none f t : (forall c t', t = c :: t' -> f c = false) -> dropWhile f t = t.
Proof. destruct t as [|c t]; [done|]. intros H. cbn. by rewrite (H c t). Qed.

Lemma noSlash_in b : noSlash b <-> "/"%char ∉ b.
Proof.
  unfold noSlash. induction b as [|c b IH]; [split; [by intros _ ?%elem_of_nil|done]|]. cbn.
  rewrite orb_false_iff, IH, not_elem_of_cons. unfold slash, lit. rewrite Ascii.eqb_neq. naive_solver.
Qed.

Lemma lastIndexByte_none t c : c ∉ t -> lastIndexByte t c = None.
Proof.
  intros Hn. unfold lastIndexByte. destruct (index (rev t) [c]) eqn:E; [exfalso|done].
  assert (contains (rev t) [c] = true) as Hc by (unfold contains; by rewrite E). rewrite contains_char in Hc.
  apply existsb_exists in Hc as (x & Hx & ->%lit_eq). apply Hn, list_elem_of_In, in_rev. done.
Qed.

(** The text after the last slash. *)
Definition afterSlash (q : text) : text :=
  match lastIndexByte q "/" with Some i => drop (S i) q | None => q end.

Lemma afterSlash_base q : baseOf q (afterSlash q).
Proof.
  assert (exists b, baseOf q b /\ (b = q /\ "/"%char ∉ q \/ exists pre, q = pre ++ "/"%char :: b)) as (b & [Ht Hb] & Hq).
  { induction q as [|d q (b & [Ht Hb] & IH)]; [exists []; split; [split; [by left|done]|left; split; [done|by intros ?%elem_of_nil]]|].
    destruct IH as [[-> Hn]|[pre ->]].
    - destruct (decide (d = "/"%char)) as [->|Hd].
      + exists q. split; [split; [right; by exists []|done]|right; by exists []].
      + exists (d :: q). split; [split; [by left|apply noSlash_in; by rewrite not_elem_of_cons]|left; by rewrite not_elem_of_cons].
    - exists b. split; [split; [right; by exists (d :: pre)|done]|right; by exists (d :: pre)]. }
  unfold afterSlash. destruct Hq as [[-> Hn]|[pre ->]].
  - rewrite lastIndexByte_none by done. by split.
  - rewrite lastIndexByte_app by (by apply noSlash_in).
    replace (drop (S (length pre)) (pre ++ "/"%char :: b)) with b; [by split|].
    rewrite cons_middle, app_assoc. rewrite drop_app_length'; [done|]. rewrite length_app. cbn. lia.
Qed.

Lemma filepathBase_spec p : p <> [] -> hasSuffix p ["/"%char] = false -> baseOf p (filepathBase p).
Proof.
  intros Hp Hs. replace (filepathBase p) with (afterSlash p); [apply afterSlash_base|].
  unfold filepathBase. rewrite (dropWhile_none slash (rev p)), rev_involutive; [by destruct p|].
  intros d t' E. destruct (slash d) eqn:Ed; [|done]. apply (lit_eq "/") in Ed as ->. exfalso.
  assert (hasSuffix p ["/"%char] = true) as H; [|congruence]. apply hasSuffix_app. exists (rev t').
  by rewrite <-(rev_involutive p), E.
Qed.

Lemma slash_split pre1 pre2 b1 b2 : noSlash b1 -> noSlash b2 -> pre1 ++ "/"%char :: b1 = pre2 ++ "/"%char :: b2 -> b1 = b2.
Proof.
  intros H1 H2 E. apply noSlash_in in H1, H2. apply app_eq_app in E as ([|c l] & [[_ E]|[_ E]]); cbn in E; injection E; intros; subst; try done.
  - by destruct H2; rewrite elem_of_app; right; left.
  - by destruct H1; rewrite elem_of_app; right; left.
Qed.

Lemma baseOf_unique p b1 b2 : baseOf p b1 -> baseOf p b2 -> b1 = b2.
Proof.
  intros [[->|[pre1 E1]] N1] [[->|[pre2 E2]] N2]; try done.
  - apply noSlash_in in N1. destruct N1. rewrite E2, elem_of_app. right. by left.
  - apply noSlash_in in N2. destruct N2. rewrite E1, elem_of_app. right. by left.
  - rewrite E1 in E2. by eapply slash_split.
Qed.

(** ** What a pattern covers *)

Definition extensionShape (g e : text) : Prop := g = "*"%char :: "."%char :: e /\ noSlash e /\ starFree e.

(** Patterns and paths relative to the root.  [*] and [**] cover everything; a
    pattern with a leading slash is a directory, a tree, a glob or one file at the
    root; [*.e] is an extension; another pattern is a glob for the path from some
    segment on if it has a slash, for the last segment otherwise. *)
Inductive covers : text -> text -> Prop :=
  | cover_all pat p : pat = toText "*" \/ pat = toText "**" -> covers pat p
  | cover_directory d p : covers ("/"%char :: d ++ ["/"%char]) (d ++ "/"%char :: p)
  | cover_tree d p : p = d \/ (exists r, p = d ++ "/"%char :: r) -> covers ("/"%char :: d ++ toText "/**") p
  | cover_glob g p : (forall d, g <> d ++ ["/"%char] /\ g <> d ++ toText "/**") -> ~ starFree g -> globs g p -> covers ("/"%char :: g) p
  | cover_file f : (forall d, f <> d ++ ["/"%char]) -> starFree f -> covers ("/"%char :: f) f
  | cover_extension g e p b n : extensionShape g e -> baseOf p b -> b = n ++ "."%char :: e -> covers g p
  | cover_tail g p s : (forall g', g <> "/"%char :: g') -> ~ noSlash g -> tailOf p s -> globs g s -> covers g p
  | cover_base g p b : noSlash g -> (forall e, ~ extensionShape g e) -> baseOf p b -> globs g b -> covers g p.

Definition filePath (p : text) : Prop :=
  p <> [] /\ (forall p', p <> "/"%char :: p') /\ (forall p', p <> p' ++ ["/"%char]).

Section pattern.
Context (pat p : text) (Hpl : plainText pat) (Htrim : trimSpace pat = pat) (Hne : pat <> []) (Hp : filePath p).

Lemma path_trimmed : trimSlash p = p.
Proof.
  destruct Hp as (_ & H & _). unfold trimSlash, cutChar. destruct p as [|c q]; [done|]. destruct (Ascii.eqb "/" c) eqn:E; [|done].
  apply Ascii.eqb_eq in E as <-. by destruct (H q).
Qed.

Lemma path_base : baseOf p (filepathBase p).
Proof.
  destruct Hp as (H1 & _ & H2). apply filepathBase_spec; [done|]. apply not_true_iff_false. intros [u Hu]%hasSuffix_app. by apply (H2 u).
Qed.

Lemma hasSuffix_false t s : (forall u, t <> u ++ s) -> hasSuffix t s = false.
Proof. intros H. apply not_true_iff_false. intros [u Hu]%hasSuffix_app. by apply (H u). Qed.

Lemma pathMatches_globs q s : plainText q -> pathMatches q s = true <-> globs q s.
Proof.
  intros Hq. unfold pathMatches, pathMatch. destruct (matchLoop_globs (S (length q)) q s) as (b & -> & Hb); [lia|done|]. done.
Qed.

Lemma starFree_contains t : contains t ["*"%char] = negb (negb (existsb (lit "*") t)).
Proof. by rewrite contains_char, negb_involutive. Qed.

(** A pattern anchored at the root. *)
Lemma covers_anchored g q : covers ("/"%char :: g) q <->
  (exists d r, g = d ++ ["/"%char] /\ q = d ++ "/"%char :: r)
  \/ (exists d, g = d ++ toText "/**" /\ (q = d \/ exists r, q = d ++ "/"%char :: r))
  \/ ((forall d, g <> d ++ ["/"%char] /\ g <> d ++ toText "/**") /\ ~ starFree g /\ globs g q)
  \/ ((forall d, g <> d ++ ["/"%char]) /\ starFree g /\ q = g).
Proof.
  split.
  - inversion 1 as [? ? Hall|d r|d ? Ht|g' ? H1 H2 H3|f H1 H2|? e ? b n [He _] _ _|? ? s H1|? ? b H1]; subst.
    + by destruct Hall.
    + left. by exists d, r.
    + right. left. by exists d.
    + right. right. by left.
    + right. right. by right.
    + by injection He.
    + by destruct (H1 g).
    + apply noSlash_in in H1. destruct H1. by left.
  - intros [(d & r & -> & ->)|[(d & -> & Hd)|[(H1 & H2 & H3)|(H1 & H2 & ->)]]]; by constructor.
Qed.

Lemma anchored_covers g : pat = "/"%char :: g -> matchPattern pat p = true <-> covers pat p.
Proof.
  intros Epat. unfold matchPattern. rewrite Htrim, bool_decide_false, path_trimmed by done.
  assert (plainText g) as Hg by (rewrite Epat in Hpl; by inversion Hpl).
  rewrite Epat, !bool_decide_false by done. cbn [orb cutChar]. rewrite Ascii.eqb_refl, covers_anchored.
  destruct (hasSuffix g ["/"%char]) eqn:E1; [|destruct (cutSuffix g (toText "/**")) as [d|] eqn:E2].
  - apply hasSuffix_app in E1 as [d ->]. rewrite hasPrefix_app. split.
    + intros [u ->]. left. exists d, u. by rewrite <-app_assoc.
    + intros [(d' & r & E & ->)|[(d' & E & _)|[(H1 & _)|(H1 & _)]]].
      * apply app_inv_tail in E as ->. exists r. by rewrite <-app_assoc.
      * change (toText "/**") with (toText "/*" ++ ["*"%char]) in E. rewrite app_assoc in E. by apply app_inj_tail in E as [_ ?].
      * by destruct (H1 d).
      * by destruct (H1 d).
  - assert (forall u, g <> u ++ ["/"%char]) as N1 by (intros u Hu; by rewrite (proj2 (hasSuffix_app _ _)) in E1 by eauto).
    apply cutSuffix_Some in E2. rewrite orb_true_iff, bool_decide_eq_true, hasPrefix_app. split.
    + intros Hq. right. left. exists d. split; [done|]. destruct Hq as [->|[u ->]]; [by left|right]. exists u. by rewrite <-app_assoc.
    + intros [(d' & r & E & _)|[(d' & E & Hq)|[(H1 & _)|(_ & Hs & _)]]].
      * by destruct (N1 d').
      * rewrite E2 in E. apply app_inv_tail in E as ->. destruct Hq as [->|[r ->]]; [by left|right]. exists r. by rewrite <-app_assoc.
      * by destruct (H1 d).
      * unfold starFree in Hs. rewrite E2, existsb_app in Hs. by apply orb_false_iff in Hs as [_ Hs].
  - assert (forall u, g <> u ++ ["/"%char]) as N1 by (intros u Hu; by rewrite (proj2 (hasSuffix_app _ _)) in E1 by eauto).
    assert (forall d, g <> d ++ toText "/**") as N2 by (intros d Hd; by rewrite (proj2 (cutSuffix_Some _ _ d)) in E2).
    rewrite contains_char. unfold starFree. destruct (existsb (lit "*") g) eqn:E3.
    + rewrite pathMatches_globs by done. split; [intros; right; right; left; done|].
      intros [(d' & r & E & _)|[(d' & E & _)|[(_ & _ & H3)|(_ & H2 & _)]]]; [by destruct (N1 d')|by destruct (N2 d')|done|done].
    + rewrite bool_decide_eq_true. split; [intros ->; by right; right; right|].
      intros [(d' & r & E & _)|[(d' & E & _)|[(_ & H2 & _)|(_ & _ & H3)]]]; [by destruct (N1 d')|by destruct (N2 d')|done|done].
Qed.

(** A pattern for any depth. *)
Lemma covers_relative g q : g <> toText "*" -> g <> toText "**" -> (forall g', g <> "/"%char :: g') -> covers g q <->
  (exists e b n, extensionShape g e /\ baseOf q b /\ b = n ++ "."%char :: e)
  \/ (~ noSlash g /\ exists s, tailOf q s /\ globs g s)
  \/ (noSlash g /\ (forall e, ~ extensionShape g e) /\ exists b, baseOf q b /\ globs g b).
Proof.
  intros H1 H2 H3. split.
  - inversion 1 as [? ? [?|?]|d r|d ? Ht|g' ? ? ? ?|f ? ?|? e ? b n He Hb Hn|? ? s ? Hs Ht Hg|? ? b Hs He Hb Hg]; subst; try done;
      try (by destruct (H3 _ eq_refl)).
    + left. eauto 10.
    + right. left. eauto.
    + right. right. eauto.
  - intros [(e & b & n & He & Hb & Hn)|[(Hs & s & Ht & Hg)|(Hs & He & b & Hb & Hg)]].
    + by eapply cover_extension.
    + by eapply cover_tail.
    + by eapply cover_base.
Qed.

Lemma extension_test g : hasPrefix g (toText "*.") && negb (existsb (orc slash (lit "*")) (drop 1 g)) = true <->
  exists e, extensionShape g e.
Proof.
  rewrite andb_true_iff, negb_true_iff, hasPrefix_app. unfold extensionShape, noSlash, starFree.
  assert (forall e, existsb (orc slash (lit "*")) e = existsb slash e || existsb (lit "*") e) as Ho.
  { induction e as [|c e IH]; [done|]. cbn [existsb]. rewrite IH. unfold orc.
    by destruct (slash c), (lit "*" c), (existsb slash e), (existsb (lit "*") e). }
  split.
  - intros [[e ->] He]. exists e. cbn [toText String.list_ascii_of_string app drop] in He. rewrite Ho in He. cbn [existsb] in He.
    change (slash "."%char) with false in He. change (lit "*" "."%char) with false in He. cbn [orb] in He. by apply orb_false_iff in He.
  - intros (e & -> & H1 & H2). split; [by exists e|]. cbn [drop]. rewrite Ho. cbn [existsb].
    change (slash "."%char) with false. change (lit "*" "."%char) with false. cbn [orb]. by rewrite H1, H2.
Qed.

Lemma relative_covers : pat <> toText "*" -> pat <> toText "**" -> (forall g, pat <> "/"%char :: g) ->
  matchPattern pat p = true <-> covers pat p.
Proof.
  intros H1 H2 H3. rewrite covers_relative by done. unfold matchPattern. rewrite Htrim, !bool_decide_false, path_trimmed by done. cbn [orb].
  assert (cutChar "/" pat = None) as ->.
  { destruct pat as [|c g]; [done|]. unfold cutChar. destruct (Ascii.eqb_spec "/" c) as [<-|]; [by destruct (H3 g)|done]. }
  destruct (hasPrefix pat _ && _) eqn:Ee.
  - apply extension_test in Ee as [e He]. destruct (He) as (E & Hs & _). rewrite E at 1. cbn [drop]. rewrite hasSuffix_app. split.
    + intros [n Hn]. left. exists e, (filepathBase p), n. split; [done|]. split; [apply path_base|done].
    + intros [(e' & b & n & (E' & _) & Hb & ->)|[(Hn & _)|(_ & Hn & _)]].
      * rewrite E in E'. injection E' as <-. exists n. by rewrite (baseOf_unique p _ _ path_base Hb).
      * destruct Hn. rewrite E. unfold noSlash in *. cbn. done.
      * by destruct (Hn e).
  - assert (forall e, ~ extensionShape pat e) as Hno.
    { intros e He. assert (true = false) as Ht; [|done]. rewrite <-Ee. symmetry. apply extension_test. by exists e. }
    rewrite contains_char. unfold noSlash. change (lit "/") with slash. destruct (existsb slash pat) eqn:Es.
    + rewrite existsb_exists. setoid_rewrite <-list_elem_of_In. setoid_rewrite candidates_tailOf. setoid_rewrite pathMatches_globs; [|done..].
      split; [intros (s & ? & ?); right; left; eauto|]. by intros [(e & b & n & He & _)|[(_ & s & ? & ?)|(? & _)]]; [destruct (Hno e)|eauto|].
    + rewrite pathMatches_globs by done. split.
      * intros Hg. right. right. split; [done|]. split; [done|]. exists (filepathBase p). split; [apply path_base|done].
      * intros [(e & b & n & He & _)|[(Hn & _)|(_ & _ & b & Hb & Hg)]]; [by destruct (Hno e)|done|].
        by rewrite (baseOf_unique p _ _ path_base Hb).
Qed.
End pattern.

Lemma matchPattern_iff pat p : plainText pat -> trimSpace pat = pat -> pat <> [] -> filePath p ->
  matchPattern pat p = true <-> covers pat p.
Proof.
  intros Hpl Htrim Hne Hp.
  destruct (decide (pat = toText "*")) as [E1|H1]; [|destruct (decide (pat = toText "**")) as [E2|H2]].
  - split; [intros _; constructor; by left|intros _]. unfold matchPattern. by rewrite Htrim, bool_decide_false, bool_decide_true.
  - split; [intros _; constructor; by right|intros _]. unfold matchPattern.
    rewrite Htrim, bool_decide_false, (bool_decide_true (pat = toText "**")) by done. by rewrite orb_true_r.
  - destruct pat as [|c g]; [done|]. destruct (decide (c = "/"%char)) as [->|Hc]; [by apply (anchored_covers _ _ Hpl Htrim Hne Hp g)|].
    apply relative_covers; try done. by intros g' [= ? _].
Qed.

(** ** Parsing *)

Definition isWordText (w : text) : Prop := w <> [] /\ Forall (fun c => isSpace c = false) w.

(** The line of a rule. *)
Definition renderRule (r : Rule) : text := joinWith [" "%char] (ru_Pattern r :: ru_Owners r).
Definition render (rs : list Rule) : text := concat (map (fun r => renderRule r ++ [lineFeed]) rs).

Definition writable (r : Rule) : Prop :=
  isWordText (ru_Pattern r) /\ (forall p, ru_Pattern r <> "#"%char :: p) /\ ru_Owners r <> [] /\ Forall isWordText (ru_Owners r)
  /\ (length (renderRule r) < maxScanTokenSize)%nat.

Lemma fieldsFrom_word acc w t : Forall (fun c => isSpace c = false) w -> fieldsFrom acc (w ++ t) = fieldsFrom (acc ++ w) t.
Proof.
  intros Hw. revert acc. induction Hw as [|c w Hc Hw IH]; intros acc; [by rewrite app_nil_r|].
  cbn [app fieldsFrom]. rewrite Hc, IH, <-app_assoc. done.
Qed.

Lemma fields_join ws : Forall isWordText ws -> fields (joinWith [" "%char] ws) = ws.
Proof.
  unfold fields. induction 1 as [|w ws [Hne Hw] Hws IH]; [done|]. destruct ws as [|w' ws].
  - cbn [joinWith]. rewrite <-(app_nil_r w) at 1. rewrite fieldsFrom_word by done. cbn. by destruct w.
  - change (joinWith _ (w :: w' :: ws)) with (w ++ " "%char :: joinWith [" "%char] (w' :: ws)).
    rewrite fieldsFrom_word by done. change (fieldsFrom ([] ++ w) (" "%char :: ?t)) with
      ((match w with [] => [] | _ => [w] end) ++ fieldsFrom [] t). rewrite IH. by destruct w.
Qed.

(** A line of words starts and ends with no space and has no other white space. *)
Lemma join_edges ws : Forall isWordText ws -> ws <> [] ->
  (exists c t, joinWith [" "%char] ws = c :: t /\ isSpace c = false) /\
  (exists c t, rev (joinWith [" "%char] ws) = c :: t /\ isSpace c = false).
Proof.
  assert (forall w, isWordText w -> exists c t, rev w = c :: t /\ isSpace c = false) as Hlast.
  { intros w [Hne Hw]. destruct (rev w) as [|c t] eqn:E; [by pose proof (rev_involutive w) as Hi; rewrite E in Hi; subst|].
    exists c, t. split; [done|]. rewrite List.Forall_forall in Hw. apply Hw. apply in_rev. rewrite E. by left. }
  induction 1 as [|w ws Hw Hws IH]; [done|]. intros _. split.
  - destruct Hw as [Hne Hw]. destruct Hw as [|c w Hc Hw]; [done|]. destruct ws as [|w' ws]; cbn; eauto.
  - destruct ws as [|w' ws]; [by apply Hlast|]. destruct (IH ltac:(done)) as [_ (c & t & E & Hc)].
    change (joinWith _ (w :: w' :: ws)) with (w ++ " "%char :: joinWith [" "%char] (w' :: ws)).
    rewrite rev_app_distr. cbn [rev]. rewrite E. cbn [app]. eauto.
Qed.

Lemma join_space ws c : Forall isWordText ws -> c ∈ joinWith [" "%char] ws -> isSpace c = true -> c = " "%char.
Proof.
  induction 1 as [|w ws [_ Hw] Hws IH]; [by intros ?%elem_of_nil|]. intros Hin Hc.
  assert (c ∉ w) as Hn by (intros Hx; rewrite Forall_forall in Hw; specialize (Hw c Hx); congruence).
  destruct ws as [|w' ws]; [done|]. change (joinWith _ (w :: w' :: ws)) with (w ++ " "%char :: joinWith [" "%char] (w' :: ws)) in Hin.
  apply elem_of_app in Hin as [?|[->|?]%elem_of_cons]; [done|done|by apply IH].
Qed.

Section line.
Context (r : Rule) (Hr : writable r).

Lemma writable_words : Forall isWordText (ru_Pattern r :: ru_Owners r).
Proof. destruct Hr as (H1 & _ & _ & H2 & _). by constructor. Qed.

Lemma renderRule_trim : trimSpace (renderRule r) = renderRule r.
Proof.
  destruct (join_edges _ writable_words ltac:(done)) as [(c & t & E & Hc) (d & u & E' & Hd)]. unfold trimSpace, renderRule.
  rewrite (dropWhile_none isSpace (joinWith _ _)), (dropWhile_none isSpace (rev _)), rev_involutive; [done|..].
  - rewrite E'. by intros ? ? [= <- _].
  - rewrite E. by intros ? ? [= <- _].
Qed.

Lemma renderRule_dropCR : dropCR (renderRule r) = renderRule r.
Proof.
  destruct (join_edges _ writable_words ltac:(done)) as [_ (d & u & E' & Hd)]. unfold dropCR, renderRule. rewrite E'.
  destruct (Ascii.eqb_spec d carriageReturn) as [->|]; done.
Qed.

Lemma renderRule_parse : parseLine (renderRule r) = Some r.
Proof.
  unfold parseLine. rewrite renderRule_trim. destruct (join_edges _ writable_words ltac:(done)) as [(c & t & E & Hc) _].
  unfold renderRule at 1. rewrite bool_decide_false by (by rewrite E). cbn [orb].
  assert (hasPrefix (renderRule r) ["#"%char] = false) as ->.
  { apply not_true_iff_false. intros [u Hu]%hasPrefix_app. destruct Hr as ([Hne _] & Hh & _). unfold renderRule in Hu.
    destruct (ru_Pattern r) as [|x p]; [done|]. destruct (Hh p). f_equal. destruct (ru_Owners r); by injection Hu. }
  unfold renderRule. rewrite fields_join by apply writable_words. destruct Hr as (_ & _ & Ho & _). destruct r as [p [|o os]]; done.
Qed.

Lemma renderRule_line : lineFeed ∉ renderRule r.
Proof. intros Hin. by pose proof (join_space _ _ writable_words Hin eq_refl). Qed.
End line.

Lemma splitOn_render rs : Forall writable rs -> splitOn lineFeed (render rs) = map renderRule rs ++ [[]].
Proof.
  induction 1 as [|r rs Hr Hrs IH]; [done|]. unfold render. cbn [map concat]. rewrite <-app_assoc. cbn [app].
  rewrite splitOn_app by (by apply renderRule_line). fold (render rs). by rewrite IH.
Qed.

Lemma rawLines_render rs : Forall writable rs -> rawLines (render rs) = map renderRule rs.
Proof. intros Hrs. unfold rawLines. rewrite splitOn_render, rev_app_distr by done. cbn [rev app]. apply rev_involutive. Qed.

Lemma scanLines_render rs : Forall writable rs -> scanLines maxScanTokenSize (map renderRule rs) = (map renderRule rs, None).
Proof.
  induction 1 as [|r rs Hr Hrs IH]; [done|]. cbn [map scanLines]. rewrite IH.
  rewrite (proj2 (Nat.ltb_lt _ _)) by (by destruct Hr as (_ & _ & _ & _ & ?)). by rewrite renderRule_dropCR.
Qed.

(** Parsing what a list of rules is written as gives the rules back, in order
    and without an error. *)
Theorem Parse_render rs : Forall writable rs -> Parse (render rs) = (mkOwners rs, None).
Proof.
  intros Hrs. unfold Parse. rewrite rawLines_render, scanLines_render by done. do 2 f_equal.
  induction Hrs as [|r rs Hr Hrs IH]; [done|]. cbn [map]. change (omap parseLine (renderRule r :: ?l)) with
    (match parseLine (renderRule r) with Some y => y :: omap parseLine l | None => omap parseLine l end).
  by rewrite renderRule_parse, IH.
Qed.

(** ** The owners of a path *)

Lemma find_last {A} (f : A -> bool) l x : List.find f (rev l) = Some x <->
  exists pre post, l = pre ++ x :: post /\ f x = true /\ Forall (fun y => f y = false) post.
Proof.
  induction l as [|a l IH] using rev_ind; [split; [done|by intros ([|] & ? & ? & _)]|].
  rewrite rev_app_distr. cbn. destruct (f a) eqn:E.
  - split; [intros [= <-]; by exists l, []|]. intros (pre & post & El & Hx & Hp). destruct post as [|y post _] using rev_ind.
    + apply app_inj_tail in El as [_ ->]. done.
    + rewrite app_comm_cons, app_assoc in El. apply app_inj_tail in El as [_ ->]. apply Forall_app in Hp as [_ Hp].
      inversion Hp; congruence.
  - rewrite IH. split.
    + intros (pre & post & -> & Hx & Hp). exists pre, (post ++ [a]). rewrite <-app_assoc. split; [done|]. split; [done|].
      apply Forall_app. auto.
    + intros (pre & post & El & Hx & Hp). destruct post as [|y post _] using rev_ind.
      * apply app_inj_tail in El as [_ ->]. congruence.
      * rewrite app_comm_cons, app_assoc in El. apply app_inj_tail in El as [-> ->]. apply Forall_app in Hp as [Hp _]. eauto.
Qed.

(** A pattern of a rule file that the theorems below speak about. *)
Definition plainRule (r : Rule) : Prop :=
  plainText (ru_Pattern r) /\ trimSpace (ru_Pattern r) = ru_Pattern r /\ ru_Pattern r <> [].

Lemma plainRule_iff r p : plainRule r -> filePath p -> matchPattern (ru_Pattern r) p = true <-> covers (ru_Pattern r) p.
Proof. intros (H1 & H2 & H3). by apply matchPattern_iff. Qed.

(** C27: The owners of a file are those of the last rule that covers it, for rules
    of literals, [?] and [*]: [matchPattern], with the backtracking-free
    [path.Match], decides the declarative relation [covers]; no owners when no
    rule covers the file. *)
Theorem Match_last_covering rs p : Forall plainRule rs -> filePath p ->
  (forall os, Match (mkOwners rs) p = Some os <->
     exists pre r post, rs = pre ++ r :: post /\ ru_Owners r = os /\ covers (ru_Pattern r) p
       /\ Forall (fun r' => ~ covers (ru_Pattern r') p) post)
  /\ (Match (mkOwners rs) p = None <-> Forall (fun r => ~ covers (ru_Pattern r) p) rs).
Proof.
  intros Hrs Hp. unfold Match. cbn [ow_Rules]. rewrite List.Forall_forall in Hrs. split.
  - intros os. rewrite fmap_Some. setoid_rewrite find_last. split.
    + intros (r & (pre & post & -> & Hm & Hn) & ->). exists pre, r, post. split_and!; try done.
      * apply plainRule_iff; [apply Hrs, in_app_iff; right; by left|done|done].
      * rewrite List.Forall_forall in Hn |- *. intros r' Hr' Hc. specialize (Hn r' Hr').
        apply plainRule_iff in Hc; [congruence|apply Hrs, in_app_iff; right; by right|done].
    + intros (pre & r & post & -> & <- & Hc & Hn). exists r. split; [|done]. exists pre, post. split_and!; [done| |].
      * apply plainRule_iff; [apply Hrs, in_app_iff; right; by left|done|done].
      * rewrite List.Forall_forall in Hn |- *. intros r' Hr'. apply not_true_iff_false. intros Hm.
        apply (Hn r' Hr'). apply plainRule_iff; [apply Hrs, in_app_iff; right; by right|done|done].
  - rewrite fmap_None. rewrite List.Forall_forall. split.
    + intros Hf r Hr Hc. apply plainRule_iff in Hc; [|by apply Hrs|done].
      pose proof (find_none _ _ Hf r) as H. cbn in H. rewrite H in Hc; [done|]. by apply in_rev in Hr.
    + intros Hn. destruct (List.find _ _) as [r|] eqn:E; [|done]. apply find_some in E as [Hin Hm]. apply in_rev in Hin.
      destruct (Hn r Hin). apply plainRule_iff; [by apply Hrs|done|done].
Qed.

(** ** Leading double stars *)

(** A file name in a pattern: no slash and nothing special. *)
Definition literal (w : text) : Prop :=
  isWordText w /\ Forall (fun c => plain c = true /\ lit "*" c = false /\ lit "?" c = false /\ slash c = false) w.

Lemma globs_literal w s : literal w -> globs w s <-> s = w.
Proof.
  intros [_ Hw]. revert s. induction Hw as [|c w (_ & H1 & H2 & _) Hw IH]; intros s; [apply globs_nil_iff|].
  rewrite globs_cons_iff by done. unfold elem. rewrite H2. split.
  - intros (d & s' & -> & ->%lit_eq & Hg). f_equal. by apply IH.
  - intros ->. exists c, w. rewrite lit_refl. split_and!; try done. by apply IH.
Qed.

Lemma globs_doublestar w s : literal w -> globs (toText "**/" ++ w) s <-> exists a, noSlash a /\ s = a ++ "/"%char :: w.
Proof.
  intros Hw. change (toText "**/" ++ w) with ("*"%char :: "*"%char :: "/"%char :: w).
  rewrite globs_stars by done. cbn [dropWhile]. rewrite !lit_refl. change (lit "*" "/"%char) with false. cbv iota.
  rewrite globs_star_iff. setoid_rewrite (globs_cons_iff "/"%char w); [|done]. setoid_rewrite globs_literal; [|done]. split.
  - intros (a & s' & -> & Ha & d & s2 & -> & Hd & ->). exists a. split; [done|]. change (elem "/"%char d) with (lit "/" d) in Hd.
    by apply lit_eq in Hd as ->.
  - intros (a & Ha & ->). exists a, ("/"%char :: w). split_and!; try done. by exists "/"%char, w.
Qed.

(** A leading double star is not any depth.  [**/name] covers the files of
    that name below the root but not one at the root, and [/**/name] covers the
    files exactly one directory down. *)
Theorem doublestar_depth w p : literal w -> filePath p ->
  (matchPattern (toText "**/" ++ w) p = true <-> exists pre, p = pre ++ "/"%char :: w)
  /\ (matchPattern (toText "/**/" ++ w) p = true <-> exists a, noSlash a /\ p = a ++ "/"%char :: w)
  /\ matchPattern (toText "**/" ++ w) w = false.
Proof.
  intros Hw Hp. pose proof (Hw) as [[Hne Hword] Hl].
  assert (Forall (fun c => plain c = true) w) as Hplain by (eapply Forall_impl; [exact Hl|]; cbn; tauto).
  assert (exists w' x, w = w' ++ [x] /\ slash x = false /\ isSpace x = false /\ lit "*" x = false) as (w' & x & Ew & Hx & Hsp & Hst).
  { destruct w as [|x w' _] using rev_ind; [done|]. apply Forall_app in Hl as [_ Hl]. apply Forall_app in Hword as [_ Hs].
    inversion Hl as [|? ? (_ & ? & _ & ?)]; inversion Hs; subst. by exists w', x. }
  assert (forall c q, isSpace c = false -> trimSpace (c :: q ++ w) = c :: q ++ w) as Ht.
  { intros c q Hc. unfold trimSpace. rewrite (dropWhile_none isSpace (c :: q ++ w)) by (by intros ? ? [= <- _]).
    rewrite dropWhile_none, rev_involutive; [done|]. rewrite Ew, app_comm_cons, app_assoc, rev_app_distr. by intros ? ? [= <- _]. }
  assert (Hend : forall q d y, slash y = true \/ lit "*" y = true -> q ++ w <> d ++ [y]).
  { intros q d y Hy E. rewrite Ew, app_assoc in E. apply app_inj_tail in E as [_ ->]. rewrite Hx, Hst in Hy. by destruct Hy. }
  assert (Hrel : forall q, filePath q -> matchPattern (toText "**/" ++ w) q = true <-> exists pre, q = pre ++ "/"%char :: w).
  { intros q Hq. rewrite matchPattern_iff; [|by repeat (constructor; [done|])|apply (Ht "*"%char (toText "*/")); done|done|done].
    rewrite covers_relative by (try done; destruct w; by intros [= ?]). split.
    - intros [(e & b & n & (He & Hs & _) & _)|[(_ & s & Hs & Hg)|(Hn & _)]]; [done| |].
      + apply globs_doublestar in Hg as (a & Ha & ->); [|done]. destruct Hs as [<-|[pre ->]]; [by exists a|]. exists (pre ++ "/"%char :: a). by rewrite <-app_assoc.
      + apply noSlash_in in Hn. destruct Hn. by do 2 right; left.
    - intros [pre ->]. right. left. split; [intros Hn; apply noSlash_in in Hn; destruct Hn; by do 2 right; left|].
      destruct (afterSlash_base pre) as [Hb Hb']. exists (afterSlash pre ++ "/"%char :: w). split.
      + destruct Hb as [->|[pre' E]]; [by left|right]. exists pre'. by rewrite E at 1; rewrite <-app_assoc.
      + apply globs_doublestar; [done|]. by exists (afterSlash pre). }
  split; [by apply Hrel|split].
  - rewrite matchPattern_iff; [|by repeat (constructor; [done|])|apply (Ht "/"%char (toText "**/")); done|done|done].
    change (toText "/**/" ++ w) with ("/"%char :: toText "**/" ++ w). rewrite covers_anchored, globs_doublestar by done. split.
    + intros [(d & r & E & _)|[(d & E & _)|[(_ & _ & ?)|(_ & Hs & _)]]]; [|  |done|done].
      * by destruct (Hend _ d "/"%char (or_introl eq_refl) E).
      * change (toText "/**") with (toText "/*" ++ ["*"%char]) in E. rewrite app_assoc in E.
        by destruct (Hend _ _ "*"%char (or_intror eq_refl) E).
    + intros Ha. right. right. left. split; [|done]. intros d. split; [apply Hend; by left|].
      change (toText "/**") with (toText "/*" ++ ["*"%char]). rewrite app_assoc. apply Hend. by right.
  - apply not_true_iff_false. intros Hm. assert (noSlash w) as Hns.
    { unfold noSlash. clear -Hl. induction Hl as [|c w (_ & _ & _ & Hc) _ IH]; [done|]. cbn. by rewrite Hc. }
    apply Hrel in Hm as [pre E].
    + apply noSlash_in in Hns. destruct Hns. rewrite E, elem_of_app. right. by left.
    + split; [done|]. split; intros p' E; apply noSlash_in in Hns; destruct Hns; rewrite E; [by left|].
      rewrite elem_of_app. right. by left.
Qed.

(** ** A rule file *)

Module CodeownersDemo.
Definition all : Rule := mkRule (toText "*") [toText "@org/platform"].
Definition go : Rule := mkRule (toText "*.go") [toText "@org/go"; toText "@alice"].
Definition billing : Rule := mkRule (toText "/services/*/main.go") [toText "@org/billing"].
Definition rules : list Rule := [all; go; billing].
Definition path : text := toText "services/billing/main.go".

Lemma rules_writable : Forall writable rules.
Proof.
  assert (forall r, r ∈ rules -> isWordText (ru_Pattern r) /\ Forall isWordText (ru_Owners r)) as Hw.
  { intros r Hr. split; [|apply Forall_forall; intros w Hin]; (split; [|apply (bool_decide_unpack _); vm_compute]).
    all: set_unfold in Hr; destruct Hr as [->|[->|[->|[]]]]; try done; set_unfold in Hin; naive_solver. }
  apply Forall_forall. intros r Hr. destruct (Hw r Hr) as [H1 H2]. split; [done|].
  set_unfold in Hr. destruct Hr as [->|[->|[->|[]]]]; (split; [done|]; split; [done|]; split; [done|];
    apply Nat.ltb_lt; vm_compute; reflexivity).
Qed.

Lemma rules_plain : Forall plainRule rules.
Proof. repeat (constructor; [split; [repeat (constructor; [reflexivity|]); constructor|split; [vm_compute; reflexivity|discriminate]]|]). constructor. Qed.

Lemma path_file : filePath path.
Proof.
  split; [discriminate|]. split; [discriminate|]. intros p' E.
  assert (hasSuffix path ["/"%char] = true) as H by (apply hasSuffix_app; eauto). vm_compute in H. discriminate.
Qed.
End CodeownersDemo.

Lemma Parse_render_witness : Parse (render CodeownersDemo.rules) = (mkOwners CodeownersDemo.rules, None).
Proof. apply (Parse_render CodeownersDemo.rules CodeownersDemo.rules_writable). Defined.

Lemma Match_last_covering_witness : exists pre r post, CodeownersDemo.rules = pre ++ r :: post
  /\ ru_Owners r = [toText "@org/billing"] /\ covers (ru_Pattern r) CodeownersDemo.path.
Proof.
  destruct (Match_last_covering CodeownersDemo.rules CodeownersDemo.path CodeownersDemo.rules_plain CodeownersDemo.path_file) as [H _].
  destruct (proj1 (H [toText "@org/billing"])) as (pre & r & post & E & Ho & Hc & _); [vm_compute; reflexivity|].
  exists pre, r, post. split; [exact E|]. split; [exact Ho|exact Hc].
Defined.

Lemma doublestar_depth_witness : matchPattern (toText "**/" ++ toText "main.go") CodeownersDemo.path = true
  /\ matchPattern (toText "**/" ++ toText "main.go") (toText "main.go") = false.
Proof.
  destruct (doublestar_depth (toText "main.go") CodeownersDemo.path) as (H1 & _ & H2).
  - split; [split; [discriminate|]|]; repeat (constructor; [vm_compute; auto|]); constructor.
  - exact CodeownersDemo.path_file.
  - split; [|exact H2]. apply H1. exists (toText "services/billing"). vm_compute. reflexivity.
Defined.
