(* ===== verification/Migrate.v ===== *)
(** * internal/migrate

    The statement splitter, the migration file names and their order, and [Up]
    over an abstract store: what a statement does to the schema is the database's
    business, the table schema_migrations is modelled. *)

From S2P Require Import Prelude GoSort GoRegexp GoStrings.

(** ** The statement splitter *)

Definition newline : ascii := ascii_of_nat 10.
Definition squote : ascii := ascii_of_nat 39.

(** The text before the first [c], and the rest, which starts with [c] or is
    empty. *)
Fixpoint spanTo (c : ascii) (t : text) : text * text :=
  match t with
  | [] => ([], [])
  | a :: t' =>
      if Ascii.eqb a c then ([], t)
      else let '(p, r) := spanTo c t' in (a :: p, r)
  end.

(** The loop of a block comment, past its opening: an unterminated comment leaves
    its last byte to the outer loop. *)
Fixpoint blockBody (t : text) : text * text :=
  match t with
  | a :: (b :: r) as t' =>
      if Ascii.eqb a "*" && Ascii.eqb b "/" then ([a; b], r)
      else let '(p, r) := blockBody t' in (a :: p, r)
  | _ => ([], t)
  end.

(** The loop of a single-quoted literal, past its opening. *)
Fixpoint quoteBody (t : text) : text * text :=
  match t with
  | [] => ([], [])
  | a :: t' =>
      if Ascii.eqb a squote then
        match t' with
        | b :: t'' =>
            if Ascii.eqb b squote then let '(p, r) := quoteBody t'' in (a :: b :: p, r)
            else ([a], t')
        | [] => ([a], [])
        end
      else let '(p, r) := quoteBody t' in (a :: p, r)
  end.

Definition identBody (t : text) : text * text :=
  match spanTo dquote t with
  | (p, a :: r) => (p ++ [a], r)
  | (p, []) => (p, [])
  end.

Definition isDollarTagByte : class :=
  orc (inRange "a" "z") (orc (inRange "A" "Z") (orc (inRange "0" "9") (lit "_"))).

(** The tag after a dollar sign, up to the next one, and what follows. *)
Fixpoint dollarTag (t : text) : option (text * text) :=
  match t with
  | [] => None
  | a :: t' =>
      if Ascii.eqb a "$" then Some ([], t')
      else if isDollarTagByte a then (fun '(p, r) => (a :: p, r)) <$> dollarTag t'
      else None
  end.

Definition dollarBody (t : text) : text * text :=
  match dollarTag t with
  | None => (["$"%char], t)
  | Some (name, r) =>
      let tag := "$"%char :: name ++ ["$"%char] in
      match index r tag with
      | None => (tag ++ r, [])
      | Some k => (tag ++ firstn k r ++ tag, skipn (k + length tag) r)
      end
  end.

(** What one round of the loop copies to the current statement, and what is left. *)
Definition nextPiece (t : text) : option (text * text) :=
  match t with
  | [] => None
  | c :: r =>
      Some (
        if Ascii.eqb c "-" && hasPrefix r ["-"%char] then spanTo newline t
        else if Ascii.eqb c "/" && hasPrefix r ["*"%char] then
          let '(p, r') := blockBody (tail r) in (c :: "*"%char :: p, r')
        else if Ascii.eqb c squote then let '(p, r') := quoteBody r in (c :: p, r')
        else if Ascii.eqb c dquote then let '(p, r') := identBody r in (c :: p, r')
        else if Ascii.eqb c "$" then dollarBody r
        else ([c], r))
  end.

Definition flushStatement (cur : text) (out : list text) : list text :=
  let s := trimSpace cur in
  match s with [] => out | _ => s :: out end.

(** The loop; [cur] is the current statement.  A round consumes at least a byte. *)
Fixpoint splitLoop (fuel : nat) (t cur : text) : list text :=
  match fuel with
  | O => []
  | S fuel =>
      match nextPiece t with
      | None => flushStatement cur []
      | Some (p, r) =>
          if hasPrefix t [";"%char] then flushStatement (cur ++ p) (splitLoop fuel r [])
          else splitLoop fuel r (cur ++ p)
      end
  end.

Definition splitSQL (sql : text) : list text := splitLoop (S (length sql)) sql [].

(** ** Files *)

Inductive Backend := Postgres | ClickHouse.

Record File := mkFile {
  f_Version : Z;
  f_Name : string;
  f_Down : bool;
  f_Contents : string
}.

(** An entry of the directory: a subdirectory, or a file and its contents, [None]
    when it cannot be read. *)
Record dirEntry := mkDirEntry {
  de_name : string;
  de_isDir : bool;
  de_contents : option string
}.

Fixpoint spanWhile (f : class) (t : text) : text * text :=
  match t with
  | [] => ([], [])
  | a :: t' => if f a then let '(p, r) := spanWhile f t' in (a :: p, r) else ([], t)
  end.

Definition digitVal (c : ascii) : Z := Z.of_N (N_of_ascii c) - 48.
Definition decimal (t : text) : Z := foldl (fun n c => 10 * n + digitVal c) 0 t.

(** [fmt.Sscanf(base, "%d_%s", &version, &rest)], for names without line breaks. *)
Definition scanVersion (base : string) : option Z :=
  let t := dropWhile isSpace (toText base) in
  let '(neg, t) :=
    match t with
    | c :: t' => if Ascii.eqb c "-" then (true, t') else if Ascii.eqb c "+" then (false, t') else (false, t)
    | [] => (false, [])
    end in
  let '(ds, t) := spanWhile digit t in
  let v := (if neg : bool then -1 else 1) * decimal ds in
  match ds, t with
  | _ :: _, c :: t' =>
      if (- 2 ^ 63 <=? v) && (v <? 2 ^ 63) && Ascii.eqb c "_" then
        match dropWhile isSpace t' with [] => None | _ => Some v end
      else None
  | _, _ => None
  end.

Inductive migrateError :=
  | EReadDir
  | EMalformed (name : string)
  | EReadFile (name : string)
  | EConnect
  | EBegin (name : string)
  | EApply (name : string) (statement : Z) (line : string)
  | ERecord (name : string)
  | ECommit (name : string)
  | ESchema
  | EVersion.

Fixpoint readEntries (entries : list dirEntry) : migrateError + list File :=
  match entries with
  | [] => inr []
  | e :: es =>
      if de_isDir e || negb (hasSuffix (toText (de_name e)) (toText ".sql")) then readEntries es
      else match scanVersion (de_name e) with
           | None => inl (EMalformed (de_name e))
           | Some v =>
               match de_contents e with
               | None => inl (EReadFile (de_name e))
               | Some b =>
                   match readEntries es with
                   | inl err => inl err
                   | inr fs => inr (mkFile v (de_name e) (hasSuffix (toText (de_name e)) (toText ".down.sql")) b :: fs)
                   end
               end
           end
  end.

Definition fileLess (x y : File) : bool :=
  if negb (f_Version x =? f_Version y) then f_Version x <? f_Version y else negb (f_Down x).

(** Two files of one version and direction have no order; [sort.Slice] is then
    free, and this is one of its answers. *)
Definition loadFiles (dir : option (list dirEntry)) : migrateError + list File :=
  match dir with
  | None => inl EReadDir
  | Some entries =>
      match readEntries entries with
      | inl err => inl err
      | inr fs => inr (SliceStable fileLess fs)
      end
  end.

Definition firstLine (s : text) : text :=
  match index s [newline] with
  | Some (S i) => firstn (S i) s
  | _ => s
  end.

(** ** Applying *)

(** A database: its schema and the rows of schema_migrations. *)
Record Store (S : Type) := mkStore {
  st_schema : S;
  st_versions : list (Z * string)
}.
Arguments mkStore {S}.
Arguments st_schema {S}.
Arguments st_versions {S}.

(** What a COMMIT comes to: done, rolled back, or done with its reply lost. *)
Inductive commitOutcome := Committed | RolledBack | ReplyLost.

Section Up.
Context {S : Type}.
(** The database: what a statement does to the schema, and which requests it
    refuses.  [db_begins] and [db_commits] are asked about a file. *)
Context (db_exec : text -> S -> option S) (db_begins db_records : File -> bool) (db_commits : File -> commitOutcome).

(** [applyMigration] and [applyMigrationTx]: the statements in order, with the
    number of the one that failed. *)
Fixpoint applyStatements (i : Z) (stmts : list text) (s : S) : option (Z * text) * S :=
  match stmts with
  | [] => (None, s)
  | stmt :: stmts' =>
      match trimSpace stmt with
      | [] => applyStatements (i + 1) stmts' s
      | _ =>
          match db_exec stmt s with
          | None => (Some (i + 1, stmt), s)
          | Some s' => applyStatements (i + 1) stmts' s'
          end
      end
  end.

Definition applyMigration (f : File) (s : S) : option migrateError * S :=
  match applyStatements 0 (splitSQL (toText (f_Contents f))) s with
  | (None, s') => (None, s')
  | (Some (i, stmt), s') => (Some (EApply (f_Name f) i (ofText (firstLine stmt))), s')
  end.

(** The INSERT: the version is the primary key in Postgres. *)
Definition recordVersion (b : Backend) (f : File) (rows : list (Z * string)) : option (list (Z * string)) :=
  let duplicate := bool_decide (f_Version f ∈ rows.*1) in
  if negb (db_records f) || (match b with Postgres => duplicate | ClickHouse => false end) then None
  else Some (rows ++ [(f_Version f, f_Name f)]).

Definition applyAndRecord (b : Backend) (f : File) (st : Store S) : option migrateError * Store S :=
  match b with
  | Postgres =>
      if negb (db_begins f) then (Some (EBegin (f_Name f)), st)
      else match applyMigration f (st_schema st) with
           | (Some err, _) => (Some err, st)
           | (None, s') =>
               match recordVersion b f (st_versions st) with
               | None => (Some (ERecord (f_Name f)), st)
               | Some rows =>
                   match db_commits f with
                   | Committed => (None, mkStore s' rows)
                   | RolledBack => (Some (ECommit (f_Name f)), st)
                   | ReplyLost => (Some (ECommit (f_Name f)), mkStore s' rows)
                   end
               end
           end
  | ClickHouse =>
      match applyMigration f (st_schema st) with
      | (Some err, s') => (Some err, mkStore s' (st_versions st))
      | (None, s') =>
          match recordVersion b f (st_versions st) with
          | None => (Some (ERecord (f_Name f)), mkStore s' (st_versions st))
          | Some rows => (None, mkStore s' rows)
          end
      end
  end.

(** [SELECT max(version)], NULL when there is no row. *)
Definition currentVersion (rows : list (Z * string)) : Z :=
  match rows.*1 with
  | [] => 0
  | v :: vs => foldr Z.max v vs
  end.

(** The loop of [Up]. *)
Fixpoint upLoop (b : Backend) (current : Z) (files : list File) (st : Store S) : option migrateError * Store S :=
  match files with
  | [] => (None, st)
  | f :: files' =>
      if f_Down f then upLoop b current files' st
      else if f_Version f <=? current then upLoop b current files' st
      else match applyAndRecord b f st with
           | (Some err, st') => (Some err, st')
           | (None, st') => upLoop b current files' st'
           end
  end.

(** [Up], on a directory and a database that answers ([None] when it does not,
    or cannot make or read the table). *)
Definition Up (b : Backend) (dir : option (list dirEntry)) (connects ensures reads : bool)
    (st : Store S) : option migrateError * Store S :=
  match loadFiles dir with
  | inl err => (Some err, st)
  | inr files =>
      if negb connects then (Some EConnect, st)
      else if negb ensures then (Some ESchema, st)
      else if negb reads then (Some EVersion, st)
      else upLoop b (currentVersion (st_versions st)) files st
  end.

(** [Status] *)
Definition Status (connects ensures reads : bool) (st : Store S) : migrateError + Z :=
  if negb connects then inl EConnect
  else if negb ensures then inl ESchema
  else if negb reads then inl EVersion
  else inr (currentVersion (st_versions st)).
End Up.

(** * Migrations: the splitter and [Up]

    Splitting loses nothing and keeps quoted semicolons; [Up] applies the pending
    files in order, each whole or not at all. *)


(** ** Pieces *)

Lemma spanTo_app c t p r : spanTo c t = (p, r) -> t = p ++ r.
Proof.
  revert p r. induction t as [|a t IH]; intros p r; cbn; [intros [= <- <-]; reflexivity|].
  destruct (Ascii.eqb a c); [intros [= <- <-]; reflexivity|].
  destruct (spanTo c t) as [p' r'] eqn:E. intros [= <- <-]. cbn. f_equal. auto.
Qed.

(** Induction on texts two bytes at a time. *)
Lemma text_ind2 (P : text -> Prop) : P [] -> (forall a, P [a]) ->
  (forall a b t, P t -> P (b :: t) -> P (a :: b :: t)) -> forall t, P t.
Proof.
  intros H0 H1 H2 t. enough (P t /\ forall a, P (a :: t)) as [? _] by assumption.
  induction t as [|b t [IH1 IH2]]; split; auto.
Qed.

Lemma blockBody_app t p r : blockBody t = (p, r) -> t = p ++ r.
Proof.
  revert t p r. apply (text_ind2 (fun t => forall p r, blockBody t = (p, r) -> t = p ++ r)).
  - intros p r [= <- <-]. reflexivity.
  - intros a p r [= <- <-]. reflexivity.
  - intros a b t _ IH p r. cbn [blockBody]. destruct (_ && _); [intros [= <- <-]; reflexivity|].
    change (blockBody (b :: t)) with (blockBody (b :: t)) in IH.
    destruct (blockBody (b :: t)) as [p' r'] eqn:E. cbn [blockBody] in E. rewrite E.
    intros [= <- <-]. rewrite <- app_comm_cons. f_equal. apply IH. reflexivity.
Qed.

Lemma quoteBody_app t p r : quoteBody t = (p, r) -> t = p ++ r.
Proof.
  revert t p r. apply (text_ind2 (fun t => forall p r, quoteBody t = (p, r) -> t = p ++ r)).
  - intros p r [= <- <-]. reflexivity.
  - intros a p r. cbn. destruct (Ascii.eqb a squote); intros [= <- <-]; reflexivity.
  - intros a b t IH1 IH2 p r. change (quoteBody (a :: b :: t)) with
      (if Ascii.eqb a squote then
         if Ascii.eqb b squote then let '(p, r) := quoteBody t in (a :: b :: p, r) else ([a], b :: t)
       else let '(p, r) := quoteBody (b :: t) in (a :: p, r)).
    destruct (Ascii.eqb a squote); [destruct (Ascii.eqb b squote)|].
    + destruct (quoteBody t) as [p' r']. intros [= <- <-]. cbn. do 2 f_equal. auto.
    + intros [= <- <-]. reflexivity.
    + destruct (quoteBody (b :: t)) as [p' r']. intros [= <- <-]. cbn. f_equal. auto.
Qed.

Lemma dollarTag_app t p r : dollarTag t = Some (p, r) -> t = p ++ "$"%char :: r.
Proof.
  revert p r. induction t as [|a t IH]; intros p r; cbn; [discriminate|].
  destruct (Ascii.eqb_spec a "$") as [->|]; [intros [= <- <-]; reflexivity|].
  destruct (isDollarTagByte a); [|discriminate].
  destruct (dollarTag t) as [[p' r']|]; cbn; [|discriminate]. intros [= <- <-]. cbn. f_equal. auto.
Qed.

Lemma index_split t p i : index t p = Some i -> t = firstn i t ++ p ++ skipn (i + length p) t.
Proof.
  intros E. destruct (index_spec t p i E) as (_ & Hp & _). apply hasPrefix_app in Hp as [u Hu].
  rewrite <- (take_drop i t) at 1. f_equal. rewrite <- drop_drop, Hu, drop_app_length. reflexivity.
Qed.

Lemma dollarBody_app t p r : dollarBody t = (p, r) -> "$"%char :: t = p ++ r.
Proof.
  unfold dollarBody. destruct (dollarTag t) as [[name u]|] eqn:E; [|intros [= <- <-]; reflexivity].
  apply dollarTag_app in E as ->. destruct (index u _) as [k|] eqn:Ei; intros [= <- <-].
  - rewrite (index_split _ _ _ Ei) at 1. cbn. rewrite <- !app_assoc. cbn. rewrite <- !app_assoc. reflexivity.
  - cbn. rewrite app_nil_r, <- app_assoc. reflexivity.
Qed.

(** A round copies some bytes, in order, and at least one. *)
Lemma nextPiece_app t p r : nextPiece t = Some (p, r) -> t = p ++ r /\ p <> [].
Proof.
  destruct t as [|c t]; [discriminate|]. cbn [nextPiece].
  destruct (Ascii.eqb c "-" && hasPrefix t ["-"%char]) eqn:E1.
  { intros [= E]. split; [exact (spanTo_app newline (c :: t) p r E)|].
    apply andb_true_iff in E1 as [E1 _]. apply Ascii.eqb_eq in E1 as ->. cbn in E.
    destruct (spanTo newline t). injection E as <- _. discriminate. }
  destruct (Ascii.eqb c "/" && hasPrefix t ["*"%char]) eqn:E2.
  { apply andb_true_iff in E2 as [_ E2]. apply hasPrefix_app in E2 as [u ->]. cbn [tail app].
    destruct (blockBody u) as [p' r'] eqn:E. intros [= <- <-]. apply blockBody_app in E as ->. auto. }
  destruct (Ascii.eqb c squote).
  { destruct (quoteBody t) as [p' r'] eqn:E. intros [= <- <-]. apply quoteBody_app in E as ->. auto. }
  destruct (Ascii.eqb c dquote).
  { unfold identBody. destruct (spanTo dquote t) as [p' [|a r']] eqn:E; intros [= <- <-];
      apply spanTo_app in E as ->; [rewrite !app_nil_r|cbn; rewrite <- app_assoc]; auto. }
  destruct (Ascii.eqb_spec c "$") as [->|]; [|intros [= <- <-]; auto].
  intros [= E]. split; [apply dollarBody_app, E|]. revert E. unfold dollarBody.
  repeat case_match; intros [= <- <-]; discriminate.
Qed.

Lemma piece_length t p r : nextPiece t = Some (p, r) -> (length r < length t)%nat.
Proof.
  intros E. apply nextPiece_app in E as [-> Hp]. rewrite length_app. destruct p; [contradiction|cbn; lia].
Qed.

(** ** Splitting *)

(** The splitter before trimming: the statements with what is around them. *)
Fixpoint rawLoop (fuel : nat) (t cur : text) : list text :=
  match fuel with
  | O => []
  | S fuel =>
      match nextPiece t with
      | None => [cur]
      | Some (p, r) =>
          if hasPrefix t [";"%char] then (cur ++ p) :: rawLoop fuel r []
          else rawLoop fuel r (cur ++ p)
      end
  end.

Definition nonBlank (t : text) : bool := match trimSpace t with [] => false | _ => true end.

Lemma flushStatement_eq cur segs : flushStatement cur (map trimSpace (List.filter nonBlank segs)) =
  map trimSpace (List.filter nonBlank (cur :: segs)).
Proof. unfold flushStatement, nonBlank. cbn. destruct (trimSpace cur) eqn:E; cbn; rewrite ?E; reflexivity. Qed.

Lemma splitLoop_raw fuel t cur :
  (length t < fuel)%nat -> splitLoop fuel t cur = map trimSpace (List.filter nonBlank (rawLoop fuel t cur)).
Proof.
  revert t cur. induction fuel as [|fuel IH]; intros t cur Hf; [lia|]. cbn [splitLoop rawLoop].
  destruct (nextPiece t) as [[p r]|] eqn:E; [|apply (flushStatement_eq cur [])].
  apply piece_length in E. case_match; rewrite IH by lia; [apply flushStatement_eq|reflexivity].
Qed.

(** A statement as the splitter cuts it: all but the last end in a semicolon. *)
Lemma rawLoop_concat fuel t cur : (length t < fuel)%nat ->
  concat (rawLoop fuel t cur) = cur ++ t /\
  exists init last, rawLoop fuel t cur = init ++ [last] /\ Forall (fun s => exists u, s = u ++ [";"%char]) init.
Proof.
  revert t cur. induction fuel as [|fuel IH]; intros t cur Hf; [lia|]. cbn [rawLoop].
  destruct (nextPiece t) as [[p r]|] eqn:E.
  - pose proof (piece_length _ _ _ E) as Hl. apply nextPiece_app in E as E'. destruct E' as [Et _].
    case_match eqn:Es.
    + destruct (IH r [] ltac:(lia)) as (Hc & init & last & Hr & Hi). rewrite Hr.
      split; [cbn; rewrite <- Hr, Hc, Et; cbn; rewrite <- app_assoc; reflexivity|].
      exists ((cur ++ p) :: init), last. split; [reflexivity|]. constructor; [|assumption].
      apply hasPrefix_app in Es as [u ->]. injection E as <- <-. eauto.
    + destruct (IH r (cur ++ p) ltac:(lia)) as (Hc & Hr). split; [|exact Hr].
      rewrite Hc, Et, app_assoc. reflexivity.
  - destruct t; [|discriminate]. split; [reflexivity|]. exists [], cur. auto.
Qed.

(** ** Statements written as tokens *)

Inductive Tok :=
  | TByte (c : ascii)
  | TLine (body : text)
  | TBlock (body : text)
  | TQuote (body : text)
  | TIdent (body : text)
  | TDollar (name body : text).

Definition escapeQuotes (body : text) : text :=
  concat (map (fun c => if Ascii.eqb c squote then [squote; squote] else [c]) body).

Definition tagText (name : text) : text := "$"%char :: (name ++ ["$"%char]).

Definition renderTok (k : Tok) : text :=
  match k with
  | TByte c => [c]
  | TLine body => "-"%char :: "-"%char :: body
  | TBlock body => "/"%char :: "*"%char :: (body ++ ["*"%char; "/"%char])
  | TQuote body => squote :: (escapeQuotes body ++ [squote])
  | TIdent body => dquote :: (body ++ [dquote])
  | TDollar name body => tagText name ++ body ++ tagText name
  end.

Definition renderToks (ks : list Tok) : text := concat (map renderTok ks).

(** A token that reads back when the byte [next] follows it. *)
Definition tok_ok (k : Tok) (next : option ascii) : Prop :=
  match k with
  | TByte c => (c ∉ [squote; dquote; "$"%char; ";"%char]) /\
      (c = "-"%char -> next <> Some "-"%char) /\ (c = "/"%char -> next <> Some "*"%char)
  | TLine body => (newline ∉ body) /\ (next = None \/ next = Some newline)
  | TBlock body => index (body ++ ["*"%char; "/"%char]) ["*"%char; "/"%char] = Some (length body)
  | TQuote _ => next <> Some squote
  | TIdent body => dquote ∉ body
  | TDollar name body => Forall (fun c => isDollarTagByte c = true) name /\
      index (body ++ tagText name) (tagText name) = Some (length body)
  end.

Fixpoint toks_ok (ks : list Tok) (next : option ascii) : Prop :=
  match ks with
  | [] => True
  | k :: ks' => tok_ok k (head (renderToks ks' ++ option_list next)) /\ toks_ok ks' next
  end.

#[export] Instance tok_ok_dec k next : Decision (tok_ok k next).
Proof. destruct k; cbn [tok_ok]; apply _. Defined.

#[export] Instance toks_ok_dec ks next : Decision (toks_ok ks next).
Proof. induction ks as [|k ks IH]; cbn [toks_ok]; apply _. Defined.

Lemma hasPrefix_nil (t : text) : hasPrefix t [] = true.
Proof. destruct t; reflexivity. Qed.

Lemma hasPrefix_head (t : text) c : hasPrefix t [c] = true <-> head t = Some c.
Proof.
  destruct t as [|a t]; cbn; [split; discriminate|].
  rewrite hasPrefix_nil, andb_true_r, Ascii.eqb_eq. split; congruence.
Qed.

Lemma hasPrefix_head_false (t : text) c : head t <> Some c -> hasPrefix t [c] = false.
Proof. rewrite <- hasPrefix_head. apply not_true_is_false. Qed.

Lemma hasPrefix_longer t u p : (length p <= length t)%nat -> hasPrefix (t ++ u) p = hasPrefix t p.
Proof.
  revert t. induction p as [|a p IH]; intros [|c t] Hl; cbn in *; try reflexivity; [destruct u; reflexivity|lia|].
  rewrite IH by lia. reflexivity.
Qed.

Lemma index_longer t u p i : index t p = Some i -> index (t ++ u) p = Some i.
Proof.
  revert i. induction t as [|c t IH]; intros i; rewrite (index_eq (_ ++ u)); rewrite index_eq; cbn [app].
  - destruct (hasPrefix [] p) eqn:E; [|discriminate]. destruct p; [|discriminate].
    intros [= <-]. destruct u; reflexivity.
  - destruct (hasPrefix (c :: t) p) eqn:E.
    + apply hasPrefix_app in E as [v Ev]. rewrite (app_comm_cons t u c), Ev, <- app_assoc.
      rewrite (proj2 (hasPrefix_app _ p)) by eauto. auto.
    + destruct (index t p) as [k|] eqn:Ek; [|discriminate]. intros [= <-].
      destruct (index_spec t p k Ek) as (Hk & Hp & _). apply hasPrefix_app in Hp as [v Hv].
      apply (f_equal (@length ascii)) in Hv. rewrite length_drop, length_app in Hv.
      rewrite (app_comm_cons t u c), hasPrefix_longer by (cbn; lia).
      rewrite E, (IH k eq_refl). reflexivity.
Qed.

Lemma spanTo_stop c p r : c ∉ p -> (head r = None \/ head r = Some c) -> spanTo c (p ++ r) = (p, r).
Proof.
  intros Hp Hr. induction p as [|a p IH]; cbn.
  - destruct r as [|b r]; [reflexivity|]. destruct Hr as [|[= ->]]; [discriminate|].
    cbn. rewrite Ascii.eqb_refl. reflexivity.
  - apply not_elem_of_cons in Hp as [Ha Hp]. rewrite (proj2 (Ascii.eqb_neq a c)) by congruence.
    rewrite IH by assumption. reflexivity.
Qed.

Lemma blockBody_cons a b t : Ascii.eqb a "*" && Ascii.eqb b "/" = false ->
  blockBody (a :: b :: t) = let '(p, r) := blockBody (b :: t) in (a :: p, r).
Proof. intros E. change (blockBody (a :: b :: t)) with
  (if Ascii.eqb a "*" && Ascii.eqb b "/" then ([a; b], t)
   else let '(p, r) := blockBody (b :: t) in (a :: p, r)). rewrite E. reflexivity. Qed.

Lemma blockBody_stop body r : index (body ++ ["*"%char; "/"%char]) ["*"%char; "/"%char] = Some (length body) ->
  blockBody (body ++ "*"%char :: "/"%char :: r) = (body ++ ["*"%char; "/"%char], r).
Proof.
  induction body as [|a body IH]; [reflexivity|]. rewrite index_eq. cbn [length].
  destruct (hasPrefix _ _) eqn:E; [discriminate|]. cbn [app].
  destruct (index (body ++ _) _) as [k|]; [|discriminate]. intros [= ->].
  destruct (body ++ "*"%char :: "/"%char :: r) as [|b t] eqn:Et; [destruct body; discriminate|].
  rewrite blockBody_cons.
  - rewrite IH by reflexivity. reflexivity.
  - destruct body as [|b' body]; cbn in Et; injection Et as <- _; cbn.
    + apply andb_false_r.
    + cbn in E. rewrite hasPrefix_nil, andb_true_r in E. rewrite (Ascii.eqb_sym a), (Ascii.eqb_sym b'). exact E.
Qed.

Lemma quoteBody_stop body r : head r <> Some squote ->
  quoteBody (escapeQuotes body ++ squote :: r) = (escapeQuotes body ++ [squote], r).
Proof.
  intros Hr. induction body as [|a body IH].
  - cbn. destruct r as [|b r]; [reflexivity|]. rewrite (proj2 (Ascii.eqb_neq b squote)); [reflexivity|].
    intros ->. apply Hr. reflexivity.
  - unfold escapeQuotes in *. cbn [map concat]. destruct (Ascii.eqb a squote) eqn:E.
    + cbn. rewrite IH. reflexivity.
    + cbn [app quoteBody]. rewrite E, IH. reflexivity.
Qed.

Lemma dollarTag_stop name r : Forall (fun c => isDollarTagByte c = true) name ->
  dollarTag (name ++ "$"%char :: r) = Some (name, r).
Proof.
  induction 1 as [|a name Ha Hn IH]; [reflexivity|]. cbn.
  destruct (Ascii.eqb_spec a "$") as [->|]; [discriminate|]. rewrite Ha, IH. reflexivity.
Qed.

Lemma dollarBody_stop name body r : tok_ok (TDollar name body) (head r) ->
  dollarBody (name ++ "$"%char :: body ++ tagText name ++ r) = (tagText name ++ body ++ tagText name, r).
Proof.
  intros [Hn Hi]. unfold dollarBody. rewrite dollarTag_stop by assumption. fold (tagText name).
  rewrite (app_assoc body), (index_longer _ r _ _ Hi), <- app_assoc.
  rewrite take_app_length, <- drop_drop, drop_app_length, drop_app_length. reflexivity.
Qed.

(** A token reads back as one piece, and does not end the statement. *)
Lemma nextPiece_tok k r : tok_ok k (head r) ->
  nextPiece (renderTok k ++ r) = Some (renderTok k, r) /\ hasPrefix (renderTok k ++ r) [";"%char] = false.
Proof.
  destruct k as [c|body|body|body|body|name body]; intros Hok; cbn [renderTok app].
  - destruct Hok as (Hc & H1 & H2). rewrite !not_elem_of_cons in Hc. destruct Hc as (N1 & N2 & N3 & N4 & _).
    split; [|apply hasPrefix_head_false; cbn; congruence]. cbn [nextPiece].
    rewrite (proj2 (Ascii.eqb_neq c squote)), (proj2 (Ascii.eqb_neq c dquote)), (proj2 (Ascii.eqb_neq c "$")) by assumption.
    destruct (Ascii.eqb_spec c "-") as [->|]; [rewrite hasPrefix_head_false by exact (H1 eq_refl); reflexivity|].
    destruct (Ascii.eqb_spec c "/") as [->|]; [cbn [andb]; rewrite hasPrefix_head_false by exact (H2 eq_refl); reflexivity|reflexivity].
  - destruct Hok as [Hb Hr]. split; [|reflexivity]. cbn [nextPiece hasPrefix].
    rewrite hasPrefix_nil. cbn [andb Ascii.eqb Bool.eqb].
    f_equal. apply (spanTo_stop newline ("-"%char :: "-"%char :: body)); [|assumption].
    rewrite !not_elem_of_cons. repeat split; [discriminate..|assumption].
  - split; [|reflexivity]. cbn -[blockBody]. rewrite <- app_assoc, hasPrefix_nil. cbn [app].
    rewrite blockBody_stop by exact Hok. reflexivity.
  - split; [|reflexivity]. cbn -[quoteBody escapeQuotes]. rewrite <- app_assoc. cbn [app].
    rewrite quoteBody_stop by exact Hok. reflexivity.
  - split; [|reflexivity]. cbn -[identBody]. rewrite <- app_assoc. cbn [app]. unfold identBody.
    rewrite (spanTo_stop dquote body (dquote :: r)); [reflexivity|exact Hok|right; reflexivity].
  - split; [|reflexivity].
    assert ((tagText name ++ body ++ tagText name) ++ r =
      "$"%char :: (name ++ "$"%char :: (body ++ tagText name ++ r))) as ->.
    { unfold tagText. rewrite <- !app_assoc. cbn. rewrite <- !app_assoc. reflexivity. }
    transitivity (Some (dollarBody (name ++ "$"%char :: (body ++ tagText name ++ r)))); [reflexivity|].
    rewrite dollarBody_stop by exact Hok. reflexivity.
Qed.

(** ** Reading statements back *)

Definition raw (t cur : text) : list text := rawLoop (S (length t)) t cur.

Lemma rawLoop_fuel fuel t cur : (length t < fuel)%nat -> rawLoop fuel t cur = raw t cur.
Proof.
  unfold raw. assert (forall n m t cur, (length t < n)%nat -> (length t < m)%nat ->
    rawLoop n t cur = rawLoop m t cur) as H; [|intros; apply H; lia].
  clear. induction n as [|n IH]; intros [|m] t cur Hn Hm; try lia. cbn [rawLoop].
  destruct (nextPiece t) as [[p r]|] eqn:E; [|reflexivity]. apply piece_length in E.
  case_match; rewrite (IH m) by lia; reflexivity.
Qed.

Lemma raw_piece t p r cur : nextPiece t = Some (p, r) ->
  raw t cur = if hasPrefix t [";"%char] then (cur ++ p) :: raw r [] else raw r (cur ++ p).
Proof.
  intros E. unfold raw at 1. cbn [rawLoop]. rewrite E. apply piece_length in E.
  case_match; rewrite rawLoop_fuel by lia; reflexivity.
Qed.

Lemma head_app_option {A} (t u : list A) : head (t ++ option_list (head u)) = head (t ++ u).
Proof. destruct t; [destruct u|]; reflexivity. Qed.

Lemma raw_toks ks r cur : toks_ok ks (head r) -> raw (renderToks ks ++ r) cur = raw r (cur ++ renderToks ks).
Proof.
  revert cur. induction ks as [|k ks IH]; intros cur; cbn [toks_ok].
  - intros _. cbn. rewrite app_nil_r. reflexivity.
  - intros [Hk Hks]. unfold renderToks in *. cbn [map concat]. rewrite head_app_option in Hk.
    rewrite <- app_assoc. destruct (nextPiece_tok k _ Hk) as [E Es].
    rewrite (raw_piece _ _ _ _ E), Es, IH by assumption. rewrite app_assoc. reflexivity.
Qed.

Definition statement (ks : list Tok) : text := renderToks ks ++ [";"%char].

Lemma raw_statements (stmts : list (list Tok)) last : Forall (fun ks => toks_ok ks (Some ";"%char)) stmts ->
  toks_ok last None ->
  raw (concat (map statement stmts) ++ renderToks last) [] = map statement stmts ++ [renderToks last].
Proof.
  intros Hs Hl. induction Hs as [|ks stmts Hk Hs IH].
  - cbn [map concat app]. rewrite <- (app_nil_r (renderToks last)) at 1.
    rewrite raw_toks by exact Hl. reflexivity.
  - cbn [map concat]. unfold statement at 1. rewrite <- !app_assoc. rewrite raw_toks by exact Hk.
    erewrite raw_piece by reflexivity. cbn [hasPrefix app]. rewrite hasPrefix_nil. cbn [andb Ascii.eqb Bool.eqb].
    f_equal. exact IH.
Qed.

(** ** Trimming *)

Lemma dropWhile_all (f : class) t : dropWhile f t = [] <-> Forall (fun c => f c = true) t.
Proof.
  induction t as [|c t IH]; cbn; [split; constructor|]. rewrite Forall_cons, <- IH.
  destruct (f c); split; [auto | intros [_ ?]; assumption | discriminate | intros [? _]; discriminate].
Qed.

Lemma dropWhile_suffix (f : class) t : exists u, t = u ++ dropWhile f t /\ Forall (fun c => f c = true) u.
Proof.
  induction t as [|c t [u [E Hu]]]; cbn; [exists []; auto|]. destruct (f c) eqn:Ec; [|exists []; auto].
  exists (c :: u). split; [cbn; congruence | auto].
Qed.

Lemma trimSpace_nil t : trimSpace t = [] <-> Forall (fun c => isSpace c = true) t.
Proof.
  unfold trimSpace. destruct (dropWhile_suffix isSpace t) as (u & E & Hu).
  set (d := dropWhile isSpace t) in *. split.
  - intros H. apply (f_equal (@rev ascii)) in H. rewrite rev_involutive in H.
    apply dropWhile_all in H. apply Forall_rev in H. rewrite rev_involutive in H.
    rewrite E. apply Forall_app. auto.
  - intros H. rewrite E in H. apply Forall_app in H as [_ H]. apply Forall_rev in H.
    apply dropWhile_all in H. rewrite H. reflexivity.
Qed.

Lemma trimSpace_keeps t c : c ∈ t -> isSpace c = false -> trimSpace t <> [].
Proof. intros Hc Hn E. apply trimSpace_nil in E. rewrite Forall_forall in E. specialize (E c Hc). congruence. Qed.

Lemma dropWhile_in (f : class) t c : c ∈ t -> f c = false -> c ∈ dropWhile f t.
Proof.
  induction t as [|a t IH]; [intros H; apply elem_of_nil in H; contradiction|]. intros Hc Hf. cbn.
  destruct (f a) eqn:Ea; [|assumption]. apply elem_of_cons in Hc as [->|Hc]; [congruence|auto].
Qed.

Lemma elem_of_rev (t : text) c : c ∈ rev t <-> c ∈ t.
Proof. rewrite !list_elem_of_In, <- in_rev. reflexivity. Qed.

Lemma trimSpace_in t c : c ∈ t -> isSpace c = false -> c ∈ trimSpace t.
Proof.
  intros Hc Hf. unfold trimSpace. apply elem_of_rev, dropWhile_in; [|assumption].
  apply elem_of_rev, dropWhile_in; assumption.
Qed.

Lemma trimSpace_twice t : trimSpace t <> [] -> trimSpace (trimSpace t) <> [].
Proof.
  intros Hn. destruct (Exists_dec (fun c => isSpace c = false) t) as [He|He].
  - apply Exists_exists in He as (c & Hc & Hf). exact (trimSpace_keeps _ c (trimSpace_in t c Hc Hf) Hf).
  - destruct Hn. apply trimSpace_nil, Forall_forall. intros c Hc. apply not_false_is_true. intros Hf.
    apply He, Exists_exists. eauto.
Qed.

(** ** The splitter *)

Lemma splitSQL_raw sql : splitSQL sql = map trimSpace (List.filter nonBlank (raw sql [])).
Proof. apply splitLoop_raw. lia. Qed.

Lemma splitSQL_nonblank sql : Forall (fun s => trimSpace s <> []) (splitSQL sql).
Proof.
  rewrite splitSQL_raw. apply Forall_forall. intros s Hs.
  apply list_elem_of_In, in_map_iff in Hs as (u & <- & Hu). apply filter_In in Hu as [_ Hu].
  apply trimSpace_twice. unfold nonBlank in Hu. destruct (trimSpace u); discriminate.
Qed.

Lemma statement_nonblank ks : nonBlank (statement ks) = true.
Proof.
  unfold nonBlank. destruct (trimSpace (statement ks)) eqn:E; [|reflexivity].
  destruct (trimSpace_keeps (statement ks) ";"%char); [|reflexivity|assumption].
  apply elem_of_app. right. left.
Qed.

Lemma filter_statements stmts : List.filter nonBlank (map statement stmts) = map statement stmts.
Proof. induction stmts as [|ks stmts IH]; cbn -[nonBlank]; [reflexivity|]. rewrite statement_nonblank, IH. reflexivity. Qed.

(** C30: Statements written with comments, literals, quoted identifiers and dollar
    quotes, whatever these hold, read back as they were written, each with its
    semicolon and trimmed; text after the last semicolon is a statement unless it
    is blank. *)
Theorem splitSQL_statements stmts last :
  Forall (fun ks => toks_ok ks (Some ";"%char)) stmts -> toks_ok last None ->
  splitSQL (concat (map statement stmts) ++ renderToks last) =
    map (fun ks => trimSpace (statement ks)) stmts ++
    (if nonBlank (renderToks last) then [trimSpace (renderToks last)] else []).
Proof.
  intros Hs Hl. rewrite splitSQL_raw, raw_statements by assumption.
  rewrite List.filter_app, filter_statements, map_app, map_map. cbn.
  destruct (nonBlank (renderToks last)); reflexivity.
Qed.

(** Splitting loses nothing but blanks around statements. *)
Lemma splitSQL_lossless sql : exists segs, concat segs = sql /\
  splitSQL sql = map trimSpace (List.filter nonBlank segs) /\
  exists init last, segs = init ++ [last] /\ Forall (fun s => exists u, s = u ++ [";"%char]) init.
Proof.
  exists (raw sql []). destruct (rawLoop_concat (S (length sql)) sql [] ltac:(lia)) as [Hc Hi].
  split; [exact Hc|]. split; [apply splitSQL_raw|exact Hi].
Qed.

(** ** Versions *)

Lemma currentVersion_ge rows v : v ∈ rows.*1 -> v <= currentVersion rows.
Proof.
  unfold currentVersion. destruct rows.*1 as [|w vs]; [intros H; apply elem_of_nil in H; contradiction|].
  rewrite elem_of_cons. induction vs as [|x vs IH]; cbn.
  - intros [->|H]; [lia | apply elem_of_nil in H; contradiction].
  - rewrite elem_of_cons. intros [H|[H|H]]; [specialize (IH (or_introl H))| |specialize (IH (or_intror H))]; lia.
Qed.

Lemma currentVersion_grows rows extra : Forall (fun v => currentVersion rows < v) extra.*1 ->
  currentVersion rows <= currentVersion (rows ++ extra).
Proof.
  unfold currentVersion. rewrite fmap_app. intros He. destruct rows.*1 as [|w vs]; cbn [app].
  - destruct extra.*1 as [|x xs]; [lia|]. apply Forall_cons in He as [Hx _]. clear -Hx.
    induction xs as [|y xs IH]; cbn; lia.
  - clear He. rewrite foldr_app. assert (w <= foldr Z.max w extra.*1) by (induction extra.*1; cbn; lia).
    induction vs as [|x vs IH]; cbn; lia.
Qed.

Definition rowOf (f : File) : Z * string := (f_Version f, f_Name f).

Definition isPending (current : Z) (f : File) : bool := negb (f_Down f) && (current <? f_Version f).

(** The up files above the current version, in order. *)
Definition pendingFiles (rows : list (Z * string)) (files : list File) : list File :=
  List.filter (isPending (currentVersion rows)) files.

Lemma filter_none {A} (p : A -> bool) l : (forall x, x ∈ l -> p x = false) -> List.filter p l = [].
Proof.
  induction l as [|x l IH]; intros H; [reflexivity|]. cbn. rewrite H by left.
  apply IH. intros y Hy. apply H. right. assumption.
Qed.

Lemma pending_in rows files f : f ∈ pendingFiles rows files <-> f ∈ files /\ isPending (currentVersion rows) f = true.
Proof. unfold pendingFiles. rewrite !list_elem_of_In, filter_In. reflexivity. Qed.

(** Nothing is pending once the pending files are recorded. *)
Lemma nothing_pending rows files : pendingFiles (rows ++ map rowOf (pendingFiles rows files)) files = [].
Proof.
  set (rows' := rows ++ _).
  assert (currentVersion rows <= currentVersion rows') as Hg.
  { apply currentVersion_grows, Forall_fmap, Forall_fmap, Forall_forall. intros f Hf.
    apply pending_in in Hf as [_ Hf]. unfold isPending in Hf. zbool. assumption. }
  apply filter_none. intros f Hf. unfold isPending. destruct (f_Down f) eqn:Ed; [reflexivity|]. cbn.
  apply Z.ltb_ge. destruct (isPending (currentVersion rows) f) eqn:Ep.
  - apply currentVersion_ge. unfold rows'. rewrite fmap_app. apply elem_of_app. right.
    apply list_elem_of_fmap. exists (rowOf f). split; [reflexivity|]. apply list_elem_of_fmap.
    exists f. split; [reflexivity|]. apply pending_in. auto.
  - unfold isPending in Ep. rewrite Ed in Ep. cbn in Ep. apply Z.ltb_ge in Ep. lia.
Qed.

(** ** The order of the files *)

Lemma fileLess_versions x y : (fileLess x y = true -> f_Version x <= f_Version y) /\
  (fileLess x y = false -> f_Version y <= f_Version x).
Proof. unfold fileLess. destruct (Z.eqb_spec (f_Version x) (f_Version y)); cbn; split; intros; zbool; lia. Qed.

Definition versionOrder (x y : File) : Prop := f_Version x <= f_Version y.

Lemma sortInsert_versions x l : StronglySorted versionOrder l -> StronglySorted versionOrder (sortInsert fileLess x l).
Proof.
  induction 1 as [|y l Hl IH Hy]; cbn; [repeat constructor|].
  destruct (fileLess y x) eqn:E; apply fileLess_versions in E.
  - constructor; [assumption|]. rewrite sortInsert_perm. constructor; assumption.
  - constructor; [constructor; assumption|]. constructor; [assumption|].
    eapply Forall_impl; [exact Hy|]. intros z Hz. unfold versionOrder in *. lia.
Qed.

Lemma loadFiles_sorted dir files : loadFiles dir = inr files -> StronglySorted versionOrder files.
Proof.
  destruct dir as [entries|]; [|discriminate]. cbn. destruct (readEntries entries) as [|fs]; [discriminate|].
  intros [= <-]. induction fs as [|f fs IH]; cbn; [constructor | apply sortInsert_versions, IH].
Qed.

Lemma filter_versions p files : StronglySorted versionOrder files -> StronglySorted versionOrder (List.filter p files).
Proof.
  induction 1 as [|f files Hs IH Hf]; cbn; [constructor|]. destruct (p f); [|assumption]. constructor; [assumption|].
  rewrite Forall_forall in *. intros g Hg. apply Hf. apply list_elem_of_In, filter_In in Hg as [Hg _].
  apply list_elem_of_In. assumption.
Qed.

(** ** [Up] *)

Section Up.
Context {Schema : Type} (db_exec : text -> Schema -> option Schema) (db_begins db_records : File -> bool)
  (db_commits : File -> commitOutcome).

(** The statements of a script, one after the other. *)
Fixpoint runAll (stmts : list text) (s : Schema) : option Schema :=
  match stmts with
  | [] => Some s
  | stmt :: stmts' => match db_exec stmt s with None => None | Some s' => runAll stmts' s' end
  end.

Definition scriptOf (f : File) : list text := splitSQL (toText (f_Contents f)).

Lemma runAll_app a b s s' : runAll a s = Some s' -> runAll (a ++ b) s = runAll b s'.
Proof.
  revert s. induction a as [|x a IH]; cbn; intros s; [intros [= ->]; reflexivity|].
  destruct (db_exec x s); [apply IH | discriminate].
Qed.

Lemma applyStatements_run i stmts s s' : Forall (fun t => trimSpace t <> []) stmts ->
  applyStatements db_exec i stmts s = (None, s') -> runAll stmts s = Some s'.
Proof.
  intros Hs. revert i s. induction Hs as [|t stmts Ht Hs IH]; cbn; intros i s; [intros [= ->]; reflexivity|].
  destruct (trimSpace t); [contradiction|]. destruct (db_exec t s); [apply IH | discriminate].
Qed.

Lemma applyMigration_run f s s' : applyMigration db_exec f s = (None, s') -> runAll (scriptOf f) s = Some s'.
Proof.
  unfold applyMigration. destruct (applyStatements _ _ _ _) as [[[]|] s''] eqn:E; intros [= <-].
  eapply applyStatements_run; [apply splitSQL_nonblank | exact E].
Qed.

Abbreviation apply1 := (applyAndRecord db_exec db_begins db_records db_commits).

(** A file applied and recorded. *)
Lemma apply1_ok b f st st' : apply1 b f st = (None, st') ->
  runAll (scriptOf f) (st_schema st) = Some (st_schema st') /\ st_versions st' = st_versions st ++ [rowOf f].
Proof.
  unfold applyAndRecord, recordVersion. destruct b.
  - case_match; [discriminate|]. destruct (applyMigration _ _ _) as [[e|] s'] eqn:E; [discriminate|].
    apply applyMigration_run in E. repeat case_match; intros [=]; simplify_eq; auto.
  - destruct (applyMigration _ _ _) as [[e|] s'] eqn:E; [discriminate|].
    apply applyMigration_run in E. repeat case_match; intros [=]; simplify_eq; auto.
Qed.

(** In Postgres a refused file leaves nothing behind; only when the reply to its
    COMMIT is lost it is there, whole. *)
Lemma apply1_atomic f st e st' : apply1 Postgres f st = (Some e, st') -> st' = st
  \/ db_commits f = ReplyLost /\ e = ECommit (f_Name f)
     /\ runAll (scriptOf f) (st_schema st) = Some (st_schema st') /\ st_versions st' = st_versions st ++ [rowOf f].
Proof.
  unfold applyAndRecord, recordVersion. case_match; [intros [= <- <-]; by left|].
  destruct (applyMigration _ _ _) as [[e1|] s1] eqn:E; [intros [= <- <-]; by left|]. apply applyMigration_run in E.
  destruct (negb (db_records f) || _); [intros [= <- <-]; by left|]. destruct (db_commits f) eqn:Ec; intros [=]; simplify_eq; [by left|by right].
Qed.

Abbreviation upLoop := (upLoop db_exec db_begins db_records db_commits).

(** [st'] is [st] with the files [fs] applied and recorded. *)
Definition applied (fs : list File) (st st' : Store Schema) : Prop :=
  runAll (concat (map scriptOf fs)) (st_schema st) = Some (st_schema st') /\
  st_versions st' = st_versions st ++ map rowOf fs.

Lemma applied_nil st : applied [] st st.
Proof. split; [reflexivity | symmetry; apply app_nil_r]. Qed.

Lemma applied_cons f fs st st1 st2 :
  runAll (scriptOf f) (st_schema st) = Some (st_schema st1) -> st_versions st1 = st_versions st ++ [rowOf f] ->
  applied fs st1 st2 -> applied (f :: fs) st st2.
Proof.
  intros H1 V1 [H2 V2]. split; [cbn; rewrite (runAll_app _ _ _ _ H1); exact H2|].
  rewrite V2, V1, <- app_assoc. reflexivity.
Qed.

Lemma upLoop_cons b current f files st : upLoop b current (f :: files) st =
  if isPending current f then
    match apply1 b f st with
    | (Some err, st') => (Some err, st')
    | (None, st') => upLoop b current files st'
    end
  else upLoop b current files st.
Proof. cbn. unfold isPending. rewrite Z.leb_antisym. destruct (f_Down f), (current <? f_Version f); reflexivity. Qed.

Lemma upLoop_ok b current files st st' : upLoop b current files st = (None, st') ->
  applied (List.filter (isPending current) files) st st'.
Proof.
  revert st. induction files as [|f files IH]; intros st; [intros [= <-]; apply applied_nil|].
  rewrite upLoop_cons. cbn [List.filter]. destruct (isPending current f); [|apply IH].
  destruct (apply1 b f st) as [[e|] st1] eqn:E; [discriminate|]. intros Hu.
  apply apply1_ok in E as [H1 V1]. eapply applied_cons; eauto.
Qed.

Lemma upLoop_none b current files st : List.filter (isPending current) files = [] ->
  upLoop b current files st = (None, st).
Proof.
  induction files as [|f files IH]; [reflexivity|]. rewrite upLoop_cons. cbn [List.filter].
  destruct (isPending current f); [discriminate | exact IH].
Qed.

Lemma upLoop_stops current files st e st' : upLoop Postgres current files st = (Some e, st') ->
  exists k f, List.filter (isPending current) files !! k = Some f /\
    (applied (firstn k (List.filter (isPending current) files)) st st'
     \/ db_commits f = ReplyLost /\ e = ECommit (f_Name f) /\ applied (firstn (S k) (List.filter (isPending current) files)) st st').
Proof.
  revert st. induction files as [|f files IH]; intros st; [discriminate|].
  rewrite upLoop_cons. cbn [List.filter]. destruct (isPending current f); [|apply IH].
  destruct (apply1 Postgres f st) as [[e1|] st1] eqn:E.
  - intros [= -> ->]. exists 0%nat, f. split; [reflexivity|].
    apply apply1_atomic in E as [-> | (Ec & Ee & H1 & V1)]; [left; apply applied_nil|right].
    split; [exact Ec|]. split; [exact Ee|]. exact (applied_cons _ _ _ _ _ H1 V1 (applied_nil _)).
  - intros Hu. apply apply1_ok in E as [H1 V1]. destruct (IH _ Hu) as (k & g & Hk & Ha).
    exists (S k), g. split; [exact Hk|].
    destruct Ha as [Ha | (Ec & Ee & Ha)]; [left|right; split; [exact Ec|split; [exact Ee|]]]; exact (applied_cons _ _ _ _ _ H1 V1 Ha).
Qed.
End Up.

(** An [Up] that succeeds has run the scripts of exactly the up files above
    the version it found, in order of version, and recorded them; a second one has
    nothing left to do.  Up files at or below that version are passed over even
    when no row records them. *)
Theorem Up_applies {Schema} (db_exec : text -> Schema -> option Schema) db_begins db_records db_commits
    b entries files st st' :
  loadFiles (Some entries) = inr files ->
  Up db_exec db_begins db_records db_commits b (Some entries) true true true st = (None, st') ->
  StronglySorted versionOrder (pendingFiles (st_versions st) files) /\
  applied db_exec (pendingFiles (st_versions st) files) st st' /\
  Up db_exec db_begins db_records db_commits b (Some entries) true true true st' = (None, st') /\
  forall f, f ∈ files -> f_Version f <= currentVersion (st_versions st) ->
    rowOf f ∉ st_versions st -> rowOf f ∉ st_versions st'.
Proof.
  intros Hf Hu. unfold Up in *. rewrite Hf in *. cbn in Hu |- *.
  pose proof (loadFiles_sorted _ _ Hf) as Hs. apply upLoop_ok in Hu as [Hr Hv].
  fold (pendingFiles (st_versions st) files) in Hr, Hv.
  split; [|split; [split; assumption|split]].
  - apply filter_versions. exact Hs.
  - rewrite upLoop_none; [reflexivity|]. rewrite Hv. apply nothing_pending.
  - intros f _ Hle Hn. rewrite Hv, elem_of_app. intros [?|Hin]; [contradiction|].
    apply list_elem_of_fmap in Hin as (g & Eg & Hg). apply pending_in in Hg as [_ Hg].
    unfold isPending in Hg. zbool. injection Eg as Ev _. lia.
Qed.

(** C31: An [Up] of Postgres that fails leaves the pending files before the one it
    stopped at applied and recorded, each whole, and nothing of that one; or all of
    it, applied and recorded, when its COMMIT was done and the reply lost. *)
Theorem Up_atomic {Schema} (db_exec : text -> Schema -> option Schema) db_begins db_records db_commits
    entries files st e st' :
  loadFiles (Some entries) = inr files ->
  Up db_exec db_begins db_records db_commits Postgres (Some entries) true true true st = (Some e, st') ->
  exists k f, pendingFiles (st_versions st) files !! k = Some f /\
    (applied db_exec (firstn k (pendingFiles (st_versions st) files)) st st'
     \/ db_commits f = ReplyLost /\ e = ECommit (f_Name f)
        /\ applied db_exec (firstn (S k) (pendingFiles (st_versions st) files)) st st').
Proof.
  intros Hf Hu. unfold Up in Hu. rewrite Hf in Hu. cbn in Hu. apply upLoop_stops in Hu. exact Hu.
Qed.

(** ** Examples *)

Module MigrateDemo.

Definition bytes (s : string) : list Tok := map TByte (toText s).

(** A function body in dollar quotes, a literal and a comment, all with semicolons. *)
Definition script : list (list Tok) :=
  [ bytes "DO " ++ [TDollar (toText "f") (toText "begin; $1; end")];
    [TByte " "; TLine (toText " a; b"); TByte newline] ++ bytes "SELECT " ++ [TQuote (toText "it's;")] ].

(** A schema is the list of statements run; the database refuses FAIL. *)
Definition exec (t : text) (s : list string) : option (list string) :=
  if String.eqb (ofText t) "FAIL;" then None else Some (s ++ [ofText t]).

Definition entry (name sql : string) : dirEntry := mkDirEntry name false (Some sql).

Definition dir : list dirEntry :=
  [entry "003_c.up.sql" "C1; C2"; entry "001_a.up.sql" "A"; entry "001_a.down.sql" "NOT A";
   entry "004_d.up.sql" "D"; mkDirEntry "old" true None; entry "README" "text"].

(** Version 2 is recorded, version 1 never was. *)
Definition start : Store (list string) := mkStore [] [(2, "002_b.up.sql")].

Definition files : list File :=
  match loadFiles (Some dir) with inr fs => fs | inl _ => [] end.

End MigrateDemo.

Lemma splitSQL_statements_witness :
  Forall (fun ks => toks_ok ks (Some ";"%char)) MigrateDemo.script /\
  length (splitSQL (concat (map statement MigrateDemo.script))) = 2%nat.
Proof.
  assert (Forall (fun ks => toks_ok ks (Some ";"%char)) MigrateDemo.script) as Hs.
  { apply (bool_decide_unpack _). vm_compute. exact I. }
  split; [exact Hs|]. pose proof (splitSQL_statements MigrateDemo.script [] Hs I) as E.
  change (renderToks []) with (@nil ascii) in E. rewrite app_nil_r in E. rewrite E. reflexivity.
Defined.

Lemma Up_applies_witness : exists st',
  Up MigrateDemo.exec (fun _ => true) (fun _ => true) (fun _ => Committed) Postgres (Some MigrateDemo.dir)
    true true true MigrateDemo.start = (None, st') /\
  applied MigrateDemo.exec (pendingFiles [(2, "002_b.up.sql")] MigrateDemo.files) MigrateDemo.start st' /\
  st_schema st' = ["C1;"; "C2"; "D"] /\ (1, "001_a.up.sql") ∉ st_versions st'.
Proof.
  eexists. split; [vm_compute; reflexivity|].
  destruct (Up_applies MigrateDemo.exec (fun _ => true) (fun _ => true) (fun _ => Committed) Postgres MigrateDemo.dir
    MigrateDemo.files MigrateDemo.start _ eq_refl eq_refl) as (_ & Ha & _ & Hn).
  split; [exact Ha|]. split; [reflexivity|].
  apply (Hn (mkFile 1 "001_a.up.sql" false "A")); [left|vm_compute; discriminate|].
  apply (bool_decide_unpack _). vm_compute. exact I.
Defined.

(** The reply to the COMMIT of the last file is lost. *)
Lemma Up_atomic_witness : exists k f st',
  Up MigrateDemo.exec (fun _ => true) (fun _ => true) (fun f => if f_Version f =? 4 then ReplyLost else Committed) Postgres
    (Some MigrateDemo.dir) true true true MigrateDemo.start = (Some (ECommit "004_d.up.sql"), st') /\
  pendingFiles [(2, "002_b.up.sql")] MigrateDemo.files !! k = Some f /\ f_Version f = 4 /\
  applied MigrateDemo.exec (firstn (S k) (pendingFiles [(2, "002_b.up.sql")] MigrateDemo.files)) MigrateDemo.start st'.
Proof.
  destruct (Up_atomic MigrateDemo.exec (fun _ => true) (fun _ => true) (fun f => if f_Version f =? 4 then ReplyLost else Committed)
    MigrateDemo.dir MigrateDemo.files MigrateDemo.start (ECommit "004_d.up.sql") (mkStore ["C1;"; "C2"; "D"]
      [(2, "002_b.up.sql"); (3, "003_c.up.sql"); (4, "004_d.up.sql")]) eq_refl eq_refl) as (k & f & Hk & Ha).
  destruct k as [|[|k]]; [| |vm_compute in Hk; discriminate Hk].
  - exfalso. injection Hk as <-. destruct Ha as [[_ E]|[E _]]; [vm_compute in E|]; discriminate E.
  - injection Hk as <-. destruct Ha as [[_ E]|(_ & _ & Ha)]; [vm_compute in E; discriminate E|].
    exists 1%nat, (mkFile 4 "004_d.up.sql" false "D"), (mkStore ["C1;"; "C2"; "D"] [(2, "002_b.up.sql"); (3, "003_c.up.sql"); (4, "004_d.up.sql")]).
    split; [vm_compute; reflexivity|]. split; [reflexivity|]. split; [reflexivity|exact Ha].
Defined.
