(* ===== verification/Spot.v ===== *)
(** * internal/spot: the interruption watcher

    The poll of the EC2 metadata service (IMDSv2) that tells a worker its instance
    is about to be reclaimed.  The service, json.Unmarshal into the document and
    time.Parse are parameters; the notice goes to [Worker.watchSpot]. *)

From S2P Require Import Prelude GoFmt Effects Model Scheduler Db RunManager Worker.

(** A request of the watcher. *)
Inductive imdsRequest :=
  | PutToken (ttlSeconds : Z)
  | GetInstanceAction (token : option string).

(** [http.Client.Do]: the status and the body, [None] on an error. *)
Record imdsResponse := mkImdsResponse {
  ir_StatusCode : Z;
  ir_Body : string
}.

Record Interruption := mkInterruption {
  it_Action : string;
  it_Time : option Z
}.

Definition imdsTokenTTL : Z := 21600.
Definition watchPeriod : Z := 5 * second.

Section watcher.
Context (imds : Z -> imdsRequest -> option imdsResponse).
Context (unmarshal : string -> option (string * string)).
Context (parseTime : string -> option Z).

(** The fields [action] and [time]; a time that does not parse is the zero time. *)
Definition parseAction (b : string) : option Interruption :=
  match unmarshal b with
  | None => None
  | Some (action, time) => if String.eqb action "" then None else Some (mkInterruption action (parseTime time))
  end.

Definition refreshToken (now : Z) : string :=
  match imds now (PutToken imdsTokenTTL) with
  | Some r => if ir_StatusCode r =? 200 then ir_Body r else ""
  | None => ""
  end.

Definition poll (now : Z) (token : string) : option Interruption :=
  match imds now (GetInstanceAction (if String.eqb token "" then None else Some token)) with
  | Some r => if ir_StatusCode r =? 200 then parseAction (ir_Body r) else None
  | None => None
  end.

(** The loop over the ticks that come before the context ends. *)
Fixpoint watchTicks (token : string) (ticks : list Z) : option Interruption :=
  match ticks with
  | [] => None
  | t :: ticks => match poll t token with Some it => Some it | None => watchTicks token ticks end
  end.

(** [Watch]: what the channel delivers before it is closed. *)
Definition Watch (start : Z) (ticks : list Z) : option Interruption := watchTicks (refreshToken start) ticks.

(** The agent's goroutine. *)
Definition watchSpotFrom (start : Z) (ticks : list Z) : M unit := watchSpot (it_Action <$> Watch start ticks).
End watcher.

(** ** What the watcher can see *)

(** The documented service: a token lives as long as was asked for, a request with
    a token past its life is unauthorized, and one with a live token gets the
    notice when there is one. *)
Record ImdsLaws (imds : Z -> imdsRequest -> option imdsResponse) (expires : string -> Z) (notice : Z -> option string) : Prop := mkImdsLaws {
  il_issued now ttl r : imds now (PutToken ttl) = Some r -> ir_StatusCode r = 200 ->
    ir_Body r <> "" /\ expires (ir_Body r) = now + ttl * 1000000;
  il_expired now tok : expires tok <= now -> exists b, imds now (GetInstanceAction (Some tok)) = Some (mkImdsResponse 401 b);
  il_live now tok : now < expires tok ->
    imds now (GetInstanceAction (Some tok)) = match notice now with
      | Some b => Some (mkImdsResponse 200 b)
      | None => Some (mkImdsResponse 404 "")
      end
}.

Section laws.
Context (imds : Z -> imdsRequest -> option imdsResponse) (unmarshal : string -> option (string * string)) (parseTime : string -> option Z).
Context (expires : string -> Z) (notice : Z -> option string) (laws : ImdsLaws imds expires notice).

(** The notices at the ticks of the token's life. *)
Definition seenNotices (until : Z) (ticks : list Z) : list Interruption :=
  omap (fun t => notice t ≫= parseAction unmarshal parseTime) (List.filter (fun t => t <? until) ticks).

Lemma poll_token now tok : tok <> "" ->
  poll imds unmarshal parseTime now tok = if now <? expires tok then notice now ≫= parseAction unmarshal parseTime else None.
Proof using laws.
  intros Ht%String.eqb_neq. unfold poll. rewrite Ht. destruct (Z.ltb_spec now (expires tok)) as [Hl|Hl].
  - rewrite (il_live _ _ _ laws) by done. by destruct (notice now).
  - by destruct (il_expired _ _ _ laws now tok Hl) as [b ->].
Qed.

Lemma watchTicks_token tok ticks : tok <> "" -> watchTicks imds unmarshal parseTime tok ticks = head (seenNotices (expires tok) ticks).
Proof using laws.
  intros Ht. induction ticks as [|t ticks IH]; [done|]. cbn [watchTicks]. rewrite poll_token, IH by done.
  unfold seenNotices. cbn [List.filter]. destruct (t <? expires tok); [|done]. cbn. by destruct (_ ≫= _).
Qed.

Lemma refreshToken_expires start : refreshToken imds start <> "" -> expires (refreshToken imds start) = start + imdsTokenTTL * 1000000.
Proof using laws.
  unfold refreshToken. destruct (imds start (PutToken imdsTokenTTL)) as [r|] eqn:E; [|done].
  destruct (Z.eqb_spec (ir_StatusCode r) 200) as [Hs|]; [|done]. intros _. by apply (il_issued _ _ _ laws) in E as [_ ?].
Qed.
End laws.

(** C19: With the metadata service as documented, the watcher delivers the first
    notice it polls in the six hours its token lives and never looks again: the
    token is fetched once, so a worker that has run for longer is not told that
    its instance is reclaimed and does not drain. *)
Theorem Watch_token_life imds unmarshal parseTime expires notice start ticks :
  ImdsLaws imds expires notice -> refreshToken imds start <> "" ->
  Watch imds unmarshal parseTime start ticks = head (seenNotices unmarshal parseTime notice (start + imdsTokenTTL * 1000000) ticks)
  /\ (Forall (fun t => start + imdsTokenTTL * 1000000 <= t) ticks -> forall w, watchSpotFrom imds unmarshal parseTime start ticks w = (Ok tt, w)).
Proof.
  intros laws Ht. assert (Watch imds unmarshal parseTime start ticks = head (seenNotices unmarshal parseTime notice (start + imdsTokenTTL * 1000000) ticks)) as Hw.
  { unfold Watch. rewrite (watchTicks_token _ _ _ _ _ laws) by done. by rewrite (refreshToken_expires _ _ _ laws). }
  split; [done|]. intros Hl w. unfold watchSpotFrom. rewrite Hw. unfold seenNotices.
  assert (List.filter (fun t => t <? start + imdsTokenTTL * 1000000) ticks = []) as ->; [|done].
  induction Hl as [|t ticks Hle _ IH]; [done|]. cbn [List.filter]. apply Z.ltb_ge in Hle as ->. apply IH.
  unfold Watch in *. clear -laws Ht. rewrite (watchTicks_token _ _ _ _ _ laws) by done. by rewrite (refreshToken_expires _ _ _ laws).
Qed.

Module ImdsDemo.
Definition hour : Z := 3600 * 1000000.
Definition expires (tok : string) : Z := if String.eqb tok "tok" then 6 * hour else 0.
(** The instance is reclaimed from the given time on. *)
Definition notice (from now : Z) : option string := if from <=? now then Some "terminate" else None.
Definition imds (from now : Z) (rq : imdsRequest) : option imdsResponse :=
  match rq with
  | PutToken ttl => if (now =? 0) && (ttl =? 21600) then Some (mkImdsResponse 200 "tok") else None
  | GetInstanceAction None => Some (mkImdsResponse 401 "")
  | GetInstanceAction (Some tok) =>
      if now <? expires tok then match notice from now with Some b => Some (mkImdsResponse 200 b) | None => Some (mkImdsResponse 404 "") end
      else Some (mkImdsResponse 401 "")
  end.
Lemma laws from : ImdsLaws (imds from) expires (notice from).
Proof.
  split.
  - intros now ttl r. cbn. destruct (Z.eqb_spec now 0) as [->|]; [|done]. destruct (Z.eqb_spec ttl 21600) as [->|]; [|done]. by intros [= <-] _.
  - intros now tok H. cbn. apply Z.ltb_ge in H as ->. by eexists.
  - intros now tok H. cbn. by apply Z.ltb_lt in H as ->.
Qed.
Definition unmarshal (b : string) : option (string * string) := Some (b, "").
Definition ticks : list Z := [1 * hour; 3 * hour; 5 * hour; 7 * hour; 9 * hour].
End ImdsDemo.

(** Reclaimed in the fourth hour, the worker is told; in the eighth, it is not. *)
Lemma Watch_token_life_witness :
  Watch (ImdsDemo.imds (4 * ImdsDemo.hour)) ImdsDemo.unmarshal (fun _ => None) 0 ImdsDemo.ticks = Some (mkInterruption "terminate" None)
  /\ Watch (ImdsDemo.imds (8 * ImdsDemo.hour)) ImdsDemo.unmarshal (fun _ => None) 0 ImdsDemo.ticks = None.
Proof.
  split.
  - destruct (Watch_token_life (ImdsDemo.imds (4 * ImdsDemo.hour)) ImdsDemo.unmarshal (fun _ => None) ImdsDemo.expires _ 0 ImdsDemo.ticks
      (ImdsDemo.laws _)) as [-> _]; [done|]. reflexivity.
  - destruct (Watch_token_life (ImdsDemo.imds (8 * ImdsDemo.hour)) ImdsDemo.unmarshal (fun _ => None) ImdsDemo.expires _ 0 ImdsDemo.ticks
      (ImdsDemo.laws _)) as [-> _]; [done|]. reflexivity.
Defined.
