(* ===== verification/TeoReplay.v ===== *)
(** * cmd/teo/replay.go: replaying a stored plan

    [teo replay] reads a plan from the run's row or from its archive, decodes it
    ([json.Unmarshal] on the tree of the document), plans again and compares.
    Opening the database, the object store and the text of JSON are parameters. *)

From S2P Require Import Prelude GoBytes GoRegexp GoStrings GoFloat GoFmt Model Scheduler SchedulerProps Db Effects RunManager RunManagerProps Witnesses.

(** ** json.Unmarshal into a plan

    A key names the field it equals without regard to case, the last one counts;
    null leaves the zero value. *)

Definition sameKey (a b : string) : bool := String.eqb (ofText (toLower a)) (ofText (toLower b)).

Definition jget (k : string) (fields : list (string * Json)) : option Json :=
  snd <$> List.find (fun f : string * Json => sameKey f.1 k) (rev fields).

Definition decInt (v : option Json) : option Z :=
  match v with
  | None | Some JNull => Some 0
  | Some (JInt z) => if (- 2 ^ 63 <=? z) && (z <? 2 ^ 63) then Some z else None
  | _ => None
  end.

Definition decStr (v : option Json) : option string :=
  match v with None | Some JNull => Some "" | Some (JStr s) => Some s | _ => None end.

Definition decBool (v : option Json) : option bool :=
  match v with None | Some JNull => Some false | Some (JBool b) => Some b | _ => None end.

Definition decFloat32 (v : option Json) : option float32 :=
  match v with
  | None | Some JNull => Some 0
  | Some (JFloat32 b) => Some b
  | Some (JInt z) => Some (f32_of64 (f64_ofZ z))
  | _ => None
  end.

Definition decList {A} (dec : Json -> option A) (v : option Json) : option (list A) :=
  match v with None | Some JNull => Some [] | Some (JArr l) => mapM dec l | _ => None end.

Definition decEntry (v : option Json) : option TestEntry :=
  match v with
  | None | Some JNull => Some (mkTestEntry "" "" "" "" [])
  | Some (JObj f) =>
      path ← decStr (jget "path" f) ; name ← decStr (jget "name" f) ; hash ← decStr (jget "params_hash" f) ;
      sig ← decStr (jget "ast_signature" f) ; tags ← decList (fun t => decStr (Some t)) (jget "tags" f) ;
      Some (mkTestEntry path name hash sig tags)
  | _ => None
  end.

Definition decTest (v : Json) : option Test :=
  match v with
  | JNull => Some (mkTest (mkTestEntry "" "" "" "" []) 0 false 0 false)
  | JObj f =>
      entry ← decEntry (jget "Entry" f) ; ms ← decInt (jget "PredictedMS" f) ; cold ← decBool (jget "IsColdStart" f) ;
      prob ← decFloat32 (jget "FlakeProb" f) ; quar ← decBool (jget "IsQuarantined" f) ;
      Some (mkTest entry ms cold prob quar)
  | _ => None
  end.

Definition decAssignment (v : Json) : option Assignment :=
  match v with
  | JNull => Some (mkAssignment 0 0 [])
  | JObj f =>
      i ← decInt (jget "ShardIndex" f) ; ms ← decInt (jget "PredictedDurationMS" f) ; ts ← decList decTest (jget "Tests" f) ;
      Some (mkAssignment i ms ts)
  | _ => None
  end.

Definition unmarshalPlan (v : Json) : option Plan :=
  match v with
  | JNull => Some (mkPlan [] [] 0 0 "")
  | JObj f =>
      asg ← decList decAssignment (jget "Assignments" f) ; ql ← decList decTest (jget "QuarantineLane" f) ;
      total ← decInt (jget "TotalPredictedMS" f) ; makespan ← decInt (jget "MakespanPredictedMS" f) ;
      version ← decStr (jget "Version" f) ;
      Some (mkPlan asg ql total makespan version)
  | _ => None
  end.

(** ** The command *)

(** What the process leaves: [os.Exit] with its code, after what it printed. *)
Inductive replayReport :=
  | ReportText (s : string)
  | ReportJSON (j : Json).

Record exited := mkExited {
  xt_code : Z;
  xt_stdout : option replayReport;
  xt_stderr : option error
}.

(** [exit(format, args...)] *)
Definition exit_ (e : error) : exited := mkExited 1 None (Some e).

Definition summaryLine (label : string) (p : Plan) : string :=
  label +:+ itoa (Z.of_nat (length (p_Assignments p))) +:+ " shards · makespan " +:+ itoa (p_MakespanPredictedMS p)
  +:+ "ms · " +:+ itoa (Z.of_nat (length (p_QuarantineLane p))) +:+ " quarantined".

Definition emitReplayText (runID : string) (stored recomputed : Plan) (deterministic : bool) : string :=
  "run:          " +:+ runID +:+ nl +:+ "plan version: " +:+ p_Version stored +:+ nl
  +:+ summaryLine "stored:       " stored +:+ nl +:+ summaryLine "recomputed:   " recomputed +:+ nl
  +:+ (if deterministic then "result:       ✅ deterministic — recomputed plan is identical to the stored plan" +:+ nl
       else "result:       ❌ MISMATCH — the scheduler no longer reproduces the stored plan" +:+ nl
            +:+ "              (algorithm drift since this run was planned; bump the plan version if intended)" +:+ nl).

Definition planSummary (p : Plan) : Json :=
  JObj [("shards", JInt (Z.of_nat (length (p_Assignments p)))); ("makespan_ms", JInt (p_MakespanPredictedMS p));
    ("quarantined", JInt (Z.of_nat (length (p_QuarantineLane p)))); ("version", JStr (p_Version p))].

Definition emitReplayJSON (runID : string) (stored recomputed : Plan) (deterministic : bool) : Json :=
  JObj [("run", JStr runID); ("deterministic", JBool deterministic); ("stored", planSummary stored); ("recomputed", planSummary recomputed)].

(** The column of the run as a JSON document. *)
Definition planColumn (p : option Plan) : Json := default JNull (p ≫= jsonPlan).

(** [opened] is [db.OpenPostgres]; the error of [exit] on the left. *)
Definition loadPlanFromPostgres (opened : result unit) (dsn runID : string) : M (error + Json) :=
  if String.eqb dsn "" then retM (inl (ErrText "--postgres-dsn or TEO_POSTGRES_DSN required (or use --from-s3)"))
  else match opened with
  | Err e => retM (inl (ErrWrap "postgres open" e))
  | Ok _ =>
      r ←! tryM (scanRow (poolExec (query (selectComputedPlan runID)))) ;
      retM match r with
      | Err e => if errorsIs e ErrNoRows then inl (ErrText ("run " +:+ runID +:+ " not found")) else inl (ErrWrap "query plan" e)
      | Ok None => inl (ErrText ("run " +:+ runID +:+ " has no computed plan yet (it was never scheduled past 'planning')"))
      | Ok (Some p) => inr (planColumn p)
      end
  end.

(** [store] is [logstore.NewS3] and the objects of the bucket; [parse] is the
    syntax of JSON. *)
Definition loadPlanFromS3 (store : result (string -> result string)) (bucket runID : string) : error + string :=
  if String.eqb bucket "" then inl (ErrText "--s3-bucket or TEO_S3_BUCKET required for --from-s3")
  else match store with
  | Err e => inl (ErrWrap "s3 init" e)
  | Ok download =>
      match download (PlanObjectKey runID) with
      | Err e => inl (ErrWrap ("download " +:+ PlanObjectKey runID) e)
      | Ok s => if String.eqb s "" then inl (ErrText ("plan archive " +:+ PlanObjectKey runID +:+ " is empty")) else inr s
      end
  end.

(** From the decoded document to the exit. *)
Definition replayPlan (runID : string) (asJSON : bool) (raw : option Json) : exited :=
  match raw ≫= unmarshalPlan with
  | None => exit_ (ErrText "stored plan is not valid JSON")
  | Some stored =>
      let '(recomputed, deterministic) := Replay stored DefaultConstraints in
      mkExited (if deterministic then 0 else 1)
        (Some (if asJSON then ReportJSON (emitReplayJSON runID stored recomputed deterministic)
               else ReportText (emitReplayText runID stored recomputed deterministic))) None
  end.

Record replayFlags := mkReplayFlags {
  rf_dsn : string;
  rf_fromS3 : bool;
  rf_bucket : string;
  rf_json : bool
}.

Definition runReplay (opened : result unit) (store : result (string -> result string)) (parse : string -> option Json)
    (f : replayFlags) (runID : string) : M exited :=
  if String.eqb runID "" then
    retM (exit_ (ErrText "usage: teo replay <run_id> [--postgres-dsn=... | --from-s3 --s3-bucket=...] [--json]"))
  else if rf_fromS3 f then
    retM match loadPlanFromS3 store (rf_bucket f) runID with
    | inl e => exit_ e
    | inr s => replayPlan runID (rf_json f) (parse s)
    end
  else
    r ←! loadPlanFromPostgres opened (rf_dsn f) runID ;
    retM match r with
    | inl e => exit_ e
    | inr j => replayPlan runID (rf_json f) (Some j)
    end.

(** ** A plan is read back as it was written *)

Definition in64 (z : Z) : bool := (- 2 ^ 63 <=? z) && (z <? 2 ^ 63).
Definition test64 (t : Test) : bool := in64 (t_PredictedMS t).
Definition assignment64 (a : Assignment) : bool :=
  in64 (a_ShardIndex a) && in64 (a_PredictedDurationMS a) && forallb test64 (a_Tests a).
(** The numbers of a plan are ints. *)
Definition plan64 (p : Plan) : bool :=
  forallb assignment64 (p_Assignments p) && forallb test64 (p_QuarantineLane p) && in64 (p_TotalPredictedMS p) && in64 (p_MakespanPredictedMS p).

Lemma decInt_in64 z : in64 z = true -> decInt (Some (JInt z)) = Some z.
Proof. unfold in64, decInt. by intros ->. Qed.

Lemma decTags_written tags : mapM (fun t => decStr (Some t)) (JStr <$> tags) = Some tags.
Proof. induction tags as [|t tags IH]; [done|]. rewrite fmap_cons. cbn [mapM]. by rewrite IH. Qed.

Lemma decEntry_written e : decEntry (Some (jsonEntry e)) = Some e.
Proof.
  destruct e as [path name hash sig tags]. unfold jsonEntry, decEntry. cbn [te_Path te_Name te_ParamsHash te_ASTSignature te_Tags].
  pose proof (decTags_written tags) as Ht.
  destruct (String.eqb_spec hash "") as [->|], (String.eqb_spec sig "") as [->|], tags as [|t tags]; try reflexivity;
    match goal with |- context [jget "tags" ?f] => change (jget "tags" f) with (Some (JArr (JStr <$> (t :: tags)))) end;
    cbn [decList]; rewrite Ht; reflexivity.
Qed.

Lemma decTest_written t j : test64 t = true -> jsonTest t = Some j -> decTest j = Some t.
Proof.
  intros Hr. unfold jsonTest. destruct (f32_finite (t_FlakeProb t)); [|done]. intros [= <-].
  unfold decTest. change (jget "Entry" _) with (Some (jsonEntry (t_Entry t))). rewrite decEntry_written. cbn [mbind option_bind].
  change (jget "PredictedMS" _) with (Some (JInt (t_PredictedMS t))). rewrite decInt_in64 by done. by destruct t.
Qed.

Lemma mapM_written {A} (enc : A -> option Json) (dec : Json -> option A) (ok : A -> bool) l js :
  (forall x j, ok x = true -> enc x = Some j -> dec j = Some x) -> forallb ok l = true -> mapM enc l = Some js -> mapM dec js = Some l.
Proof.
  intros H. revert js. induction l as [|x l IH]; intros js Hl; cbn [mapM]; [by intros [= <-]|].
  cbn in Hl. apply andb_true_iff in Hl as [Hx Hl]. destruct (enc x) as [j|] eqn:E; [|done]. cbn.
  destruct (mapM enc l) as [js'|] eqn:E'; [|done]. intros [= <-]. cbn. rewrite (H _ _ Hx E). cbn. by rewrite (IH _ Hl eq_refl).
Qed.

Lemma decAssignment_written a j : assignment64 a = true -> jsonAssignment a = Some j -> decAssignment j = Some a.
Proof.
  unfold assignment64. intros [[Hi Hd]%andb_true_iff Ht]%andb_true_iff. unfold jsonAssignment.
  destruct (mapM jsonTest (a_Tests a)) as [ts|] eqn:E; [|done]. intros [= <-]. unfold decAssignment.
  change (jget "ShardIndex" _) with (Some (JInt (a_ShardIndex a))). change (jget "PredictedDurationMS" _) with (Some (JInt (a_PredictedDurationMS a))).
  change (jget "Tests" _) with (Some (JArr ts)). rewrite !decInt_in64 by done. cbn [mbind option_bind decList].
  rewrite (mapM_written _ _ _ _ _ decTest_written Ht E). by destruct a.
Qed.

(** Reading the document of a plan gives the plan. *)
Lemma unmarshalPlan_written p j : plan64 p = true -> jsonPlan p = Some j -> unmarshalPlan j = Some p.
Proof.
  unfold plan64. intros [[[Ha Hq]%andb_true_iff Ht]%andb_true_iff Hm]%andb_true_iff. unfold jsonPlan.
  destruct (mapM jsonAssignment (p_Assignments p)) as [asg|] eqn:Ea; [|done]. cbn [mbind option_bind].
  destruct (mapM jsonTest (p_QuarantineLane p)) as [ql|] eqn:Eq; [|done]. intros [= <-]. unfold unmarshalPlan.
  change (jget "Assignments" _) with (Some (JArr asg)). change (jget "QuarantineLane" _) with (Some (JArr ql)).
  change (jget "TotalPredictedMS" _) with (Some (JInt (p_TotalPredictedMS p))).
  change (jget "MakespanPredictedMS" _) with (Some (JInt (p_MakespanPredictedMS p))).
  change (jget "Version" _) with (Some (JStr (p_Version p))).
  cbn [decList]. rewrite (mapM_written _ _ _ _ _ decAssignment_written Ha Ea), (mapM_written _ _ _ _ _ decTest_written Hq Eq).
  cbn [mbind option_bind]. rewrite !decInt_in64 by done. by destruct p.
Qed.

(** ** Replaying what was planned *)

Definition confirmed (runID : string) (asJSON : bool) (p : Plan) : exited :=
  mkExited 0 (Some (if asJSON then ReportJSON (emitReplayJSON runID p p true) else ReportText (emitReplayText runID p p true))) None.

Lemma replayPlan_confirms runID asJSON tests f j :
  distinctKeys tests -> Forall (fun t => f32_finite (t_FlakeProb t) = true) tests -> plan64 (PlanFunc tests f DefaultConstraints) = true ->
  jsonPlan (PlanFunc tests f DefaultConstraints) = Some j ->
  replayPlan runID asJSON (Some j) = confirmed runID asJSON (PlanFunc tests f DefaultConstraints).
Proof.
  intros Hd Hf H64 Hj. unfold replayPlan. cbn [mbind option_bind]. rewrite (unmarshalPlan_written _ _ H64 Hj).
  by rewrite (Replay_deterministic tests f DefaultConstraints Hd Hf).
Qed.

Lemma jsonPlan_PlanFunc tests f c : Forall (fun t => f32_finite (t_FlakeProb t) = true) tests -> distinctKeys tests ->
  exists j, jsonPlan (PlanFunc tests f c) = Some j.
Proof.
  intros Hf Hd. pose proof (f_equal snd (Replay_deterministic tests f c Hd Hf)) as H. unfold Replay, plansEqual in H. cbn [snd] in H.
  destruct (jsonPlan (PlanFunc tests f c)) as [j|]; [by exists j|done].
Qed.

(** C16: A run that has been planned replays as deterministic: the command reads the
    plan from the run's row, or from the archive the manager uploaded, decodes it
    to the very plan, plans it again to the same one and exits with 0 - when no two
    tests tie on duration and hash and the flake probabilities are numbers. *)
Theorem runReplay_confirms m db now u held ag runID r rp mf preds n out opened store parse dsn bucket asJSON :
  Inj (=) (=) u -> runIDLockKey runID ∉ held -> Plannable m db now u held ag runID r rp mf preds n ->
  distinctKeys (schedulerTests (tm_Tests mf) preds) ->
  Forall (fun t => f32_finite (t_FlakeProb t) = true) (schedulerTests (tm_Tests mf) preds) ->
  plan64 (planOf preds mf) = true -> runID <> "" -> dsn <> "" -> opened = Ok tt ->
  exists d n' out', tryHandle m runID "pending" (QW db None now u n held out ag) = (Ok tt, QW d None now u n' held (out ++ out') ag)
  /\ runReplay opened store parse (mkReplayFlags dsn false bucket asJSON) runID (QW d None now u n' held (out ++ out') ag)
     = (Ok (confirmed runID asJSON (planOf preds mf)), QW d None now u n' held (out ++ out') ag)
  /\ (m_PlanStore m = true -> exists doc, OUploadPlan (PlanObjectKey runID) (Some doc) ∈ out'
      /\ forall download s w, store = Ok download -> download (PlanObjectKey runID) = Ok s -> s <> "" -> parse s = jsonPlan doc -> bucket <> "" ->
         runReplay opened store parse (mkReplayFlags dsn true bucket asJSON) runID w = (Ok (confirmed runID asJSON (planOf preds mf)), w)).
Proof.
  intros Hu Hl Hp Hd Hf H64 Hr%String.eqb_neq Hdsn%String.eqb_neq ->.
  destruct (jsonPlan_PlanFunc (schedulerTests (tm_Tests mf) preds) (mkFleetSnapshot 0 []) DefaultConstraints Hf Hd) as [j Hj].
  assert (marshalPlan (planOf preds mf) = Some (planOf preds mf)) as Hm by (unfold marshalPlan, planOf; by rewrite Hj).
  eexists (plannedDB db now u runID n (planOf preds mf) r), _, _. split_and!.
  - erewrite tryHandle_quiet.
    2: { unfold tryHandleTx. apply withTx_quiet.
         erewrite bindM_ok; [|by apply tryLock_quiet]. cbn [negb].
         erewrite bindM_ok; [|rewrite handlePending_eq; erewrite bindM_ok; [|apply tryM_eq, (plan_quiet m db now u held ag runID r rp mf preds n out Hp)];
           reflexivity].
         erewrite bindM_ok; [|apply txCommit_quiet]. reflexivity. }
    rewrite <-app_assoc. reflexivity.
  - unfold runReplay. rewrite Hr. cbn [rf_fromS3 rf_dsn rf_json]. unfold loadPlanFromPostgres. rewrite Hdsn.
    erewrite bindM_ok; [|erewrite bindM_ok; [|apply tryM_eq, poolScan_quiet]; reflexivity].
    unfold selectComputedPlan, plannedDB. cbn [runs set_shards set_runs]. rewrite lookup_insert_eq. cbn [fmap option_fmap option_map].
    change (rm_computed_plan (r_meta (plannedRun now (planOf preds mf) r))) with (Some (marshalPlan (planOf preds mf))).
    rewrite Hm. unfold planColumn. cbn [mbind option_bind]. unfold planOf at 1. rewrite Hj. change (default JNull (Some j)) with j.
    unfold retM. by rewrite (replayPlan_confirms runID asJSON _ (mkFleetSnapshot 0 []) j Hd Hf H64 Hj).
  - intros Hs. exists (planOf preds mf). split.
    + apply elem_of_app. left. unfold planOutputs. rewrite Hs, Hm. apply elem_of_app. right. by left.
    + intros download s w -> Hdl Hne%String.eqb_neq Hparse Hb%String.eqb_neq. unfold runReplay. rewrite Hr. cbn [rf_fromS3 rf_bucket rf_json].
      unfold loadPlanFromS3. rewrite Hb, Hdl, Hne, Hparse. unfold retM. unfold planOf at 1. rewrite Hj.
      by rewrite (replayPlan_confirms runID asJSON _ (mkFleetSnapshot 0 []) j Hd Hf H64 Hj).
Qed.

Lemma demo_plannable : Plannable Demo.manager Demo.pendingDB 50 Demo.ids ∅ idleAgent "run" (Demo.run "pending") Demo.repo Demo.manifest Demo.preds 0.
Proof.
  split; try done.
  assert (Hl : forallb (fun a => int4 (a_ShardIndex a) && int4 (a_PredictedDurationMS a)
    && int4 (Z.of_nat (length (a_Tests a)))) (p_Assignments (planOf Demo.preds Demo.manifest)) = true)
    by (vm_compute; reflexivity).
  revert Hl. generalize (p_Assignments (planOf Demo.preds Demo.manifest)). intros l Hl.
  rewrite forallb_forall in Hl. apply Forall_forall. intros a Ha. apply Hl. by apply list_elem_of_In.
Qed.

Lemma runReplay_confirms_witness :
  exists w, (tryHandle Demo.manager "run" "pending" (QW Demo.pendingDB None 50 Demo.ids 0 ∅ [] idleAgent)).2 = w
    /\ (runReplay (Ok tt) (Err ErrTransport) (fun _ => None) (mkReplayFlags "dsn" false "" false) "run" w).1
       = Ok (confirmed "run" false (planOf Demo.preds Demo.manifest)).
Proof.
  destruct (runReplay_confirms Demo.manager Demo.pendingDB 50 Demo.ids ∅ idleAgent "run" (Demo.run "pending") Demo.repo Demo.manifest Demo.preds
    0 [] (Ok tt) (Err ErrTransport) (fun _ => None) "dsn" "" false) as (d & n' & out' & H1 & H2 & _).
  - apply Demo.ids_inj.
  - apply not_elem_of_empty.
  - exact demo_plannable.
  - unfold distinctKeys. apply (bool_decide_unpack _). vm_compute. exact I.
  - apply (bool_decide_unpack _). vm_compute. exact I.
  - vm_compute. reflexivity.
  - discriminate.
  - discriminate.
  - reflexivity.
  - eexists. split; [reflexivity|]. rewrite H1. cbn [snd]. by rewrite H2.
Defined.
