(* ===== verification/Github.v ===== *)
(** * internal/github: the REST exchange

    The request both clients make, the issues client with its four calls and the
    adapter of internal/quarantine that opens issues with it.  The transport and
    the syntax of JSON are parameters: what the client sends and what it makes of
    the answer are here. *)

From S2P Require Import Prelude GoFmt GoFloat Effects TeoReplay.

Record httpRequest := mkHttpRequest {
  hq_Method : string;
  hq_URL : string;
  hq_Authorization : string;
  hq_UserAgent : string;
  hq_Body : option Json
}.

(** ** The data *)

Record IssueRequest := mkIssueRequest {
  ir_Title : string;
  ir_Body : string;
  ir_Assignees : list string;
  ir_Labels : list string;
  ir_State : string
}.

Record Issue := mkIssue {
  is_Number : Z;
  is_HTMLURL : string;
  is_State : string;
  is_Title : string
}.

Record Comment := mkComment {
  co_ID : Z;
  co_HTMLURL : string;
  co_Body : string
}.

Definition omitempty (k s : string) : list (string * Json) := if String.eqb s "" then [] else [(k, JStr s)].
Definition omitemptyList (k : string) (l : list string) : list (string * Json) := match l with [] => [] | _ => [(k, JArr (JStr <$> l))] end.

Definition jsonIssueRequest (r : IssueRequest) : Json :=
  JObj ([("title", JStr (ir_Title r))] ++ omitempty "body" (ir_Body r) ++ omitemptyList "assignees" (ir_Assignees r)
    ++ omitemptyList "labels" (ir_Labels r) ++ omitempty "state" (ir_State r)).

Definition decIssue (v : Json) : option Issue :=
  match v with
  | JNull => Some (mkIssue 0 "" "" "")
  | JObj f =>
      number ← decInt (jget "number" f) ; url ← decStr (jget "html_url" f) ; state ← decStr (jget "state" f) ;
      title ← decStr (jget "title" f) ; Some (mkIssue number url state title)
  | _ => None
  end.

Definition decComment (v : Json) : option Comment :=
  match v with
  | JNull => Some (mkComment 0 "" "")
  | JObj f => id ← decInt (jget "id" f) ; url ← decStr (jget "html_url" f) ; body ← decStr (jget "body" f) ; Some (mkComment id url body)
  | _ => None
  end.

(** The answer to a check run's creation. *)
Definition decCheckID (v : Json) : option Z :=
  match v with JNull => Some 0 | JObj f => decInt (jget "id" f) | _ => None end.

(** ** The exchange *)

Record githubClient := mkGithubClient {
  gh_BaseURL : string;
  gh_Token : string;
  gh_UserAgent : string
}.

Definition NewIssuesClient (token : string) : githubClient := mkGithubClient "https://api.github.com" token "teo/issues".
Definition NewCheckClient (token : string) : githubClient := mkGithubClient "https://api.github.com" token "teo/checks".

Section exchange.
(** [http.Client.Do]: the status and the body; the first JSON value of a body. *)
Context (http : httpRequest -> result (Z * string)) (parse : string -> option Json).

Definition githubDo (c : githubClient) (method url : string) (body : option Json) : result string :=
  match http (mkHttpRequest method url ("Bearer " +:+ gh_Token c) (gh_UserAgent c) body) with
  | Err e => Err e
  | Ok (status, text) =>
      if 400 <=? status then Err (ErrText ("github " +:+ method +:+ " " +:+ url +:+ ": " +:+ itoa status +:+ " " +:+ text)) else Ok text
  end.

(** [json.NewDecoder(resp.Body).Decode(out)] *)
Definition decodeBody {A} (dec : Json -> option A) (r : result string) : result A :=
  match r with
  | Err e => Err e
  | Ok text => match parse text ≫= dec with Some a => Ok a | None => Err (ErrText "json: cannot decode") end
  end.

Definition issuesURL (c : githubClient) (repo : string) : string := gh_BaseURL c +:+ "/repos/" +:+ repo +:+ "/issues".
Definition issueURL (c : githubClient) (repo : string) (number : Z) : string := issuesURL c repo +:+ "/" +:+ itoa number.

Definition issuesCreate (c : githubClient) (repo : string) (r : IssueRequest) : result Issue :=
  decodeBody decIssue (githubDo c "POST" (issuesURL c repo) (Some (jsonIssueRequest r))).
Definition issuesPatch (c : githubClient) (repo : string) (number : Z) (r : IssueRequest) : result Issue :=
  decodeBody decIssue (githubDo c "PATCH" (issueURL c repo number) (Some (jsonIssueRequest r))).
Definition issuesComment (c : githubClient) (repo : string) (number : Z) (body : string) : result Comment :=
  decodeBody decComment (githubDo c "POST" (issueURL c repo number +:+ "/comments") (Some (JObj [("body", JStr body)]))).
Definition issuesGet (c : githubClient) (repo : string) (number : Z) : result Issue :=
  decodeBody decIssue (githubDo c "GET" (issueURL c repo number) None).

(** The check client's calls, for a check run already in JSON. *)
Definition checksCreate (c : githubClient) (repo : string) (run : Json) : result Z :=
  decodeBody decCheckID (githubDo c "POST" (gh_BaseURL c +:+ "/repos/" +:+ repo +:+ "/check-runs") (Some run)).
Definition checksUpdate (c : githubClient) (repo : string) (id : Z) (run : Json) : result unit :=
  match githubDo c "PATCH" (gh_BaseURL c +:+ "/repos/" +:+ repo +:+ "/check-runs/" +:+ itoa id) (Some run) with
  | Err e => Err e
  | Ok _ => Ok tt
  end.

(** ** internal/quarantine/github_opener.go

    The sweep opens every issue without assignees and with the same labels. *)

Definition openerLabels : list string := ["teo"; "flaky"; "auto-generated"].

Definition openerOpen (c : option githubClient) (repo title body : string) : result (Z * string) :=
  match c with
  | None => Err (ErrText "github issues client not configured")
  | Some c =>
      match issuesCreate c repo (mkIssueRequest title body [] openerLabels "") with
      | Err e => Err e
      | Ok i => Ok (is_Number i, is_HTMLURL i)
      end
  end.

Definition openerComment (c : option githubClient) (repo : string) (number : Z) (body : string) : result unit :=
  match c with
  | None => Err (ErrText "github issues client not configured")
  | Some c => match issuesComment c repo number body with Err e => Err e | Ok _ => Ok tt end
  end.
End exchange.

(** An issue is opened only by an answer that is not an error, and the number is
    the one the answer names. *)
Lemma openerOpen_ok http parse c repo title body n url :
  openerOpen http parse (Some c) repo title body = Ok (n, url) ->
  exists status text i, http (mkHttpRequest "POST" (issuesURL c repo) ("Bearer " +:+ gh_Token c) (gh_UserAgent c)
      (Some (jsonIssueRequest (mkIssueRequest title body [] openerLabels "")))) = Ok (status, text)
    /\ status < 400 /\ parse text ≫= decIssue = Some i /\ n = is_Number i /\ url = is_HTMLURL i.
Proof.
  unfold openerOpen, issuesCreate, decodeBody, githubDo. destruct (http _) as [[status text]|e] eqn:E; [|done].
  destruct (Z.leb_spec 400 status); [done|]. destruct (parse text ≫= decIssue) as [i|] eqn:Ep; [|done].
  intros [= <- <-]. by exists status, text, i.
Qed.

Example opener_demo :
  openerOpen (fun _ => Ok (201, "doc")) (fun _ => Some (JObj [("number", JInt 7); ("html_url", JStr "https://x/7"); ("id", JInt 99)]))
    (Some (NewIssuesClient "t")) "acme/app" "title" "body" = Ok (7, "https://x/7")
  /\ openerOpen (fun _ => Ok (403, "no")) (fun _ => None) (Some (NewIssuesClient "t")) "acme/app" "title" "body"
     = Err (ErrText "github POST https://api.github.com/repos/acme/app/issues: 403 no").
Proof. split; vm_compute; reflexivity. Qed.
