(* ===== verification/ResultPipeline.v ===== *)
(** * cmd/result-pipeline: the command and the ClickHouse source of the backfill

    The subcommands of the command, with the jobs of the other files and the
    clients they are given, and [CHStackSource] over the rows of span_events.
    What [flag.Parse] makes of the arguments and the third-party clients are
    parameters. *)

From S2P Require Import Prelude GoFloat GoFmt GoRegexp GoStrings Model Scheduler Db Effects Cluster Otlp Backfill Flake Quarantine LlmHints Oidc.
From S2P Require Import Digest TeoReplay Github StateMachine Lifecycle RunManager RunManagerSafe ServicesSafe JobsSafe.

(** ** CHStackSource

    [argMax(v, end_time)] over the error spans of the trace: the value at the first
    of the latest rows. *)

Definition latest (rows : list spanRow) : option spanRow :=
  foldl (fun best r => match best with
    | None => Some r
    | Some b => if sr_EndTime b <? sr_EndTime r then Some r else best
    end) None rows.

Definition errorSpans (traceID : string) (rows : list spanRow) : list spanRow :=
  List.filter (fun r => String.eqb (sr_TraceID r) traceID && (sr_StatusCode r =? 2)) rows.

(** [attributes['k']] of a Map(String, String) *)
Definition attribute (k : string) (r : spanRow) : string := default "" (sr_Attributes r !! k).

(** The two columns of the query. *)
Definition stackColumns (r : spanRow) : string * string :=
  (attribute "exception.stacktrace" r,
   if String.eqb (attribute "exception.message" r) "" then sr_StatusMessage r else attribute "exception.message" r).

(** [rows]: the table, or the error of the driver. *)
Definition StackFor (rows : result (list spanRow)) (traceID : string) : result (string * string) :=
  match rows with
  | Err e => Err (ErrWrap ("clickhouse stack for trace " +:+ traceID) e)
  | Ok rows => Ok match latest (errorSpans traceID rows) with Some r => stackColumns r | None => ("", "") end
  end.

(** ** The command *)

(** [os.Exit]: 0 when the process ends by itself. *)
Definition exitCode : Type := Z.

Definition exitOn {A} (m : M A) : M exitCode :=
  r ←! tryM m ; retM (match r with Ok _ => 0 | Err _ => 1 end).

Record backfillFlags := mkBackfillFlags {
  bf_since : Z;
  bf_dryRun : bool
}.

Record hintFlags := mkHintFlags {
  hf_restale : bool;
  hf_dryRun : bool;
  hf_max : Z;
  hf_batch : Z
}.

(** What is outside the process. *)
Record outside := mkOutside {
  out_clickhouse : string -> result (clickhouse * result (list spanRow));
  out_listen : string -> result unit;
  out_requests : list ExportTraceServiceRequest;
  out_rangeOf : gmap string string -> list (string * string);
  out_uuidParse : string -> option string;
  out_http : httpRequest -> result (Z * string);
  out_parse : string -> option Json;
  out_newRequest : string -> result unit;
  out_llm : string -> anthropicRequest -> result httpAnswer;
  out_unmarshalHint : string -> result parsedHint;
  out_smtp : string -> string -> result unit;
  out_slack : string -> result Z;
  out_numeric : float64 -> result Z;
  out_optedOut : string -> bool;
  out_users : gmap string user_row
}.

Section command.
Context (getenv : string -> string) (o : outside).
(** [flag.Parse] for the two subcommands with flags; [None] on an error. *)
Context (backfillArgs : list string -> option backfillFlags) (hintArgs : list string -> option hintFlags).

Definition getEnv (k def : string) : string := if String.eqb (getenv k) "" then def else getenv k.

(** The value of [strconv.Atoi] when its error is ignored: 0, or the nearest int. *)
Definition atoi0 (s : string) : Z :=
  let '(sign, ds) := match toText s with
    | "-"%char :: t => (-1, t)
    | "+"%char :: t => (1, t)
    | t => (1, t)
    end in
  if negb (bool_decide (ds = [])) && forallb digit ds
  then Z.max (- 2 ^ 63) (Z.min (2 ^ 63 - 1) (sign * foldl (fun n c => 10 * n + digitVal c) 0 ds)) else 0.

(** [runOTLPServer]: the requests that come until the process is told to stop. *)
Definition runOTLPServer (clickhouseDSN : string) : M exitCode :=
  match out_clickhouse o clickhouseDSN with
  | Err _ => retM 1
  | Ok (ch, _) =>
      match out_listen o (getEnv "TEO_METRICS_LISTEN" ":9100"), out_listen o (getEnv "TEO_OTLP_LISTEN" ":4317") with
      | Ok _, Ok _ =>
          forM_ (out_requests o) (fun req => ignoreM (Export (out_rangeOf o) (out_uuidParse o) (Some ch) true true req)) ;!
          retM 0
      | _, _ => retM 1
      end
  end.

Definition digestSenders : list Sender :=
  let host := getenv "TEO_SMTP_HOST" in
  let hook := getenv "TEO_SLACK_WEBHOOK_URL" in
  (if String.eqb host "" then []
   else [smtpSend (out_smtp o) (mkSMTPSender host (atoi0 (getEnv "TEO_SMTP_PORT" "587")) (getEnv "TEO_SMTP_FROM" "teo@example.com"))])
  ++ (if String.eqb hook "" then [] else [slackSend (out_newRequest o) (out_slack o) hook]).

Definition buildDigestSender : option Sender :=
  match digestSenders with
  | [] => None
  | [s] => Some s
  | senders => Some (multiplex senders)
  end.

Definition runOwnerDigest : M exitCode := exitOn (RunDigest (out_optedOut o) (out_users o) buildDigestSender).

Definition runFlakeRecompute : M exitCode := exitOn (RunJob (out_numeric o) (mkThreshold 0 (f64_ofZ 0) (f64_ofZ 0))).

Definition runBackfillClusters (fuel : nat) (clickhouseDSN : string) (args : list string) : M exitCode :=
  match backfillArgs args with
  | None => retM 2
  | Some f =>
      if String.eqb clickhouseDSN "" then retM 1
      else match out_clickhouse o clickhouseDSN with
      | Err _ => retM 1
      | Ok (_, rows) => exitOn (RunBackfill (mkBackfiller (pgSeams fuel (StackFor rows)) (bf_dryRun f) (bf_since f)))
      end
  end.

Definition runLLMHints (args : list string) : M exitCode :=
  match hintArgs args with
  | None => retM 2
  | Some f =>
      if negb (Enabled getenv) then retM 0
      else match NewClientFromEnv getenv (out_newRequest o) (out_llm o) (out_unmarshalHint o) with
      | None => retM 1
      | Some c => exitOn (RunHints (mkHintRunner (pgHintSeams (Some c)) (hf_restale f) (hf_batch f) (hf_max f) (hf_dryRun f)))
      end
  end.

Definition opener (token : string) : option githubClient := Some (NewIssuesClient token).

Definition runQuarantineSweep : M exitCode :=
  let token := getenv "TEO_GITHUB_TOKEN" in
  exitOn (RunDaemon (if String.eqb token "" then mkDaemon None None
    else mkDaemon (Some (openerOpen (out_http o) (out_parse o) (opener token))) (Some (openerComment (out_http o) (out_parse o) (opener token))))).

Definition runQuarantineSLASweep : M exitCode :=
  let token := getenv "TEO_GITHUB_TOKEN" in
  if String.eqb token "" then retM 1
  else exitOn (RunSLA (mkSLASweeper (Some (openerComment (out_http o) (out_parse o) (opener token))) (atoi0 (getEnv "TEO_QUARANTINE_SLA_DAYS" "14")))).

Definition runUnquarantineProposals : M exitCode :=
  let token := getenv "TEO_GITHUB_TOKEN" in
  if String.eqb token "" then retM 1
  else exitOn (RunProposer (mkProposer (Some (openerComment (out_http o) (out_parse o) (opener token)))
    (atoi0 (getEnv "TEO_UNQUARANTINE_WINDOW" "30")) 0 (getEnv "TEO_BASE_URL" "https://teo.example.com"))).

(** [main]: [args] are the arguments after the program's name, [opened] is
    [db.OpenPostgres]. *)
Definition pipelineMain (fuel : nat) (postgresDSN clickhouseDSN : string) (opened : result unit) (args : list string) : M exitCode :=
  if String.eqb postgresDSN "" then retM 1
  else match opened with
  | Err _ => retM 1
  | Ok _ =>
      let sub := default "" (head args) in
      if String.eqb sub "" || String.eqb sub "serve" then runOTLPServer clickhouseDSN
      else if String.eqb sub "owner-digest" then runOwnerDigest
      else if String.eqb sub "flake-recompute" then runFlakeRecompute
      else if String.eqb sub "quarantine-sweep" then runQuarantineSweep
      else if String.eqb sub "quarantine-sla-sweep" then runQuarantineSLASweep
      else if String.eqb sub "unquarantine-proposals" then runUnquarantineProposals
      else if String.eqb sub "backfill-clusters" then runBackfillClusters fuel clickhouseDSN (tail args)
      else if String.eqb sub "llm-hints" then runLLMHints (tail args)
      else retM 2
  end.
End command.

(** ** Every invocation stays within what the services keep *)

Section guarantee.
Context (R : RowRel) `{!RowPreOrder R} `{!ManagerStmts R} `{!ServiceStmts R} `{!JobStmts R}.

#[export] Instance Export_guaranteed rangeOf uuid ch cluster metrics req : Guaranteed R (Export rangeOf uuid ch cluster metrics req).
Proof.
  unfold Export. destruct ch as [ch|]; [|apply _]. destruct (flatten rangeOf req) as [rows failures]. destruct rows as [|row rows]; [apply _|].
  unfold writeSpans, ofResult. guarantee.
Qed.

#[local] Instance multiplex_guaranteed senders m : (forall s, s ∈ senders -> Guaranteed R (s m)) -> Guaranteed R (multiplex senders m).
Proof.
  unfold multiplex. generalize (@None error) as e. induction senders as [|s senders IH]; intros e H; cbn [multiplexFrom]; [destruct e; apply _|].
  apply bindM_guaranteed; [apply _|apply tryM_guaranteed, H; by left|]. intros r. apply IH. intros s' Hs'. apply H. by right.
Qed.

#[local] Instance smtpSend_guaranteed answer s m : Guaranteed R (smtpSend answer s m).
Proof. unfold smtpSend, ofResult. guarantee. Qed.
#[local] Instance slackSend_guaranteed req post url m : Guaranteed R (slackSend req post url m).
Proof. unfold slackSend, ofResult. guarantee. Qed.

Lemma digestSenders_guaranteed getenv o s m : s ∈ digestSenders getenv o -> Guaranteed R (s m).
Proof.
  unfold digestSenders. intros [H|H]%elem_of_app; destruct (String.eqb _ _); try (by apply elem_of_nil in H);
    apply list_elem_of_singleton in H as ->; apply _.
Qed.

Lemma buildDigestSender_guaranteed getenv o send m : buildDigestSender getenv o = Some send -> Guaranteed R (send m).
Proof.
  unfold buildDigestSender. pose proof (fun s => digestSenders_guaranteed getenv o s m) as H.
  destruct (digestSenders getenv o) as [|s [|s' l]]; intros [= <-]; [apply H; by left|by apply multiplex_guaranteed].
Qed.

Lemma buildRows_guaranteed id start stop rows out : Guaranteed R (buildRows id start stop rows out).
Proof.
  revert out. induction rows as [|[[[[owner owned] flaky] minutes] prev] rows IH]; intros out; cbn [buildRows]; [apply _|].
  unfold slowestTests. guarantee.
Qed.

Lemma RunDigest_guaranteed opted users sender : (forall send m, sender = Some send -> Guaranteed R (send m)) -> Guaranteed R (RunDigest opted users sender).
Proof.
  intros Hs. assert (forall full stats out, Guaranteed R (digestOwners users sender full stats out)) as Ho.
  { intros full. induction stats as [|s stats IH]; intros out; cbn [digestOwners]; [apply _|].
    apply bindM_guaranteed; [apply _| |intros; apply IH]. unfold digestOne, resolveOwner. destruct sender as [send|].
    - pose proof (fun m => Hs send m eq_refl). guarantee.
    - guarantee. }
  unfold RunDigest, eligibleRepos. apply bindM_guaranteed; [apply _|apply _|]. intros rps. generalize (@nil DigestResult).
  induction rps as [|[id full] rps IH]; intros out; cbn [digestRepos]; [apply _|].
  pose proof (fun start stop rows => buildRows_guaranteed id start stop rows []). unfold BuildAll. guarantee.
Qed.

Lemma exitOn_guaranteed {A} (m : M A) : Guaranteed R m -> Guaranteed R (exitOn m).
Proof. intros Hm. unfold exitOn. guarantee. Qed.

#[export] Instance pipelineMain_guaranteed getenv o backfillArgs hintArgs fuel pg ch opened args :
  Guaranteed R (pipelineMain getenv o backfillArgs hintArgs fuel pg ch opened args).
Proof.
  unfold pipelineMain, runOTLPServer, runFlakeRecompute, runQuarantineSweep, runQuarantineSLASweep, runUnquarantineProposals,
    runBackfillClusters, runLLMHints.
  assert (Guaranteed R (runOwnerDigest getenv o)).
  { apply exitOn_guaranteed, RunDigest_guaranteed. intros send m. apply buildDigestSender_guaranteed. }
  repeat case_match; try apply _; try (apply exitOn_guaranteed; apply _).
Qed.
End guarantee.

(** ** The backfill sees what the live path saw *)

Lemma latest_spec rows : match latest rows with
  | Some r => r ∈ rows /\ forall r', r' ∈ rows -> sr_EndTime r' <= sr_EndTime r
  | None => rows = []
  end.
Proof.
  induction rows as [|r rows IH] using rev_ind; [done|]. unfold latest in *. rewrite foldl_app. cbn [foldl].
  destruct (foldl _ None rows) as [b|].
  - destruct IH as [Hb IH]. destruct (Z.ltb_spec (sr_EndTime b) (sr_EndTime r)).
    + split; [set_solver|]. intros r' [Hr'%IH|Hr'%list_elem_of_singleton]%elem_of_app; subst; lia.
    + split; [set_solver|]. intros r' [Hr'%IH|Hr'%list_elem_of_singleton]%elem_of_app; subst; lia.
  - subst. split; [by left|]. intros r' Hr'%list_elem_of_singleton. subst. lia.
Qed.

(** The spans of a request with the attributes of their resource. *)
Definition spansOf (req : ExportTraceServiceRequest) : list (gmap string string * Span) :=
  concat ((fun rs => (fun sp => (attrsToMap (rsp_Attributes rs), sp)) <$> concat (rsp_Scopes rs)) <$> req).

Section sees.
Context (rangeOf : gmap string string -> list (string * string)) (uuidParse : string -> option string).
(** A map is ranged over entry by entry. *)
Context (range_ok : forall m, rangeOf m ≡ₚ map_to_list m).

Lemma buildMap_range m : buildMap (rangeOf m).*1 (rangeOf m).*2 = m.
Proof using range_ok.
  unfold buildMap. rewrite zip_fst_snd. assert (NoDup (rangeOf m).*1) as Hnd by (rewrite range_ok; apply NoDup_fst_map_to_list).
  transitivity (list_to_map (rangeOf m) : gmap string string).
  - clear -Hnd. assert (forall l (a : gmap string string), NoDup l.*1 -> foldl (fun m kv => <[kv.1:=kv.2]> m) a l = list_to_map l ∪ a) as H.
    { induction l as [|[k v] l IH]; intros a Hl; [cbn; by rewrite (left_id_L ∅ (∪))|]. cbn [foldl fst snd fmap list_fmap] in *. apply NoDup_cons in Hl as [Hk Hl].
      rewrite IH by done. rewrite <-insert_union_r by (by apply not_elem_of_list_to_map_1). by rewrite list_to_map_cons, insert_union_l. }
    rewrite H by done. by rewrite (right_id_L ∅ (∪)).
  - rewrite (list_to_map_proper _ (map_to_list m)) by done. apply list_to_map_to_list.
Qed.

Lemma fmap_concat {A B} (f : A -> B) (ls : list (list A)) :
  fmap (M := list) f (concat ls) = concat (fmap (M := list) (fmap (M := list) f) ls).
Proof using. induction ls as [|l ls IH]; [done|]. cbn [concat]. rewrite fmap_app, IH. done. Qed.

Lemma concat_singletons {A B} (f : A -> B) (l : list A) : concat (fmap (M := list) (fun x => [f x]) l) = fmap (M := list) f l.
Proof using. induction l as [|x l IH]; [done|]. cbn. by f_equal. Qed.

Lemma flatten_spans req : (flatten rangeOf req).1 = (fun x => flattenSpan rangeOf x.1 x.2) <$> spansOf req.
Proof using.
  unfold flatten, spansOf. cbn [fst]. rewrite fmap_concat. f_equal. rewrite <-list_fmap_compose. apply list_fmap_ext. intros _ rs _. unfold compose.
  rewrite concat_singletons, <-list_fmap_compose. done.
Qed.

Lemma flatten_failures req f : f ∈ (flatten rangeOf req).2 <-> exists res sp, (res, sp) ∈ spansOf req /\ f ∈ failureOf rangeOf res sp.
Proof using.
  unfold flatten, spansOf. cbn [snd]. split.
  - rewrite list_elem_of_In. intros (l & Hl & Hf)%in_concat. apply list_elem_of_In, list_elem_of_fmap in Hl as (rs & -> & Hrs).
    apply in_concat in Hf as (l & Hl & Hf). apply list_elem_of_In, list_elem_of_fmap in Hl as (sp & -> & Hsp). exists (attrsToMap (rsp_Attributes rs)), sp.
    split; [|by apply list_elem_of_In]. apply list_elem_of_In, in_concat. eexists. split; [apply list_elem_of_In, list_elem_of_fmap; by exists rs|].
    apply list_elem_of_In, list_elem_of_fmap. by exists sp.
  - intros (res & sp & Hin & Hf). apply list_elem_of_In, in_concat in Hin as (l & Hl & Hin).
    apply list_elem_of_In, list_elem_of_fmap in Hl as (rs & -> & Hrs). apply list_elem_of_In, list_elem_of_fmap in Hin as (sp' & [= -> ->] & Hsp).
    apply list_elem_of_In, in_concat. eexists. split; [apply list_elem_of_In, list_elem_of_fmap; by exists rs|].
    apply in_concat. eexists. split; [apply list_elem_of_In, list_elem_of_fmap; by exists sp'|]. by apply list_elem_of_In.
Qed.

(** The columns of a span's row are what the live path clusters it by. *)
Lemma columns_live res sp : statusCode (flattenSpan rangeOf res sp) = 2 ->
  exists f, failureOf rangeOf res sp = [f] /\ stackColumns (batchRow uuidParse (flattenSpan rangeOf res sp)) = (fl_stack f, fl_message f).
Proof using range_ok.
  intros H. unfold failureOf. rewrite H. eexists. split; [reflexivity|]. unfold stackColumns, attribute, batchRow. cbn [sr_Attributes sr_StatusMessage fl_stack fl_message].
  cbn [flattenSpan attrKeys attrVals]. rewrite buildMap_range. unfold firstNonEmpty, attr. f_equal. cbn [List.find flattenSpan statusMessage].
  destruct (String.eqb_spec (default "" (attrsToMap (sp_Attributes sp) !! "exception.message")) "") as [->|]; [|done]. cbn [negb].
  destruct (sp_Status sp) as [[c msg]|]; [|done]. cbn [ss_Message]. by destruct (String.eqb_spec msg "") as [->|].
Qed.
End sees.

(** C17: The backfill reads from ClickHouse the failure that the live path clustered:
    once the spans of a request are stored, the stack and message found for one of
    its traces are those of an error span of that trace that the receiver passed on
    to the clusters, the one that ended last; a trace without an error span has
    neither. *)
Theorem StackFor_sees_live rangeOf uuidParse old req traceID :
  (forall m, rangeOf m ≡ₚ map_to_list m) -> errorSpans traceID old = [] ->
  let failed x := hexBytes (sp_TraceId x.2) = traceID /\ statusToCode (sp_Status x.2) = 2 in
  exists found, StackFor (Ok (old ++ (batchRow uuidParse <$> (flatten rangeOf req).1))) traceID = Ok found
  /\ ((found = ("", "") /\ forall x, x ∈ spansOf req -> ~ failed x)
      \/ exists res sp f, (res, sp) ∈ spansOf req /\ failed (res, sp) /\ failureOf rangeOf res sp = [f] /\ f ∈ (flatten rangeOf req).2
           /\ found = (fl_stack f, fl_message f)
           /\ forall x, x ∈ spansOf req -> failed x -> unixNanoToTime (sp_End x.2) <= unixNanoToTime (sp_End sp)).
Proof.
  intros Hr Hold failed. eexists. split; [reflexivity|]. unfold errorSpans in *. rewrite List.filter_app, Hold, flatten_spans, <-list_fmap_compose. cbn [app].
  assert (forall r, r ∈ List.filter (fun r => String.eqb (sr_TraceID r) traceID && (sr_StatusCode r =? 2))
      ((fun x => batchRow uuidParse (flattenSpan rangeOf x.1 x.2)) <$> spansOf req)
    <-> exists x, x ∈ spansOf req /\ failed x /\ r = batchRow uuidParse (flattenSpan rangeOf x.1 x.2)) as Hin.
  { intros r. rewrite list_elem_of_In, filter_In, <-list_elem_of_In, list_elem_of_fmap, andb_true_iff, String.eqb_eq, Z.eqb_eq. unfold failed. naive_solver. }
  pose proof (latest_spec (List.filter (fun r => String.eqb (sr_TraceID r) traceID && (sr_StatusCode r =? 2))
      ((fun x => batchRow uuidParse (flattenSpan rangeOf x.1 x.2)) <$> spansOf req))) as Hl.
  change (batchRow uuidParse ∘ (fun x : gmap string string * Span => flattenSpan rangeOf x.1 x.2))
    with (fun x : gmap string string * Span => batchRow uuidParse (flattenSpan rangeOf x.1 x.2)).
  destruct (latest _) as [r|].
  - right. destruct Hl as [Hm Hmax]. apply Hin in Hm as ([res sp] & Hx & [Ht Hs] & ->). cbn [fst snd] in *.
    destruct (columns_live rangeOf uuidParse Hr res sp Hs) as (f & Hf & Hc). exists res, sp, f. split_and!; try done.
    + apply flatten_failures. exists res, sp. rewrite Hf. split; [done|by left].
    + intros x Hx' Hfx. apply (Hmax (batchRow uuidParse (flattenSpan rangeOf x.1 x.2))). apply Hin. by exists x.
  - left. split; [done|]. intros x Hx Hfx. assert (batchRow uuidParse (flattenSpan rangeOf x.1 x.2) ∈ []) as H; [|by apply elem_of_nil in H].
    rewrite <-Hl. apply Hin. by exists x.
Qed.

Module PipelineDemo.
Definition errorSpan (stop : Z) (stack message : string) : Span :=
  mkSpan [10; 11] [1] [] "test" 1 0 stop
    [mkKeyValue "exception.stacktrace" (Some (StringValue stack)); mkKeyValue "exception.message" (Some (StringValue message))]
    (Some (mkSpanStatus 2 "status")).
Definition req : list ResourceSpans :=
  [mkResourceSpans [mkKeyValue "teo.repo_id" (Some (StringValue "repo"))] [[errorSpan 5 "first" "boom"; errorSpan 9 "second" ""]]].
End PipelineDemo.

Lemma StackFor_sees_live_witness :
  exists f, f ∈ (flatten map_to_list PipelineDemo.req).2
    /\ StackFor (Ok (batchRow (fun _ => None) <$> (flatten map_to_list PipelineDemo.req).1)) "0a0b" = Ok (fl_stack f, fl_message f)
    /\ fl_stack f = "second" /\ fl_message f = "status".
Proof.
  destruct (StackFor_sees_live map_to_list (fun _ => None) [] PipelineDemo.req "0a0b") as (found & H & [[_ Hn]|(res & sp & f & Hx & _ & _ & Hf & -> & _)]);
    [done|done| |].
  - exfalso. apply (Hn (attrsToMap [mkKeyValue "teo.repo_id" (Some (StringValue "repo"))], PipelineDemo.errorSpan 5 "first" "boom")).
    + by left.
    + by split.
  - exists f. split_and!; [done|exact H| |]; apply (f_equal (fun r => match r with Ok p => p | Err _ => ("", "") end)) in H; vm_compute in H;
      injection H as H1 H2; by rewrite <-?H1, <-?H2.
Defined.
