(* ===== verification/System.v ===== *)
(** * The whole system

    Any mixture of service calls, each interleaved with other sessions at every
    database call: [sysStep R] is one call among sessions that stay within [R].
    The theorems follow the rows of the database along any sequence of calls. *)

From Stdlib Require Import Ascii.
From S2P Require Import Prelude Model Scheduler Db Effects Shards StateMachine Lifecycle Predictor RunManager RunManagerSafe Worker RunSvc.
From S2P Require Import Cluster GoFloat GrpcSvc ServicesSafe Flake Quarantine Backfill Auth Graphql CheckObserver LlmHints Webhook JobsSafe Otlp ResultPipeline.

(** The calls the processes of the system make. *)
Inductive ServiceCall : forall A, M A -> Prop :=
  | CallReconcile m : PredictorLaws (m_Predictor m) -> ServiceCall unit (reconcileOnce m)
  | CallReschedule : ServiceCall unit reschedulePreempted
  | CallBudgets m : ServiceCall unit (checkBudgets m)
  | CallClaim a : ServiceCall unit (tryClaimAndRun a)
  | CallMessage a d : ServiceCall unit (handleMessage a d)
  | CallDrain n : ServiceCall unit (watchSpot n)
  | CallCreate s req : ServiceCall (Run * bool) (Create s req)
  | CallGet id : ServiceCall Run (Get id)
  | CallCancel s id : ServiceCall Run (Cancel s id)
  | CallPull w : ServiceCall AssignmentMsg (PullAssignment w)
  | CallReport c t : ServiceCall bool (ReportTestFinished c t)
  | CallFlakeJob num t : ServiceCall unit (@RunJob float64 _ num t)
  | CallDaemon d : ServiceCall unit (RunDaemon d)
  | CallSLA s : ServiceCall unit (RunSLA s)
  | CallProposer u : ServiceCall unit (RunProposer u)
  | CallRestore tok : ServiceCall string (Restore tok)
  | CallBackfill fuel stackFor dry since :
      ServiceCall Stats (RunBackfill (mkBackfiller (pgSeams fuel stackFor) dry since))
  | CallObserver o snap prev : ServiceCall unit (OnRunStateChanged o snap prev)
  | CallHints c restale bs mc dry : ServiceCall hintStats (RunHints (mkHintRunner (pgHintSeams c) restale bs mc dry))
  | CallWebhook decode secret rq : ServiceCall Z (ServeHTTP decode secret rq)
  | CallExport rangeOf uuid ch cluster metrics req : ServiceCall unit (Export rangeOf uuid ch cluster metrics req)
  | CallPipeline getenv o bf hf fuel pg ch opened args :
      ServiceCall exitCode (pipelineMain getenv o bf hf fuel pg ch opened args)
  | CallRerun p id : ServiceCall runMap (resolveRerunFailed p id)
  | CallQuarantine p id reason : ServiceCall testMap (resolveQuarantineTest p id reason)
  | CallUnquarantine p id : ServiceCall testMap (resolveUnquarantineTest p id).
Arguments ServiceCall {A} _.

Definition envWithin (R : RowRel) (w : World) : Prop :=
  Forall (fun e => forall db, DBRel R db (ev_other e db)) (w_env w).

Inductive sysStep (R : RowRel) : DB -> DB -> Prop :=
  | SysStep A (m : M A) w : ServiceCall m -> w_tx w = None -> envWithin R w ->
      sysStep R (w_db w) (w_db (m w).2).

Lemma ServiceCall_guaranteed R `{!RowPreOrder R} `{!ManagerStmts R} `{!ServiceStmts R} `{!JobStmts R} A (m : M A) :
  ServiceCall m -> Guaranteed R m.
Proof.
  destruct 1; try apply _.
  - unfold Get, loadRun. guarantee.
  - unfold resolveRerunFailed. apply gated_guaranteed; guarantee.
  - unfold resolveQuarantineTest, quarantineTest. apply gated_guaranteed; guarantee.
  - unfold resolveUnquarantineTest, unquarantineTest. apply gated_guaranteed; guarantee.
Qed.

Lemma sysStep_within R `{!RowPreOrder R} `{!ManagerStmts R} `{!ServiceStmts R} `{!JobStmts R} db db' :
  rtc (sysStep R) db db' -> DBRel R db db'.
Proof.
  induction 1 as [|d d1 d2 H _ IH]; [reflexivity|]. etransitivity; [|exact IH].
  destruct H as [A m w Hm Ht He].
  apply (ServiceCall_guaranteed R A m Hm). split; [done|]. intros t. by rewrite Ht.
Qed.

Definition quietWorld (db : DB) (now : Z) (next : nat) : World :=
  mkWorld db None now (fun n => String (Ascii.ascii_of_nat (97 + n)) EmptyString) next ∅ [] [] idleAgent.

(** C2: Whatever calls are made in whatever interleaving, with whatever faults, a
    run keeps its repository, commit, branch, creation time and idempotency key,
    its status moves only along the table of the state machine, and once it is
    terminal its status and finish time never change again. *)
Theorem runs_follow_state_machine db db' id r :
  rtc (sysStep Evolves) db db' -> runs db !! id = Some r ->
  exists r', runs db' !! id = Some r'
    /\ (r_repo_id r', r_commit_sha r', r_branch r', r_created_at r', rm_idempotency_key (r_meta r'))
       = (r_repo_id r, r_commit_sha r, r_branch r, r_created_at r, rm_idempotency_key (r_meta r))
    /\ (r_status r ∈ dbStatuses -> rtc statusStep (r_status r) (r_status r') /\ r_status r' ∈ dbStatuses)
    /\ (dbTerminal (r_status r) -> r_status r' = r_status r /\ r_finished_at r' = r_finished_at r).
Proof.
  intros Hs Hr. apply sysStep_within in Hs; [|apply _..].
  pose proof (dr_runs _ _ _ Hs id) as H. rewrite Hr in H. simpl in H.
  destruct (runs db' !! id) as [r'|]; [|done]. exists r'. destruct H.
  split_and!; [done|congruence|done|done].
Qed.

(** C24: No service deletes a row, and the columns that identify one never
    change, under any mixture of calls and faults: a run keeps its repository,
    commit, branch, creation time, idempotency key and start, a test its
    repository, fingerprint, path, name and parameters.  A shard never leaves its
    run or its place in it, is never handed out again once it left pending, and
    keeps its rescheduling mark; a recorded manifest is never changed; a recorded
    execution keeps its outcome, duration and failure cluster; a repository keeps
    its name, a failure cluster its fingerprint, a restore token its test, expiry
    and consumption. *)
Theorem records_are_kept db db' :
  rtc (sysStep Evolves) db db' ->
  (forall id r, runs db !! id = Some r -> exists r', runs db' !! id = Some r'
     /\ (r_repo_id r', r_commit_sha r', r_branch r', r_created_at r', rm_idempotency_key (r_meta r'))
        = (r_repo_id r, r_commit_sha r, r_branch r, r_created_at r, rm_idempotency_key (r_meta r))
     /\ forall t, r_started_at r = Some t -> r_started_at r' = Some t)
  /\ (forall id t, tests db !! id = Some t -> exists t', tests db' !! id = Some t'
     /\ (ts_repo_id t', ts_fingerprint t', ts_path t', ts_name t', ts_params_hash t')
        = (ts_repo_id t, ts_fingerprint t, ts_path t, ts_name t, ts_params_hash t))
  /\ (forall id s, shards db !! id = Some s -> exists s', shards db' !! id = Some s'
     /\ (s_run_id s', s_index s', s_test_count s') = (s_run_id s, s_index s, s_test_count s)
     /\ (s_status s <> "pending" -> s_status s' <> "pending")
     /\ (is_Some (s_rescheduled_at s) -> is_Some (s_rescheduled_at s')))
  /\ (forall id d, run_plans db !! id = Some d -> run_plans db' !! id = Some d)
  /\ (forall k e, test_executions db !! k = Some e -> exists e', test_executions db' !! k = Some e'
        /\ (ex_outcome e', ex_duration_ms e') = (ex_outcome e, ex_duration_ms e)
        /\ forall c, ex_failure_cluster_id e = Some c -> ex_failure_cluster_id e' = Some c)
  /\ (forall id r, repos db !! id = Some r -> exists r', repos db' !! id = Some r'
        /\ (rp_vcs r', rp_full_name r') = (rp_vcs r, rp_full_name r))
  /\ (forall id c, failure_clusters db !! id = Some c -> exists c', failure_clusters db' !! id = Some c'
        /\ (fc_repo_id c', fc_stack_fingerprint c', fc_first_seen c') = (fc_repo_id c, fc_stack_fingerprint c, fc_first_seen c))
  /\ (forall id, is_Some (flake_records db !! id) -> is_Some (flake_records db' !! id))
  /\ (forall tok t, unquarantine_tokens db !! tok = Some t -> exists t', unquarantine_tokens db' !! tok = Some t'
        /\ (ut_test_id t', ut_expires_at t') = (ut_test_id t, ut_expires_at t)
        /\ (is_Some (ut_consumed_at t) -> is_Some (ut_consumed_at t'))).
Proof.
  intros Hs. apply sysStep_within in Hs; [|apply _..]. split_and!.
  - intros id r H. pose proof (dr_runs _ _ _ Hs id) as Hk. rewrite H in Hk. simpl in Hk.
    destruct (runs db' !! id) as [r'|]; [|done]. exists r'. destruct Hk. split_and!; [done|congruence|done].
  - intros id t H. pose proof (dr_tests _ _ _ Hs id) as Hk. rewrite H in Hk. simpl in Hk.
    destruct (tests db' !! id) as [t'|]; [|done]. exists t'. destruct Hk. split; [done|congruence].
  - intros id s H. pose proof (dr_shards _ _ _ Hs id) as Hk. rewrite H in Hk. simpl in Hk.
    destruct (shards db' !! id) as [s'|]; [|done]. exists s'. destruct Hk.
    split_and!; [done|congruence|auto|auto].
  - intros id d H. pose proof (dr_plans _ _ _ Hs id) as Hk. rewrite H in Hk. simpl in Hk.
    destruct (run_plans db' !! id) as [d'|]; [|done]. by subst.
  - intros k e H. pose proof (dr_execs _ _ _ Hs k) as Hk. rewrite H in Hk. simpl in Hk.
    destruct (test_executions db' !! k) as [e'|]; [|done]. exists e'. destruct Hk.
    split_and!; [done|congruence|done].
  - intros id r H. pose proof (dr_repos _ _ _ Hs id) as Hk. rewrite H in Hk. simpl in Hk.
    destruct (repos db' !! id) as [r'|]; [|done]. exists r'. destruct Hk. split; [done|congruence].
  - intros id c H. pose proof (dr_clusters _ _ _ Hs id) as Hk. rewrite H in Hk. simpl in Hk.
    destruct (failure_clusters db' !! id) as [c'|]; [|done]. exists c'. destruct Hk. split; [done|congruence].
  - intros id [f H]. pose proof (dr_flakes _ _ _ Hs id) as Hk. rewrite H in Hk. simpl in Hk.
    by destruct (flake_records db' !! id).
  - intros tok t H. pose proof (dr_tokens _ _ _ Hs tok) as Hk. rewrite H in Hk. simpl in Hk.
    destruct (unquarantine_tokens db' !! tok) as [t'|]; [|done]. exists t'. destruct Hk. split_and!; [done|congruence|done].
Qed.

(** C29: No sequence of service calls ever finalizes a run: starting from a
    database in which no run is finalizing or succeeded, none ever becomes so,
    although the manager's finalize step and the state machine provide for it.
    Nothing writes the status finalizing. *)
Theorem no_run_ever_succeeds db db' :
  rtc (sysStep NoFinalize) db db' ->
  (forall id r, runs db !! id = Some r -> r_status r <> "finalizing" /\ r_status r <> "succeeded") ->
  forall id r, runs db' !! id = Some r -> r_status r <> "finalizing" /\ r_status r <> "succeeded".
Proof.
  intros Hs H0 id r Hr. apply sysStep_within in Hs; [|apply _..].
  pose proof (dr_runs _ _ _ Hs id) as H. rewrite Hr in H. simpl in H. apply H.
  destruct (runs db !! id) as [r0|] eqn:E; [|done]. by apply (H0 id).
Qed.

(** The predictor calibration that the GraphQL API computes from measured
    shards is never available: no service records an actual duration, so from a
    database without one every later calibration query answers null. *)
Theorem calibration_never_available db db' runID now next :
  rtc (sysStep NoFinalize) db db' ->
  (forall id s, shards db !! id = Some s -> s_actual_duration_ms s = None) ->
  (queryRunPredictor runID (quietWorld db' now next)).1 = Ok None.
Proof.
  intros Hs H0. apply sysStep_within in Hs; [|apply _..].
  assert (Hm : selectMeasured runID db' = []).
  { apply elem_of_nil_inv. intros x ([id s] & Hin & Hx)%list_elem_of_omap. revert Hx.
    apply elem_of_map_to_list in Hin.
    pose proof (dr_shards _ _ _ Hs id) as H. rewrite Hin in H. simpl in H |- *.
    rewrite H; [by destruct (String.eqb _ _)|]. clear H. destruct (shards db !! id) eqn:E; [|done]. by apply (H0 id). }
  unfold queryRunPredictor, bindM, tryM, scanRow. cbn. unfold bindM. cbn.
  destruct (selectModel runID db') as [m|]; cbn; [|reflexivity]. rewrite Hm. reflexivity.
Qed.

(** ** Witnesses: a run created, planned, dispatched, claimed and executed *)

Definition demoRepo : repo_row := mkRepoRow "github" "acme/app" true true.
Definition demoDB0 : DB := set_repos {[ "repo" := demoRepo ]} emptyDB.

Definition demoReq : CreateRunRequest :=
  mkCreateRunRequest "acme/app" "c0ffee" "main"
    (mkTestManifest "pytest" [mkTestEntry "a.py" "t1" "" "" []; mkTestEntry "a.py" "t2" "" "" []])
    None "" 0 "key-1".

Definition demoManager : Manager :=
  mkManager (Heuristic.impl Heuristic.NewHeuristic) true true 1 true.

Definition demoAgent : Agent :=
  mkAgent "worker-1" "pytest"
    (fun ts => ((fun t => mkResult t "passed" 0 5000 5 "ok" "" "" "") <$> ts, false)) (fun _ _ => true).

Definition afterCreate : DB := w_db (Create (mkService true) demoReq (quietWorld demoDB0 100 0)).2.
Definition afterPlan : DB := w_db (reconcileOnce demoManager (quietWorld afterCreate 200 1)).2.
Definition afterDispatch : DB := w_db (reconcileOnce demoManager (quietWorld afterPlan 300 5)).2.
Definition afterWork : DB := w_db (tryClaimAndRun demoAgent (quietWorld afterDispatch 400 9)).2.
Definition afterCancel : DB := w_db (Cancel (mkService true) "a" (quietWorld afterWork 500 20)).2.

Lemma quiet_step R {A} (m : M A) db now next : ServiceCall m ->
  sysStep R db (w_db (m (quietWorld db now next)).2).
Proof.
  intros Hm. exact (SysStep R A m (quietWorld db now next) Hm eq_refl (Forall_nil_2 _)).
Qed.

Lemma demo_steps R : rtc (sysStep R) afterCreate afterCancel.
Proof.
  apply rtc_l with afterPlan.
  { apply quiet_step, CallReconcile, Heuristic.impl_laws. }
  apply rtc_l with afterDispatch.
  { apply quiet_step, CallReconcile, Heuristic.impl_laws. }
  apply rtc_l with afterWork; [apply quiet_step, CallClaim|].
  apply rtc_once. apply quiet_step, CallCancel.
Qed.

Example demo_statuses :
  ((fun d => r_status <$> runs d !! "a") <$> [afterCreate; afterPlan; afterDispatch; afterWork; afterCancel])
  = [Some "pending"; Some "dispatching"; Some "running"; Some "running"; Some "cancelled"].
Proof. vm_compute. reflexivity. Qed.

Lemma runs_follow_state_machine_witness :
  exists r r', runs afterCreate !! "a" = Some r /\ runs afterCancel !! "a" = Some r'
    /\ r_commit_sha r' = r_commit_sha r /\ rtc statusStep (r_status r) (r_status r').
Proof.
  destruct (runs afterCreate !! "a") as [r|] eqn:E; [|by vm_compute in E].
  assert (Hk : r_status r ∈ dbStatuses).
  { assert (Hs : r_status <$> runs afterCreate !! "a" = Some "pending") by (vm_compute; reflexivity).
    rewrite E in Hs. injection Hs as ->. known. }
  destruct (runs_follow_state_machine _ _ "a" r (demo_steps Evolves) E) as (r' & H1 & H2 & H3 & _).
  exists r, r'. split_and!; [done|done|congruence|by apply H3].
Defined.

Lemma records_are_kept_witness :
  exists d, run_plans afterCreate !! "a" = Some d /\ run_plans afterCancel !! "a" = Some d.
Proof.
  destruct (run_plans afterCreate !! "a") as [d|] eqn:E; [|by vm_compute in E].
  exists d. split; [done|]. by apply (records_are_kept _ _ (demo_steps Evolves)).
Defined.

Lemma calibration_never_available_witness :
  (queryRunPredictor "a" (quietWorld afterCancel 900 20)).1 = Ok None.
Proof.
  apply (calibration_never_available afterCreate _ "a" 900 20 (demo_steps NoFinalize)).
  assert (H : map_Forall (fun _ s => s_actual_duration_ms s = None) (shards afterCreate)).
  { apply (bool_decide_unpack _). vm_compute. exact I. }
  exact H.
Defined.

Lemma no_run_ever_succeeds_witness :
  exists r, runs afterCancel !! "a" = Some r /\ r_status r <> "finalizing" /\ r_status r <> "succeeded".
Proof.
  destruct (runs afterCancel !! "a") as [r|] eqn:E; [|by vm_compute in E].
  exists r. split; [done|].
  apply (no_run_ever_succeeds afterCreate _ (demo_steps NoFinalize)) with "a"; [|done].
  assert (H : map_Forall (fun _ r => r_status r <> "finalizing" /\ r_status r <> "succeeded") (runs afterCreate)).
  { apply (bool_decide_unpack _). vm_compute. exact I. }
  exact H.
Defined.

(** * The life of a run ends

    Every change of a run's status moves it up the ranks of the state machine, so
    however long the services run, there are only so many changes. *)


(** The databases seen at some moments of an execution, in order. *)
Fixpoint observed (db : DB) (later : list DB) : Prop :=
  match later with
  | [] => True
  | db' :: later => rtc (sysStep Evolves) db db' /\ observed db' later
  end.

Definition statusOf (id : string) (db : DB) : option string := r_status <$> runs db !! id.

(** How often the status of the run differs from the one seen before. *)
Fixpoint statusChanges (id : string) (db : DB) (later : list DB) : Z :=
  match later with
  | [] => 0
  | db' :: later => (if decide (statusOf id db' = statusOf id db) then 0 else 1) + statusChanges id db' later
  end.

Lemma rank_bounds s : 0 <= rank s <= 5.
Proof. unfold rank. repeat case_match; lia. Qed.

Lemma statusChanges_nonneg id db later : 0 <= statusChanges id db later.
Proof. revert db. induction later as [|db' later IH]; intros db; cbn; [lia|]. specialize (IH db'). case_decide; lia. Qed.

(** What happens to one run between two moments. *)
Lemma observed_run db db' id r : rtc (sysStep Evolves) db db' -> runs db !! id = Some r -> r_status r ∈ dbStatuses ->
  exists r', runs db' !! id = Some r' /\ r_status r' ∈ dbStatuses /\
    (r_status r' = r_status r \/ rank (dbStatus (r_status r)) < rank (dbStatus (r_status r'))).
Proof.
  intros Hs Hr Hk. apply sysStep_within in Hs; [|apply _..].
  pose proof (dr_runs _ _ _ Hs id) as H. rewrite Hr in H. simpl in H.
  destruct (runs db' !! id) as [r'|]; [|done]. exists r'. destruct (re_status _ _ H Hk) as [Hp Hk'].
  split_and!; [done|done|]. destruct (statusPath_rank _ _ Hp); auto.
Qed.

(** C23: A run changes its status at most five times, less the moves it has already
    made, in whatever order and however often the services are called; a terminal
    run changes it no more. *)
Theorem run_life_is_finite db later id r :
  observed db later -> runs db !! id = Some r -> r_status r ∈ dbStatuses ->
  0 <= statusChanges id db later <= 5 - rank (dbStatus (r_status r))
  /\ (IsTerminal (dbStatus (r_status r)) = true -> statusChanges id db later = 0).
Proof.
  intros Ho Hr Hk. pose proof (statusChanges_nonneg id db later) as Hn.
  assert (statusChanges id db later <= 5 - rank (dbStatus (r_status r))) as Hle.
  { clear Hn. revert db r Ho Hr Hk. induction later as [|db' later IH]; intros db r Ho Hr Hk; cbn [statusChanges].
    - pose proof (rank_bounds (dbStatus (r_status r))). lia.
    - destruct Ho as [Hs Ho]. destruct (observed_run db db' id r Hs Hr Hk) as (r' & Hr' & Hk' & Hrank).
      specialize (IH db' r' Ho Hr' Hk'). unfold statusOf. rewrite Hr, Hr'. cbn.
      case_decide as Hd; destruct Hrank as [E|]; [rewrite E in IH; lia|lia|by rewrite E in Hd|lia]. }
  split; [lia|]. intros Ht. apply dbTerminal_IsTerminal in Ht; [|done].
  assert (rank (dbStatus (r_status r)) = 5); [|lia]. by destruct Ht as [-> |[-> | ->]].
Qed.

Lemma run_life_is_finite_witness : statusChanges "a" afterCreate [afterCancel; afterCancel] <= 5.
Proof.
  destruct (runs afterCreate !! "a") as [r|] eqn:E; [|exfalso; by vm_compute in E].
  assert (Hs : r_status <$> runs afterCreate !! "a" = Some "pending") by (vm_compute; reflexivity).
  rewrite E in Hs. injection Hs as Hs.
  destruct (run_life_is_finite afterCreate [afterCancel; afterCancel] "a" r) as [H _].
  - split; [exact (demo_steps Evolves)|]. split; [apply rtc_refl|exact I].
  - exact E.
  - rewrite Hs. apply (bool_decide_unpack _). vm_compute. exact I.
  - rewrite Hs in H. change (rank (dbStatus "pending")) with 0 in H. lia.
Defined.
