(* ===== verification/Typed.v ===== *)
(** * Columns stay within their types

    The CHECK constraints and the ranges of the INT, BIGINT and NUMERIC columns of
    the schema as predicates on rows, for the tables the services write: no
    statement leaves a value its column cannot hold.  The ids GitHub gives are
    int64 in the program and BIGINT in the schema; they are taken to fit. *)

From S2P Require Import Prelude Model Scheduler Db Effects StateMachine Lifecycle.
From S2P Require Import RunManager RunManagerSafe Worker RunSvc Cluster GrpcSvc ServicesSafe Flake Quarantine Graphql CheckObserver LlmHints Webhook JobsSafe System.

Definition shardStatuses : list string := ["pending"; "running"; "succeeded"; "failed"; "lost"; "preempted"].

Definition fits4 (o : option Z) : Prop := int4 (default 0 o) = true.

(** NUMERIC(10,2), in hundredths. *)
Definition numeric102 (z : Z) : bool := (-999999999999 <=? z) && (z <=? 999999999999).

Record typedRun (r : run_row) : Prop := mkTypedRun {
  tr_status : r_status r ∈ dbStatuses;
  tr_pr : fits4 (r_trigger_pr_number r);
  tr_budget : fits4 (r_budget_seconds r);
  tr_duration : fits4 (r_total_duration_ms r);
  tr_preemptions : int4 (r_preemption_count r) = true;
  tr_spot : numeric102 (r_spot_minutes r) = true;
  tr_on_demand : numeric102 (r_on_demand_minutes r) = true
}.

Record typedShard (s : shard_row) : Prop := mkTypedShard {
  ty_status : s_status s ∈ shardStatuses;
  ty_index : int4 (s_index s) = true;
  ty_predicted : int4 (s_predicted_duration_ms s) = true;
  ty_count : int4 (s_test_count s) = true;
  ty_actual : fits4 (s_actual_duration_ms s)
}.

Definition typedTest (t : test_row) : Prop := ts_status t ∈ testStatuses.

(** The attempt is part of the key. *)
Record typedExec (k : string * string * Z) (e : exec_row) : Prop := mkTypedExec {
  te_attempt : int4 k.2 = true;
  te_outcome : ex_outcome e ∈ outcomes;
  te_duration : int4 (ex_duration_ms e) = true
}.

Definition typedRepo (r : repo_row) : Prop := rp_vcs r = "github".

Definition typedCluster (c : cluster_row) : Prop := bigint (fc_occurrences c) = true.

Record typedFlake (r : flake_row) : Prop := mkTypedFlake {
  tf_rate : numeric54 (fr_flake_rate r) = true;
  tf_lower : numeric54 (fr_wilson_lower r) = true;
  tf_upper : numeric54 (fr_wilson_upper r) = true;
  tf_samples : int4 (fr_sample_size r) = true;
  tf_issue : fits4 (fr_github_issue_number r)
}.

Definition typedOpt {V} (P : V -> Prop) (o : option V) : Prop := match o with Some v => P v | None => True end.

(** Typed rows stay typed, new rows are. *)
Definition typedRel {V} (P : V -> Prop) (o o' : option V) : Prop := typedOpt P o -> typedOpt P o'.

Definition Typed : RowRel :=
  mkRowRel (typedRel typedRun) anyRel (typedRel typedShard) (typedRel typedTest)
    (fun k => typedRel (typedExec k)) anyRel (typedRel typedRepo) (typedRel typedCluster) (typedRel typedFlake).

#[export] Instance Typed_preorder : RowPreOrder Typed.
Proof. split; split; simpl; unfold anyRel, typedRel; repeat intros ?; auto. Qed.

(** ** The run manager *)

(** The columns of a run with a range. *)
Definition figures (r : run_row) : list (option Z) * list Z :=
  ([r_trigger_pr_number r; r_budget_seconds r; r_total_duration_ms r],
   [r_preemption_count r; r_spot_minutes r; r_on_demand_minutes r]).

Lemma typed_status now r r' t : r_status r' = t -> t ∈ dbStatuses -> figures r' = figures r ->
  rel_runs Typed (Some r) (Some (r_set_updated_at now r')).
Proof. intros <- Ht [= E1 E2 E3 E4 E5 E6] []. split; simpl; congruence || by rewrite ?E1, ?E2, ?E3, ?E4, ?E5, ?E6. Qed.

Lemma typed_same now r r' : r_status r' = r_status r -> figures r' = figures r ->
  rel_runs Typed (Some r) (Some (r_set_updated_at now r')).
Proof. intros E1 E2 Hr. destruct (Hr) as [H1]. by apply (typed_status now r r' (r_status r)). Qed.

Lemma typed_shard s s' t : s_status s' = t -> t ∈ shardStatuses ->
  (s_index s', s_predicted_duration_ms s', s_test_count s', s_actual_duration_ms s')
    = (s_index s, s_predicted_duration_ms s, s_test_count s, s_actual_duration_ms s) ->
  rel_shards Typed (Some s) (Some s').
Proof. intros <- Ht [= E1 E2 E3 E4] []. split; simpl; congruence || by rewrite ?E1, ?E2, ?E3, ?E4. Qed.

#[export] Instance Typed_manager : ManagerStmts Typed.
Proof.
  split.
  - intros id. eapply updateRun_keeps; [apply _|reflexivity|]. intros. eapply typed_status; try reflexivity. known.
  - intros id p. eapply updateRun_keeps; [apply _|reflexivity|]. intros. by apply typed_same.
  - intros id. eapply updateRun_keeps; [apply _|reflexivity|]. intros. eapply typed_status; try reflexivity. known.
  - intros id. eapply updateRun_keeps; [apply _|reflexivity|]. intros. eapply typed_status; try reflexivity. known.
  - intros id f Hf. apply finalize_keeps; [apply _|]. intros ms now r Hms _ []. split; simpl; try done.
    destruct Hf as [-> | ->]; known.
  - intros id. eapply updateRun_keeps; [apply _|reflexivity|]. intros. eapply typed_status; try reflexivity. known.
  - intros id run i p n. apply insertShard_keeps; [apply _|]. intros now H _. zbool. split; simpl; try done. known.
  - intros id. eapply updateShard_keeps; [apply _|reflexivity|]. intros. eapply typed_shard; try reflexivity. known.
  - intros id. eapply updateShard_keeps; [apply _|reflexivity|]. intros now s _ Hs. destruct (Hs). by split.
  - intros id s mf. eapply updateRun_keeps; [apply _|reflexivity|]. intros. by apply typed_same.
  - intros now db a db' [= _ <-]. apply DBRel_runs; [apply _|]. intros k.
    rewrite updateAll_lookup. destruct (runs db !! k) as [r|]; simpl; [|done].
    destruct (_ && _) eqn:E; [|by unfold typedRel]. eapply typed_status; try reflexivity. known.
Qed.

(** ** The services and the jobs *)

Lemma typed_test t t' : (ts_status t ∈ testStatuses -> ts_status t' ∈ testStatuses) -> rel_tests Typed (Some t) (Some t').
Proof. done. Qed.

Lemma typed_newRun (row : Z -> run_row) : (forall now, r_status (row now) ∈ dbStatuses) ->
  (forall now, (r_total_duration_ms (row now), r_preemption_count (row now), r_spot_minutes (row now), r_on_demand_minutes (row now))
     = (None, 0, 0, 0)) -> forall id, StmtKeeps Typed (fun now => insertRun id (row now) now).
Proof.
  intros H1 H2 id. apply insertRun_keeps; [apply _|]. intros now [E1 E2]%andb_true_iff _.
  specialize (H2 now). injection H2 as F1 F2 F3 F4. split; [done|done|done|..]; by rewrite ?F1, ?F2, ?F3, ?F4.
Qed.

Lemma typed_exec f s t at_ o d st fi lk cl : StmtKeeps Typed (insertExecution f s t at_ o d st fi lk cl).
Proof.
  apply insertExecution_keeps; [apply _|]. intros Ha Hd Ho _. split; simpl; [done| |done].
  apply existsb_exists in Ho as (x & Hx & ->%String.eqb_eq). by apply list_elem_of_In.
Qed.

#[export] Instance Typed_services : ServiceStmts Typed.
Proof.
  split.
  - intros id. eapply updateShard_keeps; [apply _|reflexivity|]. intros. eapply typed_shard; try reflexivity. known.
  - intros id. apply bump_keeps; [apply _|]. intros now r Hi [H1 H2 H3 H4 H5 H6 H7].
    split; simpl; done.
  - intros. apply upsertTest_keeps; [apply _|by intros t now Ht|]. intros now _. unfold typedTest. simpl. known.
  - intros. apply typed_exec.
  - intros a b t c now. apply (typed_exec).
  - intros id s Hs. eapply updateShard_keeps; [apply _|reflexivity|]. intros. eapply typed_shard; try reflexivity.
    destruct Hs as [-> | ->]; known.
  - intros w. apply claimOldest_keeps; [apply _|]. intros. eapply typed_shard; try reflexivity. known.
  - intros w. apply claimOldest_keeps; [apply _|]. intros. eapply typed_shard; try reflexivity. known.
  - intros w id. eapply updateShard_keeps; [apply _|reflexivity|]. intros. eapply typed_shard; try reflexivity. known.
  - intros id repo req. apply (typed_newRun (newRunRow repo req)); [|done]. intros now. simpl. known.
  - intros id mf. by apply insertPlan_keeps; [apply _|].
  - intros id. eapply updateRun_keeps; [apply _|reflexivity|]. intros. eapply typed_status; try reflexivity. known.
  - intros b i r f msg n. apply upsertCluster_keeps; [apply _| |].
    + intros now c Hb Hc. unfold typedRel, typedOpt, typedCluster in *. simpl. destruct Hb as [-> | ?]; [by rewrite Z.add_0_r|done].
    + by intros now _.
Qed.

#[export] Instance Typed_jobs : JobStmts Typed.
Proof.
  split.
  - intros id g f Hf. apply updateTest_keeps; [apply _|]. intros t. apply typed_test, Hf.
  - intros. by apply insertToken_keeps; [apply _|].
  - intros. by apply consume_keeps; [apply _|].
  - intros. apply assign_keeps; [apply _|]. intros k e _ []. by split.
  - intros id repo c b p n rn. apply (typed_newRun (rerunRow repo c b p n rn)); [|done]. intros now. simpl. known.
  - intros k id. eapply updateRun_keeps; [apply _|reflexivity|]. intros. by apply typed_same.
  - intros id f Hf. apply updateFlake_keeps; [apply _|]. intros r [T1 T2 T3 T4 T5].
    destruct (Hf r) as [[= E1 E2 E3 E4] E5]. split; rewrite ?E1, ?E2, ?E3, ?E4; try done.
    destruct E5 as [E5|E5]; [unfold fits4; by rewrite E5|done].
  - intros id. apply reopen_keeps; [apply _|]. intros now r []. by split.
  - intros F num id d. apply flakeUpsert_keeps; [apply _|].
    intros rate lower upper n cat now o [[E1 E2]%andb_true_iff E3]%andb_true_iff Hn Ho.
    assert (fits4 (fr_github_issue_number (mergeFlake rate lower upper n cat now o))) as Hi.
    { destruct o as [r|]; [apply Ho|done]. }
    by destruct o as [r|]; split.
  - intros h b. apply saveHint_keeps; [apply _|]. intros now c Hc. exact Hc.
  - intros fresh name. apply enableRepo_keeps; [apply _| |]; [intros r Hr; exact Hr|by intros _].
Qed.

(** ** The database *)

(** Every row of the tables satisfies its constraints. *)
Record typedDB (db : DB) : Prop := mkTypedDB {
  ty_runs : map_Forall (fun _ => typedRun) (runs db);
  ty_shards : map_Forall (fun _ => typedShard) (shards db);
  ty_tests : map_Forall (fun _ => typedTest) (tests db);
  ty_execs : map_Forall typedExec (test_executions db);
  ty_repos : map_Forall (fun _ => typedRepo) (repos db);
  ty_clusters : map_Forall (fun _ => typedCluster) (failure_clusters db);
  ty_flakes : map_Forall (fun _ => typedFlake) (flake_records db)
}.

Lemma typedRel_table {K V} `{Countable K} (P : K -> V -> Prop) (t t' : gmap K V) :
  (forall k, typedRel (P k) (t !! k) (t' !! k)) -> map_Forall P t -> map_Forall P t'.
Proof.
  intros Hr Ht k v Hk. pose proof (Hr k) as Hk'. rewrite Hk in Hk'. apply Hk'.
  destruct (t !! k) as [v0|] eqn:E; simpl; [|done]. by apply (Ht k).
Qed.


