(* ===== verification/CheckProps.v ===== *)
(** * The Check Run of a run

    What the observer tells GitHub at each kind of snapshot, and the runs whose
    Check Run is left in progress for ever. *)

From S2P Require Import Prelude GoSort GoStrings GoFmt Model Scheduler Db Effects StateMachine Lifecycle.
From S2P Require Import RunManager RunManagerSafe RunManagerProps RunSvc RunSvcProps ServicesSafe CheckObserver JobsSafe System.

(** ** Counting statuses *)

(** What the rows of [ks] contribute to status [s]. *)
Definition share (l ks : list string) (s : string) : Z := if decide (s ∈ ks) then countOf s l else 0.

Fixpoint total (l ks : list string) : Z :=
  match ks with [] => 0 | k :: ks => countOf k l + total l ks end.

Lemma share_cons l k ks s : k ∉ ks -> share l (k :: ks) s = (if String.eqb s k then countOf k l else 0) + share l ks s.
Proof.
  intros Hk. unfold share. destruct (String.eqb_spec s k) as [->|Hs].
  - rewrite decide_True by left. rewrite decide_False by done. lia.
  - case_decide as H1; case_decide as H2; try lia; exfalso.
    + apply elem_of_cons in H1 as [?|?]; done.
    + apply H1. by right.
Qed.

Lemma addStatus_fold l ks c : NoDup ks ->
  let c' := foldl addStatus c ((fun s => (s, countOf s l)) <$> ks) in
  sc_Total c' = sc_Total c + total l ks
  /\ sc_Done c' = sc_Done c + share l ks "succeeded" + share l ks "failed" + share l ks "lost" + share l ks "preempted"
  /\ sc_Failed c' = sc_Failed c + share l ks "failed"
  /\ sc_Lost c' = sc_Lost c + share l ks "lost" + share l ks "preempted".
Proof.
  intros Hn. revert c. induction Hn as [|k ks Hk Hn IH]; intros c.
  { unfold share. cbn. repeat (rewrite decide_False by apply not_elem_of_nil). lia. }
  cbn [fmap list_fmap foldl total]. destruct (IH (addStatus c (k, countOf k l))) as (-> & -> & -> & ->).
  rewrite !share_cons by done. unfold addStatus.
  repeat (match goal with |- context [if String.eqb k ?s then _ else _] =>
    destruct (String.eqb_spec k s) as [->|?]; [cbn; lia|] end).
  destruct (String.eqb_spec k "lost") as [->|Hl]; [cbn; lia|].
  destruct (String.eqb_spec k "preempted") as [->|Hp]; [cbn; lia|]. cbn [orb sc_Total sc_Done sc_Failed sc_Lost].
  rewrite !(proj2 (String.eqb_neq _ k)) by congruence. lia.
Qed.

Lemma total_cons x l ks : NoDup ks -> total (x :: l) ks = total l ks + (if decide (x ∈ ks) then 1 else 0).
Proof.
  induction 1 as [|k ks Hk Hn IH]; [by rewrite decide_False by apply not_elem_of_nil|]. cbn [total]. rewrite IH.
  unfold countOf. cbn [List.filter]. destruct (String.eqb_spec k x) as [->|Hx].
  - rewrite (decide_True (P := x ∈ x :: ks)) by left. rewrite decide_False by done. cbn [length]. lia.
  - destruct (decide (x ∈ ks)).
    + rewrite decide_True by (by right). lia.
    + rewrite decide_False; [lia|]. by intros [?|?]%elem_of_cons; [subst|].
Qed.

Lemma total_length l ks : NoDup ks -> (forall x, x ∈ l -> x ∈ ks) -> total l ks = Z.of_nat (length l).
Proof.
  intros Hn. induction l as [|x l IH]; intros Hl; [clear; by induction ks|]. rewrite total_cons by done.
  rewrite IH by (intros; apply Hl; by right). rewrite decide_True by (apply Hl; by left). cbn [length]. lia.
Qed.

Lemma share_all l s : share l (remove_dups l) s = countOf s l.
Proof.
  unfold share. case_decide as H; [done|]. unfold countOf. rewrite elem_of_remove_dups in H.
  induction l as [|x l IH]; [done|]. cbn [List.filter]. apply not_elem_of_cons in H as [H1 H2].
  by rewrite (proj2 (String.eqb_neq s x)), <-IH.
Qed.

(** The counts the summaries print are those of the run's shards. *)
Lemma counts_exact runID db (l := shardsOf runID db) :
  let c := foldl addStatus zeroCounts (selectShardStatuses runID db) in
  sc_Total c = Z.of_nat (length l) /\ sc_Failed c = countOf "failed" l
  /\ sc_Done c - sc_Failed c - sc_Lost c = countOf "succeeded" l.
Proof.
  pose proof (addStatus_fold l (remove_dups l) zeroCounts (NoDup_remove_dups l)) as (H1 & H2 & H3 & H4).
  unfold selectShardStatuses. fold l. cbv zeta in *. rewrite H1, H2, H3, H4, !share_all.
  rewrite total_length; [cbn; split_and!; lia|apply NoDup_remove_dups|]. intros x. by rewrite elem_of_remove_dups.
Qed.

(** ** The observer in a quiet world *)

Section observer.
Context (now : Z) (u : nat -> string) (held : gset Z) (ag : AgentState) (c : CheckClient).

Lemma counts_quiet runID db n out :
  shardCountsOf runID (QW db None now u n held out ag)
  = (Ok (foldl addStatus zeroCounts (selectShardStatuses runID db)), QW db None now u n held out ag).
Proof. reflexivity. Qed.

Lemma summary_quiet snap db n out : exists text,
  summary snap (QW db None now u n held out ag) = (Ok text, QW db None now u n held out ag).
Proof. eexists. unfold summary. erewrite bindM_ok; [|apply counts_quiet]. reflexivity. Qed.

Lemma finalSummary_quiet snap db n out : exists text,
  finalSummary snap (QW db None now u n held out ag)
  = (Ok (finalText snap (countOf "succeeded" (shardsOf (sn_ID snap) db)) (Z.of_nat (length (shardsOf (sn_ID snap) db)))
           (countOf "failed" (shardsOf (sn_ID snap) db)), text), QW db None now u n held out ag).
Proof.
  eexists. unfold finalSummary. erewrite bindM_ok; [|apply counts_quiet]. cbv zeta.
  destruct (counts_exact (sn_ID snap) db) as (H1 & H2 & H3). rewrite H1, H2 in *. rewrite H3.
  erewrite bindM_ok; [reflexivity|]. unfold topClusters. erewrite bindM_ok; [|apply tryM_eq, poolQuery_quiet]. reflexivity.
Qed.

Lemma update_quiet repo k run db n out : exists r,
  clientUpdate c repo k run (QW db None now u n held out ag)
  = (r, QW db None now u n held (out ++ [OCheckUpdate repo k run]) ag).
Proof. unfold clientUpdate. erewrite bindM_ok; [|apply emit_quiet]. destruct (cc_Update c repo k run); eexists; reflexivity. Qed.
End observer.

(** ** What GitHub is told *)

(** The conclusion sent with a finished run. *)
Definition conclusionOf (s : RunStatus) : string :=
  if String.eqb s RunFailed then "failure" else if String.eqb s RunCancelled then "canceled" else "success".

Section told.
Context (now : Z) (u : nat -> string) (held : gset Z) (ag : AgentState) (o : CheckObserver) (c : CheckClient).
Hypothesis (Hc : ob_Client o = Some c).

(** The first snapshot seen opens a Check Run, whatever its status. *)
Lemma first_snapshot snap prev db n out : sn_GitHubCheckRunID snap = None ->
  exists run, ck_Status run = "in_progress" /\ ck_HeadSHA run = sn_CommitSHA snap
    /\ (forall k, cc_Create c (sn_RepoFullName snap) run = Ok k ->
          OnRunStateChanged o snap prev (QW db None now u n held out ag)
          = (Ok tt, QW (set_runs (updateRow (sn_ID snap) (fun _ => true)
               (fun r => r_set_updated_at now (r_set_github_check_run_id (Some k) r)) (runs db)).1 db) None now u n held
               (out ++ [OCheckCreate (sn_RepoFullName snap) run]) ag))
    /\ (forall e, cc_Create c (sn_RepoFullName snap) run = Err e -> exists e',
          OnRunStateChanged o snap prev (QW db None now u n held out ag)
          = (Err e', QW db None now u n held (out ++ [OCheckCreate (sn_RepoFullName snap) run]) ag)).
Proof.
  intros Hid. destruct (summary_quiet now u held ag snap db n out) as [text Ht]. unfold OnRunStateChanged. rewrite Hc, Hid.
  set (name := if String.eqb (ob_AppName o) "" then "TEO" else ob_AppName o).
  set (url := trimRightSlash (ob_BaseURL o) +:+ "/runs/" +:+ sn_ID snap).
  set (run := mkCheckRun name (sn_CommitSHA snap) "in_progress" "" (Some now) None url
    (mkCheckOutput "TEO is running this commit's tests" text "")). exists run. split_and!; [done|done| |].
  - intros k Hk. erewrite bindM_ok; [|reflexivity]. erewrite bindM_ok; [|exact Ht].
    erewrite bindM_ok. 2: { unfold wrapM, clientCreate, bindM. cbn. fold run. by rewrite Hk. }
    erewrite bindM_ok; [reflexivity|]. unfold wrapM, poolExec, stmtSetCheckRun, updateRun. cbn.
    by rewrite (surjective_pairing (updateRow _ _ _ _)).
  - intros e He. eexists. erewrite bindM_ok; [|reflexivity]. erewrite bindM_ok; [|exact Ht].
    apply bindM_err. unfold wrapM, clientCreate, bindM. cbn. fold run. by rewrite He.
Qed.

(** A later one completes it when the status is terminal, and says how many of
    the shards passed; else it reports progress. *)
Lemma later_snapshot snap prev db n out k : sn_GitHubCheckRunID snap = Some k ->
  exists run r, OnRunStateChanged o snap prev (QW db None now u n held out ag)
      = (r, QW db None now u n held (out ++ [OCheckUpdate (sn_RepoFullName snap) k run]) ag)
    /\ (isTerminal (sn_Status snap) = true ->
          ck_Status run = "completed" /\ ck_Conclusion run = conclusionOf (sn_Status snap)
          /\ co_Summary (ck_Output run)
             = finalText snap (countOf "succeeded" (shardsOf (sn_ID snap) db)) (Z.of_nat (length (shardsOf (sn_ID snap) db)))
                 (countOf "failed" (shardsOf (sn_ID snap) db)))
    /\ (isTerminal (sn_Status snap) = false -> ck_Status run = "in_progress" /\ ck_Conclusion run = "").
Proof.
  intros Hid. unfold OnRunStateChanged. rewrite Hc, Hid. destruct (isTerminal (sn_Status snap)) eqn:Et.
  - destruct (finalSummary_quiet now u held ag snap db n out) as [text Ht]. unfold finalizeCheck.
    assert (exists conclusion title, (if String.eqb (sn_Status snap) RunFailed then ("failure", "TEO: tests failed")
      else if String.eqb (sn_Status snap) RunCancelled then ("canceled", "TEO: run canceled")
      else ("success", "TEO: all tests passed")) = (conclusion, title) /\ conclusion = conclusionOf (sn_Status snap))
      as (conclusion & title & -> & Hcl).
    { unfold conclusionOf. destruct (String.eqb _ RunFailed); [eauto|]. destruct (String.eqb _ RunCancelled); eauto. }
    set (run := mkCheckRun (if String.eqb (ob_AppName o) "" then "TEO" else ob_AppName o) (sn_CommitSHA snap) "completed"
      conclusion (sn_StartedAt snap) (sn_FinishedAt snap) (trimRightSlash (ob_BaseURL o) +:+ "/runs/" +:+ sn_ID snap)
      (mkCheckOutput title (finalText snap (countOf "succeeded" (shardsOf (sn_ID snap) db))
        (Z.of_nat (length (shardsOf (sn_ID snap) db))) (countOf "failed" (shardsOf (sn_ID snap) db))) text)).
    destruct (update_quiet now u held ag c (sn_RepoFullName snap) k run db n out) as [r Hr]. exists run, r.
    split; [|by split]. erewrite bindM_ok; [|exact Ht]. exact Hr.
  - destruct (summary_quiet now u held ag snap db n out) as [text Ht].
    set (run := mkCheckRun (if String.eqb (ob_AppName o) "" then "TEO" else ob_AppName o) (sn_CommitSHA snap) "in_progress"
      "" (sn_StartedAt snap) (Some now) (trimRightSlash (ob_BaseURL o) +:+ "/runs/" +:+ sn_ID snap)
      (mkCheckOutput ("TEO: " +:+ sn_Status snap) text "")).
    destruct (update_quiet now u held ag c (sn_RepoFullName snap) k run db n out) as [r Hr]. exists run, r.
    split; [|by split]. erewrite bindM_ok; [|reflexivity]. erewrite bindM_ok; [|exact Ht]. exact Hr.
Qed.
End told.

(** ** Left open *)

(** A run in a terminal status is never picked by the reconcile scan again. *)
Lemma terminal_not_selected db db' id r : rtc (sysStep Evolves) db db' -> runs db !! id = Some r ->
  dbTerminal (r_status r) -> forall st, (id, st) ∉ selectWork db'.
Proof.
  intros Hs Hr Ht st Hin. apply sysStep_within in Hs; [|apply _..].
  pose proof (dr_runs _ _ _ Hs id) as H. rewrite Hr in H. simpl in H.
  unfold selectWork in Hin. apply elem_of_take in Hin as (i & Hi & _). apply list_elem_of_lookup_2 in Hi.
  apply list_elem_of_fmap in Hi as ([id' r'] & E & Hin).
  injection E as -> ->. apply selectOrdered_elem in Hin as [Hr' Hst]. cbn in Hr'. rewrite Hr' in H.
  destruct (re_finished _ _ H Ht) as [Hsame _]. apply existsb_exists in Hst as (x & Hx & Hxe%String.eqb_eq).
  rewrite Hsame in Hxe. destruct Ht as [E|[E|E]]; rewrite E in Hxe; subst x; repeat (destruct Hx as [Hx|Hx]; [done|]); done.
Qed.

(** A snapshot with a Check Run completes it exactly when the status is
    "succeeded", "failed" or "canceled", and then reports the shards that
    passed.  The database writes "cancelled", so a cancelled run's Check Run is
    not completed; and a run that failed before its first snapshot gets a Check
    Run that is opened in progress, while the run manager never handles the run
    again. *)
Theorem check_run_left_open now u held ag o c db id r rp n out :
  ob_Client o = Some c -> runs db !! id = Some r -> repos db !! r_repo_id r = Some rp ->
  exists snap, selectSnapshot id db = Some snap /\ sn_Status snap = r_status r
  /\ (forall k prev, r_github_check_run_id r = Some k ->
        exists run res, OnRunStateChanged o snap prev (QW db None now u n held out ag)
            = (res, QW db None now u n held (out ++ [OCheckUpdate (rp_full_name rp) k run]) ag)
          /\ (ck_Status run = "completed" <-> r_status r ∈ ["succeeded"; "failed"; "canceled"])
          /\ (ck_Status run = "completed" -> co_Summary (ck_Output run)
               = finalText snap (countOf "succeeded" (shardsOf id db)) (Z.of_nat (length (shardsOf id db)))
                   (countOf "failed" (shardsOf id db)))
          /\ (r_status r = "cancelled" -> ck_Status run = "in_progress"))
  /\ (forall prev, r_github_check_run_id r = None -> r_status r = "failed" ->
        exists run, ck_Status run = "in_progress" /\ forall k, cc_Create c (rp_full_name rp) run = Ok k ->
          exists db1, OnRunStateChanged o snap prev (QW db None now u n held out ag)
              = (Ok tt, QW db1 None now u n held (out ++ [OCheckCreate (rp_full_name rp) run]) ag)
            /\ (r_status <$> runs db1 !! id) = Some "failed"
            /\ (forall db2 st, rtc (sysStep Evolves) db1 db2 -> (id, st) ∉ selectWork db2)).
Proof.
  intros Hc Hr Hrp. eexists. split; [unfold selectSnapshot; rewrite Hr, Hrp; reflexivity|]. split; [done|]. split.
  - intros k prev Hk. match goal with |- context [OnRunStateChanged o ?s] => set (snap := s) end.
    destruct (later_snapshot now u held ag o c Hc snap prev db n out k Hk) as (run & res & E & Hterm & Hlive).
    assert (isTerminal (r_status r) = true <-> r_status r ∈ ["succeeded"; "failed"; "canceled"]) as Ht.
    { unfold isTerminal. rewrite !orb_true_iff, !String.eqb_eq. set_solver. }
    exists run, res. split; [exact E|]. cbn [snap sn_Status] in Hterm, Hlive.
    destruct (isTerminal (r_status r)) eqn:Eb.
    + destruct (Hterm eq_refl) as (H1 & H2 & H3). split_and!; [rewrite H1; tauto|done|].
      intros Hs. rewrite Hs in Eb. done.
    + destruct (Hlive eq_refl) as [H1 H2]. rewrite H1. split_and!; [|done|done]. split; [done|]. intros Hs. by apply Ht in Hs.
  - intros prev Hk Hst. match goal with |- context [OnRunStateChanged o ?s] => set (snap := s) end.
    destruct (first_snapshot now u held ag o c Hc snap prev db n out Hk) as (run & H1 & _ & H2 & _).
    exists run. split; [done|]. intros k Hok. eexists. split; [exact (H2 k Hok)|]. cbn [set_runs runs].
    rewrite (updateRow_hit _ _ _ _ r) by done. cbn [snap sn_ID]. rewrite lookup_insert_eq. split; [by cbn; rewrite Hst|].
    intros db2 st Hs. eapply terminal_not_selected; [exact Hs|cbn [set_runs runs]; apply lookup_insert_eq|].
    right. left. exact Hst.
Qed.

(** *** A concrete database *)

Module CheckDemo.
Definition meta : run_meta := mkRunMeta None None None None ∅ (Some "no tests") None.
Definition run (status : string) (check : option Z) : run_row :=
  mkRunRow "r" "abc" "main" "api" None None status None None None None 0 meta 1 1 check None None 0 0.
Definition shard (status : string) : shard_row := mkShardRow "run" 0 None 100 status 1 None None 1 None None.
Definition db (status : string) (check : option Z) : DB :=
  set_shards {[ "s" := shard "succeeded"; "f" := shard "failed"; "p" := shard "pending" ]}
    (set_runs {[ "run" := run status check ]} (set_repos {[ "r" := mkRepoRow "github" "o/n" true true ]} emptyDB)).
Definition client : CheckClient := mkCheckClient (fun _ _ => Ok 7) (fun _ _ _ => Ok tt).
Definition obs : CheckObserver := mkCheckObserver (Some client) "https://teo/" "".
End CheckDemo.

Lemma check_run_left_open_witness :
  (exists snap run res, OnRunStateChanged CheckDemo.obs snap RunRunning (QW (CheckDemo.db "succeeded" (Some 7)) None 9 (fun _ => "u") 0 ∅ [] idleAgent)
      = (res, QW (CheckDemo.db "succeeded" (Some 7)) None 9 (fun _ => "u") 0 ∅ [OCheckUpdate "o/n" 7 run] idleAgent)
    /\ ck_Status run = "completed"
    /\ co_Summary (ck_Output run) = "Outcome: **passed** · 1/3 shards passed · 1 failed · — wall-clock")
  /\ (exists snap run db1, OnRunStateChanged CheckDemo.obs snap RunPlanning (QW (CheckDemo.db "failed" None) None 9 (fun _ => "u") 0 ∅ [] idleAgent)
      = (Ok tt, QW db1 None 9 (fun _ => "u") 0 ∅ [OCheckCreate "o/n" run] idleAgent) /\ ck_Status run = "in_progress").
Proof.
  split.
  - destruct (check_run_left_open 9 (fun _ => "u") ∅ idleAgent CheckDemo.obs CheckDemo.client
      (CheckDemo.db "succeeded" (Some 7)) "run" (CheckDemo.run "succeeded" (Some 7)) (mkRepoRow "github" "o/n" true true) 0 [])
      as (snap & Hsn & _ & H & _); [reflexivity|reflexivity|reflexivity|].
    destruct (H 7 RunRunning eq_refl) as (run & res & E & H1 & H2 & _). exists snap, run, res. split; [exact E|].
    assert (ck_Status run = "completed") as Hc. { apply H1. apply (bool_decide_unpack _). vm_compute. exact I. }
    split; [exact Hc|]. rewrite (H2 Hc). clear - Hsn. vm_compute in Hsn. injection Hsn as <-. vm_compute. reflexivity.
  - destruct (check_run_left_open 9 (fun _ => "u") ∅ idleAgent CheckDemo.obs CheckDemo.client
      (CheckDemo.db "failed" None) "run" (CheckDemo.run "failed" None) (mkRepoRow "github" "o/n" true true) 0 [])
      as (snap & _ & _ & _ & H); [reflexivity|reflexivity|reflexivity|].
    destruct (H RunPlanning eq_refl eq_refl) as (run & H1 & H2). destruct (H2 7 eq_refl) as (db1 & E & _).
    exists snap, run, db1. split; [exact E|exact H1].
Defined.
