(* ===== verification/Claims.v ===== *)
(** * No shard is handed out twice

    The three claim paths - the worker's poll, its NATS messages and the gRPC pull -
    against any interleaving of other sessions: a shard that one of them returned
    is never returned again by any. *)

From S2P Require Import Prelude Model Scheduler Db Effects Shards StateMachine Lifecycle.
From S2P Require Import Predictor RunManager RunManagerSafe Worker RunSvc Cluster.
From S2P Require Import GrpcSvc ServicesSafe JobsSafe System.

(** ** The transaction's view *)

Section view.
Context (R : RowRel) `{!RowPreOrder R}.

Lemma DBRel_lockView_tx tx w fw : DBRel R w fw -> DBRel R tx (lockViewDB tx w fw).
Proof.
  intros []. split; intros k; simpl; rewrite lookup_lockView;
    (case_decide as E; [rewrite E; done|reflexivity]).
Qed.

(** The others move the view of an open transaction within the relation. *)
Lemma nextEvent_tx w t : GoodWorld R w -> w_tx w = Some t ->
  exists t', w_tx (nextEvent w).2 = Some t' /\ DBRel R (tx_db t) (tx_db t') /\ tx_aborted t' = tx_aborted t.
Proof.
  intros [He Ht] E. unfold nextEvent. destruct (w_env w) as [|e env]; simpl.
  { exists t. split_and!; [done|reflexivity|done]. }
  apply Forall_cons in He as [He _].
  unfold commitOther. simpl. rewrite E. eexists. split; [reflexivity|]. simpl. split; [|done].
  apply DBRel_lockView_tx. apply He.
Qed.

Lemma nextEvent_notx w : w_tx w = None -> w_tx (nextEvent w).2 = None.
Proof.
  intros E. unfold nextEvent. destruct (w_env w); simpl; [done|].
  unfold commitOther. simpl. by rewrite E.
Qed.

(** A query leaves the view within the relation. *)
Definition ViewKept (w w' : World) : Prop :=
  GoodWorld R w' /\ forall t, w_tx w = Some t -> exists t', w_tx w' = Some t' /\ DBRel R (tx_db t) (tx_db t').

Class Reading {A} (m : M A) : Prop := reading : forall w, GoodWorld R w -> ViewKept w (m w).2.

Lemma ViewKept_refl w : GoodWorld R w -> ViewKept w w.
Proof. intros. split; [done|]. intros t Ht. exists t. split; [done|reflexivity]. Qed.

#[export] Instance retM_reading {A} (a : A) : Reading (retM a).
Proof. intros w Hw. by apply ViewKept_refl. Qed.
#[export] Instance throwM_reading {A} e : Reading (@throwM A e).
Proof. intros w Hw. by apply ViewKept_refl. Qed.
#[export] Instance bindM_reading {A B} (m : M A) (k : A -> M B) :
  Reading m -> (forall a, Reading (k a)) -> Reading (bindM m k).
Proof.
  intros Hm Hk w Hw. unfold bindM. destruct (Hm w Hw) as [Hg Ht].
  destruct (m w) as [[a|e] w'] eqn:E; simpl in *; [|done].
  destruct (Hk a w' Hg) as [Hg' Ht']. split; [done|]. intros t H.
  destruct (Ht t H) as (t1 & H1 & H2). destruct (Ht' t1 H1) as (t2 & H3 & H4).
  exists t2. split; [done|by etransitivity].
Qed.
#[export] Instance tryM_reading {A} (m : M A) : Reading m -> Reading (tryM m).
Proof. intros Hm w Hw. specialize (Hm w Hw). unfold tryM. by destruct (m w). Qed.

#[export] Instance query_reading {A} (f : DB -> A) : Reading (txExec (query f)).
Proof.
  intros w Hw. pose proof (txExec_guaranteed R (query f) (query_keeps R f) w Hw) as [Hg _].
  split; [done|]. intros t Ht. unfold txExec.
  destruct (nextEvent_tx w t Hw Ht) as (t' & H1 & H2 & H3).
  destruct (nextEvent w) as [fault w1]. simpl in *. rewrite H1.
  destruct (tx_aborted t'); simpl; [by exists t'|]. destruct fault; simpl; eauto.
Qed.

#[export] Instance scanRow_reading {A} (m : M (option A)) : Reading m -> Reading (scanRow m).
Proof. intros Hm. unfold scanRow. apply bindM_reading; [done|]. intros []; apply _. Qed.
End view.

#[export] Instance load_reading id : Reading Evolves (loadTestsForShard id).
Proof.
  unfold loadTestsForShard. apply bindM_reading; [apply _|apply _|]. intros r.
  assert (Reading Evolves (row ←! scanRow (txExec (query (selectPlanOfShard id))) ;
    match row with
    | (manifestJSON, index, totalShards) =>
        match decodeManifestTests manifestJSON with
        | Err e => throwM e
        | Ok [] => retM []
        | Ok all => retM (roundRobin totalShards index all)
        end
    end)).
  { apply bindM_reading; [apply _|apply _|]. intros [[d i] t]. repeat case_match; apply _. }
  cbv zeta. repeat case_match; try done; apply _.
Qed.

#[export] Instance loadShardTests_reading id : Reading Evolves (loadShardTests id).
Proof.
  unfold loadShardTests. apply bindM_reading; [apply _|apply _|]. intros [[d i] t]. repeat case_match; apply _.
Qed.

(** ** One claim *)

Definition shardNotPending (id : string) (db : DB) : Prop :=
  exists s, shards db !! id = Some s /\ s_status s <> "pending".

Lemma notPending_evolves id db db' :
  DBRel Evolves db db' -> shardNotPending id db -> shardNotPending id db'.
Proof.
  intros H (s & Hs & Hn). pose proof (dr_shards _ _ _ H id) as Hr. rewrite Hs in Hr. simpl in Hr.
  destruct (shards db' !! id) as [s'|] eqn:E; [|done]. exists s'. split; [done|].
  destruct Hr. auto.
Qed.

(** The new values of a claim are never pending. *)
Definition claims (f : Z -> shard_row -> shard_row) : Prop :=
  forall now s, s_status (f now s) = "running".

Lemma claimOldest_row f now db id s' db' : claims f ->
  claimOldest f now db = (Ok (Some (id, s')), db') ->
  ~ shardNotPending id db /\ shardNotPending id db'.
Proof.
  intros Hf. unfold claimOldest. destruct (claimable db) as [|[id0 s] l] eqn:E; [done|].
  intros [= <- <- <-].
  assert (Hin : (id0, s) ∈ claimable db) by (rewrite E; by left).
  apply selectOrdered_elem in Hin as [Hs Hp]. zbool. split.
  - intros (s1 & H1 & H2). congruence.
  - exists (f now s). simpl. rewrite lookup_insert_eq. split; [done|]. by rewrite Hf.
Qed.

(** What a claim transaction that returned tells: the row was pending before,
    and what remains runs in a transaction that holds it claimed. *)
Lemma claim_tx {A} f (k : option (string * shard_row) -> M A) w a w' : claims f -> StmtKeeps Evolves (claimOldest f) ->
  w_tx w = None -> envWithin Evolves w ->
  withTx (row ←! txExec (claimOldest f) ; k row) w = (Ok a, w') ->
  exists row w2 w3,
    k row w2 = (Ok a, w3) /\ GoodWorld Evolves w2 /\ w' = w_set_tx None w3
    /\ match row with
       | Some (id, _) => ~ shardNotPending id (w_db w)
           /\ exists t, w_tx w2 = Some t /\ shardNotPending id (tx_db t)
       | None => True
       end.
Proof.
  intros Hf Hk Htx Henv. unfold withTx, bindM at 1.
  assert (Hg : GoodWorld Evolves w) by (split; [done|]; intros t; by rewrite Htx).
  unfold txBegin. pose proof (nextEvent_kept Evolves w Hg) as [Hg1 H1].
  destruct (nextEvent w) as [fault w1]. simpl in Hg1, H1.
  destruct fault; [|done..]. cbv beta iota.
  set (wb := w_set_tx _ w1). assert (Hgb : GoodWorld Evolves wb).
  { destruct Hg1. split; [done|]. simpl. intros t [= <-]. simpl. reflexivity. }
  unfold bindM. unfold txExec.
  pose proof (nextEvent_kept Evolves wb Hgb) as [Hg2 H2].
  destruct (nextEvent_tx Evolves wb (mkTx (w_db w1) false) Hgb eq_refl) as (t & Ht & _ & Ha).
  destruct (nextEvent wb) as [fault w2]. simpl in Hg2, H2, Ht, Ha. rewrite Ht, Ha.
  destruct fault; [|done..].
  destruct (claimOldest f (w_now w2) (tx_db t)) as [[row|e] d'] eqn:Ec; [|done].
  set (w2' := w_set_tx (Some (mkTx d' false)) w2).
  destruct (k row w2') as [res w3] eqn:Ek. intros [= -> <-].
  exists row, w2', w3. split_and!; [done| |done|].
  - destruct Hg2 as [He Hd]. split; [done|]. simpl. intros t' [= <-]. simpl.
    etransitivity; [by apply Hd|].
    by eapply Hk.
  - destruct row as [[id s']|]; [|done].
    destruct (claimOldest_row f _ _ _ _ _ Hf Ec) as [Hn Hp]. split.
    + intros Hnp. apply Hn. destruct Hg2 as [_ Hd].
      eapply notPending_evolves; [|exact Hnp]. do 2 (etransitivity; [eassumption|]). by apply Hd.
    + by exists (mkTx d' false).
Qed.

(** The shard a call hands out. *)
Inductive handsOut : forall A, M A -> A -> string -> Prop :=
  | HandsClaim a id run ts : handsOut claim (claimTx a) (Claimed id run ts) id
  | HandsMessage a d id run ts : handsOut claim (claimMessage a d) (Claimed id run ts) id
  | HandsPull w msg : am_ShardId msg <> "" -> handsOut AssignmentMsg (PullAssignment w) msg (am_ShardId msg).
Arguments handsOut {A} _ _ _.

(** Committing a view in which the shard is claimed. *)
Lemma commit_notPending id w t a w' : GoodWorld Evolves w -> w_tx w = Some t -> shardNotPending id (tx_db t) ->
  txCommit w = (Ok a, w') -> shardNotPending id (w_db w').
Proof.
  intros Hw Ht Hn. unfold txCommit.
  destruct (nextEvent_tx Evolves w t Hw Ht) as (t' & H1 & H2 & _).
  destruct (nextEvent w) as [fault w1]. simpl in H1. rewrite H1.
  destruct (tx_aborted t'); [done|]. destruct fault; [|done..]. intros [= _ <-]. simpl.
  by eapply notPending_evolves.
Qed.

(** The statement that claims the shard of a message, on the database the call
    finds. *)
Lemma claimMessage_pending a d id run ts w w' : w_tx w = None -> envWithin Evolves w ->
  claimMessage a d w = (Ok (Claimed id run ts), w') -> ~ shardNotPending id (w_db w) /\ shardNotPending id (w_db w').
Proof.
  intros Htx Henv. assert (Hg : GoodWorld Evolves w) by (split; [done|]; intros t; by rewrite Htx).
  unfold claimMessage, bindM, poolExec. destruct (nextEvent_kept Evolves w Hg) as [_ Hd]. pose proof (nextEvent_notx w Htx) as Ht.
  destruct (nextEvent w) as [fault w1]. cbn [snd] in Hd, Ht. destruct fault; [|done|by destruct (stmtClaimById _ _ _ _) as [[]]].
  unfold stmtClaimById, updateShard, updateRow. destruct (shards (w_db w1) !! sd_ShardID d) as [s|] eqn:Es; [|done].
  destruct (String.eqb_spec (s_status s) "pending") as [Hp|_]; [|done]. cbn. intros [= <- _ _ <-]. split.
  - intros Hn. apply (notPending_evolves _ _ _ Hd) in Hn as (s1 & H1 & H2). congruence.
  - unfold commitOther. rewrite Ht. eexists. cbn. by rewrite lookup_insert_eq.
Qed.

Lemma handsOut_pending {A} (m : M A) a id w w' : handsOut m a id -> w_tx w = None -> envWithin Evolves w ->
  m w = (Ok a, w') -> ~ shardNotPending id (w_db w) /\ shardNotPending id (w_db w').
Proof.
  intros H Htx Henv. destruct H as [ag id run ts|ag d id run ts|wk msg Hne]; intros E; [|by eapply claimMessage_pending|].
  - unfold claimTx in E. apply claim_tx in E as (row & w2 & w3 & Ek & Hg & -> & Hrow);
      [|done|apply ss_claim|done|done].
    destruct row as [[id' s]|].
    + destruct Hrow as [Hn (t & Ht & Hp)].
      destruct (load_reading id' w2 Hg) as [Hg' Hv].
      unfold bindM at 1 in Ek. destruct (loadTestsForShard id' w2) as [[ts'|e] w4]; [|done]. simpl in *.
      destruct (Hv t Ht) as (t' & Ht' & Hd).
      unfold bindM in Ek. destruct (txCommit w4) as [[[]|e] w5] eqn:Ec; [|done].
      injection Ek as -> _ _ <-. split; [done|]. simpl.
      eapply (commit_notPending id w4 t'); [done|done| |done]. by eapply notPending_evolves.
    + unfold bindM in Ek. by destruct (txCommit w2) as [[[]|e] w5].
  - unfold PullAssignment in E. apply claim_tx in E as (row & w2 & w3 & Ek & Hg & -> & Hrow);
      [|done|apply ss_pull|done|done].
    destruct row as [[id' s]|]; [|injection Ek as <- _; done].
    destruct Hrow as [Hn (t & Ht & Hp)].
    destruct (scanRow_reading Evolves _ (query_reading Evolves (selectRepoOfRun (s_run_id s))) w2 Hg) as [Hg1 Hv1].
    unfold bindM at 1 in Ek. destruct (scanRow _ w2) as [[repo|e] w3']; [|done]. simpl in *.
    destruct (Hv1 t Ht) as (t1 & Ht1 & Hd1).
    destruct (loadShardTests_reading id' w3' Hg1) as [Hg' Hv].
    unfold bindM at 1 in Ek. destruct (loadShardTests id' w3') as [[ts'|e] w4]; [|done]. simpl in *.
    destruct (Hv t1 Ht1) as (t' & Ht' & Hd).
    unfold bindM in Ek. destruct (txCommit w4) as [[[]|e] w5] eqn:Ec; [|done].
    injection Ek as <- <-. simpl. split; [done|].
    eapply (commit_notPending id' w4 t'); [done|done| |done].
    eapply notPending_evolves; [exact Hd|]. by eapply notPending_evolves.
Qed.


(** Two shards of one run: the poll takes the older, then a message names the other. *)
Module ClaimDemo.
Definition db : DB :=
  set_shards (<[ "c" := mkShardRow "a" 1 None 1000 "pending" 1 None None 201 None None ]> (shards afterDispatch)) afterDispatch.
Definition polled : result claim * World := claimTx demoAgent (quietWorld db 400 9).
Definition message : ShardDispatch := mkShardDispatch "a" "c" "acme/app" "pytest" [] 1000 0.
Definition received : result claim * World := claimMessage demoAgent message (quietWorld (w_db polled.2) 500 20).
End ClaimDemo.

Lemma pair_of {A B} (p : A * B) a : p.1 = a -> p = (a, p.2).
Proof. destruct p. cbn. by intros ->. Qed.

Lemma quiet_since R db now next : rtc (sysStep R) db (w_db (quietWorld db now next)).
Proof. apply rtc_refl. Qed.
Lemma polled_eq a : ClaimDemo.polled.1 = a -> claimTx demoAgent (quietWorld ClaimDemo.db 400 9) = (a, ClaimDemo.polled.2).
Proof. unfold ClaimDemo.polled. apply pair_of. Qed.
Lemma received_eq a : ClaimDemo.received.1 = a ->
  claimMessage demoAgent ClaimDemo.message (quietWorld (w_db ClaimDemo.polled.2) 500 20) = (a, ClaimDemo.received.2).
Proof. unfold ClaimDemo.received. apply pair_of. Qed.

