(* ===== verification/Insights.v ===== *)
(** * Costs and the cluster map

    internal/cost: the rates and the price of a run; queryCostSummary and
    queryFailureClusters of internal/api/graphql_resolvers.go with the layout of
    the cluster map, and the memoized predictor fields of graphql.go.  Columns
    [NUMERIC(10,2)] are in hundredths; the session's time zone is UTC. *)

From Stdlib Require Import SpecFloat.
From S2P Require Import Prelude GoSort GoRegexp GoStrings GoFloat GoFmt Model Scheduler.
From S2P Require Import Db Effects RunManager RunManagerProps RunSvc Auth Flake Quarantine Graphql Lifecycle RunManagerSafe ServicesSafe JobsSafe System.

(** ** strconv.ParseFloat

    [None] is an error, of syntax or of range. *)

(** [n / d] for positive [n] and [d], correctly rounded. *)
Definition f64_ratio (n d : Z) : float64 :=
  let s := Z.max 0 (Z.log2 d - Z.log2 n + 70) in
  let q := (n * 2 ^ s) / d in
  let sticky := if (n * 2 ^ s) mod d =? 0 then 0 else 1 in
  binary_normalize 53 1024 (2 * q + sticky) (- (s + 1)) false.

Definition hexVal (c : ascii) : option Z :=
  let l := lowerOf c in
  if digit c then Some (digitVal c)
  else if inRange "a" "f" l then Some (Z.of_nat (nat_of_ascii l) - 87) else None.

(** The digits of a mantissa: the value, the digits after the point and whether
    there was a point; [any]: there was a digit. *)
Fixpoint mantissa (hex : bool) (s : text) (v frac : Z) (point any : bool) : Z * Z * bool * text :=
  match s with
  | c :: s' =>
      if lit "_" c then mantissa hex s' v frac point any
      else if lit "." c then if point then (v, frac, any, s) else mantissa hex s' v frac true any
      else match (if hex then hexVal c else if digit c then Some (digitVal c) else None) with
           | Some d => mantissa hex s' (v * (if hex then 16 else 10) + d) (if point then frac + 1 else frac) point true
           | None => (v, frac, any, s)
           end
  | [] => (v, frac, any, s)
  end.

(** The digits of an exponent, capped like Go's. *)
Fixpoint exponentDigits (s : text) (e : Z) : Z * text :=
  match s with
  | c :: s' =>
      if lit "_" c then exponentDigits s' e
      else if digit c then exponentDigits s' (if e <? 10000 then e * 10 + digitVal c else e)
      else (e, s)
  | [] => (e, s)
  end.

Definition signOf (s : text) : bool * text :=
  match s with
  | c :: s' => if lit "+" c then (false, s') else if lit "-" c then (true, s') else (false, s)
  | [] => (false, s)
  end.

(** What follows the mantissa: an exponent, or the end. *)
Definition exponentOf (hex : bool) (s : text) : option (Z * text) :=
  match s with
  | c :: s' =>
      if lit (if hex then "p" else "e") (lowerOf c) then
        let '(neg, s'') := signOf s' in
        match s'' with
        | d :: _ => if digit d then let '(e, rest) := exponentDigits s'' 0 in Some (if neg then - e else e, rest) else None
        | [] => None
        end
      else if hex then None else Some (0, s)
  | [] => if hex then None else Some (0, s)
  end.

(** [underscoreOK]: underscores stand between digits, or after a base prefix. *)
Fixpoint underscores (hex : bool) (prev : ascii) (s : text) : bool :=
  match s with
  | [] => negb (lit "_" prev)
  | c :: s' =>
      if digit c || (hex && match hexVal c with Some _ => true | None => false end) then underscores hex "0" s'
      else if lit "_" c then lit "0" prev && underscores hex "_" s'
      else negb (lit "_" prev) && underscores hex "!" s'
  end.

Definition hexPrefix (s : text) : bool :=
  match s with z :: x :: _ :: _ => lit "0" z && lit "x" (lowerOf x) | _ => false end.

Definition underscoreOK (s : text) : bool :=
  let body := (signOf s).2 in
  if hexPrefix body then underscores true "0" (drop 2 body) else underscores false "^" body.

Definition special (s : text) : option float64 :=
  let '(neg, body) := signOf s in
  let low := ofText (map lowerOf body) in
  if String.eqb low "inf" || String.eqb low "infinity" then Some (S754_infinity neg)
  else if String.eqb (ofText (map lowerOf s)) "nan" then Some S754_nan else None.

Definition f64_isInf (x : float64) : bool := match x with S754_infinity _ => true | _ => false end.
Definition f64_isNaN (x : float64) : bool := match x with S754_nan => true | _ => false end.

Definition ParseFloat (str : string) : option float64 :=
  let s := toText str in
  match special s with
  | Some f => Some f
  | None =>
      let '(neg, body) := signOf s in
      let hex := hexPrefix body in
      let '(v, frac, any, rest) := mantissa hex (if hex then drop 2 body else body) 0 0 false false in
      if negb any then None
      else match exponentOf hex rest with
           | Some (e, []) =>
               if existsb (lit "_") s && negb (underscoreOK s) then None
               else
                 let b := if hex then 2 else 10 in
                 let e := if hex then e - 4 * frac else e - frac in
                 let x := if v =? 0 then S754_zero false
                          else if 0 <=? e then f64_ratio (v * b ^ e) 1 else f64_ratio v (b ^ (- e)) in
                 if f64_isInf x then None else Some (if neg then SFopp x else x)
           | _ => None
           end
  end.

Example ParseFloat_decimal : (ParseFloat "0.012", ParseFloat "1e-2", ParseFloat ".5", ParseFloat "-3", ParseFloat "1_0.5")
  = (Some (f64_const 12 1000), Some (f64_const 1 100), Some (f64_const 1 2), Some (f64_ofZ (-3)), Some (f64_const 21 2)).
Proof. vm_compute. reflexivity. Qed.
Example ParseFloat_others : (ParseFloat "0x1p-2", ParseFloat "1e400", ParseFloat "", ParseFloat "1.2.3", ParseFloat "_1", ParseFloat "+Inf", ParseFloat "nan", ParseFloat "-nan")
  = (Some (f64_const 1 4), None, None, None, None, Some (S754_infinity false), Some S754_nan, None).
Proof. vm_compute. reflexivity. Qed.

(** ** internal/cost *)

Record Pricer := mkPricer {
  SpotPerMin : float64;
  OnDemandPerMin : float64
}.

Definition defaultSpotPerMin : float64 := f64_const 12 1000.
Definition defaultOnDemandPerMin : float64 := f64_const 40 1000.

Definition readFloatEnv (getenv : string -> string) (key : string) (def : float64) : float64 :=
  let v := getenv key in
  if String.eqb v "" then def
  else match ParseFloat v with
       | None => def
       | Some f => if f64_ltb f (f64_ofZ 0) then def else f
       end.

Definition NewFromEnv (getenv : string -> string) : Pricer :=
  mkPricer (readFloatEnv getenv "TEO_COST_SPOT_PER_MIN" defaultSpotPerMin)
    (readFloatEnv getenv "TEO_COST_ONDEMAND_PER_MIN" defaultOnDemandPerMin).

Definition RunCost (p : Pricer) (spotMinutes onDemandMinutes : float64) : float64 :=
  let spotMinutes := if f64_ltb spotMinutes (f64_ofZ 0) then f64_ofZ 0 else spotMinutes in
  let onDemandMinutes := if f64_ltb onDemandMinutes (f64_ofZ 0) then f64_ofZ 0 else onDemandMinutes in
  f64_add (f64_mul spotMinutes (SpotPerMin p)) (f64_mul onDemandMinutes (OnDemandPerMin p)).

(** ** The cost summary *)

Record costWeek := mkCostWeek {
  cw_week_start : string;
  cw_runs : Z;
  cw_spot_minutes : float64;
  cw_ondemand_minutes : float64;
  cw_total_cost : float64;
  cw_cost_per_build : float64;
  cw_spot_share : float64
}.

Definition dayMicros : Z := 86400 * 1000000.
Definition weekMicros : Z := 7 * dayMicros.

(** [date_trunc('week', t)]: the Monday; 5 January 1970 was one. *)
Definition weekStart (t : Z) : Z := t - (t - 4 * dayMicros) mod weekMicros.

(** The runs of the window, with the time they started. *)
Definition pricedRuns (weeks now : Z) (db : DB) : list (Z * run_row) :=
  omap (fun kv : string * run_row =>
    match r_started_at kv.2 with
    | Some t => if now - weeks * weekMicros <=? t then Some (t, kv.2) else None
    | None => None
    end) (map_to_list (runs db)).

Record weekRow := mkWeekRow {
  wk_start : Z;
  wk_runs : Z;
  wk_spot : Z;
  wk_ondemand : Z
}.

Definition weekRuns (rs : list (Z * run_row)) (wk : Z) : list run_row :=
  snd <$> List.filter (fun tr : Z * run_row => weekStart tr.1 =? wk) rs.

Definition weekRowOf (rs : list (Z * run_row)) (wk : Z) : weekRow :=
  let l := weekRuns rs wk in
  mkWeekRow wk (Z.of_nat (length l)) (sumZ (r_spot_minutes <$> l)) (sumZ (r_on_demand_minutes <$> l)).

(** [.. GROUP BY week_start ORDER BY week_start] *)
Definition selectWeeks (weeks : Z) : Stmt (list weekRow) := fun now db =>
  let rs := pricedRuns weeks now db in
  (Ok (weekRowOf rs <$> SliceStable Z.ltb (remove_dups ((fun tr => weekStart tr.1) <$> rs))), db).

Definition costWeekOf (p : Pricer) (w : weekRow) : costWeek :=
  let spotMin := f64_const (wk_spot w) 100 in
  let ondemandMin := f64_const (wk_ondemand w) 100 in
  let total := RunCost p spotMin ondemandMin in
  let perBuild := if 0 <? wk_runs w then f64_div total (f64_ofZ (wk_runs w)) else f64_ofZ 0 in
  let denom := f64_add spotMin ondemandMin in
  let spotShare := if f64_ltb (f64_ofZ 0) denom then f64_div spotMin denom else f64_ofZ 0 in
  mkCostWeek (formatDate (wk_start w)) (wk_runs w) spotMin ondemandMin total perBuild spotShare.

Definition clampWeeks (weeks : Z) : Z := if (weeks <=? 0) || (52 <? weeks) then 8 else weeks.

Definition queryCostSummary (p : Pricer) (weeks : Z) : M (list costWeek) :=
  rows ←! poolExec (selectWeeks (clampWeeks weeks)) ;
  retM (costWeekOf p <$> rows).

(** The field [costSummary]. *)
Definition resolveCostSummary (getenv : string -> string) (weeks : option Z) : M (list costWeek) :=
  queryCostSummary (NewFromEnv getenv) (default 8 weeks).

(** ** The cluster map *)

(** [float8] of a REAL column. *)
Definition f64_of32 (bits : float32) : float64 :=
  let s := Z.testbit bits 31 in
  let ex := Z.land (Z.shiftr bits 23) 255 in
  let m := Z.land bits (2 ^ 23 - 1) in
  if ex =? 255 then (if m =? 0 then S754_infinity s else S754_nan)
  else let n := if ex =? 0 then m else m + 2 ^ 23 in
       binary_normalize 53 1024 (if s then - n else n) (Z.max ex 1 - 150) s.

Record clusterMap := mkClusterMap {
  cl_id : string;
  cl_representative_message : string;
  cl_representative_stack : string;
  cl_occurrences : Z;
  cl_first_seen : Z;
  cl_last_seen : Z;
  cl_stack_fingerprint : string;
  cl_root_cause_hint : option string;
  cl_hint_category : option string;
  cl_hint_confidence : option float64;
  cl_affected_runs : Z;
  cl_x : float64;
  cl_y : float64;
  cl_r : float64;
  cl_category : string
}.

Definition affectedRuns (cluster : string) (db : DB) : list string :=
  remove_dups (omap (fun kv : (string * string * Z) * exec_row =>
    if bool_decide (ex_failure_cluster_id kv.2 = Some cluster) then s_run_id <$> shards db !! kv.1.1.1 else None)
    (map_to_list (test_executions db))).

(** A scanned row; the layout is not there yet. *)
Definition clusterMapOf (db : DB) (kv : string * cluster_row) : clusterMap :=
  let '(id, c) := kv in
  mkClusterMap id (fc_representative_message c) (fc_representative_stack c) (fc_occurrences c) (fc_first_seen c) (fc_last_seen c)
    (fc_stack_fingerprint c) (fc_root_cause_hint c) (fc_hint_category c) (f64_of32 <$> fc_hint_confidence c)
    (Z.of_nat (length (affectedRuns id db))) (f64_ofZ 0) (f64_ofZ 0) (f64_ofZ 0) "".

Definition f64_leb : float64 -> float64 -> bool := SFleb.

Definition clampFloat (v lo hi : float64) : float64 :=
  if f64_isNaN v || f64_isInf v then lo else if f64_ltb v lo then lo else if f64_ltb hi v then hi else v.

(** [t.Sub(u).Seconds()] for times in microseconds: the difference in
    nanoseconds saturates. *)
Definition subSeconds (t u : Z) : float64 :=
  let ns := Z.max (- 2 ^ 63) (Z.min (2 ^ 63 - 1) ((t - u) * 1000)) in
  f64_add (f64_ofZ (Z.quot ns second)) (f64_div (f64_ofZ (Z.rem ns second)) (f64_ofZ second)).

Section layout.
(** [math.Log10] *)
Context (log10 : float64 -> float64).

(** The extremes of the page. *)
Definition maxOccOf (rows : list clusterMap) : Z := foldl (fun m r => if m <? cl_occurrences r then cl_occurrences r else m) 0 rows.
Definition minSeenOf (first : Z) (rows : list clusterMap) : Z := foldl (fun m r => if cl_last_seen r <? m then cl_last_seen r else m) first rows.
Definition maxSeenOf (first : Z) (rows : list clusterMap) : Z := foldl (fun m r => if m <? cl_last_seen r then cl_last_seen r else m) first rows.

Definition layoutX (span : float64) (minSeen seen : Z) : float64 :=
  if f64_ltb (f64_ofZ 0) span then f64_sub (f64_ofZ 1) (f64_div (subSeconds seen minSeen) span) else f64_const 5 10.

Definition layoutY (logMaxOcc : float64) (occ : Z) : float64 :=
  if f64_ltb (f64_ofZ 0) logMaxOcc then
    clampFloat (f64_sub (f64_ofZ 1) (f64_div (log10 (f64_add (f64_ofZ occ) (f64_ofZ 1))) logMaxOcc)) (f64_ofZ 0) (f64_ofZ 1)
  else f64_const 5 10.

Definition layoutR (maxOcc occ : Z) : float64 :=
  if 0 <? maxOcc then
    clampFloat (f64_add (f64_ofZ 9) (f64_mul (f64_ofZ 30) (f64_sqrt (f64_div (f64_ofZ occ) (f64_ofZ maxOcc))))) (f64_ofZ 9) (f64_ofZ 40)
  else f64_ofZ 9.

Definition setLayout (x y r : float64) (category : string) (m : clusterMap) : clusterMap :=
  mkClusterMap (cl_id m) (cl_representative_message m) (cl_representative_stack m) (cl_occurrences m) (cl_first_seen m) (cl_last_seen m)
    (cl_stack_fingerprint m) (cl_root_cause_hint m) (cl_hint_category m) (cl_hint_confidence m) (cl_affected_runs m) x y r category.

Definition computeClusterLayout (rows : list clusterMap) : list clusterMap :=
  match rows with
  | [] => []
  | first :: _ =>
      let minSeen := minSeenOf (cl_last_seen first) rows in
      let maxSeen := maxSeenOf (cl_last_seen first) rows in
      let span := subSeconds maxSeen minSeen in
      let maxOcc := maxOccOf rows in
      let logMaxOcc := log10 (f64_add (f64_ofZ maxOcc) (f64_ofZ 1)) in
      (fun m => setLayout (clampFloat (layoutX span minSeen (cl_last_seen m)) (f64_ofZ 0) (f64_ofZ 1))
         (layoutY logMaxOcc (cl_occurrences m)) (layoutR maxOcc (cl_occurrences m))
         (classifyClusterCategory (cl_representative_message m)) m) <$> rows
  end.

(** [.. ORDER BY fc.last_seen DESC LIMIT 100] *)
Definition queryFailureClusters : M (list clusterMap) :=
  rows ←! poolExec (query (fun db =>
    clusterMapOf db <$> take 100 (selectOrdered (fun _ _ => true) (fun c => - fc_last_seen c) (failure_clusters db)))) ;
  retM (computeClusterLayout rows).
End layout.

(** ** The memoized predictor fields

    The source map of a run carries the computed calibration; the slot is passed
    along. *)

Definition cachedRunPredictor (slot : option (option predictorMap)) (id : string) : M (option predictorMap * option (option predictorMap)) :=
  match slot with
  | Some pred => retM (pred, slot)
  | None => pred ←! queryRunPredictor id ; retM (pred, Some pred)
  end.

(** [runPredictorFieldResolve]; [key] picks the field. *)
Definition runPredictorFieldResolve {V} (slot : option (option predictorMap)) (id : string) (key : predictorMap -> V) :
    M (option V * option (option predictorMap)) :=
  if String.eqb id "" then retM (None, slot)
  else r ←! cachedRunPredictor slot id ; retM (option_map key r.1, r.2).

(** The flat fields of one run in one request, in the order they are resolved; a
    field that fails leaves the slot as it was. *)
Fixpoint predictorFields {V} (slot : option (option predictorMap)) (id : string) (keys : list (predictorMap -> V)) : M (list (result (option V))) :=
  match keys with
  | [] => retM []
  | key :: keys =>
      r ←! tryM (runPredictorFieldResolve slot id key) ;
      rest ←! predictorFields (match r with Ok r => r.2 | Err _ => slot end) id keys ;
      retM (match r with Ok r => Ok r.1 | Err e => Err e end :: rest)
  end.

(** Whatever happens between the database calls, the fields of a run that are
    resolved come from one calibration. *)
Lemma predictorFields_consistent {V} id (keys : list (predictorMap -> V)) slot w l w' :
  id <> "" -> predictorFields slot id keys w = (Ok l, w') ->
  exists pred, (forall p, slot = Some p -> pred = p)
    /\ Forall2 (fun key r => match r with Ok v => v = option_map key pred | Err _ => True end) keys l.
Proof.
  intros Hid%String.eqb_neq. revert slot w l. induction keys as [|k keys IH]; intros slot w l; cbn [predictorFields].
  { intros [= <- _]. exists (default None slot). split; [by intros p ->|constructor]. }
  unfold bindM at 1, tryM, runPredictorFieldResolve. rewrite Hid. unfold bindM at 1, cachedRunPredictor.
  destruct slot as [p|].
  - unfold retM at 1 2. unfold bindM. destruct (predictorFields (Some p) id keys w) as [[rest|e] w1] eqn:E; cbn; rewrite E; [|done].
    intros [= <- ->]. apply IH in E as (pred & Hp & HF). exists pred. split; [done|]. constructor; [by rewrite (Hp p)|done].
  - unfold bindM at 1. destruct (queryRunPredictor id w) as [[p|e] w1]; cbn; unfold bindM.
    + destruct (predictorFields (Some p) id keys w1) as [[rest|e] w2] eqn:E; [|done]. intros [= <- ->].
      apply IH in E as (pred & Hp & HF). exists pred. split; [done|]. constructor; [by rewrite (Hp p)|done].
    + destruct (predictorFields None id keys w1) as [[rest|e'] w2] eqn:E; [|done]. intros [= <- ->].
      apply IH in E as (pred & Hp & HF). exists pred. split; [done|]. by constructor.
Qed.

(** * The cost summary accounts for every run *)

Definition startedIn (weeks now : Z) (db : DB) (t : Z) (r : run_row) : Prop :=
  exists id, runs db !! id = Some r /\ r_started_at r = Some t /\ now - weeks * weekMicros <= t.

Lemma pricedRuns_elem weeks now db t r : (t, r) ∈ pricedRuns weeks now db <-> startedIn weeks now db t r.
Proof.
  unfold pricedRuns, startedIn. rewrite list_elem_of_omap. split.
  - intros ([id r'] & Hin%elem_of_map_to_list & H). cbn [snd] in H. destruct (r_started_at r') as [t'|] eqn:E; [|done].
    destruct (Z.leb_spec (now - weeks * weekMicros) t'); [|done]. injection H as -> ->. by exists id.
  - intros (id & Hr & Ht & Hw). exists (id, r). split; [by apply elem_of_map_to_list|]. cbn [snd]. rewrite Ht.
    by apply Z.leb_le in Hw as ->.
Qed.

Lemma weekStart_bounds t : weekStart t <= t < weekStart t + weekMicros.
Proof. unfold weekStart. pose proof (Z.mod_pos_bound (t - 4 * dayMicros) weekMicros eq_refl). lia. Qed.

Lemma weekStart_monday t : (weekStart t - 4 * dayMicros) mod weekMicros = 0.
Proof.
  unfold weekStart. replace (t - _ - 4 * dayMicros) with (((t - 4 * dayMicros) / weekMicros) * weekMicros).
  - by apply Z.mod_mul.
  - pose proof (Z.div_mod (t - 4 * dayMicros) weekMicros ltac:(done)). lia.
Qed.

(** Sums by group: distinct keys that cover the elements. *)
Section groups.
Context {A : Type} (key : A -> Z) (f : A -> Z).

Definition groupSum (l : list A) (k : Z) : Z := sumZ (f <$> List.filter (fun x => key x =? k) l).

Lemma groupSum_cons x l ks : NoDup ks -> key x ∈ ks ->
  sumZ (groupSum (x :: l) <$> ks) = f x + sumZ (groupSum l <$> ks).
Proof.
  intros Hnd Hx. assert (forall k, groupSum (x :: l) k = (if key x =? k then f x else 0) + groupSum l k) as Hc.
  { intros k. unfold groupSum. cbn [List.filter]. by destruct (key x =? k). }
  assert (forall ks, key x ∉ ks -> sumZ (groupSum (x :: l) <$> ks) = sumZ (groupSum l <$> ks)) as Hn.
  { clear Hnd Hx ks. induction ks as [|k ks IH]; [done|]. intros [Hk Hin]%not_elem_of_cons. rewrite !fmap_cons, !sumZ_cons, Hc, IH by done.
    apply Z.eqb_neq in Hk as ->. lia. }
  induction Hnd as [|k ks Hk Hnd IH]; [by apply elem_of_nil in Hx|]. rewrite !fmap_cons, !sumZ_cons, Hc.
  apply elem_of_cons in Hx as [<-|Hx]; [rewrite Hn, Z.eqb_refl by done; lia|].
  rewrite IH by done. destruct (Z.eqb_spec (key x) k) as [<-|]; [done|]. lia.
Qed.

Lemma groupSum_total l ks : NoDup ks -> (forall x, x ∈ l -> key x ∈ ks) -> sumZ (groupSum l <$> ks) = sumZ (f <$> l).
Proof.
  intros Hnd. induction l as [|x l IH]; intros H.
  - clear. induction ks as [|k ks IH]; [done|]. rewrite fmap_cons, sumZ_cons, IH. done.
  - rewrite groupSum_cons, IH; [done| |done|apply H; by left]. intros y Hy. apply H. by right.
Qed.
End groups.

Lemma weekStart_unique w t : (w - 4 * dayMicros) mod weekMicros = 0 -> w <= t < w + weekMicros -> weekStart t = w.
Proof.
  intros Hm Ht. unfold weekStart. apply Z.div_exact in Hm; [|done].
  rewrite <-(Z.mod_unique (t - 4 * dayMicros) weekMicros ((w - 4 * dayMicros) / weekMicros) (t - w)); [lia| |]; lia.
Qed.

Lemma StronglySorted_NoDup_lt l : StronglySorted (notAfter Z.ltb) l -> NoDup l -> StronglySorted Z.lt l.
Proof.
  induction 1 as [|x l Hl IH Hx]; [by constructor|]. intros [Hn Hnd]%NoDup_cons. constructor; [by apply IH|].
  apply Forall_forall. intros y Hy. rewrite Forall_forall in Hx. specialize (Hx _ Hy). unfold notAfter in Hx. apply Z.ltb_ge in Hx.
  assert (x <> y) by (by intros ->). lia.
Qed.

Lemma ltb_weakOrder : WeakOrder Z.ltb.
Proof. split; unfold notAfter; intros *; rewrite ?Z.ltb_lt, ?Z.ltb_ge; lia. Qed.

(** The rows of the query, with the week of each run. *)
Definition weekRows (rs : list (Z * run_row)) : list weekRow :=
  weekRowOf rs <$> SliceStable Z.ltb (remove_dups ((fun tr => weekStart tr.1) <$> rs)).

Lemma weekRowOf_sums rs wk :
  wk_runs (weekRowOf rs wk) = groupSum (fun tr => weekStart tr.1) (fun _ => 1) rs wk
  /\ wk_spot (weekRowOf rs wk) = groupSum (fun tr => weekStart tr.1) (fun tr => r_spot_minutes tr.2) rs wk
  /\ wk_ondemand (weekRowOf rs wk) = groupSum (fun tr => weekStart tr.1) (fun tr => r_on_demand_minutes tr.2) rs wk.
Proof.
  unfold weekRowOf, groupSum, weekRuns. cbn [wk_runs wk_spot wk_ondemand]. rewrite <-!list_fmap_compose. split_and!; [|done..].
  rewrite length_fmap. induction (List.filter _ rs) as [|x l IH]; [done|]. rewrite fmap_cons, sumZ_cons, <-IH. cbn [length]. lia.
Qed.

Lemma weeks_elem rs wk : wk ∈ SliceStable Z.ltb (remove_dups ((fun tr : Z * run_row => weekStart tr.1) <$> rs)) <-> exists tr, tr ∈ rs /\ weekStart tr.1 = wk.
Proof. rewrite SliceStable_perm, elem_of_remove_dups, list_elem_of_fmap. naive_solver. Qed.

Lemma weeks_NoDup rs : NoDup (SliceStable Z.ltb (remove_dups ((fun tr : Z * run_row => weekStart tr.1) <$> rs))).
Proof. rewrite SliceStable_perm. apply NoDup_remove_dups. Qed.

Lemma weekRows_total (g : weekRow -> Z) (f : Z * run_row -> Z) rs :
  (forall wk, g (weekRowOf rs wk) = groupSum (fun tr => weekStart tr.1) f rs wk) ->
  sumZ (g <$> weekRows rs) = sumZ (f <$> rs).
Proof.
  intros H. unfold weekRows. rewrite <-list_fmap_compose. etransitivity; [|apply groupSum_total; [apply weeks_NoDup|]].
  - f_equal. apply list_fmap_ext. intros _ wk _. apply H.
  - intros tr Htr. apply weeks_elem. by exists tr.
Qed.

(** The cost summary lists the weeks of the window in order, each beginning on
    a Monday and with at least one run; it counts in each exactly the runs that
    started in it, every run started in the window has its week, and over the
    weeks the runs and the minutes add up to those of the window. *)
Theorem cost_summary_accounts p weeks db now u n held out ag (rs := pricedRuns (clampWeeks weeks) now db) :
  exists rows, queryCostSummary p weeks (QW db None now u n held out ag) = (Ok (costWeekOf p <$> rows), QW db None now u n held out ag)
  /\ StronglySorted (fun a b => wk_start a < wk_start b) rows
  /\ (forall w, w ∈ rows -> (wk_start w - 4 * dayMicros) mod weekMicros = 0 /\ 0 < wk_runs w
       /\ wk_runs w = Z.of_nat (length (List.filter (fun tr => (wk_start w <=? tr.1) && (tr.1 <? wk_start w + weekMicros)) rs)))
  /\ (forall t r, startedIn (clampWeeks weeks) now db t r -> exists w, w ∈ rows /\ wk_start w <= t < wk_start w + weekMicros)
  /\ sumZ (wk_runs <$> rows) = Z.of_nat (length rs)
  /\ sumZ (wk_spot <$> rows) = sumZ ((fun tr => r_spot_minutes tr.2) <$> rs)
  /\ sumZ (wk_ondemand <$> rows) = sumZ ((fun tr => r_on_demand_minutes tr.2) <$> rs).
Proof.
  exists (weekRows rs). split; [done|]. split_and!.
  - assert (StronglySorted Z.lt (SliceStable Z.ltb (remove_dups ((fun tr : Z * run_row => weekStart tr.1) <$> rs)))) as Hs.
    { apply StronglySorted_NoDup_lt; [apply weakOrder_sorted, ltb_weakOrder|apply weeks_NoDup]. }
    unfold weekRows. induction Hs as [|x l Hl IH Hx]; [constructor|]. rewrite fmap_cons. constructor; [done|].
    apply Forall_fmap. eapply Forall_impl; [exact Hx|]. done.
  - intros w (wk & -> & (tr & Htr & <-)%weeks_elem)%list_elem_of_fmap. unfold weekRowOf, weekRuns. cbn [wk_start wk_runs].
    split; [apply weekStart_monday|]. rewrite length_fmap.
    assert (List.filter (fun x : Z * run_row => weekStart x.1 =? weekStart tr.1) rs
      = List.filter (fun x => (weekStart tr.1 <=? x.1) && (x.1 <? weekStart tr.1 + weekMicros)) rs) as <-.
    { apply List.filter_ext. intros x. apply eq_true_iff_eq. rewrite Z.eqb_eq, andb_true_iff, Z.leb_le, Z.ltb_lt.
      split; [intros <-; apply weekStart_bounds|intros ?; apply weekStart_unique; [apply weekStart_monday|done]]. }
    split; [|done]. assert (tr ∈ List.filter (fun x : Z * run_row => weekStart x.1 =? weekStart tr.1) rs) as Hin.
    { apply list_elem_of_In, filter_In. split; [by apply list_elem_of_In|apply Z.eqb_refl]. }
    destruct (List.filter _ rs); [by apply elem_of_nil in Hin|]. cbn [length]. lia.
  - intros t r Ht%pricedRuns_elem. exists (weekRowOf rs (weekStart t)). split; [|apply weekStart_bounds].
    apply list_elem_of_fmap. eexists. split; [done|]. apply weeks_elem. by exists (t, r).
  - rewrite (weekRows_total wk_runs (fun _ => 1)) by (intros; apply weekRowOf_sums). clear. induction rs as [|x l IH]; [done|].
    rewrite fmap_cons, sumZ_cons, IH. cbn [length]. lia.
  - apply (weekRows_total wk_spot). intros. apply weekRowOf_sums.
  - apply (weekRows_total wk_ondemand). intros. apply weekRowOf_sums.
Qed.

(** ** Nobody records minutes *)

(** However the services are called, no run ever has worker minutes: the summary
    counts runs and prices each week at zero. *)
Theorem costs_stay_zero db db' p weeks now u n held out ag l w' sm se dm de :
  rtc (sysStep NoFinalize) db db' ->
  (forall id r, runs db !! id = Some r -> r_spot_minutes r = 0 /\ r_on_demand_minutes r = 0) ->
  SpotPerMin p = S754_finite false sm se -> OnDemandPerMin p = S754_finite false dm de ->
  queryCostSummary p weeks (QW db' None now u n held out ag) = (Ok l, w') ->
  Forall (fun c => cw_spot_minutes c = f64_ofZ 0 /\ cw_ondemand_minutes c = f64_ofZ 0 /\ cw_total_cost c = f64_ofZ 0
    /\ cw_spot_share c = f64_ofZ 0) l.
Proof.
  intros Hs H0 Hsp Hod. apply sysStep_within in Hs; [|apply _..]. intros [= <- _].
  assert (forall t r, (t, r) ∈ pricedRuns (clampWeeks weeks) now db' -> r_spot_minutes r = 0 /\ r_on_demand_minutes r = 0) as Hz.
  { intros t r (id & Hr & _)%pricedRuns_elem. pose proof (dr_runs _ _ _ Hs id) as [_ H]. rewrite Hr in H. apply H.
    destruct (runs db !! id) as [r0|] eqn:E; [|done]. by apply (H0 id). }
  assert (forall f : run_row -> Z, (forall t r, (t, r) ∈ pricedRuns (clampWeeks weeks) now db' -> f r = 0) ->
    forall wk, sumZ (f <$> weekRuns (pricedRuns (clampWeeks weeks) now db') wk) = 0) as Hsum.
  { intros f Hf wk. unfold weekRuns. rewrite <-list_fmap_compose.
    assert (forall tr, tr ∈ List.filter (fun tr : Z * run_row => weekStart tr.1 =? wk) (pricedRuns (clampWeeks weeks) now db') -> f tr.2 = 0) as Hl.
    { intros [t r] [H _]%list_elem_of_In%filter_In. apply (Hf t). by apply list_elem_of_In. }
    induction (List.filter _ _) as [|x k IH]; [done|]. rewrite fmap_cons, sumZ_cons, IH by (intros; apply Hl; by right).
    cbn. rewrite Hl by left. done. }
  apply Forall_forall. intros c (w & -> & (wk & -> & _)%list_elem_of_fmap)%list_elem_of_fmap.
  unfold costWeekOf, weekRowOf. cbn [wk_spot wk_ondemand wk_runs wk_start].
  rewrite (Hsum r_spot_minutes), (Hsum r_on_demand_minutes) by (intros; by eapply Hz).
  unfold RunCost. rewrite Hsp, Hod. done.
Qed.

Lemma costs_stay_zero_witness :
  exists l, (queryCostSummary (NewFromEnv (fun _ => "")) 8 (QW afterCancel None 900 (fun _ => "") 0 ∅ [] idleAgent)).1 = Ok l
    /\ Forall (fun c => cw_total_cost c = f64_ofZ 0) l /\ l <> [].
Proof.
  destruct (queryCostSummary (NewFromEnv (fun _ => "")) 8 (QW afterCancel None 900 (fun _ => "") 0 ∅ [] idleAgent)) as [[l|e] w'] eqn:E; [|discriminate E].
  exists l. split; [done|]. split.
  - eapply Forall_impl; [eapply (costs_stay_zero afterCreate _ (NewFromEnv (fun _ => EmptyString))); [exact (demo_steps NoFinalize)| |reflexivity|reflexivity|exact E]|].
    + assert (H : map_Forall (fun _ r => r_spot_minutes r = 0 /\ r_on_demand_minutes r = 0) (runs afterCreate)).
      { apply (bool_decide_unpack _). vm_compute. exact I. }
      exact H.
    + by intros c (_ & _ & ? & _).
  - apply (f_equal (fun x => match x.1 with Ok l => length l | Err _ => 0%nat end)) in E. vm_compute in E. by destruct l.
Defined.

(** * The cluster map stays on the page *)

Lemma SFcompare_swap a b : SFcompare b a = CompOpp <$> SFcompare a b.
Proof.
  destruct a as [s|s| |s m e], b as [s'|s'| |s' m' e']; try done; try (by destruct s, s'); try (by destruct s'); try (by destruct s).
  cbn. destruct s, s'; try done; rewrite (Z.compare_antisym e e'); destruct (e ?= e')%Z; cbn; try done;
    by rewrite (Pos.compare_cont_antisym m m' Eq).
Qed.

Lemma SFcompare_nan a b : a <> S754_nan -> b <> S754_nan -> is_Some (SFcompare a b).
Proof. destruct a, b; try done; intros _ _; cbn; eauto; repeat case_match; eauto. Qed.

Lemma not_ltb_leb a b : a <> S754_nan -> b <> S754_nan -> f64_ltb a b = false -> f64_leb b a = true.
Proof.
  intros Ha Hb. unfold f64_ltb, f64_leb, SFltb, SFleb. rewrite (SFcompare_swap a b).
  destruct (SFcompare_nan a b Ha Hb) as [c ->]. by destruct c.
Qed.

Definition within (lo hi v : float64) : Prop := f64_leb lo v = true /\ f64_leb v hi = true.

Lemma clampFloat_within v lo hi : lo <> S754_nan -> hi <> S754_nan -> f64_leb lo lo = true -> f64_leb lo hi = true -> f64_leb hi hi = true ->
  within lo hi (clampFloat v lo hi).
Proof.
  intros Hlo Hhi H1 H2 H3. unfold clampFloat, within. destruct (f64_isNaN v) eqn:En; [done|]. destruct (f64_isInf v); [done|]. cbn [orb].
  assert (v <> S754_nan) by (by intros ->). destruct (f64_ltb v lo) eqn:E1; [done|]. destruct (f64_ltb hi v) eqn:E2; [done|].
  split; by apply not_ltb_leb.
Qed.

Lemma layoutY_within log10 logMaxOcc occ : within (f64_ofZ 0) (f64_ofZ 1) (layoutY log10 logMaxOcc occ).
Proof. unfold layoutY. destruct (f64_ltb _ _); [by apply clampFloat_within|done]. Qed.

Lemma layoutR_within maxOcc occ : within (f64_ofZ 9) (f64_ofZ 40) (layoutR maxOcc occ).
Proof. unfold layoutR. destruct (0 <? maxOcc); [by apply clampFloat_within|done]. Qed.

(** The first component of a fold that keeps the smaller. *)
Lemma minSeenOf_le first rows m : m ∈ rows -> minSeenOf first rows <= cl_last_seen m.
Proof.
  assert (forall rows a, minSeenOf a rows <= a) as Ha.
  { clear. induction rows as [|r rows IH]; intros a; [cbn; lia|]. cbn. specialize (IH (if cl_last_seen r <? a then cl_last_seen r else a)).
    unfold minSeenOf in IH. destruct (Z.ltb_spec (cl_last_seen r) a); lia. }
  revert first. induction rows as [|r rows IH]; intros first; [by intros ?%elem_of_nil|]. intros [->|Hm]%elem_of_cons; [|by apply IH].
  cbn. specialize (Ha rows (if cl_last_seen r <? first then cl_last_seen r else first)). unfold minSeenOf in Ha.
  destruct (Z.ltb_spec (cl_last_seen r) first); lia.
Qed.

Lemma minSeenOf_elem first rows : minSeenOf first rows = first \/ exists m, m ∈ rows /\ minSeenOf first rows = cl_last_seen m.
Proof.
  revert first. induction rows as [|r rows IH]; intros first; [by left|]. cbn.
  destruct (IH (if cl_last_seen r <? first then cl_last_seen r else first)) as [H|(m & Hm & H)]; unfold minSeenOf in H; rewrite H.
  - destruct (cl_last_seen r <? first); [right; exists r; split; [by left|done]|by left].
  - right. exists m. split; [by right|done].
Qed.

(** A page row and the cluster it shows. *)
Definition shows (m m' : clusterMap) : Prop :=
  exists x y r, m' = setLayout x y r (classifyClusterCategory (cl_representative_message m)) m
    /\ within (f64_ofZ 0) (f64_ofZ 1) x /\ within (f64_ofZ 0) (f64_ofZ 1) y /\ within (f64_ofZ 9) (f64_ofZ 40) r.

Lemma cl_x_setLayout x y r c m : cl_x (setLayout x y r c m) = x.
Proof. done. Qed.

Lemma oldest_right span minSeen : f64_ltb (f64_ofZ 0) span = true ->
  clampFloat (layoutX span minSeen minSeen) (f64_ofZ 0) (f64_ofZ 1) = f64_ofZ 1.
Proof.
  intros Hs. unfold layoutX. rewrite Hs. assert (subSeconds minSeen minSeen = f64_ofZ 0) as ->.
  { unfold subSeconds. by rewrite Z.sub_diag. }
  assert (f64_div (f64_ofZ 0) span = f64_ofZ 0) as ->; [|reflexivity].
  destruct span as [s|s| |s m e]; try done; by destruct s.
Qed.

(** The cluster page shows the clusters it read in the order it read them, each
    with its category and with coordinates that are numbers on the map - x and y
    between 0 and 1, the radius from 9 to 40, whatever the logarithm does - and
    the cluster seen longest ago sits at the right edge, unless the page spans no
    time. *)
Theorem computeClusterLayout_on_map log10 rows :
  Forall2 shows rows (computeClusterLayout log10 rows)
  /\ forall i m m', rows !! i = Some m -> computeClusterLayout log10 rows !! i = Some m' ->
       (forall k, k ∈ rows -> cl_last_seen m <= cl_last_seen k) ->
       cl_x m' = (if f64_ltb (f64_ofZ 0) (subSeconds (maxSeenOf (cl_last_seen m) rows) (cl_last_seen m)) then f64_ofZ 1 else f64_const 5 10).
Proof.
  destruct rows as [|first rest]; [split; [constructor|done]|]. set (rows := first :: rest).
  assert (computeClusterLayout log10 rows =
    (fun m => setLayout (clampFloat (layoutX (subSeconds (maxSeenOf (cl_last_seen first) rows) (minSeenOf (cl_last_seen first) rows))
           (minSeenOf (cl_last_seen first) rows) (cl_last_seen m)) (f64_ofZ 0) (f64_ofZ 1))
         (layoutY log10 (log10 (f64_add (f64_ofZ (maxOccOf rows)) (f64_ofZ 1))) (cl_occurrences m)) (layoutR (maxOccOf rows) (cl_occurrences m))
         (classifyClusterCategory (cl_representative_message m)) m) <$> rows) as -> by reflexivity.
  split.
  - apply Forall2_fmap_r, Forall_Forall2_diag, Forall_forall. intros m _. eexists _, _, _. split; [reflexivity|].
    split_and!; [by apply clampFloat_within|apply layoutY_within|apply layoutR_within].
  - intros i m m' Hm. rewrite list_lookup_fmap, Hm. intros Hm' Hmin. apply (inj Some) in Hm' as <-. rewrite cl_x_setLayout.
    assert (minSeenOf (cl_last_seen first) rows = cl_last_seen m) as Heq.
    { pose proof (minSeenOf_le (cl_last_seen first) rows m (list_elem_of_lookup_2 _ _ _ Hm)) as Hle.
      destruct (minSeenOf_elem (cl_last_seen first) rows) as [H1|(k & Hk & H1)]; rewrite H1 in Hle |- *.
      - specialize (Hmin first ltac:(by left)). lia.
      - specialize (Hmin k Hk). lia. }
    assert (maxSeenOf (cl_last_seen m) rows = maxSeenOf (cl_last_seen first) rows) as ->.
    { unfold rows. cbn [maxSeenOf foldl]. specialize (Hmin first ltac:(by left)).
      rewrite Z.ltb_irrefl. f_equal. destruct (Z.ltb_spec (cl_last_seen m) (cl_last_seen first)); lia. }
    rewrite Heq. destruct (f64_ltb (f64_ofZ 0) _) eqn:E; [by apply oldest_right|]. unfold layoutX. by rewrite E.
Qed.

Lemma computeClusterLayout_on_map_witness :
  let old := mkClusterMap "a" "panic: boom" "" 3 0 1000000 "" None None None 1 (f64_ofZ 0) (f64_ofZ 0) (f64_ofZ 0) "" in
  let new := mkClusterMap "b" "timeout" "" 9 0 5000000 "" None None None 1 (f64_ofZ 0) (f64_ofZ 0) (f64_ofZ 0) "" in
  exists a b, computeClusterLayout (fun _ => f64_ofZ 1) [new; old] = [b; a] /\ cl_x a = f64_ofZ 1 /\ cl_category a = "panic".
Proof.
  cbv zeta. match goal with |- exists a b, computeClusterLayout ?log ?rows = _ /\ _ =>
    destruct (computeClusterLayout_on_map log rows) as [_ H]; destruct (computeClusterLayout log rows) as [|b [|a [|]]] eqn:E; try discriminate E end.
  exists a, b. split; [done|]. split.
  - rewrite (H 1%nat _ a eq_refl eq_refl); [vm_compute; reflexivity|]. intros k [->|[->|Hk%elem_of_nil]%elem_of_cons]%elem_of_cons; cbn; [lia|lia|done].
  - apply (f_equal (fun l => match l with [_; a] => cl_category a | _ => "" end)) in E. vm_compute in E. symmetry. exact E.
Defined.

(** ** The rates of the environment

    Values that no rate can be are not refused. *)

Lemma rates_admit_nan getenv : getenv "TEO_COST_SPOT_PER_MIN" = "nan" -> forall s d, RunCost (NewFromEnv getenv) s d = S754_nan.
Proof.
  intros H s d. unfold RunCost, NewFromEnv, readFloatEnv. cbn [SpotPerMin]. rewrite H.
  assert (ParseFloat "nan" = Some S754_nan) as -> by (vm_compute; reflexivity).
  change (String.eqb "nan" "") with false. cbn [f64_ltb SFltb SFcompare]. cbv iota.
  match goal with |- f64_add (f64_mul ?a S754_nan) ?b = _ => assert (f64_mul a S754_nan = S754_nan) as -> by (by destruct a) end. reflexivity.
Qed.
