(* ===== verification/GraphqlSchema.v ===== *)
(** * internal/api: the GraphQL schema

    graphql.go as data: the object types with the types, arguments and resolvers
    of their fields; the document that [schemaHandler] of server.go serves, read
    by a parser of the schema language; and the maps of columns the field
    resolvers look into. *)

From S2P Require Import Prelude GoBytes GoRegexp GoStrings.

Inductive gqlType :=
  | TID | TString | TInt | TFloat
  | TNamed (name : string)
  | TList (t : gqlType)
  | TNonNull (t : gqlType).

#[export] Instance gqlType_eq_dec : EqDecision gqlType.
Proof. solve_decision. Defined.

(** A field without a resolver looks up its own name; [mapResolve] another key;
    the others are functions. *)
Inductive resolver := RDefault | RMap (key : string) | RFunc.

Record argDef := mkArg {
  ag_Name : string;
  ag_Type : gqlType;
  ag_Default : option Z
}.

Record fieldDef := mkField {
  fd_Name : string;
  fd_Type : gqlType;
  fd_Args : list argDef;
  fd_Resolve : resolver
}.

Record objectDef := mkObjectDef {
  ob_Name : string;
  ob_Fields : list fieldDef
}.

#[export] Instance argDef_eq_dec : EqDecision argDef.
Proof. solve_decision. Defined.

(** ** [buildSchemaWithHub] *)

Definition shardType : objectDef := mkObjectDef "Shard" [
  mkField "id" TID [] RDefault;
  mkField "index" TInt [] RDefault;
  mkField "status" TString [] RDefault;
  mkField "workerId" TString [] (RMap "worker_id");
  mkField "predictedDurationMs" TInt [] (RMap "predicted_duration_ms");
  mkField "actualDurationMs" TInt [] (RMap "actual_duration_ms");
  mkField "testCount" TInt [] (RMap "test_count");
  mkField "startedAt" TString [] (RMap "started_at");
  mkField "finishedAt" TString [] (RMap "finished_at");
  mkField "deltaMs" TInt [] RFunc;
  mkField "predictionConfidence" TFloat [] (RMap "prediction_confidence");
  mkField "modelVersion" TString [] (RMap "model_version")].

Definition runPredictorType : objectDef := mkObjectDef "RunPredictor" [
  mkField "mae" TFloat [] RDefault;
  mkField "rho" TFloat [] RDefault;
  mkField "modelVersion" TString [] (RMap "model_version");
  mkField "p50DeltaMs" TInt [] (RMap "p50_delta_ms");
  mkField "p95DeltaMs" TInt [] (RMap "p95_delta_ms");
  mkField "sampleCount" TInt [] (RMap "sample_count");
  mkField "confidence" TFloat [] RDefault].

Definition runType : objectDef := mkObjectDef "Run" [
  mkField "id" TID [] RDefault;
  mkField "repoFullName" TString [] (RMap "repo_full_name");
  mkField "branch" TString [] RDefault;
  mkField "commitSha" TString [] (RMap "commit_sha");
  mkField "status" TString [] RDefault;
  mkField "totalDurationMs" TInt [] (RMap "total_duration_ms");
  mkField "preemptionCount" TInt [] (RMap "preemption_count");
  mkField "startedAt" TString [] (RMap "started_at");
  mkField "finishedAt" TString [] (RMap "finished_at");
  mkField "shards" (TList (TNamed "Shard")) [] RFunc;
  mkField "failedTestCount" TInt [] RFunc;
  mkField "predictor" (TNamed "RunPredictor") [] RFunc;
  mkField "predictorMae" TFloat [] RFunc;
  mkField "predictorRho" TFloat [] RFunc;
  mkField "modelVersion" TString [] RFunc].

Definition failureClusterType : objectDef := mkObjectDef "FailureCluster" [
  mkField "id" TID [] RDefault;
  mkField "representativeMessage" TString [] (RMap "representative_message");
  mkField "representativeStack" TString [] (RMap "representative_stack");
  mkField "occurrences" TInt [] RDefault;
  mkField "firstSeen" TString [] (RMap "first_seen");
  mkField "lastSeen" TString [] (RMap "last_seen");
  mkField "x" TFloat [] RDefault;
  mkField "y" TFloat [] RDefault;
  mkField "r" TFloat [] RDefault;
  mkField "category" TString [] RDefault;
  mkField "stackFingerprint" TString [] (RMap "stack_fingerprint");
  mkField "affectedRuns" TInt [] (RMap "affected_runs");
  mkField "rootCauseHint" TString [] (RMap "root_cause_hint");
  mkField "hintCategory" TString [] (RMap "hint_category");
  mkField "hintConfidence" TFloat [] (RMap "hint_confidence")].

Definition flakeType : objectDef := mkObjectDef "FlakeRecord" [
  mkField "testId" TID [] (RMap "test_id");
  mkField "testPath" TString [] (RMap "path");
  mkField "testName" TString [] (RMap "name");
  mkField "flakeRate" TFloat [] (RMap "flake_rate");
  mkField "wilsonLower" TFloat [] (RMap "wilson_lower");
  mkField "wilsonUpper" TFloat [] (RMap "wilson_upper");
  mkField "sampleSize" TInt [] (RMap "sample_size");
  mkField "category" TString [] RDefault;
  mkField "spark" TString [] RDefault;
  mkField "status" TString [] RDefault;
  mkField "durationMeanMs" TInt [] (RMap "duration_mean_ms");
  mkField "quarantinedAt" TString [] (RMap "quarantined_at");
  mkField "ownerTeam" TString [] (RMap "owner_team")].

Definition costWeekType : objectDef := mkObjectDef "CostWeek" [
  mkField "weekStart" TString [] (RMap "week_start");
  mkField "runs" TInt [] RDefault;
  mkField "spotMinutes" TFloat [] (RMap "spot_minutes");
  mkField "onDemandMinutes" TFloat [] (RMap "ondemand_minutes");
  mkField "totalCost" TFloat [] (RMap "total_cost");
  mkField "costPerBuild" TFloat [] (RMap "cost_per_build");
  mkField "spotShare" TFloat [] (RMap "spot_share")].

Definition testType : objectDef := mkObjectDef "Test" [
  mkField "id" TID [] RDefault;
  mkField "path" TString [] RDefault;
  mkField "name" TString [] RDefault;
  mkField "status" TString [] RDefault;
  mkField "quarantinedAt" TString [] (RMap "quarantined_at");
  mkField "quarantineReason" TString [] (RMap "quarantine_reason");
  mkField "ownerTeam" TString [] (RMap "owner_team")].

Definition rootQuery : objectDef := mkObjectDef "Query" [
  mkField "runs" (TList (TNamed "Run")) [mkArg "first" TInt (Some 50)] RFunc;
  mkField "run" (TNamed "Run") [mkArg "id" (TNonNull TID) None] RFunc;
  mkField "failureClusters" (TList (TNamed "FailureCluster")) [] RFunc;
  mkField "flakes" (TList (TNamed "FlakeRecord")) [] RFunc;
  mkField "costSummary" (TList (TNamed "CostWeek")) [mkArg "weeks" TInt (Some 8)] RFunc].

Definition rootMutation : objectDef := mkObjectDef "Mutation" [
  mkField "rerunFailed" (TNamed "Run") [mkArg "runId" (TNonNull TID) None] RFunc;
  mkField "quarantineTest" (TNamed "Test") [mkArg "testId" (TNonNull TID) None; mkArg "reason" TString None] RFunc;
  mkField "unquarantineTest" (TNamed "Test") [mkArg "testId" (TNonNull TID) None] RFunc].

Definition subscriptionType : objectDef := mkObjectDef "Subscription" [
  mkField "runChanged" (TNamed "Run") [mkArg "id" (TNonNull TID) None] RFunc].

(** The object types of the schema; a subscription root only with a hub. *)
Definition buildSchemaWithHub (hub : bool) : list objectDef :=
  [rootQuery; costWeekType; runType; runPredictorType; shardType; failureClusterType; flakeType; testType; rootMutation]
  ++ if hub then [subscriptionType] else [].

Definition buildSchema : list objectDef := buildSchemaWithHub false.

(** ** The document that is served *)

Definition schemaDocument : string :=
"type Query {
  runs(first: Int = 50): [Run!]!
  failureClusters: [FailureCluster!]!
  flakes: [FlakeRecord!]!
  costSummary(weeks: Int = 8): [CostWeek!]!
}

type CostWeek {
  weekStart: String!
  runs: Int!
  spotMinutes: Float!
  onDemandMinutes: Float!
  totalCost: Float!
  costPerBuild: Float!
  spotShare: Float!
}

type Run {
  id: ID!
  repoFullName: String
  branch: String
  commitSha: String
  status: String
  totalDurationMs: Int
  startedAt: String
  finishedAt: String
  preemptionCount: Int
  shards: [Shard!]
  failedTestCount: Int
  predictor: RunPredictor
  predictorMae: Float
  predictorRho: Float
  modelVersion: String
}

type RunPredictor {
  mae: Float
  rho: Float
  modelVersion: String
  p50DeltaMs: Int
  p95DeltaMs: Int
  sampleCount: Int
  confidence: Float
}

type Shard {
  id: ID!
  index: Int
  status: String
  workerId: String
  predictedDurationMs: Int
  actualDurationMs: Int
  testCount: Int
  startedAt: String
  finishedAt: String
  deltaMs: Int
  predictionConfidence: Float
  modelVersion: String
}

type FailureCluster {
  id: ID!
  representativeMessage: String
  representativeStack: String
  occurrences: Int
  firstSeen: String
  lastSeen: String
  x: Float
  y: Float
  r: Float
  category: String
  stackFingerprint: String
  affectedRuns: Int
  rootCauseHint: String
  hintCategory: String
  hintConfidence: Float
}

type FlakeRecord {
  testId: ID!
  testPath: String
  testName: String
  flakeRate: Float
  wilsonLower: Float
  wilsonUpper: Float
  sampleSize: Int
  category: String
  spark: String
  status: String
  durationMeanMs: Int
  quarantinedAt: String
  ownerTeam: String
}

type Test {
  id: ID!
  path: String
  name: String
  status: String
  quarantinedAt: String
  quarantineReason: String
  ownerTeam: String
}

type Mutation {
  rerunFailed(runId: ID!): Run
  quarantineTest(testId: ID!, reason: String): Test
  unquarantineTest(testId: ID!): Test
}

type Subscription {
  runChanged(id: ID!): Run
}
".

(** ** Reading a document of the schema language *)

Inductive token :=
  | TkName (s : string)
  | TkInt (z : Z)
  | TkPunct (c : ascii).

Definition isDigit (c : ascii) : bool := (48 <=? byteOf c) && (byteOf c <=? 57).
(** The word read so far, last character first. *)
Definition wordToken (cur : text) : list token :=
  match rev cur with
  | [] => []
  | c :: w => if isDigit c then [TkInt (foldl (fun n d => 10 * n + (byteOf d - 48)) 0 (c :: w))] else [TkName (ofText (c :: w))]
  end.

(** White space and commas only separate. *)
Fixpoint lex (cur l : text) : list token :=
  match l with
  | [] => wordToken cur
  | c :: l' =>
      if word c then lex (c :: cur) l'
      else wordToken cur ++ (if isSpace c || (byteOf c =? 44) then [] else [TkPunct c]) ++ lex [] l'
  end.

Definition expect (c : ascii) (l : list token) : option (list token) :=
  match l with TkPunct d :: l' => if bool_decide (c = d) then Some l' else None | _ => None end.

Definition namedType (n : string) : gqlType :=
  if String.eqb n "ID" then TID else if String.eqb n "String" then TString
  else if String.eqb n "Int" then TInt else if String.eqb n "Float" then TFloat else TNamed n.

Definition bang (t : gqlType) (l : list token) : gqlType * list token :=
  match expect "!" l with Some l' => (TNonNull t, l') | None => (t, l) end.

Fixpoint parseType (fuel : nat) (l : list token) : option (gqlType * list token) :=
  match fuel, l with
  | S n, TkName s :: l' => Some (bang (namedType s) l')
  | S n, TkPunct _ :: _ =>
      l' ← expect "[" l; '(t, l') ← parseType n l'; l' ← expect "]" l'; Some (bang (TList t) l')
  | _, _ => None
  end.

Fixpoint parseArgs (fuel : nat) (l : list token) : option (list argDef * list token) :=
  match fuel, l with
  | S n, TkName a :: l' =>
      l' ← expect ":" l'; '(t, l') ← parseType n l';
      let '(d, l') := match l' with TkPunct _ :: TkInt z :: r => (Some z, r) | _ => (None, l') end in
      '(args, l') ← parseArgs n l'; Some (mkArg a t d :: args, l')
  | S n, _ => l' ← expect ")" l; Some ([], l')
  | _, _ => None
  end.

Fixpoint parseFields (fuel : nat) (l : list token) : option (list fieldDef * list token) :=
  match fuel, l with
  | S n, TkName f :: l' =>
      '(args, l') ← (match expect "(" l' with Some l' => parseArgs n l' | None => Some ([], l') end);
      l' ← expect ":" l'; '(t, l') ← parseType n l'; '(fs, l') ← parseFields n l';
      Some (mkField f t args RDefault :: fs, l')
  | S n, _ => l' ← expect "}" l; Some ([], l')
  | _, _ => None
  end.

Fixpoint parseTypes (fuel : nat) (l : list token) : option (list objectDef) :=
  match fuel, l with
  | _, [] => Some []
  | S n, TkName kw :: TkName name :: l' =>
      if String.eqb kw "type" then
        l' ← expect "{" l'; '(fs, l') ← parseFields n l'; objs ← parseTypes n l'; Some (mkObjectDef name fs :: objs)
      else None
  | _, _ => None
  end.

(** Every call of the parser consumes a token. *)
Definition parseDocument (s : string) : option (list objectDef) :=
  let l := lex [] (toText s) in parseTypes (S (length l)) l.

(** ** What the document says of the schema *)

Fixpoint erase (t : gqlType) : gqlType :=
  match t with TNonNull t => erase t | TList t => TList (erase t) | _ => t end.

Definition lookupObject (objs : list objectDef) (o : string) : option objectDef :=
  List.find (fun ob => String.eqb (ob_Name ob) o) objs.
Definition lookupField (objs : list objectDef) (o f : string) : option fieldDef :=
  ob ← lookupObject objs o; List.find (fun fd => String.eqb (fd_Name fd) f) (ob_Fields ob).

(** The signature of a field, null or not. *)
Definition signature (fd : fieldDef) : gqlType * list argDef := (erase (fd_Type fd), fd_Args fd).

(** The same arguments and, up to null, the same type. *)
Definition describes (doc objs : list objectDef) (o f : string) : Prop :=
  signature <$> lookupField doc o f = signature <$> lookupField objs o f.

Definition fieldNames (objs : list objectDef) : list (string * string) :=
  ob ← objs; fd ← ob_Fields ob; [(ob_Name ob, fd_Name fd)].

(** ** The maps behind the objects *)

Section rows.
Context {V : Type}.

(** One row of [scanToMaps]. *)
Fixpoint scanToMaps (columns : list string) (vals : list V) (m : gmap string V) : gmap string V :=
  match columns, vals with
  | c :: columns, v :: vals => scanToMaps columns vals (<[c := v]> m)
  | _, _ => m
  end.

(** [mapResolve], and the default resolver, over a source that is a map. *)
Definition resolvedKey (fd : fieldDef) : option string :=
  match fd_Resolve fd with RDefault => Some (fd_Name fd) | RMap key => Some key | RFunc => None end.
Definition mapResolve (fd : fieldDef) (source : gmap string V) : option V := key ← resolvedKey fd; source !! key.
End rows.

(** The keys of the maps of queryRuns, queryRunByID, queryShards,
    queryFailureClusters (with [computeClusterLayout]), queryFlakes (with
    [attachFlakeSparklines]), queryCostSummary, queryRunPredictor and
    scanTestRow. *)
Definition runsColumns : list string :=
  ["id"; "repo_full_name"; "commit_sha"; "branch"; "status"; "total_duration_ms"; "started_at"; "finished_at"].
Definition runColumns : list string :=
  ["id"; "repo_full_name"; "commit_sha"; "branch"; "status"; "total_duration_ms"; "preemption_count"; "started_at"; "finished_at"].
Definition shardColumns : list string :=
  ["id"; "index"; "status"; "worker_id"; "predicted_duration_ms"; "actual_duration_ms"; "test_count"; "started_at"; "finished_at"].
Definition clusterColumns : list string :=
  ["id"; "representative_message"; "representative_stack"; "occurrences"; "first_seen"; "last_seen"; "stack_fingerprint";
   "root_cause_hint"; "hint_category"; "hint_confidence"; "affected_runs"].
Definition layoutKeys : list string := ["x"; "y"; "r"; "category"].
Definition flakeColumns : list string :=
  ["test_id"; "path"; "name"; "flake_rate"; "wilson_lower"; "wilson_upper"; "sample_size"; "category"; "test_status";
   "quarantined_at"; "owner_team"].
Definition sparkKeys : list string := ["status"; "spark"; "duration_mean_ms"].
Definition costKeys : list string :=
  ["week_start"; "runs"; "spot_minutes"; "ondemand_minutes"; "total_cost"; "cost_per_build"; "spot_share"].
Definition predictorKeys : list string :=
  ["mae"; "rho"; "model_version"; "p50_delta_ms"; "p95_delta_ms"; "sample_count"; "confidence"].
Definition testKeys : list string := ["id"; "path"; "name"; "status"; "quarantine_reason"; "owner_team"; "quarantined_at"].

(** Which object type each query feeds. *)
Definition rowSources : list (objectDef * list string) :=
  [(runType, runsColumns); (runType, runColumns); (shardType, shardColumns); (failureClusterType, clusterColumns ++ layoutKeys);
   (flakeType, flakeColumns ++ sparkKeys); (costWeekType, costKeys); (runPredictorType, predictorKeys); (testType, testKeys)].

Definition docObjects : list objectDef := default [] (parseDocument schemaDocument).

(** The fields whose key no row of the source has. *)
Definition unread (ob : objectDef) (cols : list string) : list string :=
  if String.eqb (ob_Name ob) "Shard" then ["predictionConfidence"; "modelVersion"]
  else if bool_decide (cols = runsColumns) then ["preemptionCount"] else [].

(** * The document, the schema and the columns agree *)

(** The field of the schema that the document leaves out. *)
Definition undocumented (q : string * string) : bool := String.eqb q.1 "Query" && String.eqb q.2 "run".

Definition describedb (doc objs : list objectDef) (q : string * string) : bool :=
  bool_decide (signature <$> lookupField doc q.1 q.2 = signature <$> lookupField objs q.1 q.2).

Lemma describedb_spec doc objs l skip : forallb (fun q => skip q || describedb doc objs q) l = true ->
  forall o f, (o, f) ∈ l -> skip (o, f) = true \/ describes doc objs o f.
Proof.
  rewrite forallb_forall. intros H o f Hin%list_elem_of_In. apply H in Hin as [Hs|Hd]%orb_true_iff; [by left|right].
  by apply bool_decide_eq_true_1 in Hd.
Qed.

Lemma find_snoc {A} (p : A -> bool) l x : p x = false -> List.find p (l ++ [x]) = List.find p l.
Proof. intros Hx. induction l as [|y l IH]; cbn; [by rewrite Hx|]. by destruct (p y). Qed.

(** The document served at /graphql/schema is well-formed and tells the truth: a
    field it lists is a field of the schema behind the subscriptions, with the
    same arguments and, up to null, the same type.  It lists every field of that
    schema except the query [run], which it leaves out; the schema behind POST
    /graphql differs from it by the subscription root only. *)
Theorem schema_document_describes :
  parseDocument schemaDocument = Some docObjects
  /\ (forall o f, (o, f) ∈ fieldNames docObjects -> describes docObjects (buildSchemaWithHub true) o f)
  /\ (forall o f, (o, f) ∈ fieldNames (buildSchemaWithHub true) ->
        (o, f) = ("Query", "run") \/ describes docObjects (buildSchemaWithHub true) o f)
  /\ lookupField docObjects "Query" "run" = None
  /\ (forall o f, o <> "Subscription" -> lookupField buildSchema o f = lookupField (buildSchemaWithHub true) o f).
Proof.
  split_and!.
  - vm_compute. reflexivity.
  - intros o f Hin. destruct (describedb_spec docObjects (buildSchemaWithHub true) (fieldNames docObjects) (fun _ => false)) with o f
      as [|]; [vm_compute; reflexivity|done..].
  - intros o f Hin. destruct (describedb_spec docObjects (buildSchemaWithHub true) (fieldNames (buildSchemaWithHub true)) undocumented)
      with o f as [Hs|]; [vm_compute; reflexivity|done| |by right].
    left. unfold undocumented in Hs. cbn in Hs. apply andb_true_iff in Hs as [E1%String.eqb_eq E2%String.eqb_eq]. by subst.
  - vm_compute. reflexivity.
  - intros o f Ho. unfold lookupField. f_equal. unfold lookupObject, buildSchema, buildSchemaWithHub. rewrite app_nil_r.
    symmetry. apply find_snoc. cbn [ob_Name subscriptionType]. by apply String.eqb_neq.
Qed.

Section rows.
Context {V : Type}.

Lemma scanToMaps_notin cols (vals : list V) m k : k ∉ cols -> scanToMaps cols vals m !! k = m !! k.
Proof.
  revert vals m. induction cols as [|c cols IH]; intros [|v vals] m Hk; cbn; try done.
  apply not_elem_of_cons in Hk as [Hc Hk]. rewrite IH by done. by rewrite lookup_insert_ne.
Qed.

Lemma scanToMaps_lookup cols (vals : list V) m i k : NoDup cols -> length vals = length cols -> cols !! i = Some k ->
  scanToMaps cols vals m !! k = vals !! i.
Proof.
  revert vals m i. induction cols as [|c cols IH]; intros [|v vals] m i Hn Hl Hi; try done.
  apply NoDup_cons in Hn as [Hc Hn].
  destruct i as [|i]; cbn in *.
  - injection Hi as ->. rewrite scanToMaps_notin by done. by rewrite lookup_insert_eq.
  - apply IH; [done|lia|done].
Qed.
End rows.

(** Where a field finds its column. *)
Definition columnOf (fd : fieldDef) (cols : list string) : option nat :=
  k ← resolvedKey fd; fst <$> list_find (fun c => String.eqb c k = true) cols.

Definition readsb (oc : objectDef * list string) : bool :=
  bool_decide (NoDup oc.2)
  && forallb (fun fd =>
       match fd_Resolve fd with
       | RFunc => true
       | _ => match columnOf fd oc.2 with
              | Some _ => negb (existsb (String.eqb (fd_Name fd)) (unread oc.1 oc.2))
              | None => existsb (String.eqb (fd_Name fd)) (unread oc.1 oc.2)
              end
       end) (ob_Fields oc.1).

Lemma existsb_in k l : existsb (String.eqb k) l = true <-> k ∈ l.
Proof.
  rewrite existsb_exists. setoid_rewrite <-list_elem_of_In. split; [by intros (x & H & ->%String.eqb_eq)|].
  intros H. exists k. by rewrite String.eqb_refl.
Qed.

(** Whatever a query returns, a field that is not computed by a function
    of its own gives the value of the column it is named after: none is looked up
    under a key that its rows do not have, except three.  The confidence and the
    model of a shard, and the preemption count of a run in a list of runs, are
    always null. *)
Theorem fields_read_their_columns (V : Type) ob cols fd : (ob, cols) ∈ rowSources -> fd ∈ ob_Fields ob -> fd_Resolve fd <> RFunc ->
  (fd_Name fd ∉ unread ob cols -> exists k i, resolvedKey fd = Some k /\ cols !! i = Some k
     /\ forall vals : list V, length vals = length cols -> mapResolve fd (scanToMaps cols vals ∅) = vals !! i)
  /\ (fd_Name fd ∈ unread ob cols -> forall vals : list V, mapResolve fd (scanToMaps cols vals ∅) = None).
Proof.
  intros Hs Hf Hr. assert (forallb readsb rowSources = true) as Hall by (vm_compute; reflexivity).
  rewrite forallb_forall in Hall. specialize (Hall (ob, cols)). rewrite <-list_elem_of_In in Hall.
  apply Hall, andb_true_iff in Hs as [Hn Hfs]. apply bool_decide_eq_true_1 in Hn. cbn [fst snd] in *.
  rewrite forallb_forall in Hfs. specialize (Hfs fd). rewrite <-list_elem_of_In in Hfs. specialize (Hfs Hf).
  rewrite <-!existsb_in. unfold columnOf, mapResolve in *.
  destruct (resolvedKey fd) as [k|] eqn:Ek; [|by unfold resolvedKey in Ek; destruct (fd_Resolve fd)]. cbn [mbind option_bind] in *.
  assert (match fst <$> list_find (fun c => String.eqb c k = true) cols with
          | Some _ => negb (existsb (String.eqb (fd_Name fd)) (unread ob cols))
          | None => existsb (String.eqb (fd_Name fd)) (unread ob cols)
          end = true) as Hm by (by destruct (fd_Resolve fd)). clear Hfs.
  destruct (list_find _ cols) as [[i c]|] eqn:Ei; cbn in Hm.
  - apply list_find_Some in Ei as (Hi & ->%String.eqb_eq & _). apply negb_true_iff in Hm. rewrite Hm. split; [|done].
    intros _. exists k, i. split_and!; [done..|]. intros vals Hl. by apply scanToMaps_lookup.
  - rewrite Hm. split; [done|]. intros _ vals. apply list_find_None in Ei. rewrite scanToMaps_notin; [apply lookup_empty|].
    rewrite Forall_forall in Ei. intros Hin%Ei. by rewrite String.eqb_refl in Hin.
Qed.

Lemma unread_run : unread runType runColumns = [].
Proof. vm_compute. reflexivity. Qed.
Lemma runColumns_nodup : NoDup runColumns.
Proof. apply (bool_decide_unpack _). vm_compute. exact I. Qed.
Lemma unread_runs : unread runType runsColumns = ["preemptionCount"].
Proof. vm_compute. reflexivity. Qed.

Lemma fields_read_their_columns_witness :
  mapResolve (mkField "repoFullName" TString [] (RMap "repo_full_name"))
    (scanToMaps runColumns [1; 2; 3; 4; 5; 6; 7; 8; 9] ∅) = Some 2
  /\ mapResolve (mkField "preemptionCount" TInt [] (RMap "preemption_count")) (scanToMaps runsColumns [1; 2; 3; 4; 5; 6; 7; 8] ∅) = None.
Proof.
  split.
  - destruct (fields_read_their_columns Z runType runColumns (mkField "repoFullName" TString [] (RMap "repo_full_name")))
      as [H _]; [right; left|right; left|done|].
    destruct H as (k & i & Hk & Hi & H); [rewrite unread_run; apply not_elem_of_nil|].
    injection Hk as <-. rewrite H by done. by rewrite (NoDup_lookup runColumns i 1%nat "repo_full_name" runColumns_nodup Hi).
  - destruct (fields_read_their_columns Z runType runsColumns (mkField "preemptionCount" TInt [] (RMap "preemption_count")))
      as [_ H]; [left|do 6 right; left|done|]. apply H. rewrite unread_runs. left.
Defined.
