(* ===== verification/Gateway.v ===== *)
(** * internal/api: the server and its routes

    server.go (options, routes, probes), metrics_middleware.go and the handlers
    of runs.go, export.go, logs.go, quarantine_restore.go, graphql.go,
    graphql_ws.go and auth_oidc.go behind the authentication middleware: what a
    request is answered, whom each route lets in, and what the metrics see.  The
    router, the marshallers, the WebSocket handshake and the GraphQL engine are
    parameters. *)

From S2P Require Import Prelude GoRegexp GoStrings GoFmt Model Scheduler Db Effects RunSvc Auth Quarantine Rest Otlp.
From S2P Require Import RunManager RunManagerProps RunSvcProps Export GraphqlWs Oidc Webhook Graphql GrpcSvc ApiKeys GraphqlSchema.

(** ** Requests and responses *)

(** A missing header, cookie or parameter is empty, except that a cookie may be
    there with an empty value; the body is [None] when it cannot be read. *)
Record request := mkRequest {
  rq_Method : string;
  rq_Path : string;
  rq_Header : string -> string;
  rq_Cookie : string -> option string;
  rq_Query : string -> string;
  rq_Body : option string
}.

(** What is behind an [http.ResponseWriter]: the one of net/http with the status
    it has sent, which may be hijacked over HTTP/1, and the recorder of
    metrics_middleware.go, which embeds another one. *)
Inductive responseWriter :=
  | NetWriter (hijacker : bool) (sent : option Z)
  | statusRecorder (rw : responseWriter) (code : Z).

(** net/http ignores a second status. *)
Fixpoint WriteHeader (code : Z) (w : responseWriter) : responseWriter :=
  match w with
  | NetWriter h None => NetWriter h (Some code)
  | NetWriter h (Some c) => NetWriter h (Some c)
  | statusRecorder rw _ => statusRecorder (WriteHeader code rw) code
  end.

Fixpoint netStatus (w : responseWriter) : option Z :=
  match w with NetWriter _ sent => sent | statusRecorder rw _ => netStatus rw end.

(** [w.(http.Hijacker)]: an embedded interface lends the recorder its three
    methods only, and the recorder has no [Unwrap]. *)
Definition isHijacker (w : responseWriter) : bool :=
  match w with NetWriter h _ => h | statusRecorder _ _ => false end.

Inductive payload :=
  | PBytes (s : string)
  | PDown (e : error)
  | PProblem (p : Problem)
  | PRun (r : Run)
  | PRestored (testID : string)
  | PLogURL (l : logURL)
  | PExport (b : exportBody)
  | PSession (b : sessionBody)
  | PExpiresIn (seconds : Z)
  | PRedirect (url : string)
  | PUpgraded (s : wsSession)
  | PEmpty.

Record response := mkResponse {
  rs_Status : Z;
  rs_Cookies : list cookie;
  rs_Payload : payload
}.

Definition problem (status : Z) (title d : string) : response :=
  mkResponse status [] (PProblem (mkProblem title status (DText d) [])).

Definition ofReply {B} (f : B -> payload) (r : reply B) : response :=
  match r with
  | RProblem p => mkResponse (pb_Status p) [] (PProblem p)
  | RBody status b => mkResponse status [] (f b)
  end.

(** Redirects are [http.StatusFound]. *)
Definition ofWeb {B} (f : B -> payload) (r : webReply B) : response :=
  match wb_Answer r with
  | WRedirect url => mkResponse 302 (wb_Cookies r) (PRedirect url)
  | WReply a => let p := ofReply f a in mkResponse (rs_Status p) (wb_Cookies r) (rs_Payload p)
  end.

(** ** The server *)

Record Config := mkAPIConfig {
  cf_JWTSecret : string;
  cf_JWTTTL : Z;
  cf_JWTIssuer : string
}.

Abbreviation SpanQuerier := (string -> result (list ExportedSpan)) (only parsing).
Abbreviation RoleResolver := (string -> string -> userTables -> result (list Role) * userTables) (only parsing).
Abbreviation Presigner := (string -> result string) (only parsing).

Record Server := mkServer {
  sv_signIn : SignInConfig;
  sv_spans : option SpanQuerier;
  sv_logPresigner : option Presigner;
  sv_githubWebhook : option (hookRequest -> M Z);
  sv_oidc : option oidcAuthenticator;
  sv_roleResolver : option RoleResolver;
  sv_runSvc : option Service;
  sv_uiNATS : bool
}.

Definition Option : Type := Server -> Server.

Definition WithRunService (svc : option Service) : Option := fun s =>
  match svc with
  | None => s
  | Some _ => mkServer (sv_signIn s) (sv_spans s) (sv_logPresigner s) (sv_githubWebhook s) (sv_oidc s) (sv_roleResolver s) svc (sv_uiNATS s)
  end.
Definition WithSpanQuerier (q : option SpanQuerier) : Option := fun s =>
  mkServer (sv_signIn s) q (sv_logPresigner s) (sv_githubWebhook s) (sv_oidc s) (sv_roleResolver s) (sv_runSvc s) (sv_uiNATS s).
(** The connection stands for the query of chSpanQuerier over it. *)
Definition WithClickHouseConn (conn : option SpanQuerier) : Option := fun s =>
  match conn with None => s | Some _ => WithSpanQuerier conn s end.
Definition WithLogPresigner (p : option Presigner) : Option := fun s =>
  match p with
  | None => s
  | Some _ => mkServer (sv_signIn s) (sv_spans s) p (sv_githubWebhook s) (sv_oidc s) (sv_roleResolver s) (sv_runSvc s) (sv_uiNATS s)
  end.
Definition WithOIDC (provider : option oidcAuthenticator) (uiBaseURL : string) : Option := fun s =>
  match provider with
  | None => s
  | Some _ => mkServer (Oidc.WithOIDC uiBaseURL (sv_signIn s)) (sv_spans s) (sv_logPresigner s) (sv_githubWebhook s) provider
                (sv_roleResolver s) (sv_runSvc s) (sv_uiNATS s)
  end.
Definition WithRoleResolver (r : option RoleResolver) : Option := fun s =>
  match r with
  | None => s
  | Some _ => mkServer (sv_signIn s) (sv_spans s) (sv_logPresigner s) (sv_githubWebhook s) (sv_oidc s) r (sv_runSvc s) (sv_uiNATS s)
  end.
Definition WithUISubscriptions (nc : bool) : Option := fun s =>
  if nc then mkServer (sv_signIn s) (sv_spans s) (sv_logPresigner s) (sv_githubWebhook s) (sv_oidc s) (sv_roleResolver s) (sv_runSvc s) true
  else s.
Definition WithGitHubWebhook (h : option (hookRequest -> M Z)) : Option := fun s =>
  mkServer (sv_signIn s) (sv_spans s) (sv_logPresigner s) h (sv_oidc s) (sv_roleResolver s) (sv_runSvc s) (sv_uiNATS s).

Definition hour : Z := 3600 * second.

(** [New]: the server before its routes are built. *)
Definition New (cfg : Config) (opts : list Option) : Server :=
  let ttl := if cf_JWTTTL cfg =? 0 then hour else cf_JWTTTL cfg in
  let issuer := if String.eqb (cf_JWTIssuer cfg) "" then "teo" else cf_JWTIssuer cfg in
  let s := mkServer (mkSignIn (mkJWTIssuer (cf_JWTSecret cfg) ttl issuer) "" false) None None None None None None false in
  foldl (fun s o => o s) s opts.

(** ** What is not in the repository *)

Record graphqlRequest := mkGraphqlRequest {
  gq_Query : string;
  gq_Variables : string;
  gq_OperationName : string
}.

(** What chi makes of a request: the position of the route in the list of
    registered ones, with the parameters of the URL, and [RoutePattern]. *)
Inductive routeMatch :=
  | Found (i : nat) (params : string -> string) (pattern : string)
  | NotFound (pattern : string)
  | MethodNotAllowed (pattern : string).

Record Platform := mkPlatform {
  pf_chi : list (string * string) -> string -> string -> routeMatch;
  pf_jwt : JwtLib;
  (** [websocket.Accept]: the agreed subprotocol, or the status of the error it
      wrote. *)
  pf_Accept : responseWriter -> request -> string + Z;
  (** [graphql.Do] over the schema, with the principal in its context. *)
  pf_graphqlDo : option Principal -> graphqlRequest -> M string;
  pf_decodeGraphql : option string -> string + graphqlRequest;
  pf_decodeRun : option string -> option CreateRunRequest;
  pf_uuidParse : string -> option string;
  pf_rangeOf : gmap string string -> list (string * string);
  pf_xmlMarshal : junitTestSuites -> result string;
  pf_protoMarshal : ExportTraceServiceRequest -> result string;
  pf_protojson : ExportTraceServiceRequest -> result string;
  pf_xmlHeader : string;
  pf_promHandler : string
}.

(** What a request meets outside: the clock and two draws of the random source. *)
Record moment := mkMoment {
  mo_Now : Z;
  mo_Rand1 : option (list Z);
  mo_Rand2 : option (list Z)
}.

Section handlers.
Context (pf : Platform) (s : Server) (mo : moment).

(** What a handler is given. *)
Record call := mkCall {
  cx_request : request;
  cx_principal : option Principal;
  cx_param : string -> string;
  cx_writer : responseWriter
}.

(** A handler; the sign-in state is what the server shares between requests. *)
Definition handler : Type := call -> authState -> M (response * authState).

(** A handler that leaves the sign-in state alone. *)
Definition plain (h : call -> M response) : handler := fun c st => r ←! h c ; retM (r, st).

Definition signedIn (c : call) : bool := bool_decide (is_Some (cx_principal c)).

Definition healthz (c : call) : M response := retM (mkResponse 200 [] (PBytes ("{" +:+ dq +:+ "status" +:+ dq +:+ ":" +:+ dq +:+ "ok" +:+ dq +:+ "}"))).

Definition readyz (c : call) : M response :=
  r ←! tryM (poolExec (query (fun _ => tt))) ;
  match r with
  | Err e => retM (mkResponse 503 [] (PDown e))
  | Ok _ => retM (mkResponse 200 [] (PBytes ("{" +:+ dq +:+ "status" +:+ dq +:+ ":" +:+ dq +:+ "ready" +:+ dq +:+ "}")))
  end.

Definition metricsHandler (c : call) : M response := retM (mkResponse 200 [] (PBytes (pf_promHandler pf))).

(** [RunsHandler.service] *)
Definition service : Service := default (mkService true) (sv_runSvc s).

Definition createHandler (c : call) : M response :=
  r ←! runsCreate service (signedIn c) (pf_decodeRun pf (rq_Body (cx_request c))) (rq_Header (cx_request c) "Idempotency-Key") ;
  retM (ofReply PRun r).
Definition getHandler (c : call) : M response := r ←! runsGet (signedIn c) (cx_param c "id") ; retM (ofReply PRun r).
Definition cancelHandler (c : call) : M response := r ←! runsCancel service (signedIn c) (cx_param c "id") ; retM (ofReply PRun r).

Definition export (c : call) : M response :=
  r ←! exportHandler (pf_rangeOf pf) (pf_uuidParse pf) (pf_xmlMarshal pf) (pf_protoMarshal pf) (pf_protojson pf) (pf_xmlHeader pf)
    (sv_spans s) (signedIn c) (cx_param c "id") (rq_Query (cx_request c) "format") (rq_Query (cx_request c) "as") ;
  retM (ofReply PExport r).

Definition logHandler (c : call) : M response :=
  r ←! logURLHandler (sv_logPresigner s) (signedIn c) (cx_param c "id") (cx_param c "execId") ; retM (ofReply PLogURL r).

Definition restoreHandler (c : call) : M response :=
  r ←! quarantineRestore (rq_Query (cx_request c) "token") ; retM (ofReply PRestored r).

Definition loginHandler (c : call) : M response :=
  retM (ofWeb (fun _ => PEmpty) (oidcLogin (sv_signIn s) (sv_oidc s) (mo_Rand1 mo) (mo_Rand2 mo))).

Definition issue : string -> string -> list Role -> result string := Issue (pf_jwt pf) (si_jwt (sv_signIn s)) (mo_Now mo).

Definition callbackHandler : handler := fun c st =>
  let q := rq_Query (cx_request c) in
  let '(r, st') := oidcCallback (sv_signIn s) (sv_oidc s) (sv_roleResolver s) issue
    (mkCallback (q "error") (q "error_description") (q "code") (q "state")
       (rq_Cookie (cx_request c) stateCookie) (rq_Cookie (cx_request c) nonceCookie)) st in
  retM (ofWeb (fun _ => PEmpty) r, st').

Definition logoutHandler (c : call) : M response := retM (ofWeb (fun _ => PEmpty) (oidcLogout (sv_signIn s))).
Definition sessionHandler (c : call) : M response := retM (ofWeb PSession (session (cx_principal c))).
Definition refreshHandler (c : call) : M response :=
  retM (ofWeb PExpiresIn (refresh (sv_signIn s) issue (cx_principal c))).

(** [graphqlHandler] *)
Definition graphqlHandler (c : call) : M response :=
  match graphqlGate (cx_principal c) with
  | Unauthorized => retM (problem 401 "Unauthorized" "authentication required")
  | Forbidden => retM (problem 403 "Forbidden" "principal has no role")
  | Serve =>
      match pf_decodeGraphql pf (rq_Body (cx_request c)) with
      | inl err => retM (mkResponse 400 [] (PBytes err))
      | inr req => body ←! pf_graphqlDo pf (cx_principal c) req ; retM (mkResponse 200 [] (PBytes body))
      end
  end.

(** [graphqlSubscriptionRoute] and the handler behind it; a session that was
    upgraded, or closed after the handshake, has sent 101. *)
Definition graphqlSubscriptionRoute (c : call) : M response :=
  if negb (sv_uiNATS s) then
    retM (problem 501 "Subscriptions not configured" "set TEO_NATS_URL to enable GraphQL WebSocket subscriptions")
  else
    let accepted := pf_Accept pf (cx_writer c) (cx_request c) in
    match graphqlSubscriptionHandler (cx_principal c) (match accepted with inl sub => Some sub | inr _ => None end) with
    | UpProblem r => retM (ofReply (fun _ => PEmpty) r)
    | UpRefused => retM (mkResponse (match accepted with inl _ => 101 | inr status => status end) [] PEmpty)
    | UpSession ws => retM (mkResponse 101 [] (PUpgraded ws))
    end.

Definition hookOf (rq : request) : hookRequest :=
  mkHookRequest (rq_Body rq) (rq_Header rq "X-Hub-Signature-256") (rq_Header rq "X-GitHub-Event").
Definition githubWebhookRoute (c : call) : M response :=
  match sv_githubWebhook s with
  | None => retM (problem 503 "GitHub webhook not configured" "set TEO_GITHUB_WEBHOOK_SECRET to enable")
  | Some h => status ←! h (hookOf (cx_request c)) ; retM (mkResponse status [] PEmpty)
  end.

(** [schemaHandler] *)
Definition schemaHandler (c : call) : M response := retM (mkResponse 200 [] (PBytes schemaDocument)).

(** ** Routes *)

Record route := mkRoute {
  rt_Method : string;
  rt_Pattern : string;
  rt_Handler : handler
}.

(** [r.Route(prefix, ..)] *)
Definition Route (prefix : string) (l : list route) : list route :=
  map (fun r => mkRoute (rt_Method r) (prefix +:+ rt_Pattern r) (rt_Handler r)) l.

(** [RunsHandler.Routes] *)
Definition Routes : list route :=
  [mkRoute "POST" "/" (plain createHandler);
   mkRoute "GET" "/{id}" (plain getHandler);
   mkRoute "POST" "/{id}/cancel" (plain cancelHandler)].

Definition routes : list route :=
  [mkRoute "GET" "/healthz" (plain healthz);
   mkRoute "GET" "/readyz" (plain readyz);
   mkRoute "GET" "/metrics" (plain metricsHandler)]
  ++ Route "/api/v1"
       (Route "/runs"
          (Routes ++ [mkRoute "GET" "/{id}/export" (plain export);
                      mkRoute "GET" "/{id}/tests/{execId}/log" (plain logHandler)])
        ++ [mkRoute "GET" "/quarantine/restore" (plain restoreHandler)])
  ++ Route "/auth"
       [mkRoute "GET" "/login" (plain loginHandler);
        mkRoute "GET" "/callback" callbackHandler;
        mkRoute "POST" "/logout" (plain logoutHandler);
        mkRoute "GET" "/session" (plain sessionHandler);
        mkRoute "POST" "/refresh" (plain refreshHandler)]
  ++ [mkRoute "POST" "/graphql" (plain graphqlHandler);
      mkRoute "GET" "/graphql/schema" (plain schemaHandler);
      mkRoute "GET" "/graphql/subscriptions" (plain graphqlSubscriptionRoute);
      mkRoute "POST" "/webhooks/github" (plain githubWebhookRoute)].

Definition routeKey (r : route) : string * string := (rt_Method r, rt_Pattern r).

(** ** A request through the middleware *)

(** The labels of the observation of [HTTPDurationSec]. *)
Record observation := mkObservation {
  ob_handler : string;
  ob_method : string;
  ob_status : string
}.

Record served := mkServed {
  sd_Response : response;
  sd_State : authState;
  sd_Observed : observation;
  sd_Writer : responseWriter
}.

(** [auth.Middleware(s.jwt, s.resolveAPIKey)]; [resolve] is what
    [s.resolveAPIKey] answers. *)
Definition principalOf (resolve : string -> string -> option Principal) (rq : request) : option Principal :=
  Middleware (Some resolve)
    (Some (fun tok => match Verify (pf_jwt pf) (si_jwt (sv_signIn s)) (mo_Now mo) tok with Ok p => Some p | Err _ => None end))
    (rq_Header rq "Authorization") (rq_Cookie rq SessionCookie).

Definition matchOf (rq : request) : routeMatch := pf_chi pf (map routeKey routes) (rq_Method rq) (rq_Path rq).
Definition patternOf (m : routeMatch) : string := match m with Found _ _ p => p | NotFound p => p | MethodNotAllowed p => p end.

(** [statusRecorder.code] *)
Definition recordedCode (w : responseWriter) : Z := match w with statusRecorder _ c => c | NetWriter _ _ => 200 end.

(** The handler the mux calls. *)
Definition dispatch (m : routeMatch) (c : call) (st : authState) : M (response * authState) :=
  match m with
  | Found i params _ =>
      match routes !! i with
      | Some r => rt_Handler r (mkCall (cx_request c) (cx_principal c) params (cx_writer c)) st
      | None => retM (mkResponse 404 [] (PBytes "404 page not found"), st)
      end
  | NotFound _ => retM (mkResponse 404 [] (PBytes "404 page not found"), st)
  | MethodNotAllowed _ => retM (mkResponse 405 [] PEmpty, st)
  end.

(** [s.mux.ServeHTTP]: [metricsMiddleware] around [auth.Middleware] around the
    routes; the other middleware of chi passes the request on. *)
Definition serve (resolve : string -> string -> option Principal) (w : responseWriter) (rq : request) (st : authState) : M served :=
  let m := matchOf rq in
  let rec := statusRecorder w 200 in
  rs ←! dispatch m (mkCall rq (principalOf resolve rq) (fun _ => "") rec) st ;
  let rec' := WriteHeader (rs_Status rs.1) rec in
  let handler := if String.eqb (patternOf m) "" then "unknown" else patternOf m in
  retM (mkServed rs.1 rs.2 (mkObservation handler (rq_Method rq) (itoa (recordedCode rec'))) rec').
End handlers.

(** * Whom the routes let in *)

(** The routes that ask for a principal. *)
Definition guardedRoutes : list (string * string) :=
  [("POST", "/api/v1/runs/"); ("GET", "/api/v1/runs/{id}"); ("POST", "/api/v1/runs/{id}/cancel");
   ("GET", "/api/v1/runs/{id}/export"); ("GET", "/api/v1/runs/{id}/tests/{execId}/log");
   ("GET", "/auth/session"); ("POST", "/auth/refresh"); ("POST", "/graphql"); ("GET", "/graphql/subscriptions")].

(** The routes that do not, and answer from the server's configuration alone. *)
Definition constantRoutes : list (string * string) :=
  [("GET", "/healthz"); ("GET", "/metrics"); ("GET", "/auth/login"); ("POST", "/auth/logout"); ("GET", "/graphql/schema")].

Definition isProblem (p : payload) : bool := match p with PProblem _ => true | _ => false end.

Definition subscriptionsKey : string * string := ("GET", "/graphql/subscriptions").

Lemma key_notin m p l : existsb (fun k => String.eqb m k.1 && String.eqb p k.2) l = false -> (m, p) ∉ l.
Proof.
  intros H Hin. apply not_true_iff_false in H. apply H, existsb_exists. exists (m, p).
  apply list_elem_of_In in Hin. split; [done|]. cbn. by rewrite !String.eqb_refl.
Qed.

Section access.
Context (pf : Platform) (s : Server) (mo : moment).

Lemma routes_cases (P : route -> Prop) : Forall P (routes pf s mo) -> forall i r, routes pf s mo !! i = Some r -> P r.
Proof. intros H i r. by apply Forall_lookup_1. Qed.

Lemma serve_found resolve w rq st i params pat r wd resp st' wd' :
  matchOf pf s mo rq = Found i params pat -> routes pf s mo !! i = Some r ->
  rt_Handler r (mkCall rq (principalOf pf s mo resolve rq) params (statusRecorder w 200)) st wd = (Ok (resp, st'), wd') ->
  exists sd, serve pf s mo resolve w rq st wd = (Ok sd, wd') /\ sd_Response sd = resp /\ sd_State sd = st'.
Proof.
  intros Hm Hr H. unfold serve, dispatch. rewrite Hm, Hr. cbn [cx_request cx_principal cx_writer].
  rewrite (bindM_ok _ _ _ _ _ H). eexists. split; [reflexivity|done].
Qed.

(** What a guarded route answers to a request without a principal. *)
Definition refusal (r : route) (resp : response) : Prop :=
  rs_Cookies resp = [] /\ isProblem (rs_Payload resp) = true
  /\ (rs_Status resp = 401 \/ routeKey r = subscriptionsKey /\ sv_uiNATS s = false /\ rs_Status resp = 501).

Definition anonymous (c : call) : Prop := cx_principal c = None.

Definition refuses (r : route) : Prop :=
  routeKey r ∈ guardedRoutes -> forall c st wd, anonymous c ->
  exists resp, rt_Handler r c st wd = (Ok (resp, st), wd) /\ refusal r resp.

Lemma not_guarded m p h : existsb (fun k => String.eqb m k.1 && String.eqb p k.2) guardedRoutes = false ->
  refuses (mkRoute m p h).
Proof. intros H Hin. by apply key_notin in H. Qed.

Lemma guarded_refuse : Forall refuses (routes pf s mo).
Proof.
  repeat apply Forall_cons_2; [..|apply Forall_nil_2]; try by apply not_guarded.
  all: intros _ [rq pr ps wr] st wd Ha; unfold anonymous in Ha; cbn [cx_principal] in Ha; subst pr.
  all: destruct (sv_uiNATS s) eqn:Hn.
  all: eexists; (split; [cbn [rt_Handler]; unfold plain, graphqlSubscriptionRoute; rewrite ?Hn; reflexivity|]).
  all: unfold refusal; (split; [reflexivity|split; [reflexivity|first [left; reflexivity|by right]]]).
Qed.

(** ** The open routes *)

Definition answersAlone (r : route) : Prop :=
  routeKey r ∈ constantRoutes -> forall c st wd, exists resp, rt_Handler r c st wd = (Ok (resp, st), wd).

Lemma not_constant m p h : existsb (fun k => String.eqb m k.1 && String.eqb p k.2) constantRoutes = false ->
  answersAlone (mkRoute m p h).
Proof. intros H Hin. by apply key_notin in H. Qed.

Lemma constant_answer : Forall answersAlone (routes pf s mo).
Proof.
  repeat apply Forall_cons_2; [..|apply Forall_nil_2]; try by apply not_constant.
  all: intros _ c st wd; eexists; cbn [rt_Handler]; unfold plain; reflexivity.
Qed.

(** The handler mounted at a key. *)
Definition mountedAt (key : string * string) (h : handler) (r : route) : Prop := routeKey r = key -> rt_Handler r = h.

Definition callbackKey : string * string := ("GET", "/auth/callback").
Definition restoreKey : string * string := ("GET", "/api/v1/quarantine/restore").
Definition webhookKey : string * string := ("POST", "/webhooks/github").
Definition readyKey : string * string := ("GET", "/readyz").

Lemma mounted : Forall (fun r => mountedAt callbackKey (callbackHandler pf s mo) r /\ mountedAt restoreKey (plain restoreHandler) r
  /\ mountedAt webhookKey (plain (githubWebhookRoute s)) r /\ mountedAt readyKey (plain readyz) r
  /\ routeKey r ∈ guardedRoutes ++ constantRoutes ++ [callbackKey; restoreKey; webhookKey; readyKey]) (routes pf s mo).
Proof.
  repeat apply Forall_cons_2; [..|apply Forall_nil_2].
  all: split_and!; [intros H; first [reflexivity|discriminate H]..|].
  all: repeat first [left; reflexivity|right].
Qed.

Lemma unsigned_refused decode secret rq wd : (forall body, ~ Signed secret rq body) ->
  exists status, ServeHTTP decode secret rq wd = (Ok status, wd) /\ (status = 400 \/ status = 401).
Proof.
  intros Hs. unfold ServeHTTP. destruct (readBody rq) as [body|] eqn:Eb; [|by exists 400; auto].
  destruct (VerifySignature body secret (hk_Signature rq)) eqn:Ev; [by exists 401; auto|]. exfalso.
  apply (Hs body). apply VerifySignature_ok in Ev as (hex & Esig & Eh). apply readBody_some in Eb as [E1 E2].
  split_and!; [done|done|]. by exists hex.
Qed.

Lemma subscription_mounted : Forall (mountedAt subscriptionsKey (plain (graphqlSubscriptionRoute pf s))) (routes pf s mo).
Proof. repeat apply Forall_cons_2; [..|apply Forall_nil_2]. all: intros H; first [reflexivity|discriminate H]. Qed.

(** The run API: five routes, three of them [RunsHandler]'s. *)
Definition createKey : string * string := ("POST", "/api/v1/runs/").
Definition getKey : string * string := ("GET", "/api/v1/runs/{id}").
Definition cancelKey : string * string := ("POST", "/api/v1/runs/{id}/cancel").
Definition runKeys : list (string * string) :=
  [createKey; getKey; cancelKey; ("GET", "/api/v1/runs/{id}/export"); ("GET", "/api/v1/runs/{id}/tests/{execId}/log")].

Lemma runs_mounted : Forall (fun r => mountedAt createKey (plain (createHandler pf s)) r /\ mountedAt getKey (plain getHandler) r
  /\ mountedAt cancelKey (plain (cancelHandler s)) r) (routes pf s mo).
Proof.
  repeat apply Forall_cons_2; [..|apply Forall_nil_2]. all: split_and!; intros H; first [reflexivity|discriminate H].
Qed.

(** Two requests that differ in their credentials only. *)
Definition sameRequest (rq1 rq2 : request) : Prop :=
  rq_Method rq1 = rq_Method rq2 /\ rq_Path rq1 = rq_Path rq2 /\ rq_Body rq1 = rq_Body rq2
  /\ (forall q, rq_Query rq1 q = rq_Query rq2 q) /\ rq_Header rq1 "Idempotency-Key" = rq_Header rq2 "Idempotency-Key".

Definition rolesUnread (p q : Principal) (r : route) : Prop :=
  routeKey r ∈ runKeys -> forall rq1 rq2 params w st wd, sameRequest rq1 rq2 ->
  rt_Handler r (mkCall rq1 (Some p) params w) st wd = rt_Handler r (mkCall rq2 (Some q) params w) st wd.

Lemma roles_unread p q : Forall (rolesUnread p q) (routes pf s mo).
Proof.
  repeat apply Forall_cons_2; [..|apply Forall_nil_2].
  all: intros Hk rq1 rq2 params w st wd (_ & _ & Hb & Hq & Hh); cbn [rt_Handler]; unfold plain, bindM;
    try (exfalso; revert Hk; apply key_notin; reflexivity).
  - unfold createHandler. cbn [cx_request]. by rewrite Hb, Hh.
  - reflexivity.
  - reflexivity.
  - unfold export. cbn [cx_request]. by rewrite !Hq.
  - reflexivity.
Qed.

(** What a route answers for an outcome of the run service. *)
Definition answers {A} (ok : A -> Z * Run) (out : result A) (resp : response) : Prop :=
  match out with
  | Ok a => resp = mkResponse (ok a).1 [] (PRun (ok a).2)
  | Err _ => 400 <= rs_Status resp /\ isProblem (rs_Payload resp) = true
  end.

Lemma runProblem_answers e wd : exists rp : reply Run, writeRunProblem e wd = (Ok rp, wd)
  /\ 400 <= rs_Status (ofReply PRun rp) /\ isProblem (rs_Payload (ofReply PRun rp)) = true.
Proof. unfold writeRunProblem. repeat case_match; eexists; (split; [reflexivity|]); cbn; split; done || lia. Qed.

Lemma serveRun_answers (m : M Run) wd out wd' : m wd = (out, wd') ->
  exists rp, serveRun true m wd = (Ok rp, wd') /\ answers (fun run => (200, run)) out (ofReply PRun rp).
Proof.
  intros E. unfold serveRun. cbn [negb]. setoid_rewrite (bindM_ok _ _ _ _ _ (tryM_eq _ _ _ _ E)).
  destruct out as [run|e]; [by eexists|]. apply runProblem_answers.
Qed.

Lemma runsCreate_answers svc req key wd out wd' : Create svc (withKey key req) wd = (out, wd') ->
  exists rp, runsCreate svc true (Some req) key wd = (Ok rp, wd')
    /\ answers (fun rc => (if rc.2 : bool then 201 else 200, rc.1)) out (ofReply PRun rp).
Proof.
  intros E. unfold runsCreate. cbn [negb]. setoid_rewrite (bindM_ok _ _ _ _ _ (tryM_eq _ _ _ _ E)).
  destruct out as [[run []]|e]; [by eexists..|]. apply runProblem_answers.
Qed.

Lemma callback_alone c st wd : exists resp st', callbackHandler pf s mo c st wd = (Ok (resp, st'), wd).
Proof. unfold callbackHandler. destruct (oidcCallback _ _ _ _ _ _) as [a st']. by eexists _, _. Qed.

Lemma no_credentials resolve rq : rq_Header rq "Authorization" = "" -> rq_Cookie rq SessionCookie = None ->
  principalOf pf s mo resolve rq = None.
Proof. intros Hh Hc. unfold principalOf, Middleware, httpToken. by rewrite Hh, Hc. Qed.
End access.

Section theorems.
Context (pf : Platform) (s : Server) (mo : moment).

(** C34: A request whose credentials do not verify, or that has none, is
    refused by every route of the run API, of GraphQL and of the session with a
    problem document, sets no cookie and leaves the database, the outputs and the
    sign-in state as they were; the probes, the metrics, the schema and the start
    of a sign-in change nothing either, nor does the callback touch the database.
    A restore link without a token is a bad request, and a webhook whose body is
    not signed with the secret is dropped.  These are all the routes there are:
    only readyz reaches the database. *)
Theorem unauthenticated_requests_refused resolve w rq st wd i params pat r :
  principalOf pf s mo resolve rq = None -> matchOf pf s mo rq = Found i params pat -> routes pf s mo !! i = Some r ->
  let serves := fun sd => serve pf s mo resolve w rq st wd = (Ok sd, wd) in
  (routeKey r ∈ guardedRoutes -> exists sd, serves sd /\ sd_State sd = st /\ refusal s r (sd_Response sd))
  /\ (routeKey r ∈ constantRoutes -> exists sd, serves sd /\ sd_State sd = st)
  /\ (routeKey r = callbackKey -> exists sd, serves sd)
  /\ (routeKey r = restoreKey -> rq_Query rq "token" = "" -> exists sd, serves sd /\ sd_State sd = st /\ rs_Status (sd_Response sd) = 400)
  /\ (routeKey r = webhookKey -> forall decode secret, sv_githubWebhook s = Some (ServeHTTP decode secret) ->
        (forall body, ~ Signed secret (hookOf rq) body) ->
        exists sd, serves sd /\ sd_State sd = st /\ (rs_Status (sd_Response sd) = 400 \/ rs_Status (sd_Response sd) = 401))
  /\ routeKey r ∈ guardedRoutes ++ constantRoutes ++ [callbackKey; restoreKey; webhookKey; readyKey].
Proof.
  intros Hp Hm Hr serves. set (c := mkCall rq (principalOf pf s mo resolve rq) params (statusRecorder w 200)).
  assert (forall resp st', rt_Handler r c st wd = (Ok (resp, st'), wd) ->
    exists sd, serves sd /\ sd_Response sd = resp /\ sd_State sd = st') as Hserve by (intros; by eapply serve_found).
  destruct (routes_cases _ _ _ _ (mounted pf s mo) i r Hr) as (Hcb & Hre & Hwh & _ & Hall).
  split_and!; [| | | | |done].
  - intros Hg. destruct (routes_cases _ _ _ _ (guarded_refuse pf s mo) i r Hr Hg c st wd) as (resp & H & Hf); [done|].
    destruct (Hserve _ _ H) as (sd & H1 & <- & H2). by exists sd.
  - intros Hg. destruct (routes_cases _ _ _ _ (constant_answer pf s mo) i r Hr Hg c st wd) as (resp & H).
    destruct (Hserve _ _ H) as (sd & H1 & _ & H2). by exists sd.
  - intros Hk. destruct (callback_alone pf s mo c st wd) as (resp & st' & H). rewrite <-(Hcb Hk) in H.
    destruct (Hserve _ _ H) as (sd & H1 & _). by exists sd.
  - intros Hk Ht. destruct (Hserve (problem 400 "Missing token" "?token=... required") st) as (sd & H1 & H2 & H3).
    + rewrite (Hre Hk). unfold plain, restoreHandler. cbn [c cx_request]. by rewrite Ht.
    + exists sd. by rewrite H2.
  - intros Hk decode secret Hh Hs. destruct (unsigned_refused decode secret (hookOf rq) wd Hs) as (status & H & Hst).
    destruct (Hserve (mkResponse status [] PEmpty) st) as (sd & H1 & H2 & H3).
    + rewrite (Hwh Hk). unfold plain, githubWebhookRoute. rewrite Hh. cbn [c cx_request]. unfold bindM. by rewrite H.
    + exists sd. by rewrite H2.
Qed.

(** C35: The middleware hands the handlers its own recorder, behind which
    the upgrade finds no [http.Hijacker]: with subscriptions configured and a
    principal that has roles, a request for a subscription session is answered
    with the status of the failed handshake, and no session is ever opened, while
    the handler itself would open one on a writer that Accept accepts. *)
Theorem subscriptions_never_open resolve w rq st wd i params pat r p :
  (forall w rq, isHijacker w = false -> exists code, pf_Accept pf w rq = inr code) ->
  matchOf pf s mo rq = Found i params pat -> routes pf s mo !! i = Some r -> routeKey r = subscriptionsKey ->
  sv_uiNATS s = true -> principalOf pf s mo resolve rq = Some p -> p_Roles p <> [] ->
  (exists code sd, pf_Accept pf (statusRecorder w 200) rq = inr code /\ serve pf s mo resolve w rq st wd = (Ok sd, wd)
     /\ sd_Response sd = mkResponse code [] PEmpty)
  /\ forall w', pf_Accept pf w' rq = inl "graphql-transport-ws" ->
       rt_Handler r (mkCall rq (Some p) params w') st wd = (Ok (mkResponse 101 [] (PUpgraded newSession), st), wd).
Proof.
  intros Hacc Hm Hr Hk Hn Hp Hroles.
  pose proof (routes_cases _ _ _ _ (subscription_mounted pf s mo) i r Hr Hk) as Hh.
  destruct (p_Roles p) as [|role roles] eqn:Er; [done|].
  assert (forall w', rt_Handler r (mkCall rq (Some p) params w') st wd =
    (Ok (match pf_Accept pf w' rq with
         | inr code => mkResponse code [] PEmpty
         | inl sub => mkResponse 101 [] (if String.eqb sub "graphql-transport-ws" then PUpgraded newSession else PEmpty)
         end, st), wd)) as Hserves.
  { intros w'. rewrite Hh. unfold plain, graphqlSubscriptionRoute.
    rewrite Hn. cbn [negb cx_writer cx_request cx_principal]. unfold graphqlSubscriptionHandler. rewrite Er.
    destruct (pf_Accept pf w' rq) as [sub|code]; [|reflexivity]. by destruct (String.eqb sub _). }
  split.
  - destruct (Hacc (statusRecorder w 200) rq eq_refl) as [code Hc]. exists code.
    destruct (serve_found pf s mo resolve w rq st i params pat r wd (mkResponse code [] PEmpty) st wd Hm Hr) as (sd & H1 & H2 & _).
    + rewrite Hp, Hserves, Hc. reflexivity.
    + exists sd. by split_and!.
  - intros w' Hw. rewrite Hserves, Hw. reflexivity.
Qed.

(** C38: A principal is a principal to the run API, whatever its roles and
    scopes: who has any gets of POST /runs, GET /runs/{id} and their cancel exactly
    what the run service does with the request - its change of the world, and its
    run or its problem; two requests that differ in their credentials only are
    answered alike by the five routes; and the methods of the gRPC service do the
    same behind their interceptor, which asks for a principal and nothing more.
    Only the mutations of GraphQL look at the role, and refuse who is neither
    engineer nor admin. *)
Theorem run_api_ignores_roles resolve w rq st wd i params pat r p :
  principalOf pf s mo resolve rq = Some p -> matchOf pf s mo rq = Found i params pat -> routes pf s mo !! i = Some r ->
  let answered := fun {A} (ok : A -> Z * Run) out wd' => exists sd, serve pf s mo resolve w rq st wd = (Ok sd, wd')
    /\ sd_State sd = st /\ answers ok out (sd_Response sd) in
  (routeKey r = createKey -> forall req out wd', pf_decodeRun pf (rq_Body rq) = Some req ->
     Create (service s) (withKey (rq_Header rq "Idempotency-Key") req) wd = (out, wd') ->
     answered (fun rc => (if rc.2 : bool then 201 else 200, rc.1)) out wd')
  /\ (routeKey r = getKey -> forall out wd', Get (params "id") wd = (out, wd') -> answered (fun run => (200, run)) out wd')
  /\ (routeKey r = cancelKey -> forall out wd', Cancel (service s) (params "id") wd = (out, wd') -> answered (fun run => (200, run)) out wd')
  /\ (routeKey r ∈ runKeys -> forall resolve' rq' q, sameRequest rq rq' -> principalOf pf s mo resolve' rq' = Some q ->
        serve pf s mo resolve w rq st wd = serve pf s mo resolve' w rq' st wd)
  /\ (forall verify keys md q wd, authenticate verify keys md = Some q ->
        (forall req out wd', Create (service s) (protoToCreateReq req) wd = (out, wd') ->
           RunsServer verify keys (service s) md (CallCreateRun req) wd
           = (Ok (match out with Ok rc => inl (runToProto rc.1) | Err e => inr (grpcErr e) end), wd'))
        /\ (forall id out wd', Get id wd = (out, wd') ->
           RunsServer verify keys (service s) md (CallGetRun id) wd
           = (Ok (match out with Ok run => inl (runToProto run) | Err e => inr (grpcErr e) end), wd'))
        /\ (forall id out wd', Cancel (service s) id wd = (out, wd') ->
           RunsServer verify keys (service s) md (CallCancelRun id) wd
           = (Ok (match out with Ok run => inl (runToProto run) | Err e => inr (grpcErr e) end), wd')))
  /\ (forall verify keys md c wd, authenticate verify keys md = None ->
        RunsServer verify keys (service s) md c wd = (Ok (inr Unauthenticated), wd))
  /\ (HasRole p [RoleEngineer; RoleAdmin] = false -> forall id reason wd,
        resolveRerunFailed (Some p) id wd = (Err errForbiddenMutation, wd)
        /\ resolveQuarantineTest (Some p) id reason wd = (Err errForbiddenMutation, wd)
        /\ resolveUnquarantineTest (Some p) id wd = (Err errForbiddenMutation, wd)).
Proof.
  intros Hp Hm Hr answered. destruct (routes_cases _ _ _ _ (runs_mounted pf s mo) i r Hr) as (Hcr & Hge & Hca).
  assert (forall A (ok : A -> Z * Run) out wd' (m : M (reply Run)) h, rt_Handler r = plain h ->
    (forall c, cx_request c = rq -> signedIn c = true -> (forall k, cx_param c k = params k) -> h c wd = bindM m (fun rp => retM (ofReply PRun rp)) wd) ->
    (exists rp, m wd = (Ok rp, wd') /\ answers ok out (ofReply PRun rp)) -> answered A ok out wd') as Hserve.
  { intros A ok out wd' m h Eh Hh (rp & Em & Ha).
    destruct (serve_found pf s mo resolve w rq st i params pat r wd (ofReply PRun rp) st wd' Hm Hr) as (sd & H1 & H2 & H3).
    - rewrite Hp, Eh. unfold plain, bindM. rewrite Hh by done. unfold bindM. by rewrite Em.
    - exists sd. by rewrite H2. }
  split_and!.
  - intros Hk req out wd' Hb E. eapply Hserve; [exact (Hcr Hk)| |by apply runsCreate_answers, E].
    intros c Hq Hs _. unfold createHandler. by rewrite Hs, Hq, Hb.
  - intros Hk out wd' E. eapply Hserve; [exact (Hge Hk)| |by apply serveRun_answers, E].
    intros c _ Hs Hpa. unfold getHandler. by rewrite Hs, Hpa.
  - intros Hk out wd' E. eapply Hserve; [exact (Hca Hk)| |by apply serveRun_answers, E].
    intros c _ Hs Hpa. unfold cancelHandler. by rewrite Hs, Hpa.
  - intros Hk resolve' rq' q Hsame Hq. pose proof (routes_cases _ _ _ _ (roles_unread pf s mo p q) i r Hr Hk) as Hu.
    pose proof Hsame as (Em & Epa & _). unfold serve. rewrite Hp, Hq. unfold matchOf. rewrite <-Em, <-Epa.
    change (pf_chi pf (map routeKey (routes pf s mo)) (rq_Method rq) (rq_Path rq)) with (matchOf pf s mo rq).
    rewrite Hm. unfold dispatch, bindM. rewrite Hr. cbn [cx_request cx_principal cx_writer]. by rewrite (Hu _ _ _ _ _ _ Hsame).
  - intros verify keys md q wd' Ha. unfold RunsServer, AuthUnaryInterceptor. rewrite Ha.
    split_and!; intros; cbn [runsMethod]; by apply rpc_answer.
  - intros verify keys md c wd' Ha. unfold RunsServer, AuthUnaryInterceptor. rewrite Ha. by destruct c.
  - intros Hrole id reason wd'. unfold resolveRerunFailed, resolveQuarantineTest, resolveUnquarantineTest, gated, requireMutationRole.
    by rewrite Hrole.
Qed.
End theorems.

(** * Concrete requests *)

Module GatewayDemo.
(** A router without parameters in its patterns, tokens that are e-mail
    addresses, a handshake that needs a hijacker. *)
Definition chi (keys : list (string * string)) (method path : string) : routeMatch :=
  match list_find (fun k => k = (method, path)) keys with
  | Some (i, _) => Found i (fun _ => "r1") path
  | None => NotFound ""
  end.
Definition jwt : JwtLib := mkJwtLib id (fun _ _ => Err (ErrText "no key"))
  (fun _ now tok => if String.eqb tok "bob" then Ok (mkClaims "teo" "u1" 0 (now + 1) "bob@acme.io" [RoleReadOnly]) else Err (ErrText "bad token")).
Definition accept (w : responseWriter) (rq : request) : string + Z :=
  if isHijacker w then inl "graphql-transport-ws" else inr 501.
Definition pf : Platform :=
  mkPlatform chi jwt accept (fun _ _ => retM "{}") (fun _ => inl "EOF") (fun _ => None) Some (fun _ => []) (fun _ => Ok "")
    (fun _ => Ok "") (fun _ => Ok "") "" "".
Definition server : Server :=
  New (mkAPIConfig "0123456789abcdef0123456789abcdef" 0 "") [WithUISubscriptions true; WithRunService (Some (mkService true))].
Definition mo : moment := mkMoment 1000 None None.
Definition noKey (prefix display : string) : option Principal := None.
Definition empty : authState := mkAuthState ∅ (mkUserTables ∅ []).
Definition get (path token : string) : request :=
  mkRequest "GET" path (fun h => if String.eqb h "Authorization" then token else "") (fun _ => None) (fun _ => "") None.
Definition world : World := QW emptyDB None 0 (fun n => itoa (Z.of_nat n)) 0 ∅ [] idleAgent.
End GatewayDemo.

Lemma unauthenticated_requests_refused_witness :
  exists sd, serve GatewayDemo.pf GatewayDemo.server GatewayDemo.mo GatewayDemo.noKey (NetWriter true None)
    (GatewayDemo.get "/auth/session" "") GatewayDemo.empty GatewayDemo.world = (Ok sd, GatewayDemo.world)
  /\ sd_State sd = GatewayDemo.empty /\ rs_Status (sd_Response sd) = 401.
Proof.
  destruct (unauthenticated_requests_refused GatewayDemo.pf GatewayDemo.server GatewayDemo.mo GatewayDemo.noKey (NetWriter true None)
    (GatewayDemo.get "/auth/session" "") GatewayDemo.empty GatewayDemo.world 12 (fun _ => "r1") "/auth/session"
    (mkRoute "GET" "/auth/session" (plain (sessionHandler))) eq_refl eq_refl eq_refl) as [H _].
  destruct H as (sd & H1 & H2 & _ & _ & H3); [vm_compute; do 5 right; left|]. exists sd. split; [exact H1|]. split; [exact H2|].
  destruct H3 as [H3|(H3 & _)]; [exact H3|discriminate H3].
Defined.

Lemma subscriptions_never_open_witness :
  exists code sd, serve GatewayDemo.pf GatewayDemo.server GatewayDemo.mo GatewayDemo.noKey (NetWriter true None)
    (GatewayDemo.get "/graphql/subscriptions" "Bearer bob") GatewayDemo.empty GatewayDemo.world = (Ok sd, GatewayDemo.world)
  /\ sd_Response sd = mkResponse code [] PEmpty.
Proof.
  destruct (subscriptions_never_open GatewayDemo.pf GatewayDemo.server GatewayDemo.mo GatewayDemo.noKey (NetWriter true None)
    (GatewayDemo.get "/graphql/subscriptions" "Bearer bob") GatewayDemo.empty GatewayDemo.world 16 (fun _ => "r1") "/graphql/subscriptions"
    (mkRoute "GET" "/graphql/subscriptions" (plain (graphqlSubscriptionRoute GatewayDemo.pf GatewayDemo.server)))
    (mkPrincipal "u1" "bob@acme.io" "" [RoleReadOnly] [] false)) as [H _]; [|done..|].
  - intros w rq Hw. exists 501. unfold GatewayDemo.pf, pf_Accept, GatewayDemo.accept. by rewrite Hw.
  - destruct H as (code & sd & _ & H1 & H2). by exists code, sd.
Defined.

(** A reader without any other role creates a run. *)
Module ReaderDemo.
Definition pf : Platform :=
  mkPlatform GatewayDemo.chi GatewayDemo.jwt GatewayDemo.accept (fun _ _ => retM "{}") (fun _ => inl "EOF")
    (fun _ => Some (RunSvcDemo.request "c1")) Some (fun _ => []) (fun _ => Ok "") (fun _ => Ok "") (fun _ => Ok "") "" "".
Definition rq : request :=
  mkRequest "POST" "/api/v1/runs/" (fun h => if String.eqb h "Authorization" then "Bearer bob" else "k") (fun _ => None) (fun _ => "") None.
Definition world : World := QW RunSvcDemo.db None 9 RunSvcDemo.ids 0 ∅ [] idleAgent.
End ReaderDemo.

Lemma run_api_ignores_roles_witness :
  p_Roles <$> principalOf ReaderDemo.pf GatewayDemo.server GatewayDemo.mo GatewayDemo.noKey ReaderDemo.rq = Some [RoleReadOnly]
  /\ exists sd wd', serve ReaderDemo.pf GatewayDemo.server GatewayDemo.mo GatewayDemo.noKey (NetWriter true None) ReaderDemo.rq
       GatewayDemo.empty ReaderDemo.world = (Ok sd, wd')
     /\ rs_Status (sd_Response sd) = 201 /\ (r_status <$> runs (w_db wd') !! "r0") = Some "pending".
Proof.
  split; [vm_compute; reflexivity|].
  destruct (Create (service GatewayDemo.server) (withKey "k" (RunSvcDemo.request "c1")) ReaderDemo.world) as [out wd'] eqn:E.
  destruct (run_api_ignores_roles ReaderDemo.pf GatewayDemo.server GatewayDemo.mo GatewayDemo.noKey (NetWriter true None)
    ReaderDemo.rq GatewayDemo.empty ReaderDemo.world 3 (fun _ => "r1") "/api/v1/runs/"
    (mkRoute "POST" "/api/v1/runs/" (plain (createHandler ReaderDemo.pf GatewayDemo.server)))
    (mkPrincipal "u1" "bob@acme.io" "" [RoleReadOnly] [] false) eq_refl eq_refl eq_refl) as [H _].
  destruct (H eq_refl (RunSvcDemo.request "c1") out wd' eq_refl E) as (sd & H1 & _ & H2). exists sd, wd'.
  vm_compute in E. injection E as <- <-. split; [exact H1|]. cbn in H2. rewrite H2. split; reflexivity.
Defined.
