(* ===== verification/ApiMain.v ===== *)
(** * cmd/api and internal/config

    The settings of the services, read from the environment (with
    [time.ParseDuration]), the start of the API gateway: what it refuses to start
    with, which parts each setting enables, and the two servers it starts; the
    API-key resolver of the gRPC server with its own query.  Opening connections and listeners is
    outside. *)

From S2P Require Import Prelude GoBytes GoFloat GoRegexp GoStrings GoFmt Model Effects RunSvc Auth ApiKeys Rest Otlp Export Oidc.
From S2P Require Import OidcProps Webhook GrpcSvc Gateway.

(** ** [time.ParseDuration] *)

Definition digit (c : ascii) : bool := (48 <=? byteOf c) && (byteOf c <=? 57).
Definition max63 : Z := 2 ^ 63.

(** [leadingInt]: the number and the rest, or an overflow. *)
Fixpoint leadingInt (x : Z) (t : text) : option (Z * text) :=
  match t with
  | c :: t' =>
      if digit c then
        if max63 / 10 <? x then None
        else let x := x * 10 + (byteOf c - 48) in
             if max63 <? x then None else leadingInt x t'
      else Some (x, t)
  | [] => Some (x, [])
  end.

(** [leadingFraction]: the digits that fit, the power of ten they count, the
    rest. *)
Fixpoint leadingFraction (x : Z) (scale : float64) (overflow : bool) (t : text) : Z * float64 * text :=
  match t with
  | c :: t' =>
      if digit c then
        if overflow then leadingFraction x scale true t'
        else if (max63 - 1) / 10 <? x then leadingFraction x scale true t'
        else
          let y := x * 10 + (byteOf c - 48) in
          if max63 <? y then leadingFraction x scale true t'
          else leadingFraction y (f64_mul scale (f64_ofZ 10)) false t'
      else (x, scale, t)
  | [] => (x, scale, [])
  end.

(** [unitMap]; the two spellings of the micro sign are UTF-8 bytes. *)
Definition unitMap (u : string) : option Z :=
  if String.eqb u "ns" then Some 1
  else if String.eqb u "us" || String.eqb u "µs" || String.eqb u "μs" then Some 1000
  else if String.eqb u "ms" then Some 1000000
  else if String.eqb u "s" then Some 1000000000
  else if String.eqb u "m" then Some 60000000000
  else if String.eqb u "h" then Some 3600000000000
  else None.

Definition unitChar (c : ascii) : bool := negb (digit c || (byteOf c =? 46)).

Fixpoint spanUnit (t : text) : text * text :=
  match t with
  | c :: t' => if unitChar c then let '(u, r) := spanUnit t' in (c :: u, r) else ([], t)
  | [] => ([], [])
  end.

(** One number with its unit: the nanoseconds and the rest. *)
Definition parseComponent (t : text) : option (Z * text) :=
  '(v, t1) ← leadingInt 0 t;
  let pre := negb (Nat.eqb (length t1) (length t)) in
  let '(f, scale, t2, post) :=
    match t1 with
    | c :: t1' =>
        if byteOf c =? 46 then
          let '(f, scale, t2) := leadingFraction 0 (f64_ofZ 1) false t1' in
          (f, scale, t2, negb (Nat.eqb (length t2) (length t1')))
        else (0, f64_ofZ 1, t1, false)
    | [] => (0, f64_ofZ 1, t1, false)
    end in
  if negb pre && negb post then None
  else
    let '(u, t3) := spanUnit t2 in
    match unitMap (ofText u) with
    | None => None
    | Some unit_ =>
        if max63 / unit_ <? v then None
        else
          let v := v * unit_ in
          let v := if 0 <? f then v + f64_trunc (f64_mul (f64_ofZ f) (f64_div (f64_ofZ unit_) scale)) else v in
          if max63 <? v then None else Some (v, t3)
    end.

(** Every component takes a character. *)
Fixpoint parseComponents (fuel : nat) (d : Z) (t : text) : option Z :=
  match t, fuel with
  | [], _ => Some d
  | _, O => None
  | _, S n =>
      '(v, t') ← parseComponent t;
      let d := d + v in
      if max63 <? d then None else parseComponents n d t'
  end.

Definition ParseDuration (s : string) : option Z :=
  let t := toText s in
  let '(neg, t) := match t with
                   | c :: t' => if byteOf c =? 45 then (true, t') else if byteOf c =? 43 then (false, t') else (false, t)
                   | [] => (false, [])
                   end in
  match t with
  | [] => None
  | _ =>
      if bool_decide (t = toText "0") then Some 0
      else
        d ← parseComponents (length t) 0 t;
        if (neg : bool) then Some (- d) else if max63 - 1 <? d then None else Some d
  end.

Example ParseDuration_demo : ParseDuration <$> ["1h"; "-1.5h"; "2m3.25s"; "0"; "100ms"; "5"; ""; ".5s"; "9223372036854775808ns"; "-9223372036854775808ns"; "1h1x"]
  = [Some 3600000000000; Some (-5400000000000); Some 123250000000; Some 0; Some 100000000; None; None; Some 500000000; None;
     Some (-9223372036854775808); None].
Proof. vm_compute. reflexivity. Qed.

(** ** internal/config *)

Section config.
(** [os.Getenv] *)
Context (env : string -> string).

Definition getEnv (k def : string) : string := if String.eqb (env k) "" then def else env k.

Definition getDuration (k : string) (def : Z) : Z :=
  if String.eqb (env k) "" then def else match ParseDuration (env k) with Some d => d | None => def end.

Record Common := mkCommon {
  c_Env : string; c_LogLevel : string; c_OTLPEndpoint : string;
  c_HTTPListenAddr : string; c_GRPCListenAddr : string;
  c_PostgresDSN : string; c_ClickHouseDSN : string; c_NATSURL : string;
  c_S3Endpoint : string; c_S3Bucket : string; c_S3Region : string;
  c_JWTSecret : string; c_JWTTTL : Z; c_GitHubWebhookSecret : string;
  c_PredictorMLURL : string; c_PredictorMLTimeout : Z;
  c_OIDCIssuer : string; c_OIDCClientID : string; c_OIDCClientSecret : string; c_OIDCRedirectURL : string;
  c_UIBaseURL : string
}.

Definition LoadCommon : Common := {|
  c_Env := getEnv "TEO_ENV" "dev";
  c_LogLevel := getEnv "TEO_LOG_LEVEL" "info";
  c_OTLPEndpoint := getEnv "TEO_OTLP_ENDPOINT" "";
  c_HTTPListenAddr := getEnv "TEO_HTTP_LISTEN" ":8080";
  c_GRPCListenAddr := getEnv "TEO_GRPC_LISTEN" ":9090";
  c_PostgresDSN := getEnv "TEO_POSTGRES_DSN" "";
  c_ClickHouseDSN := getEnv "TEO_CLICKHOUSE_DSN" "";
  c_NATSURL := getEnv "TEO_NATS_URL" "nats://localhost:4222";
  c_S3Endpoint := getEnv "TEO_S3_ENDPOINT" "";
  c_S3Bucket := getEnv "TEO_S3_BUCKET" "teo-artifacts";
  c_S3Region := getEnv "TEO_S3_REGION" "us-east-1";
  c_JWTSecret := getEnv "TEO_JWT_SECRET" "";
  c_JWTTTL := getDuration "TEO_JWT_TTL" hour;
  c_GitHubWebhookSecret := getEnv "TEO_GITHUB_WEBHOOK_SECRET" "";
  c_PredictorMLURL := getEnv "TEO_PREDICTOR_ML_URL" "";
  c_PredictorMLTimeout := getDuration "TEO_PREDICTOR_ML_TIMEOUT" (3 * second);
  c_OIDCIssuer := getEnv "TEO_OIDC_ISSUER" "";
  c_OIDCClientID := getEnv "TEO_OIDC_CLIENT_ID" "";
  c_OIDCClientSecret := getEnv "TEO_OIDC_CLIENT_SECRET" "";
  c_OIDCRedirectURL := getEnv "TEO_OIDC_REDIRECT_URL" "";
  c_UIBaseURL := getEnv "TEO_UI_BASE_URL" ""
|}.
End config.

(** ** cmd/api *)

(** The WHERE clause of the gRPC server's own query. *)
Definition grpcKeyRow (prefix : string) (now : Z) (kv : string * key_row) : bool :=
  bool_decide (ak_prefix kv.2 = prefix) && bool_decide (ak_revoked_at kv.2 = None)
  && (bool_decide (ak_expires_at kv.2 = None) || match ak_expires_at kv.2 with Some x => bool_decide (now < x) | None => false end).

Definition grpcSelectKey (prefix : string) (now : Z) (ks : gmap string key_row) : option (string * string * list string) :=
  match List.find (grpcKeyRow prefix now) (map_to_list ks) with
  | Some (id, k) => Some (id, ak_hash k, ak_scopes k)
  | None => None
  end.

(** [grpcAPIKeyResolver]; [table]: what the query reads, or its failure. *)
Definition grpcAPIKeyResolver (argon2 : list Z -> list Z -> list Z) (table : result (gmap string key_row)) (now : Z)
    (prefix display : string) : result Principal :=
  match table with
  | Err e => Err e
  | Ok ks =>
      match grpcSelectKey prefix now ks with
      | None => Err ErrNoRows
      | Some (id, hash, scopes) =>
          match VerifyAPIKey argon2 display hash with
          | None => Err (ErrText "api key verification failed")
          | Some _ => Ok (mkPrincipal "" "" id [RoleEngineer] scopes true)
          end
      end
  end.

(** What the start of the gateway opens. *)
Record Outside := mkOutside {
  os_OpenPostgres : string -> result unit;
  os_OpenClickHouseConn : string -> result SpanQuerier;
  os_NewS3 : string -> string -> string -> result Presigner;
  os_discovery : string -> result (Z * result discoveryDoc);
  (** the methods of a provider as the interface of the server *)
  os_authenticator : Oidc.Provider -> oidcAuthenticator;
  os_NATSConnect : string -> result unit;
  os_Listen : string -> result unit;
  os_decodeInstallation : string -> option installationEvent;
  os_roleResolver : RoleResolver
}.

(** A process that exits, or the two servers. *)
Inductive started :=
  | Exit (code : Z) (msg : string)
  | Serving (http : Server) (httpAddr grpcAddr : string) (grpcIssuer : JWTIssuer) (grpcRuns : Service).

Section main.
Context (out : Outside) (env : string -> string).

(** The redirect URL registered with the provider. *)
Definition redirectURL (cfg : Common) : string :=
  if String.eqb (c_OIDCRedirectURL cfg) "" && negb (String.eqb (c_UIBaseURL cfg) "")
  then trimRightSlash (c_UIBaseURL cfg) +:+ "/auth/callback" else c_OIDCRedirectURL cfg.

(** The options of each part that has settings, or the error the process ends
    with. *)
Definition clickhouseOptions (cfg : Common) : result (list Option) :=
  if String.eqb (c_ClickHouseDSN cfg) "" then Ok []
  else match os_OpenClickHouseConn out (c_ClickHouseDSN cfg) with
       | Err _ => Err (ErrText "clickhouse open failed")
       | Ok conn => Ok [WithClickHouseConn (Some conn)]
       end.

Definition logOptions (cfg : Common) : result (list Option) :=
  if String.eqb (env "TEO_S3_BUCKET") "" then Ok []
  else match os_NewS3 out (c_S3Region cfg) (c_S3Endpoint cfg) (c_S3Bucket cfg) with
       | Err _ => Err (ErrText "logstore init failed")
       | Ok store => Ok [WithLogPresigner (Some store)]
       end.

Definition webhookOptions (cfg : Common) : list Option :=
  if String.eqb (c_GitHubWebhookSecret cfg) "" then []
  else [WithGitHubWebhook (Some (ServeHTTP (os_decodeInstallation out) (c_GitHubWebhookSecret cfg)))].

Definition oidcOptions (cfg : Common) : result (list Option) :=
  if negb (String.eqb (c_OIDCIssuer cfg) "") && negb (String.eqb (c_OIDCClientID cfg) "") then
    match NewProvider (os_discovery out)
            (Oidc.mkConfig (c_OIDCIssuer cfg) (c_OIDCClientID cfg) (c_OIDCClientSecret cfg) (redirectURL cfg) []) with
    | Err _ => Err (ErrText "oidc discovery failed")
    | Ok provider => Ok [WithOIDC (Some (os_authenticator out provider)) (c_UIBaseURL cfg); WithRoleResolver (Some (os_roleResolver out))]
    end
  else Ok [].

Definition natsOptions (cfg : Common) : list Option :=
  match os_NATSConnect out (c_NATSURL cfg) with Ok _ => [WithUISubscriptions true] | Err _ => [] end.

(** [logger.Error(..); os.Exit(1)] *)
Definition orExit {A} (r : result A) (k : A -> started) : started :=
  match r with Ok a => k a | Err (ErrText msg) => Exit 1 msg | Err _ => Exit 1 "" end.

Definition named {A} (msg : string) (r : result A) : result A := match r with Ok a => Ok a | Err _ => Err (ErrText msg) end.

Definition main : started :=
  let cfg := LoadCommon env in
  if String.eqb (c_PostgresDSN cfg) "" then Exit 1 "TEO_POSTGRES_DSN is required"
  else if String.eqb (c_JWTSecret cfg) "" then Exit 1 "TEO_JWT_SECRET is required"
  else if (String.length (c_JWTSecret cfg) <? 32)%nat then Exit 1 "TEO_JWT_SECRET must be at least 32 bytes"
  else
    orExit (named "postgres open failed" (os_OpenPostgres out (c_PostgresDSN cfg))) (fun _ =>
    orExit (clickhouseOptions cfg) (fun ch =>
    orExit (logOptions cfg) (fun logs =>
    orExit (oidcOptions cfg) (fun oidc =>
    let runSvc := mkService true in
    let srv := New (mkAPIConfig (c_JWTSecret cfg) (c_JWTTTL cfg) "")
      (ch ++ logs ++ webhookOptions cfg ++ oidc ++ natsOptions cfg ++ [WithRunService (Some runSvc)]) in
    orExit (named "grpc listen failed" (os_Listen out (c_GRPCListenAddr cfg))) (fun _ =>
    Serving srv (c_HTTPListenAddr cfg) (c_GRPCListenAddr cfg) (mkJWTIssuer (c_JWTSecret cfg) (c_JWTTTL cfg) "teo") runSvc))))).
End main.

(** * What a gateway that starts looks like *)

Section start.
Context (out : Outside) (env : string -> string).
Abbreviation cfg := (LoadCommon env) (only parsing).

Lemma orExit_serving {A} (r : result A) k http ha ga iss runs :
  orExit r k = Serving http ha ga iss runs -> exists a, r = Ok a /\ k a = Serving http ha ga iss runs.
Proof. destruct r as [a|[]]; intros H; try discriminate H. by exists a. Qed.

Lemma named_ok {A} msg (r : result A) a : named msg r = Ok a -> r = Ok a.
Proof. destruct r; [|done]. by intros [= ->]. Qed.

Record optionsOf (ch logs oidc : list Option) : Prop := {
  oo_ch : ch = [] /\ c_ClickHouseDSN cfg = "" \/ c_ClickHouseDSN cfg <> "" /\ exists conn, ch = [WithClickHouseConn (Some conn)];
  oo_logs : logs = [] /\ env "TEO_S3_BUCKET" = "" \/ env "TEO_S3_BUCKET" <> "" /\ exists store, logs = [WithLogPresigner (Some store)];
  oo_oidc : oidc = [] /\ (c_OIDCIssuer cfg = "" \/ c_OIDCClientID cfg = "")
    \/ c_OIDCIssuer cfg <> "" /\ c_OIDCClientID cfg <> ""
       /\ exists oa, oidc = [WithOIDC (Some oa) (c_UIBaseURL cfg); WithRoleResolver (Some (os_roleResolver out))]
}.

Lemma main_serving http ha ga iss runs : main out env = Serving http ha ga iss runs ->
  exists ch logs oidc, optionsOf ch logs oidc
  /\ c_PostgresDSN cfg <> "" /\ (32 <= String.length (c_JWTSecret cfg))%nat
  /\ http = New (mkAPIConfig (c_JWTSecret cfg) (c_JWTTTL cfg) "")
       (ch ++ logs ++ webhookOptions out cfg ++ oidc ++ natsOptions out cfg ++ [WithRunService (Some (mkService true))])
  /\ iss = mkJWTIssuer (c_JWTSecret cfg) (c_JWTTTL cfg) "teo" /\ runs = mkService true.
Proof.
  unfold main. destruct (String.eqb_spec (c_PostgresDSN cfg) "") as [|Hdsn]; [done|].
  destruct (String.eqb_spec (c_JWTSecret cfg) "") as [|Hsec]; [done|].
  destruct (Nat.ltb_spec (String.length (c_JWTSecret cfg)) 32) as [|Hlen]; [done|].
  intros (_ & _ & (ch & Hch & (logs & Hlogs & (oidc & Hoidc & (u & _ & H)%orExit_serving)%orExit_serving)%orExit_serving)%orExit_serving)%orExit_serving.
  injection H as <- _ _ <- <-. exists ch, logs, oidc. split_and!; [|done..]. split.
  - unfold clickhouseOptions in Hch. destruct (String.eqb_spec (c_ClickHouseDSN cfg) "") as [|Hne]; [by injection Hch as <-; left|].
    right. split; [done|]. destruct (os_OpenClickHouseConn _ _) as [conn|]; [|done]. injection Hch as <-. by exists conn.
  - unfold logOptions in Hlogs. destruct (String.eqb_spec (env "TEO_S3_BUCKET") "") as [|Hne]; [by injection Hlogs as <-; left|].
    right. split; [done|]. destruct (os_NewS3 _ _ _ _) as [store|]; [|done]. injection Hlogs as <-. by exists store.
  - unfold oidcOptions in Hoidc. destruct (String.eqb_spec (c_OIDCIssuer cfg) "") as [|Hi]; [injection Hoidc as <-; left; auto|].
    destruct (String.eqb_spec (c_OIDCClientID cfg) "") as [|Hc]; [injection Hoidc as <-; left; auto|]. cbn in Hoidc.
    right. split_and!; [done..|]. destruct (NewProvider _ _) as [pv|]; [|done]. injection Hoidc as <-. by eexists.
Qed.

Definition keepsIssuer (o : Option) : Prop := forall s, si_jwt (sv_signIn (o s)) = si_jwt (sv_signIn s).

Lemma foldl_issuer opts s : Forall keepsIssuer opts -> si_jwt (sv_signIn (foldl (fun s o => o s) s opts)) = si_jwt (sv_signIn s).
Proof. intros H. revert s. induction H as [|o opts Ho _ IH]; intros s; [done|]. cbn. by rewrite IH. Qed.

Lemma main_jwt http ha ga iss runs : main out env = Serving http ha ga iss runs ->
  si_jwt (sv_signIn http) = mkJWTIssuer (c_JWTSecret cfg) (if c_JWTTTL cfg =? 0 then hour else c_JWTTTL cfg) "teo".
Proof.
  intros (ch & logs & oidc & Ho & _ & _ & -> & _)%main_serving. unfold New. rewrite foldl_issuer; [done|].
  destruct Ho as [Hch Hlogs Hoidc]. unfold webhookOptions, natsOptions.
  destruct Hch as [[-> _]|[_ (conn & ->)]], Hlogs as [[-> _]|[_ (store & ->)]], Hoidc as [[-> _]|(_ & _ & oa & ->)],
    (os_NATSConnect out _) as [u|], (String.eqb (c_GitHubWebhookSecret cfg) "").
  all: by repeat first [apply Forall_cons_2|apply Forall_nil_2].
Qed.

(** A gateway that starts has a database and a signing secret of at
    least 32 bytes; each optional part is there exactly when its settings are:
    the span export, the log links, the webhook with its secret, sign-in with
    the role resolver and secure cookies for an https address, subscriptions
    when NATS answered.  HTTP and gRPC share the run service and sign and verify
    with the same secret. *)
Theorem gateway_starts_as_configured http ha ga iss runs : main out env = Serving http ha ga iss runs ->
  c_PostgresDSN cfg <> "" /\ (32 <= String.length (c_JWTSecret cfg))%nat
  /\ si_jwt (sv_signIn http) = mkJWTIssuer (c_JWTSecret cfg) (if c_JWTTTL cfg =? 0 then hour else c_JWTTTL cfg) "teo"
  /\ ji_Secret iss = c_JWTSecret cfg /\ ji_Issuer iss = "teo" /\ sv_runSvc http = Some runs
  /\ (is_Some (sv_spans http) <-> c_ClickHouseDSN cfg <> "")
  /\ (is_Some (sv_logPresigner http) <-> env "TEO_S3_BUCKET" <> "")
  /\ sv_githubWebhook http = (if String.eqb (c_GitHubWebhookSecret cfg) "" then None
                              else Some (ServeHTTP (os_decodeInstallation out) (c_GitHubWebhookSecret cfg)))
  /\ (is_Some (sv_oidc http) <-> c_OIDCIssuer cfg <> "" /\ c_OIDCClientID cfg <> "")
  /\ (is_Some (sv_oidc http) -> si_cookieSecure (sv_signIn http) = hasPrefix (toText (c_UIBaseURL cfg)) (toText "https")
        /\ sv_roleResolver http = Some (os_roleResolver out))
  /\ (sv_uiNATS http = true <-> exists u, os_NATSConnect out (c_NATSURL cfg) = Ok u).
Proof.
  intros (ch & logs & oidc & Ho & Hdsn & Hlen & -> & -> & ->)%main_serving. destruct Ho as [Hch Hlogs Hoidc].
  unfold webhookOptions, natsOptions. generalize dependent ch. generalize dependent logs. generalize dependent oidc.
  intros oidc Hoidc logs Hlogs ch Hch.
  destruct Hch as [[-> E1]|[E1 (conn & ->)]], Hlogs as [[-> E2]|[E2 (store & ->)]], Hoidc as [[-> E3]|(E3 & E4 & oa & ->)],
    (os_NATSConnect out _) as [u|], (String.eqb (c_GitHubWebhookSecret cfg) "") eqn:Ew.
  all: cbn; split_and!; try done; try (split; intros; naive_solver). all: try naive_solver.
Qed.
End start.

(** ** The two servers accept the same credentials *)

Section agree.
Context (argon2 : list Z -> list Z -> list Z).

(** What the query of the HTTP server answers. *)
Definition httpKeyRow (table : result (gmap string key_row)) (now : Z) (prefix : string) : result (option (string * string * list string)) :=
  match table with Ok ks => Ok (selectKey prefix now ks) | Err e => Err e end.

(** The two WHERE clauses select the same rows. *)
Lemma grpcKeyRow_live prefix now kv : grpcKeyRow prefix now kv = liveKey now prefix kv.
Proof.
  destruct kv as [id k]. unfold grpcKeyRow, liveKey. cbn [snd]. f_equal; [f_equal|].
  - by destruct (String.eqb_spec (ak_prefix k) prefix); case_bool_decide.
  - destruct (ak_expires_at k) as [x|]; [|by rewrite bool_decide_true].
    rewrite bool_decide_false by done. cbn [orb]. destruct (Z.ltb_spec now x); case_bool_decide; done || lia.
Qed.

Lemma grpcSelectKey_select prefix now ks : grpcSelectKey prefix now ks = selectKey prefix now ks.
Proof.
  unfold grpcSelectKey, selectKey. induction (map_to_list ks) as [|[id k] l IH]; [done|]. cbn [List.find].
  rewrite grpcKeyRow_live. by destruct (liveKey now prefix (id, k)).
Qed.

Lemma grpcAPIKeyResolver_lookup table now prefix display :
  okOf (grpcAPIKeyResolver argon2 table now prefix display) = okOf (lookupKey argon2 prefix display (httpKeyRow table now prefix)).
Proof.
  unfold grpcAPIKeyResolver, lookupKey, httpKeyRow. destruct table as [ks|]; [|done]. rewrite grpcSelectKey_select.
  destruct (selectKey prefix now ks) as [[[id hash] scopes]|]; [|done]. by destruct (VerifyAPIKey argon2 display hash).
Qed.

(** Who the gRPC server takes for an API key presents the secret of a live row. *)
Lemma grpcAPIKeyResolver_vouched table now prefix display p : okOf (grpcAPIKeyResolver argon2 table now prefix display) = Some p ->
  exists ks, table = Ok ks /\ Vouched argon2 (fun _ => ks) now prefix display p.
Proof.
  rewrite grpcAPIKeyResolver_lookup. unfold httpKeyRow. destruct table as [ks|]; [|done]. intros H. exists ks. split; [done|].
  destruct (lookupKey _ _ _ _) as [q|] eqn:E; [|done]. injection H as ->. by apply (lookupKey_vouched argon2 (fun _ => ks) now).
Qed.

Lemma resolveAPIKey_miss prefix display now now' row c : cacheGet now (cacheKey prefix display) c = None ->
  okOf (resolveAPIKey argon2 prefix display now now' row c).1 = okOf (lookupKey argon2 prefix display row).
Proof. unfold resolveAPIKey. intros ->. by destruct (lookupKey _ _ _ _). Qed.

(** A bearer token of no white space reaches the shared check as it is. *)
Lemma bearer_http tok cookie : Forall (fun c => isSpace c = false) (toText tok) ->
  httpToken ("Bearer " +:+ tok) cookie = toText tok.
Proof.
  intros Ht. unfold httpToken. rewrite (proj2 (String.eqb_neq _ _)) by done. cbn [negb].
  assert (trimPrefix (toText ("Bearer " +:+ tok)) (toText "Bearer ") = toText tok) as ->.
  { unfold trimPrefix. rewrite toText_app, (proj2 (hasPrefix_app _ _)) by (by eexists). by rewrite drop_app_length. }
  unfold trimPrefix. destruct (hasPrefix (toText tok) (toText "bearer ")) eqn:E; [|by apply trimSpace_none].
  exfalso. apply hasPrefix_app in E as [u E]. rewrite E in Ht. apply Forall_app in Ht as [Ht _].
  repeat apply Forall_cons in Ht as [? Ht]. done.
Qed.

Lemma bearer_grpc tok rest : Forall (fun c => isSpace c = false) (toText tok) ->
  bearerFromMetadata (("Bearer " +:+ tok) :: rest) = toText tok.
Proof.
  intros Ht. unfold bearerFromMetadata. rewrite toText_app.
  rewrite (proj2 (Nat.leb_le _ _)) by (rewrite length_app; cbn; lia). change 7%nat with (length (toText "Bearer ")).
  rewrite take_app_length, drop_app_length. replace (equalFold _ _) with true by (vm_compute; reflexivity).
  cbn [andb]. by apply trimSpace_none.
Qed.

Lemma principalOfToken_ext r1 r2 v1 v2 tok : (forall prefix, r1 prefix (ofText tok) = r2 prefix (ofText tok)) ->
  (forall raw, v1 raw = v2 raw) ->
  principalOfToken (Some r1) (Some v1) tok = principalOfToken (Some r2) (Some v2) tok.
Proof.
  intros Hr Hv. unfold principalOfToken. destruct tok as [|c tok]; [done|].
  destruct (hasPrefix _ _); [|by rewrite Hv]. destruct (lastIndexByte _ dot) as [[|i]|]; [done| |done]. by rewrite Hr.
Qed.

Lemma principalOfToken_key r v tok prefix secret : tok = prefix +:+ "." +:+ secret ->
  hasPrefix (toText tok) (toText "teo_") = true -> prefix <> "" -> dot ∉ toText secret ->
  principalOfToken (Some r) v (toText tok) = asAPIKey <$> r prefix tok.
Proof.
  intros Etok Hp Hne Hdot. unfold principalOfToken. destruct (toText tok) as [|c0 t0] eqn:E0; [done|]. rewrite <-E0, Hp in *.
  assert (toText tok = toText prefix ++ dot :: toText secret) as E1 by (by rewrite Etok, !toText_app).
  assert (lastIndexByte (toText tok) dot = Some (length (toText prefix))) as -> by (by rewrite E1, lastIndexByte_app).
  destruct (length (toText prefix)) as [|n] eqn:El; [by destruct prefix|]. rewrite <-El, E1 at 1.
  by rewrite take_app_length, !ofText_toText.
Qed.

(** C36: A client that presents a bearer token, of a session or an API key,
    is the same principal to the gRPC server and to the HTTP server of one
    gateway, or unknown to both, when their queries read the same table of keys and
    the key is not in the HTTP server's cache: the two servers have each their
    query.  Who presents a teo_ token is let in by gRPC only with the secret of a
    row of that table that is neither revoked nor expired, as that key; by HTTP
    also while the key is cached, whatever the table says by now. *)
Theorem grpc_http_same_principal out env pf mo rq http ha ga iss runs tok table tq now' c rest :
  main out env = Serving http ha ga iss runs ->
  Forall (fun c => isSpace c = false) (toText tok) -> rq_Header rq "Authorization" = "Bearer " +:+ tok ->
  let viaHTTP := principalOf pf http mo
    (fun prefix display => okOf (resolveAPIKey argon2 prefix display (mo_Now mo) now' (httpKeyRow table tq prefix) c).1) rq in
  let viaGRPC := authenticate (Some (fun raw => okOf (Verify (pf_jwt pf) iss (mo_Now mo) raw)))
    (Some (fun prefix display => okOf (grpcAPIKeyResolver argon2 table tq prefix display))) (Some (("Bearer " +:+ tok) :: rest)) in
  ((forall prefix, cacheGet (mo_Now mo) (cacheKey prefix tok) c = None) -> viaGRPC = viaHTTP)
  /\ (forall p, hasPrefix (toText tok) (toText "teo_") = true -> viaGRPC = Some p ->
        exists ks id k, table = Ok ks /\ ks !! id = Some k /\ ak_revoked_at k = None
          /\ (forall x, ak_expires_at k = Some x -> tq < x) /\ is_Some (VerifyAPIKey argon2 tok (ak_hash k))
          /\ p = asAPIKey (keyPrincipal id (ak_scopes k)))
  /\ (forall prefix secret p, tok = prefix +:+ "." +:+ secret -> hasPrefix (toText tok) (toText "teo_") = true ->
        prefix <> "" -> dot ∉ toText secret ->
        cacheGet (mo_Now mo) (cacheKey prefix tok) c = Some p -> viaHTTP = Some (asAPIKey p)).
Proof.
  intros Hmain Ht Hh viaHTTP viaGRPC.
  pose proof (main_jwt _ _ _ _ _ _ _ Hmain) as Hsec.
  apply main_serving in Hmain as (ch & logs & oidc & _ & _ & _ & _ & -> & _).
  assert (viaHTTP = principalOfToken (Some (fun prefix display => okOf (resolveAPIKey argon2 prefix display (mo_Now mo) now' (httpKeyRow table tq prefix) c).1))
    (Some (fun raw => okOf (Verify (pf_jwt pf) (si_jwt (sv_signIn http)) (mo_Now mo) raw))) (toText tok)) as Hv.
  { unfold viaHTTP, principalOf, Middleware. by rewrite Hh, bearer_http. }
  rewrite Hv. unfold viaGRPC, authenticate. rewrite bearer_grpc by done. split; [|split].
  - intros Hmiss. apply principalOfToken_ext.
    + intros prefix. rewrite ofText_toText, grpcAPIKeyResolver_lookup. symmetry. by apply resolveAPIKey_miss.
    + intros raw. unfold Verify. by rewrite Hsec.
  - intros p Hp [_ Hvouch]%principalOfToken_vouched. destruct Hvouch as [resolve i q _ _ _ [= <-] Hq|]; [|congruence].
    rewrite ofText_toText in Hq. apply grpcAPIKeyResolver_vouched in Hq as (ks & -> & id & k & Hk & _ & Hr & Hx & Hs & ->).
    exists ks, id, k. by split_and!.
  - intros prefix secret p Etok Hp Hne Hdot Hhit. rewrite (principalOfToken_key _ _ _ _ _ Etok Hp Hne Hdot).
    unfold resolveAPIKey. by rewrite Hhit.
Qed.
End agree.

(** * A concrete start *)

Module StartDemo.
Definition env (k : string) : string :=
  if String.eqb k "TEO_POSTGRES_DSN" then "postgres://db/teo"
  else if String.eqb k "TEO_JWT_SECRET" then "0123456789abcdef0123456789abcdef"
  else if String.eqb k "TEO_CLICKHOUSE_DSN" then "clickhouse://ch/teo"
  else if String.eqb k "TEO_JWT_TTL" then "1h30m" else "".
Definition refused {A} : result A := Err (ErrText "refused").
Definition out : Outside :=
  mkOutside (fun _ => Ok tt) (fun _ => Ok (fun _ => Ok [])) (fun _ _ _ => refused) (fun _ => refused)
    (fun _ => mkAuthenticator (fun _ _ => "") (fun _ => refused) (fun _ _ k => (refused, k)))
    (fun _ => refused) (fun _ => Ok tt) (fun _ => None) (fun _ _ t => (refused, t)).
Definition issuer : JWTIssuer := mkJWTIssuer "0123456789abcdef0123456789abcdef" 5400000000000 "teo".
Definition http : Server := mkServer (mkSignIn issuer "" false) (Some (fun _ => Ok [])) None None None None (Some (mkService true)) false.
Definition prefix : string := "teo_ci_abcd".
Definition key : string * string * string := GenerateAPIKey demoHash "" [1; 2; 250] [171; 205] [7; 8; 9].
Definition tok : string := key.1.1.
Definition table : result (gmap string key_row) :=
  Ok {[ "k1" := mkKeyRow prefix key.2 ["runs.write"] None (Some 2000); "k0" := mkKeyRow "teo_ci_dead" key.2 ["runs.write"] (Some 1) None ]}.
Definition rq : request := GatewayDemo.get "/readyz" ("Bearer " +:+ tok).
End StartDemo.

Lemma gateway_starts_as_configured_witness :
  main StartDemo.out StartDemo.env = Serving StartDemo.http ":8080" ":9090" StartDemo.issuer (mkService true)
  /\ is_Some (sv_spans StartDemo.http) /\ ~ is_Some (sv_logPresigner StartDemo.http) /\ ~ is_Some (sv_oidc StartDemo.http).
Proof.
  assert (main StartDemo.out StartDemo.env = Serving StartDemo.http ":8080" ":9090" StartDemo.issuer (mkService true)) as Hm
    by (vm_compute; reflexivity).
  split; [exact Hm|]. destruct (gateway_starts_as_configured _ _ _ _ _ _ _ Hm) as (_ & _ & _ & _ & _ & _ & H1 & H2 & _ & H3 & _).
  split; [by apply H1|]. split; [intros H; by apply H2 in H|]. intros H. by apply H3 in H as [H _].
Defined.

Lemma grpc_http_same_principal_witness :
  authenticate (Some (fun raw => okOf (Verify (pf_jwt GatewayDemo.pf) StartDemo.issuer (mo_Now GatewayDemo.mo) raw)))
    (Some (fun prefix display => okOf (grpcAPIKeyResolver demoHash StartDemo.table 1000 prefix display))) (Some ["Bearer " +:+ StartDemo.tok])
  = principalOf GatewayDemo.pf StartDemo.http GatewayDemo.mo
      (fun prefix display => okOf (resolveAPIKey demoHash prefix display (mo_Now GatewayDemo.mo) 1000 (httpKeyRow StartDemo.table 1000 prefix) ∅).1) StartDemo.rq
  /\ principalOf GatewayDemo.pf StartDemo.http GatewayDemo.mo
      (fun prefix display => okOf (resolveAPIKey demoHash prefix display (mo_Now GatewayDemo.mo) 1000 (httpKeyRow StartDemo.table 1000 prefix) ∅).1) StartDemo.rq
     = Some (keyPrincipal "k1" ["runs.write"]).
Proof.
  split; [|vm_compute; reflexivity].
  destruct (grpc_http_same_principal demoHash StartDemo.out StartDemo.env GatewayDemo.pf GatewayDemo.mo StartDemo.rq StartDemo.http
    ":8080" ":9090" StartDemo.issuer (mkService true) StartDemo.tok StartDemo.table 1000 1000 ∅ []) as [H _].
  - vm_compute. reflexivity.
  - apply (bool_decide_unpack _). vm_compute. exact I.
  - reflexivity.
  - exact (H (fun _ => eq_refl)).
Defined.
