(* ===== verification/AuditLog.v ===== *)
(** * internal/audit

    The audit log: whom [Log] names as the actor of an entry, the insertion with
    its references to users and keys, the entries the services write, and what
    is left of the acts of signed-in users.  Postgres' reading of a uuid is a
    parameter; the values of [Entry.Meta] are strings wherever the program sets
    it. *)

From S2P Require Import Prelude GoRegexp GoStrings GoFmt Model Scheduler Db Effects Lifecycle RunManager.
From S2P Require Import RunManagerProps RunSvc RunSvcProps Auth ApiKeys Rest Oidc OidcProps Cluster Worker GrpcSvc.
From S2P Require Import Graphql GraphqlProps.

(** [audit.Entry] *)
Record Entry := mkEntry {
  en_Action : string;
  en_TargetType : string;
  en_TargetID : string;
  en_Meta : option (gmap string string)
}.

(** A row of teo.audit_log. *)
Record audit_row := mkAuditRow {
  au_at : Z;
  au_actor_user_id : option string;
  au_actor_api_key_id : option string;
  au_action : string;
  au_target_type : string;
  au_target_id : string;
  au_meta : gmap string string
}.

(** teo.audit_log and the tables it refers to. *)
Record auditTables := mkAuditTables {
  at_users : gmap string user_row;
  at_keys : gmap string key_row;
  at_log : list audit_row
}.

Section audit.
(** What Postgres reads a text as when it wants a uuid. *)
Context (uuidOf : string -> option string).

(** ** Writing one entry *)

(** [actorUser] and [actorAPIKey] *)
Definition actorsOf (p : option Principal) : option string * option string :=
  match p with
  | None => (None, None)
  | Some p =>
      if p_IsAPIKey p then (None, nullIfEmpty (p_APIKeyID p))
      else (nullIfEmpty (p_UserID p), None)
  end.

(** A uuid column that refers to the key of a table. *)
Definition references {V} (id : option string) (t : gmap string V) : result (option string) :=
  match id with
  | None => Ok None
  | Some s =>
      match uuidOf s with
      | None => Err (PgError "22P02")
      | Some c => if bool_decide (is_Some (t !! c)) then Ok (Some c) else Err (PgError "23503")
      end
  end.

Definition insertAudit (now : Z) (actorUser actorAPIKey : option string) (e : Entry) (t : auditTables) : option error * auditTables :=
  match references actorUser (at_users t) with
  | Err err => (Some err, t)
  | Ok user =>
      match references actorAPIKey (at_keys t) with
      | Err err => (Some err, t)
      | Ok key =>
          (None, mkAuditTables (at_users t) (at_keys t)
             (at_log t ++ [mkAuditRow now user key (en_Action e) (en_TargetType e) (en_TargetID e) (default ∅ (en_Meta e))]))
      end
  end.

(** [Log]: the error, if any, and the tables; [pool] says whether the logger has
    one. *)
Definition Log (pool : bool) (now : Z) (p : option Principal) (e : Entry) (t : auditTables) : option error * auditTables :=
  if negb pool then (None, t)
  else insertAudit now (actorsOf p).1 (actorsOf p).2 e t.

(** ** The entries of the program *)

Definition createEntry (req : CreateRunRequest) (runID : string) : Entry :=
  mkEntry "run.create" "run" runID (Some (<["repo" := cr_RepoFullName req]> (<["commit" := cr_CommitSHA req]> ∅))).

Definition cancelEntry (id : string) : Entry := mkEntry "run.cancel" "run" id None.

Definition quarantineEntry (on : bool) (testID status reason : string) : Entry :=
  mkEntry (if on then "test.quarantine" else "test.unquarantine") "test" testID
    (Some (let meta := <["status" := status]> ∅ in if on then <["reason" := reason]> meta else meta)).

(** The entry behind an output of the services, given what its metadata is; the
    callers drop the error of [Log]. *)
Definition entryOf (metas : string -> string -> option (gmap string string)) (o : Output) : option Entry :=
  match o with
  | OAudit action id =>
      Some (mkEntry action (if hasPrefix (toText action) (toText "run.") then "run" else "test") id (metas action id))
  | _ => None
  end.

Definition logged (now : Z) (p : option Principal) (metas : string -> string -> option (gmap string string))
    (outs : list Output) (t : auditTables) : auditTables :=
  foldl (fun t o => match entryOf metas o with Some e => (Log true now p e t).2 | None => t end) t outs.

(** What an act has sent, and the log after it. *)
Definition newOutputs (w w' : World) : list Output := drop (length (w_out w)) (w_out w').
Definition trail (now : Z) (p : option Principal) (metas : string -> string -> option (gmap string string)) (w w' : World)
    (t : auditTables) : auditTables := logged now p metas (newOutputs w w') t.

(** The metadata of each act. *)
Definition createMeta (req : CreateRunRequest) (_ id : string) := en_Meta (createEntry req id).
Definition cancelMeta (_ id : string) := en_Meta (cancelEntry id).
Definition quarantineMeta (on : bool) (status reason : string) (_ id : string) := en_Meta (quarantineEntry on id status reason).
End audit.

(** * Who is named *)

Section acts.
Context (uuidOf : string -> option string) (metas : string -> string -> option (gmap string string)) (now : Z).

(** The row of an entry of a key's holder. *)
Definition keyRow (id : string) (e : Entry) : audit_row :=
  mkAuditRow now None (Some id) (en_Action e) (en_TargetType e) (en_TargetID e) (default ∅ (en_Meta e)).

Lemma logged_app p outs outs' t :
  logged uuidOf now p metas (outs ++ outs') t = logged uuidOf now p metas outs' (logged uuidOf now p metas outs t).
Proof. apply foldl_app. Qed.

(** A principal whose user id is not the id of a user is refused by the
    database. *)
Lemma Log_stranger p e t : p_IsAPIKey p = false -> p_UserID p <> "" ->
  (forall c, uuidOf (p_UserID p) = Some c -> at_users t !! c = None) ->
  exists err, Log uuidOf true now (Some p) e t = (Some err, t).
Proof.
  intros Hk Hne Hu. unfold Log, insertAudit, actorsOf, nullIfEmpty. rewrite Hk. cbn [negb fst snd references].
  apply String.eqb_neq in Hne as ->. unfold references. destruct (uuidOf (p_UserID p)) as [c|]; [|by eexists].
  rewrite bool_decide_false; [by eexists|]. rewrite (Hu c eq_refl). by intros [? ?].
Qed.

Lemma logged_stranger p outs t : p_IsAPIKey p = false -> p_UserID p <> "" ->
  (forall c, uuidOf (p_UserID p) = Some c -> at_users t !! c = None) -> logged uuidOf now (Some p) metas outs t = t.
Proof.
  intros Hk Hne Hu. unfold logged. induction outs as [|o outs IH]; [done|]. cbn [foldl].
  destruct (entryOf metas o) as [e|]; [|done]. by destruct (Log_stranger p e t Hk Hne Hu) as [err ->].
Qed.

Lemma Log_key id scopes e t : id <> "" -> uuidOf id = Some id -> is_Some (at_keys t !! id) ->
  Log uuidOf true now (Some (keyPrincipal id scopes)) e t
  = (None, mkAuditTables (at_users t) (at_keys t) (at_log t ++ [keyRow id e])).
Proof.
  intros Hne Hid Hk. unfold Log, insertAudit, actorsOf, nullIfEmpty. cbn [keyPrincipal p_IsAPIKey p_APIKeyID negb fst snd references].
  apply String.eqb_neq in Hne as ->. unfold references. rewrite Hid. by rewrite bool_decide_true.
Qed.

Lemma logged_key id scopes outs t : id <> "" -> uuidOf id = Some id -> is_Some (at_keys t !! id) ->
  logged uuidOf now (Some (keyPrincipal id scopes)) metas outs t
  = mkAuditTables (at_users t) (at_keys t) (at_log t ++ (keyRow id <$> omap (entryOf metas) outs)).
Proof.
  intros Hne Hid. revert t. induction outs as [|o outs IH]; intros t Hk.
  { cbn. rewrite app_nil_r. by destruct t. }
  unfold logged. cbn [foldl omap list_omap]. destruct (entryOf metas o) as [e|] eqn:E.
  - rewrite Log_key by done. unfold logged in IH. cbn [snd]. rewrite IH by done. cbn [fmap list_fmap at_users at_keys at_log].
    by rewrite <-app_assoc.
  - unfold logged in IH. by rewrite IH.
Qed.

(** No principal, as for the links of restore mails: the entry names nobody. *)
Lemma Log_anonymous e t : exists row, Log uuidOf true now None e t = (None, mkAuditTables (at_users t) (at_keys t) (at_log t ++ [row]))
  /\ au_actor_user_id row = None /\ au_actor_api_key_id row = None.
Proof. by eexists. Qed.
End acts.

(** ** Acts that send one entry, and acts that send none *)

Lemma newOutputs_app w w' new : w_out w' = w_out w ++ new -> newOutputs w w' = new.
Proof. intros E. unfold newOutputs. by rewrite E, drop_app_length. Qed.

Section trails.
Context (uuidOf : string -> option string) (at_ : Z) (p : Principal) (kid : string) (scopes : list string) (tables : auditTables).
Hypotheses (Hp : p_IsAPIKey p = false) (Hsub : p_UserID p <> "")
  (Hstranger : forall c, uuidOf (p_UserID p) = Some c -> at_users tables !! c = None)
  (Hkid : kid <> "") (Hkey : uuidOf kid = Some kid) (Hrow : is_Some (at_keys tables !! kid)).

(** The act from [w] to [w'] leaves nothing in the log when the user of the
    session does it, and exactly the row of [e] when the key's holder does. *)
Definition leaves (metas : string -> string -> option (gmap string string)) (e : Entry) (w w' : World) : Prop :=
  trail uuidOf at_ (Some p) metas w w' tables = tables
  /\ at_log (trail uuidOf at_ (Some (keyPrincipal kid scopes)) metas w w' tables) = at_log tables ++ [keyRow at_ kid e].

Lemma leaves_one metas e o w w' : w_out w' = w_out w ++ [o] -> entryOf metas o = Some e -> leaves metas e w w'.
Proof using Hp Hsub Hstranger Hkid Hkey Hrow.
  intros Eo Ee. unfold leaves, trail. rewrite (newOutputs_app _ _ _ Eo). split; [by apply logged_stranger|].
  rewrite logged_key by done. cbn. by rewrite Ee.
Qed.

Lemma quiet_trail {A} (m : M A) metas who w : Sends (fun _ => False) m -> trail uuidOf at_ who metas w (m w).2 tables = tables.
Proof using.
  intros Hm. destruct (Hm w) as (l & E & Hl). unfold trail. rewrite (newOutputs_app _ _ _ E).
  destruct l as [|o l]; [done|]. by apply Forall_cons in Hl as [[] _].
Qed.
End trails.

Lemma PullAssignment_sends P worker : Sends P (PullAssignment worker).
Proof.
  unfold PullAssignment, loadShardTests. apply sends_withTx, sends_bind; [apply _|]. intros [[shardID s]|]; [|apply _].
  apply sends_bind; [apply _|]. intros repo. apply sends_bind; [|apply _]. apply sends_bind; [apply _|].
  intros [[planRaw index] total]. repeat case_match; apply _.
Qed.

Lemma rerunFailed_sends P id : Sends P (rerunFailed id).
Proof.
  unfold rerunFailed. apply sends_bind; [|intros newID; unfold queryRunByID; apply _].
  apply sends_withTx, sends_bind; [apply _|]. intros parent. apply sends_bind; [apply _|]. intros []; apply _.
Qed.

(** C39: Nothing a signed-in user does is audited.  A session token carries the
    subject of the identity provider as the user's id, while the audit log
    refers to the ids the database generated: unless a user's id happens to be
    that subject, every insertion is refused and the callers drop the error.  The
    run is created or cancelled, the test quarantined or restored all the same.
    When the holder of an API key does one of these four, the log has exactly one
    row more: its action, its target and its metadata, with the key as the actor.
    Taking an assignment and re-running what failed write no entry, whoever
    calls, whatever the database does. *)
Theorem signed_in_acts_unaudited lib uuidOf at_ j t sub email roles tok seen resolve p tables kid scopes svc now u held ag db n out :
  JwtLaws lib -> Issue lib j t sub email roles = Ok tok -> sub <> "" ->
  Middleware resolve (Some (fun raw => okOf (Verify lib j seen raw))) "" (Some tok) = Some p ->
  (forall c, uuidOf sub = Some c -> at_users tables !! c = None) ->
  kid <> "" -> uuidOf kid = Some kid -> is_Some (at_keys tables !! kid) -> svc_Audit svc = true ->
  let w := QW db None now u n held out ag in
  let leaves := leaves uuidOf at_ p kid scopes tables in
  (forall req key repoID rp, NewRequest u db (withKey key req) repoID rp n -> exists run w',
     runsCreate svc true (Some req) key w = (Ok (RBody 201 run), w') /\ run_ID run = u n
     /\ w_db w' = createdDB now u db (withKey key req) repoID n
     /\ leaves (createMeta (withKey key req)) (createEntry (withKey key req) (u n)) w w')
  /\ (forall id r rp, runs db !! id = Some r -> repos db !! r_repo_id r = Some rp -> cancelable (r_status r) = true -> exists run w',
     runsCancel svc true id w = (Ok (RBody 200 run), w') /\ w_db w' = set_runs (<[id := cancelledRun now r]> (runs db)) db
     /\ leaves cancelMeta (cancelEntry id) w w')
  /\ (forall id test reason, tests db !! id = Some test -> ts_status test <> "deleted" -> exists m w',
     quarantineTest id reason w = (Ok m, w') /\ w_db w' = manualDB now id reason db
     /\ leaves (quarantineMeta true (tm_status m) (quarantineReason reason)) (quarantineEntry true id (tm_status m) (quarantineReason reason)) w w')
  /\ (forall id test, tests db !! id = Some test -> exists m w',
     unquarantineTest id w = (Ok m, w') /\ w_db w' = releasedDB now id db
     /\ leaves (quarantineMeta false (tm_status m) "") (quarantineEntry false id (tm_status m) "") w w')
  /\ (forall metas who w worker id,
     trail uuidOf at_ who metas w (PullAssignment worker w).2 tables = tables
     /\ trail uuidOf at_ who metas w (rerunFailed id w).2 tables = tables).
Proof.
  intros laws Hi Hne Hm Hu Hk1 Hk2 Hk3 Ha w leaves.
  assert (p = mkPrincipal sub email "" roles [] false) as Ep.
  { pose proof (jw_compact _ laws _ _ _ Hi) as Hc. rewrite Middleware_cookie in Hm by done.
    destruct (Verify lib j seen tok) as [q|] eqn:E; [|done]. injection Hm as ->.
    by apply (Verify_issued lib laws j t sub email roles tok seen Hi) in E as [-> _]. }
  assert (forall metas e o w', w_out w' = out ++ [o] -> entryOf metas o = Some e -> leaves metas e w w') as Hone.
  { intros metas e o w' Eo Ee. subst p. by apply (leaves_one uuidOf at_ (mkPrincipal sub email "" roles [] false) kid scopes tables eq_refl Hne Hu Hk1 Hk2 Hk3 metas e o). }
  split_and!.
  - intros req key repoID rp Hnew. eexists _, _. split; [unfold runsCreate; cbn [negb]; erewrite bindM_ok; [|by apply tryM_eq, Create_fresh]; reflexivity|].
    split; [done|]. split; [done|]. eapply Hone; [cbn; unfold auditOf; by rewrite Ha|done].
  - intros id r rp Hr Hrp Hc. eexists _, _.
    split; [unfold runsCancel, serveRun; cbn [negb]; erewrite bindM_ok; [|eapply tryM_eq, Cancel_live; eassumption]; reflexivity|].
    split; [done|]. eapply Hone; [cbn; unfold auditOf; by rewrite Ha|done].
  - intros id test reason Ht Hd. eexists _, _. split; [by apply setQuarantine_on|]. split; [done|]. by eapply Hone.
  - intros id test Ht. eexists _, _. split; [by apply setQuarantine_off|]. split; [done|]. by eapply Hone.
  - intros metas who w' worker id. split; apply quiet_trail; [apply PullAssignment_sends|apply rerunFailed_sends].
Qed.

(** ** A concrete user *)

Module AuditDemo.
Definition issuer : JWTIssuer := mkJWTIssuer "secret" (3600 * second) "teo".
Definition tok : string := match Issue SignInDemo.jwt issuer 0 "idp|7" "dev@acme.com" [RoleEngineer] with Ok tok => tok | Err _ => "" end.
(** The user has signed in: his row has the subject, and an id of its own. *)
Definition tables : auditTables := mkAuditTables
  {[ "u1" := mkUserRow "dev@acme.com" "dev@acme.com" (Some "idp|7") true false 0 ]}
  {[ "k1" := mkKeyRow "teo_ci" "hash" ["runs.write"] None None ]} [].
Definition p : Principal := mkPrincipal "idp|7" "dev@acme.com" "" [RoleEngineer] [] false.
End AuditDemo.

Lemma signed_in_acts_unaudited_witness : exists run w',
  runsCreate RunSvcDemo.svc true (Some (RunSvcDemo.request "c1")) "key-1" (QW RunSvcDemo.db None 5 RunSvcDemo.ids 0 ∅ [] idleAgent)
    = (Ok (RBody 201 run), w')
  /\ trail Some 6 (Some AuditDemo.p) (createMeta (RunSvcDemo.request "c1")) (QW RunSvcDemo.db None 5 RunSvcDemo.ids 0 ∅ [] idleAgent) w' AuditDemo.tables
     = AuditDemo.tables
  /\ at_log (trail Some 6 (Some (keyPrincipal "k1" ["runs.write"])) (createMeta (RunSvcDemo.request "c1"))
       (QW RunSvcDemo.db None 5 RunSvcDemo.ids 0 ∅ [] idleAgent) w' AuditDemo.tables)
     = [mkAuditRow 6 None (Some "k1") "run.create" "run" "r0" (<["repo" := "acme/app"]> (<["commit" := "c1"]> ∅))].
Proof.
  destruct (signed_in_acts_unaudited SignInDemo.jwt Some 6 AuditDemo.issuer 0 "idp|7" "dev@acme.com" [RoleEngineer]
    AuditDemo.tok 1 None AuditDemo.p AuditDemo.tables "k1" ["runs.write"] RunSvcDemo.svc 5 RunSvcDemo.ids ∅ idleAgent RunSvcDemo.db 0 [])
    as (H & _).
  - exact SignInDemo.jwt_laws.
  - vm_compute. reflexivity.
  - discriminate.
  - vm_compute. reflexivity.
  - intros c [= <-]. vm_compute. reflexivity.
  - discriminate.
  - reflexivity.
  - by eexists.
  - reflexivity.
  - destruct (H (RunSvcDemo.request "c1") "key-1" "repo" RunSvcDemo.repo) as (run & w' & H1 & _ & _ & H2 & H3).
    { apply (RunSvcDemo.new_request "c1"). discriminate. }
    exists run, w'. split; [exact H1|]. split; [exact H2|exact H3].
Defined.
