(* ===== verification/Doctor.v ===== *)
(** * internal/doctor and the doctor command

    doctor.go: the checks run in goroutines of their own, which store into slots
    of one slice; the report, its exit code and its summary.  checks.go: the six
    probes.  cmd/teo/doctor.go: the checks of the command and its output.  What a
    probe finds out (an error of a driver, a status code, a round trip) and the
    time it takes are arguments; the command's flags are already parsed. *)

From S2P Require Import Prelude GoSort GoBytes GoRegexp GoStrings GoFmt Migrate.

(** ** doctor.go *)

Inductive Status := StatusOK | StatusWarn | StatusFail | StatusSkipped.

#[export] Instance Status_eq_dec : EqDecision Status.
Proof. solve_decision. Defined.

(** [String] *)
Definition statusString (s : Status) : string :=
  match s with StatusOK => "ok" | StatusWarn => "warn" | StatusFail => "fail" | StatusSkipped => "skipped" end.

(** Latency in nanoseconds. *)
Record Result := mkResult {
  rt_Name : string;
  rt_Status : Status;
  rt_Message : string;
  rt_Detail : string;
  rt_Latency : Z
}.

Definition zeroResult : Result := mkResult "" StatusOK "" "" 0.

(** A check with what its probe returns. *)
Record Check := mkCheck {
  ck_Name : string;
  ck_Run : Result
}.

(** What a goroutine stores for its check; [elapsed] is [time.Since(start)]. *)
Definition checkResult (elapsed : Z) (c : Check) : Result :=
  let r := ck_Run c in
  let r := if String.eqb (rt_Name r) "" then mkResult (ck_Name c) (rt_Status r) (rt_Message r) (rt_Detail r) (rt_Latency r) else r in
  if rt_Latency r =? 0 then mkResult (rt_Name r) (rt_Status r) (rt_Message r) (rt_Detail r) elapsed else r.

(** The slots and the goroutines that have not stored yet. *)
Record running := mkRunning {
  rn_out : list Result;
  rn_pending : gset nat
}.

Section run.
(** How long each check takes. *)
Context (elapsed : nat -> Z) (checks : list Check).

Definition spawned : running := mkRunning (replicate (length checks) zeroResult) (list_to_set (seq 0 (length checks))).

(** Some goroutine finishes. *)
Inductive finishes : running -> running -> Prop :=
  | Finish s i c : i ∈ rn_pending s -> checks !! i = Some c ->
      finishes s (mkRunning (<[i := checkResult (elapsed i) c]> (rn_out s)) (rn_pending s ∖ {[i]})).

Definition resultLess (a b : Result) : bool := bytesLt (bytesOf (rt_Name a)) (bytesOf (rt_Name b)).

(** [sort.Slice] leaves the order of equal names open. *)
Definition sortSlice (l l' : list Result) : Prop := l' ≡ₚ l /\ StronglySorted (notAfter resultLess) l'.

(** [Run] returns [l]: after [wg.Wait], sorted. *)
Definition Run (l : list Result) : Prop :=
  exists s, rtc finishes spawned s /\ rn_pending s = ∅ /\ sortSlice (rn_out s) l.

(** What the goroutines store, check by check. *)
Definition collected : list Result := imap (fun i c => checkResult (elapsed i) c) checks.
End run.

Fixpoint ExitCode (results : list Result) : Z :=
  match results with
  | [] => 0
  | r :: l => if bool_decide (rt_Status r = StatusFail) then 1 else ExitCode l
  end.

Record Summary := mkSummary {
  sm_OK : Z; sm_Warn : Z; sm_Fail : Z; sm_Skipped : Z
}.

Definition count (s : Summary) (r : Result) : Summary :=
  match rt_Status r with
  | StatusOK => mkSummary (sm_OK s + 1) (sm_Warn s) (sm_Fail s) (sm_Skipped s)
  | StatusWarn => mkSummary (sm_OK s) (sm_Warn s + 1) (sm_Fail s) (sm_Skipped s)
  | StatusFail => mkSummary (sm_OK s) (sm_Warn s) (sm_Fail s + 1) (sm_Skipped s)
  | StatusSkipped => mkSummary (sm_OK s) (sm_Warn s) (sm_Fail s) (sm_Skipped s + 1)
  end.
Definition Aggregate (results : list Result) : Summary := foldl count (mkSummary 0 0 0 0) results.

(** ** checks.go *)

Definition answer (name : string) (s : Status) (msg detail : string) : Result := mkResult name s msg detail 0.

(** A database: whether opening it fails, how it answers the migration status,
    and its table of versions, if it has one. *)
Record database := mkDatabase {
  dt_Open : option string;
  dt_connects : bool;
  dt_ensures : bool;
  dt_reads : bool;
  dt_versions : option (list (Z * string))
}.

(** [migrate.Status], which makes the table when there is none. *)
Definition migrateStatus (d : database) : migrateError + Z :=
  Migrate.Status (dt_connects d) (dt_ensures d) (dt_reads d) (mkStore tt (default [] (dt_versions d))).
Definition afterStatus (d : database) : database :=
  if dt_connects d && dt_ensures d
  then mkDatabase (dt_Open d) (dt_connects d) (dt_ensures d) (dt_reads d) (Some (default [] (dt_versions d))) else d.

Section probes.
(** [err.Error()] *)
Context (errText : migrateError -> string).

(** The result, and the database afterwards. *)
Definition databaseCheck (name variable dsn : string) (d : database) : Result * database :=
  if String.eqb dsn "" then (answer name StatusSkipped (variable +:+ " not set") "", d)
  else match dt_Open d with
  | Some err => (answer name StatusFail ("open: " +:+ err) "", d)
  | None =>
      (match migrateStatus d with
       | inl err => answer name StatusWarn "connected; migration status unavailable" (errText err)
       | inr v => answer name StatusOK ("up; schema version " +:+ itoa v) ""
       end, afterStatus d)
  end.

Definition PostgresCheck : string -> database -> Result * database := databaseCheck "postgres" "TEO_POSTGRES_DSN".
Definition ClickHouseCheck : string -> database -> Result * database := databaseCheck "clickhouse" "TEO_CLICKHOUSE_DSN".

(** The error of the connection, whether it is established, and the round trip as
    it is printed. *)
Record natsProbe := mkNatsProbe {
  np_Err : option string;
  np_IsConnected : bool;
  np_RTT : string
}.

Definition NATSCheck (url : string) (p : natsProbe) : Result :=
  if String.eqb url "" then answer "nats" StatusSkipped "TEO_NATS_URL not set" ""
  else match np_Err p with
  | Some err => answer "nats" StatusFail err ""
  | None =>
      if np_IsConnected p then answer "nats" StatusOK ("up; rtt " +:+ np_RTT p) ""
      else answer "nats" StatusFail "connect did not establish" ""
  end.

Definition nameOr (n def : string) : string := if String.eqb n "" then def else n.

(** The probe is an error or the status code of the reply. *)
Definition HTTPCheck (n url : string) (p : string + Z) : Result :=
  let name := nameOr n "http" in
  if String.eqb url "" then answer name StatusSkipped "URL not set" ""
  else match p with
  | inl err => answer name StatusFail err ""
  | inr code =>
      if (200 <=? code) && (code <? 300) then answer name StatusOK ("HTTP " +:+ itoa code) ""
      else answer name StatusFail ("HTTP " +:+ itoa code) ""
  end.

(** A pool, when there is one: the error of the ping and its two numbers. *)
Definition PoolCheck (n : string) (pool : option (option string * Z * Z)) : Result :=
  let name := nameOr n "postgres-pool" in
  match pool with
  | None => answer name StatusSkipped "pool nil" ""
  | Some (Some err, _, _) => answer name StatusFail err ""
  | Some (None, acquired, max) => answer name StatusOK ("up; " +:+ itoa acquired +:+ "/" +:+ itoa max +:+ " conns") ""
  end.

Definition SQLPingCheck (n : string) (db : option (option string)) : Result :=
  let name := nameOr n "sql" in
  match db with
  | None => answer name StatusSkipped "DB nil" ""
  | Some (Some err) => answer name StatusFail err ""
  | Some None => answer name StatusOK "up" ""
  end.
End probes.

(** ** [Duration.Round] to milliseconds and [Duration.String] *)

Definition ms : Z := 1000000.

(** Half away from zero. *)
Definition roundMs (d : Z) : Z :=
  let r := Z.rem (Z.abs d) ms in
  let up := if ms <=? r + r then Z.abs d + (ms - r) else Z.abs d - r in
  if d <? 0 then - up else up.

(** [fmtFrac]: the last [prec] digits of [u] without the zeros at the end. *)
Definition fracText (u : Z) (prec : nat) : string :=
  match dropWhile (lit "0") (rev (toText (padded prec (u mod 10 ^ Z.of_nat prec)))) with
  | [] => ""
  | l => "." +:+ ofText (rev l)
  end.

Definition durationString (d : Z) : string :=
  let u := Z.abs d in
  let withUnit prec unit_ := itoa (u / 10 ^ Z.of_nat prec) +:+ fracText u prec +:+ unit_ in
  (if d <? 0 then "-" else "") +:+
  (if u =? 0 then "0s"
   else if u <? 1000 then itoa u +:+ "ns"
   else if u <? ms then withUnit 3%nat "µs"
   else if u <? second then withUnit 6%nat "ms"
   else
     let s := u / second in
     (if 60 <=? s then (if 3600 <=? s then itoa (s / 3600) +:+ "h" else "") +:+ itoa (s / 60 mod 60) +:+ "m" else "")
     +:+ itoa (s mod 60) +:+ fracText u 9 +:+ "s").

Example durationString_demo :
  durationString <$> [0; 999; 1500; 2000000; 12345678; 1000000000; 61001000000; 3600000000000; -90500000000]
  = ["0s"; "999ns"; "1.5µs"; "2ms"; "12.345678ms"; "1s"; "1m1.001s"; "1h0m0s"; "-1m30.5s"].
Proof. vm_compute. reflexivity. Qed.

(** ** cmd/teo/doctor.go *)

Definition joinURL (base suffix : string) : string :=
  if String.eqb base "" then "" else trimRightSlash base +:+ suffix.

Record wire := mkWire {
  wr_Name : string;
  wr_Status : string;
  wr_Message : string;
  wr_Detail : string;
  wr_LatencyMS : Z
}.

(** The list that [emitJSON] encodes. *)
Definition emitJSON (results : list Result) : list wire :=
  map (fun r => mkWire (rt_Name r) (statusString (rt_Status r)) (rt_Message r) (rt_Detail r) (Z.quot (rt_Latency r) ms)) results.

Definition statusGlyph (s : Status) : string :=
  match s with StatusOK => "OK" | StatusWarn => "WARN" | StatusFail => "FAIL" | StatusSkipped => "skip" end.

(** The cells that [emitTable] gives to the tab writer, line by line, and the
    numbers of its last line. *)
Definition detailLines (detail : string) : list (list string) :=
  if String.eqb detail "" then []
  else map (fun line => ["  "; "  "; "  "; "  " +:+ ofText line]) (splitOn "010"%char (trimSpace (toText detail))).

Definition emitTable (results : list Result) : list (list string) * Summary :=
  (["CHECK"; "STATUS"; "LATENCY"; "MESSAGE"]
   :: concat (map (fun r =>
        [rt_Name r; statusGlyph (rt_Status r); durationString (roundMs (rt_Latency r)); rt_Message r] :: detailLines (rt_Detail r)) results),
   Aggregate results).

Record doctorFlags := mkDoctorFlags {
  df_pgDSN : string;
  df_chDSN : string;
  df_natsURL : string;
  df_apiURL : string;
  df_predURL : string;
  df_json : bool
}.

(** What the probes meet. *)
Record surroundings := mkSurroundings {
  sr_postgres : database;
  sr_clickhouse : database;
  sr_nats : natsProbe;
  sr_http : string -> string + Z
}.

Inductive report :=
  | JSONReport (l : list wire)
  | TableReport (lines : list (list string)) (s : Summary).

Section command.
Context (errText : migrateError -> string) (flags : doctorFlags) (sr : surroundings).

Definition healthURL (base : string) : string := joinURL base "/healthz".

(** The checks of [runDoctor]. *)
Definition doctorChecks : list Check :=
  [mkCheck "postgres" (PostgresCheck errText (df_pgDSN flags) (sr_postgres sr)).1;
   mkCheck "clickhouse" (ClickHouseCheck errText (df_chDSN flags) (sr_clickhouse sr)).1;
   mkCheck "nats" (NATSCheck (df_natsURL flags) (sr_nats sr));
   mkCheck "api" (HTTPCheck "api" (healthURL (df_apiURL flags)) (sr_http sr (healthURL (df_apiURL flags))));
   mkCheck "predictor" (HTTPCheck "predictor" (healthURL (df_predURL flags)) (sr_http sr (healthURL (df_predURL flags))))].

Definition emit (results : list Result) : report :=
  if df_json flags then JSONReport (emitJSON results) else let '(lines, s) := emitTable results in TableReport lines s.

(** The command prints [out] and exits with [code]. *)
Definition runDoctor (elapsed : nat -> Z) (out : report) (code : Z) : Prop :=
  exists results, Run elapsed doctorChecks results /\ out = emit results /\ code = ExitCode results.
End command.

(** * The report does not depend on the order in which the checks finish *)

Section order.
Context (elapsed : nat -> Z) (checks : list Check).

Record wfRun (s : running) : Prop := {
  wr_length : length (rn_out s) = length checks;
  wr_pending i : i ∈ rn_pending s -> (i < length checks)%nat;
  wr_stored i c : checks !! i = Some c -> i ∉ rn_pending s -> rn_out s !! i = Some (checkResult (elapsed i) c)
}.

Lemma spawned_wf : wfRun (spawned checks).
Proof.
  split; cbn.
  - apply length_replicate.
  - intros i. rewrite elem_of_list_to_set, elem_of_seq. lia.
  - intros i c Hc Hi. exfalso. apply Hi. rewrite elem_of_list_to_set, elem_of_seq. apply lookup_lt_Some in Hc. lia.
Qed.

Lemma finishes_wf s s' : finishes elapsed checks s s' -> wfRun s -> wfRun s'.
Proof.
  intros [s0 i c Hi Hc] [Hl Hp Hs]. split; cbn.
  - by rewrite length_insert.
  - intros j. rewrite elem_of_difference. intros [Hj _]. by apply Hp.
  - intros j d Hd Hj. destruct (decide (i = j)) as [<-|Hne].
    + rewrite Hc in Hd. injection Hd as <-. apply list_lookup_insert_eq. rewrite Hl. by apply lookup_lt_Some in Hc.
    + rewrite list_lookup_insert_ne by done. apply Hs; [done|]. set_solver.
Qed.

Lemma run_wf s : rtc (finishes elapsed checks) (spawned checks) s -> wfRun s.
Proof.
  intros H. apply (rtc_ind_r wfRun (spawned checks)) in H; [done|apply spawned_wf|].
  intros y z _ Hs. by apply finishes_wf.
Qed.

Lemma collected_lookup i : collected elapsed checks !! i = checkResult (elapsed i) <$> checks !! i.
Proof. unfold collected. by rewrite list_lookup_imap. Qed.

Lemma run_collects s : rtc (finishes elapsed checks) (spawned checks) s -> rn_pending s = ∅ -> rn_out s = collected elapsed checks.
Proof.
  intros [Hl _ Hs]%run_wf Hp. apply list_eq. intros i. rewrite collected_lookup. destruct (checks !! i) as [c|] eqn:Ec; cbn.
  - apply Hs; [done|]. rewrite Hp. set_solver.
  - apply lookup_ge_None in Ec. apply lookup_ge_None. lia.
Qed.

(** Every goroutine finishes in the end. *)
Lemma run_completes n s : size (rn_pending s) = n -> wfRun s -> exists s', rtc (finishes elapsed checks) s s' /\ rn_pending s' = ∅.
Proof.
  revert s. induction n as [|n IH]; intros s Hn Hw.
  { exists s. split; [reflexivity|]. apply leibniz_equiv. by apply size_empty_iff. }
  destruct (set_choose_L (rn_pending s)) as [i Hi]; [intros E; rewrite E, size_empty in Hn; lia|].
  destruct (lookup_lt_is_Some_2 checks i) as [c Hc]; [by apply (wr_pending s Hw)|].
  pose proof (Finish elapsed checks s i c Hi Hc) as Hstep.
  edestruct IH as (s' & H1 & H2); [|by eapply finishes_wf|].
  { cbn. rewrite size_difference by set_solver. rewrite size_singleton. lia. }
  exists s'. split; [by eapply rtc_l|done].
Qed.

Lemma resultLess_weak : WeakOrder resultLess.
Proof. apply (weakOrder_key (fun r => bytesOf (rt_Name r))), weakOrder_bytes. Qed.

Lemma names_distinct l a b : NoDup (rt_Name <$> l) -> a ∈ l -> b ∈ l -> rt_Name a = rt_Name b -> a = b.
Proof.
  intros Hn (i & Hi)%list_elem_of_lookup (j & Hj)%list_elem_of_lookup E.
  assert (i = j) as <-; [|congruence].
  eapply NoDup_lookup; [exact Hn| |]; rewrite list_lookup_fmap; [by rewrite Hi|by rewrite Hj; cbn; rewrite E].
Qed.

(** With names of their own the results have one order. *)
Lemma Run_iff l : NoDup (rt_Name <$> collected elapsed checks) ->
  Run elapsed checks l <-> l = SliceStable resultLess (collected elapsed checks).
Proof.
  intros Hn. pose proof (wo_asym _ resultLess_weak) as Ha. pose proof (wo_trans _ resultLess_weak) as Ht. split.
  - intros (s & Hr & Hp & Hperm & Hsort). rewrite (run_collects s Hr Hp) in Hperm.
    apply (StronglySorted_unique_strong (notAfter resultLess)); [|done|by apply SliceStable_sorted|].
    + intros a b Hal Hbl Hab Hba. rewrite Hperm in Hal. rewrite SliceStable_perm in Hbl.
      apply (names_distinct _ a b Hn Hal Hbl). apply (inj bytesOf). by apply bytesLt_total.
    + by rewrite SliceStable_perm.
  - intros ->. destruct (run_completes _ (spawned checks) eq_refl spawned_wf) as (s & Hr & Hp). exists s.
    split_and!; [done|done|]. rewrite (run_collects s Hr Hp). split; [apply SliceStable_perm|by apply SliceStable_sorted].
Qed.
End order.

(** ** Exit code and summary *)

Lemma ExitCode_spec l : ExitCode l = if existsb (fun r => bool_decide (rt_Status r = StatusFail)) l then 1 else 0.
Proof. induction l as [|r l IH]; [done|]. cbn. by destruct (bool_decide _). Qed.

Definition tally (s : Status) (l : list Result) : Z := Z.of_nat (length (filter (fun r => rt_Status r = s) l)).

Lemma foldl_count l s : foldl count s l =
  mkSummary (sm_OK s + tally StatusOK l) (sm_Warn s + tally StatusWarn l) (sm_Fail s + tally StatusFail l) (sm_Skipped s + tally StatusSkipped l).
Proof.
  revert s. induction l as [|r l IH]; intros s; [by destruct s; unfold tally; cbn; rewrite !Z.add_0_r|].
  cbn [foldl]. rewrite IH. unfold count, tally. rewrite !filter_cons.
  destruct (rt_Status r); repeat case_decide; try done; cbn -[Z.of_nat]; f_equal; lia.
Qed.

Lemma Aggregate_tally l : Aggregate l = mkSummary (tally StatusOK l) (tally StatusWarn l) (tally StatusFail l) (tally StatusSkipped l).
Proof. unfold Aggregate. by rewrite foldl_count. Qed.

Lemma tally_total l : tally StatusOK l + tally StatusWarn l + tally StatusFail l + tally StatusSkipped l = Z.of_nat (length l).
Proof.
  unfold tally. induction l as [|r l IH]; [done|]. rewrite !filter_cons.
  destruct (rt_Status r); repeat case_decide; try done; cbn [length]; lia.
Qed.

Lemma tally_pos l s : (exists r, r ∈ l /\ rt_Status r = s) <-> 0 < tally s l.
Proof.
  unfold tally. split.
  - intros (r & Hr & Hs). assert (r ∈ filter (fun r => rt_Status r = s) l) as H by (by apply list_elem_of_filter).
    destruct (filter _ l); [by apply elem_of_nil in H|]. cbn [length]. lia.
  - intros H. destruct (filter (fun r => rt_Status r = s) l) as [|r k] eqn:E; [done|].
    exists r. assert (r ∈ filter (fun r => rt_Status r = s) l) as [Hs Hr]%list_elem_of_filter by (rewrite E; left). done.
Qed.

(** ** The command *)

Lemma SliceStable_names l :
  rt_Name <$> SliceStable resultLess l = SliceStable (fun a b => bytesLt (bytesOf a) (bytesOf b)) (rt_Name <$> l).
Proof.
  induction l as [|r l IH]; [done|]. cbn. unfold SliceStable in IH. rewrite <-IH. generalize (foldr (sortInsert resultLess) [] l).
  intros k. induction k as [|x k IHk]; [done|]. cbn. unfold resultLess at 1. destruct (bytesLt _ _); [|done]. cbn. by rewrite IHk.
Qed.

Lemma checkResult_name elapsed c : rt_Name (ck_Run c) <> "" -> rt_Name (checkResult elapsed c) = rt_Name (ck_Run c).
Proof. intros H. unfold checkResult. rewrite (proj2 (String.eqb_neq _ _) H). by destruct (_ =? 0). Qed.

Lemma checkResult_status elapsed c : rt_Status (checkResult elapsed c) = rt_Status (ck_Run c).
Proof. unfold checkResult. destruct (String.eqb _ ""); cbn; by destruct (_ =? 0). Qed.

Lemma databaseCheck_name errText name variable dsn d : rt_Name (databaseCheck errText name variable dsn d).1 = name.
Proof. unfold databaseCheck. repeat case_match; done. Qed.
Lemma NATSCheck_name url p : rt_Name (NATSCheck url p) = "nats".
Proof. unfold NATSCheck. repeat case_match; done. Qed.
Lemma HTTPCheck_name n url p : rt_Name (HTTPCheck n url p) = nameOr n "http".
Proof. unfold HTTPCheck. repeat case_match; done. Qed.

Lemma collected_names errText flags sr elapsed :
  rt_Name <$> collected elapsed (doctorChecks errText flags sr) = ["postgres"; "clickhouse"; "nats"; "api"; "predictor"].
Proof.
  unfold collected, doctorChecks. cbn -[checkResult PostgresCheck ClickHouseCheck NATSCheck HTTPCheck].
  rewrite !checkResult_name by (cbn [ck_Run]; unfold PostgresCheck, ClickHouseCheck; rewrite ?databaseCheck_name, ?NATSCheck_name, ?HTTPCheck_name; done).
  cbn [ck_Run]. unfold PostgresCheck, ClickHouseCheck. by rewrite !databaseCheck_name, NATSCheck_name, !HTTPCheck_name.
Qed.

(** C37: [teo doctor] always reports, and reports the same whatever the order
    in which its checks finish: the results of the five checks in the order of
    their names, each with the outcome of its own probe.  It exits with 1 when a
    check failed and with 0 otherwise; the summary counts every check once. *)
Theorem doctor_report errText flags sr elapsed :
  let results := SliceStable resultLess (collected elapsed (doctorChecks errText flags sr)) in
  (forall out code, runDoctor errText flags sr elapsed out code <-> out = emit flags results /\ code = ExitCode results)
  /\ rt_Name <$> results = ["api"; "clickhouse"; "nats"; "postgres"; "predictor"]
  /\ results ≡ₚ imap (fun i c => checkResult (elapsed i) c) (doctorChecks errText flags sr)
  /\ (ExitCode results = 1 <-> exists c, c ∈ doctorChecks errText flags sr /\ rt_Status (ck_Run c) = StatusFail)
  /\ (ExitCode results = 0 \/ ExitCode results = 1)
  /\ let s := Aggregate results in sm_OK s + sm_Warn s + sm_Fail s + sm_Skipped s = 5 /\ (ExitCode results = 1 <-> 0 < sm_Fail s).
Proof.
  intros results. set (checks := doctorChecks errText flags sr) in *.
  assert (results ≡ₚ collected elapsed checks) as Hperm by apply SliceStable_perm.
  assert (NoDup (rt_Name <$> collected elapsed checks)) as Hn.
  { unfold checks. rewrite collected_names. apply (bool_decide_unpack _). vm_compute. exact I. }
  assert (ExitCode results = 1 <-> exists r, r ∈ results /\ rt_Status r = StatusFail) as Hexit.
  { rewrite ExitCode_spec. destruct (existsb _ results) eqn:E.
    - split; [intros _|done]. apply existsb_exists in E as (r & Hr%list_elem_of_In & Hs%bool_decide_eq_true_1). by exists r.
    - split; [done|]. intros (r & Hr & Hs). exfalso. apply not_true_iff_false in E. apply E, existsb_exists. exists r.
      rewrite <-list_elem_of_In. split; [done|]. by apply bool_decide_eq_true_2. }
  split_and!.
  - intros out code. unfold runDoctor. fold checks. setoid_rewrite (Run_iff elapsed checks _ Hn). fold results. naive_solver.
  - unfold results. rewrite SliceStable_names. unfold checks. rewrite collected_names. vm_compute. reflexivity.
  - done.
  - rewrite Hexit. split.
    + intros (r & Hr & Hs). rewrite Hperm in Hr. apply elem_of_lookup_imap in Hr as (i & c & -> & Hc). exists c.
      rewrite checkResult_status in Hs. split; [by eapply list_elem_of_lookup_2|done].
    + intros (c & [i Hc]%list_elem_of_lookup & Hs). exists (checkResult (elapsed i) c). rewrite Hperm, checkResult_status. split; [|done].
      unfold collected. by apply (elem_of_lookup_imap_2 (fun i c => checkResult (elapsed i) c)).
  - rewrite ExitCode_spec. destruct (existsb _ _); auto.
  - rewrite Aggregate_tally. cbn [sm_OK sm_Warn sm_Fail sm_Skipped]. rewrite tally_total, Hexit. split; [|by apply tally_pos].
    rewrite (Permutation_length Hperm). unfold collected. by rewrite length_imap.
Qed.

(** The comment of PostgresCheck expects a database that was never migrated to be
    a warning.  The status makes the table it then reads: the check reports
    version 0 as a success, and the database has the table of versions. *)
Lemma doctor_makes_the_table errText dsn d : dsn <> "" -> dt_Open d = None ->
  dt_connects d = true -> dt_ensures d = true -> dt_reads d = true -> dt_versions d = None ->
  (PostgresCheck errText dsn d).1 = answer "postgres" StatusOK "up; schema version 0" ""
  /\ dt_versions (PostgresCheck errText dsn d).2 = Some [].
Proof.
  intros Hdsn Ho Hc He Hr Hv. unfold PostgresCheck, databaseCheck, migrateStatus, afterStatus, Migrate.Status.
  rewrite (proj2 (String.eqb_neq _ _) Hdsn), Ho, Hc, He, Hr, Hv. done.
Qed.
