(* ===== verification/TeoCli.v ===== *)
(** * cmd/teo: the command line

    main.go and discover.go, with the flag package as the commands use it: the
    subcommands, [migrate up] and [migrate status], [digest dry-run], [discover],
    and how the arguments of [replay] are read.  Processes, connections and the
    layout of printed JSON are outside. *)

From S2P Require Import Prelude Doctor GoFloat GoRegexp GoStrings GoFmt Model Scheduler Db Effects RunSvc Digest Migrate Pytest Gotest Jest.
From S2P Require Import TeoReplay.

(** ** The flag package *)

Inductive flagKind := FlagString | FlagBool | FlagInt.

Inductive flagSet :=
  | Parsed (values : gmap string string) (args : list string)
  | HelpWanted
  | FlagError (msg : string).

Definition dash : ascii := "-".
Definition equals : ascii := "=".

(** Cut at the first equals sign that is not the first character. *)
Fixpoint cutEquals (t : text) : text * option text :=
  match t with
  | [] => ([], None)
  | c :: t' => if Ascii.eqb c equals then ([], Some t') else let '(n, v) := cutEquals t' in (c :: n, v)
  end.
Definition cutFlag (t : text) : text * option text :=
  match t with [] => ([], None) | c :: t' => let '(n, v) := cutEquals t' in (c :: n, v) end.

Definition ParseBool (s : string) : option bool :=
  if existsb (String.eqb s) ["1"; "t"; "T"; "TRUE"; "true"; "True"] then Some true
  else if existsb (String.eqb s) ["0"; "f"; "F"; "FALSE"; "false"; "False"] then Some false else None.

Section flags.
(** [strconv.ParseInt(s, 0, 64)] *)
Context (parseInt : string -> option Z).

(** [Value.Set]; a value is kept as the text it was set to. *)
Definition setFlag (kind : flagKind) (name value : string) (values : gmap string string) : option (gmap string string) :=
  match kind with
  | FlagString => Some (<[name := value]> values)
  | FlagBool => b ← ParseBool value; Some (<[name := if (b : bool) then "true" else "false"]> values)
  | FlagInt => _ ← parseInt value; Some (<[name := value]> values)
  end.

(** The name in an argument that is a flag, without its dashes; [None] for the
    argument that ends the flags. *)
Inductive argShape := Positional | Terminator | BadSyntax | Flag (name : text).

Definition argShapeOf (s : string) : argShape :=
  match toText s with
  | c :: (d :: t) as rest =>
      if negb (Ascii.eqb c dash) then Positional
      else
        let name := if Ascii.eqb d dash then t else rest in
        if Ascii.eqb d dash && bool_decide (t = []) then Terminator
        else match name with
             | [] => BadSyntax
             | x :: _ => if Ascii.eqb x dash || Ascii.eqb x equals then BadSyntax else Flag name
             end
  | _ => Positional
  end.

(** [FlagSet.Parse]; every step takes an argument. *)
Fixpoint parseFlags (fuel : nat) (formal : list (string * flagKind)) (values : gmap string string) (args : list string) : flagSet :=
  match fuel, args with
  | O, _ | _, [] => Parsed values args
  | S n, s :: args' =>
      match argShapeOf s with
      | Positional => Parsed values args
      | Terminator => Parsed values args'
      | BadSyntax => FlagError ("bad flag syntax: " +:+ s)
      | Flag t =>
          let '(nameT, value) := cutFlag t in
          let name := ofText nameT in
          match snd <$> List.find (fun f => String.eqb f.1 name) formal with
          | None =>
              if String.eqb name "help" || String.eqb name "h" then HelpWanted
              else FlagError ("flag provided but not defined: -" +:+ name)
          | Some FlagBool =>
              match setFlag FlagBool name (match value with Some v => ofText v | None => "true" end) values with
              | Some values => parseFlags n formal values args'
              | None => FlagError ("invalid boolean value for -" +:+ name)
              end
          | Some kind =>
              match value, args' with
              | None, [] => FlagError ("flag needs an argument: -" +:+ name)
              | None, v :: args'' =>
                  match setFlag kind name v values with
                  | Some values => parseFlags n formal values args''
                  | None => FlagError ("invalid value for flag -" +:+ name)
                  end
              | Some v, _ =>
                  match setFlag kind name (ofText v) values with
                  | Some values => parseFlags n formal values args'
                  | None => FlagError ("invalid value for flag -" +:+ name)
                  end
              end
          end
      end
  end.

Definition Parse (formal : list (string * flagKind)) (args : list string) : flagSet := parseFlags (S (length args)) formal ∅ args.
End flags.

Definition stringFlag (values : gmap string string) (name def : string) : string := default def (values !! name).
Definition boolFlag (values : gmap string string) (name : string) : bool :=
  match values !! name with Some v => String.eqb v "true" | None => false end.

(** [fs.Arg(0)] *)
Definition arg0 (args : list string) : string := default "" (head args).

Example Parse_demo :
  Parse (fun _ => Some 0) [("a", FlagString); ("b", FlagBool)] ["-a"; "1"; "--b"; "--a=2=3"; "x"; "-b=0"]
  = Parsed (<["a" := "2=3"]> (<["b" := "true"]> {["a" := "1"]})) ["x"; "-b=0"].
Proof. vm_compute. reflexivity. Qed.

(** ** Subcommands *)

Inductive command :=
  | CmdVersion
  | CmdMigrate (args : list string)
  | CmdDigest (args : list string)
  | CmdDiscover (args : list string)
  | CmdReplay (args : list string)
  | CmdDoctor (args : list string)
  | CmdHelp
  | CmdUnknown (name : string)
  | CmdMissing.

(** The switch of [main], on [os.Args[1:]]; an unknown or missing command prints
    the usage and exits with 2. *)
Definition dispatch (args : list string) : command :=
  match args with
  | [] => CmdMissing
  | c :: rest =>
      if existsb (String.eqb c) ["version"; "--version"; "-v"] then CmdVersion
      else if String.eqb c "migrate" then CmdMigrate rest
      else if String.eqb c "digest" then CmdDigest rest
      else if String.eqb c "discover" then CmdDiscover rest
      else if String.eqb c "replay" then CmdReplay rest
      else if String.eqb c "doctor" then CmdDoctor rest
      else if existsb (String.eqb c) ["help"; "--help"; "-h"] then CmdHelp
      else CmdUnknown c
  end.

(** What a command leaves: its lines on stdout, the message on stderr, the code it
    exits with. *)
Record outcome := mkOutcome {
  oc_stdout : list string;
  oc_stderr : list string;
  oc_code : Z
}.

(** [exit(format, args...)] after some output. *)
Definition exitWith (out : list string) (msg : string) : outcome := mkOutcome out [msg] 1.

(** What [flag.ExitOnError] does. *)
Definition flagExit (p : flagSet) : outcome :=
  match p with HelpWanted => mkOutcome [] [] 0 | FlagError msg => mkOutcome [] [msg] 2 | Parsed _ _ => mkOutcome [] [] 0 end.

Section commands.
Context (parseInt : string -> option Z) (env : string -> string).

Definition envDefault (key def : string) : string := if String.eqb (env key) "" then def else env key.

(** ** [teo migrate] *)

(** A database and its migrations: the arguments of [Migrate.Up]. *)
Record backend (S : Type) := mkBackend {
  bk_exec : text -> S -> option S;
  bk_begins : File -> bool;
  bk_records : File -> bool;
  bk_commits : File -> commitOutcome;
  bk_connects : bool;
  bk_ensures : bool;
  bk_reads : bool
}.
Arguments bk_exec {S}.
Arguments bk_begins {S}.
Arguments bk_records {S}.
Arguments bk_commits {S}.
Arguments bk_connects {S}.
Arguments bk_ensures {S}.
Arguments bk_reads {S}.

Definition migrateUp {S} (b : Backend) (k : backend S) (dir : option (list dirEntry)) (st : Store S) : option migrateError * Store S :=
  Up (bk_exec k) (bk_begins k) (bk_records k) (bk_commits k) b dir (bk_connects k) (bk_ensures k) (bk_reads k) st.

Definition migrateFormal : list (string * flagKind) :=
  [("postgres-dsn", FlagString); ("clickhouse-dsn", FlagString); ("dir", FlagString); ("skip-postgres", FlagBool); ("skip-clickhouse", FlagBool)].

Section migrate.
Context {P C : Type} (errText : migrateError -> string)
  (pg : string -> backend P) (ch : string -> backend C)
  (** the directory of a backend, read *)
  (readDir : string -> Backend -> option (list dirEntry)).

(** One backend of [up]: the lines printed, or the message of [exit], and the
    store. *)
Definition upBackend {S} (skip : bool) (dsn missing name : string) (b : Backend) (k : backend S) (dir : option (list dirEntry)) (st : Store S)
    : (string + list string) * Store S :=
  if skip then (inr [], st)
  else if String.eqb dsn "" then (inl missing, st)
  else match migrateUp b k dir st with
       | (Some err, st') => (inl (name +:+ " migration failed: " +:+ errText err), st')
       | (None, st') => (inr [name +:+ ": up to date"], st')
       end.

Definition statusLine {S} (dsn label skipped name : string) (k : backend S) (st : Store S) : string + string :=
  if String.eqb dsn "" then inr (label +:+ skipped)
  else match Status (bk_connects k) (bk_ensures k) (bk_reads k) st with
       | inl err => inl (name +:+ " status failed: " +:+ errText err)
       | inr v => inr (label +:+ "version " +:+ itoa v)
       end.

Definition runMigrate (args : list string) (stp : Store P) (stc : Store C) : outcome * Store P * Store C :=
  let '(cmd, args) := match args with
                      | c :: rest => if String.eqb c "up" || String.eqb c "status" then (c, rest) else ("up", args)
                      | [] => ("up", [])
                      end in
  match Parse parseInt migrateFormal args with
  | Parsed values _ =>
      let pgDSN := stringFlag values "postgres-dsn" (env "TEO_POSTGRES_DSN") in
      let chDSN := stringFlag values "clickhouse-dsn" (env "TEO_CLICKHOUSE_DSN") in
      let dir := stringFlag values "dir" (envDefault "TEO_MIGRATIONS_DIR" "migrations") in
      if String.eqb cmd "up" then
        match upBackend (boolFlag values "skip-postgres") pgDSN "--postgres-dsn or TEO_POSTGRES_DSN required" "postgres" Postgres
                (pg pgDSN) (readDir dir Postgres) stp with
        | (inl msg, stp') => (exitWith [] msg, stp', stc)
        | (inr out, stp') =>
            match upBackend (boolFlag values "skip-clickhouse") chDSN "--clickhouse-dsn or TEO_CLICKHOUSE_DSN required" "clickhouse" ClickHouse
                    (ch chDSN) (readDir dir ClickHouse) stc with
            | (inl msg, stc') => (exitWith out msg, stp', stc')
            | (inr out', stc') => (mkOutcome (out ++ out') [] 0, stp', stc')
            end
        end
      else
        match statusLine pgDSN "postgres:   " "skipped (--postgres-dsn or TEO_POSTGRES_DSN not set)" "postgres" (pg pgDSN) stp with
        | inl msg => (exitWith [] msg, stp, stc)
        | inr l =>
            match statusLine chDSN "clickhouse: " "skipped (--clickhouse-dsn or TEO_CLICKHOUSE_DSN not set)" "clickhouse" (ch chDSN) stc with
            | inl msg => (exitWith [l] msg, stp, stc)
            | inr l' => (mkOutcome [l; l'] [] 0, stp, stc)
            end
        end
  | p => (flagExit p, stp, stc)
  end.
End migrate.

(** ** [teo digest] *)

Definition digestFormal : list (string * flagKind) := [("user", FlagString); ("postgres-dsn", FlagString); ("format", FlagString)].

Definition messageLines (html : bool) (i : nat) (m : Message) : list string :=
  (if Nat.eqb i 0 then [] else [nl +:+ "----- next message -----" +:+ nl])
  ++ ["Subject: " +:+ ms_Subject m; "To: " +:+ ms_Email m; "Owner: " +:+ ms_Owner m; ""; if html then ms_HTML m else ms_Text m].

(** [opened] is [db.OpenPostgres], [forUser] is [RunForUser]. *)
Definition runDigestDryRun (opened : string -> result unit) (forUser : string -> M (list Message)) (errText : error -> string)
    (args : list string) : M outcome :=
  match Parse parseInt digestFormal args with
  | Parsed values _ =>
      let user := stringFlag values "user" "" in
      let dsn := stringFlag values "postgres-dsn" (env "TEO_POSTGRES_DSN") in
      let format := stringFlag values "format" "html" in
      if String.eqb user "" then retM (exitWith [] "--user is required")
      else if String.eqb dsn "" then retM (exitWith [] "--postgres-dsn or TEO_POSTGRES_DSN required")
      else if negb (String.eqb format "html") && negb (String.eqb format "text") then retM (exitWith [] "--format must be html or text")
      else match opened dsn with
      | Err e => retM (exitWith [] ("postgres open: " +:+ errText e))
      | Ok _ =>
          r ←! tryM (forUser user) ;
          match r with
          | Err e => retM (exitWith [] ("dry-run failed: " +:+ errText e))
          | Ok [] => retM (mkOutcome [] ["no digests would be sent to " +:+ user +:+ " (no owned tests in any repo)"] 0)
          | Ok msgs => retM (mkOutcome (concat (imap (messageLines (String.eqb format "html")) msgs)) [] 0)
          end
      end
  | p => retM (flagExit p)
  end.

Definition runDigest (opened : string -> result unit) (forUser : string -> M (list Message)) (errText : error -> string)
    (args : list string) : M outcome :=
  match args with
  | [] => retM (exitWith [] ("usage: teo digest <subcommand>" +:+ nl +:+ "  dry-run --user=<email>     render but don't send"))
  | c :: rest =>
      if String.eqb c "dry-run" then runDigestDryRun opened forUser errText rest
      else retM (exitWith [] ("unknown digest subcommand " +:+ dq +:+ c +:+ dq))
  end.

(** ** How [teo replay] reads its arguments *)

Definition replayFormal : list (string * flagKind) :=
  [("postgres-dsn", FlagString); ("from-s3", FlagBool); ("s3-bucket", FlagString); ("s3-region", FlagString); ("s3-endpoint", FlagString);
   ("json", FlagBool)].

(** The flags of [runReplay] and the run. *)
Definition replayArgs (args : list string) : outcome + replayFlags * string :=
  match Parse parseInt replayFormal args with
  | Parsed values rest =>
      inr (mkReplayFlags (stringFlag values "postgres-dsn" (env "TEO_POSTGRES_DSN")) (boolFlag values "from-s3")
             (stringFlag values "s3-bucket" (env "TEO_S3_BUCKET")) (boolFlag values "json"), arg0 rest)
  | p => inl (flagExit p)
  end.

(** ** How [teo doctor] reads its arguments *)

Definition doctorFormal : list (string * flagKind) :=
  [("postgres-dsn", FlagString); ("clickhouse-dsn", FlagString); ("nats-url", FlagString); ("api-url", FlagString);
   ("predictor-url", FlagString); ("json", FlagBool); ("deadline", FlagInt)].

Definition doctorArgs (args : list string) : outcome + doctorFlags :=
  match Parse parseInt doctorFormal args with
  | Parsed values _ =>
      inr (mkDoctorFlags (stringFlag values "postgres-dsn" (env "TEO_POSTGRES_DSN"))
             (stringFlag values "clickhouse-dsn" (env "TEO_CLICKHOUSE_DSN")) (stringFlag values "nats-url" (env "TEO_NATS_URL"))
             (stringFlag values "api-url" (env "TEO_API_URL")) (stringFlag values "predictor-url" (env "TEO_PREDICTOR_URL"))
             (boolFlag values "json"))
  | p => inl (flagExit p)
  end.

(** ** [teo discover] *)

Definition discoverFormal : list (string * flagKind) := [("runner", FlagString); ("output", FlagString); ("timeout", FlagInt)].

(** What the processes of the three adapters print for a directory. *)
Record runners := mkRunners {
  rn_pytestCollect : string -> result text;
  rn_pytestSigs : string -> list string -> option (gmap string (gmap string string));
  rn_goList : string -> result text;
  rn_goSigs : string -> gmap string string;
  rn_goTests : string -> string -> option text;
  rn_jestRel : string -> string -> string;
  rn_jestList : string -> result (result (list string))
}.

(** [ad.Discover(ctx, dir)]: [None] for the panic of the pytest adapter. *)
Inductive adapter := PytestAdapter | GoAdapter | JestAdapter.

Definition Name (ad : adapter) : string := match ad with PytestAdapter => "pytest" | GoAdapter => "go" | JestAdapter => "jest" end.

Definition discoverTests (rn : runners) (ad : adapter) (dir : string) : option (result (list TestEntry)) :=
  match ad with
  | PytestAdapter => Discover (rn_pytestCollect rn dir) (rn_pytestSigs rn dir)
  | GoAdapter => Some (DiscoverGo (rn_goList rn dir) (rn_goSigs rn dir) (rn_goTests rn dir))
  | JestAdapter => Some (DiscoverJest (rn_jestRel rn dir) (rn_jestList rn dir))
  end.

(** The manifest as it is marshalled; a nil slice is null, and only the slice of
    the Jest adapter is never nil. *)
Definition jsonTests (ad : adapter) (l : list TestEntry) : Json :=
  match l, ad with
  | [], JestAdapter => JArr []
  | [], _ => JNull
  | _, _ => JArr (jsonEntry <$> l)
  end.
Definition jsonManifest (ad : adapter) (l : list TestEntry) : Json := JObj [("runner", JStr (Name ad)); ("tests", jsonTests ad l)].

(** What the command leaves: the document goes to stdout, or to a file. *)
Inductive discovery :=
  | DiscoverExit (o : outcome)
  | DiscoverPanic
  | DiscoverPrinted (doc : Json) (note : string)
  | DiscoverWritten (file : string) (doc : Json) (note : string).

Definition adapterFor (runner : string) : string + adapter :=
  if String.eqb runner "pytest" then inr PytestAdapter
  else if String.eqb runner "go" then inr GoAdapter
  else if String.eqb runner "jest" then inr JestAdapter
  else if String.eqb runner "" then inl "--runner is required (pytest | go | jest)"
  else inl ("unknown runner " +:+ dq +:+ runner +:+ dq +:+ " (want pytest | go | jest)").

(** [write] is the error of [os.WriteFile]. *)
Definition runDiscover (rn : runners) (errText : error -> string) (write : string -> option string) (args : list string) : discovery :=
  match Parse parseInt discoverFormal args with
  | Parsed values rest =>
      let dir := if String.eqb (arg0 rest) "" then "." else arg0 rest in
      let output := stringFlag values "output" "" in
      match adapterFor (stringFlag values "runner" "") with
      | inl msg => DiscoverExit (exitWith [] msg)
      | inr ad =>
          match discoverTests rn ad dir with
          | None => DiscoverPanic
          | Some (Err e) => DiscoverExit (exitWith [] ("discover failed: " +:+ errText e))
          | Some (Ok tests) =>
              let doc := jsonManifest ad tests in
              let note := "discovered " +:+ itoa (Z.of_nat (length tests)) +:+ " " +:+ Name ad +:+ " tests" in
              if String.eqb output "" then DiscoverPrinted doc note
              else match write output with
                   | Some err => DiscoverExit (exitWith [] ("write " +:+ output +:+ ": " +:+ err))
                   | None => DiscoverWritten output doc (note +:+ " → " +:+ output)
                   end
          end
      end
  | p => DiscoverExit (flagExit p)
  end.
End commands.

(** ** The body of a run request *)

Definition decManifest (v : option Json) : option TestManifest :=
  match v with
  | None | Some JNull => Some (mkTestManifest "" [])
  | Some (JObj f) =>
      runner ← decStr (jget "runner" f) ; tests ← decList (fun t => decEntry (Some t)) (jget "tests" f) ;
      Some (mkTestManifest runner tests)
  | _ => None
  end.

Definition decBudget (v : option Json) : option (option RunBudget) :=
  match v with
  | None | Some JNull => Some None
  | Some (JObj f) => s ← decInt (jget "max_seconds" f) ; w ← decInt (jget "max_workers" f) ; Some (Some (mkRunBudget s w))
  | _ => None
  end.

(** [json.Decode] into [model.CreateRunRequest]; the key of the request is a
    header. *)
Definition decCreateRun (v : Json) : option CreateRunRequest :=
  match v with
  | JNull => Some (mkCreateRunRequest "" "" "" (mkTestManifest "" []) None "" 0 "")
  | JObj f =>
      repo ← decStr (jget "repo_full_name" f) ; sha ← decStr (jget "commit_sha" f) ; branch ← decStr (jget "branch" f) ;
      manifest ← decManifest (jget "manifest" f) ; budget ← decBudget (jget "budget" f) ;
      actor ← decStr (jget "trigger_actor" f) ; pr ← decInt (jget "trigger_pr_number" f) ;
      Some (mkCreateRunRequest repo sha branch manifest budget actor pr "")
  | _ => None
  end.

(** * What the commands guarantee *)

Lemma decTests_written ad l : decList (fun t => decEntry (Some t)) (Some (jsonTests ad l)) = Some l.
Proof.
  destruct l as [|e l]; [by destruct ad|]. unfold jsonTests. cbn [decList]. generalize (e :: l). clear e l. intros l.
  induction l as [|e l IH]; [done|]. rewrite fmap_cons. cbn [mapM]. by rewrite decEntry_written, IH.
Qed.

Lemma decManifest_written ad l : decManifest (Some (jsonManifest ad l)) = Some (mkTestManifest (Name ad) l).
Proof.
  unfold decManifest, jsonManifest. change (jget "runner" _) with (Some (JStr (Name ad))).
  change (jget "tests" _) with (Some (jsonTests ad l)). by rewrite decTests_written.
Qed.

(** The document of a discovery and the tests behind it. *)
Definition documentOf (d : discovery) : option Json :=
  match d with DiscoverPrinted doc _ | DiscoverWritten _ doc _ => Some doc | _ => None end.

(** What [teo discover] prints, or writes to its file, is the manifest a run
    request takes: as the manifest of a body with a repository, a commit and a
    branch it decodes to the runner asked for and exactly the tests the adapter
    has found, in their order and with their signatures and tags, and the request
    is valid if and only if there is a test. *)
Theorem discover_feeds_intake parseInt rn errText write args doc repo sha branch :
  documentOf (runDiscover parseInt rn errText write args) = Some doc -> repo <> "" -> sha <> "" -> branch <> "" ->
  exists values rest ad tests,
    Parse parseInt discoverFormal args = Parsed values rest /\ stringFlag values "runner" "" = Name ad
    /\ discoverTests rn ad (if String.eqb (arg0 rest) "" then "." else arg0 rest) = Some (Ok tests)
    /\ let req := mkCreateRunRequest repo sha branch (mkTestManifest (Name ad) tests) None "" 0 "" in
       decCreateRun (JObj [("repo_full_name", JStr repo); ("commit_sha", JStr sha); ("branch", JStr branch); ("manifest", doc)]) = Some req
       /\ (validateCreateRun req = [] <-> tests <> []).
Proof.
  intros Hdoc Hr Hs Hb. unfold runDiscover in Hdoc. destruct (Parse _ _ args) as [values rest| |] eqn:Ep; [|done..].
  assert (forall runner ad, adapterFor runner = inr ad -> runner = Name ad) as Had.
  { intros runner ad. unfold adapterFor. destruct (String.eqb_spec runner "pytest") as [->|]; [by intros [= <-]|].
    destruct (String.eqb_spec runner "go") as [->|]; [by intros [= <-]|].
    destruct (String.eqb_spec runner "jest") as [->|]; [by intros [= <-]|]. by destruct (String.eqb runner ""). }
  destruct (adapterFor _) as [|ad] eqn:Ea; [done|]. destruct (discoverTests _ _ _) as [[tests|]|] eqn:Et; [|done..].
  exists values, rest, ad, tests. split_and!; [done|by apply Had|done|].
  assert (doc = jsonManifest ad tests) as ->.
  { revert Hdoc. destruct (String.eqb (stringFlag values "output" "") ""); cbn [documentOf]; [by intros [= <-]|].
    destruct (write _); [done|]. by intros [= <-]. }
  split.
  - unfold decCreateRun. change (jget "repo_full_name" _) with (Some (JStr repo)). change (jget "commit_sha" _) with (Some (JStr sha)).
    change (jget "branch" _) with (Some (JStr branch)). change (jget "manifest" _) with (Some (jsonManifest ad tests)).
    rewrite decManifest_written. reflexivity.
  - unfold validateCreateRun. cbn [cr_RepoFullName cr_CommitSHA cr_Branch cr_Manifest tm_Runner tm_Tests].
    rewrite !(proj2 (String.eqb_neq _ _)) by (done || by destruct ad). by destruct tests.
Qed.

Lemma discover_feeds_intake_witness :
  decCreateRun (JObj [("repo_full_name", JStr "acme/app"); ("commit_sha", JStr "abc"); ("branch", JStr "main");
     ("manifest", JObj [("runner", JStr "jest"); ("tests", JArr [JObj [("path", JStr "a.test.js"); ("name", JStr "<file>")]])])])
  = Some (mkCreateRunRequest "acme/app" "abc" "main" (mkTestManifest "jest" [mkTestEntry "a.test.js" "<file>" "" "" []]) None "" 0 "").
Proof.
  set (rn := mkRunners (fun _ => Ok []) (fun _ _ => None) (fun _ => Ok []) (fun _ => ∅) (fun _ _ => None) (fun _ p => p)
    (fun _ => Ok (Ok ["a.test.js"]))).
  destruct (discover_feeds_intake (fun _ => None) rn (fun _ => "") (fun _ => None) ["--runner"; "jest"; "web"]
    (JObj [("runner", JStr "jest"); ("tests", JArr [JObj [("path", JStr "a.test.js"); ("name", JStr "<file>")]])])
    "acme/app" "abc" "main") as (values & rest & ad & tests & Hp & Hn & Ht & Hd & _); [vm_compute; reflexivity|done..|].
  assert (Parse (fun _ => None) discoverFormal ["--runner"; "jest"; "web"] = Parsed {["runner" := "jest"]} ["web"]) as Hp'
    by (vm_compute; reflexivity).
  rewrite Hp' in Hp. injection Hp as <- <-.
  destruct ad; try (revert Hn; vm_compute; discriminate). cbn in Ht. injection Ht as <-. exact Hd.
Defined.

(** ** Flags after the run *)

Lemma Parse_positional parseInt formal a rest : argShapeOf a = Positional -> Parse parseInt formal (a :: rest) = Parsed ∅ (a :: rest).
Proof. intros H. unfold Parse. cbn [length parseFlags]. by rewrite H. Qed.

(** An argument is positional when it does not start with a dash, as no uuid
    does. *)
Lemma argShapeOf_positional s c t : toText s = c :: t -> c <> dash -> argShapeOf s = Positional.
Proof.
  intros E Hc. unfold argShapeOf. rewrite E. destruct t as [|d t]; [done|]. destruct (Ascii.eqb_spec c dash); [done|]. done.
Qed.

(** The usage of [teo replay] puts the flags after the run, but the flag package
    stops at the first argument that is not a flag: whatever follows a run id is
    ignored.  So [teo replay <run_id> --from-s3 --s3-bucket=b --json] reads the
    plan from Postgres with the settings of the environment and prints text,
    whatever the bucket holds; the same flags in front of the run are obeyed. *)
Theorem replay_ignores_flags_after_run parseInt env runID c t rest : toText runID = c :: t -> c <> dash ->
  let f := mkReplayFlags (env "TEO_POSTGRES_DSN") false (env "TEO_S3_BUCKET") false in
  replayArgs parseInt env (runID :: rest) = inr (f, runID)
  /\ (forall opened store store' parse parse',
        runReplay opened store parse f runID = runReplay opened store' parse' f runID)
  /\ replayArgs parseInt env ["--from-s3"; "--s3-bucket=b"; "--json"; runID]
     = inr (mkReplayFlags (env "TEO_POSTGRES_DSN") true "b" true, runID).
Proof.
  intros Ht Hc f. pose proof (argShapeOf_positional _ _ _ Ht Hc) as Hp. split_and!.
  - unfold replayArgs. by rewrite Parse_positional.
  - intros. unfold runReplay. by destruct (String.eqb runID "").
  - unfold replayArgs.
    assert (Parse parseInt replayFormal ["--from-s3"; "--s3-bucket=b"; "--json"; runID]
      = Parsed (<["json" := "true"]> (<["s3-bucket" := "b"]> {["from-s3" := "true"]})) [runID]) as ->.
    { unfold Parse. cbn [length parseFlags argShapeOf]. cbn -[argShapeOf insert]. rewrite Hp. done. }
    done.
Qed.

Lemma replay_ignores_flags_after_run_witness :
  replayArgs (fun _ => None) (fun k => if String.eqb k "TEO_POSTGRES_DSN" then "postgres://db/teo" else "")
    ["7d6e"; "--from-s3"; "--s3-bucket=b"; "--json"]
  = inr (mkReplayFlags "postgres://db/teo" false "" false, "7d6e").
Proof.
  destruct (replay_ignores_flags_after_run (fun _ => None) (fun k => if String.eqb k "TEO_POSTGRES_DSN" then "postgres://db/teo" else "")
    "7d6e" "7" (toText "d6e") ["--from-s3"; "--s3-bucket=b"; "--json"]) as [H _]; [reflexivity|discriminate|exact H].
Defined.

(** ** Migrations run in order *)

Section migrate_order.
Context (parseInt : string -> option Z) (env : string -> string) {P C : Type} (errText : migrateError -> string)
  (pg : string -> backend P) (ch : string -> backend C) (readDir : string -> Backend -> option (list dirEntry)).

(** [teo migrate] touches ClickHouse only after Postgres is up to date or was
    skipped: when the command changes the ClickHouse store, the Postgres part did
    not fail; [status] changes neither. *)
Lemma migrate_postgres_first args stp stc o stp' stc' : runMigrate parseInt env errText pg ch readDir args stp stc = (o, stp', stc') ->
  (stc' <> stc -> exists values rest dsn dir, Parse parseInt migrateFormal (match args with c :: l => if String.eqb c "up" then l else args | [] => [] end)
       = Parsed values rest
     /\ (boolFlag values "skip-postgres" = true /\ stp' = stp
         \/ migrateUp Postgres (pg dsn) dir stp = (None, stp')))
  /\ (head args = Some "status" -> stp' = stp /\ stc' = stc).
Proof.
  unfold runMigrate. destruct (match args with [] => _ | _ => _ end) as [cmd args'] eqn:Ea.
  destruct (Parse parseInt migrateFormal args') as [values rest| |] eqn:Ep; [|by intros [= _ <- <-]..].
  destruct (String.eqb_spec cmd "up") as [->|Hcmd].
  - intros H. split.
    + intros Hne. exists values, rest, (stringFlag values "postgres-dsn" (env "TEO_POSTGRES_DSN")),
        (readDir (stringFlag values "dir" (envDefault env "TEO_MIGRATIONS_DIR" "migrations")) Postgres).
      split.
      { rewrite <-Ep. f_equal. destruct args as [|c l]; [by injection Ea as <-|].
        destruct (String.eqb c "up"); cbn [orb] in Ea; [by injection Ea as _ <-|].
        destruct (String.eqb_spec c "status") as [->|]; [done|]. by injection Ea as <-. }
      unfold upBackend at 1 in H. destruct (boolFlag values "skip-postgres").
      * left. split; [done|]. by destruct (upBackend _ _ _ _ _ _ _ _ stc) as [[] ?]; injection H as _ <- _.
      * destruct (String.eqb _ ""); [by injection H as _ <- <-|]. destruct (migrateUp Postgres _ _ stp) as [[err|] stp1] eqn:Eu.
        -- by injection H as _ <- <-.
        -- right. by destruct (upBackend _ _ _ _ _ _ _ _ stc) as [[] ?]; injection H as _ <- _.
    + intros Hs. destruct args as [|c l]; [done|]. injection Hs as ->. by cbn in Ea.
  - intros H. assert (stp' = stp /\ stc' = stc) as [-> ->]; [|done].
    destruct (statusLine _ _ _ _ _ _ stp); [by injection H as _ <- <-|]. by destruct (statusLine _ _ _ _ _ _ stc); injection H as _ <- <-.
Qed.
End migrate_order.
