(* ===== verification/Processes.v ===== *)
(** * The other processes

    internal/nats, internal/logstore, and how cmd/worker, cmd/run-manager and
    cmd/predictor put the modelled parts together.  What they open (Postgres, NATS,
    S3, the listeners) is a record of answers; the environment variables are a
    function.  The two loops of the worker agent that claim shards, and the
    interruption handler beside them, are a step relation, and so are the
    statements of theirs that fail. *)

From S2P Require Import Prelude GoRegexp GoStrings GoFmt Model Scheduler Db Effects Lifecycle Predictor RunManager Auth Doctor Gateway ApiMain.
From S2P Require Import Worker Pytest.

(** ** internal/nats *)

Definition StreamShards : string := "TEO_SHARDS".
Definition SubjShardsDispatch : string := "teo.shards.dispatch".
Definition StreamResults : string := "TEO_RESULTS".
Definition SubjUIRunChanged : string := "teo.ui.run_changed".

Inductive retention := WorkQueuePolicy | LimitsPolicy.

(** [jetstream.StreamConfig]; the age in nanoseconds. *)
Record streamConfig := mkStream {
  st_Name : string;
  st_Subjects : list string;
  st_Retention : retention;
  st_MaxAge : Z;
  st_Replicas : Z
}.

(** [jetstream.ConsumerConfig]; acknowledgements are explicit. *)
Record consumerConfig := mkConsumer {
  cc_Name : string;
  cc_Durable : string;
  cc_AckWait : Z;
  cc_MaxAckPending : Z;
  cc_FilterSubject : string
}.

Definition ErrUnavailable : error := ErrText "nats unavailable".

(** [dial] is [nats.Connect], [jetstream] [jetstream.New] on the connection. *)
Definition Connect (dial : string -> result unit) (jetstream : result unit) (url : string) : result unit :=
  if String.eqb url "" then Err ErrUnavailable
  else match dial url with
  | Err e => Err e
  | Ok _ => jetstream
  end.

Definition shardsStream : streamConfig := mkStream StreamShards [SubjShardsDispatch] WorkQueuePolicy (24 * hour) 1.
Definition resultsStream : streamConfig := mkStream StreamResults ["teo.results.>"] LimitsPolicy (7 * 24 * hour) 1.

(** [js.CreateOrUpdateStream] answers an error or nothing; the configurations it
    was called with, in order. *)
Definition EnsureStreams (create : streamConfig -> option error) : option error * list streamConfig :=
  match create shardsStream with
  | Some e => (Some e, [shardsStream])
  | None => (create resultsStream, [shardsStream; resultsStream])
  end.

(** [PublishCore]: nothing is sent without a connection. *)
Definition PublishCore (conn : option (string -> string -> option error)) (marshal : result string) (subj : string) : option error :=
  match conn with
  | None => None
  | Some publish =>
      match marshal with
      | Err e => Some e
      | Ok b => publish subj b
      end
  end.

(** ** internal/logstore *)

(** An uploader: the S3 client for a bucket, or the one that discards. *)
Inductive uploader :=
  | UploadS3 (bucket : string)
  | Noop.

Section logstore.
(** The calls of the AWS SDK: the configuration of a region, and the object
    operations on a bucket. *)
Context (loadConfig : string -> result unit).
Context (putObject : string -> string -> string -> option error).
Context (getObject : string -> string -> result string).
Context (presignGet : string -> string -> Z -> result string).

(** An endpoint only changes where the SDK connects. *)
Definition NewS3 (region bucket : string) : result uploader :=
  if String.eqb bucket "" then Err (ErrText "logstore: bucket is required")
  else match loadConfig region with
  | Err e => Err (ErrWrap "logstore: load aws config" e)
  | Ok _ => Ok (UploadS3 bucket)
  end.

(** [Uploader.Upload] *)
Definition Upload (up : uploader) (key body : string) : option error :=
  match up with
  | UploadS3 bucket => ErrWrap ("logstore: upload " +:+ key) <$> putObject bucket key body
  | Noop => None
  end.

Definition Download (bucket key : string) : result string :=
  match getObject bucket key with
  | Err e => Err (ErrWrap ("logstore: download " +:+ key) e)
  | Ok body => Ok body
  end.

Definition Presign (bucket key : string) (ttl : Z) : result string :=
  if String.eqb key "" then Err (ErrText "logstore: empty key")
  else match presignGet bucket key ttl with
  | Err e => Err (ErrWrap ("logstore: presign " +:+ key) e)
  | Ok url => Ok url
  end.
End logstore.

(** ** internal/db *)

(** What the Postgres driver answers. *)
Record pgDriver := mkPgDriver {
  pg_ParseConfig : string -> result unit;
  pg_NewPool : string -> result unit;
  pg_Ping : result unit
}.

Record poolConfig := mkPoolConfig {
  pl_MaxConns : Z;
  pl_MinConns : Z;
  pl_MaxConnLifetime : Z;
  pl_MaxConnIdleTime : Z;
  pl_application_name : string
}.

Definition OpenPostgres (d : pgDriver) (dsn : string) : result poolConfig :=
  match pg_ParseConfig d dsn with
  | Err e => Err (ErrWrap "parse pg dsn" e)
  | Ok _ =>
      match pg_NewPool d dsn with
      | Err e => Err e
      | Ok _ =>
          match pg_Ping d with
          | Err e => Err (ErrWrap "pg ping" e)
          | Ok _ => Ok (mkPoolConfig 25 2 hour (30 * 60 * second) "teo")
          end
      end
  end.

(** [url.URL], as far as it is looked at: the user with the password, if there is
    one. *)
Record parsedURL := mkParsedURL {
  ur_Host : string;
  ur_User : option (string * option string);
  ur_Path : string;
  ur_RawQuery : string
}.

(** [clickhouse.Options] *)
Record chOptions := mkChOptions {
  co_Addr : list string;
  co_Username : string;
  co_Password : string;
  co_Database : string;
  co_DialTimeout : Z;
  co_MaxOpenConns : Z;
  co_MaxIdleConns : Z;
  co_ConnMaxLifetime : Z
}.

(** [parse] is [url.Parse]. *)
Definition parseClickHouseDSN (parse : string -> result parsedURL) (dsn : string) : result chOptions :=
  match parse dsn with
  | Err e => Err e
  | Ok u =>
      let db := ofText (trimPrefix (toText (ur_Path u)) (toText "/")) in
      Ok (mkChOptions [ur_Host u]
            (match ur_User u with Some (name, _) => name | None => "" end)
            (match ur_User u with Some (_, Some pw) => pw | _ => "" end)
            (if String.eqb db "" then "teo" else db) (5 * second) 20 5 hour)
  end.

(** [open] is [clickhouse.Open], [ping] the ping of the connection. *)
Definition OpenClickHouseConn (parse : string -> result parsedURL) (open : chOptions -> result unit) (ping : result unit) (dsn : string)
    : result chOptions :=
  match parseClickHouseDSN parse dsn with
  | Err e => Err (ErrWrap "parse ch dsn" e)
  | Ok opts =>
      match open opts with
      | Err e => Err e
      | Ok _ => match ping with Err e => Err (ErrWrap "ch native ping" e) | Ok _ => Ok opts end
      end
  end.

(** ** internal/metrics *)

(** The bounds of a histogram's buckets in microseconds. *)
Inductive metricKind :=
  | Counter
  | Gauge
  | Histogram (buckets : list Z).

Record collector := mkCollector {
  mc_Name : string;
  mc_Kind : metricKind;
  mc_Labels : list string
}.

(** The collectors of [metrics.New], in the order they are registered. *)
Definition teoCollectors : list collector := [
  mkCollector "http_server_requests_seconds"
    (Histogram [5000; 10000; 25000; 50000; 100000; 250000; 500000; 1000000; 2500000; 5000000; 10000000]) ["handler"; "method"; "status"];
  mkCollector "teo_runs_active" Gauge ["status"];
  mkCollector "teo_run_transitions_total" Counter ["to_status"];
  mkCollector "teo_runs_stuck_total" Gauge [];
  mkCollector "teo_scheduler_plan_seconds"
    (Histogram [1000; 5000; 10000; 50000; 100000; 250000; 500000; 1000000; 2000000; 5000000]) [];
  mkCollector "teo_scheduler_plan_total" Counter [];
  mkCollector "teo_predictor_predict_total" Counter [];
  mkCollector "teo_predictor_cold_start_total" Counter [];
  mkCollector "teo_predictor_fallback_total" Counter [];
  mkCollector "teo_predictor_server_coldstart_total" Counter [];
  mkCollector "teo_predictor_mae" Gauge [];
  mkCollector "teo_clickhouse_inserts_total" Counter [];
  mkCollector "teo_clickhouse_insert_seconds"
    (Histogram [5000; 10000; 50000; 100000; 500000; 1000000; 5000000; 30000000; 60000000]) [];
  mkCollector "teo_clickhouse_insert_failures_total" Counter [];
  mkCollector "teo_graphql_subscriptions_active" Gauge [];
  mkCollector "teo_graphql_subscription_pushes_total" Counter []
].

(** [MustRegister] panics on a name that is taken ([None]). *)
Definition mustRegister (reg : gmap string collector) (cs : list collector) : option (gmap string collector) :=
  foldl (fun acc c => m ← acc; if bool_decide (is_Some (m !! mc_Name c)) then None else Some (<[mc_Name c := c]> m)) (Some reg) cs.

(** [base]: the collectors of the process and of the Go runtime. *)
Definition newRegistry (base : gmap string collector) : option (gmap string collector) := mustRegister base teoCollectors.

(** [ServeHTTP]: where it listens and what for.  The goroutine that listens drops
    its error, so there is never one. *)
Definition ServeHTTP (addr : string) : result (string * list string) :=
  Ok (if String.eqb addr "" then ":9100" else addr, ["/metrics"; "/healthz"]).

(** ** What a process opens *)

Record Openings := mkOpenings {
  op_pg : pgDriver;
  op_loadConfig : string -> result unit;
  op_dial : string -> result unit;
  op_jetstream : result unit;
  op_createStream : streamConfig -> option error;
  op_createConsumer : string -> consumerConfig -> option error;
  op_consume : option error;
  op_Hostname : string
}.

(** ** cmd/worker *)

(** The adapter interface, as far as the agent calls it. *)
Record adapterImpl := mkAdapter {
  ai_Name : string;
  ai_Execute : list TestEntry -> list Result * bool
}.

(** [pytest.New()]; the agent passes no environment of its own. *)
Definition pytestNew (reportPath : string) (environ : list string) (run : list string -> list string -> pytestRun) : adapterImpl :=
  mkAdapter "pytest" (fun ts => Pytest.Execute reportPath environ run ts []).

(** The fields of the agent that [main] sets. *)
Record agentConfig := mkAgentConfig {
  ac_Adapter : adapterImpl;
  ac_Workdir : string;
  ac_WorkerID : string;
  ac_SpotWatcher : bool;
  ac_Uploader : uploader
}.

Definition workerConsumer (workerID : string) : consumerConfig :=
  mkConsumer ("teo-worker-" +:+ workerID) ("teo-worker-" +:+ workerID) (30 * 60 * second) 1 SubjShardsDispatch.

(** [SubscribeNATS]: the error, or the consumer whose messages the agent takes. *)
Definition SubscribeNATS (out : Openings) (a : agentConfig) (js : bool) : result consumerConfig :=
  if negb js then Err (ErrText "nats not configured")
  else match op_createConsumer out StreamShards (workerConsumer (ac_WorkerID a)) with
  | Some e => Err e
  | None => match op_consume out with Some e => Err e | None => Ok (workerConsumer (ac_WorkerID a)) end
  end.

(** The start of [Run]: a worker without a name takes the host's. *)
Definition runDefaults (out : Openings) (a : agentConfig) : agentConfig :=
  if String.eqb (ac_WorkerID a) ""
  then mkAgentConfig (ac_Adapter a) (ac_Workdir a) (op_Hostname out) (ac_SpotWatcher a) (ac_Uploader a) else a.

(** The agent of [Worker]. *)
Definition agentOf (putObject : string -> string -> string -> option error) (a : agentConfig) : Agent :=
  mkAgent (ac_WorkerID a) (ai_Name (ac_Adapter a)) (ai_Execute (ac_Adapter a))
    (fun key body => match Upload putObject (ac_Uploader a) key body with None => true | Some _ => false end).

Inductive workerStart :=
  | WorkerExit (msg : string)
  | WorkerRun (a : agentConfig) (consumer : option consumerConfig).

Section worker.
Context (out : Openings) (env : string -> string) (pytest : adapterImpl).

Definition workdirOf : string := if String.eqb (env "TEO_WORKDIR") "" then "/workdir" else env "TEO_WORKDIR".

Definition workerUploader (cfg : Common) : uploader :=
  if negb (String.eqb (c_S3Bucket cfg) "") && negb (String.eqb (env "TEO_LOGSTORE") "noop") then
    match NewS3 (op_loadConfig out) (c_S3Region cfg) (c_S3Bucket cfg) with
    | Err _ => Noop
    | Ok s3up => s3up
    end
  else Noop.

(** NATS, when it answers. *)
Definition workerNATS (cfg : Common) (a : agentConfig) : option consumerConfig :=
  match Connect (op_dial out) (op_jetstream out) (c_NATSURL cfg) with
  | Err _ => None
  | Ok _ =>
      match (EnsureStreams (op_createStream out)).1 with
      | Some _ => None
      | None => match SubscribeNATS out a true with Ok c => Some c | Err _ => None end
      end
  end.

Definition workerMain : workerStart :=
  let cfg := LoadCommon env in
  if String.eqb (c_PostgresDSN cfg) "" then WorkerExit "TEO_POSTGRES_DSN required"
  else match OpenPostgres (op_pg out) (c_PostgresDSN cfg) with
  | Err _ => WorkerExit "postgres open failed"
  | Ok _ =>
      let agent := mkAgentConfig pytest workdirOf "" (negb (String.eqb (env "TEO_SPOT_WATCH") "disabled")) (workerUploader cfg) in
      WorkerRun (runDefaults out agent) (workerNATS cfg agent)
  end.
End worker.

(** ** cmd/run-manager *)

Inductive managerStart :=
  | ManagerExit (msg : string)
  | ManagerRun (m : Manager) (pollInterval budgetCheckInterval : Z) (notifyUI checks : bool).

Section manager.
Context (out : Openings) (env : string -> string) (post : string -> Z -> MLClient.mlPredictRequest -> MLClient.reply).

(** The heuristic, behind the ML client when its address is set. *)
Definition managerPredictor (cfg : Common) : Predictor :=
  if String.eqb (c_PredictorMLURL cfg) "" then Heuristic.impl Heuristic.NewHeuristic
  else
    let ml := MLClient.NewMLClient (c_PredictorMLURL cfg) (c_PredictorMLTimeout cfg) in
    let ml := MLClient.mk (MLClient.BaseURL ml) (MLClient.Timeout ml) true in
    let fb := Fallback.NewFallback (Some (MLClient.impl post ml)) (Heuristic.impl Heuristic.NewHeuristic) in
    Fallback.impl (Fallback.mk (Fallback.Primary fb) (Fallback.Secondary fb) true).

(** Whether assignment plans are archived, or the error of [NewS3]. *)
Definition managerPlanStore (cfg : Common) : result bool :=
  if String.eqb (env "TEO_S3_BUCKET") "" then Ok false
  else match NewS3 (op_loadConfig out) (c_S3Region cfg) (c_S3Bucket cfg) with
  | Err e => Err e
  | Ok _ => Ok true
  end.

(** Whether shards are dispatched over JetStream, and whether the gateways are
    told of transitions. *)
Definition managerNATS (cfg : Common) : bool * bool :=
  match Connect (op_dial out) (op_jetstream out) (c_NATSURL cfg) with
  | Err _ => (false, false)
  | Ok _ => (match (EnsureStreams (op_createStream out)).1 with Some _ => false | None => true end, true)
  end.

Definition managerMain : managerStart :=
  let cfg := LoadCommon env in
  if String.eqb (c_PostgresDSN cfg) "" then ManagerExit "TEO_POSTGRES_DSN required"
  else match OpenPostgres (op_pg out) (c_PostgresDSN cfg) with
  | Err _ => ManagerExit "postgres open failed"
  | Ok _ =>
      match ServeHTTP (getEnv env "TEO_METRICS_LISTEN" ":9100") with
      | Err _ => ManagerExit "metrics listener failed"
      | Ok _ =>
          match managerPlanStore cfg with
          | Err _ => ManagerExit "logstore init failed"
          | Ok store =>
              let '(js, ui) := managerNATS cfg in
              let checks := negb (String.eqb (env "TEO_GITHUB_TOKEN") "") in
              ManagerRun (mkManager (managerPredictor cfg) js true (Nat.b2n ui + Nat.b2n checks) store)
                second (5 * second) ui checks
          end
      end
  end.
End manager.

(** ** cmd/predictor *)

Inductive predictorStart :=
  | PrintVersion
  | HealthProxy (listen upstream : string).

Definition predictorMain (env : string -> string) : predictorStart :=
  if String.eqb (env "TEO_PREDICTOR_ML_URL") "" then PrintVersion
  else HealthProxy (if String.eqb (env "TEO_PREDICTOR_LISTEN") "" then ":8090" else env "TEO_PREDICTOR_LISTEN")
         (env "TEO_PREDICTOR_ML_URL").

(** [healthzProxyHandler]: whether the URL makes a request, and the status the
    upstream answers, if it does; the status and the body of the reply. *)
Definition healthzProxyHandler (newRequest : string -> bool) (get : string -> option Z) (mlURL : string) : Z * string :=
  let url := mlURL +:+ "/healthz" in
  if negb (newRequest url) then (500, "bad upstream url" +:+ nl)
  else match get url with
  | None => (503, "upstream unreachable" +:+ nl)
  | Some code => (code, "{" +:+ dq +:+ "status" +:+ dq +:+ ":" +:+ dq +:+ "upstream-" +:+ itoa code +:+ dq +:+ "}")
  end.

(** * What the processes start with *)

(** A worker that starts runs every shard with pytest, whatever runner its
    manifest names.  It subscribes to NATS before it has a name, so all workers
    share one durable consumer that hands out one message at a time.  It uploads
    logs although no bucket is set, to the default one, and when it discards
    them instead it still records their keys. *)
Theorem worker_starts out env pytest put a consumer : ai_Name pytest = "pytest" ->
  workerMain out env pytest = WorkerRun a consumer ->
  env "TEO_POSTGRES_DSN" <> ""
  /\ ag_AdapterName (agentOf put a) = "pytest" /\ ag_Execute (agentOf put a) = ai_Execute pytest
  /\ ag_WorkerID (agentOf put a) = op_Hostname out
  /\ (consumer = None \/ consumer = Some (mkConsumer "teo-worker-" "teo-worker-" (30 * 60 * second) 1 "teo.shards.dispatch"))
  /\ (env "TEO_LOGSTORE" <> "noop" -> (forall region, op_loadConfig out region = Ok tt) ->
        ac_Uploader a = UploadS3 (if String.eqb (env "TEO_S3_BUCKET") "" then "teo-artifacts" else env "TEO_S3_BUCKET"))
  /\ (env "TEO_LOGSTORE" = "noop" -> forall key body, ag_Upload (agentOf put a) key body = true).
Proof.
  intros Hn. unfold workerMain. destruct (String.eqb (c_PostgresDSN (LoadCommon env)) "") eqn:Ed; [done|].
  destruct (OpenPostgres (op_pg out) _) as [u|e]; [|done]. intros [= <- <-]. split.
  { apply String.eqb_neq in Ed. intros H. apply Ed. cbn. unfold getEnv. by rewrite H. }
  cbn [runDefaults ac_WorkerID String.eqb agentOf ag_AdapterName ag_Execute ag_WorkerID ac_Adapter ac_Uploader ag_Upload].
  split_and!; try done.
  - unfold workerNATS. destruct (Connect _ _ _) as [u'|]; [|by left]. destruct (EnsureStreams _).1; [by left|].
    unfold SubscribeNATS. cbn [negb]. destruct (op_createConsumer _ _ _); [by left|]. destruct (op_consume out); [by left|by right].
  - intros Hl Hc. apply String.eqb_neq in Hl. unfold workerUploader. rewrite Hl. unfold NewS3. rewrite Hc.
    cbn [c_S3Bucket LoadCommon]. unfold getEnv. by destruct (String.eqb (env "TEO_S3_BUCKET") "") eqn:E; [|rewrite E].
  - intros Hl key body. unfold workerUploader. rewrite Hl. by rewrite andb_false_r.
Qed.

(** The run manager plans whatever becomes of the ML service: the predictor it
    starts with answers every request with one prediction per test. *)
Theorem manager_predicts out env post m poll budget ui checks repo ts w :
  managerMain out env post = ManagerRun m poll budget ui checks ->
  (exists preds w', Predict (m_Predictor m) repo ts w = (Ok preds, w') /\ length preds = length ts)
  /\ m_Observers m = (Nat.b2n ui + Nat.b2n checks)%nat /\ (m_JS m = true -> ui = true)
  /\ (m_PlanStore m = true <-> env "TEO_S3_BUCKET" <> "").
Proof.
  unfold managerMain. destruct (String.eqb (c_PostgresDSN _) ""); [done|].
  destruct (OpenPostgres (op_pg out) _); [|done]. cbn [ServeHTTP].
  destruct (managerPlanStore out env _) as [store|] eqn:Es; [|done].
  destruct (managerNATS out (LoadCommon env)) as [js ui'] eqn:En. intros [= <- <- <- <- <-].
  cbn [m_Predictor m_Observers m_JS m_PlanStore]. split_and!.
  - unfold managerPredictor. destruct (String.eqb _ "").
    + cbn [Predict Heuristic.impl]. destruct (Heuristic.heuristic_answers Heuristic.NewHeuristic repo ts w eq_refl) as (p & w' & ? & ? & _); eauto.
    + cbn [Predict Fallback.impl Fallback.NewFallback Fallback.Primary Fallback.Secondary]. by apply Fallback.predict_total.
  - done.
  - unfold managerNATS in En. destruct (Connect _ _ _); [|by injection En as <- <-]. by injection En as _ <-.
  - unfold managerPlanStore in Es. destruct (String.eqb_spec (env "TEO_S3_BUCKET") "") as [E|E]; [by injection Es as <-|].
    destruct (NewS3 _ _ _); [|done]. by injection Es as <-.
Qed.

(** Asked for the health of the predictor, the proxy is healthy exactly when the
    ML service answers with a 2xx. *)
Theorem proxy_health newRequest get mlURL url n : url <> "" ->
  rt_Status (HTTPCheck n url (inr (healthzProxyHandler newRequest get mlURL).1)) = StatusOK
  <-> newRequest (mlURL +:+ "/healthz") = true /\ exists code, get (mlURL +:+ "/healthz") = Some code /\ 200 <= code < 300.
Proof.
  intros Hu%String.eqb_neq. unfold HTTPCheck, healthzProxyHandler. rewrite Hu.
  destruct (newRequest _); cbn [negb]; [|split; [done|by intros [? _]]].
  destruct (get _) as [code|]; cbn [fst]; [|split; [done|by intros (_ & c & ? & _)]].
  destruct (Z.leb_spec 200 code), (Z.ltb_spec code 300); cbn [andb answer rt_Status]; split; try done; intros H';
    try (split; [done|exists code; split; [done|lia]]); destruct H' as (_ & c & [= ->] & ?); lia.
Qed.

(** The query of a ClickHouse DSN changes nothing on the native connection:
    whatever it asks for, TLS included, is not among the options. *)
Theorem dsn_query_ignored parse dsn dsn' u q : parse dsn = Ok u ->
  parse dsn' = Ok (mkParsedURL (ur_Host u) (ur_User u) (ur_Path u) q) ->
  parseClickHouseDSN parse dsn' = parseClickHouseDSN parse dsn.
Proof. intros H H'. unfold parseClickHouseDSN. by rewrite H, H'. Qed.

Lemma mustRegister_new cs : forall reg, NoDup (mc_Name <$> cs) -> (forall c, c ∈ cs -> reg !! mc_Name c = None) ->
  exists m, mustRegister reg cs = Some m /\ (forall c, c ∈ cs -> m !! mc_Name c = Some c)
    /\ forall k, (forall c, c ∈ cs -> mc_Name c <> k) -> m !! k = reg !! k.
Proof.
  induction cs as [|c cs IH]; intros reg Hd Hn.
  { exists reg. split_and!; [done| |done]. intros c H. by apply elem_of_nil in H. }
  apply NoDup_cons in Hd as [Hc Hd]. unfold mustRegister. cbn [foldl mbind option_bind].
  rewrite bool_decide_false by (rewrite Hn by left; by intros [? ?]).
  destruct (IH (<[mc_Name c := c]> reg) Hd) as (m & H1 & H2 & H3).
  - intros c' H. rewrite lookup_insert_ne; [apply Hn; by right|]. intros E. apply Hc. rewrite E. by apply list_elem_of_fmap_2.
  - exists m. split_and!; [exact H1| |].
    + intros c' [->|H]%elem_of_cons; [|by apply H2]. rewrite H3; [by rewrite lookup_insert_eq|].
      intros c' H E. apply Hc. rewrite <-E. by apply list_elem_of_fmap_2.
    + intros k Hk. rewrite H3; [|intros c' H; apply Hk; by right]. rewrite lookup_insert_ne; [done|]. apply Hk. by left.
Qed.

(** The registry is made without a panic beside the standard collectors, holds
    every collector, and each histogram has increasing bounds. *)
Theorem newRegistry_complete base : (forall c, c ∈ teoCollectors -> base !! mc_Name c = None) ->
  exists reg, newRegistry base = Some reg
  /\ (forall c, c ∈ teoCollectors -> reg !! mc_Name c = Some c)
  /\ forall c b, c ∈ teoCollectors -> mc_Kind c = Histogram b -> StronglySorted Z.lt b.
Proof.
  intros Hb. assert (NoDup (mc_Name <$> teoCollectors)) as Hd by (apply (bool_decide_unpack _); vm_compute; exact I).
  destruct (mustRegister_new teoCollectors base Hd Hb) as (m & H1 & H2 & _). exists m. split_and!; [done|done|].
  intros c b Hc Hk. unfold teoCollectors in Hc. repeat (apply elem_of_cons in Hc as [->|Hc]; [cbn in Hk; first [discriminate|injection Hk as <-; repeat constructor]|]).
  by apply elem_of_nil in Hc.
Qed.

(** ** Concrete starts *)

Module ProcessDemo.
Definition out : Openings := mkOpenings (mkPgDriver (fun _ => Ok tt) (fun _ => Ok tt) (Ok tt)) (fun _ => Ok tt) (fun _ => Ok tt) (Ok tt)
  (fun _ => None) (fun _ _ => None) None "worker-7".
Definition env (k : string) : string := if String.eqb k "TEO_POSTGRES_DSN" then "postgres://db/teo" else "".
Definition pytest : adapterImpl := mkAdapter "pytest" (fun _ => ([], false)).
End ProcessDemo.

(** With a database and nothing else set, a worker takes its host's name only
    after it has subscribed, and uploads to the default bucket. *)
Example worker_default : workerMain ProcessDemo.out ProcessDemo.env ProcessDemo.pytest
  = WorkerRun (mkAgentConfig ProcessDemo.pytest "/workdir" "worker-7" true (UploadS3 "teo-artifacts")) (Some (workerConsumer "")).
Proof. vm_compute. reflexivity. Qed.

Example manager_default post : managerMain ProcessDemo.out ProcessDemo.env post
  = ManagerRun (mkManager (Heuristic.impl Heuristic.NewHeuristic) true true 1 false) second (5 * second) true false.
Proof. reflexivity. Qed.

(** * The agent's goroutines

    [Run]'s loop and the callback of the NATS consumer claim and execute shards
    independently of each other; both use the one [currentShardID], which is what
    the interruption handler marks.  Statements and loads and stores of the atomics
    are steps; the rows are those of the shards the agent can see. *)

Inductive loop := Poller | Consumer.
#[export] Instance loop_eq_dec : EqDecision loop.
Proof. solve_decision. Defined.

(** Where a loop is: past the check for draining, with a claimed shard, executing
    it, past the check after its tests, done with it. *)
Inductive loopPhase :=
  | Idle
  | Claiming
  | Holding (id : string)
  | Running (id : string)
  | Writing (id : string) (ok : bool)
  | Ending.

Inductive noticePhase :=
  | Listening
  | Swapped
  | Marking (id : string)
  | Noticed.

Record agentSys := mkAgentSys {
  gs_draining : bool;
  gs_current : string;
  gs_phase : loop -> loopPhase;
  gs_notice : noticePhase;
  gs_shards : gmap string string;
  gs_exited : bool
}.

Definition initAgent (shards : gmap string string) : agentSys := mkAgentSys false "" (fun _ => Idle) Listening shards false.

Definition at_phase (l : loop) (p : loopPhase) (f : loop -> loopPhase) : loop -> loopPhase :=
  fun l' => if decide (l' = l) then p else f l'.

Definition gs_goto (l : loop) (p : loopPhase) (s : agentSys) : agentSys :=
  mkAgentSys (gs_draining s) (gs_current s) (at_phase l p (gs_phase s)) (gs_notice s) (gs_shards s) (gs_exited s).
Definition gs_store (cur : string) (s : agentSys) : agentSys :=
  mkAgentSys (gs_draining s) cur (gs_phase s) (gs_notice s) (gs_shards s) (gs_exited s).
Definition gs_write (id status : string) (s : agentSys) : agentSys :=
  mkAgentSys (gs_draining s) (gs_current s) (gs_phase s) (gs_notice s) (<[id := status]> (gs_shards s)) (gs_exited s).
Definition gs_handler (d : bool) (n : noticePhase) (s : agentSys) : agentSys :=
  mkAgentSys d (gs_current s) (gs_phase s) n (gs_shards s) (gs_exited s).
Definition gs_exit (s : agentSys) : agentSys :=
  mkAgentSys (gs_draining s) (gs_current s) (gs_phase s) (gs_notice s) (gs_shards s) true.

(** A turn of a loop: [tryClaimAndRun] and [handleMessage] with [executeShard].  A
    shard without tests succeeds without a look at [draining]. *)
Inductive loopStep (l : loop) (s : agentSys) : agentSys -> Prop :=
  | ls_check : gs_phase s l = Idle -> gs_draining s = false -> loopStep l s (gs_goto l Claiming s)
  | ls_nothing : gs_phase s l = Claiming -> loopStep l s (gs_goto l Idle s)
  | ls_claim id : gs_phase s l = Claiming -> id <> "" -> gs_shards s !! id = Some "pending" ->
      loopStep l s (gs_goto l (Holding id) (gs_write id "running" s))
  | ls_store id : gs_phase s l = Holding id -> loopStep l s (gs_goto l (Running id) (gs_store id s))
  | ls_drained id : gs_phase s l = Running id -> gs_draining s = true -> loopStep l s (gs_goto l Ending s)
  | ls_executed id ok : gs_phase s l = Running id -> gs_draining s = false -> loopStep l s (gs_goto l (Writing id ok) s)
  | ls_empty id : gs_phase s l = Running id -> loopStep l s (gs_goto l (Writing id true) s)
  | ls_write id ok : gs_phase s l = Writing id ok ->
      loopStep l s (gs_goto l Ending (gs_write id (if ok then "succeeded" else "failed") s))
  | ls_clear : gs_phase s l = Ending -> loopStep l s (gs_goto l Idle (gs_store "" s)).

(** [beginDrain] *)
Inductive handlerStep (s : agentSys) : agentSys -> Prop :=
  | hs_swap : gs_notice s = Listening -> gs_draining s = false -> handlerStep s (gs_handler true Swapped s)
  | hs_idle : gs_notice s = Swapped -> gs_current s = "" -> handlerStep s (gs_handler (gs_draining s) Noticed s)
  | hs_load : gs_notice s = Swapped -> gs_current s <> "" -> handlerStep s (gs_handler (gs_draining s) (Marking (gs_current s)) s)
  | hs_mark id : gs_notice s = Marking id -> gs_shards s !! id = Some "running" ->
      handlerStep s (gs_handler (gs_draining s) Noticed (gs_write id "preempted" s))
  | hs_terminal id : gs_notice s = Marking id -> gs_shards s !! id <> Some "running" ->
      handlerStep s (gs_handler (gs_draining s) Noticed s).

(** Statements that fail: the claim is done and its reply lost, the last UPDATE of
    a shard is not done and its error dropped, the handler's is not done and its
    error logged.  (A claim that is not done is [ls_nothing].) *)
Inductive faultStep (l : loop) (s : agentSys) : agentSys -> Prop :=
  | fs_claim id : gs_phase s l = Claiming -> id <> "" -> gs_shards s !! id = Some "pending" ->
      faultStep l s (gs_goto l Idle (gs_write id "running" s))
  | fs_write id ok : gs_phase s l = Writing id ok -> faultStep l s (gs_goto l Ending s)
  | fs_mark id : gs_notice s = Marking id -> faultStep l s (gs_handler (gs_draining s) Noticed s).

(** The process, with the given loops; a tick of [Run]'s loop ends it.  [faults]:
    statements may fail.  The cancellation of its context by a signal is not
    modelled. *)
Inductive agentStep (faults : bool) (loops : list loop) (s : agentSys) : agentSys -> Prop :=
  | gst_loop l s' : gs_exited s = false -> l ∈ loops -> loopStep l s s' -> agentStep faults loops s s'
  | gst_handler s' : gs_exited s = false -> handlerStep s s' -> agentStep faults loops s s'
  | gst_fault l s' : gs_exited s = false -> faults = true -> l ∈ loops -> faultStep l s s' -> agentStep faults loops s s'
  | gst_exit : gs_exited s = false -> gs_draining s = true -> gs_phase s Poller = Idle -> gs_current s = "" ->
      agentStep faults loops s (gs_exit s).

(** The same when no statement fails and the notice comes at a good moment: each
    loop is between two shards or in the middle of one, and stays there until the
    shard is marked. *)
Definition steady (p : loopPhase) : bool := match p with Idle | Running _ => true | _ => false end.

Inductive calmStep (loops : list loop) (s : agentSys) : agentSys -> Prop :=
  | cst_loop l s' : gs_exited s = false -> l ∈ loops -> loopStep l s s' -> calmStep loops s s'
  | cst_notice s' : gs_exited s = false -> (forall l, steady (gs_phase s l) = true) -> gs_notice s = Listening ->
      rtc handlerStep s s' -> gs_notice s' = Noticed -> calmStep loops s s'
  | cst_exit : gs_exited s = false -> gs_draining s = true -> gs_phase s Poller = Idle -> gs_current s = "" ->
      calmStep loops s (gs_exit s).

(** ** What the interruption handler reaches *)

Lemma insert_status (m : gmap string string) id id' st st' :
  <[id := st]> m !! id' = Some st' -> id' = id /\ st' = st \/ id' <> id /\ m !! id' = Some st'.
Proof.
  destruct (decide (id' = id)) as [->|Hne].
  - rewrite lookup_insert_eq. intros [= <-]. by left.
  - rewrite lookup_insert_ne by done. by right.
Qed.

Lemma loopStep_preempted l s s' : loopStep l s s' ->
  gs_notice s' = gs_notice s
  /\ forall id, gs_shards s' !! id = Some "preempted" -> gs_shards s !! id = Some "preempted".
Proof.
  intros H. destruct H as [| |id| | | | |id ok|]; (split; [done|]); try done; intros id'; cbn;
    (intros [[_ E]|[_ E]]%insert_status; [|done]); [done|]. by destruct ok.
Qed.

Definition onePreempted (s : agentSys) : Prop :=
  match gs_notice s with
  | Noticed => exists x, forall id, gs_shards s !! id = Some "preempted" -> id = x
  | _ => forall id, gs_shards s !! id <> Some "preempted"
  end.

Lemma handlerStep_onePreempted s s' : handlerStep s s' -> onePreempted s -> onePreempted s'.
Proof.
  unfold onePreempted. intros H Hs. destruct H as [Hn _|Hn _|Hn _|id Hn _|id Hn _]; rewrite Hn in Hs; cbn; try done.
  - exists "". intros id E. by apply Hs in E.
  - exists id. intros id' [[-> _]|[_ E]]%insert_status; [done|]. by apply Hs in E.
  - exists "". intros id' E. by apply Hs in E.
Qed.

Lemma faultStep_onePreempted l s s' : faultStep l s s' -> onePreempted s -> onePreempted s'.
Proof.
  assert (forall id s', gs_notice s' = gs_notice s -> gs_shards s' = <[id := "running"]> (gs_shards s) -> onePreempted s -> onePreempted s') as Hrun.
  { intros id s1 E1 E2. unfold onePreempted. rewrite E1, E2.
    assert (forall i, <[id := "running"]> (gs_shards s) !! i = Some "preempted" -> gs_shards s !! i = Some "preempted") as Hi.
    { intros i [[_ E]|[_ E]]%insert_status; [discriminate|done]. }
    destruct (gs_notice s); try (intros Ho i E%Hi; by apply (Ho i)). intros [x Hx]. exists x. intros i E%Hi. by apply Hx. }
  intros [id _ _ _|id ok _|id Hn]; [by apply (Hrun id)|done|]. unfold onePreempted. rewrite Hn. cbn. intros Ho. exists "". intros i E. by apply Ho in E.
Qed.

Lemma agentStep_onePreempted faults loops s s' : agentStep faults loops s s' -> onePreempted s -> onePreempted s'.
Proof.
  intros [l s1 _ _ [Hn Hp]%loopStep_preempted|s1 _ H|l s1 _ _ _ H|];
    [|by apply handlerStep_onePreempted|by eapply faultStep_onePreempted|done].
  unfold onePreempted. rewrite Hn. destruct (gs_notice s).
  4: { intros [x Hx]. exists x. intros id' E. by apply Hx, Hp. }
  all: intros Ho id' E; by apply (Ho id'), Hp.
Qed.

(** ** One loop *)

(** A shard is running only in the hands of the loop, which has not been told to
    drain. *)
Record soloInv (s : agentSys) : Prop := mkSoloInv {
  so_consumer : gs_phase s Consumer = Idle;
  so_running id : gs_shards s !! id = Some "running" -> gs_draining s = false
    /\ (gs_phase s Poller = Holding id \/ gs_phase s Poller = Running id \/ exists ok, gs_phase s Poller = Writing id ok);
  so_current id : gs_phase s Poller = Running id -> gs_current s = id;
  so_named id : gs_phase s Poller = Holding id \/ gs_phase s Poller = Running id -> id <> "";
  so_drained : gs_draining s = true -> gs_phase s Poller <> Claiming /\ forall id, gs_phase s Poller <> Holding id;
  so_notice : gs_notice s = Listening \/ gs_notice s = Noticed;
  so_exited : gs_exited s = true -> gs_draining s = true
}.

Lemma at_phase_same l p f : at_phase l p f l = p.
Proof. unfold at_phase. by rewrite decide_True. Qed.
Lemma at_phase_consumer p f : at_phase Poller p f Consumer = f Consumer.
Proof. done. Qed.

Lemma loopStep_solo s s' : gs_exited s = false -> loopStep Poller s s' -> soloInv s -> soloInv s'.
Proof.
  intros Hx H [I1 I2 I3 I4 I5 I6 I7].
  destruct H as [Hp Hd|Hp|i Hp Hne Hs|i Hp|i Hp Hd|i ok Hp Hd|i Hp|i ok Hp|Hp]; split; cbn;
    rewrite ?at_phase_same, ?at_phase_consumer; try done; try congruence; try (by intros; congruence).
  all: try (intros id' Hr; destruct (I2 id' Hr) as (Hd' & [E|[E|[ok' E]]]); rewrite Hp in E; simplify_eq; eauto; fail).
  all: try (intros id' [?|?]; simplify_eq; eauto; fail).
  - intros id' [[-> _]|[_ Hr]]%insert_status.
    + split; [|by left]. destruct (gs_draining s); [|done]. by destruct (I5 eq_refl).
    + destruct (I2 _ Hr) as (_ & [E|[E|[ok' E]]]); rewrite Hp in E; done.
  - intros Hd. by destruct (I5 Hd).
  - intros id' Hr. destruct (I2 _ Hr). congruence.
  - intros id' [[_ E]|[Hi Hr]]%insert_status; [by destruct ok|]. destruct (I2 _ Hr) as (_ & [E|[E|[ok' E]]]); rewrite Hp in E; simplify_eq.
Qed.

(** The handler run to its end. *)
Lemma handler_runs s s' : gs_notice s = Listening -> rtc handlerStep s s' -> gs_notice s' = Noticed ->
  s' = gs_handler true Noticed
    (if bool_decide (gs_current s <> "" /\ gs_shards s !! gs_current s = Some "running") then gs_write (gs_current s) "preempted" s else s).
Proof.
  intros Hl H Hn. inversion H as [|? s1 ? K1 R1]; subst; [congruence|]. destruct K1; cbn in *; try congruence.
  inversion R1 as [|? s2 ? K2 R2]; subst; [done|]. inversion K2; subst; cbn in *; simplify_eq.
  - rewrite bool_decide_false by (by intros [? _]). inversion R2 as [|? s3 ? K3 R3]; subst; [done|]. inversion K3; subst; cbn in *; simplify_eq.
  - inversion R2 as [|? s3 ? K3 R3]; subst; [done|]. inversion K3; subst; cbn in *; simplify_eq.
    + rewrite bool_decide_true by done. inversion R3 as [|? s4 ? K4 R4]; subst; [done|]. inversion K4; subst; cbn in *; simplify_eq.
    + rewrite bool_decide_false by (by intros [_ ?]). inversion R3 as [|? s4 ? K4 R4]; subst; [done|]. inversion K4; subst; cbn in *; simplify_eq.
Qed.

Lemma calmStep_solo s s' : calmStep [Poller] s s' -> soloInv s -> soloInv s'.
Proof.
  intros [l s1 Hx Hl H|s1 Hx Hst Hl H Hn|Hx Hd Hp Hc] I.
  - apply list_elem_of_singleton in Hl as ->. by apply (loopStep_solo s).
  - rewrite (handler_runs s s1 Hl H Hn). destruct I as [I1 I2 I3 I4 I5 I6 I7]. specialize (Hst Poller).
    case_bool_decide as E; split; cbn; try done; try (by right).
    + intros id [[_ ?]|[Hi Hr]]%insert_status; [done|]. destruct (I2 id Hr) as (_ & [P|[P|[ok P]]]); try (rewrite P in Hst; done).
      exfalso. apply Hi. symmetry. by apply I3.
    + intros _. destruct (gs_phase s Poller); done.
    + intros id Hr. exfalso. destruct (I2 id Hr) as (_ & [P|[P|[ok P]]]); try (rewrite P in Hst; done).
      apply E. rewrite (I3 id P). split; [|done]. apply I4. by right.
    + intros _. destruct (gs_phase s Poller); done.
  - destruct I. split; try done. 
Qed.

Lemma rtc_inv {A} (R : A -> A -> Prop) (P : A -> Prop) : (forall x y, R x y -> P x -> P y) -> forall x y, rtc R x y -> P x -> P y.
Proof. intros HP x y H. induction H; eauto. Qed.

(** Both loops with a shard: the consumer's [a], then the poller's [b]. *)
Lemma both_claim shards a b : a <> b -> a <> "" -> b <> "" -> shards !! a = Some "pending" -> shards !! b = Some "pending" ->
  exists s, rtc (calmStep [Poller; Consumer]) (initAgent shards) s
  /\ gs_exited s = false /\ gs_draining s = false /\ gs_notice s = Listening /\ gs_current s = b
  /\ gs_phase s Consumer = Running a /\ gs_phase s Poller = Running b /\ gs_shards s = <[b := "running"]> (<[a := "running"]> shards).
Proof.
  intros Hab Ha Hb Hsa Hsb. eexists. split.
  - eapply rtc_l; [apply (cst_loop _ _ Consumer); [done|by right; left|by apply ls_check]|].
    eapply rtc_l; [apply (cst_loop _ _ Consumer); [done|by right; left|by apply (ls_claim _ _ a)]|].
    eapply rtc_l; [apply (cst_loop _ _ Consumer); [done|by right; left|by apply (ls_store _ _ a)]|].
    eapply rtc_l; [apply (cst_loop _ _ Poller); [done|by left|by apply ls_check]|].
    eapply rtc_l; [apply (cst_loop _ _ Poller); [done|by left|apply (ls_claim _ _ b); [done|done|]]|].
    { cbn. by rewrite lookup_insert_ne. }
    eapply rtc_l; [apply (cst_loop _ _ Poller); [done|by left|by apply (ls_store _ _ b)]|]. apply rtc_refl.
  - done.
Qed.

(** The polling loop in the middle of its shard. *)
Lemma poller_runs shards a : a <> "" -> shards !! a = Some "pending" -> rtc (calmStep [Poller]) (initAgent shards)
  (gs_goto Poller (Running a) (gs_store a (gs_goto Poller (Holding a) (gs_write a "running" (gs_goto Poller Claiming (initAgent shards)))))).
Proof.
  intros Ha Hs. assert (Poller ∈ [Poller]) as Hin by left.
  eapply rtc_l; [apply (cst_loop _ _ Poller); [done|done|by apply ls_check]|].
  eapply rtc_l; [apply (cst_loop _ _ Poller); [done|done|by apply (ls_claim _ _ a)]|].
  apply rtc_once, (cst_loop _ _ Poller); [done|done|by apply (ls_store _ _ a)].
Qed.

(** Draining with its shard not marked, the polling loop gives it up and the
    process ends. *)
Lemma gives_up faults s a : gs_exited s = false -> gs_draining s = true -> gs_phase s Poller = Running a -> gs_shards s !! a = Some "running" ->
  exists s', rtc (agentStep faults [Poller]) s s' /\ gs_exited s' = true /\ gs_shards s' !! a = Some "running".
Proof.
  intros Hx Hd Hp Hs. assert (Poller ∈ [Poller]) as Hin by left. eexists. split.
  - eapply rtc_l; [apply (gst_loop _ _ _ Poller); [done|done|by apply (ls_drained _ _ a)]|].
    eapply rtc_l; [apply (gst_loop _ _ _ Poller); [done|done|by apply ls_clear]|].
    apply rtc_once, gst_exit; done.
  - done.
Qed.

(** The notice between the claim and the store of the id. *)
Lemma notice_before_store shards a : a <> "" -> shards !! a = Some "pending" ->
  exists s1 s, rtc (calmStep [Poller]) (initAgent shards) s1 /\ gs_phase s1 Poller = Holding a /\ gs_notice s1 = Listening
    /\ rtc (agentStep false [Poller]) s1 s /\ gs_exited s = true /\ gs_shards s !! a = Some "running".
Proof.
  intros Ha Hsa. assert (Poller ∈ [Poller]) as Hin by left.
  set (s1 := gs_goto Poller (Holding a) (gs_write a "running" (gs_goto Poller Claiming (initAgent shards)))).
  destruct (gives_up false (gs_goto Poller (Running a) (gs_store a (gs_handler true Noticed (gs_handler true Swapped s1)))) a)
    as (s & H & Hx & Hr); [done|done|done|apply lookup_insert_eq|]. exists s1, s. split_and!; [|done|done| |done|done].
  - eapply rtc_l; [apply (cst_loop _ _ Poller); [done|done|by apply ls_check]|].
    apply rtc_once, (cst_loop _ _ Poller); [done|done|by apply (ls_claim _ _ a)].
  - eapply rtc_l; [apply gst_handler; [done|by apply hs_swap]|]. eapply rtc_l; [apply gst_handler; [done|by apply hs_idle]|].
    eapply rtc_l; [apply (gst_loop _ _ _ Poller); [done|done|by apply (ls_store _ _ a)]|]. exact H.
Qed.

(** The handler's UPDATE fails. *)
Lemma mark_fails shards a : a <> "" -> shards !! a = Some "pending" ->
  exists s1 s2 s, rtc (calmStep [Poller]) (initAgent shards) s1 /\ gs_phase s1 Poller = Running a /\ gs_notice s1 = Listening
    /\ rtc handlerStep s1 s2 /\ gs_notice s2 = Marking a
    /\ rtc (agentStep true [Poller]) s2 s /\ gs_exited s = true /\ gs_shards s !! a = Some "running".
Proof.
  intros Ha Hsa. assert (Poller ∈ [Poller]) as Hin by left.
  pose proof (poller_runs shards a Ha Hsa) as H1. match type of H1 with rtc _ _ ?x => set (s1 := x) in * end.
  destruct (gives_up true (gs_handler true Noticed (gs_handler true (Marking a) (gs_handler true Swapped s1))) a)
    as (s & H & Hx & Hr); [done|done|done|apply lookup_insert_eq|].
  exists s1, (gs_handler true (Marking a) (gs_handler true Swapped s1)), s. split_and!; [done|done|done| |done| |done|done].
  - eapply rtc_l; [by apply hs_swap|]. apply rtc_once. by apply (hs_load (gs_handler true Swapped s1)).
  - eapply rtc_l; [apply (gst_fault _ _ _ Poller); [done|done|done|by apply (fs_mark _ _ a)]|]. exact H.
Qed.

(** C40: A spot interruption reaches one shard of the agent: however the steps
    interleave and whatever statements fail, at most one shard is ever marked
    preempted.  With the polling loop alone, on the condition that no statement
    fails and that the handler runs to its end while the loop is between two
    shards or in the middle of one, a worker that exits leaves no shard running.
    The condition is needed: when the notice comes between the claim and the store
    of the shard's id, and when the handler's UPDATE fails, the polling loop drops
    its shard and exits with the row still running.  With the NATS consumer beside
    it the condition is not enough: the two loops execute a shard each, the notice
    marks only the one that was started last, and the process exits in the middle
    of the other, whose row stays running. *)
Theorem agent_drains_one_shard shards : (forall id st, shards !! id = Some st -> st <> "running" /\ st <> "preempted") ->
  (forall faults loops s, rtc (agentStep faults loops) (initAgent shards) s -> exists x, forall id, gs_shards s !! id = Some "preempted" -> id = x)
  /\ (forall s, rtc (calmStep [Poller]) (initAgent shards) s -> gs_exited s = true -> forall id, gs_shards s !! id <> Some "running")
  /\ (forall a, a <> "" -> shards !! a = Some "pending" ->
        (exists s1 s, rtc (calmStep [Poller]) (initAgent shards) s1 /\ gs_phase s1 Poller = Holding a /\ gs_notice s1 = Listening
          /\ rtc (agentStep false [Poller]) s1 s /\ gs_exited s = true /\ gs_shards s !! a = Some "running")
        /\ (exists s1 s2 s, rtc (calmStep [Poller]) (initAgent shards) s1 /\ gs_phase s1 Poller = Running a /\ gs_notice s1 = Listening
          /\ rtc handlerStep s1 s2 /\ gs_notice s2 = Marking a
          /\ rtc (agentStep true [Poller]) s2 s /\ gs_exited s = true /\ gs_shards s !! a = Some "running"))
  /\ (forall a b, a <> b -> a <> "" -> b <> "" -> shards !! a = Some "pending" -> shards !! b = Some "pending" ->
        exists s, rtc (calmStep [Poller; Consumer]) (initAgent shards) s /\ gs_exited s = true
          /\ gs_phase s Consumer = Running a /\ gs_shards s !! a = Some "running" /\ gs_shards s !! b = Some "preempted").
Proof.
  intros Hs. split; [|split; [|split]].
  - intros faults loops s H. assert (onePreempted s) as Hp.
    { apply (rtc_inv _ _ (agentStep_onePreempted faults loops) _ _ H). intros i E. by apply Hs in E as [_ ?]. }
    unfold onePreempted in Hp. destruct (gs_notice s); [exists ""; intros i E; by apply Hp in E..|done].
  - intros s H Hx id E. assert (soloInv s) as I.
    { apply (rtc_inv _ _ calmStep_solo _ _ H). split; cbn; try done; [|by intros id' [?|?]|by left].
      intros id' E'. by apply Hs in E' as [? _]. }
    destruct (so_running _ I id E) as [Hd _]. rewrite (so_exited _ I Hx) in Hd. done.
  - intros a Ha Hsa. split; [by apply notice_before_store|by apply mark_fails].
  - intros a b Hab Ha Hb Hsa Hsb. destruct (both_claim shards a b) as (s & H & Hx & Hd & Hn & Hc & Pa & Pb & Es); try done.
    destruct s as [d cur ph nt sh ex]. cbn in Hx, Hd, Hn, Hc, Pa, Pb, Es. subst. eexists. split.
    { etrans; [exact H|].
      eapply rtc_l. { apply cst_notice; [done| |done| |].
        - intros [|]; cbn; by rewrite ?Pa, ?Pb.
        - eapply rtc_l; [by apply hs_swap|]. eapply rtc_l; [by apply hs_load|].
          eapply rtc_l; [apply (hs_mark _ b); [done|cbn; by rewrite lookup_insert_eq]|]. apply rtc_refl.
        - done. }
      eapply rtc_l; [apply (cst_loop _ _ Poller); [done|by left|by apply (ls_drained _ _ b)]|].
      eapply rtc_l; [apply (cst_loop _ _ Poller); [done|by left|by apply ls_clear]|].
      eapply rtc_l; [by apply cst_exit|]. apply rtc_refl. }
    cbn. split_and!; [done|done| |].
    + by rewrite 2!lookup_insert_ne, lookup_insert_eq by done.
    + by rewrite lookup_insert_eq.
Qed.

Lemma agent_drains_one_shard_witness : exists s,
  rtc (calmStep [Poller; Consumer]) (initAgent {[ "a" := "pending"; "b" := "pending" ]}) s
  /\ gs_exited s = true /\ gs_phase s Consumer = Running "a" /\ gs_shards s !! "a" = Some "running".
Proof.
  destruct (agent_drains_one_shard {[ "a" := "pending"; "b" := "pending" ]}) as (_ & _ & _ & H).
  - intros id st [[_ <-]|[_ [_ <-]%lookup_singleton_Some]]%lookup_insert_Some; by split.
  - destruct (H "a" "b") as (s & H1 & H2 & H3 & H4 & _); [discriminate..|reflexivity|reflexivity|]. by exists s.
Defined.
